(* ===== verification/_CoqProject ===== *)
-Q . S2P
Prelude.v
GoStrings.v
Base64.v
Json.v
GoFloat.v
StoreTypes.v
Slug.v
Tokens.v
Authz.v
IngestAuth.v
TenantAuth.v
TenantStamp.v
TenantQuota.v
PgCore.v
PgFleet.v
TenantsService.v
Enrollment.v
Crypto.v
Catalog.v
PipelineGraph.v
Secrets.v
Render.v
Validate.v
RenderSpec.v
PgPipelines.v
PipelineService.v
K8sDistributor.v
OpampRegistry.v
OpampHandler.v
OpampSafety.v
OpampPg.v
EdgeRollout.v
Utf8.v
GoFormat.v
GoParse.v
Webhooks.v
Alerting.v
PgUsers.v
PgScim.v
Scim.v
ScimAccess.v
PgSettings.v
ApiCore.v
Billing.v
ApiTenant.v
ApiIsolation.v
ApiReads.v
ApiAdmin.v
AuthProviders.v
SignIn.v
Telemetry.v
Stats.v
Retention.v
Config.v
Leader.v
Fleetctl.v
AuditTrail.v
AuditLog.v
HttpFront.v
Router.v
QuotaFactory.v
ServerProgram.v
