(* ===== verification/Prelude.v ===== *)
(** * otel-fleet: a verification development

    otel-fleet is a control plane for multi-tenant fleets of OpenTelemetry
    collectors, with components of its own that run inside the collectors.
    Tenants (customers) send telemetry to a gateway collector with an ingest
    API key; the gateway stamps the data with the tenant, enforces quotas and
    passes it to a forwarding collector, whose config the control plane
    generates from the pipelines each tenant has configured.  Agents at the
    edge hold an OpAMP connection to the control plane and receive the config
    of their tenant.  The control plane keeps its state in PostgreSQL; the
    telemetry is in ClickHouse, one server per region, and the metrics in
    VictoriaMetrics.  People use a REST API with sessions from single sign-on,
    or API tokens; identity providers provision accounts over SCIM.

    ** Parts, files and how they correspond to the code

    Shared vocabulary.
    - [Prelude] (this file): error results, sorting, tactics, hint databases and
      generic lemmas; [GoStrings], [Utf8], [Base64], [Json], [GoFloat],
      [GoFormat], [GoParse]: what the program uses of Go's strings, UTF-8,
      encoding/base64, encoding/json, float64, formatting and parsing.
    - [StoreTypes]: the records, constants and errors of internal/store/store.go
      and audit entries (internal/audit).
    - [Slug], [Tokens]: internal/tenants/slug.go, keys.go, agenttoken.go and the
      credential parts of bootstrap.go and apitoken.go.

    The gateway (collector/).
    - [TenantAuth]: extension/tenantauth; the key cache, [Authenticate] with its
      fail-open window, and the gateway over time as a step relation in which
      the control plane and the clock take steps of their own.
    - [TenantStamp], [TenantQuota]: processor/tenantstamp, processor/tenantquota;
      [QuotaFactory]: the quota that the instances of one component share.
    - [IngestAuth]: internal/ingestauth/service.go, the gateway's counterpart in
      the control plane.

    The store (internal/store).
    - [PgCore] (pg.go, pg_apitokens.go), [PgFleet], [PgPipelines], [PgUsers],
      [PgScim] (pg_scim_groups.go), [PgSettings] (pg_webhooks.go, pg_alerting.go,
      pg_billing.go), with pg_reencrypt.go in [Crypto], pg_authproviders.go in
      [AuthProviders] and pg_audit.go in [AuditLog].  The tables are the finite
      maps of the record [DB]; a transaction is a function to a result and new
      tables, and [inTx] commits or rolls back; the constraints of the migrations
      that a statement is subject to are written out with it.

    Tenants, pipelines and the fleet.
    - [TenantsService], [Enrollment]: internal/tenants/service.go, bootstrap.go.
    - [Crypto]: internal/crypto and the admin operation that re-encrypts.
    - [Catalog], [PipelineGraph], [Secrets], [Render], [Validate]: internal/
      pipelines/catalog, graph.go and naming.go, secrets.go, render.go and
      render_edge.go, validate.go.  A config is the tree of YAML nodes the code
      builds.  [RenderSpec] reads such trees back: sections, references, routes.
    - [PipelineService]: internal/pipelines/service.go and distributor.go;
      [K8sDistributor]: internal/pipelines/k8s.go.
    - [OpampRegistry], [OpampHandler]: internal/opamp/registry.go, handler.go.
      The handler is written against the class [FleetStore] and a renderer;
      [OpampSafety] makes server.go's callbacks the steps of a relation and
      proves what holds for every store and renderer, [OpampPg] instantiates the
      class with the PostgreSQL model.
    - [EdgeRollout]: the pipeline service as the handler's renderer, the way
      cmd/otel-fleet/main.go connects them.

    Access.
    - [Authz]: internal/authz, internal/auth/session.go and the scope, token and
      Guard code of internal/api: from a request to the principal it runs as.
    - [AuthProviders], [SignIn]: internal/auth, the providers and their registry,
      and the OIDC, SAML and GitHub flows.
    - [Scim], [ScimAccess]: internal/scim, and what it does to access.

    The REST API (internal/api).
    - [HttpFront], [Router]: ratelimit.go, security_metrics.go, spa.go, rawbody.go,
      router.go and the route table of apigen: from a request as it is sent to
      the operation that runs.
    - [ApiCore]: responses, the mapping of errors, the principal of a request.
    - [ApiTenant]: handlers.go, handlers_fleet.go, handlers_pipelines.go;
      [ApiIsolation] and [ApiReads] state what a tenant-scoped session can change
      and see through them.
    - [ApiAdmin]: users, webhooks, alert rules, maintenance windows, API tokens.
    - [AuditTrail], [AuditLog]: internal/audit, what the requests record, the listing.

    Operation.
    - [Webhooks], [Alerting]: internal/webhooks, internal/alerting.
    - [Billing]: internal/billing, internal/stats/cost.go and their handlers.
    - [Telemetry], [Stats]: internal/regionstore, internal/query, internal/stats
      and their handlers, over the tables of deploy/clickhouse/schema.
    - [Retention]: internal/retention and the erasure main.go passes to tenants.
    - [Config], [Leader]: internal/config, internal/leader.
    - [ServerProgram]: the start of cmd/otel-fleet, internal/tlsconf,
      internal/pgnotify, and the ops listener (internal/api/ops.go).
    - [Fleetctl]: cmd/otel-fleetctl, the client that exports and applies specs.

    Definitions carry the names of the code; [pg_] and [reg_] prefix the methods
    of the store and the registry, and records prefix their fields with the type.
    Everything is executable, so examples and witnesses are computed.

    ** What the theorems show

    - The gateway: every request it accepts is backed by the latest verdict on
      its key, fresh or within the fail-open window, and a revoked key stops
      working in bounded time ([TenantAuth]); data leaves with the authenticated
      tenant and nothing else under the identity attributes ([TenantStamp]); in
      every time window a tenant is admitted at most its burst plus its rate
      times the length, independently of other tenants ([TenantQuota]), and for
      its logs, traces and metrics together ([QuotaFactory]).
    - Isolation of tenants: what a session with customer grants changes
      ([ApiIsolation]), what it reads of the tables ([ApiReads]) and of telemetry
      ([Stats]), which configs an agent is sent ([OpampSafety]), which pipelines
      a tenant's data passes ([RenderSpec]), which rows a retention sweep and a
      deletion remove ([Retention]).
    - Access: who may run an operation, however its path is encoded, and what a
      served request has proved ([Router], [Authz]); that a browser is
      signed in only through an enabled provider and for an identity it vouched
      for ([SignIn]), and which providers the login page offers
      ([AuthProviders]); that provisioned accounts have the access their groups
      say ([ScimAccess]); that an enabled administrator remains ([PgScim],
      [ApiAdmin]); which ingest keys work ([TenantsService]).
    - Secrets: never stored or shown in the clear, decrypt to what was submitted
      ([Secrets]); a key rotation reaches every stored secret ([Crypto]).
    - Pipelines: in rendered configs references resolve ([RenderSpec]); every
      operation keeps a state whose configs can be rendered, and activation rolls
      out, down to the agents of the tenant ([PipelineService], [EdgeRollout]).
    - Records: changes made over the API are in the audit log under the name of
      their caller ([AuditTrail]), denials in the security log ([Router]); the
      pages of the audit log and of stored log rows give every row once
      ([AuditLog], [Telemetry]); a statement that fits the machine
      integers is exact ([Billing]).
    - Notifications: transitions alternate, what is sent and held back
      ([Alerting]), a delivery ends after at most four attempts ([Webhooks]).
    - Running it: a configuration that loads is well formed ([Config]), a server
      that starts has what it configures ([ServerProgram]); one replica leads
      ([Leader]); an address is limited by its own requests ([HttpFront]); an
      applied export changes nothing and a dry run says what the run does
      ([Fleetctl]).
    - Departures from what the code or its documentation intends, as theorems
      about concrete runs or in general, next to the operation they concern.

    ** Bounds and fuel

    The creation of a customer tries at most ten slugs, as the code does.
    [resolveAgent] re-enters itself once after losing a race for an instance
    UID; two units of fuel are enough, which is proved.  The eviction loop
    of the key cache, the padding of short slugs, the delivery loop (four) and
    the eviction of [Publish] (two) run on fuel that is proved enough; parsing a
    duration takes as much fuel as the text has bytes, and following the pages
    of a log one unit more than it has rows, which is proved enough.  The other
    recursions are structural.  The quota bound needs burst_seconds of at most
    ten minutes, the time after which an idle bucket is collected.  Timestamps,
    row ids and counters are unbounded integers, except where sums are billed,
    which are int64 and uint64 with their wrap-around; float64 arithmetic is
    computed exactly as binary64 in [GoFloat], and the window bound of the quota
    is proved for the same code over exact rationals.

    ** Idealisations

    SHA-256 is a function; where a theorem needs that two credentials differ, it
    says so about their hashes.  AES-GCM is a class with two laws: what is sealed
    opens under its key and under no other.  The JSON Schema library, the YAML
    encoder and decoder, the collector binary, the numbers of the OpAMP protocol,
    the Unicode tables, pdata maps, the Kubernetes API, the parsers of URLs, IP
    addresses, UUIDs, PEM, X.509 and JSON text, and the shortest decimal form of
    a float64 are classes or parameters, with laws only where a theorem uses
    them; so are go-chi, the token bucket of x/time/rate and the key files of
    TLS.  What identity providers answer, and what the OIDC, OAuth and SAML
    libraries make of it, is an input of a request; so are random numbers,
    whether a remote server fails, and times that are not read from one clock.
    ClickHouse queries and mutations are their meaning on the tables, and
    VictoriaMetrics is a function of the request.

    The iteration over a Go map and ORDER BY on ties and on text use a fixed
    order; statements do not depend on it.  PostgreSQL's lower() is a parameter,
    and TIMESTAMPTZ columns keep full precision.  Methods guarded by a mutex, and
    transactions, are single steps; so are the handlers of the REST API, in
    which other requests could run between two calls of the store, except where
    a file says otherwise.  Audit entries get ids and times by their place in
    the log.  The connection to PostgreSQL is lost only in [Leader], where
    sessions die, and by the listener of [ServerProgram].  JSONB columns hold
    JSON values.

    ** Not modelled

    Generated code (the OpenAPI server but for its route table, and the protobuf
    services): it decodes requests and encodes responses, and the definitions
    start from decoded ones.  The SQL migrations, except for the constraints the
    store's statements run into.  Of the programs: the timeouts of listeners and
    the shutdown of cmd/otel-fleet, the HTTP client, YAML text and listing
    commands of otel-fleetctl, the tool in test/load.  The factories that only
    register collector components.  Metrics and logs that nothing reads back,
    except the security log.  They are wiring around external libraries. *)
From Stdlib Require Export ZArith Lia.
From stdpp Require Export base tactics decidable option list gmap strings sorting pretty.

#[global] Set Default Proof Using "Type".
#[global] Set Warnings "-clear-no-such-hyp".

(** ** Error results: Go's [(value, error)] pair *)

Inductive result (A E : Type) : Type :=
| Ok (a : A)
| Err (e : E).
Arguments Ok {A E} a.
Arguments Err {A E} e.

Declare Scope go_scope.
Delimit Scope go_scope with go.

Notation "'let*' x ':=' c 'in' k" :=
  (match c with Ok x => k | Err e => Err e end)
  (at level 10, x name, c at level 100, k at level 200) : go_scope.

#[global] Instance result_eq_dec {A E} `{EqDecision A, EqDecision E} : EqDecision (result A E).
Proof. solve_decision. Defined.

Definition is_ok {A E} (r : result A E) : bool :=
  match r with Ok _ => true | Err _ => false end.

(** [rmap f l]: the loop [for _, x := range l { y, err := f(x); ... }] that
    appends [y] and returns at the first error. *)
Fixpoint rmap {A B E} (f : A -> result B E) (l : list A) : result (list B) E :=
  match l with
  | [] => Ok []
  | x :: l => match f x with
              | Err e => Err e
              | Ok y => match rmap f l with
                        | Err e => Err e
                        | Ok ys => Ok (y :: ys)
                        end
              end
  end.

Lemma rmap_ok_iff {A B E} (f : A -> result B E) l ys :
  rmap f l = Ok ys <-> Forall2 (fun x y => f x = Ok y) l ys.
Proof.
  revert ys; induction l as [|x l IH]; intros ys; simpl.
  - split; [intros [= <-]; constructor | by inversion 1].
  - split.
    + destruct (f x) eqn:Hf; [|done]. destruct (rmap f l) eqn:Hm; [|done].
      intros [= <-]. constructor; [done|]. by apply IH.
    + inversion 1 as [|? y ? ys' Hx Hl]; subst. rewrite Hx.
      apply IH in Hl. by rewrite Hl.
Qed.

Lemma rmap_pure {A B E} (f : A -> result B E) (g : A -> B) l :
  (forall x, x ∈ l -> f x = Ok (g x)) -> rmap f l = Ok (g <$> l).
Proof.
  induction l as [|x l IH]; intros H; simpl; [done|].
  rewrite H by set_solver. rewrite IH; [done|]. intros y Hy; apply H; set_solver.
Qed.

(** ** Machine integers *)

Definition int64_min : Z := -9223372036854775808.
Definition int64_max : Z := 9223372036854775807.

(** Wrap-around of a two's complement 64-bit result. *)
Definition wrap64 (z : Z) : Z := (z - int64_min) `mod` 18446744073709551616 + int64_min.

Definition in_int64 (z : Z) : Prop := (int64_min <= z <= int64_max)%Z.

Lemma wrap64_id z : in_int64 z -> wrap64 z = z.
Proof. unfold in_int64, wrap64, int64_min, int64_max. intros. rewrite Z.mod_small; lia. Qed.

Lemma wrap64_range z : in_int64 (wrap64 z).
Proof.
  unfold in_int64, wrap64, int64_min, int64_max.
  pose proof (Z.mod_pos_bound (z - -9223372036854775808) 18446744073709551616). lia.
Qed.

(** [uint64(z)] of a signed value. *)
Definition to_uint64 (z : Z) : Z := z `mod` 18446744073709551616.
Definition to_uint32 (z : Z) : Z := z `mod` 4294967296.

(** ** Time

    A [time.Time] is its distance from the Unix epoch in nanoseconds; the zero
    [time.Time] is 1 January of year 1.  A [time.Duration] is an int64 number
    of nanoseconds and [Sub] saturates at its bounds. *)
Abbreviation time := Z (only parsing).
Abbreviation duration := Z (only parsing).

Definition time_zero : Z := -62135596800000000000.
Definition nanosecond : Z := 1.
Definition millisecond : Z := 1000000.
Definition second : Z := 1000000000.
Definition minute : Z := 60 * second.
Definition hour : Z := 60 * minute.

Definition time_sub (t u : Z) : Z := Z.max int64_min (Z.min int64_max (t - u)).
Definition after (t u : Z) : bool := (u <? t)%Z.
Definition before (t u : Z) : bool := (t <? u)%Z.

Lemma time_sub_range t u : in_int64 (time_sub t u).
Proof. unfold in_int64, time_sub, int64_min, int64_max. lia. Qed.

Lemma time_sub_ge t u d : (d <= int64_max)%Z -> (int64_min < d)%Z ->
  (d <= time_sub t u <-> d <= t - u)%Z.
Proof. unfold time_sub, int64_min, int64_max. lia. Qed.

(** ** Identifiers: a [uuid.UUID] is a 128-bit number; [uuid.Nil] is zero. *)
Abbreviation uuid := N (only parsing).
Definition uuid_nil : N := 0%N.

(** ** Finite maps as Go maps *)

Lemma map_filter_lookup_True {K A} `{Countable K} (P : K * A -> Prop) `{!forall x, Decision (P x)}
  (m : gmap K A) i x : m !! i = Some x -> P (i, x) -> filter P m !! i = Some x.
Proof. intros. by apply map_lookup_filter_Some_2. Qed.

(** ** Sorting with a boolean comparison *)

(** [sort.Slice] with a comparison that is a strict order on a key: the sorted
    slice is determined up to the order of equal keys. *)
Section insertion_sort.
Context {A : Type} (lt : A -> A -> bool).

(** Stable insertion: [x] goes before the first element that is not less. *)
Fixpoint insert_sorted (x : A) (l : list A) : list A :=
  match l with
  | [] => [x]
  | y :: l' => if lt y x then y :: insert_sorted x l' else x :: l
  end.

Fixpoint sort_by (l : list A) : list A :=
  match l with
  | [] => []
  | x :: l => insert_sorted x (sort_by l)
  end.

Lemma insert_sorted_perm x l : insert_sorted x l ≡ₚ x :: l.
Proof.
  induction l as [|y l IH]; simpl; [done|]. destruct (lt y x); [|done].
  rewrite IH. apply Permutation_swap.
Qed.

Lemma sort_by_perm l : sort_by l ≡ₚ l.
Proof.
  induction l as [|x l IH]; simpl; [done|]. by rewrite insert_sorted_perm, IH.
Qed.

Lemma length_sort_by l : length (sort_by l) = length l.
Proof. by rewrite sort_by_perm. Qed.

Hypothesis lt_irrefl : forall x, lt x x = false.
Hypothesis lt_trans : forall x y z, lt x y = true -> lt y z = true -> lt x z = true.
(** Incomparability is transitive: [lt] is a strict weak order. *)
Hypothesis lt_negtrans : forall x y z, lt x y = false -> lt y z = false -> lt x z = false.

Definition not_after (x y : A) : Prop := lt y x = false.

Lemma insert_sorted_sorted x l :
  StronglySorted not_after l -> StronglySorted not_after (insert_sorted x l).
Proof using All.
  induction 1 as [|y l Hl IH Hy]; simpl.
  - repeat constructor.
  - destruct (lt y x) eqn:Hyx.
    + constructor; [done|]. rewrite Forall_forall in *. intros z.
      rewrite insert_sorted_perm, elem_of_cons. intros [->|Hz]; [|by apply Hy].
      unfold not_after. destruct (lt x y) eqn:Hxy; [|done].
      pose proof (lt_trans _ _ _ Hyx Hxy) as Hc. by rewrite lt_irrefl in Hc.
    + constructor; [by constructor|]. constructor; [done|].
      eapply Forall_impl; [exact Hy|]. intros z Hz. unfold not_after in *.
      by apply lt_negtrans with y.
Qed.

Lemma sort_by_sorted l : StronglySorted not_after (sort_by l).
Proof using All.
  induction l; simpl; [constructor|]. by apply insert_sorted_sorted.
Qed.
End insertion_sort.

(** Two sorted arrangements of the same elements agree when the comparison is
    total on them: the determinism argument of the renderers. *)
Lemma sorted_perm_unique {A} (R : A -> A -> Prop) (l1 l2 : list A) :
  (forall x y, x ∈ l1 -> y ∈ l1 -> R x y -> R y x -> x = y) ->
  StronglySorted R l1 -> StronglySorted R l2 -> l1 ≡ₚ l2 -> l1 = l2.
Proof.
  intros Hanti Hs1. revert l2.
  induction Hs1 as [|x1 l1 Hs1 IH Hx1]; intros l2 Hs2 Hp.
  - by apply Permutation_nil_l in Hp.
  - destruct Hs2 as [|x2 l2 Hs2 Hx2].
    { symmetry in Hp. by apply Permutation_nil_cons in Hp. }
    assert (x1 = x2) as ->.
    { assert (x2 ∈ x1 :: l1) as Hin by (rewrite Hp; left).
      assert (x1 ∈ x2 :: l2) as Hin' by (rewrite <- Hp; left).
      apply elem_of_cons in Hin as [->|Hin]; [done|].
      apply elem_of_cons in Hin' as [->|Hin']; [done|].
      rewrite Forall_forall in Hx1, Hx2.
      apply Hanti; [left| by right| by apply Hx1| by apply Hx2]. }
    f_equal. apply IH; [|done|].
    + intros x y Hx Hy. apply Hanti; by right.
    + by apply Permutation_cons_inv in Hp.
Qed.

(** A strict weak order, as the comparisons of the listings are, and when two
    listings of the same elements are the same list. *)
Class StrictWeak {A} (lt : A -> A -> bool) : Prop := {
  sw_irrefl : forall x, lt x x = false;
  sw_trans : forall x y z, lt x y = true -> lt y z = true -> lt x z = true;
  sw_negtrans : forall x y z, lt x y = false -> lt y z = false -> lt x z = false
}.

Lemma sort_by_strict_sorted {A} (lt : A -> A -> bool) `{StrictWeak A lt} l : StronglySorted (not_after lt) (sort_by lt l).
Proof. apply sort_by_sorted; [apply sw_irrefl|apply sw_trans|apply sw_negtrans]. Qed.

Lemma filter_strongly_sorted {A} (R : A -> A -> Prop) (P : A -> Prop) `{forall x, Decision (P x)} l :
  StronglySorted R l -> StronglySorted R (filter P l).
Proof.
  induction 1 as [|x l Hl IH Hx]; [constructor|]. rewrite filter_cons. case_decide; [|done]. constructor; [done|].
  rewrite Forall_forall in *. intros y [_ Hy]%list_elem_of_filter. by apply Hx.
Qed.

Lemma sort_by_filter_same {A} (lt : A -> A -> bool) `{StrictWeak A lt} (P : A -> Prop) `{forall x, Decision (P x)} l1 l2 :
  (forall x y, x ∈ l1 -> y ∈ l1 -> P x -> P y -> lt x y = false -> lt y x = false -> x = y) ->
  NoDup l1 -> NoDup l2 -> (forall x, P x -> x ∈ l1 <-> x ∈ l2) ->
  filter P (sort_by lt l1) = filter P (sort_by lt l2).
Proof.
  intros Hkey H1 H2 He. apply (sorted_perm_unique (not_after lt)).
  - intros x y [Hpx Hx]%list_elem_of_filter [Hpy Hy]%list_elem_of_filter Hxy Hyx. rewrite sort_by_perm in Hx, Hy. by apply Hkey.
  - by apply filter_strongly_sorted, sort_by_strict_sorted.
  - by apply filter_strongly_sorted, sort_by_strict_sorted.
  - apply NoDup_Permutation; [apply NoDup_filter; by rewrite sort_by_perm..|]. intros x. rewrite !list_elem_of_filter, !sort_by_perm.
    split; intros [Hp ?]; split; try done; by apply He.
Qed.

Lemma sort_by_same {A} (lt : A -> A -> bool) `{StrictWeak A lt} l1 l2 :
  (forall x y, x ∈ l1 -> y ∈ l1 -> lt x y = false -> lt y x = false -> x = y) ->
  NoDup l1 -> NoDup l2 -> (forall x, x ∈ l1 <-> x ∈ l2) -> sort_by lt l1 = sort_by lt l2.
Proof.
  intros Hkey H1 H2 He. apply (sorted_perm_unique (not_after lt)); [|apply sort_by_strict_sorted; done..|].
  - intros x y Hx Hy Hxy Hyx. rewrite sort_by_perm in Hx, Hy. by apply Hkey.
  - rewrite !sort_by_perm. by apply NoDup_Permutation.
Qed.

Lemma filter_all {A} (P : A -> Prop) `{forall x, Decision (P x)} l : Forall P l -> filter P l = l.
Proof. induction 1 as [|x l Hx _ IH]; [done|]. rewrite filter_cons_True by done. by rewrite IH. Qed.

Lemma filter_none {A} (P : A -> Prop) `{forall x, Decision (P x)} l : Forall (fun x => ~ P x) l -> filter P l = [].
Proof. induction 1 as [|x l Hx _ IH]; [done|]. by rewrite filter_cons_False. Qed.

Lemma NoDup_fmap_same {A B} (f : A -> B) l x y : NoDup (f <$> l) -> x ∈ l -> y ∈ l -> f x = f y -> x = y.
Proof.
  induction l as [|z l IH]; [intros _ Hx; by apply elem_of_nil in Hx|]. rewrite fmap_cons, NoDup_cons, !elem_of_cons.
  intros [Hz Hnd] [->|Hx] [->|Hy] E; try done; [| |by apply IH]; exfalso; apply Hz; [rewrite E|rewrite <- E]; by apply list_elem_of_fmap_2.
Qed.

(** Listings in descending order of a key, and what follows one of their
    pages. *)
Section descending.
Context {A : Type} (key : A -> Z).

Definition descending (a b : A) : bool := (key b <? key a)%Z.

#[export] Instance descending_strict : StrictWeak descending.
Proof using Type. split; unfold descending; intros; repeat match goal with H : (_ <? _)%Z = _ |- _ => revert H end; lia. Qed.

Lemma sort_descending_filter (P : A -> Prop) `{forall x, Decision (P x)} l : NoDup (key <$> l) ->
  sort_by descending (filter P l) = filter P (sort_by descending l).
Proof using Type.
  intros Hnd. apply (sorted_perm_unique (not_after descending)).
  - intros x y Hx Hy. rewrite sort_by_perm in Hx, Hy. unfold not_after, descending. rewrite !Z.ltb_ge. intros.
    apply list_elem_of_filter in Hx as [_ Hx], Hy as [_ Hy]. eapply NoDup_fmap_same; [exact Hnd|done|done|lia].
  - apply sort_by_strict_sorted, _.
  - apply filter_strongly_sorted, sort_by_strict_sorted, _.
  - by rewrite !sort_by_perm.
Qed.

(** The elements after a page are those below its last one. *)
Lemma drop_below (n : nat) (l : list A) x : NoDup (key <$> l) -> StronglySorted (not_after descending) l ->
  last (take n l) = Some x -> filter (fun y => (key y < key x)%Z) l = drop n l.
Proof using Type.
  intros Hnd Hs Hx. apply last_Some in Hx as [l' Hl']. assert (take n l ++ drop n l = l) as Heq by apply take_drop.
  rewrite <- Heq at 1. rewrite <- Heq in Hnd, Hs. rewrite Hl' in *. clear Heq Hl'. set (l2 := drop n l) in *. clearbody l2.
  assert (forall y z, y ∈ (l' ++ [x]) -> z ∈ l2 -> (key z < key y)%Z) as Hlt.
  { intros y z Hy Hz. pose proof (StronglySorted_app_1_elem_of _ _ _ _ _ Hs Hy Hz) as H. unfold not_after, descending in H. rewrite Z.ltb_ge in H.
    assert (key y <> key z); [|lia]. rewrite fmap_app in Hnd. apply NoDup_app in Hnd as (_ & Hd & _).
    intros E. apply (Hd (key y)); [by apply list_elem_of_fmap_2|]. rewrite E. by apply list_elem_of_fmap_2. }
  rewrite filter_app, filter_none, filter_all; [done|..].
  - apply Forall_forall. intros z Hz. apply Hlt; [set_solver|done].
  - apply Forall_forall. intros y Hy. apply StronglySorted_app_1_l in Hs. rewrite elem_of_app, list_elem_of_singleton in Hy.
    destruct Hy as [Hy| ->]; [|lia].
    pose proof (StronglySorted_app_1_elem_of _ _ _ y x Hs Hy) as H. unfold not_after, descending in H. rewrite Z.ltb_ge in H. specialize (H ltac:(set_solver)). lia.
Qed.

End descending.

(** A full page of the list has a last element. *)
Lemma page_last {A} (n : nat) (l : list A) : (0 < n <= length l)%nat -> exists x, last (take n l) = Some x /\ x ∈ l.
Proof.
  intros Hn. destruct (last (take n l)) as [x|] eqn:Hx.
  - exists x. split; [done|]. apply last_Some in Hx as [l' Hl']. rewrite <- (take_drop n l), Hl'. set_solver.
  - apply last_None in Hx. apply (f_equal length) in Hx. rewrite length_take in Hx. simpl in Hx. lia.
Qed.
(** ** Automation *)

Create HintDb otel discriminated.

(** Split every [if]/[match] on a decidable test in the goal. *)
Ltac go_case :=
  repeat first
    [ progress simplify_eq/=
    | case_decide
    | match goal with
      | |- context [if ?b then _ else _] => destruct b eqn:?
      | |- context [match ?x with Some _ => _ | None => _ end] => destruct x eqn:?
      end ].

Ltac go_destruct H :=
  repeat (case_match; simplify_eq/=; try done).
