(* ===== verification/GoStrings.v ===== *)
(** The part of Go's string library the program uses: byte strings, the
    [strings] package functions, UTF-8 decoding of [range] loops and
    [[]rune] conversions, [hex], and comparisons. *)
From S2P Require Import Prelude.
From Stdlib Require Import Ascii.

Open Scope string_scope.

(** stdpp seals [String.append]; the string lemmas below compute with it. *)
#[global] Arguments String.append : simpl nomatch.

(** ** Byte strings

    A Go [string] (and a [[]byte] whose nil-ness is not observed) is a Rocq
    [string], one [ascii] per byte. *)

Definition byte_val (c : ascii) : Z := Z.of_N (N_of_ascii c).
Definition byte_of (z : Z) : ascii := ascii_of_N (Z.to_N z).

Lemma byte_val_of z : (0 <= z < 256)%Z -> byte_val (byte_of z) = z.
Proof. intros. unfold byte_val, byte_of. rewrite N_ascii_embedding; lia. Qed.

Lemma byte_val_range c : (0 <= byte_val c < 256)%Z.
Proof. unfold byte_val. pose proof (N_ascii_bounded c). lia. Qed.

Lemma byte_of_val c : byte_of (byte_val c) = c.
Proof. unfold byte_val, byte_of. rewrite N2Z.id. apply ascii_N_embedding. Qed.

Abbreviation bytes_of := String.list_ascii_of_string (only parsing).
Abbreviation of_bytes := String.string_of_list_ascii (only parsing).

Lemma string_app_assoc (a b c : string) : (a +:+ b) +:+ c = a +:+ (b +:+ c).
Proof. induction a; simpl; [done|]. by f_equal. Qed.

Lemma string_app_nil_r (a : string) : a +:+ "" = a.
Proof. induction a; simpl; [done|]. by f_equal. Qed.

Lemma bytes_of_app (a b : string) : bytes_of (a +:+ b) = (bytes_of a ++ bytes_of b)%list.
Proof. induction a; simpl; [done|]. by f_equal. Qed.

Lemma bytes_of_inj (a b : string) : bytes_of a = bytes_of b -> a = b.
Proof.
  intros H. rewrite <- (String.string_of_list_ascii_of_string a), H.
  apply String.string_of_list_ascii_of_string.
Qed.

Lemma string_app_inj_l (a b c : string) : a +:+ b = a +:+ c -> b = c.
Proof. induction a; simpl; [done|]. intros [= ?]; auto. Qed.

Lemma string_app_inj_r (a b c : string) : a +:+ c = b +:+ c -> a = b.
Proof.
  intros H. apply bytes_of_inj. apply (f_equal String.list_ascii_of_string) in H.
  rewrite !bytes_of_app in H. by apply app_inv_tail in H.
Qed.

(** [len(s)]: the number of bytes. *)
Definition len (s : string) : Z := Z.of_nat (String.length s).

Lemma string_length_app (a b : string) :
  String.length (a +:+ b) = (String.length a + String.length b)%nat.
Proof. induction a; simpl; [done|]. by f_equal. Qed.

Lemma length_bytes_of s : length (bytes_of s) = String.length s.
Proof. induction s; simpl; auto. Qed.

(** Membership of a byte, and strings avoiding one. *)
Fixpoint has_byte (c : ascii) (s : string) : bool :=
  match s with
  | "" => false
  | String d s => bool_decide (c = d) || has_byte c s
  end.

Lemma has_byte_app c a b : has_byte c (a +:+ b) = has_byte c a || has_byte c b.
Proof. induction a as [|d a IH]; simpl; [done|]. by rewrite IH, orb_assoc. Qed.

(** Splitting at the first occurrence of a separator byte is injective on
    strings whose left part avoids it: the shape of every composite
    identifier the program builds. *)
Lemma app_sep_inj c a b a' b' :
  has_byte c a = false -> has_byte c a' = false ->
  a +:+ String c b = a' +:+ String c b' -> a = a' /\ b = b'.
Proof.
  revert a'. induction a as [|d a IH]; intros [|d' a']; simpl; intros Ha Ha' H.
  - by injection H.
  - injection H as -> ?. by rewrite bool_decide_true in Ha'.
  - injection H as -> ?. by rewrite bool_decide_true in Ha.
  - injection H as -> H. apply orb_false_iff in Ha as [_ Ha].
    apply orb_false_iff in Ha' as [_ Ha'].
    destruct (IH a' Ha Ha' H) as [-> ->]; done.
Qed.

(** [strings.CutPrefix(s, p)] and [strings.HasPrefix]. *)
Fixpoint cut_prefix (p s : string) : option string :=
  match p, s with
  | "", _ => Some s
  | String c p, String d s => if bool_decide (c = d) then cut_prefix p s else None
  | String _ _, "" => None
  end.

Definition has_prefix (p s : string) : bool := bool_decide (is_Some (cut_prefix p s)).

Lemma cut_prefix_app p s : cut_prefix p (p +:+ s) = Some s.
Proof. induction p; simpl; [done|]. by rewrite bool_decide_true. Qed.

Lemma cut_prefix_Some p s r : cut_prefix p s = Some r <-> s = p +:+ r.
Proof.
  split; [|by intros ->; apply cut_prefix_app].
  revert s; induction p as [|c p IH]; intros s; simpl; [by intros [= ->]|].
  destruct s as [|d s]; [done|]. case_bool_decide; [|done]. subst.
  intros H; simpl. by rewrite (IH _ H).
Qed.

Lemma has_prefix_spec p s : has_prefix p s = true <-> exists r, s = p +:+ r.
Proof.
  unfold has_prefix. rewrite bool_decide_eq_true. split.
  - intros [r Hr]. exists r. by apply cut_prefix_Some.
  - intros [r Hr]. exists r. by apply cut_prefix_Some.
Qed.

(** [strings.Cut(s, sep)] for a one-byte separator. *)
Fixpoint cut (sep : ascii) (s : string) : option (string * string) :=
  match s with
  | "" => None
  | String c s =>
      if bool_decide (c = sep) then Some ("", s)
      else match cut sep s with
           | Some (a, b) => Some (String c a, b)
           | None => None
           end
  end.

Lemma cut_app sep a b : has_byte sep a = false -> cut sep (a +:+ String sep b) = Some (a, b).
Proof.
  induction a as [|c a IH]; simpl; [by rewrite bool_decide_true|].
  case_bool_decide as Hc; simpl; [done|]. intros Ha.
  rewrite bool_decide_false by congruence. by rewrite IH.
Qed.

Lemma cut_Some sep s a b :
  cut sep s = Some (a, b) <-> s = a +:+ String sep b /\ has_byte sep a = false.
Proof.
  split; [|intros [-> ?]; by apply cut_app].
  revert a. induction s as [|c s IH]; intros a; simpl; [done|].
  case_bool_decide as Hc; [intros [= <- <-]; by subst|].
  destruct (cut sep s) as [[a' b']|]; [|done]. intros [= <- <-].
  destruct (IH a') as [-> Ha']; [done|]. simpl.
  by rewrite bool_decide_false by congruence.
Qed.

(** [strings.SplitN(s, sep, n)] for a one-byte separator and [n > 0]. *)
Fixpoint split_n (sep : ascii) (n : nat) (s : string) : list string :=
  match n with
  | O => []
  | S O => [s]
  | S n' => match cut sep s with
            | Some (a, b) => a :: split_n sep n' b
            | None => [s]
            end
  end.

(** Every byte of a string satisfies a test. *)
Fixpoint all_bytes (f : ascii -> bool) (s : string) : bool :=
  match s with
  | "" => true
  | String c s => f c && all_bytes f s
  end.

Lemma all_bytes_app f a b : all_bytes f (a +:+ b) = all_bytes f a && all_bytes f b.
Proof. induction a as [|c a IH]; simpl; [done|]. by rewrite IH, andb_assoc. Qed.

Lemma all_bytes_no f c s : all_bytes f s = true -> f c = false -> has_byte c s = false.
Proof.
  induction s as [|d s IH]; simpl; [done|]. intros [Hd Hs]%andb_prop Hc.
  rewrite IH by done. rewrite bool_decide_false; [done|]. intros ->. congruence.
Qed.

Lemma all_bytes_bytes_of f s : all_bytes f s = forallb f (bytes_of s).
Proof. induction s as [|c s IH]; simpl; [done|]. by rewrite IH. Qed.

(** ** Byte classes *)

Definition in_range (lo hi c : ascii) : bool :=
  (N_of_ascii lo <=? N_of_ascii c)%N && (N_of_ascii c <=? N_of_ascii hi)%N.

Definition is_lower (c : ascii) : bool := in_range "a" "z" c.
Definition is_upper (c : ascii) : bool := in_range "A" "Z" c.
Definition is_digit (c : ascii) : bool := in_range "0" "9" c.
Definition is_lower_hex (c : ascii) : bool := is_digit c || in_range "a" "f" c.
Definition is_slug_alnum (c : ascii) : bool := is_lower c || is_digit c.

(** ASCII case folding, on which [strings.ToLower] and [strings.EqualFold]
    agree for ASCII text. *)
Definition ascii_lower (c : ascii) : ascii :=
  if is_upper c then ascii_of_N (N_of_ascii c + 32) else c.
Fixpoint to_lower (s : string) : string :=
  match s with "" => "" | String c s => String (ascii_lower c) (to_lower s) end.

(** ** UTF-8: [range] over a string and [[]rune(s)] *)

Definition rune_error : Z := 65533.

Definition cont (lo hi : Z) (c : ascii) : bool := (lo <=? byte_val c)%Z && (byte_val c <=? hi)%Z.

(** [utf8.DecodeRuneInString]: the rune at the head and its width; an invalid
    encoding yields [(RuneError, 1)]. *)
Definition decode_rune (s : string) : Z * nat :=
  match s with
  | "" => (rune_error, 0%nat)
  | String c0 s1 =>
      let b0 := byte_val c0 in
      let err := (rune_error, 1%nat) in
      if (b0 <? 128)%Z then (b0, 1%nat)
      else if (b0 <? 194)%Z then err
      else if (b0 <? 224)%Z then
        match s1 with
        | String c1 _ =>
            if cont 128 191 c1
            then ((b0 - 192) * 64 + (byte_val c1 - 128), 2%nat)%Z else err
        | _ => err
        end
      else if (b0 <? 240)%Z then
        match s1 with
        | String c1 (String c2 _) =>
            if cont (if (b0 =? 224)%Z then 160 else 128)
                    (if (b0 =? 237)%Z then 159 else 191) c1 && cont 128 191 c2
            then ((b0 - 224) * 4096 + (byte_val c1 - 128) * 64 + (byte_val c2 - 128), 3%nat)%Z
            else err
        | _ => err
        end
      else if (b0 <? 245)%Z then
        match s1 with
        | String c1 (String c2 (String c3 _)) =>
            if cont (if (b0 =? 240)%Z then 144 else 128)
                    (if (b0 =? 244)%Z then 143 else 191) c1
               && cont 128 191 c2 && cont 128 191 c3
            then ((b0 - 240) * 262144 + (byte_val c1 - 128) * 4096
                  + (byte_val c2 - 128) * 64 + (byte_val c3 - 128), 4%nat)%Z
            else err
        | _ => err
        end
      else err
  end.

(** The runes of a string with the bytes each was decoded from; [skip] counts
    the bytes of the current rune still to be passed over. *)
Fixpoint utf8_chunks_from (skip : nat) (s : string) : list (Z * string) :=
  match s with
  | "" => []
  | String c s' =>
      match skip with
      | S k => utf8_chunks_from k s'
      | O => let '(r, n) := decode_rune s in
             (r, String.substring 0 n s) :: utf8_chunks_from (pred n) s'
      end
  end.

Definition utf8_chunks (s : string) : list (Z * string) := utf8_chunks_from 0 s.
Definition utf8_runes (s : string) : list Z := fst <$> utf8_chunks s.

(** [unicode.IsSpace], the class [strings.TrimSpace] removes. *)
Definition is_space (r : Z) : bool :=
  ((9 <=? r) && (r <=? 13) || (r =? 32) || (r =? 133) || (r =? 160) || (r =? 5760)
   || (8192 <=? r) && (r <=? 8202) || (r =? 8232) || (r =? 8233) || (r =? 8239)
   || (r =? 8287) || (r =? 12288))%Z.

Fixpoint drop_while {A} (f : A -> bool) (l : list A) : list A :=
  match l with
  | [] => []
  | x :: l' => if f x then drop_while f l' else l
  end.

Definition trim_both {A} (f : A -> bool) (l : list A) : list A :=
  reverse (drop_while f (reverse (drop_while f l))).

Fixpoint concat_strings (l : list string) : string :=
  match l with [] => "" | s :: l => s +:+ concat_strings l end.

(** [strings.TrimSpace] *)
Definition trim_space (s : string) : string :=
  concat_strings (snd <$> trim_both (fun p => is_space p.1) (utf8_chunks s)).

(** [strings.Join] *)
Fixpoint join (sep : string) (l : list string) : string :=
  match l with
  | [] => ""
  | [s] => s
  | s :: l => s +:+ sep +:+ join sep l
  end.

Lemma drop_while_incl {A} (f : A -> bool) l x : x ∈ drop_while f l -> x ∈ l.
Proof. induction l as [|y l IH]; simpl; [done|]. destruct (f y); set_solver. Qed.

Lemma drop_while_head {A} (f : A -> bool) l x l' : drop_while f l = x :: l' -> f x = false.
Proof.
  induction l as [|y l IH]; simpl; [done|]. destruct (f y) eqn:Hy; [done|].
  by intros [= <- <-].
Qed.

Lemma drop_while_suffix {A} (f : A -> bool) l : exists k, l = (k ++ drop_while f l)%list.
Proof.
  induction l as [|y l [k Hk]]; simpl; [by exists []|].
  destruct (f y); [exists (y :: k); simpl; by f_equal | by exists []].
Qed.

Lemma drop_while_length {A} (f : A -> bool) l : (length (drop_while f l) <= length l)%nat.
Proof. induction l as [|y l IH]; simpl; [lia|]. destruct (f y); simpl; lia. Qed.

Lemma drop_while_id {A} (f : A -> bool) x l : f x = false -> drop_while f (x :: l) = x :: l.
Proof. simpl. by intros ->. Qed.

Lemma trim_both_incl {A} (f : A -> bool) l x : x ∈ trim_both f l -> x ∈ l.
Proof.
  unfold trim_both. rewrite elem_of_reverse. intros H%drop_while_incl.
  rewrite elem_of_reverse in H. by apply drop_while_incl in H.
Qed.

Lemma trim_both_length {A} (f : A -> bool) l : (length (trim_both f l) <= length l)%nat.
Proof.
  unfold trim_both. rewrite length_reverse.
  etrans; [apply drop_while_length|]. rewrite length_reverse. apply drop_while_length.
Qed.

(** A non-empty trimmed list neither starts nor ends with a trimmed element. *)
Lemma trim_both_head {A} (f : A -> bool) l x l' : trim_both f l = x :: l' -> f x = false.
Proof.
  unfold trim_both. intros H.
  destruct (drop_while_suffix f (reverse (drop_while f l))) as [k Hk].
  apply (f_equal reverse) in Hk. rewrite reverse_involutive, reverse_app, H in Hk.
  destruct (drop_while f l) as [|y m] eqn:Hd; [done|].
  simpl in Hk. injection Hk as -> _. by apply drop_while_head in Hd.
Qed.

Lemma trim_both_last {A} (f : A -> bool) l x l' : trim_both f l = (l' ++ [x])%list -> f x = false.
Proof.
  unfold trim_both. intros H. apply (f_equal reverse) in H.
  rewrite reverse_involutive, reverse_app in H. simpl in H. by apply drop_while_head in H.
Qed.

Lemma trim_both_id {A} (f : A -> bool) x l y l' :
  x :: l = (l' ++ [y])%list -> f x = false -> f y = false -> trim_both f (x :: l) = x :: l.
Proof.
  intros H Hx Hy. unfold trim_both. rewrite drop_while_id by done. rewrite H, reverse_app.
  simpl. rewrite Hy. rewrite reverse_cons, reverse_involutive. done.
Qed.

(** ** [encoding/hex] *)

Definition hex_digit (n : N) : ascii :=
  if (n <? 10)%N then ascii_of_N (48 + n) else ascii_of_N (87 + n).

Fixpoint hex_encode (s : string) : string :=
  match s with
  | "" => ""
  | String c s =>
      String (hex_digit (N_of_ascii c / 16)) (String (hex_digit (N_of_ascii c mod 16)) (hex_encode s))
  end.

Lemma hex_digit_lower n : (n < 16)%N -> is_lower_hex (hex_digit n) = true.
Proof.
  intros H. assert (In n (N.of_nat <$> seq 0 16)) as Hin.
  { apply list_elem_of_In, list_elem_of_fmap. exists (N.to_nat n).
    rewrite elem_of_seq. split; lia. }
  simpl in Hin. repeat destruct Hin as [<-|Hin]; try done.
Qed.

Lemma hex_encode_lower s : all_bytes is_lower_hex (hex_encode s) = true.
Proof.
  induction s as [|c s IH]; simpl; [done|]. rewrite IH.
  pose proof (N_ascii_bounded c).
  rewrite !hex_digit_lower; [done| |].
  - pose proof (N.mod_lt (N_of_ascii c) 16). lia.
  - apply N.Div0.div_lt_upper_bound; lia.
Qed.

Lemma hex_encode_length s : String.length (hex_encode s) = (2 * String.length s)%nat.
Proof. induction s; simpl; lia. Qed.

(** Byte-wise string order: Go's [<] on strings. *)
Definition str_lt (a b : string) : bool := String.ltb a b.

Lemma str_lt_iff a b : str_lt a b = true <-> ~ String.le b a.
Proof.
  unfold str_lt, String.le, String.ltb, String.leb.
  rewrite (String.compare_antisym b a).
  destruct (String.compare a b) eqn:H; simpl; naive_solver.
Qed.

Lemma str_lt_false a b : str_lt a b = false <-> String.le b a.
Proof.
  rewrite <- not_true_iff_false, str_lt_iff. split; [apply dec_stable|tauto].
Qed.

Lemma str_lt_irrefl a : str_lt a a = false.
Proof. by apply str_lt_false. Qed.

Lemma str_lt_trans a b c : str_lt a b = true -> str_lt b c = true -> str_lt a c = true.
Proof.
  rewrite !str_lt_iff. intros Hab Hbc Hca. apply Hab.
  destruct (total String.le a b) as [Hle|Hle]; [|done].
  exfalso. apply Hbc. by trans a.
Qed.

Lemma str_lt_negtrans a b c : str_lt a b = false -> str_lt b c = false -> str_lt a c = false.
Proof. rewrite !str_lt_false. intros. by trans b. Qed.

Lemma str_lt_total a b : str_lt a b = false -> str_lt b a = false -> a = b.
Proof. rewrite !str_lt_false. intros. by apply (anti_symm String.le). Qed.

(** Decimal rendering ([strconv.Itoa], the [%d] verb). *)
Definition itoa (z : Z) : string := pretty z.

(** ** UTF-8 encoding and Unicode lower-casing *)

Definition encode_rune (r : Z) : string :=
  let r := if ((r <? 0) || (1114111 <? r) || (55296 <=? r) && (r <=? 57343))%Z
           then rune_error else r in
  if (r <? 128)%Z then String (byte_of r) ""
  else if (r <? 2048)%Z then
    String (byte_of (192 + r / 64)) (String (byte_of (128 + r mod 64)) "")
  else if (r <? 65536)%Z then
    String (byte_of (224 + r / 4096))
      (String (byte_of (128 + r / 64 mod 64)) (String (byte_of (128 + r mod 64)) ""))
  else
    String (byte_of (240 + r / 262144))
      (String (byte_of (128 + r / 4096 mod 64))
         (String (byte_of (128 + r / 64 mod 64)) (String (byte_of (128 + r mod 64)) ""))).

(** [string(runes)] *)
Definition string_of_runes (rs : list Z) : string := concat_strings (encode_rune <$> rs).

(** [unicode.ToLower]: ASCII directly, other runes by the Unicode tables. *)
Definition lower_rune (unicode_lower : Z -> Z) (r : Z) : Z :=
  if ((65 <=? r) && (r <=? 90))%Z then (r + 32)%Z
  else if (r <? 128)%Z then r
  else unicode_lower r.

(** [strings.ToLower] *)
Definition strings_ToLower (unicode_lower : Z -> Z) (s : string) : string :=
  if all_bytes (fun c => (byte_val c <? 128)%Z) s then to_lower s
  else string_of_runes (lower_rune unicode_lower <$> utf8_runes s).
