(* ===== verification/Base64.v ===== *)
(** [encoding/base64]: the unpadded URL alphabet (token secrets) and the padded
    standard alphabet (encrypted values inside stored graphs), with the round
    trip of the latter. *)
From S2P Require Import Prelude GoStrings.
From Stdlib Require Import Ascii.

Open Scope string_scope.
Open Scope Z_scope.

(** The character of a 6-bit value; [c62] and [c63] are the alphabet's last two. *)
Definition sextet_char (c62 c63 : ascii) (v : Z) : ascii :=
  if v <? 26 then byte_of (65 + v)
  else if v <? 52 then byte_of (97 + (v - 26))
  else if v <? 62 then byte_of (48 + (v - 52))
  else if v =? 62 then c62 else c63.

Definition char_sextet (c62 c63 : ascii) (c : ascii) : option Z :=
  let b := byte_val c in
  if (65 <=? b) && (b <=? 90) then Some (b - 65)
  else if (97 <=? b) && (b <=? 122) then Some (b - 97 + 26)
  else if (48 <=? b) && (b <=? 57) then Some (b - 48 + 52)
  else if bool_decide (c = c62) then Some 62
  else if bool_decide (c = c63) then Some 63
  else None.

Section encoding.
Context (c62 c63 : ascii) (pad : string).

Fixpoint encode_groups (s : string) : string :=
  match s with
  | "" => ""
  | String a "" =>
      let a := byte_val a in
      String (sextet_char c62 c63 (a / 4))
        (String (sextet_char c62 c63 ((a mod 4) * 16)) (pad +:+ pad))
  | String a (String b "") =>
      let a := byte_val a in let b := byte_val b in
      String (sextet_char c62 c63 (a / 4))
        (String (sextet_char c62 c63 ((a mod 4) * 16 + b / 16))
           (String (sextet_char c62 c63 ((b mod 16) * 4)) pad))
  | String a (String b (String c s')) =>
      let a := byte_val a in let b := byte_val b in let c := byte_val c in
      String (sextet_char c62 c63 (a / 4))
        (String (sextet_char c62 c63 ((a mod 4) * 16 + b / 16))
           (String (sextet_char c62 c63 ((b mod 16) * 4 + c / 64))
              (String (sextet_char c62 c63 (c mod 64)) (encode_groups s'))))
  end.
End encoding.

(** [base64.RawURLEncoding.EncodeToString] *)
Definition raw_url_encode (s : string) : string := encode_groups "-" "_" "" s.

(** [base64.StdEncoding.EncodeToString] *)
Definition std_encode (s : string) : string := encode_groups "+" "/" "=" s.

Definition std_sextet := char_sextet "+" "/".

(** Quads of the standard alphabet; padding only in the last one. *)
Fixpoint decode_quads (s : string) : option string :=
  match s with
  | "" => Some ""
  | String w (String x (String y (String z s'))) =>
      match std_sextet w, std_sextet x with
      | Some w, Some x =>
          let b0 := byte_of (w * 4 + x / 16) in
          if bool_decide (y = "="%char) then
            if bool_decide (z = "="%char) && bool_decide (s' = "") then Some (String b0 "") else None
          else
            match std_sextet y with
            | None => None
            | Some y =>
                let b1 := byte_of ((x mod 16) * 16 + y / 4) in
                if bool_decide (z = "="%char) then
                  if bool_decide (s' = "") then Some (String b0 (String b1 "")) else None
                else
                  match std_sextet z, decode_quads s' with
                  | Some z, Some r =>
                      Some (String b0 (String b1 (String (byte_of ((y mod 4) * 64 + z)) r)))
                  | _, _ => None
                  end
            end
      | _, _ => None
      end
  | _ => None
  end.

Fixpoint drop_newlines (s : string) : string :=
  match s with
  | "" => ""
  | String c s =>
      if (byte_val c =? 10) || (byte_val c =? 13) then drop_newlines s else String c (drop_newlines s)
  end.

(** [base64.StdEncoding.DecodeString]: line breaks in the input are skipped. *)
Definition std_decode (s : string) : option string := decode_quads (drop_newlines s).

Lemma sextet_cases v : 0 <= v < 64 -> v ∈ Z.of_nat <$> seq 0 64.
Proof.
  intros. apply list_elem_of_fmap. exists (Z.to_nat v). rewrite elem_of_seq. split; lia.
Qed.

(** Facts about the 64 characters, checked by evaluation. *)
Lemma sextet_roundtrip v : 0 <= v < 64 ->
  std_sextet (sextet_char "+" "/" v) = Some v
  /\ sextet_char "+" "/" v <> "="%char
  /\ byte_val (sextet_char "+" "/" v) <> 10 /\ byte_val (sextet_char "+" "/" v) <> 13.
Proof.
  intros Hv%sextet_cases. apply list_elem_of_In in Hv. simpl in Hv.
  repeat destruct Hv as [<-|Hv]; try done; vm_compute; repeat split; congruence.
Qed.

Ltac euclid := Z.to_euclidean_division_equations; lia.

(** Reassembling the bytes from their sextets. *)
Lemma byte_of_eq c z : z = byte_val c -> byte_of z = c.
Proof. intros ->. apply byte_of_val. Qed.

Lemma byte0_of a k : 0 <= k < 16 ->
  byte_of (byte_val a / 4 * 4 + ((byte_val a mod 4) * 16 + k) / 16) = a.
Proof. intros. apply byte_of_eq. pose proof (byte_val_range a). euclid. Qed.

Lemma byte1_of a b k : 0 <= k < 4 ->
  byte_of (((a mod 4 * 16 + byte_val b / 16) mod 16) * 16
           + ((byte_val b mod 16) * 4 + k) / 4) = b.
Proof. intros. apply byte_of_eq. pose proof (byte_val_range b). euclid. Qed.

Lemma byte2_of b c :
  byte_of (((b mod 16 * 4 + byte_val c / 64) mod 4) * 64 + byte_val c mod 64) = c.
Proof. intros. apply byte_of_eq. pose proof (byte_val_range c). euclid. Qed.

Lemma drop_newlines_sextet v s : 0 <= v < 64 ->
  drop_newlines (String (sextet_char "+" "/" v) s) = String (sextet_char "+" "/" v) (drop_newlines s).
Proof.
  intros Hv. destruct (sextet_roundtrip v Hv) as (_ & _ & H1 & H2). simpl.
  by rewrite (proj2 (Z.eqb_neq _ _) H1), (proj2 (Z.eqb_neq _ _) H2).
Qed.

(** Induction over groups of three bytes. *)
Lemma string_ind3 (P : string -> Prop) :
  P "" -> (forall a, P (String a "")) -> (forall a b, P (String a (String b ""))) ->
  (forall a b c s, P s -> P (String a (String b (String c s)))) -> forall s, P s.
Proof.
  intros H0 H1 H2 H3.
  fix IH 1. intros [|a [|b [|c s]]]; [done|apply H1|apply H2|apply H3, IH].
Qed.

Lemma sx0 a : 0 <= byte_val a / 4 < 64.
Proof. pose proof (byte_val_range a). euclid. Qed.
Lemma sx1 a k : 0 <= k < 16 -> 0 <= byte_val a mod 4 * 16 + k < 64.
Proof. pose proof (byte_val_range a). euclid. Qed.
Lemma sx2 a k : 0 <= k < 4 -> 0 <= byte_val a mod 16 * 4 + k < 64.
Proof. pose proof (byte_val_range a). euclid. Qed.
Lemma sx3 a : 0 <= byte_val a mod 64 < 64.
Proof. pose proof (byte_val_range a). euclid. Qed.
Lemma hi16 a : 0 <= byte_val a / 16 < 16.
Proof. pose proof (byte_val_range a). euclid. Qed.
Lemma hi64 a : 0 <= byte_val a / 64 < 4.
Proof. pose proof (byte_val_range a). euclid. Qed.

#[local] Hint Resolve sx0 sx1 sx2 sx3 hi16 hi64 : otel.
#[local] Hint Extern 1 (0 <= 0 < _) => lia : otel.

(** One step of the decoder on a sextet written by the encoder. *)
Ltac step_sextet v :=
  let Hv := fresh in
  assert (0 <= v < 64) as Hv by auto with otel;
  destruct (sextet_roundtrip v Hv) as (-> & ? & _ & _).

Lemma decode_quads_full a b c s :
  decode_quads (String (sextet_char "+" "/" (byte_val a / 4))
    (String (sextet_char "+" "/" (byte_val a mod 4 * 16 + byte_val b / 16))
      (String (sextet_char "+" "/" (byte_val b mod 16 * 4 + byte_val c / 64))
        (String (sextet_char "+" "/" (byte_val c mod 64)) s))))
  = match decode_quads s with
    | Some r => Some (String a (String b (String c r)))
    | None => None
    end.
Proof.
  simpl. step_sextet (byte_val a / 4). step_sextet (byte_val a mod 4 * 16 + byte_val b / 16).
  step_sextet (byte_val b mod 16 * 4 + byte_val c / 64). step_sextet (byte_val c mod 64).
  rewrite !bool_decide_false by done.
  rewrite byte0_of, byte1_of, byte2_of by auto with otel. by destruct (decode_quads s).
Qed.

Lemma std_decode_encode s : std_decode (std_encode s) = Some s.
Proof.
  unfold std_decode, std_encode. induction s as [|a|a b|a b c s IH] using string_ind3.
  - done.
  - replace (byte_val a mod 4 * 16) with (byte_val a mod 4 * 16 + 0) by lia.
    cbn [encode_groups]. replace (byte_val a mod 4 * 16) with (byte_val a mod 4 * 16 + 0) by lia.
    rewrite !drop_newlines_sextet by auto with otel. simpl.
    step_sextet (byte_val a / 4). step_sextet (byte_val a mod 4 * 16 + 0).
    by rewrite byte0_of by lia.
  - cbn [encode_groups]. replace (byte_val b mod 16 * 4) with (byte_val b mod 16 * 4 + 0) by lia.
    rewrite !drop_newlines_sextet by auto with otel. simpl.
    step_sextet (byte_val a / 4). step_sextet (byte_val a mod 4 * 16 + byte_val b / 16).
    step_sextet (byte_val b mod 16 * 4 + 0).
    rewrite bool_decide_false by done. rewrite byte0_of, byte1_of by auto with otel. done.
  - cbn [encode_groups]. rewrite !drop_newlines_sextet by auto with otel.
    by rewrite decode_quads_full, IH.
Qed.
