(* ===== verification/Json.v ===== *)
(** JSON values: what [encoding/json] decodes into [any] with [UseNumber], and
    the contents of PostgreSQL JSONB columns. *)
From S2P Require Import Prelude GoStrings.

Open Scope string_scope.

(** [nil], [bool], [json.Number] (kept as its literal), [string], [[]any] and
    [map[string]any].  An object is the list of its members; a decoded object
    has every key once ([json_wf]). *)
Inductive jval : Type :=
| JNull
| JBool (b : bool)
| JNum (lit : string)
| JStr (s : string)
| JArr (items : list jval)
| JObj (members : list (string * jval)).

Section jval_ind.
Context (P : jval -> Prop).
Hypothesis HNull : P JNull.
Hypothesis HBool : forall b, P (JBool b).
Hypothesis HNum : forall s, P (JNum s).
Hypothesis HStr : forall s, P (JStr s).
Hypothesis HArr : forall l, Forall P l -> P (JArr l).
Hypothesis HObj : forall m, Forall (fun kv => P kv.2) m -> P (JObj m).

Fixpoint jval_ind' (v : jval) : P v :=
  match v with
  | JNull => HNull
  | JBool b => HBool b
  | JNum s => HNum s
  | JStr s => HStr s
  | JArr l => HArr l ((fix go l := match l return Forall P l with
                                   | [] => List.Forall_nil _
                                   | x :: l => List.Forall_cons _ x l (jval_ind' x) (go l)
                                   end) l)
  | JObj m => HObj m ((fix go m := match m return Forall (fun kv => P kv.2) m with
                                   | [] => List.Forall_nil _
                                   | x :: m => List.Forall_cons _ x m (jval_ind' x.2) (go m)
                                   end) m)
  end.
End jval_ind.

(** Map indexing [m[k]] with the presence flag. *)
Fixpoint obj_get (m : list (string * jval)) (k : string) : option jval :=
  match m with
  | [] => None
  | (k', v) :: m => if decide (k = k') then Some v else obj_get m k
  end.

(** Type assertions [v.(T)] in their two-value form. *)
Definition as_string (v : jval) : option string := match v with JStr s => Some s | _ => None end.
Definition as_obj (v : jval) : option (list (string * jval)) :=
  match v with JObj m => Some m | _ => None end.
Definition as_arr (v : jval) : option (list jval) := match v with JArr l => Some l | _ => None end.

(** [m[k].(map[string]any)] and [m[k].(string)] on a possibly absent key. *)
Definition get_obj (m : list (string * jval)) (k : string) : option (list (string * jval)) :=
  match obj_get m k with Some v => as_obj v | None => None end.
Definition get_str (m : list (string * jval)) (k : string) : option string :=
  match obj_get m k with Some v => as_string v | None => None end.

(** Every object has distinct keys, as a decoded JSON document does. *)
Fixpoint json_wf (v : jval) : Prop :=
  match v with
  | JArr l => (fix go l := match l with [] => True | x :: l => json_wf x /\ go l end) l
  | JObj m => NoDup m.*1 /\ (fix go m := match m with [] => True | x :: m => json_wf x.2 /\ go m end) m
  | _ => True
  end.

Lemma json_wf_arr l : json_wf (JArr l) <-> Forall json_wf l.
Proof. simpl. induction l as [|x l IH]; [done|]. by rewrite Forall_cons, <- IH. Qed.

Lemma json_wf_obj m : json_wf (JObj m) <-> NoDup m.*1 /\ Forall (fun kv => json_wf kv.2) m.
Proof.
  simpl. f_equiv. induction m as [|x m IH]; [done|]. by rewrite Forall_cons, <- IH.
Qed.

Lemma obj_get_elem m k v : obj_get m k = Some v -> (k, v) ∈ m.
Proof.
  induction m as [|[k' v'] m IH]; simpl; [done|].
  case_decide; [intros [= ->]; subst; left|]. intros ?; right; auto.
Qed.

Lemma obj_get_NoDup m k v : NoDup m.*1 -> (k, v) ∈ m -> obj_get m k = Some v.
Proof.
  induction m as [|[k' v'] m IH]; simpl; intros Hnd Hin; [by apply elem_of_nil in Hin|].
  apply NoDup_cons in Hnd as [Hk Hnd]. apply elem_of_cons in Hin as [[= <- <-]|Hin].
  - by rewrite decide_True.
  - rewrite decide_False; [auto|]. intros ->. apply Hk. apply list_elem_of_fmap. by exists (k', v).
Qed.

Lemma obj_get_None m k : obj_get m k = None <-> k ∉ m.*1.
Proof.
  induction m as [|[k' v'] m IH]; simpl; [split; [intros _; apply not_elem_of_nil|done]|].
  rewrite not_elem_of_cons. case_decide; [naive_solver|]. rewrite IH. naive_solver.
Qed.

(** Integer-valued JSON numbers, as Go literals in renderer inputs encode. *)
Definition JInt (z : Z) : jval := JNum (itoa z).
