(* ===== verification/GoFloat.v ===== *)
(** [float64]: IEEE 754 binary64 arithmetic, computed with the Standard
    Library's executable specification of floating point ([SpecFloat]). *)
From S2P Require Import Prelude.
From Corelib Require Import SpecFloat.

Open Scope Z_scope.

Abbreviation float64 := spec_float (only parsing).

Definition prec : Z := 53.
Definition emax : Z := 1024.

Definition fadd : spec_float -> spec_float -> spec_float := SFadd prec emax.
Definition fsub : spec_float -> spec_float -> spec_float := SFsub prec emax.
Definition fmul : spec_float -> spec_float -> spec_float := SFmul prec emax.
Definition fdiv : spec_float -> spec_float -> spec_float := SFdiv prec emax.

(** [float64(z)] of an integer: rounding to nearest even. *)
Definition float_of_Z (z : Z) : spec_float := binary_normalize prec emax z 0 (z <? 0).

Definition flt (x y : spec_float) : bool := SFltb x y.
Definition fle (x y : spec_float) : bool := SFleb x y.
Definition fgt (x y : spec_float) : bool := SFltb y x.

(** Conversion of a float to an integer type truncates toward zero; [None] for
    NaN and the infinities, whose conversion Go leaves to the implementation. *)
Definition trunc_to_Z (x : spec_float) : option Z :=
  match x with
  | S754_zero _ => Some 0
  | S754_finite s m e =>
      let a := if 0 <=? e then Z.pos m * 2 ^ e else Z.pos m / 2 ^ (- e) in
      Some (if s then - a else a)
  | _ => None
  end.

(** No float is below itself; comparisons with NaN are all false. *)
Lemma flt_irrefl x : flt x x = false.
Proof.
  unfold flt, SFltb, SFcompare.
  destruct x as [[]|[]| |[] m e]; try done; by rewrite Z.compare_refl, Pos.compare_refl.
Qed.

(** [x < y] and [y < x] exclude each other. *)
Lemma flt_asym x y : flt x y = true -> flt y x = false.
Proof.
  unfold flt, SFltb, SFcompare.
  destruct x as [[]|[]| |[] m e], y as [[]|[]| |[] m' e']; try done;
    pose proof (Z.compare_antisym e e') as He; pose proof (Pos.compare_antisym m m') as Hm;
    rewrite ?He; change (Pos.compare_cont Eq m' m) with (m' ?= m)%positive;
    rewrite ?Hm; change (Pos.compare_cont Eq m m') with (m ?= m')%positive;
    destruct (e ?= e'), (m ?= m')%positive; simpl; done.
Qed.
