(* ===== verification/StoreTypes.v ===== *)
(** The persistence layer's data: the row and payload types of
    internal/store/store.go, its sentinel errors and string enumerations, and
    the audit entries of internal/audit/audit.go. *)
From S2P Require Import Prelude GoStrings Json GoFloat.
From Corelib Require Import SpecFloat.

Open Scope string_scope.

(** ** Sentinel errors

    [errors.Is] sees through [fmt.Errorf] wrapping, so a wrapped sentinel is
    the sentinel; any other failure carries its message. *)
Inductive store_err : Type :=
| ErrNotFound
| ErrSlugExists
| ErrNameExists
| ErrConflict
| ErrEmailExists
| ErrLastAdmin
| ErrOther (msg : string).

#[global] Instance store_err_eq_dec : EqDecision store_err.
Proof. solve_decision. Defined.

(** ** Enumerations *)

Definition CustomerActive : string := "active".
Definition CustomerSuspended : string := "suspended".
Definition CustomerDeleted : string := "deleted".
Definition AlertMetricIngestItems : string := "ingest_items".
Definition AlertMetricErrorLogs : string := "error_logs".
Definition AlertMetricPromQL : string := "promql".
Definition AlertComparisonBelow : string := "below".
Definition AlertComparisonAbove : string := "above".
Definition AlertSeverityInfo : string := "info".
Definition AlertSeverityWarning : string := "warning".
Definition AlertSeverityCritical : string := "critical".
Definition ValidationValid : string := "valid".
Definition ValidationInvalid : string := "invalid".
Definition ClassForwarding : string := "forwarding".
Definition ClassEdge : string := "edge".
Definition AgentClassGateway : string := "gateway".
Definition AgentClassEdge : string := "edge".
Definition RemoteConfigUnset : string := "unset".
Definition RemoteConfigApplying : string := "applying".
Definition RemoteConfigApplied : string := "applied".
Definition RemoteConfigFailed : string := "failed".
Definition AgentEventEnrolled : string := "enrolled".
Definition AgentEventConnected : string := "connected".
Definition AgentEventDisconnected : string := "disconnected".
Definition AgentEventConfigApplied : string := "config_applied".
Definition AgentEventConfigFailed : string := "config_failed".
Definition AgentEventHealthy : string := "healthy".
Definition AgentEventUnhealthy : string := "unhealthy".
Definition WebhookEventAgentOffline : string := "agent_offline".
Definition WebhookEventAgentConfigFailed : string := "agent_config_failed".
Definition WebhookEventAgentUnhealthy : string := "agent_unhealthy".
Definition WebhookTypeGeneric : string := "webhook".
Definition WebhookTypeSlack : string := "slack".
Definition WebhookTypePagerDuty : string := "pagerduty".
Definition WebhookTypeOpsgenie : string := "opsgenie".

(** ** Rows and payloads

    A [uuid.UUID] is its 128-bit number, a [time.Time] its nanoseconds; a
    pointer field is an [option]; a [[]byte] column is its bytes, an [option]
    where NULL is distinguished; JSONB columns are JSON values. *)

Record OptionalInt : Type := MkOptionalInt {
  OptionalInt_Set : bool;
  OptionalInt_Value : option Z
}.

Record Customer : Type := MkCustomer {
  Customer_ID : N;
  Customer_Slug : string;
  Customer_Name : string;
  Customer_ClientID : string;
  Customer_Status : string;
  Customer_Region : string;
  Customer_RateLimitItemsPerSec : option Z;
  Customer_RetentionDays : option Z;
  Customer_CreatedAt : Z;
  Customer_UpdatedAt : Z
}.

Record CustomerRef : Type := MkCustomerRef {
  CustomerRef_ID : N;
  CustomerRef_Name : string;
  CustomerRef_ClientID : string
}.

Record User : Type := MkUser {
  User_ID : N;
  User_Email : string;
  User_DisplayName : option string;
  User_Role : string;
  User_ExternalID : option string;
  User_DisabledAt : option Z;
  User_LastLoginAt : option Z;
  User_CreatedAt : Z;
  User_ScimManaged : bool
}.

Record BillingSettings : Type := MkBillingSettings {
  BillingSettings_PricePerGiBMicro : Z;
  BillingSettings_PricePerMillionItemsMicro : Z;
  BillingSettings_Currency : string;
  BillingSettings_UpdatedAt : Z;
  BillingSettings_UpdatedBy : option N
}.

Record BillingOverride : Type := MkBillingOverride {
  BillingOverride_CustomerID : N;
  BillingOverride_PricePerGiBMicro : option Z;
  BillingOverride_PricePerMillionItemsMicro : option Z;
  BillingOverride_UpdatedAt : Z;
  BillingOverride_UpdatedBy : option N
}.

Record AlertRule : Type := MkAlertRule {
  AlertRule_ID : N;
  AlertRule_Name : string;
  AlertRule_Metric : string;
  AlertRule_Query : string;
  AlertRule_Comparison : string;
  AlertRule_Threshold : spec_float;
  AlertRule_WindowSeconds : Z;
  AlertRule_Severity : string;
  AlertRule_CustomerID : option N;
  AlertRule_ChannelIDs : list N;
  AlertRule_Enabled : bool;
  AlertRule_CreatedAt : Z;
  AlertRule_UpdatedAt : Z
}.

Record MaintenanceWindow : Type := MkMaintenanceWindow {
  MaintenanceWindow_ID : N;
  MaintenanceWindow_Name : string;
  MaintenanceWindow_StartsAt : Z;
  MaintenanceWindow_EndsAt : Z;
  MaintenanceWindow_CreatedAt : Z
}.

Record APIKey : Type := MkAPIKey {
  APIKey_ID : N;
  APIKey_CustomerID : N;
  APIKey_Name : string;
  APIKey_KeyPrefix : string;
  APIKey_KeyHash : string;
  APIKey_CreatedBy : option N;
  APIKey_CreatedAt : Z;
  APIKey_ExpiresAt : option Z;
  APIKey_RevokedAt : option Z;
  APIKey_LastUsedAt : option Z
}.

Record NewCustomer : Type := MkNewCustomer {
  NewCustomer_ID : N;
  NewCustomer_Slug : string;
  NewCustomer_Name : string;
  NewCustomer_ClientID : string;
  NewCustomer_Region : string
}.

Record NewAPIKey : Type := MkNewAPIKey {
  NewAPIKey_ID : N;
  NewAPIKey_CustomerID : N;
  NewAPIKey_Name : string;
  NewAPIKey_KeyPrefix : string;
  NewAPIKey_KeyHash : string;
  NewAPIKey_CreatedBy : option N;
  NewAPIKey_ExpiresAt : option Z
}.

Record CustomerUpdate : Type := MkCustomerUpdate {
  CustomerUpdate_Name : option string;
  CustomerUpdate_Status : option string;
  CustomerUpdate_RateLimitItemsPerSec : OptionalInt;
  CustomerUpdate_RetentionDays : OptionalInt
}.

Record AuthKey : Type := MkAuthKey {
  AuthKey_KeyID : N;
  AuthKey_CustomerID : N;
  AuthKey_ClientID : string;
  AuthKey_KeyHash : string;
  AuthKey_CustomerStatus : string;
  AuthKey_ExpiresAt : option Z;
  AuthKey_RateLimitItemsPerSec : Z
}.

Record Pipeline : Type := MkPipeline {
  Pipeline_ID : N;
  Pipeline_CustomerID : N;
  Pipeline_CustomerName : string;
  Pipeline_CustomerSlug : string;
  Pipeline_ClientID : string;
  Pipeline_Name : string;
  Pipeline_TargetClass : string;
  Pipeline_ActiveVersionID : option N;
  Pipeline_ActiveVersion : option Z;
  Pipeline_LatestVersion : option Z;
  Pipeline_CreatedAt : Z
}.

Record PipelineVersion : Type := MkPipelineVersion {
  PipelineVersion_ID : N;
  PipelineVersion_PipelineID : N;
  PipelineVersion_Version : Z;
  PipelineVersion_Graph : jval;
  PipelineVersion_RenderedYAML : string;
  PipelineVersion_ConfigHash : string;
  PipelineVersion_ValidationStatus : string;
  PipelineVersion_ValidationOutput : option string;
  PipelineVersion_CreatedBy : option N;
  PipelineVersion_CreatedByEmail : option string;
  PipelineVersion_CreatedAt : Z;
  PipelineVersion_Active : bool
}.

Record NewPipeline : Type := MkNewPipeline {
  NewPipeline_ID : N;
  NewPipeline_CustomerID : N;
  NewPipeline_Name : string;
  NewPipeline_TargetClass : string
}.

Record NewPipelineVersion : Type := MkNewPipelineVersion {
  NewPipelineVersion_ID : N;
  NewPipelineVersion_PipelineID : N;
  NewPipelineVersion_Graph : jval;
  NewPipelineVersion_RenderedYAML : string;
  NewPipelineVersion_ConfigHash : string;
  NewPipelineVersion_ValidationStatus : string;
  NewPipelineVersion_ValidationOutput : option string;
  NewPipelineVersion_CreatedBy : option N
}.

Record ActivePipeline : Type := MkActivePipeline {
  ActivePipeline_PipelineID : N;
  ActivePipeline_PipelineName : string;
  ActivePipeline_CustomerID : N;
  ActivePipeline_CustomerSlug : string;
  ActivePipeline_ClientID : string;
  ActivePipeline_Graph : jval
}.

Record BootstrapToken : Type := MkBootstrapToken {
  BootstrapToken_ID : N;
  BootstrapToken_CustomerID : N;
  BootstrapToken_Name : string;
  BootstrapToken_TokenPrefix : string;
  BootstrapToken_TokenHash : string;
  BootstrapToken_MaxUses : Z;
  BootstrapToken_UsedCount : Z;
  BootstrapToken_CreatedBy : option N;
  BootstrapToken_CreatedAt : Z;
  BootstrapToken_ExpiresAt : Z;
  BootstrapToken_RevokedAt : option Z
}.

Record NewBootstrapToken : Type := MkNewBootstrapToken {
  NewBootstrapToken_ID : N;
  NewBootstrapToken_CustomerID : N;
  NewBootstrapToken_Name : string;
  NewBootstrapToken_TokenPrefix : string;
  NewBootstrapToken_TokenHash : string;
  NewBootstrapToken_MaxUses : Z;
  NewBootstrapToken_CreatedBy : option N;
  NewBootstrapToken_ExpiresAt : Z
}.

Record EnrollToken : Type := MkEnrollToken {
  EnrollToken_TokenID : N;
  EnrollToken_CustomerID : N;
  EnrollToken_TokenHash : string;
  EnrollToken_MaxUses : Z;
  EnrollToken_UsedCount : Z;
  EnrollToken_ExpiresAt : Z;
  EnrollToken_CustomerStatus : string
}.

Record APIToken : Type := MkAPIToken {
  APIToken_ID : N;
  APIToken_Name : string;
  APIToken_TokenPrefix : string;
  APIToken_Role : string;
  APIToken_CreatedBy : option N;
  APIToken_CreatedByEmail : option string;
  APIToken_CreatedAt : Z;
  APIToken_ExpiresAt : option Z;
  APIToken_RevokedAt : option Z;
  APIToken_LastUsedAt : option Z
}.

Record NewAPIToken : Type := MkNewAPIToken {
  NewAPIToken_ID : N;
  NewAPIToken_Name : string;
  NewAPIToken_TokenPrefix : string;
  NewAPIToken_TokenHash : string;
  NewAPIToken_Role : string;
  NewAPIToken_CreatedBy : option N;
  NewAPIToken_ExpiresAt : option Z
}.

Record APITokenAuth : Type := MkAPITokenAuth {
  APITokenAuth_ID : N;
  APITokenAuth_Role : string;
  APITokenAuth_CreatedBy : option N;
  APITokenAuth_TokenHash : string;
  APITokenAuth_ExpiresAt : option Z
}.

Record AgentAuth : Type := MkAgentAuth {
  AgentAuth_AgentID : N;
  AgentAuth_CustomerID : N;
  AgentAuth_InstanceUID : string;
  AgentAuth_TokenHash : string;
  AgentAuth_CustomerStatus : string
}.

Record Agent : Type := MkAgent {
  Agent_ID : N;
  Agent_InstanceUID : string;
  Agent_CustomerID : option N;
  Agent_CustomerName : option string;
  Agent_Class : string;
  Agent_Name : option string;
  Agent_DisplayName : option string;
  Agent_Labels : option jval;
  Agent_AgentVersion : option string;
  Agent_Description : option jval;
  Agent_Capabilities : option Z;
  Agent_AssignedConfigHash : option string;
  Agent_ReportedConfigHash : option string;
  Agent_AckedConfigHash : option string;
  Agent_ReportedConfigYAML : option string;
  Agent_RemoteConfigStatus : string;
  Agent_RemoteConfigError : option string;
  Agent_Health : option jval;
  Agent_Healthy : option bool;
  Agent_Connected : bool;
  Agent_LastSeenAt : option Z;
  Agent_EnrolledVia : option N;
  Agent_CreatedAt : Z
}.

Record NewAgent : Type := MkNewAgent {
  NewAgent_ID : N;
  NewAgent_InstanceUID : string;
  NewAgent_CustomerID : N;
  NewAgent_Class : string;
  NewAgent_Name : option string;
  NewAgent_AgentVersion : option string;
  NewAgent_Description : option jval;
  NewAgent_Capabilities : Z;
  NewAgent_EnrolledVia : N
}.

Record AgentEvent : Type := MkAgentEvent {
  AgentEvent_ID : Z;
  AgentEvent_AgentID : N;
  AgentEvent_EventType : string;
  AgentEvent_Detail : option jval;
  AgentEvent_CreatedAt : Z
}.

Record Webhook : Type := MkWebhook {
  Webhook_ID : N;
  Webhook_Type : string;
  Webhook_Name : string;
  Webhook_URL : string;
  Webhook_Events : list string;
  Webhook_SecretEnc : option string;
  Webhook_Enabled : bool;
  Webhook_CreatedBy : option N;
  Webhook_CreatedAt : Z;
  Webhook_UpdatedAt : Z
}.

Record AgentFilter : Type := MkAgentFilter {
  AgentFilter_Class : option string;
  AgentFilter_CustomerID : option N;
  AgentFilter_Connected : option bool
}.

(** ** Audit entries (internal/audit/audit.go) *)

Record AuditEntry : Type := MkAuditEntry {
  Audit_ActorUserID : option N;
  Audit_ActorType : string;
  Audit_Action : string;
  Audit_EntityType : string;
  Audit_EntityID : string;
  Audit_CustomerID : option N;
  Audit_Payload : option jval
}.

(** [audit.Write]: the rows appended to audit_log; an empty actor type is
    stored as user. *)
Definition audit_write (log : list AuditEntry) (entries : list AuditEntry) : list AuditEntry :=
  (log ++ ((fun e => if decide (Audit_ActorType e = "") then
     MkAuditEntry (Audit_ActorUserID e) "user" (Audit_Action e) (Audit_EntityType e)
       (Audit_EntityID e) (Audit_CustomerID e) (Audit_Payload e) else e) <$> entries))%list.

Lemma audit_write_length log entries :
  length (audit_write log entries) = (length log + length entries)%nat.
Proof. unfold audit_write. by rewrite length_app, length_fmap. Qed.
