(* ===== verification/Slug.v ===== *)
(** Customer and pipeline slugs: internal/tenants/slug.go. *)
From S2P Require Import Prelude GoStrings.
From Stdlib Require Import Ascii.

Open Scope string_scope.

Definition hyphen : ascii := "-".
Definition is_hyphen (c : ascii) : bool := bool_decide (c = hyphen).
Definition slug_char (c : ascii) : bool := is_slug_alnum c || is_hyphen c.

(** The regular expression ^[a-z0-9][a-z0-9-]{1,62}[a-z0-9]$ on bytes. *)
Definition slug_pattern (l : list ascii) : bool :=
  match l with
  | [] => false
  | c :: l' =>
      is_slug_alnum c &&
      match reverse l' with
      | [] => false
      | d :: mid => is_slug_alnum d && forallb slug_char mid
                    && (1 <=? length mid)%nat && (length mid <=? 62)%nat
      end
  end.

Definition ValidSlug (s : string) : bool := slug_pattern (bytes_of s).

(** [(r >= 'a' && r <= 'z') || (r >= '0' && r <= '9')] *)
Definition rune_alnum (r : Z) : bool :=
  ((97 <=? r) && (r <=? 122) || (48 <=? r) && (r <=? 57))%Z.

(** The builder loop: alphanumeric runes are kept, any run of others becomes
    one hyphen, none at the start ([lastHyphen] is initially true). *)
Fixpoint slug_loop (last_hyphen : bool) (rs : list Z) : list ascii :=
  match rs with
  | [] => []
  | r :: rs =>
      if rune_alnum r then byte_of r :: slug_loop false rs
      else if last_hyphen then slug_loop true rs
      else hyphen :: slug_loop true rs
  end.

(** [for len(s) < 3 { ... s += "0" }]; three rounds suffice from any length. *)
Fixpoint pad_slug (fuel : nat) (l : list ascii) : list ascii :=
  match fuel with
  | O => l
  | S fuel => if (length l <? 3)%nat then
                match l with
                | [] => bytes_of "customer"
                | _ => pad_slug fuel (l ++ ["0"%char])%list
                end
              else l
  end.

Definition slug_of_runes (rs : list Z) : list ascii :=
  let s := trim_both is_hyphen (slug_loop true rs) in
  let s := if (64 <? length s)%nat then trim_both is_hyphen (take 64 s) else s in
  pad_slug 3 s.

Definition DeriveSlug (unicode_lower : Z -> Z) (name : string) : string :=
  of_bytes (slug_of_runes (lower_rune unicode_lower <$> utf8_runes name)).

(** ** The loop emits slug characters, never two hyphens in a row *)

Fixpoint no_double_hyphen (l : list ascii) : bool :=
  match l with
  | c :: (d :: _) as l' => negb (is_hyphen c && is_hyphen d) && no_double_hyphen l'
  | _ => true
  end.

Lemma no_double_cons c d l :
  no_double_hyphen (c :: d :: l) = negb (is_hyphen c && is_hyphen d) && no_double_hyphen (d :: l).
Proof. done. Qed.

Lemma rune_alnum_byte r : rune_alnum r = true -> is_slug_alnum (byte_of r) = true.
Proof.
  unfold rune_alnum, is_slug_alnum, is_lower, is_digit, in_range, byte_of. intros H.
  rewrite N_ascii_embedding by lia.
  change (N_of_ascii "a") with 97%N. change (N_of_ascii "z") with 122%N.
  change (N_of_ascii "0") with 48%N. change (N_of_ascii "9") with 57%N.
  rewrite !orb_true_iff, !andb_true_iff, !Z.leb_le in H.
  rewrite !orb_true_iff, !andb_true_iff, !N.leb_le. lia.
Qed.

Lemma alnum_not_hyphen c : is_slug_alnum c = true -> is_hyphen c = false.
Proof. unfold is_hyphen. intros H. apply bool_decide_eq_false. by intros ->. Qed.

Lemma slug_char_not_hyphen c : slug_char c = true -> is_hyphen c = false -> is_slug_alnum c = true.
Proof. unfold slug_char. intros H Hh. by rewrite Hh, orb_false_r in H. Qed.

Lemma slug_loop_chars b rs : Forall (fun c => slug_char c = true) (slug_loop b rs).
Proof.
  revert b. induction rs as [|r rs IH]; intros b; simpl; [constructor|].
  destruct (rune_alnum r) eqn:Hr; [constructor|destruct b; [|constructor]]; auto.
  unfold slug_char. by rewrite rune_alnum_byte.
Qed.

Lemma slug_loop_no_double b rs :
  no_double_hyphen (slug_loop b rs) = true
  /\ (b = true -> forall c l, slug_loop b rs = c :: l -> is_hyphen c = false).
Proof.
  revert b. induction rs as [|r rs IH]; intros b; [by split|]. cbn [slug_loop].
  destruct (rune_alnum r) eqn:Hr.
  - pose proof (alnum_not_hyphen _ (rune_alnum_byte _ Hr)) as Hh.
    destruct (IH false) as [IH1 _]. split; [|intros _ c l Heq; by simplify_eq].
    destruct (slug_loop false rs); [done|]. by rewrite no_double_cons, Hh.
  - destruct b; [apply IH|]. destruct (IH true) as [IH1 IH2]. split; [|done].
    destruct (slug_loop true rs) as [|d l] eqn:Hl; [done|].
    rewrite no_double_cons, (IH2 eq_refl d l) by done. exact IH1.
Qed.

(** ** Trimming and truncation keep the invariant *)

Lemma no_double_app l k :
  no_double_hyphen (l ++ k)%list = true -> no_double_hyphen l = true /\ no_double_hyphen k = true.
Proof.
  induction l as [|c l IH]; [done|]. destruct l as [|d l].
  - destruct k; [done|]. intros [_ ?]%andb_prop. done.
  - change ((c :: d :: l) ++ k)%list with (c :: d :: (l ++ k))%list.
    rewrite !no_double_cons. intros [Hc H]%andb_prop.
    destruct (IH H) as [H1 H2]. by rewrite Hc, H1.
Qed.

Lemma trim_both_infix {A} (f : A -> bool) l : exists k1 k2, l = (k1 ++ trim_both f l ++ k2)%list.
Proof.
  destruct (drop_while_suffix f l) as [k1 H1].
  destruct (drop_while_suffix f (reverse (drop_while f l))) as [k2 H2].
  exists k1, (reverse k2). unfold trim_both. rewrite H1 at 1. f_equal.
  apply (f_equal reverse) in H2. by rewrite reverse_involutive, reverse_app in H2.
Qed.

Definition slug_body (l : list ascii) : Prop :=
  Forall (fun c => slug_char c = true) l /\ no_double_hyphen l = true.

Lemma slug_body_trim l : slug_body l -> slug_body (trim_both is_hyphen l).
Proof.
  intros [H1 H2]. destruct (trim_both_infix is_hyphen l) as (k1 & k2 & Heq). split.
  - rewrite Forall_forall in *. intros c Hc. by apply H1, trim_both_incl with is_hyphen.
  - rewrite Heq in H2. apply no_double_app in H2 as [_ H2]. by apply no_double_app in H2 as [? _].
Qed.

Lemma slug_body_take n l : slug_body l -> slug_body (take n l).
Proof.
  intros [H1 H2]. rewrite <- (take_drop n l) in H1, H2. split.
  - by apply Forall_app in H1 as [? _].
  - by apply no_double_app in H2 as [? _].
Qed.

(** A trimmed, truncated body: at most 64 characters, alphanumeric at both
    ends. *)
Definition slug_core (l : list ascii) : Prop :=
  slug_body l /\ (length l <= 64)%nat
  /\ (forall c l', l = c :: l' -> is_slug_alnum c = true)
  /\ (forall c l', l = (l' ++ [c])%list -> is_slug_alnum c = true).

Lemma slug_core_trim l : slug_body l -> (length l <= 64)%nat -> slug_core (trim_both is_hyphen l).
Proof.
  intros Hb Hlen. pose proof (slug_body_trim _ Hb) as [Hc Hd].
  split; [by split|]. split; [pose proof (trim_both_length is_hyphen l); lia|].
  rewrite Forall_forall in Hc. split; intros c l' Heq.
  - apply slug_char_not_hyphen; [|by eapply trim_both_head]. apply Hc. rewrite Heq. left.
  - apply slug_char_not_hyphen; [|by eapply trim_both_last]. apply Hc. rewrite Heq. set_solver.
Qed.

Lemma slug_core_of_runes rs :
  exists l, slug_core l /\ slug_of_runes rs = pad_slug 3 l.
Proof.
  set (l := trim_both is_hyphen (slug_loop true rs)).
  assert (slug_body l) as Hb.
  { apply slug_body_trim. split; [apply slug_loop_chars|apply slug_loop_no_double]. }
  unfold slug_of_runes. fold l. destruct (Nat.ltb_spec 64 (length l)) as [Hlt|Hle].
  - eexists; split; [|done]. apply slug_core_trim; [by apply slug_body_take|].
    rewrite length_take. lia.
  - exists l; split; [|done].
    assert (slug_core (trim_both is_hyphen (slug_loop true rs))) as H; [|done].
    destruct (Nat.leb_spec (length (slug_loop true rs)) 64).
    + apply slug_core_trim; [|done]. split; [apply slug_loop_chars|apply slug_loop_no_double].
    + pose proof Hb as [Hc Hd]. split; [done|]. split; [done|]. rewrite Forall_forall in Hc.
      split; intros c l' Heq.
      * apply slug_char_not_hyphen; [|by eapply trim_both_head]. apply Hc. unfold l. rewrite Heq. left.
      * apply slug_char_not_hyphen; [|by eapply trim_both_last]. apply Hc. unfold l. rewrite Heq.
        set_solver.
Qed.

(** ** The pattern as a specification *)

Lemma slug_pattern_iff l :
  slug_pattern l = true <->
  exists c mid d, l = (c :: mid ++ [d])%list /\ is_slug_alnum c = true /\ is_slug_alnum d = true
    /\ Forall (fun c => slug_char c = true) mid /\ (1 <= length mid <= 62)%nat.
Proof.
  unfold slug_pattern. split.
  - destruct l as [|c l]; [done|]. intros [Hc H]%andb_prop.
    destruct (reverse l) as [|d mid] eqn:Hr; [done|].
    apply andb_prop in H as [H H62%Nat.leb_le]. apply andb_prop in H as [H H1%Nat.leb_le].
    apply andb_prop in H as [Hd Hm]. exists c, (reverse mid), d.
    apply (f_equal reverse) in Hr. rewrite reverse_involutive, reverse_cons in Hr. subst l.
    rewrite length_reverse. split_and!; try done. apply Forall_reverse.
    apply Forall_forall. intros x Hx. apply list_elem_of_In in Hx.
    by eapply forallb_forall in Hm.
  - intros (c & mid & d & -> & Hc & Hd & Hm & H1 & H2). rewrite Hc, reverse_snoc.
    rewrite !andb_true_iff, !Nat.leb_le, length_reverse. split_and!; try done.
    apply forallb_forall. intros x Hx. apply list_elem_of_In in Hx. rewrite elem_of_reverse in Hx.
    rewrite Forall_forall in Hm. by apply Hm.
Qed.

Lemma slug_core_valid l : slug_core l -> (3 <= length l)%nat -> slug_pattern l = true.
Proof.
  intros ([Hc _] & Hlen & Hhd & Htl) H3. apply slug_pattern_iff.
  destruct l as [|c l]; [simpl in H3; lia|]. destruct l as [|d mid] using rev_ind; [simpl in H3; lia|].
  clear IHmid. exists c, mid, d. simpl in *. rewrite length_app in *. simpl in *.
  apply Forall_cons in Hc as [_ Hc]. apply Forall_app in Hc as [Hm _].
  split_and!; try done; try lia.
  - by eapply Hhd.
  - by apply (Htl d (c :: mid)).
Qed.

Lemma pad_slug_valid l : slug_core l -> slug_pattern (pad_slug 3 l) = true.
Proof.
  intros Hl. destruct (Nat.leb_spec 3 (length l)) as [H3|H3].
  - simpl. rewrite (proj2 (Nat.ltb_ge _ _)) by done. by apply slug_core_valid.
  - destruct Hl as (_ & _ & Hhd & Htl). destruct l as [|c [|d [|e l]]]; simpl in H3; [done| | |lia].
    + pose proof (Hhd c [] eq_refl) as Hc. apply slug_pattern_iff.
      exists c, ["0"%char], "0"%char. by repeat constructor.
    + pose proof (Hhd c _ eq_refl) as Hc. pose proof (Htl d [c] eq_refl) as Hd.
      apply slug_pattern_iff. exists c, [d], "0"%char. repeat constructor; try done.
      unfold slug_char. by rewrite Hd.
Qed.

Lemma DeriveSlug_always_valid unicode_lower name : ValidSlug (DeriveSlug unicode_lower name) = true.
Proof.
  unfold ValidSlug, DeriveSlug. rewrite String.list_ascii_of_string_of_list_ascii.
  destruct (slug_core_of_runes (lower_rune unicode_lower <$> utf8_runes name)) as (l & Hl & ->).
  by apply pad_slug_valid.
Qed.

(** The slug derived from any customer name, in any script, satisfies the
    pattern required of explicitly chosen slugs. *)
Theorem DeriveSlug_valid unicode_lower name : ValidSlug (DeriveSlug unicode_lower name) = true.
Proof. apply DeriveSlug_always_valid. Qed.

(** A valid slug is non-empty, has no underscore and no slash, and at most 64
    bytes: what component identifiers built from slugs rely on. *)
Lemma slug_pattern_chars l : slug_pattern l = true -> Forall (fun c => slug_char c = true) l.
Proof.
  intros (c & mid & d & -> & Hc & Hd & Hm & _)%slug_pattern_iff. constructor.
  - unfold slug_char. by rewrite Hc.
  - apply Forall_app; split; [done|]. repeat constructor. unfold slug_char. by rewrite Hd.
Qed.

Lemma ValidSlug_chars s : ValidSlug s = true -> all_bytes slug_char s = true.
Proof.
  intros H%slug_pattern_chars. rewrite all_bytes_bytes_of. apply forallb_forall.
  intros c Hc%list_elem_of_In. rewrite Forall_forall in H. by apply H.
Qed.

Lemma ValidSlug_no_underscore s : ValidSlug s = true -> has_byte "_" s = false.
Proof. intros H. eapply all_bytes_no; [by apply ValidSlug_chars|done]. Qed.

Lemma ValidSlug_no_slash s : ValidSlug s = true -> has_byte "/" s = false.
Proof. intros H. eapply all_bytes_no; [by apply ValidSlug_chars|done]. Qed.

Lemma ValidSlug_length s : ValidSlug s = true -> (3 <= String.length s <= 64)%nat.
Proof.
  intros (c & mid & d & H & _ & _ & _ & Hlen)%slug_pattern_iff.
  rewrite <- length_bytes_of, H. simpl. rewrite length_app. simpl. lia.
Qed.
