(* ===== verification/Tokens.v ===== *)
(** Credentials: minting and parsing of ingest API keys, bootstrap tokens,
    per-agent tokens and management-API tokens (internal/tenants/keys.go,
    bootstrap.go, agenttoken.go, apitoken.go). *)
From S2P Require Import Prelude GoStrings Base64.
From Stdlib Require Import Ascii.

Open Scope string_scope.

(** SHA-256 of the Go standard library, of which only that it is a function is
    used. *)
Class Sha256 := sha256 : string -> string.

Record GeneratedKey : Type := MkGeneratedKey {
  GeneratedKey_Secret : string;
  GeneratedKey_Prefix : string;
  GeneratedKey_Hash : string
}.

Section tokens.
Context `{Sha256}.

Definition HashAPIKey (key : string) : string := sha256 key.

(** [rand.Read] fills a 36-byte buffer or fails. *)
Definition mint (kind : string) (errmsg : string) (rand : option string)
  : result GeneratedKey string :=
  match rand with
  | None => Err errmsg
  | Some buf =>
      let prefix := kind +:+ hex_encode (String.substring 0 4 buf) in
      let secret := prefix +:+ "_" +:+ raw_url_encode (String.substring 4 32 buf) in
      Ok (MkGeneratedKey secret prefix (HashAPIKey secret))
  end.

Definition GenerateAPIKey := mint "otm_" "generate api key".
Definition GenerateBootstrapToken := mint "otm_bt_" "generate bootstrap token".
Definition GenerateAgentToken := mint "otm_at_" "generate agent token".
Definition GenerateAPIToken := mint "otm_pat_" "generate api token".
End tokens.

(** The otm_<8 hex>_<secret> shape. *)
Definition ParseKeyPrefix (key : string) : option string :=
  match split_n "_" 3 key with
  | [p0; p1; p2] =>
      if negb (bool_decide (p0 = "otm")) || negb (String.length p1 =? 8)%nat
         || bool_decide (p2 = "") then None
      else if all_bytes is_lower_hex p1 then Some ("otm_" +:+ p1) else None
  | _ => None
  end.

(** The otm_<kind>_<8 hex>_<secret> shape shared by the three token kinds. *)
Definition parse_token_prefix (kind : string) (token : string) : option string :=
  match split_n "_" 4 token with
  | [p0; p1; p2; p3] =>
      if negb (bool_decide (p0 = "otm")) || negb (bool_decide (p1 = kind))
         || negb (String.length p2 =? 8)%nat || bool_decide (p3 = "") then None
      else if all_bytes is_lower_hex p2 then Some ("otm_" +:+ kind +:+ "_" +:+ p2) else None
  | _ => None
  end.

Definition ParseBootstrapTokenPrefix (token : string) : option string := parse_token_prefix "bt" token.
Definition ParseAgentTokenPrefix (token : string) : option string := parse_token_prefix "at" token.
Definition ParseAPITokenPrefix (token : string) : option string := parse_token_prefix "pat" token.

(** ** Splitting at underscores *)

Definition no_us (s : string) : Prop := has_byte "_" s = false.

Lemma split_n_3 s a b c : split_n "_" 3 s = [a; b; c] <->
  s = a +:+ "_" +:+ b +:+ "_" +:+ c /\ no_us a /\ no_us b.
Proof.
  unfold no_us. cbn [split_n]. split.
  - destruct (cut "_" s) as [[x y]|] eqn:H1; [|done].
    destruct (cut "_" y) as [[z w]|] eqn:H2; [|done]. intros [= -> -> ->].
    apply cut_Some in H1 as [-> ?], H2 as [-> ?]. done.
  - intros (-> & Ha & Hb). simpl.
    rewrite (proj2 (cut_Some "_" _ a (b +:+ String "_" c))) by done.
    by rewrite (proj2 (cut_Some "_" _ b c)) by done.
Qed.

Lemma split_n_4 s a b c d : split_n "_" 4 s = [a; b; c; d] <->
  s = a +:+ "_" +:+ b +:+ "_" +:+ c +:+ "_" +:+ d /\ no_us a /\ no_us b /\ no_us c.
Proof.
  unfold no_us. split.
  - unfold split_n; fold split_n. destruct (cut "_" s) as [[x y]|] eqn:H1; [|done].
    intros [= -> Hy]. apply cut_Some in H1 as [-> ?].
    pose proof (proj1 (split_n_3 y b c d) Hy) as (-> & ? & ?). done.
  - intros (-> & Ha & Hb & Hc). unfold split_n; fold split_n.
    rewrite (proj2 (cut_Some "_" _ a (b +:+ "_" +:+ c +:+ "_" +:+ d))) by done.
    f_equal. by apply split_n_3.
Qed.

Lemma hex_no_us s : all_bytes is_lower_hex s = true -> no_us s.
Proof. intros H. by eapply all_bytes_no. Qed.

(** What the parsers accept, as shapes. *)
Lemma ParseKeyPrefix_iff key p : ParseKeyPrefix key = Some p <->
  exists h s, key = "otm_" +:+ h +:+ "_" +:+ s /\ String.length h = 8%nat
    /\ all_bytes is_lower_hex h = true /\ s <> "" /\ p = "otm_" +:+ h.
Proof.
  unfold ParseKeyPrefix. split.
  - destruct (split_n "_" 3 key) as [|a [|b [|c [|]]]] eqn:Hs; try done.
    apply split_n_3 in Hs as (-> & _ & _).
    destruct (bool_decide_reflect (a = "otm")) as [->|]; [|done].
    destruct (String.length b =? 8)%nat eqn:Hl; [|done]. apply Nat.eqb_eq in Hl.
    destruct (bool_decide_reflect (c = "")) as [|Hc]; [done|].
    destruct (all_bytes is_lower_hex b) eqn:Hb; [|done]. intros [= <-]. simpl. eauto 10.
  - intros (h & s & -> & Hl & Hh & Hs & ->).
    rewrite (proj2 (split_n_3 _ "otm" h s)); [|by split_and!; [|done|apply hex_no_us]].
    rewrite Hl, Hh, (bool_decide_false (s = "")) by done. done.
Qed.

Lemma parse_token_prefix_iff kind token p : no_us kind -> parse_token_prefix kind token = Some p <->
  exists h s, token = "otm_" +:+ kind +:+ "_" +:+ h +:+ "_" +:+ s /\ String.length h = 8%nat
    /\ all_bytes is_lower_hex h = true /\ s <> "" /\ p = "otm_" +:+ kind +:+ "_" +:+ h.
Proof.
  intros Hk. unfold parse_token_prefix. split.
  - destruct (split_n "_" 4 token) as [|a [|b [|c [|d [|]]]]] eqn:Hs; try done.
    apply split_n_4 in Hs as (-> & _ & _ & _).
    destruct (bool_decide_reflect (a = "otm")) as [->|]; [|done].
    destruct (bool_decide_reflect (b = kind)) as [->|]; [|done].
    destruct (String.length c =? 8)%nat eqn:Hl; [|done]. apply Nat.eqb_eq in Hl.
    destruct (bool_decide_reflect (d = "")) as [|Hd]; [done|].
    destruct (all_bytes is_lower_hex c) eqn:Hc; [|done]. intros [= <-]. eauto 10.
  - intros (h & s & -> & Hl & Hh & Hs & ->).
    rewrite (proj2 (split_n_4 _ "otm" kind h s)); [|by split_and!; [|done|done|apply hex_no_us]].
    rewrite !bool_decide_true by done. rewrite Hl, Hh, bool_decide_false by done. done.
Qed.

(** ** Minted credentials parse back to their lookup prefix *)

Lemma substring_length n m s : (n + m <= String.length s)%nat -> String.length (String.substring n m s) = m.
Proof.
  revert n m. induction s as [|c s IH]; intros [|n] [|m] Hle; simpl in *; try lia; try done.
  - f_equal. apply IH. simpl. lia.
  - apply (IH n 0%nat). lia.
  - apply (IH n (S m)). lia.
Qed.

Lemma raw_url_encode_nonempty s : s <> "" -> raw_url_encode s <> "".
Proof. by destruct s as [|a [|b [|c s]]]. Qed.

Section minted.
Context `{Sha256}.

Lemma mint_shape kind msg buf k : String.length buf = 36%nat ->
  mint kind msg (Some buf) = Ok k ->
  exists h s, GeneratedKey_Secret k = kind +:+ h +:+ "_" +:+ s
    /\ GeneratedKey_Prefix k = kind +:+ h /\ String.length h = 8%nat
    /\ all_bytes is_lower_hex h = true /\ s <> "".
Proof using Type.
  intros Hb. cbn [mint]. intros [= <-]. cbn [GeneratedKey_Secret GeneratedKey_Prefix].
  exists (hex_encode (String.substring 0 4 buf)), (raw_url_encode (String.substring 4 32 buf)).
  split_and!; try done.
  - by rewrite string_app_assoc.
  - rewrite hex_encode_length, substring_length; lia.
  - apply hex_encode_lower.
  - apply raw_url_encode_nonempty. intros Heq.
    apply (f_equal String.length) in Heq. rewrite substring_length in Heq by lia. done.
Qed.

Lemma GenerateAPIKey_parse buf k : String.length buf = 36%nat ->
  GenerateAPIKey (Some buf) = Ok k ->
  ParseKeyPrefix (GeneratedKey_Secret k) = Some (GeneratedKey_Prefix k).
Proof using Type.
  intros Hb Hk. destruct (mint_shape "otm_" "generate api key" buf k Hb Hk) as (h & s & -> & -> & ? & ? & ?).
  apply ParseKeyPrefix_iff. by exists h, s.
Qed.

Lemma mint_token_parse kind msg buf k : no_us kind -> String.length buf = 36%nat ->
  mint ("otm_" +:+ kind +:+ "_") msg (Some buf) = Ok k ->
  parse_token_prefix kind (GeneratedKey_Secret k) = Some (GeneratedKey_Prefix k).
Proof using Type.
  intros Hk Hb Hm. destruct (mint_shape _ _ _ _ Hb Hm) as (h & s & -> & -> & ? & ? & ?).
  apply parse_token_prefix_iff; [done|]. exists h, s. by rewrite !string_app_assoc.
Qed.

(** Every credential minted for one of the four kinds is recognised by the
    parser of its kind, which recovers exactly the lookup prefix stored
    with it. *)
Theorem minted_credentials_parse buf : String.length buf = 36%nat ->
  (forall k, GenerateAPIKey (Some buf) = Ok k ->
     ParseKeyPrefix (GeneratedKey_Secret k) = Some (GeneratedKey_Prefix k)) /\
  (forall k, GenerateBootstrapToken (Some buf) = Ok k ->
     ParseBootstrapTokenPrefix (GeneratedKey_Secret k) = Some (GeneratedKey_Prefix k)) /\
  (forall k, GenerateAgentToken (Some buf) = Ok k ->
     ParseAgentTokenPrefix (GeneratedKey_Secret k) = Some (GeneratedKey_Prefix k)) /\
  (forall k, GenerateAPIToken (Some buf) = Ok k ->
     ParseAPITokenPrefix (GeneratedKey_Secret k) = Some (GeneratedKey_Prefix k)).
Proof using Type.
  intros Hb. split_and!; intros k Hk; [by apply GenerateAPIKey_parse with buf|..].
  - by apply (mint_token_parse "bt" "generate bootstrap token" buf).
  - by apply (mint_token_parse "at" "generate agent token" buf).
  - by apply (mint_token_parse "pat" "generate api token" buf).
Qed.
End minted.

(** The four credential kinds are told apart by their shape: no string is
    accepted by two of the parsers. *)
Lemma parse_token_prefix_kind k1 k2 t p1 p2 : no_us k1 -> no_us k2 ->
  parse_token_prefix k1 t = Some p1 -> parse_token_prefix k2 t = Some p2 -> k1 = k2.
Proof.
  intros H1 H2 (h & s & -> & _)%parse_token_prefix_iff; [|done].
  intros (h' & s' & Heq & _)%parse_token_prefix_iff; [|done].
  apply string_app_inj_l in Heq. by apply (app_sep_inj "_") in Heq as [-> _].
Qed.

Lemma ParseKeyPrefix_not_token kind t p p' : no_us kind -> (String.length kind < 8)%nat ->
  ParseKeyPrefix t = Some p -> parse_token_prefix kind t <> Some p'.
Proof.
  intros Hk Hl (h & s & -> & Hh & Hx & _)%ParseKeyPrefix_iff.
  intros (h' & s' & Heq & _)%parse_token_prefix_iff; [|done].
  apply string_app_inj_l in Heq. apply (app_sep_inj "_") in Heq as [-> _]; [lia| |done].
  by apply hex_no_us.
Qed.

(** No string is accepted by the parsers of two credential kinds: ingest
    keys, agent tokens, bootstrap tokens and API tokens cannot be confused. *)
Theorem credential_kinds_disjoint t :
  (forall p, ParseKeyPrefix t = Some p -> ParseBootstrapTokenPrefix t = None
     /\ ParseAgentTokenPrefix t = None /\ ParseAPITokenPrefix t = None) /\
  (forall p, ParseAgentTokenPrefix t = Some p ->
     ParseBootstrapTokenPrefix t = None /\ ParseAPITokenPrefix t = None) /\
  (forall p, ParseBootstrapTokenPrefix t = Some p -> ParseAPITokenPrefix t = None).
Proof.
  unfold ParseBootstrapTokenPrefix, ParseAgentTokenPrefix, ParseAPITokenPrefix.
  assert (forall k p, no_us k -> (String.length k < 8)%nat -> ParseKeyPrefix t = Some p ->
            parse_token_prefix k t = None) as Hkey.
  { intros k p Hk Hl Hp. apply eq_None_not_Some. intros [p' Hp'].
    by eapply ParseKeyPrefix_not_token. }
  assert (forall k k' p, no_us k -> no_us k' -> k <> k' -> parse_token_prefix k t = Some p ->
            parse_token_prefix k' t = None) as Htok.
  { intros k k' p Hk Hk' Hne Hp. apply eq_None_not_Some. intros [p' Hp'].
    by pose proof (parse_token_prefix_kind _ _ _ _ _ Hk Hk' Hp Hp'). }
  split_and!; intros p Hp; split_and?;
    first [by apply Hkey with p; [|simpl; lia|] | by eapply Htok; [| | |exact Hp]].
Qed.

(** With a concrete buffer, and any function for the hash. *)
Definition ex_buf : string := "0123456789abcdef0123456789abcdef0123".

Definition ex_agent_token : GeneratedKey :=
  MkGeneratedKey "otm_at_30313233_NDU2Nzg5YWJjZGVmMDEyMzQ1Njc4OWFiY2RlZjAxMjM"
    "otm_at_30313233" "otm_at_30313233_NDU2Nzg5YWJjZGVmMDEyMzQ1Njc4OWFiY2RlZjAxMjM".

Lemma minted_credentials_parse_witness :
  ParseAgentTokenPrefix (GeneratedKey_Secret ex_agent_token) = Some (GeneratedKey_Prefix ex_agent_token).
Proof.
  refine (proj1 (proj2 (proj2 (minted_credentials_parse (H := fun s => s) ex_buf eq_refl))) ex_agent_token _).
  vm_compute. reflexivity.
Defined.
