(* ===== verification/Authz.v ===== *)
(** Who may do what: the role model (internal/authz), principals and browser
    sessions (internal/auth/session.go), management-API token authentication
    and tenant scoping (internal/api/tokenauth.go, scope.go) and the Guard
    middleware that composes them (internal/api/middleware.go). *)
From S2P Require Import Prelude GoStrings Tokens StoreTypes.

Open Scope string_scope.

(** ** Roles *)

Definition RoleViewer : string := "viewer".
Definition RoleOperator : string := "operator".
Definition RoleAdmin : string := "admin".

(** The [level] map; a missing key reads as zero. *)
Definition level (role : string) : Z :=
  if decide (role = RoleViewer) then 1
  else if decide (role = RoleOperator) then 2
  else if decide (role = RoleAdmin) then 3
  else 0.

Definition Known (role : string) : bool := negb (level role =? 0)%Z.
Definition Rank (role : string) : Z := level role.
Definition AtLeast (role min : string) : bool :=
  let r := level role in let m := level min in
  negb (r =? 0)%Z && negb (m =? 0)%Z && (m <=? r)%Z.
Definition CanMutate (role : string) : bool := AtLeast role RoleOperator.

Lemma level_range role : (0 <= level role <= 3)%Z.
Proof. unfold level. repeat case_decide; lia. Qed.

Lemma level_known role : level role <> 0%Z -> role = RoleViewer \/ role = RoleOperator \/ role = RoleAdmin.
Proof. unfold level. repeat case_decide; tauto. Qed.

(** On known roles [AtLeast] is a total order: it is the order of ranks, and a
    role outside the three satisfies nothing and is satisfied by nothing. *)
Lemma AtLeast_spec role min :
  AtLeast role min = true <-> Known role = true /\ Known min = true /\ (Rank min <= Rank role)%Z.
Proof. unfold AtLeast, Known, Rank. rewrite !andb_true_iff, Z.leb_le. tauto. Qed.

Lemma level_inj a b : level a = level b -> level a <> 0%Z -> a = b.
Proof.
  intros Heq Hne. destruct (level_known a Hne) as [-> | [-> | ->]];
    destruct (level_known b) as [-> | [-> | ->]]; try congruence; done.
Qed.

(** Role comparison is a total order on the known roles, and an unknown role
    satisfies no requirement and is satisfied by none. *)
Theorem AtLeast_order a b c :
  (Known a = true -> AtLeast a a = true) /\
  (AtLeast a b = true -> AtLeast b c = true -> AtLeast a c = true) /\
  (AtLeast a b = true -> AtLeast b a = true -> a = b) /\
  (Known a = true -> Known b = true -> AtLeast a b = true \/ AtLeast b a = true) /\
  (Known a = false -> AtLeast a b = false /\ AtLeast b a = false).
Proof.
  split_and!.
  - intros H. apply AtLeast_spec. split_and!; try done; lia.
  - rewrite !AtLeast_spec. intros (? & ? & ?) (? & ? & ?). split_and!; try done; lia.
  - rewrite !AtLeast_spec. intros (Ha & _ & ?) (_ & _ & ?). apply level_inj; [unfold Rank in *; lia|].
    unfold Known in Ha. by apply negb_true_iff, Z.eqb_neq in Ha.
  - rewrite !AtLeast_spec. intros Ha Hb. rewrite Ha, Hb.
    destruct (Z.le_ge_cases (Rank a) (Rank b)); [right|left]; split_and!; done || lia.
  - intros Ha. split; apply not_true_iff_false; rewrite AtLeast_spec; intros (? & ? & ?); congruence.
Qed.

(** ** Principals and tenant scoping *)

Record Principal : Type := MkPrincipal {
  Principal_User : User;
  Principal_CSRFToken : string;
  Principal_AllCustomers : bool;
  Principal_AllowedCustomers : gset N
}.

Definition CanAccessCustomer (p : Principal) (id : option N) : bool :=
  if Principal_AllCustomers p then true
  else match id with
       | Some id => bool_decide (id ∈ Principal_AllowedCustomers p)
       | None => false
       end.

(** Scope checks return the 403 they raise; [None] lets the handler go on.  The
    context may carry no principal. *)
Inductive forbidden : Type :=
| errNoCustomerAccess
| errNeedsAllCustomers.

Definition requireCustomerAccess (p : option Principal) (customerID : option N) : option forbidden :=
  match p with
  | None => None
  | Some p =>
      if Principal_AllCustomers p then None
      else if CanAccessCustomer p customerID then None else Some errNoCustomerAccess
  end.

Definition requireUnscoped (p : option Principal) : option forbidden :=
  match p with
  | None => None
  | Some p => if Principal_AllCustomers p then None else Some errNeedsAllCustomers
  end.

(** [None] for an unscoped caller, the allowed customers otherwise. *)
Definition customerScope (p : option Principal) : option (gset N) :=
  match p with
  | None => None
  | Some p => if Principal_AllCustomers p then None else Some (Principal_AllowedCustomers p)
  end.

Definition requirePipelineAccess (p : option Principal)
    (getPipeline : N -> result Pipeline store_err) (pipelineID : N) : option forbidden :=
  match customerScope p with
  | None => None
  | Some _ =>
      match getPipeline pipelineID with
      | Err _ => None
      | Ok pipe => requireCustomerAccess p (Some (Pipeline_CustomerID pipe))
      end
  end.

(** ** Management-API tokens *)

Section guard.
Context `{Sha256}.
(** google/uuid's parser of a session's stored user id. *)
Context (uuid_parse : string -> option N).

(** [subtle.ConstantTimeCompare(a, b) == 1]: equal length and content. *)
Definition constant_time_eq (a b : string) : bool := bool_decide (a = b).

Definition expired_at (expires : option Z) (now : Z) : bool :=
  match expires with Some e => negb (after e now) | None => false end.

(** The loop over candidate tokens: the first hash match decides. *)
Fixpoint match_api_token (hash : string) (now : Z) (toks : list APITokenAuth)
  : option (string * option N) :=
  match toks with
  | [] => None
  | t :: toks =>
      if constant_time_eq hash (APITokenAuth_TokenHash t) then
        if expired_at (APITokenAuth_ExpiresAt t) now then None
        else Some (APITokenAuth_Role t, APITokenAuth_CreatedBy t)
      else match_api_token hash now toks
  end.

(** The role and creator of a presented otm_pat_ token. *)
Definition authenticateAPIToken (tokensByPrefix : string -> result (list APITokenAuth) store_err)
    (now : Z) (authorization : string) : option (string * option N) :=
  match cut_prefix "Bearer " authorization with
  | None => None
  | Some raw =>
      if decide (raw = "") then None
      else match ParseAPITokenPrefix raw with
           | None => None
           | Some prefix =>
               match tokensByPrefix prefix with
               | Err _ => None
               | Ok toks => match_api_token (HashAPIKey raw) now toks
               end
           end
  end.

Definition looksLikeAPIToken (authorization : string) : bool :=
  match cut_prefix "Bearer " authorization with
  | None => false
  | Some raw => bool_decide (is_Some (ParseAPITokenPrefix raw))
  end.

(** ** Sessions: the values the session manager holds; the empty string is an
    absent value. *)
Record Session : Type := MkSession { sess_user_id : string; sess_csrf : string }.

Definition session_UserID (s : Session) : option N :=
  if decide (sess_user_id s = "") then None else uuid_parse (sess_user_id s).

(** [CSRFToken] mints [fresh] when the session has none. *)
Definition session_CSRFToken (fresh : string) (s : Session) : string * Session :=
  if decide (sess_csrf s = "") then (fresh, MkSession (sess_user_id s) fresh)
  else (sess_csrf s, s).

Definition session_ValidCSRF (s : Session) (presented : string) : bool :=
  if decide (sess_csrf s = "") then false
  else if decide (presented = "") then false
  else constant_time_eq (sess_csrf s) presented.

(** [Login] renews the token and binds the session to the user. *)
Definition session_Login (uuid_string : N -> string) (fresh : string) (userID : N) : Session :=
  MkSession (uuid_string userID) fresh.

(** ** The Guard *)

Record Request : Type := MkRequest {
  req_path : string;
  req_method : string;
  req_authorization : string;
  req_csrf : string
}.

Record GuardStore : Type := MkGuardStore {
  gs_GetUser : N -> result User store_err;
  gs_ListUserCustomerIDs : N -> result (list N) store_err;
  gs_ActiveAPITokensByPrefix : string -> result (list APITokenAuth) store_err
}.

(** The denial reasons of security_metrics.go with the status each is answered
    with, and the two ways a request is let through. *)
Inductive verdict : Type :=
| Denied (status : Z) (reason : string)
| Internal
| Public
| Served (p : Principal).

Definition publicPaths : list string :=
  ["/api/v1/auth/providers"; "/api/v1/auth/dev-login"].
Definition logoutPath : string := "/api/v1/auth/logout".
Definition adminPathPrefixes : list string :=
  ["/api/v1/users"; "/api/v1/settings/auth-providers"; "/api/v1/settings/api-tokens";
   "/api/v1/settings/alert-rules"; "/api/v1/settings/maintenance-windows";
   "/api/v1/settings/reencrypt-secrets"; "/api/v1/settings/billing"; "/api/v1/billing";
   "/api/v1/audit"; "/api/v1/metrics"].

Definition isAdminOnlyPath (path : string) : bool :=
  existsb (fun p => bool_decide (path = p) || has_prefix (p +:+ "/") path) adminPathPrefixes.

Definition isMutating (method : string) : bool :=
  bool_decide (method ∈ ["POST"; "PUT"; "PATCH"; "DELETE"]).

(** The user a token request acts as: the zero user but for role, e-mail and,
    when known, the creator's id. *)
Definition token_user (role : string) (createdBy : option N) : User :=
  MkUser (default uuid_nil createdBy) "api-token" None role None None None time_zero false.

Definition Guard (gs : GuardStore) (now : Z) (fresh : string) (s : Session) (r : Request)
  : verdict * Session :=
  if bool_decide (req_path r ∈ publicPaths) then (Public, s)
  else if looksLikeAPIToken (req_authorization r) then
    match authenticateAPIToken (gs_ActiveAPITokensByPrefix gs) now (req_authorization r) with
    | None => (Denied 401 "invalid_api_token", s)
    | Some (role, createdBy) =>
        if isAdminOnlyPath (req_path r) && negb (AtLeast role RoleAdmin)
        then (Denied 403 "requires_admin", s)
        else if isMutating (req_method r) && negb (bool_decide (req_path r = logoutPath))
                && negb (CanMutate role)
        then (Denied 403 "insufficient_role", s)
        else (Served (MkPrincipal (token_user role createdBy) "" true ∅), s)
    end
  else
    match session_UserID s with
    | None => (Denied 401 "unauthenticated", s)
    | Some userID =>
        match gs_GetUser gs userID with
        | Err ErrNotFound => (Denied 401 "unknown_user", s)
        | Err _ => (Internal, s)
        | Ok user =>
            if bool_decide (is_Some (User_DisabledAt user)) then (Denied 401 "account_disabled", s)
            else if isAdminOnlyPath (req_path r) && negb (AtLeast (User_Role user) RoleAdmin)
            then (Denied 403 "requires_admin", s)
            else if isMutating (req_method r) && negb (session_ValidCSRF s (req_csrf r))
            then (Denied 403 "csrf", s)
            else if isMutating (req_method r) && negb (bool_decide (req_path r = logoutPath))
                    && negb (CanMutate (User_Role user))
            then (Denied 403 "insufficient_role", s)
            else
              let '(csrf, s) := session_CSRFToken fresh s in
              if AtLeast (User_Role user) RoleAdmin
              then (Served (MkPrincipal user csrf true ∅), s)
              else
                match gs_ListUserCustomerIDs gs (User_ID user) with
                | Err _ => (Internal, s)
                | Ok grants =>
                    if (length grants =? 0)%nat && negb (User_ScimManaged user)
                    then (Served (MkPrincipal user csrf true ∅), s)
                    else (Served (MkPrincipal user csrf false (list_to_set grants)), s)
                end
        end
    end.

(** *** What a request the Guard lets through has established *)

Lemma match_api_token_Some hash now toks role cb :
  match_api_token hash now toks = Some (role, cb) ->
  exists t, t ∈ toks /\ APITokenAuth_TokenHash t = hash
    /\ expired_at (APITokenAuth_ExpiresAt t) now = false /\ APITokenAuth_Role t = role
    /\ APITokenAuth_CreatedBy t = cb.
Proof using Type.
  induction toks as [|t toks IH]; simpl; [done|]. unfold constant_time_eq.
  case_bool_decide as Hh.
  - destruct (expired_at _ _) eqn:He; [done|]. intros [= <- <-]. exists t. split_and!; try done. left.
  - intros (t' & ? & ?)%IH. exists t'. split; [by right|done].
Qed.

(** The conditions every served request satisfies, by the kind of credential. *)
Definition served_by_token (gs : GuardStore) (now : Z) (r : Request) (p : Principal) : Prop :=
  exists raw prefix toks t,
    req_authorization r = "Bearer " +:+ raw /\ ParseAPITokenPrefix raw = Some prefix
    /\ gs_ActiveAPITokensByPrefix gs prefix = Ok toks /\ t ∈ toks
    /\ APITokenAuth_TokenHash t = sha256 raw /\ expired_at (APITokenAuth_ExpiresAt t) now = false
    /\ User_Role (Principal_User p) = APITokenAuth_Role t /\ Principal_AllCustomers p = true.

Definition served_by_session (gs : GuardStore) (s : Session) (r : Request) (p : Principal) : Prop :=
  exists userID, session_UserID s = Some userID
    /\ gs_GetUser gs userID = Ok (Principal_User p)
    /\ User_DisabledAt (Principal_User p) = None
    /\ (isMutating (req_method r) = true -> sess_csrf s = req_csrf r /\ req_csrf r <> "").

Lemma authenticateAPIToken_Some gs now r role cb :
  authenticateAPIToken (gs_ActiveAPITokensByPrefix gs) now (req_authorization r) = Some (role, cb) ->
  exists raw prefix toks t,
    req_authorization r = "Bearer " +:+ raw /\ ParseAPITokenPrefix raw = Some prefix
    /\ gs_ActiveAPITokensByPrefix gs prefix = Ok toks /\ t ∈ toks
    /\ APITokenAuth_TokenHash t = sha256 raw /\ expired_at (APITokenAuth_ExpiresAt t) now = false
    /\ APITokenAuth_Role t = role.
Proof using Type.
  unfold authenticateAPIToken.
  destruct (cut_prefix "Bearer " _) as [raw|] eqn:Hc; [|done]. apply cut_prefix_Some in Hc.
  case_decide; [done|]. destruct (ParseAPITokenPrefix raw) as [prefix|] eqn:Hp; [|done].
  destruct (gs_ActiveAPITokensByPrefix gs prefix) as [toks|] eqn:Ht; [|done].
  intros (t & ? & ? & ? & ? & ?)%match_api_token_Some. exists raw, prefix, toks, t. done.
Qed.

Lemma ValidCSRF_true s presented :
  session_ValidCSRF s presented = true -> sess_csrf s = presented /\ presented <> "".
Proof using Type.
  unfold session_ValidCSRF, constant_time_eq. repeat case_decide; try done; naive_solver.
Qed.

(** The role checks, common to both kinds of credential. *)
Definition role_checked (r : Request) (role : string) : Prop :=
  (isAdminOnlyPath (req_path r) = true -> role = RoleAdmin) /\
  (isMutating (req_method r) = true -> req_path r <> logoutPath ->
     role = RoleOperator \/ role = RoleAdmin).

Lemma AtLeast_admin role : AtLeast role RoleAdmin = true -> role = RoleAdmin.
Proof using Type.
  rewrite AtLeast_spec. intros (_ & _ & Hr). unfold Rank in Hr.
  pose proof (level_range role). change (level RoleAdmin) with 3%Z in Hr.
  apply level_inj; [change (level RoleAdmin) with 3%Z|]; lia.
Qed.

Lemma CanMutate_role role : CanMutate role = true -> role = RoleOperator \/ role = RoleAdmin.
Proof using Type.
  unfold CanMutate. rewrite AtLeast_spec. intros (Hk & _ & Hr). unfold Rank in Hr.
  unfold Known in Hk. apply negb_true_iff, Z.eqb_neq, level_known in Hk as [-> | [-> | ->]]; auto.
  by vm_compute in Hr.
Qed.

Lemma role_checked_intro r role :
  isAdminOnlyPath (req_path r) && negb (AtLeast role RoleAdmin) = false ->
  isMutating (req_method r) && negb (bool_decide (req_path r = logoutPath)) && negb (CanMutate role)
    = false -> role_checked r role.
Proof using Type.
  intros Ha Hm. split.
  - intros H1. rewrite H1 in Ha. apply negb_false_iff in Ha. by apply AtLeast_admin.
  - intros H1 H2. rewrite H1, bool_decide_false in Hm by done. apply negb_false_iff in Hm.
    by apply CanMutate_role.
Qed.

(** A request the Guard serves as a principal has passed the role checks
    of its path and method, and carries either an unexpired API token
    whose hash the store holds, or the session of an enabled user with,
    for a mutating method, the session's CSRF token. *)
Theorem Guard_served gs now fresh s r p s' :
  Guard gs now fresh s r = (Served p, s') ->
  role_checked r (User_Role (Principal_User p)) /\
  (served_by_token gs now r p \/ served_by_session gs s r p).
Proof using Type.
  unfold Guard. case_bool_decide; [done|]. destruct (looksLikeAPIToken _) eqn:Hl.
  - destruct (authenticateAPIToken _ _ _) as [[role cb]|] eqn:Ha; [|done].
    destruct (isAdminOnlyPath (req_path r) && _) eqn:H1; [done|].
    destruct (isMutating (req_method r) && _ && _) eqn:H2; [done|]. intros [= <- <-]. simpl.
    split; [by apply role_checked_intro|]. left.
    apply authenticateAPIToken_Some in Ha as (raw & prefix & toks & t & ?).
    exists raw, prefix, toks, t. simpl. naive_solver.
  - destruct (session_UserID s) as [uid|] eqn:Hu; [|done].
    destruct (gs_GetUser gs uid) as [user|[]] eqn:Hg; try done.
    case_bool_decide as Hd; [done|].
    destruct (isAdminOnlyPath (req_path r) && _) eqn:H1; [done|].
    destruct (isMutating (req_method r) && negb (session_ValidCSRF _ _)) eqn:H3; [done|].
    destruct (isMutating (req_method r) && _ && _) eqn:H2; [done|].
    destruct (session_CSRFToken fresh s) as [csrf s1]. intros Hs.
    assert (Principal_User p = user) as Hp.
    { repeat case_match; by simplify_eq. }
    rewrite Hp. split; [by apply role_checked_intro|]. right. exists uid.
    rewrite Hp. split_and!; try done; [by apply eq_None_not_Some|].
    intros Hm. rewrite Hm in H3. apply negb_false_iff in H3. by apply ValidCSRF_true.
Qed.

(** The tenant scope of a non-admin session is exactly the set of
    customers granted to the user; only an unmanaged user without any
    grant acts fleet-wide. *)
Theorem Guard_scope gs now fresh s r p s' :
  looksLikeAPIToken (req_authorization r) = false ->
  Guard gs now fresh s r = (Served p, s') ->
  User_Role (Principal_User p) <> RoleAdmin ->
  exists grants, gs_ListUserCustomerIDs gs (User_ID (Principal_User p)) = Ok grants /\
    forall id, requireCustomerAccess (Some p) (Some id) = None <->
      id ∈ grants \/ (grants = [] /\ User_ScimManaged (Principal_User p) = false).
Proof using Type.
  unfold Guard. intros ->. case_bool_decide; [done|].
  destruct (session_UserID s) as [uid|]; [|done].
  destruct (gs_GetUser gs uid) as [user|[]] eqn:Hg; try done.
  case_bool_decide as Hd; [done|].
  destruct (isAdminOnlyPath (req_path r) && _); [done|].
  destruct (isMutating (req_method r) && negb (session_ValidCSRF _ _)); [done|].
  destruct (isMutating (req_method r) && _ && _); [done|].
  destruct (session_CSRFToken fresh s) as [csrf s1].
  destruct (AtLeast (User_Role user) RoleAdmin) eqn:Hadm.
  { intros [= <- <-] Hr. simpl in Hr. by apply AtLeast_admin in Hadm. }
  destruct (gs_ListUserCustomerIDs gs (User_ID user)) as [grants|] eqn:Hgr; [|done].
  destruct ((length grants =? 0)%nat && negb (User_ScimManaged user)) eqn:Hun;
    intros [= <- <-] Hr; simpl in *; exists grants; (split; [done|]); intros id;
    unfold requireCustomerAccess, CanAccessCustomer; simpl.
  - apply andb_prop in Hun as [Hl Hs]. apply Nat.eqb_eq, length_zero_iff_nil in Hl as ->.
    apply negb_true_iff in Hs. naive_solver.
  - case_bool_decide as Hin; rewrite elem_of_list_to_set in Hin; [naive_solver|].
    split; [done|]. intros [?|[-> Hs]]; [done|]. by rewrite Hs in Hun.
Qed.
End guard.

(** *** Concrete requests *)
Definition ex_operator : User := MkUser 7%N "op@x" None RoleOperator None None None 0 false.
Definition ex_guard_store : GuardStore :=
  MkGuardStore (fun _ => Ok ex_operator) (fun _ => Ok [3%N]) (fun _ => Ok []).
Definition ex_session : Session := MkSession "7" "csrf".
Definition ex_request : Request := MkRequest "/api/v1/customers" "POST" "" "csrf".
Definition ex_principal : Principal := MkPrincipal ex_operator "csrf" false {[ 3%N ]}.

Lemma Guard_served_witness :
  role_checked ex_request RoleOperator /\
  (served_by_token (H := fun s => s) ex_guard_store 0 ex_request ex_principal
   \/ served_by_session (fun _ => Some 7%N) ex_guard_store ex_session ex_request ex_principal).
Proof.
  exact (Guard_served (H := fun s => s) (fun _ => Some 7%N) ex_guard_store 0 "new" ex_session ex_request
    ex_principal ex_session eq_refl).
Defined.

Lemma Guard_scope_witness :
  exists grants, gs_ListUserCustomerIDs ex_guard_store 7%N = Ok grants /\
    forall id, requireCustomerAccess (Some ex_principal) (Some id) = None <->
      id ∈ grants \/ (grants = [] /\ User_ScimManaged ex_operator = false).
Proof.
  refine (Guard_scope (H := fun s => s) (fun _ => Some 7%N) ex_guard_store 0 "new" ex_session ex_request
    ex_principal ex_session eq_refl eq_refl _). discriminate.
Defined.
