(* ===== verification/IngestAuth.v ===== *)
(** The control plane's ingest AuthService: API-key validation with batched
    last-used updates (internal/ingestauth/service.go). *)
From S2P Require Import Prelude GoStrings Tokens StoreTypes.

Open Scope string_scope.

Definition cacheTTLSeconds : Z := 30.

(** authv1.ValidateAPIKeyResponse; an invalid verdict is the zero message with
    [valid] false. *)
Record ValidateAPIKeyResponse : Type := MkValidateResp {
  Resp_Valid : bool;
  Resp_CustomerId : string;
  Resp_ClientId : string;
  Resp_CacheTtlSeconds : Z;
  Resp_RateLimitItemsPerSec : Z
}.

Definition invalid_response : ValidateAPIKeyResponse := MkValidateResp false "" "" 0 0.

Inductive outcome : Type :=
| outcomeOK | outcomeMalformed | outcomeInvalid | outcomeExpired
| outcomeCustomerInactive | outcomeError.

#[global] Instance outcome_eq_dec : EqDecision outcome.
Proof. solve_decision. Defined.

(** The service's mutable state: the pending last-used timestamps and the
    outcomes counted so far (the requests counter by label). *)
Record IngestState : Type := MkIngestState {
  pending : gmap N Z;
  requests : list outcome
}.

Section ingest.
Context `{Sha256}.
Context (uuid_string : N -> string).

(** [recordUsage] keeps the latest timestamp of a key. *)
Definition recordUsage (keyID : N) (ts : Z) (p : gmap N Z) : gmap N Z :=
  match p !! keyID with
  | Some prev => if after ts prev then <[keyID := ts]> p else p
  | None => <[keyID := ts]> p
  end.

Definition count_outcome (o : outcome) (st : IngestState) : IngestState :=
  MkIngestState (pending st) (requests st ++ [o]).

Definition key_matches (key : string) (k : AuthKey) : bool :=
  bool_decide (HashAPIKey key = AuthKey_KeyHash k).

(** The first key whose hash matches. *)
Definition find_match (key : string) (keys : list AuthKey) : option AuthKey :=
  head (filter (fun k => key_matches key k = true) keys).

(** [now] and [used] are the clock readings of the expiry check and of the
    usage record. *)
Definition ValidateAPIKey (activeKeysByPrefix : string -> result (list AuthKey) store_err)
    (now used : Z) (key : string) (st : IngestState)
  : result ValidateAPIKeyResponse string * IngestState :=
  match ParseKeyPrefix key with
  | None => (Ok invalid_response, count_outcome outcomeMalformed st)
  | Some prefix =>
      match activeKeysByPrefix prefix with
      | Err _ => (Err "key lookup failed", count_outcome outcomeError st)
      | Ok keys =>
          match find_match key keys with
          | None => (Ok invalid_response, count_outcome outcomeInvalid st)
          | Some k =>
              if match AuthKey_ExpiresAt k with Some e => negb (after e now) | None => false end
              then (Ok invalid_response, count_outcome outcomeExpired st)
              else if negb (bool_decide (AuthKey_CustomerStatus k = CustomerActive))
              then (Ok invalid_response, count_outcome outcomeCustomerInactive st)
              else
                (Ok (MkValidateResp true (uuid_string (AuthKey_CustomerID k)) (AuthKey_ClientID k)
                       cacheTTLSeconds (to_uint32 (AuthKey_RateLimitItemsPerSec k))),
                 count_outcome outcomeOK
                   (MkIngestState (recordUsage (AuthKey_KeyID k) used (pending st)) (requests st)))
          end
      end
  end.

(** [Flush] hands the batch to the store and starts an empty one; the batch
    written is returned, [None] when there was nothing to write.  A failed
    write is only logged: the batch is gone either way. *)
Definition Flush (st : IngestState) : option (gmap N Z) * IngestState :=
  let batch := pending st in
  let st := MkIngestState ∅ (requests st) in
  if decide (batch = ∅) then (None, st) else (Some batch, st).

(** *** The verdict as a specification of the key *)

Definition usable_key (key : string) (now : Z) (k : AuthKey) : Prop :=
  AuthKey_KeyHash k = sha256 key
  /\ (forall e, AuthKey_ExpiresAt k = Some e -> now < e)%Z
  /\ AuthKey_CustomerStatus k = CustomerActive.

Lemma find_match_Some key keys k : find_match key keys = Some k ->
  k ∈ keys /\ AuthKey_KeyHash k = sha256 key.
Proof using Type.
  unfold find_match. intros Hh. apply head_Some_elem_of in Hh.
  apply list_elem_of_filter in Hh as [Hk ?]. split; [done|].
  unfold key_matches in Hk. by apply bool_decide_eq_true in Hk.
Qed.

Lemma find_match_None key keys k : find_match key keys = None -> k ∈ keys ->
  AuthKey_KeyHash k <> sha256 key.
Proof using Type.
  unfold find_match. intros Hh Hin Hk. apply head_None in Hh.
  assert (k ∈ filter (fun k => key_matches key k = true) keys) as Hf; [|by rewrite Hh in Hf; inversion Hf].
  apply list_elem_of_filter. split; [|done]. unfold key_matches. by apply bool_decide_eq_true.
Qed.

(** Answers of a database lookup that found no hash twice: one row per hash. *)
Definition hashes_unique (keys : list AuthKey) : Prop := NoDup (AuthKey_KeyHash <$> keys).

Lemma hashes_unique_eq keys k1 k2 : hashes_unique keys -> k1 ∈ keys -> k2 ∈ keys ->
  AuthKey_KeyHash k1 = AuthKey_KeyHash k2 -> k1 = k2.
Proof using Type.
  unfold hashes_unique. induction keys as [|k keys IH]; [by inversion 2|]. simpl.
  intros [Hn Hu]%NoDup_cons [->|H1]%elem_of_cons [->|H2]%elem_of_cons Heq; auto.
  - exfalso. apply Hn. rewrite Heq. by apply list_elem_of_fmap_2.
  - exfalso. apply Hn. rewrite <- Heq. by apply list_elem_of_fmap_2.
Qed.

(** A presented ingest key is answered valid exactly when the store has a
    row with its hash that has not expired and whose customer is active;
    the answer carries that row's tenant and its use is recorded with a
    timestamp that is not older. *)
Theorem ValidateAPIKey_spec lookup now used key st prefix keys :
  ParseKeyPrefix key = Some prefix -> lookup prefix = Ok keys -> hashes_unique keys ->
  exists resp st', ValidateAPIKey lookup now used key st = (Ok resp, st') /\
    (Resp_Valid resp = true <-> exists k, k ∈ keys /\ usable_key key now k) /\
    (forall k, k ∈ keys -> usable_key key now k ->
       Resp_ClientId resp = AuthKey_ClientID k
       /\ Resp_CustomerId resp = uuid_string (AuthKey_CustomerID k)
       /\ Resp_CacheTtlSeconds resp = 30%Z
       /\ exists ts, pending st' !! AuthKey_KeyID k = Some ts /\ (used <= ts)%Z).
Proof using Type.
  intros Hp Hk Hu. unfold ValidateAPIKey. rewrite Hp, Hk.
  destruct (find_match key keys) as [k|] eqn:Hm.
  - apply find_match_Some in Hm as [Hin Hh].
    assert (forall k', k' ∈ keys -> usable_key key now k' -> k' = k) as Huniq.
    { intros k' Hin' (Hh' & _). eapply hashes_unique_eq; [done..|]. congruence. }
    destruct (match AuthKey_ExpiresAt k with Some _ => _ | None => _ end) eqn:He.
    + eexists _, _; split; [done|]. simpl. split.
      * split; [done|]. intros (k' & Hin' & Hus). pose proof (Huniq _ Hin' Hus) as ->.
        destruct Hus as (_ & Hexp & _). destruct (AuthKey_ExpiresAt k); [|done].
        specialize (Hexp _ eq_refl). unfold after in He. lia.
      * intros k' Hin' Hus. pose proof (Huniq _ Hin' Hus) as ->.
        destruct Hus as (_ & Hexp & _). destruct (AuthKey_ExpiresAt k); [|done].
        specialize (Hexp _ eq_refl). unfold after in He. lia.
    + case_bool_decide as Hs; simpl; eexists _, _; (split; [done|]); simpl.
      * assert (usable_key key now k) as Hus.
        { split_and!; try done. intros e Hee. rewrite Hee in He. unfold after in He. lia. }
        split; [split; [by exists k|done]|]. intros k' Hin' Hus'.
        pose proof (Huniq _ Hin' Hus') as ->. split_and!; try done.
        unfold recordUsage. destruct (pending st !! AuthKey_KeyID k) as [prev|] eqn:Hpr.
        -- unfold after. destruct (Z.ltb_spec prev used); [exists used|exists prev].
           ++ rewrite lookup_insert_eq. by split.
           ++ by split.
        -- exists used. rewrite lookup_insert_eq. by split.
      * split; [split; [done|]|].
        -- intros (k' & Hin' & Hus). pose proof (Huniq _ Hin' Hus) as ->. by destruct Hus as (_ & _ & ?).
        -- intros k' Hin' Hus. pose proof (Huniq _ Hin' Hus) as ->. by destruct Hus as (_ & _ & ?).
  - eexists _, _; split; [done|]. simpl. split; [split; [done|]|].
    + intros (k & Hin & Hh & _). by eapply find_match_None in Hm.
    + intros k Hin (Hh & _). by eapply find_match_None in Hm.
Qed.

(** Soundness and completeness separately, for clients of the service: an
    accepted key has a usable row; a usable row that is the only one with its
    hash is accepted with its identity. *)
Lemma ValidateAPIKey_sound lookup now used key st resp st' :
  ValidateAPIKey lookup now used key st = (Ok resp, st') -> Resp_Valid resp = true ->
  exists prefix keys k, ParseKeyPrefix key = Some prefix /\ lookup prefix = Ok keys
    /\ k ∈ keys /\ usable_key key now k /\ Resp_ClientId resp = AuthKey_ClientID k.
Proof using Type.
  unfold ValidateAPIKey. destruct (ParseKeyPrefix key) as [prefix|] eqn:Hp; [|by intros [= <- _]].
  destruct (lookup prefix) as [keys|] eqn:Hk; [|done].
  destruct (find_match key keys) as [k|] eqn:Hm; [|by intros [= <- _]].
  apply find_match_Some in Hm as [Hin Hh].
  destruct (match AuthKey_ExpiresAt k with Some _ => _ | None => _ end) eqn:He; [by intros [= <- _]|].
  case_bool_decide as Hs; simpl; intros [= <- _]; [|done]. intros _.
  exists prefix, keys, k. split_and!; try done. split_and!; try done. intros e Hee.
  rewrite Hee in He. unfold after in He. lia.
Qed.

Lemma ValidateAPIKey_complete lookup now used key st prefix keys k :
  ParseKeyPrefix key = Some prefix -> lookup prefix = Ok keys -> k ∈ keys -> usable_key key now k ->
  (forall k', k' ∈ keys -> AuthKey_KeyHash k' = sha256 key -> k' = k) ->
  exists resp st', ValidateAPIKey lookup now used key st = (Ok resp, st') /\ Resp_Valid resp = true
    /\ Resp_ClientId resp = AuthKey_ClientID k /\ Resp_CustomerId resp = uuid_string (AuthKey_CustomerID k).
Proof using Type.
  intros Hp Hk Hin (Hh & Hexp & Hs) Hu. unfold ValidateAPIKey. rewrite Hp, Hk.
  destruct (find_match key keys) as [k'|] eqn:Hm; [|by eapply find_match_None in Hm].
  apply find_match_Some in Hm as [Hin' Hh']. pose proof (Hu k' Hin' Hh') as ->.
  destruct (match AuthKey_ExpiresAt k with Some _ => _ | None => _ end) eqn:He.
  { destruct (AuthKey_ExpiresAt k) as [e|]; [|done]. specialize (Hexp e eq_refl). unfold after in He. lia. }
  rewrite bool_decide_true by done. by eexists _, _.
Qed.

(** A batched timestamp never moves backwards, for any key, whatever is
    validated: the write-behind buffer keeps the latest use. *)
Lemma recordUsage_monotone keyID ts p id t :
  p !! id = Some t -> exists t', recordUsage keyID ts p !! id = Some t' /\ (t <= t')%Z.
Proof using Type.
  intros Hp. unfold recordUsage, after. destruct (decide (keyID = id)) as [->|Hne].
  - rewrite Hp. destruct (Z.ltb_spec t ts).
    + exists ts. rewrite lookup_insert_eq. split; [done|lia].
    + exists t. split; [done|lia].
  - exists t. split; [|lia].
    destruct (p !! keyID) as [prev|]; [destruct (Z.ltb _ _)|]; by rewrite ?lookup_insert_ne.
Qed.
End ingest.

(** *** A concrete lookup *)
Definition ex_key : string := "otm_0a1b2c3d_secret".
Definition ex_authkey : AuthKey :=
  MkAuthKey 1%N 2%N "acme" ex_key CustomerActive (Some 10%Z) 7.

Lemma ValidateAPIKey_spec_witness :
  exists resp st', ValidateAPIKey (H := fun s => s) (fun _ => "c") (fun _ => Ok [ex_authkey]) 5 6 ex_key
      (MkIngestState ∅ []) = (Ok resp, st') /\
    (Resp_Valid resp = true <-> exists k, k ∈ [ex_authkey] /\ usable_key (H := fun s => s) ex_key 5 k).
Proof.
  destruct (ValidateAPIKey_spec (H := fun s => s) (fun _ => "c") (fun _ => Ok [ex_authkey]) 5 6 ex_key
    (MkIngestState ∅ []) "otm_0a1b2c3d" [ex_authkey]) as (resp & st' & Hr & Hv & _).
  - vm_compute. reflexivity.
  - reflexivity.
  - apply NoDup_singleton.
  - exists resp, st'. split; [exact Hr|exact Hv].
Defined.
