(* ===== verification/TenantAuth.v ===== *)
(** The gateway's API-key authenticator extension
    (collector/extension/tenantauth): the LRU validation cache, key extraction
    from request headers, and Authenticate with its fail-open window. *)
From S2P Require Import Prelude GoStrings Tokens IngestAuth.
From Stdlib Require Import Ascii.

Open Scope string_scope.

(** ** authdata.go *)

Record authData : Type := MkAuthData {
  tenantID : string;
  clientID : string;
  customerID : string;
  rateLimitItemsPerSec : Z
}.

(** The dynamic values of a [client.AuthData]'s attributes, by their Go type;
    [ANil] stands for nil and every type the readers do not look at. *)
Inductive attr_val : Type :=
| AStr (s : string)
| AInt64 (z : Z)
| AInt (z : Z)
| AInt32 (z : Z)
| AUint32 (z : Z)
| AUint64 (z : Z)
| ANil.

(** [client.Info.Auth]: what a context carries, nil included. *)
Abbreviation AuthData := (string -> attr_val) (only parsing).

(** The two-valued assertion [v.(string)]: the empty string on failure. *)
Definition any_string (v : attr_val) : string := match v with AStr s => s | _ => "" end.

Definition AttrTenantID : string := "tenant.id".
Definition AttrClientID : string := "client.id".
Definition AttrCustomerID : string := "customer.id".
Definition AttrRateLimitItemsPerSec : string := "rate_limit_items_per_sec".

Definition GetAttribute (a : authData) (name : string) : attr_val :=
  if decide (name = AttrTenantID) then AStr (tenantID a)
  else if decide (name = AttrClientID) then AStr (clientID a)
  else if decide (name = AttrCustomerID) then AStr (customerID a)
  else if decide (name = AttrRateLimitItemsPerSec) then AInt64 (rateLimitItemsPerSec a)
  else ANil.

Definition GetAttributeNames : list string :=
  [AttrTenantID; AttrClientID; AttrCustomerID; AttrRateLimitItemsPerSec].

(** ** cache.go *)

(** [valid] says whether [data] is set: an invalid entry has none. *)
Record cacheEntry : Type := MkCacheEntry {
  entry_data : option authData;
  freshUntil : Z;
  staleUntil : Z
}.
Definition entry_valid (e : cacheEntry) : bool := bool_decide (is_Some (entry_data e)).

(** [ll] lists the items, most recently used first; [items] is the key set of
    the index map. *)
Record keyCache : Type := MkKeyCache {
  maxEntries : Z;
  ll : list (string * cacheEntry);
  items : gset string
}.

Definition newKeyCache (max : Z) : keyCache := MkKeyCache max [] ∅.

Fixpoint list_lookup_key (l : list (string * cacheEntry)) (k : string) : option cacheEntry :=
  match l with
  | [] => None
  | (k', e) :: l => if decide (k' = k) then Some e else list_lookup_key l k
  end.

(** Unlinking the element of a key. *)
Fixpoint list_remove_key (k : string) (l : list (string * cacheEntry)) : list (string * cacheEntry) :=
  match l with
  | [] => []
  | (k', e) :: l => if decide (k' = k) then l else (k', e) :: list_remove_key k l
  end.

Definition cache_get (hash : string) (c : keyCache) : option cacheEntry * keyCache :=
  if decide (hash ∈ items c) then
    match list_lookup_key (ll c) hash with
    | Some e => (Some e, MkKeyCache (maxEntries c) ((hash, e) :: list_remove_key hash (ll c)) (items c))
    | None => (None, c)
    end
  else (None, c).

(** The eviction loop: drop from the back while over capacity. *)
Fixpoint evict (fuel : nat) (c : keyCache) : keyCache :=
  match fuel with
  | O => c
  | S fuel =>
      if (maxEntries c <? Z.of_nat (size (items c)))%Z then
        match last (ll c) with
        | None => c
        | Some (k, _) =>
            evict fuel (MkKeyCache (maxEntries c) (take (pred (length (ll c))) (ll c)) (items c ∖ {[k]}))
        end
      else c
  end.

Definition cache_put (hash : string) (e : cacheEntry) (c : keyCache) : keyCache :=
  if decide (hash ∈ items c) then
    MkKeyCache (maxEntries c) ((hash, e) :: list_remove_key hash (ll c)) (items c)
  else
    let c := MkKeyCache (maxEntries c) ((hash, e) :: ll c) ({[hash]} ∪ items c) in
    evict (S (length (ll c))) c.

Definition cache_len (c : keyCache) : nat := size (items c).

(** *** Representation invariant *)

Definition cache_wf (c : keyCache) : Prop :=
  NoDup (ll c).*1 /\ items c = list_to_set (ll c).*1 /\ (Z.of_nat (length (ll c)) <= Z.max 0 (maxEntries c))%Z.

Definition cache_index (c : keyCache) : Prop := NoDup (ll c).*1 /\ items c = list_to_set (ll c).*1.

Lemma cache_index_size c : cache_index c -> size (items c) = length (ll c).
Proof. intros [Hnd ->]. rewrite size_list_to_set by done. by rewrite length_fmap. Qed.

Lemma list_lookup_key_elem l k e : list_lookup_key l k = Some e -> (k, e) ∈ l.
Proof.
  induction l as [|[k' e'] l IH]; simpl; [done|]. case_decide; [intros [= ->]; subst; left|].
  intros ?. right. auto.
Qed.

Lemma list_lookup_key_is_Some l k : is_Some (list_lookup_key l k) <-> k ∈ l.*1.
Proof.
  induction l as [|[k' e'] l IH]; simpl.
  - split; [by intros []|by intros ?%elem_of_nil].
  - rewrite elem_of_cons. case_decide; [naive_solver|]. rewrite IH. naive_solver.
Qed.

(** Unlinking and pushing to the front is a permutation of the list. *)
Lemma list_remove_key_perm l k e : list_lookup_key l k = Some e -> l ≡ₚ (k, e) :: list_remove_key k l.
Proof.
  induction l as [|[k' e'] l IH]; simpl; [done|]. case_decide as Hk.
  - intros [= ->]. by subst.
  - intros H%IH. rewrite H at 1. apply Permutation_swap.
Qed.

Lemma list_remove_key_fst l k e e' : list_lookup_key l k = Some e ->
  ((k, e') :: list_remove_key k l).*1 ≡ₚ l.*1.
Proof. intros H%list_remove_key_perm. symmetry. exact (fmap_Permutation fst _ _ H). Qed.

Lemma cache_index_lookup c k : cache_index c -> k ∈ items c <-> is_Some (list_lookup_key (ll c) k).
Proof. intros [_ ->]. by rewrite elem_of_list_to_set, list_lookup_key_is_Some. Qed.

(** Moving an item to the front, with the same or a new entry. *)
Lemma cache_index_front c k e e' : cache_index c -> list_lookup_key (ll c) k = Some e ->
  cache_index (MkKeyCache (maxEntries c) ((k, e') :: list_remove_key k (ll c)) (items c)).
Proof.
  intros [Hnd Hi] Hl. pose proof (list_remove_key_fst _ _ _ e' Hl) as Hp. split; cbn [ll items].
  - by rewrite Hp.
  - rewrite Hi. apply set_eq. intros x. by rewrite !elem_of_list_to_set, Hp.
Qed.

Lemma cache_index_push c k e : cache_index c -> k ∉ items c ->
  cache_index (MkKeyCache (maxEntries c) ((k, e) :: ll c) ({[k]} ∪ items c)).
Proof.
  intros [Hnd Hi] Hk. split; simpl; [|by rewrite Hi].
  apply NoDup_cons. split; [|done]. by rewrite Hi, elem_of_list_to_set in Hk.
Qed.

(** Eviction keeps the index consistent, drops a suffix of the recency order
    and ends at or below capacity. *)
Lemma evict_spec fuel c : cache_index c -> (length (ll c) <= fuel)%nat ->
  let c' := evict fuel c in
  cache_index c' /\ maxEntries c' = maxEntries c
  /\ (Z.of_nat (length (ll c')) <= Z.max 0 (maxEntries c))%Z
  /\ exists n, ll c' = take n (ll c) /\ (length (ll c) <= n \/ Z.of_nat n = Z.max 0 (maxEntries c))%nat.
Proof.
  revert c. induction fuel as [|fuel IH]; intros c Hc Hf; simpl.
  { split_and!; try done; [lia|]. exists 0%nat. destruct (ll c); simpl in *; [|lia]. split; [done|lia]. }
  rewrite (cache_index_size c Hc). destruct (Z.ltb_spec (maxEntries c) (Z.of_nat (length (ll c)))) as [Hgt|Hle].
  - destruct (last (ll c)) as [[k e]|] eqn:Hl.
    + apply last_Some in Hl as [l' Hl]. destruct Hc as [Hnd Hi]. rewrite Hl in Hnd, Hi, Hf, Hgt |- *.
      rewrite fmap_app in Hnd. simpl in Hnd. rewrite fmap_app in Hi. simpl in Hi.
      rewrite length_app in Hf, Hgt |- *. simpl in Hf, Hgt |- *.
      replace (pred (length l' + 1)) with (length l') by lia. rewrite take_app_length.
      apply NoDup_app in Hnd as (Hnd & Hn & _).
      set (c1 := MkKeyCache (maxEntries c) l' (items c ∖ {[k]})).
      assert (cache_index c1) as Hc1.
      { split; [done|]. simpl. rewrite Hi. apply set_eq. intros x.
        rewrite elem_of_difference, !elem_of_list_to_set, elem_of_app, elem_of_singleton.
        rewrite list_elem_of_singleton. split; [tauto|]. intros Hx. split; [by left|].
        intros ->. eapply Hn; [done|]. by apply list_elem_of_singleton. }
      destruct (IH c1 Hc1) as (H1 & H2 & H3 & n & Hn1 & Hn2); [simpl; lia|].
      split_and!; try done. exists (length l' `min` n)%nat. simpl in Hn1. split.
      * rewrite Hn1. rewrite <- (take_app_length l' [(k, e)]) at 1. by rewrite take_take, Nat.min_comm.
      * simpl in Hn2, H2. destruct Hn2; [|right; lia]. right.
        assert (ll (evict fuel c1) = l') as Hll by (rewrite Hn1; by apply take_ge).
        rewrite Hll in H3. simpl in H3. lia.
    + apply last_None in Hl. rewrite Hl in Hgt |- *. simpl in *. split_and!; try done; [lia|].
      exists 0%nat. split; [done|lia].
  - split_and!; try done; [lia|]. exists (length (ll c)). by rewrite firstn_all; split; [|left].
Qed.

(** *** Cache operations against the recency list *)

Lemma cache_get_spec c k : cache_wf c ->
  (cache_get k c).1 = list_lookup_key (ll c) k /\ cache_wf (cache_get k c).2
  /\ maxEntries (cache_get k c).2 = maxEntries c
  /\ forall k', list_lookup_key (ll (cache_get k c).2) k' = list_lookup_key (ll c) k'.
Proof.
  intros (Hnd & Hi & Hlen). assert (cache_index c) as Hc by done. unfold cache_get.
  destruct (decide (k ∈ items c)) as [Hk|Hk]; rewrite (cache_index_lookup c k Hc) in Hk.
  - destruct (list_lookup_key (ll c) k) as [e|] eqn:Hl; [|by destruct Hk]. simpl.
    pose proof (cache_index_front c k e e Hc Hl) as Hf.
    split_and!; [done| |done|].
    + split; [apply Hf|]. split; [apply Hf|]. simpl.
      by rewrite (Permutation_length (list_remove_key_perm _ _ _ Hl)) in Hlen.
    + intros k'. case_decide; [by subst|]. clear -H.
      induction (ll c) as [|[k1 e1] l IH]; simpl; [done|].
      case_decide; [by rewrite decide_False by congruence|]. simpl. by case_decide.
  - destruct (list_lookup_key (ll c) k) as [e|] eqn:Hl; [by destruct Hk|]. by split_and!.
Qed.

Lemma list_lookup_key_take l n k e : NoDup l.*1 ->
  list_lookup_key (take n l) k = Some e -> list_lookup_key l k = Some e.
Proof.
  revert n. induction l as [|[k' e'] l IH]; intros [|n]; simpl; try done.
  intros [_ ?]%NoDup_cons. case_decide; [done|]. by apply IH.
Qed.

(** [put] makes the entry the most recent one and evicts only from the least
    recently used end, never beyond the capacity. *)
Lemma cache_put_spec c k e : cache_wf c ->
  let c' := cache_put k e c in
  cache_wf c' /\ maxEntries c' = maxEntries c
  /\ ((0 < maxEntries c)%Z -> list_lookup_key (ll c') k = Some e)
  /\ (forall k' e', k' <> k -> list_lookup_key (ll c') k' = Some e' -> list_lookup_key (ll c) k' = Some e')
  /\ (forall e', list_lookup_key (ll c') k = Some e' -> e' = e)
  /\ (k ∈ items c \/ (Z.of_nat (length (ll c)) < maxEntries c)%Z ->
      forall k', k' <> k -> list_lookup_key (ll c') k' = list_lookup_key (ll c) k').
Proof.
  intros (Hnd & Hi & Hlen). assert (cache_index c) as Hc by done. unfold cache_put.
  destruct (decide (k ∈ items c)) as [Hk|Hk].
  - pose proof Hk as Hk'. rewrite (cache_index_lookup c k Hc) in Hk'. destruct Hk' as [e0 Hl].
    pose proof (cache_index_front c k e0 e Hc Hl) as Hf. cbn zeta. cbn [ll maxEntries].
    assert (forall k', k' <> k -> list_lookup_key ((k, e) :: list_remove_key k (ll c)) k'
              = list_lookup_key (ll c) k') as Hother.
    { intros k' Hne. simpl. rewrite decide_False by done. clear -Hne.
      induction (ll c) as [|[k1 e1] l IH]; simpl; [done|].
      case_decide; [by rewrite decide_False by congruence|]. simpl. by case_decide. }
    split_and!; try done.
    + split; [apply Hf|]. split; [apply Hf|]. simpl.
      by rewrite (Permutation_length (list_remove_key_perm _ _ _ Hl)) in Hlen.
    + intros _. simpl. by rewrite decide_True.
    + intros k' e' Hne. by rewrite Hother.
    + intros e'. simpl. rewrite decide_True by done. by intros [= ->].
  - pose proof (cache_index_push c k e Hc Hk) as Hpu. cbn zeta.
    set (c1 := MkKeyCache (maxEntries c) ((k, e) :: ll c) ({[k]} ∪ items c)) in *.
    destruct (evict_spec (S (length (ll c1))) c1 Hpu) as (Hci & Hm & Hl & n & Hn & Hor); [lia|].
    set (c' := evict (S (length (ll c1))) c1) in *. clearbody c'.
    destruct Hpu as [Hnd1 _]. change (maxEntries c1) with (maxEntries c) in *.
    change (ll c1) with ((k, e) :: ll c) in *. simpl in Hor.
    split_and!.
    + split; [apply Hci|]. split; [apply Hci|]. rewrite Hm. exact Hl.
    + done.
    + intros Hpos. rewrite Hn. simpl. destruct n; [lia|]. simpl. by rewrite decide_True.
    + intros k' e' Hne. rewrite Hn. intros He%list_lookup_key_take; [|done].
      simpl in He. by rewrite decide_False in He.
    + intros e'. rewrite Hn. intros He%list_lookup_key_take; [|done].
      simpl in He. rewrite decide_True in He by done. by injection He.
    + intros [?|Hroom] k' Hne; [done|]. rewrite Hn, take_ge.
      * simpl. by rewrite decide_False.
      * simpl. lia.
Qed.

(** The LRU cache of validation results keeps its index and its recency list
    consistent, without duplicates and within its capacity, under every
    operation. *)
Theorem cache_invariant max :
  cache_wf (newKeyCache max) /\
  (forall c k, cache_wf c -> cache_wf (cache_get k c).2) /\
  (forall c k e, cache_wf c -> cache_wf (cache_put k e c)) /\
  (forall c, cache_wf c -> (Z.of_nat (cache_len c) <= Z.max 0 (maxEntries c))%Z).
Proof.
  split_and!.
  - split; [constructor|]. split; [done|]. simpl. lia.
  - intros c k Hc. by apply cache_get_spec.
  - intros c k e Hc. by apply cache_put_spec.
  - intros c (Hnd & Hi & Hl). unfold cache_len. by rewrite cache_index_size.
Qed.

(** ** config.go *)

Record CacheConfig : Type := MkCacheConfig {
  TTL : Z;
  NegativeTTL : Z;
  MaxEntries : Z;
  StaleIfError : Z
}.

(** The defaults of factory.go. *)
Definition default_cache_config : CacheConfig :=
  MkCacheConfig (30 * second) (5 * second) 50000 (15 * minute).

(** The errors [Validate] joins. *)
Definition Config_Validate (endpoint : string) (c : CacheConfig) : list string :=
  (if decide (endpoint = "") then ["endpoint must be set to the control-plane AuthService gRPC address"] else [])
  ++ (if (TTL c <=? 0)%Z then ["cache.ttl must be positive"] else [])
  ++ (if (NegativeTTL c <=? 0)%Z then ["cache.negative_ttl must be positive"] else [])
  ++ (if (MaxEntries c <=? 0)%Z then ["cache.max_entries must be positive"] else [])
  ++ (if (StaleIfError c <? 0)%Z then ["cache.stale_if_error must not be negative"] else []).

(** ** extension.go: key extraction *)

Section extract.
Context (unicode_lower : Z -> Z).

(** One value of an authorization header. *)
Definition bearer_value (v : string) : option string :=
  match cut " " (trim_space v) with
  | Some (scheme, rest) =>
      if decide (to_lower scheme = "bearer") then
        let k := trim_space rest in if decide (k = "") then None else Some k
      else None
  | None => None
  end.

Definition api_key_value (v : string) : option string :=
  let k := trim_space v in if decide (k = "") then None else Some k.

(** The first usable value is kept: [acc] is empty until one is found. *)
Definition first_value (f : string -> option string) (acc : string) (values : list string) : string :=
  foldl (fun acc v => match f v with Some k => if decide (acc = "") then k else acc | None => acc end)
    acc values.

(** The headers in the order the map iteration visits them. *)
Definition extractKey (sources : list (string * list string)) : string :=
  let '(bearer, apiKey) :=
    foldl (fun '(bearer, apiKey) '(name, values) =>
             let name := strings_ToLower unicode_lower name in
             if decide (name = "authorization") then (first_value bearer_value bearer values, apiKey)
             else if decide (name = "x-api-key") then (bearer, first_value api_key_value apiKey values)
             else (bearer, apiKey))
      ("", "") sources in
  if decide (bearer = "") then apiKey else bearer.
End extract.

(** ** extension.go: Authenticate *)

Inductive auth_outcome : Type :=
| outcome_ok | outcome_invalid_key | outcome_no_key
| outcome_upstream_error_stale | outcome_upstream_error_reject.

Inductive auth_error : Type :=
| errNoKey
| errInvalidKey
| errUnavailable (cause : string).

(** What one call decides: the identity attached to the context or the error,
    the counted outcome with its tenant label, the RPC made, if any. *)
Record auth_result : Type := MkAuthResult {
  res_verdict : result authData auth_error;
  res_outcome : auth_outcome;
  res_tenant : string;
  res_rpc : option (result ValidateAPIKeyResponse string)
}.

Section authenticate.
Context `{Sha256}.

Definition key_hash (key : string) : string := hex_encode (sha256 key).

(** The effective positive TTL: the smaller of the configured one and the
    server's, when the server sends one. *)
Definition effective_ttl (cfg : CacheConfig) (resp : ValidateAPIKeyResponse) : Z :=
  let s := Resp_CacheTtlSeconds resp in
  if (0 <? s)%Z then
    let serverTTL := (s * second)%Z in
    if (serverTTL <? TTL cfg)%Z then serverTTL else TTL cfg
  else TTL cfg.

Definition data_of_response (resp : ValidateAPIKeyResponse) : authData :=
  MkAuthData (Resp_ClientId resp) (Resp_ClientId resp) (Resp_CustomerId resp)
    (Resp_RateLimitItemsPerSec resp).

(** The part of Authenticate after an unanswered cache lookup. *)
Definition authenticate_upstream (cfg : CacheConfig) (now : Z) (hash : string)
    (rpc : result ValidateAPIKeyResponse string) (c : keyCache) : auth_result * keyCache :=
  match rpc with
  | Err cause =>
      let '(e, c) := cache_get hash c in
      match e with
      | Some (MkCacheEntry (Some d) _ stale) =>
          if before now stale
          then (MkAuthResult (Ok d) outcome_upstream_error_stale (tenantID d) (Some rpc), c)
          else (MkAuthResult (Err (errUnavailable cause)) outcome_upstream_error_reject "" (Some rpc), c)
      | _ => (MkAuthResult (Err (errUnavailable cause)) outcome_upstream_error_reject "" (Some rpc), c)
      end
  | Ok resp =>
      if negb (Resp_Valid resp) then
        (MkAuthResult (Err errInvalidKey) outcome_invalid_key "" (Some rpc),
         cache_put hash (MkCacheEntry None (now + NegativeTTL cfg) time_zero) c)
      else
        let ttl := effective_ttl cfg resp in
        let d := data_of_response resp in
        (MkAuthResult (Ok d) outcome_ok (tenantID d) (Some rpc),
         cache_put hash (MkCacheEntry (Some d) (now + ttl) (now + StaleIfError cfg)) c)
  end.

Definition Authenticate (unicode_lower : Z -> Z) (cfg : CacheConfig)
    (validate : string -> result ValidateAPIKeyResponse string) (now : Z)
    (sources : list (string * list string)) (c : keyCache) : auth_result * keyCache :=
  let key := extractKey unicode_lower sources in
  if decide (key = "") then (MkAuthResult (Err errNoKey) outcome_no_key "" None, c)
  else
    let hash := key_hash key in
    let '(e, c) := cache_get hash c in
    match e with
    | Some e =>
        if before now (freshUntil e) then
          match entry_data e with
          | None => (MkAuthResult (Err errInvalidKey) outcome_invalid_key "" None, c)
          | Some d => (MkAuthResult (Ok d) outcome_ok (tenantID d) None, c)
          end
        else authenticate_upstream cfg now hash (validate key) c
    | None => authenticate_upstream cfg now hash (validate key) c
    end.

(** ** The gateway over time

    A gateway's history: the cache with the log of verdicts the control plane
    has given it, newest first — when, for which key hash, and the identity
    granted ([None]: rejected). *)
Record gateway : Type := MkGateway {
  gw_cache : keyCache;
  gw_log : list (Z * string * option authData)
}.

Definition verdict_of (resp : ValidateAPIKeyResponse) : option authData :=
  if Resp_Valid resp then Some (data_of_response resp) else None.

Fixpoint latest (log : list (Z * string * option authData)) (h : string)
  : option (Z * option authData) :=
  match log with
  | [] => None
  | (t, h', v) :: log => if decide (h' = h) then Some (t, v) else latest log h
  end.

(** Logging the verdict of a call, when one was obtained. *)
Definition log_rpc (now : Z) (h : string) (rpc : option (result ValidateAPIKeyResponse string))
    (log : list (Z * string * option authData)) :=
  match rpc with
  | Some (Ok resp) => (now, h, verdict_of resp) :: log
  | _ => log
  end.

Inductive gw_step (unicode_lower : Z -> Z) (cfg : CacheConfig) : gateway -> gateway -> Prop :=
| gw_call validate now sources c log r c' :
    Authenticate unicode_lower cfg validate now sources c = (r, c') ->
    gw_step unicode_lower cfg (MkGateway c log)
      (MkGateway c' (log_rpc now (key_hash (extractKey unicode_lower sources)) (res_rpc r) log)).

Definition gw_init (cfg : CacheConfig) : gateway := MkGateway (newKeyCache (MaxEntries cfg)) [].

(** Every cached entry is the control plane's latest verdict on its key, and
    its lifetimes count from that verdict. *)
Definition entry_backed (cfg : CacheConfig) (log : list (Z * string * option authData))
    (h : string) (e : cacheEntry) : Prop :=
  exists v, latest log h = Some (v, entry_data e)
    /\ (freshUntil e <= v + (if entry_valid e then TTL cfg else NegativeTTL cfg))%Z
    /\ (entry_valid e = true -> staleUntil e = v + StaleIfError cfg)%Z.

Definition gw_inv (cfg : CacheConfig) (g : gateway) : Prop :=
  cache_wf (gw_cache g) /\
  forall h e, list_lookup_key (ll (gw_cache g)) h = Some e -> entry_backed cfg (gw_log g) h e.

Lemma effective_ttl_le cfg resp : (effective_ttl cfg resp <= TTL cfg)%Z.
Proof using Type.
  unfold effective_ttl. destruct (0 <? _)%Z; [|lia]. destruct (Z.ltb_spec (Resp_CacheTtlSeconds resp * second) (TTL cfg)); lia.
Qed.

(** Storing the verdict just received keeps the invariant. *)
Lemma gw_inv_put cfg c log now h e :
  gw_inv cfg (MkGateway c log) ->
  (freshUntil e <= now + (if entry_valid e then TTL cfg else NegativeTTL cfg))%Z ->
  (entry_valid e = true -> staleUntil e = now + StaleIfError cfg)%Z ->
  gw_inv cfg (MkGateway (cache_put h e c) ((now, h, entry_data e) :: log)).
Proof using Type.
  intros [Hwf Hinv] Hf Hs. destruct (cache_put_spec c h e Hwf) as (Hwf' & _ & _ & Hoth & Heq & _).
  split; [done|]. intros h' e' Hl. simpl in *. unfold entry_backed. simpl.
  destruct (decide (h = h')) as [->|Hne].
  - apply Heq in Hl as ->. by exists now.
  - apply Hoth in Hl; [|done]. by apply Hinv.
Qed.

Lemma gw_inv_get cfg c log k : gw_inv cfg (MkGateway c log) ->
  gw_inv cfg (MkGateway (cache_get k c).2 log).
Proof using Type.
  intros [Hwf Hinv]. destruct (cache_get_spec c k Hwf) as (_ & Hwf' & _ & Hl).
  split; [done|]. intros h e. simpl. rewrite Hl. apply Hinv.
Qed.

Lemma authenticate_upstream_inv cfg now h rpc c log r c' :
  gw_inv cfg (MkGateway c log) -> authenticate_upstream cfg now h rpc c = (r, c') ->
  gw_inv cfg (MkGateway c' (log_rpc now h (res_rpc r) log)) /\ res_rpc r = Some rpc.
Proof using Type.
  intros Hinv. unfold authenticate_upstream. destruct rpc as [resp|cause].
  - destruct (Resp_Valid resp) eqn:Hv; simpl; intros [= <- <-]; simpl; unfold verdict_of; rewrite Hv;
      (split; [|done]); refine (gw_inv_put _ _ _ _ _ (MkCacheEntry _ _ _) Hinv _ _); simpl.
    + pose proof (effective_ttl_le cfg resp). lia.
    + done.
    + lia.
    + done.
  - pose proof (gw_inv_get cfg c log h Hinv) as Hg. destruct (cache_get h c) as [e c1]. simpl in Hg.
    destruct e as [[[d|] f s]|]; [destruct (before now s)|..]; intros [= <- <-]; by split.
Qed.

Lemma gw_step_inv ul cfg g g' : gw_step ul cfg g g' -> gw_inv cfg g -> gw_inv cfg g'.
Proof using Type.
  destruct 1 as [validate now sources c log r c' Ha]. intros Hinv. unfold Authenticate in Ha.
  destruct (decide _) as [|Hk]; [by injection Ha as <- <-|].
  pose proof (gw_inv_get cfg c log (key_hash (extractKey ul sources)) Hinv) as Hg.
  destruct (cache_get _ c) as [[e|] c1]; simpl in Hg.
  - destruct (before now (freshUntil e)).
    + destruct (entry_data e); by injection Ha as <- <-.
    + by eapply authenticate_upstream_inv in Ha as [? _].
  - by eapply authenticate_upstream_inv in Ha as [? _].
Qed.

Lemma gw_reachable_inv ul cfg g : rtc (gw_step ul cfg) (gw_init cfg) g -> gw_inv cfg g.
Proof using Type.
  intros Hr. remember (gw_init cfg) as g0 eqn:H0.
  assert (gw_inv cfg g0) as H1.
  { subst. split; [apply cache_invariant|done]. }
  clear H0. induction Hr; eauto using gw_step_inv.
Qed.

(** What an answer of [authenticate_upstream] means, branch by branch. *)
Lemma authenticate_upstream_ok cfg now h rpc c r c' d :
  authenticate_upstream cfg now h rpc c = (r, c') -> res_verdict r = Ok d ->
  (exists resp, rpc = Ok resp /\ Resp_Valid resp = true /\ d = data_of_response resp) \/
  (exists cause f s, rpc = Err cause /\ (cache_get h c).1 = Some (MkCacheEntry (Some d) f s)
     /\ (now < s)%Z).
Proof using Type.
  unfold authenticate_upstream. destruct rpc as [resp|cause].
  - destruct (Resp_Valid resp) eqn:Hv; intros [= <- <-]; simpl; [|done]. intros [= <-]. left. eauto.
  - destruct (cache_get h c) as [[[[d'|] f s]|] c1]; simpl; [|by intros [= <- <-]..].
    destruct (before now s) eqn:Hb; intros [= <- <-]; simpl; [|done]. intros [= <-].
    right. exists cause, f, s. split_and!; try done. by apply Z.ltb_lt.
Qed.

(** An accepted call was accepted by the latest verdict on its key. *)
Definition accepted_by_latest (cfg : CacheConfig) (g : gateway) (now : Z) (h : string)
    (r : auth_result) (d : authData) : Prop :=
  exists v, latest (log_rpc now h (res_rpc r) (gw_log g)) h = Some (v, Some d) /\
    match res_rpc r with
    | Some (Ok _) => v = now
    | Some (Err _) => (now < v + StaleIfError cfg)%Z
    | None => (now < v + TTL cfg)%Z
    end.

Lemma acceptance_upstream cfg g now h rpc c1 r c' d :
  gw_inv cfg g -> gw_inv cfg (MkGateway c1 (gw_log g)) ->
  authenticate_upstream cfg now h rpc c1 = (r, c') -> res_verdict r = Ok d ->
  accepted_by_latest cfg g now h r d /\ res_rpc r = Some rpc.
Proof using Type.
  intros Hinv [Hwf1 Hinv1] Hau Hok.
  destruct (authenticate_upstream_inv cfg now h rpc c1 (gw_log g) r c') as [_ Hrpc]; [done..|].
  split; [|done]. unfold accepted_by_latest. rewrite Hrpc.
  destruct (authenticate_upstream_ok _ _ _ _ _ _ _ _ Hau Hok)
    as [(resp & -> & Hv & ->)|(cause & f & s & -> & He & Hlt)]; simpl.
  - exists now. rewrite decide_True by done. unfold verdict_of. by rewrite Hv.
  - destruct (cache_get_spec c1 h Hwf1) as (Hg1 & _). rewrite Hg1 in He.
    destruct (Hinv1 _ _ He) as (v & Hv & _ & Hst). exists v. split; [done|]. specialize (Hst eq_refl). simpl in Hst. lia.
Qed.

Lemma acceptance_core ul cfg g validate now sources r c' d :
  gw_inv cfg g ->
  Authenticate ul cfg validate now sources (gw_cache g) = (r, c') ->
  res_verdict r = Ok d ->
  let key := extractKey ul sources in
  key <> "" /\ accepted_by_latest cfg g now (key_hash key) r d
  /\ (res_rpc r = None \/ res_rpc r = Some (validate key)).
Proof using Type.
  intros Hinv Ha Hok key. set (h := key_hash key).
  unfold Authenticate in Ha. fold key in Ha. fold h in Ha.
  destruct (decide (key = "")) as [|Hk]; [by injection Ha as <- <-|]. split; [done|].
  pose proof (gw_inv_get cfg (gw_cache g) (gw_log g) h) as Hi1.
  replace (MkGateway (gw_cache g) (gw_log g)) with g in Hi1 by (by destruct g). specialize (Hi1 Hinv).
  destruct (cache_get_spec (gw_cache g) h (proj1 Hinv)) as (Hg & _).
  destruct (cache_get h (gw_cache g)) as [e c1]. simpl in Hg, Hi1.
  destruct e as [e|]; [destruct (before now (freshUntil e)) eqn:Hb|].
  - symmetry in Hg. destruct (proj2 Hinv _ _ Hg) as (v & Hv & Hf & _). unfold entry_valid in Hf.
    destruct (entry_data e) as [d'|] eqn:Hd; injection Ha as <- <-; simpl in *; [|done].
    injection Hok as ->. split; [|by left]. exists v.
    apply Z.ltb_lt in Hb. split; [done|]. simpl. lia.
  - destruct (acceptance_upstream cfg g now h _ c1 r c' d Hinv Hi1 Ha Hok). auto.
  - destruct (acceptance_upstream cfg g now h _ c1 r c' d Hinv Hi1 Ha Hok). auto.
Qed.


(** C21: Once the control plane stops accepting a key (at t0), no gateway
    accepts it later than one TTL, provided the control plane can be
    asked, the fail-open window is over as well, or the gateway has
    already been told of the rejection. *)
Theorem revocation_takes_effect ul cfg g validate now sources r c' t0 :
  rtc (gw_step ul cfg) (gw_init cfg) g ->
  Authenticate ul cfg validate now sources (gw_cache g) = (r, c') ->
  let key := extractKey ul sources in
  (forall v d, latest (gw_log g) (key_hash key) = Some (v, Some d) -> (v <= t0)%Z) ->
  (forall resp, validate key = Ok resp -> Resp_Valid resp = false) ->
  (t0 + TTL cfg <= now)%Z ->
  is_ok (validate key) = true \/ (t0 + StaleIfError cfg <= now)%Z
    \/ (exists v, latest (gw_log g) (key_hash key) = Some (v, None)) ->
  is_ok (res_verdict r) = false.
Proof using Type.
  intros Hr Ha key Hold Hrev Ht Hwhy. pose proof (gw_reachable_inv _ _ _ Hr) as Hinv.
  destruct (res_verdict r) as [d|] eqn:Hok; [|done]. exfalso.
  destruct (acceptance_core _ _ _ _ _ _ _ _ _ Hinv Ha Hok) as (_ & (v & Hl & Hm) & Hrpc).
  fold key in Hrpc, Hl. destruct Hrpc as [Hrpc|Hrpc]; rewrite Hrpc in Hl, Hm; simpl in Hl, Hm.
  { specialize (Hold _ _ Hl). lia. }
  destruct (validate key) as [resp|e] eqn:Hval; simpl in Hl, Hm.
  - rewrite decide_True in Hl by done. unfold verdict_of in Hl. by rewrite (Hrev resp) in Hl.
  - specialize (Hold _ _ Hl). destruct Hwhy as [?|[?|[v' Hv']]]; [done|lia|congruence].
Qed.
End authenticate.

(** ** Concrete instances *)

(** Any injective function will do for the hash in an example. *)
Definition ex_sha256 : Sha256 := fun s => s.

Definition ex_sources : list (string * list string) := [("Authorization", ["Bearer k"])].
Definition ex_accept (_ : string) : result ValidateAPIKeyResponse string :=
  Ok (MkValidateResp true "c1" "acme" 0 100).
Definition ex_reject (_ : string) : result ValidateAPIKeyResponse string := Ok invalid_response.
Definition ex_down (_ : string) : result ValidateAPIKeyResponse string := Err "unavailable".

(** A gateway that has accepted one key at time 0. *)
Definition ex_call (validate : string -> result ValidateAPIKeyResponse string) (now : Z) (g : gateway)
  : auth_result * keyCache :=
  Authenticate (H := ex_sha256) (fun z => z) default_cache_config validate now ex_sources (gw_cache g).
Definition ex_next (validate : string -> result ValidateAPIKeyResponse string) (now : Z) (g : gateway)
  : gateway :=
  MkGateway (ex_call validate now g).2
    (log_rpc now (key_hash (H := ex_sha256) (extractKey (fun z => z) ex_sources))
       (res_rpc (ex_call validate now g).1) (gw_log g)).
Definition ex_gateway : gateway := ex_next ex_accept 0 (gw_init default_cache_config).

Lemma ex_gateway_reachable :
  rtc (gw_step (H := ex_sha256) (fun z => z) default_cache_config) (gw_init default_cache_config) ex_gateway.
Proof.
  apply rtc_once. apply (gw_call (H := ex_sha256) (fun z => z) _ ex_accept 0 ex_sources _ []).
  vm_compute. reflexivity.
Qed.


(** The key is revoked right after time 0: 30 seconds later it is refused. *)
Lemma revocation_takes_effect_witness :
  is_ok (res_verdict (ex_call ex_reject (30 * second) ex_gateway).1) = false.
Proof.
  refine (revocation_takes_effect (H := ex_sha256) (fun z => z) default_cache_config ex_gateway ex_reject
    (30 * second) ex_sources _ (ex_call ex_reject (30 * second) ex_gateway).2 0
    ex_gateway_reachable _ _ _ _ _).
  - vm_compute. reflexivity.
  - intros v d. vm_compute. intros [= <- _]. done.
  - intros resp [= <-]. reflexivity.
  - vm_compute. done.
  - left. reflexivity.
Defined.
