(* ===== verification/TenantStamp.v ===== *)
(** The tenantstamp processor (collector/processor/tenantstamp): every resource
    leaves with the authenticated tenant identity and nothing else under the
    identity attributes; batches without an identity are dropped. *)
From S2P Require Import Prelude GoStrings TenantAuth.

Open Scope string_scope.

(** ** The attribute map of a resource

    [pcommon.Map] belongs to the collector's pdata library: what the processor
    relies on is stated as an interface.  [pm_wf] are the maps whose keys are
    unique, the ones the library's contract speaks of. *)
Class AttrMap (M V : Type) := {
  pm_get : string -> M -> option V;
  pm_remove : string -> M -> M;
  pm_putStr : string -> string -> M -> M;
  pm_str : string -> V;
  pm_wf : M -> Prop;
  pm_wf_remove k m : pm_wf m -> pm_wf (pm_remove k m);
  pm_wf_putStr k s m : pm_wf m -> pm_wf (pm_putStr k s m);
  pm_get_remove k k' m : pm_wf m ->
    pm_get k (pm_remove k' m) = if decide (k = k') then None else pm_get k m;
  pm_get_putStr k k' s m : pm_wf m ->
    pm_get k (pm_putStr k' s m) = if decide (k = k') then Some (pm_str s) else pm_get k m
}.

(** ** processor.go *)

Definition attrTenantID : string := "tenant.id".
Definition attrClientID : string := "client.id".
Definition attrCustomerID : string := "customer.id".
Definition dropWarnInterval : Z := 10 * second.

Record identity : Type := MkIdentity {
  id_tenantID : string;
  id_clientID : string;
  id_customerID : string
}.

(** The stamper's state: the drop counter by signal and the time of the last
    warning; [warned] lists the warnings written. *)
Record stamper : Type := MkStamper {
  droppedTotal : list string;
  lastWarnNanos : Z;
  warned : list (string * string)
}.

Definition attrString (auth : AuthData) (name : string) : string := any_string (auth name).

(** The compare-and-swap succeeds when no other drop warns in between. *)
Definition drop (now : Z) (swapped : bool) (signal reason : string) (s : stamper) : stamper :=
  let last := lastWarnNanos s in
  if (dropWarnInterval <=? now - last)%Z && swapped
  then MkStamper (droppedTotal s ++ [signal])%list now (warned s ++ [(signal, reason)])%list
  else MkStamper (droppedTotal s ++ [signal])%list last (warned s).

Definition identityFromContext (auth : option AuthData) (now : Z) (swapped : bool) (signal : string)
    (s : stamper) : option identity * stamper :=
  match auth with
  | None => (None, drop now swapped signal "no auth data on context" s)
  | Some auth =>
      let id := MkIdentity (attrString auth attrTenantID) (attrString auth attrClientID)
                  (attrString auth attrCustomerID) in
      if decide (id_tenantID id = "") then (None, drop now swapped signal "auth data has no tenant.id" s)
      else (Some id, s)
  end.

Section process.
Context {M V : Type} `{!AttrMap M V}.

Definition stamp (id : identity) (attrs : M) : M :=
  let attrs := pm_remove attrTenantID attrs in
  let attrs := pm_remove attrClientID attrs in
  let attrs := pm_remove attrCustomerID attrs in
  let attrs := pm_putStr attrTenantID (id_tenantID id) attrs in
  let attrs := if decide (id_clientID id = "") then attrs
               else pm_putStr attrClientID (id_clientID id) attrs in
  if decide (id_customerID id = "") then attrs
  else pm_putStr attrCustomerID (id_customerID id) attrs.

(** A batch is its list of resources, each with its payload; [None] is
    [ErrSkipProcessingData]: the batch goes no further. *)
Context {P : Type}.

Definition process (signal : string) (auth : option AuthData) (now : Z) (swapped : bool)
    (batch : list (M * P)) (s : stamper) : option (list (M * P)) * stamper :=
  match identityFromContext auth now swapped signal s with
  | (None, s) => (None, s)
  | (Some id, s) => (Some ((fun '(res, payload) => (stamp id res, payload)) <$> batch), s)
  end.

Definition processTraces := process "traces".
Definition processLogs := process "logs".
Definition processMetrics := process "metrics".

(** *** The stamped identity *)

Definition opt_attr (s : string) : option V := if decide (s = "") then None else Some (pm_str s).

Lemma stamp_get id k attrs : pm_wf attrs ->
  pm_get k (stamp id attrs) =
    if decide (k = attrTenantID) then Some (pm_str (id_tenantID id))
    else if decide (k = attrClientID) then opt_attr (id_clientID id)
    else if decide (k = attrCustomerID) then opt_attr (id_customerID id)
    else pm_get k attrs.
Proof using Type.
  intros Hwf. unfold stamp, opt_attr.
  destruct (decide (id_clientID id = "")), (decide (id_customerID id = ""));
    rewrite ?pm_get_putStr, ?pm_get_remove by auto 10 using pm_wf_putStr, pm_wf_remove;
    repeat case_decide; subst; done.
Qed.

Lemma stamp_wf id attrs : pm_wf attrs -> pm_wf (stamp id attrs).
Proof using Type.
  intros. unfold stamp. repeat case_decide; auto 10 using pm_wf_putStr, pm_wf_remove.
Qed.

(** What a resource must look like downstream. *)
Definition stamped_with (auth : AuthData) (before after : M) : Prop :=
  pm_get attrTenantID after = Some (pm_str (attrString auth attrTenantID))
  /\ attrString auth attrTenantID <> ""
  /\ pm_get attrClientID after = opt_attr (attrString auth attrClientID)
  /\ pm_get attrCustomerID after = opt_attr (attrString auth attrCustomerID)
  /\ forall k, k ∉ [attrTenantID; attrClientID; attrCustomerID] -> pm_get k after = pm_get k before.

(** C13: A batch that passes the processor, of any signal, came with an
    authenticated tenant, and on every one of its resources the identity
    attributes are exactly the authenticated ones, whatever the client sent;
    payloads and other attributes are untouched. *)
Theorem process_stamps signal auth now swapped batch s out s' :
  (forall res p, (res, p) ∈ batch -> pm_wf res) ->
  process signal auth now swapped batch s = (Some out, s') ->
  exists a, auth = Some a /\
    Forall2 (fun '(res, p) '(res', p') => p' = p /\ stamped_with a res res') batch out.
Proof using Type.
  unfold process, identityFromContext. intros Hwf. destruct auth as [a|]; [|done].
  case_decide as Ht; [done|]. intros [= <- _]. exists a. split; [done|].
  apply Forall2_fmap_r, Forall_Forall2_diag, Forall_forall. intros [res p] Hin. split; [done|].
  apply Hwf in Hin as Hr.
  unfold stamped_with. split_and!; try done; intros; rewrite stamp_get by done.
  1-3: by rewrite ?decide_False, ?decide_True by done.
  rewrite !decide_False; [done|set_solver..].
Qed.

(** Without a tenant on the context nothing passes, and the drop is counted. *)
Theorem process_drops signal auth now swapped batch s :
  (forall a, auth = Some a -> attrString a attrTenantID = "") ->
  exists s', process signal auth now swapped batch s = (None, s')
    /\ droppedTotal s' = (droppedTotal s ++ [signal])%list.
Proof using Type.
  intros Hno. unfold process, identityFromContext, drop. destruct auth as [a|].
  - simpl. rewrite decide_True by (by apply Hno). case_match; eauto.
  - case_match; eauto.
Qed.
End process.

(** ** The authenticator and the stamp together

    What tenantauth puts on the context is what ends up on the data. *)
Lemma attrString_authData d :
  attrString (GetAttribute d) attrTenantID = tenantID d
  /\ attrString (GetAttribute d) attrClientID = clientID d
  /\ attrString (GetAttribute d) attrCustomerID = customerID d.
Proof. done. Qed.

(** Throttling: while drops come closer than the interval after a warning, no
    second warning is written. *)
Lemma drop_throttled now swapped signal reason s :
  (now < lastWarnNanos s + dropWarnInterval)%Z ->
  warned (drop now swapped signal reason s) = warned s
  /\ lastWarnNanos (drop now swapped signal reason s) = lastWarnNanos s.
Proof. intros. unfold drop. destruct (Z.leb_spec dropWarnInterval (now - lastWarnNanos s)); [lia|done]. Qed.

(** ** An instance of the attribute map: finite maps of strings *)
#[global, refine] Instance gmap_attrs : AttrMap (gmap string string) string := {
  pm_get k m := m !! k;
  pm_remove k m := delete k m;
  pm_putStr k s m := <[k := s]> m;
  pm_str s := s;
  pm_wf _ := True
}.
Proof.
  - done.
  - done.
  - intros k k' m _. case_decide; subst; [apply lookup_delete_eq|by rewrite lookup_delete_ne].
  - intros k k' s m _. case_decide; subst; [apply lookup_insert_eq|by rewrite lookup_insert_ne].
Defined.

Definition ex_stamper : stamper := MkStamper [] 0 [].
Definition ex_data : authData := MkAuthData "acme" "acme" "" 0.
Definition ex_spoofed : gmap string string :=
  <["tenant.id" := "victim"]> (<["customer.id" := "victim"]> (<["service.name" := "api"]> ∅)).

Lemma process_stamps_witness :
  exists a, Some (GetAttribute ex_data) = Some a /\
    Forall2 (fun '(res, p) '(res', p') => p' = p /\ stamped_with a res res')
      [(ex_spoofed, tt)] [(stamp (MkIdentity "acme" "acme" "") ex_spoofed, tt)].
Proof.
  refine (process_stamps "logs" (Some (GetAttribute ex_data)) 0 true [(ex_spoofed, tt)] ex_stamper _ ex_stamper _ _).
  - intros res p _. exact I.
  - reflexivity.
Defined.

Lemma process_drops_witness :
  exists s', process "logs" None 0 true [(ex_spoofed, tt)] ex_stamper = (None, s')
    /\ droppedTotal s' = ["logs"].
Proof. refine (process_drops "logs" None 0 true [(ex_spoofed, tt)] ex_stamper _). discriminate. Defined.
