(* ===== verification/TenantQuota.v ===== *)
(** The tenantquota processor (collector/processor/tenantquota): one token
    bucket per tenant, all-or-nothing admission, retry hints and the lazy
    collection of idle buckets.

    The bucket arithmetic is written against an interface of the floating-point
    operations it uses, with two instances: binary64, which is what the code
    computes with, and exact rationals, in which the admission bound the
    numbers stand for is proved. *)
From S2P Require Import Prelude GoStrings GoFloat TenantAuth.
From Stdlib Require Import QArith Lqa SpecFloat.
From Stdlib Require Import Ascii.

Open Scope string_scope.

(** ** Arithmetic *)

Class Float (F : Type) := {
  f_of_Z : Z -> F;
  f_add : F -> F -> F;
  f_sub : F -> F -> F;
  f_mul : F -> F -> F;
  f_div : F -> F -> F;
  f_lt : F -> F -> bool;
  f_le : F -> F -> bool;
  (** truncation to an integer, [None] for NaN and infinities *)
  f_trunc : F -> option Z
}.

#[global] Instance binary64 : Float spec_float := {
  f_of_Z := float_of_Z;
  f_add := fadd; f_sub := fsub; f_mul := fmul; f_div := fdiv;
  f_lt := flt; f_le := fle;
  f_trunc := trunc_to_Z
}.

#[global] Instance exact : Float Q := {
  f_of_Z := inject_Z;
  f_add := Qplus; f_sub := Qminus; f_mul := Qmult; f_div := Qdiv;
  f_lt x y := negb (Qle_bool y x); f_le := Qle_bool;
  f_trunc q := Some (Z.quot (Qnum q) (Zpos (Qden q)))
}.

(** ** bucket.go *)

Definition idleTimeout : Z := 10 * minute.
Definition gcInterval : Z := 10 * minute.

Section registry.
Context {F : Type} `{!Float F}.
(** The conversion of an out-of-range float to int64 is left to the machine. *)
Context (out_of_range : F -> Z).

Record bucket : Type := MkBucket {
  tokens : F;
  capacity : F;
  rate : F;
  lastSeen : Z
}.

Record registry : Type := MkRegistry {
  burstSeconds : F;
  buckets : gmap string bucket;
  lastGC : Z
}.

Definition newRegistry (burst : F) : registry := MkRegistry burst ∅ time_zero.

(** [Duration.Seconds]. *)
Definition Seconds (d : Z) : F :=
  f_add (f_of_Z (Z.quot d second)) (f_div (f_of_Z (Z.rem d second)) (f_of_Z second)).

Definition maybeGC (now : Z) (r : registry) : registry :=
  if (time_sub now (lastGC r) <? gcInterval)%Z then r
  else MkRegistry (burstSeconds r)
         (filter (fun p => ~ (idleTimeout <= time_sub now (lastSeen p.2))%Z) (buckets r)) now.

(** [time.Duration(x)]. *)
Definition to_duration (x : F) : Z :=
  match f_trunc x with
  | Some z => if decide (int64_min <= z <= int64_max)%Z then z else wrap64 (out_of_range x)
  | None => wrap64 (out_of_range x)
  end.

Definition retryHint (deficit rate : F) : Z :=
  let d := to_duration (f_mul (f_div deficit rate) (f_of_Z second)) in
  let d := if (d <? 100 * millisecond)%Z then (100 * millisecond)%Z else d in
  if (30 * second <? d)%Z then (30 * second)%Z else d.

(** Refill for the elapsed time, then apply the current limit. *)
Definition refill (now : Z) (new_rate new_capacity : F) (b : bucket) : bucket :=
  let dt := Seconds (time_sub now (lastSeen b)) in
  let t := if f_lt (f_of_Z 0) dt then f_add (tokens b) (f_mul dt (rate b)) else tokens b in
  let t := if f_lt new_capacity t then new_capacity else t in
  MkBucket t new_capacity new_rate now.

Definition take (now : Z) (tenant : string) (limit n : Z) (r : registry) : (bool * Z) * registry :=
  let rate := f_of_Z limit in
  let capacity := f_mul rate (burstSeconds r) in
  let r := maybeGC now r in
  let b := match buckets r !! tenant with
           | Some b => b
           | None => MkBucket capacity capacity rate now
           end in
  let b := refill now rate capacity b in
  let need := f_of_Z n in
  if f_le need (tokens b) then
    ((true, 0%Z),
     MkRegistry (burstSeconds r)
       (<[tenant := MkBucket (f_sub (tokens b) need) capacity rate now]> (buckets r)) (lastGC r))
  else
    ((false, retryHint (f_sub need (tokens b)) rate),
     MkRegistry (burstSeconds r) (<[tenant := b]> (buckets r)) (lastGC r)).

Definition size_ (r : registry) : nat := size (buckets r).

(** ** processor.go *)

Record quota_error : Type := MkQuotaError {
  qe_tenant : string;
  qe_limit : Z;
  qe_items : Z;
  qe_signal : string;
  qe_retry_delay : Z
}.

(** The shared quota: the registry with the decisions and rejected items
    counted so far. *)
Record quota : Type := MkQuota {
  q_registry : registry;
  decisionsTotal : list (string * string);
  rejectedItemsTotal : list (string * string * Z)
}.

(** [fmt.Sscanf(v, "%d", &n)]: leading spaces, a sign, decimal digits; what
    follows is not looked at. *)
Fixpoint scan_digits (acc : option Z) (s : list Z) : option Z :=
  match s with
  | c :: s => if (48 <=? c)%Z && (c <=? 57)%Z
              then scan_digits (Some (default 0%Z acc * 10 + (c - 48))%Z) s else acc
  | [] => acc
  end.

Fixpoint skip_space (s : list Z) : option (list Z) :=
  match s with
  | 10%Z :: _ => None
  | 13%Z :: 10%Z :: _ => None
  | c :: s' => if is_space c then skip_space s' else Some s
  | [] => None
  end.

Definition sscanf_d (v : string) : option Z :=
  match skip_space (utf8_runes v) with
  | None => None
  | Some s =>
      let '(neg, s) := match s with
                       | 45%Z :: s => (true, s)
                       | 43%Z :: s => (false, s)
                       | _ => (false, s)
                       end in
      match scan_digits None s with
      | None => None
      | Some z => let z := if neg then (- z)%Z else z in
                  if decide (int64_min <= z <= int64_max)%Z then Some z else None
      end
  end.

Definition limitFromAuth (auth : AuthData) : Z :=
  match auth AttrRateLimitItemsPerSec with
  | AInt64 v => v
  | AInt v => v
  | AInt32 v => v
  | AUint32 v => v
  | AUint64 v => if (Z.shiftl 1 62 <? v)%Z then Z.shiftl 1 62 else v
  | AStr v => default 0%Z (sscanf_d v)
  | ANil => 0
  end.

Definition admit_batch (auth : option AuthData) (signal : string) (n now : Z) (q : quota)
  : option quota_error * quota :=
  match auth with
  | None => (None, q)
  | Some auth =>
      let tenant := any_string (auth AttrTenantID) in
      let limit := limitFromAuth auth in
      if bool_decide (tenant = "") || (limit <=? 0)%Z || (n =? 0)%Z then (None, q)
      else
        let '((allowed, retryAfter), r) := take now tenant limit n (q_registry q) in
        if allowed then
          (None, MkQuota r (decisionsTotal q ++ [(tenant, "allowed")])%list (rejectedItemsTotal q))
        else
          (Some (MkQuotaError tenant limit n signal retryAfter),
           MkQuota r (decisionsTotal q ++ [(tenant, "rejected")])%list
             (rejectedItemsTotal q ++ [(tenant, signal, n)])%list)
  end.

(** Logs, spans and metric data points are counted by the pdata library; the
    batch is passed on as it came or rejected as a whole. *)
Definition process_items {B : Type} (count : B -> Z) (signal : string) (auth : option AuthData)
    (now : Z) (batch : B) (q : quota) : result B quota_error * quota :=
  match admit_batch auth signal (count batch) now q with
  | (Some e, q) => (Err e, q)
  | (None, q) => (Ok batch, q)
  end.

End registry.
Arguments bucket : clear implicits.
Arguments registry : clear implicits.
Arguments quota : clear implicits.

(** ** config.go *)
Definition Config_Validate {F} `{!Float F} (burst : F) : option string :=
  if f_le burst (f_of_Z 0) then Some "burst_seconds must be positive" else None.

(** ** What holds in any arithmetic *)

Section generic.
Context {F : Type} `{!Float F} (out_of_range : F -> Z).

(** The hint given to a rejected client is always between 100 ms and 30 s,
    whatever the arithmetic made of the deficit. *)
Lemma retryHint_range deficit rate :
  (100 * millisecond <= retryHint out_of_range deficit rate <= 30 * second)%Z.
Proof using Type.
  unfold retryHint, millisecond, second. destruct (Z.ltb_spec (to_duration out_of_range
    (f_mul (f_div deficit rate) (f_of_Z 1000000000))) (100 * 1000000)); simpl; [lia|].
  destruct (Z.ltb_spec (30 * 1000000000) (to_duration out_of_range
    (f_mul (f_div deficit rate) (f_of_Z 1000000000)))); lia.
Qed.

(** Collection only removes buckets, and only idle ones. *)
Lemma maybeGC_lookup now (r : registry F) t :
  buckets (maybeGC now r) !! t = buckets r !! t
  \/ exists b, buckets r !! t = Some b /\ buckets (maybeGC now r) !! t = None
       /\ (idleTimeout <= time_sub now (lastSeen b))%Z.
Proof using Type.
  unfold maybeGC. destruct (_ <? _)%Z; [by left|]. simpl.
  destruct (buckets r !! t) as [b|] eqn:Hb.
  - destruct (decide (idleTimeout <= time_sub now (lastSeen b))%Z).
    + right. exists b. split_and!; try done. apply map_lookup_filter_None. right.
      intros b' Hb'. simplify_eq. simpl. tauto.
    + left. by apply map_lookup_filter_Some_2.
  - left. apply map_lookup_filter_None. by left.
Qed.

Lemma maybeGC_burst now (r : registry F) : burstSeconds (maybeGC now r) = burstSeconds r.
Proof using Type. unfold maybeGC. by destruct (_ <? _)%Z. Qed.

(** The bucket [take] looks at, refilled. *)
Definition current (now : Z) (tenant : string) (limit : Z) (r : registry F) : bucket F :=
  let rate := f_of_Z limit in
  let capacity := f_mul rate (burstSeconds r) in
  refill now rate capacity
    (default (MkBucket capacity capacity rate now) (buckets (maybeGC now r) !! tenant)).

Lemma take_eq now tenant limit n r :
  let b := current now tenant limit r in
  let need := f_of_Z n in
  let r' x := MkRegistry (burstSeconds r) (<[tenant := x]> (buckets (maybeGC now r))) (lastGC (maybeGC now r)) in
  take out_of_range now tenant limit n r =
    if f_le need (tokens b)
    then ((true, 0%Z), r' (MkBucket (f_sub (tokens b) need) (capacity b) (rate b) now))
    else ((false, retryHint out_of_range (f_sub need (tokens b)) (rate b)), r' b).
Proof using Type.
  cbv zeta. unfold take, current, default. rewrite maybeGC_burst.
  by destruct (buckets (maybeGC now r) !! tenant).
Qed.

End generic.

(** ** What the buckets mean: exact arithmetic

    Over the rationals a bucket is exactly the tokens available at its last
    use; [avail] is what a tenant may still send at a given moment. *)

Section exact_arithmetic.
Context (out_of_range : Q -> Z).
Local Open Scope Q_scope.

Definition cap (L : Z) (r : registry Q) : Q := inject_Z L * burstSeconds r.

Definition qmin (x y : Q) : Q := if Qle_bool x y then x else y.

Definition seconds_of (d : Z) : Q := inject_Z d / inject_Z 1000000000.

(** The tokens of tenant [T], with limit [L], at time [now]. *)
Definition avail (r : registry Q) (T : string) (L : Z) (now : Z) : Q :=
  match buckets r !! T with
  | None => cap L r
  | Some b => qmin (cap L r) (tokens b + seconds_of (time_sub now (lastSeen b)) * inject_Z L)
  end.

Definition bucket_ok (T : string) (L : Z) (now : Z) (r : registry Q) : Prop :=
  forall b, buckets r !! T = Some b ->
    rate b = inject_Z L /\ 0 <= tokens b /\ tokens b <= cap L r /\ (lastSeen b <= now)%Z.

Lemma qmin_cases x y : (qmin x y == x /\ x <= y) \/ (qmin x y == y /\ y < x).
Proof.
  unfold qmin. destruct (Qle_bool x y) eqn:H; [left|right].
  - apply Qle_bool_iff in H. split; [reflexivity|done].
  - split; [reflexivity|]. apply Qnot_le_lt. rewrite <- Qle_bool_iff. congruence.
Qed.

#[local] Instance qmin_proper : Proper (Qeq ==> Qeq ==> Qeq) qmin.
Proof.
  intros x x' Hx y y' Hy. destruct (qmin_cases x y) as [[-> ?]|[-> ?]], (qmin_cases x' y') as [[-> ?]|[-> ?]]; lra.
Qed.

Lemma Seconds_exact d : Seconds d == seconds_of d.
Proof.
  unfold Seconds, seconds_of, second. simpl. pose proof (Z.quot_rem d 1000000000 ltac:(lia)) as Hd.
  rewrite Hd at 3. rewrite inject_Z_plus, inject_Z_mult. field.
Qed.

Lemma seconds_of_mono d d' : (d <= d')%Z -> seconds_of d <= seconds_of d'.
Proof.
  intros H. unfold seconds_of, Qdiv. apply Qmult_le_compat_r; [|done]. by rewrite <- Zle_Qle.
Qed.

Lemma seconds_of_plus d d' : seconds_of (d + d') == seconds_of d + seconds_of d'.
Proof. unfold seconds_of. rewrite inject_Z_plus. field. Qed.

Lemma seconds_of_nonneg d : (0 <= d)%Z -> 0 <= seconds_of d.
Proof. intros H. apply Qle_trans with (seconds_of 0); [discriminate|]. by apply seconds_of_mono. Qed.

Lemma time_sub_nonneg now last : (last <= now)%Z -> (0 <= time_sub now last)%Z.
Proof. unfold time_sub, int64_min, int64_max. lia. Qed.

(** Refilling to the present is a minimum with the capacity. *)
Lemma refill_exact now L C b : (lastSeen b <= now)%Z -> rate b = inject_Z L ->
  tokens (refill now (inject_Z L) C b)
  == qmin C (tokens b + seconds_of (time_sub now (lastSeen b)) * inject_Z L).
Proof.
  intros Hl Hr. unfold refill. cbn [tokens f_lt f_add f_mul f_of_Z exact]. rewrite Hr.
  pose proof (seconds_of_nonneg _ (time_sub_nonneg _ _ Hl)) as H0.
  pose proof (Seconds_exact (time_sub now (lastSeen b))) as Hs.
  set (sec := Seconds _) in *. set (sx := seconds_of _) in *.
  assert ((if negb (Qle_bool sec (inject_Z 0)) then tokens b + sec * inject_Z L else tokens b)
          == tokens b + sx * inject_Z L) as Ht.
  { destruct (Qle_bool sec (inject_Z 0)) eqn:Hle; simpl; [|by rewrite Hs].
    apply Qle_bool_iff in Hle. rewrite Hs in Hle. assert (sx == 0) as -> by (apply Qle_antisym; done). ring. }
  set (t := if negb _ then _ else _) in *. clearbody t. unfold qmin.
  destruct (Qle_bool t C) eqn:H1, (Qle_bool C (tokens b + sx * inject_Z L)) eqn:H2; simpl; try done.
  - apply Qle_bool_iff in H1, H2. rewrite <- Ht in H2. by apply Qle_antisym.
  - apply not_true_iff_false in H1, H2. rewrite Qle_bool_iff in H1, H2.
    rewrite <- Ht in H2. apply Qnot_le_lt in H1, H2. lra.
Qed.

Lemma qmin_eq_l x y : x <= y -> qmin x y == x.
Proof. intros. destruct (qmin_cases x y) as [[-> ?]|[-> ?]]; [reflexivity|lra]. Qed.
Lemma qmin_eq_r x y : y <= x -> qmin x y == y.
Proof. intros. destruct (qmin_cases x y) as [[-> ?]|[-> ?]]; [lra|reflexivity]. Qed.

Lemma time_sub_self now : time_sub now now = 0%Z.
Proof. unfold time_sub, int64_min, int64_max. lia. Qed.

(** A bucket collected as idle was full: ten minutes refill any burst of at
    most ten minutes. *)
Lemma idle_full L B b now : 0 <= inject_Z L -> B <= 600 -> 0 <= tokens b ->
  (idleTimeout <= time_sub now (lastSeen b))%Z ->
  inject_Z L * B <= tokens b + seconds_of (time_sub now (lastSeen b)) * inject_Z L.
Proof.
  intros HL HB Ht Hi. apply seconds_of_mono in Hi.
  assert (seconds_of idleTimeout == 600) as H6 by reflexivity. rewrite H6 in Hi.
  set (x := seconds_of _) in *. clearbody x. nra.
Qed.

Section tenant.
Context (T : string) (L : Z) (B : Q).
Hypothesis (HL : (0 < L)%Z) (HB0 : 0 < B) (HB : B <= 600).

Definition quota_inv (now : Z) (r : registry Q) : Prop := burstSeconds r = B /\ bucket_ok T L now r.

Lemma HLq : 0 < inject_Z L.
Proof using HL. by rewrite (Zlt_Qlt 0) in HL. Qed.

Lemma cap_pos r : burstSeconds r = B -> 0 < cap L r.
Proof using HL HB0. intros H. unfold cap. rewrite H. pose proof HLq. nra. Qed.

Lemma bucket_ok_later now now' r : (now <= now')%Z -> bucket_ok T L now r -> bucket_ok T L now' r.
Proof using Type. intros Hle Hok b Hb. destruct (Hok b Hb) as (? & ? & ? & ?). split_and!; try done. lia. Qed.

Lemma quota_inv_GC now r : quota_inv now r -> quota_inv now (maybeGC now r)
  /\ avail (maybeGC now r) T L now == avail r T L now.
Proof using HL HB HB0.
  intros [Hburst Hok]. pose proof (maybeGC_burst now r) as Hb.
  destruct (maybeGC_lookup now r T) as [Hl|(b & Hbk & Hn & Hidle)].
  - split; [split; [congruence|]|].
    + intros b. rewrite Hl. intros (? & ? & ? & ?)%Hok. unfold cap in *. rewrite Hb. done.
    + unfold avail, cap. by rewrite Hl, Hb.
  - split; [split; [congruence|]|].
    + intros b'. by rewrite Hn.
    + unfold avail. rewrite Hbk, Hn. destruct (Hok b Hbk) as (_ & Ht & _ & _).
      rewrite qmin_eq_l; [unfold cap; by rewrite Hb|]. unfold cap. rewrite Hburst.
      apply idle_full; try done. apply Qlt_le_weak, HLq.
Qed.

Lemma current_exact now r : quota_inv now r -> tokens (current now T L r) == avail r T L now.
Proof using HL HB HB0.
  intros Hinv. destruct (quota_inv_GC now r Hinv) as [[Hbu Hok] Hav]. rewrite <- Hav.
  unfold current, avail, cap. rewrite <- (maybeGC_burst now r).
  destruct (buckets (maybeGC now r) !! T) as [b|] eqn:Hb; simpl.
  - destruct (Hok b Hb) as (Hr & _ & _ & Hls). by apply refill_exact.
  - set (C := inject_Z L * burstSeconds (maybeGC now r)). set (b := MkBucket C C (inject_Z L) now).
    assert (tokens (refill now (inject_Z L) C b)
      == qmin C (tokens b + seconds_of (time_sub now (lastSeen b)) * inject_Z L)) as Hre.
    { apply refill_exact; [apply Z.le_refl|reflexivity]. }
    etransitivity; [exact Hre|]. subst b. simpl. rewrite time_sub_self.
    apply qmin_eq_l. assert (seconds_of 0 == 0) as -> by done. lra.
Qed.

Lemma current_range now r : quota_inv now r ->
  0 <= tokens (current now T L r) /\ tokens (current now T L r) <= cap L r.
Proof using HL HB HB0.
  intros Hinv. rewrite !current_exact by done. destruct Hinv as [Hbu Hok]. pose proof (cap_pos r Hbu).
  unfold avail. destruct (buckets r !! T) as [b|] eqn:Hb; [|split; lra].
  destruct (Hok b Hb) as (_ & Ht & _ & Hls). pose proof HLq.
  pose proof (seconds_of_nonneg _ (time_sub_nonneg _ _ Hls)) as Hsec. set (x := seconds_of _) in *. clearbody x.
  assert (0 <= x * inject_Z L) by nra. destruct (qmin_cases (cap L r) (tokens b + x * inject_Z L)) as [[-> ?]|[-> ?]]; split; lra.
Qed.

(** A stored bucket just used holds exactly what is available. *)
Lemma avail_stored m g (b : bucket Q) now : 0 <= tokens b -> tokens b <= inject_Z L * B -> lastSeen b = now ->
  avail (MkRegistry B (<[T := b]> m) g) T L now == tokens b.
Proof using Type.
  intros H0 H1 Hl. unfold avail. simpl. rewrite lookup_insert_eq, Hl, time_sub_self.
  assert (seconds_of 0 == 0) as -> by done. unfold cap. simpl. rewrite qmin_eq_r; lra.
Qed.

(** One call of the tenant: admitted exactly when the items fit what is
    available, and then they are gone from it. *)
Lemma take_own now n r allowed hint r' : quota_inv now r -> (0 <= n)%Z ->
  take out_of_range now T L n r = ((allowed, hint), r') ->
  (allowed = true <-> inject_Z n <= avail r T L now) /\ quota_inv now r'
  /\ avail r' T L now == avail r T L now - (if allowed then inject_Z n else 0).
Proof using HL HB HB0.
  intros Hinv Hn. rewrite take_eq. cbn zeta. pose proof (current_exact now r Hinv) as Hc.
  destruct (current_range now r Hinv) as [Hc0 Hc1].
  assert (lastSeen (current now T L r) = now /\ rate (current now T L r) = inject_Z L) as [Hls Hra] by done.
  set (b := current now T L r) in *. clearbody b. destruct Hinv as [Hbu _]. unfold cap in Hc1. rewrite Hbu in *.
  rewrite (Zle_Qle 0 n) in Hn. change (inject_Z 0) with 0 in Hn.
  change (f_le (f_of_Z n) (tokens b)) with (Qle_bool (inject_Z n) (tokens b)).
  change (f_sub (tokens b) (f_of_Z n)) with (tokens b - inject_Z n).
  destruct (Qle_bool (inject_Z n) (tokens b)) eqn:Hle; intros [= <- <- <-].
  - apply Qle_bool_iff in Hle. split; [|split; [split; [done|]|]].
    + split; [|done]. intros _. by rewrite <- Hc.
    + intros b'. simpl. rewrite lookup_insert_eq. intros [= <-]. unfold cap. simpl. split_and!; [done|lra|lra|lia].
    + rewrite avail_stored by (simpl; first [lra|done]). simpl. lra.
  - apply not_true_iff_false in Hle. rewrite Qle_bool_iff in Hle. split; [|split; [split; [done|]|]].
    + split; [done|]. intros H. by rewrite <- Hc in H.
    + intros b'. simpl. rewrite lookup_insert_eq. intros [= <-]. unfold cap. simpl. split_and!; [done|lra|lra|lia].
    + rewrite avail_stored by done. lra.
Qed.

(** A call of another tenant leaves what is available unchanged. *)
Lemma take_other now T' L' n r res r' : quota_inv now r -> T' <> T ->
  take out_of_range now T' L' n r = (res, r') ->
  quota_inv now r' /\ avail r' T L now == avail r T L now.
Proof using HL HB HB0.
  intros Hinv Hne. rewrite take_eq. cbn zeta. destruct (quota_inv_GC now r Hinv) as [[Hb Hok] <-].
  destruct Hinv as [Hbu _].
  assert (forall x, let r1 := MkRegistry (burstSeconds r) (<[T' := x]> (buckets (maybeGC now r))) (lastGC (maybeGC now r)) in
    quota_inv now r1 /\ avail r1 T L now == avail (maybeGC now r) T L now) as Hx.
  { intros x r1. unfold r1. rewrite Hbu. split.
    - split; [done|]. intros b. simpl. rewrite lookup_insert_ne by done. intros Hl. apply Hok in Hl.
      unfold cap in *. by rewrite Hb in Hl.
    - unfold avail, cap. simpl. rewrite lookup_insert_ne by done. by rewrite Hb. }
  destruct (f_le _ _); intros [= _ <-]; apply Hx.
Qed.

(** Waiting makes at most [L] tokens per second available. *)
Lemma avail_advance now now' r : quota_inv now r -> (now <= now')%Z ->
  avail r T L now' <= avail r T L now + seconds_of (now' - now) * inject_Z L.
Proof using HL.
  intros [_ Hok] Hle. pose proof HLq. pose proof (seconds_of_nonneg (now' - now) ltac:(lia)) as Hsec.
  unfold avail. destruct (buckets r !! T) as [b|] eqn:Hb; [|set (x := seconds_of _) in *; clearbody x; nra].
  destruct (Hok b Hb) as (_ & _ & _ & Hls).
  assert (time_sub now' (lastSeen b) <= time_sub now (lastSeen b) + (now' - now))%Z as Hs.
  { unfold time_sub, int64_min, int64_max. lia. }
  apply seconds_of_mono in Hs. rewrite seconds_of_plus in Hs.
  set (x := seconds_of (time_sub now' _)) in *. set (y := seconds_of (time_sub now _)) in *.
  set (d := seconds_of (now' - now)) in *. clearbody x y d.
  assert (x * inject_Z L <= (y + d) * inject_Z L) by nra.
  destruct (qmin_cases (cap L r) (tokens b + x * inject_Z L)) as [[-> ?]|[-> ?]],
    (qmin_cases (cap L r) (tokens b + y * inject_Z L)) as [[-> ?]|[-> ?]]; nra.
Qed.

Lemma avail_le_cap now r : quota_inv now r -> avail r T L now <= inject_Z L * B.
Proof using HL HB HB0.
  intros Hinv. rewrite <- current_exact by done. destruct (current_range now r Hinv) as [_ H].
  unfold cap in H. by rewrite (proj1 Hinv) in H.
Qed.

Lemma avail_nonneg now r : quota_inv now r -> 0 <= avail r T L now.
Proof using HL HB HB0.
  intros Hinv. rewrite <- current_exact by done. by destruct (current_range now r Hinv).
Qed.

Lemma quota_inv_init now : quota_inv now (newRegistry B).
Proof using Type. split; [done|]. intros b. simpl. by rewrite lookup_empty. Qed.

End tenant.

(** *** Sequences of calls *)

Record call : Type := MkCall { c_tenant : string; c_limit : Z; c_items : Z; c_now : Z }.

Fixpoint run (r : registry Q) (calls : list call) : list bool * registry Q :=
  match calls with
  | [] => ([], r)
  | c :: calls =>
      let '((allowed, _), r) := take out_of_range (c_now c) (c_tenant c) (c_limit c) (c_items c) r in
      let '(ds, r) := run r calls in (allowed :: ds, r)
  end.

(** The items admitted for a tenant. *)
Fixpoint admitted (T : string) (calls : list call) (ds : list bool) : Z :=
  match calls, ds with
  | c :: calls, d :: ds =>
      ((if d && bool_decide (c_tenant c = T) then c_items c else 0) + admitted T calls ds)%Z
  | _, _ => 0%Z
  end.

(** Calls in time order from [t0], with the tenant's limit unchanged. *)
Fixpoint calls_from (T : string) (L : Z) (t0 : Z) (calls : list call) : Prop :=
  match calls with
  | [] => True
  | c :: calls => (t0 <= c_now c)%Z /\ (0 <= c_items c)%Z /\ (c_tenant c = T -> c_limit c = L)
                  /\ calls_from T L (c_now c) calls
  end.

Definition end_time (t0 : Z) (calls : list call) : Z := default t0 (c_now <$> last calls).

Section bound.
Context (T : string) (L : Z) (B : Q).
Hypothesis (HL : (0 < L)%Z) (HB0 : 0 < B) (HB : B <= 600).

(** What one call does to the tenant: its admitted items leave what is
    available. *)
Lemma take_step now c r res r' : quota_inv T L B now r -> (0 <= c_items c)%Z -> (c_tenant c = T -> c_limit c = L) ->
  take out_of_range now (c_tenant c) (c_limit c) (c_items c) r = (res, r') ->
  quota_inv T L B now r' /\
  inject_Z (if res.1 && bool_decide (c_tenant c = T) then c_items c else 0) + avail r' T L now == avail r T L now.
Proof using HL HB0 HB.
  intros Hinv Hn Hlim Ht. destruct res as [allowed hint]. simpl. destruct (decide (c_tenant c = T)) as [HT|HT].
  - rewrite (Hlim HT), HT in Ht. destruct (take_own T L B HL HB0 HB _ _ _ _ _ _ Hinv Hn Ht) as (_ & Hi & Hav).
    split; [done|]. rewrite bool_decide_true, Hav by done. destruct allowed; simpl; [ring|].
    change (inject_Z 0) with 0. ring.
  - destruct (take_other T L B HL HB0 HB _ _ _ _ _ _ _ Hinv HT Ht) as [Hi Hav]. split; [done|].
    rewrite bool_decide_false, andb_false_r, Hav by done. change (inject_Z 0) with 0. ring.
Qed.

Lemma quota_inv_later now now' r : (now <= now')%Z -> quota_inv T L B now r -> quota_inv T L B now' r.
Proof using Type. intros Hle [? ?]. split; [done|]. by eapply bucket_ok_later. Qed.

Lemma end_time_cons t0 c calls : end_time t0 (c :: calls) = end_time (c_now c) calls.
Proof using Type.
  unfold end_time. destruct calls as [|c' calls]; [done|]. rewrite last_cons_cons.
  destruct (last (c' :: calls)) eqn:H; [done|]. by apply last_None in H.
Qed.

Lemma run_bound calls : forall now r ds r', quota_inv T L B now r -> calls_from T L now calls ->
  run r calls = (ds, r') ->
  quota_inv T L B (end_time now calls) r' /\ (now <= end_time now calls)%Z /\
  inject_Z (admitted T calls ds) + avail r' T L (end_time now calls)
    <= avail r T L now + seconds_of (end_time now calls - now) * inject_Z L.
Proof using HL HB0 HB.
  induction calls as [|c calls IH]; intros now r ds r' Hinv Hc Hr; cbn [run] in Hr.
  - injection Hr as <- <-. unfold end_time. simpl. rewrite Z.sub_diag. split_and!; [done|lia|].
    assert (seconds_of 0 == 0) as -> by done. change (inject_Z 0) with 0. lra.
  - destruct Hc as (Ht & Hn & Hlim & Hc). apply (quota_inv_later now (c_now c)) in Hinv as Hinv1; [|done].
    destruct (take out_of_range _ _ _ _ r) as [res r1] eqn:Htk.
    destruct (take_step _ c r res r1 Hinv1 Hn Hlim Htk) as [Hi1 Hav1]. destruct res as [allowed hint].
    destruct (run r1 calls) as [ds1 r2] eqn:Hrun. injection Hr as <- <-.
    destruct (IH (c_now c) r1 ds1 r2 Hi1 Hc Hrun) as (Hi2 & Hle & Hav2). rewrite end_time_cons.
    split_and!; [done|lia|]. cbn [admitted]. rewrite inject_Z_plus. simpl in Hav1.
    pose proof (avail_advance T L B HL now (c_now c) r Hinv Ht) as Hadv.
    replace (end_time (c_now c) calls - now)%Z with ((end_time (c_now c) calls - c_now c) + (c_now c - now))%Z by lia.
    rewrite seconds_of_plus, Qmult_plus_distr_l. lra.
Qed.

Lemma calls_from_app t0 pre win : calls_from T L t0 (pre ++ win)%list ->
  calls_from T L t0 pre /\ calls_from T L (end_time t0 pre) win.
Proof using Type.
  revert t0. induction pre as [|c pre IH]; intros t0; [done|]. cbn [app calls_from].
  intros (? & ? & ? & Hc). rewrite end_time_cons. apply IH in Hc as [? ?]. by split_and!.
Qed.

End bound.


(** *** Isolation between tenants *)

Section isolation.
Context (T : string) (L : Z) (B : Q) (t0 : Z).
Hypothesis (HL : (0 < L)%Z) (HB0 : 0 < B) (HB : B <= 600).

Definition seen_from (r : registry Q) : Prop := forall b, buckets r !! T = Some b -> (t0 <= lastSeen b)%Z.

Lemma take_seen_from now T' L' n r res r' : (t0 <= now)%Z -> seen_from r ->
  take out_of_range now T' L' n r = (res, r') -> seen_from r'.
Proof using Type.
  intros Hn Hs. rewrite take_eq. cbn zeta.
  assert (seen_from (maybeGC now r)) as HsG.
  { intros b Hb. destruct (maybeGC_lookup now r T) as [Hl|(b' & _ & Hl & _)]; [|congruence].
    apply Hs. congruence. }
  assert (forall x, lastSeen x = now -> seen_from (MkRegistry (burstSeconds r)
    (<[T' := x]> (buckets (maybeGC now r))) (lastGC (maybeGC now r)))) as Hx.
  { intros x Hlx b. simpl. destruct (decide (T' = T)) as [->|]; [rewrite lookup_insert_eq|rewrite lookup_insert_ne by done].
    - intros [= <-]. lia.
    - apply HsG. }
  destruct (f_le _ _); intros [= _ <-]; apply Hx; done.
Qed.

(** What is available later is what is available now, refilled. *)
Lemma avail_later now now' r : quota_inv T L B now r -> seen_from r ->
  (now <= now')%Z -> (now' - t0 <= int64_max)%Z ->
  avail r T L now' == qmin (inject_Z L * B) (avail r T L now + seconds_of (now' - now) * inject_Z L).
Proof using HL HB0 HB.
  intros [Hbu Hok] Hs Hle Hera. unfold avail, cap. rewrite Hbu. pose proof (HLq L HL) as HLq.
  pose proof (seconds_of_nonneg (now' - now) ltac:(lia)) as Hsec.
  destruct (buckets r !! T) as [b|] eqn:Hb.
  - destruct (Hok b Hb) as (_ & _ & _ & Hls). pose proof (Hs b Hb).
    assert (time_sub now' (lastSeen b) = time_sub now (lastSeen b) + (now' - now))%Z as ->.
    { unfold time_sub, int64_min, int64_max in *. lia. }
    rewrite seconds_of_plus. set (x := seconds_of (time_sub now _)). set (d := seconds_of (now' - now)) in *.
    clearbody x d. assert (0 <= d * inject_Z L) by nra. set (C := inject_Z L * B).
    set (y := tokens b + x * inject_Z L).
    assert (tokens b + (x + d) * inject_Z L == y + d * inject_Z L) as -> by (unfold y; ring). clearbody y C.
    destruct (qmin_cases C (y + d * inject_Z L)) as [[-> ?]|[-> ?]], (qmin_cases C y) as [[Hq ?]|[Hq ?]]; rewrite ?Hq.
    + rewrite qmin_eq_l; lra.
    + rewrite qmin_eq_l; lra.
    + lra.
    + rewrite qmin_eq_r; lra.
  - rewrite qmin_eq_l; [reflexivity|]. set (d := seconds_of _) in *. clearbody d. nra.
Qed.

(** The decisions on the tenant's own calls. *)
Fixpoint decisions_of (calls : list call) (ds : list bool) : list bool :=
  match calls, ds with
  | c :: calls, d :: ds => if bool_decide (c_tenant c = T) then d :: decisions_of calls ds else decisions_of calls ds
  | _, _ => []
  end.

Definition own_calls (calls : list call) : list call := filter (fun c => c_tenant c = T) calls.

Lemma run_isolated calls : forall now r1 r2,
  quota_inv T L B now r1 -> quota_inv T L B now r2 -> seen_from r1 -> seen_from r2 -> (t0 <= now)%Z ->
  avail r1 T L now == avail r2 T L now -> calls_from T L now calls ->
  (forall c, c ∈ calls -> c_now c - t0 <= int64_max)%Z ->
  decisions_of calls (run r1 calls).1 = (run r2 (own_calls calls)).1.
Proof using HL HB0 HB.
  induction calls as [|c calls IH]; intros now r1 r2 Hi1 Hi2 Hs1 Hs2 Ht0 Hav Hc Hera; [done|].
  destruct Hc as (Ht & Hn & Hlim & Hc). cbn [run].
  assert (c_now c - t0 <= int64_max)%Z as Hcn by (apply Hera; left).
  assert (avail r1 T L (c_now c) == avail r2 T L (c_now c)) as Hav'.
  { rewrite (avail_later now (c_now c) r1), (avail_later now (c_now c) r2) by done. by rewrite Hav. }
  apply (quota_inv_later T L B _ (c_now c)) in Hi1, Hi2; [|done..].
  assert (t0 <= c_now c)%Z as Htc by lia.
  destruct (take out_of_range _ _ _ _ r1) as [res1 r1'] eqn:Htk1.
  pose proof (take_seen_from _ _ _ _ _ _ _ Htc Hs1 Htk1) as Hs1'.
  assert (forall c', c' ∈ calls -> c_now c' - t0 <= int64_max)%Z as Hera' by (intros; apply Hera; by right).
  unfold own_calls. rewrite filter_cons. fold (own_calls calls). destruct (decide (c_tenant c = T)) as [HT|HT].
  - cbn [run]. rewrite (Hlim HT), HT in Htk1 |- *.
    destruct (take out_of_range _ _ _ _ r2) as [res2 r2'] eqn:Htk2.
    pose proof (take_seen_from _ _ _ _ _ _ _ Htc Hs2 Htk2) as Hs2'.
    destruct res1 as [a1 h1], res2 as [a2 h2].
    destruct (take_own T L B HL HB0 HB _ _ _ _ _ _ Hi1 Hn Htk1) as (Ha1 & Hi1' & Hav1).
    destruct (take_own T L B HL HB0 HB _ _ _ _ _ _ Hi2 Hn Htk2) as (Ha2 & Hi2' & Hav2).
    rewrite Hav' in Ha1.
    assert (a1 = a2) as -> by (apply eq_true_iff_eq; rewrite Ha1, Ha2; done).
    specialize (IH (c_now c) r1' r2' Hi1' Hi2' Hs1' Hs2' Htc).
    destruct (run r1' calls) as [ds1 ?], (run r2' (own_calls calls)) as [ds2 ?]. cbn [fst decisions_of] in *.
    rewrite bool_decide_true by done.
    f_equal. apply IH; try done. by rewrite Hav1, Hav2, Hav'.
  - destruct (take_other T L B HL HB0 HB _ _ _ _ _ _ _ Hi1 HT Htk1) as [Hi1' Hav1].
    destruct res1 as [a1 h1]. specialize (IH (c_now c) r1' r2 Hi1' Hi2 Hs1' Hs2 Htc).
    destruct (run r1' calls) as [ds1 ?]. cbn [fst decisions_of] in *. rewrite bool_decide_false by done.
    apply IH; try done. by rewrite Hav1.
Qed.

End isolation.

(** In exact arithmetic tenants do not influence each other: the decisions on
    one tenant's batches are those of a registry that serves this tenant alone,
    although the collection of idle buckets is triggered by everybody's
    traffic. *)
Theorem quota_isolation T L B t0 calls :
  (0 < L)%Z -> 0 < B -> B <= 600 -> calls_from T L t0 calls ->
  (forall c, c ∈ calls -> c_now c - t0 <= int64_max)%Z ->
  decisions_of T calls (run (newRegistry B) calls).1 = (run (newRegistry B) (own_calls T calls)).1.
Proof.
  intros HL HB0 HB Hc Hera.
  apply (run_isolated T L B t0 HL HB0 HB calls t0); try done; try apply quota_inv_init; try lia;
    intros b; simpl; by rewrite lookup_empty.
Qed.

End exact_arithmetic.

(** ** Admission of a batch, in any arithmetic *)

Section admission.
Context {F : Type} `{!Float F} (out_of_range : F -> Z).

(** A batch is rejected only for a tenant with a positive limit, and then as a
    whole: nothing is consumed from any bucket, all its items are counted as
    rejected and the client is told to wait between 100 ms and 30 s.  An
    unlimited tenant, an unauthenticated or an empty batch passes and leaves no
    trace. *)
Theorem admit_outcome auth signal n now (q q' : quota F) e :
  admit_batch out_of_range auth signal n now q = (e, q') ->
  match e with
  | None => rejectedItemsTotal q' = rejectedItemsTotal q
  | Some e =>
      (100 * millisecond <= qe_retry_delay e <= 30 * second)%Z /\ (0 < qe_limit e)%Z /\ n <> 0%Z
      /\ (exists a, auth = Some a /\ a AttrTenantID = AStr (qe_tenant e) /\ limitFromAuth a = qe_limit e)
      /\ rejectedItemsTotal q' = (rejectedItemsTotal q ++ [(qe_tenant e, signal, n)])%list
      /\ buckets (q_registry q') =
           <[qe_tenant e := current now (qe_tenant e) (qe_limit e) (q_registry q)]>
             (buckets (maybeGC now (q_registry q)))
  end /\
  (match auth with Some a => any_string (a AttrTenantID) = "" \/ (limitFromAuth a <= 0)%Z | None => True end
     \/ n = 0%Z -> e = None /\ q' = q).
Proof using Type.
  unfold admit_batch. destruct auth as [a|]; [|by intros [= <- <-]].
  destruct (bool_decide_reflect (any_string (a AttrTenantID) = "")) as [Ht|Ht]; [by intros [= <- <-]|].
  destruct (Z.leb_spec (limitFromAuth a) 0) as [Hl|Hl]; [by intros [= <- <-]|].
  destruct (Z.eqb_spec n 0) as [Hn|Hn]; [by intros [= <- <-]|]. simpl. rewrite take_eq. cbn zeta.
  destruct (f_le _ _); intros [= <- <-]; simpl; (split; [|intros [[?|?]|?]; [done|lia|done]]); [done|].
  split_and!; try done; try apply retryHint_range. exists a. split_and!; try done.
  unfold any_string in *. by destruct (a AttrTenantID).
Qed.

End admission.

(** The limit the authenticator attaches is the one that is enforced. *)
Lemma limitFromAuth_authData d : limitFromAuth (GetAttribute d) = rateLimitItemsPerSec d.
Proof. done. Qed.

Example sscanf_d_ex : sscanf_d " 250/s" = Some 250%Z /\ sscanf_d "-3" = Some (-3)%Z /\ sscanf_d "x" = None.
Proof. by vm_compute. Qed.

(** ** Concrete runs *)

Definition ex_calls : list call :=
  [MkCall "a" 10 15 0; MkCall "b" 5 9 0; MkCall "a" 10 8 second; MkCall "a" 10 15 second].


Lemma quota_isolation_witness :
  decisions_of "a" ex_calls (run (fun _ => 0%Z) (newRegistry 2) ex_calls).1
  = (run (fun _ => 0%Z) (newRegistry 2) (own_calls "a" ex_calls)).1.
Proof.
  refine (quota_isolation (fun _ => 0%Z) "a" 10 2 0 ex_calls _ _ _ _ _); try reflexivity; try discriminate.
  - simpl. unfold second. split_and!; try lia; done.
  - intros c Hc. unfold int64_max. repeat (apply elem_of_cons in Hc as [->|Hc]; [vm_compute; discriminate|]).
    by apply elem_of_nil in Hc.
Defined.

Definition ex_auth : string -> attr_val := GetAttribute (MkAuthData "a" "a" "c" 10).
Definition ex_quota : quota spec_float := MkQuota (newRegistry (float_of_Z 2)) [] [].

Lemma admit_outcome_witness :
  rejectedItemsTotal (admit_batch (fun _ => 0%Z) (Some ex_auth) "logs" 25 0 ex_quota).2 = [("a", "logs", 25%Z)].
Proof.
  refine (proj1 (proj2 (proj2 (proj2 (proj2 (proj1 (admit_outcome (fun _ => 0%Z) (Some ex_auth) "logs" 25 0 ex_quota
    (admit_batch (fun _ => 0%Z) (Some ex_auth) "logs" 25 0 ex_quota).2
    (Some (MkQuotaError "a" 10 25 "logs" (500 * millisecond))) _))))))).
  vm_compute. reflexivity.
Defined.
