(* ===== verification/PgCore.v ===== *)
(** The PostgreSQL store, first part: the tables as finite maps, transactions
    with rollback, and the operations of internal/store/pg.go and
    pg_apitokens.go on customers, ingest keys and API tokens.

    A statement's effect on the tables is written out with the constraints of
    the migrations it is subject to; [now] is the transaction's clock.  Loss of
    the connection is not modelled: it leaves the tables as they were. *)
From S2P Require Import Prelude GoStrings Json StoreTypes.

Open Scope string_scope.

(** ** Tables

    The API-token and agent rows carry the secret columns the public records
    leave out. *)
Record api_token_row : Type := MkAPITokenRow {
  at_token : APIToken;
  at_hash : string
}.

Record agent_row : Type := MkAgentRow {
  ag_agent : Agent;
  ag_token_prefix : option string;
  ag_token_hash : option string;
  ag_token_issued_at : option Z
}.

Record pipeline_row : Type := MkPipelineRow {
  pl_id : N;
  pl_customer_id : N;
  pl_name : string;
  pl_target_class : string;
  pl_active_version_id : option N;
  pl_created_at : Z
}.

Record version_row : Type := MkVersionRow {
  pv_id : N;
  pv_pipeline_id : N;
  pv_version : Z;
  pv_graph : jval;
  pv_rendered_yaml : string;
  pv_config_hash : string;
  pv_validation_status : string;
  pv_validation_output : option string;
  pv_created_by : option N;
  pv_created_at : Z
}.

(** scim_groups, without the members *)
Record scim_group_row : Type := MkSCIMGroupRow {
  sg_id : N;
  sg_external_id : option string;
  sg_display_name : string;
  sg_created_at : Z;
  sg_updated_at : Z
}.

(** The tables of users' access and of the settings: identities by provider and
    subject, the grant and membership pairs, sessions with their encoded data,
    groups, webhooks, alert rules, maintenance windows and prices. *)
Record ext_tables : Type := MkExt {
  x_identities : gmap (string * string) N;
  x_grants : gset (N * N);
  x_sessions : gmap string string;
  x_groups : gmap N scim_group_row;
  x_members : gset (N * N);
  x_webhooks : gmap N Webhook;
  x_alert_rules : gmap N AlertRule;
  x_windows : gmap N MaintenanceWindow;
  x_billing : BillingSettings;
  x_overrides : gmap N BillingOverride
}.

Record DB : Type := MkDB {
  t_users : gmap N User;
  t_customers : gmap N Customer;
  t_api_keys : gmap N APIKey;
  t_api_tokens : gmap N api_token_row;
  t_bootstrap_tokens : gmap N BootstrapToken;
  t_agents : gmap N agent_row;
  t_agent_events : list AgentEvent;
  (** the identity sequence of agent_events *)
  t_event_seq : Z;
  t_audit : list AuditEntry;
  t_pipelines : gmap N pipeline_row;
  t_pipeline_versions : gmap N version_row;
  t_ext : ext_tables
}.

(** The migrations insert the singleton row of billing_settings. *)
Definition empty_ext : ext_tables :=
  MkExt ∅ ∅ ∅ ∅ ∅ ∅ ∅ ∅ (MkBillingSettings 0 0 "EUR" 0 None) ∅.
Definition empty_db : DB := MkDB ∅ ∅ ∅ ∅ ∅ ∅ [] 1 [] ∅ ∅ empty_ext.

Definition set_customers (f : gmap N Customer -> gmap N Customer) (d : DB) : DB :=
  MkDB (t_users d) (f (t_customers d)) (t_api_keys d) (t_api_tokens d) (t_bootstrap_tokens d)
    (t_agents d) (t_agent_events d) (t_event_seq d) (t_audit d) (t_pipelines d) (t_pipeline_versions d) (t_ext d).
Definition set_api_keys (f : gmap N APIKey -> gmap N APIKey) (d : DB) : DB :=
  MkDB (t_users d) (t_customers d) (f (t_api_keys d)) (t_api_tokens d) (t_bootstrap_tokens d)
    (t_agents d) (t_agent_events d) (t_event_seq d) (t_audit d) (t_pipelines d) (t_pipeline_versions d) (t_ext d).
Definition set_api_tokens (f : gmap N api_token_row -> gmap N api_token_row) (d : DB) : DB :=
  MkDB (t_users d) (t_customers d) (t_api_keys d) (f (t_api_tokens d)) (t_bootstrap_tokens d)
    (t_agents d) (t_agent_events d) (t_event_seq d) (t_audit d) (t_pipelines d) (t_pipeline_versions d) (t_ext d).
Definition set_bootstrap_tokens (f : gmap N BootstrapToken -> gmap N BootstrapToken) (d : DB) : DB :=
  MkDB (t_users d) (t_customers d) (t_api_keys d) (t_api_tokens d) (f (t_bootstrap_tokens d))
    (t_agents d) (t_agent_events d) (t_event_seq d) (t_audit d) (t_pipelines d) (t_pipeline_versions d) (t_ext d).
Definition set_agents (f : gmap N agent_row -> gmap N agent_row) (d : DB) : DB :=
  MkDB (t_users d) (t_customers d) (t_api_keys d) (t_api_tokens d) (t_bootstrap_tokens d)
    (f (t_agents d)) (t_agent_events d) (t_event_seq d) (t_audit d) (t_pipelines d) (t_pipeline_versions d) (t_ext d).
Definition set_events (f : list AgentEvent -> list AgentEvent) (seq : Z) (d : DB) : DB :=
  MkDB (t_users d) (t_customers d) (t_api_keys d) (t_api_tokens d) (t_bootstrap_tokens d)
    (t_agents d) (f (t_agent_events d)) seq (t_audit d) (t_pipelines d) (t_pipeline_versions d) (t_ext d).
Definition set_audit (f : list AuditEntry -> list AuditEntry) (d : DB) : DB :=
  MkDB (t_users d) (t_customers d) (t_api_keys d) (t_api_tokens d) (t_bootstrap_tokens d)
    (t_agents d) (t_agent_events d) (t_event_seq d) (f (t_audit d)) (t_pipelines d) (t_pipeline_versions d) (t_ext d).

Definition set_pipelines (f : gmap N pipeline_row -> gmap N pipeline_row) (d : DB) : DB :=
  MkDB (t_users d) (t_customers d) (t_api_keys d) (t_api_tokens d) (t_bootstrap_tokens d)
    (t_agents d) (t_agent_events d) (t_event_seq d) (t_audit d) (f (t_pipelines d)) (t_pipeline_versions d) (t_ext d).
Definition set_pipeline_versions (f : gmap N version_row -> gmap N version_row) (d : DB) : DB :=
  MkDB (t_users d) (t_customers d) (t_api_keys d) (t_api_tokens d) (t_bootstrap_tokens d)
    (t_agents d) (t_agent_events d) (t_event_seq d) (t_audit d) (t_pipelines d) (f (t_pipeline_versions d)) (t_ext d).

Definition set_users (f : gmap N User -> gmap N User) (d : DB) : DB :=
  MkDB (f (t_users d)) (t_customers d) (t_api_keys d) (t_api_tokens d) (t_bootstrap_tokens d)
    (t_agents d) (t_agent_events d) (t_event_seq d) (t_audit d) (t_pipelines d) (t_pipeline_versions d) (t_ext d).
Definition set_ext (f : ext_tables -> ext_tables) (d : DB) : DB :=
  MkDB (t_users d) (t_customers d) (t_api_keys d) (t_api_tokens d) (t_bootstrap_tokens d)
    (t_agents d) (t_agent_events d) (t_event_seq d) (t_audit d) (t_pipelines d) (t_pipeline_versions d) (f (t_ext d)).

(** ** Transactions *)

(** A statement sequence: a result with the tables it leaves, or the error
    that aborts the transaction. *)
Definition tx (A : Type) : Type := DB -> result (A * DB) store_err.

Definition tx_ret {A} (a : A) : tx A := fun d => Ok (a, d).
Definition tx_bind {A B} (m : tx A) (k : A -> tx B) : tx B := fun d =>
  match m d with Ok (a, d) => k a d | Err e => Err e end.
Definition tx_fail {A} (e : store_err) : tx A := fun _ => Err e.
Definition tx_get {A} (f : DB -> A) : tx A := fun d => Ok (f d, d).
Definition tx_exec (f : DB -> DB) : tx unit := fun d => Ok (tt, f d).
Definition tx_check (b : bool) (e : store_err) : tx unit := if b then tx_ret tt else tx_fail e.

Declare Scope tx_scope.
Delimit Scope tx_scope with tx.
Notation "x <- m ;; k" := (tx_bind m (fun x => k)) (at level 100, m at next level, right associativity) : tx_scope.
Notation "m ;; k" := (tx_bind m (fun _ => k)) (at level 100, right associativity) : tx_scope.
Open Scope tx_scope.

(** [inTx]: commit on success, roll back on error. *)
Definition inTx {A} (f : tx A) (d : DB) : result A store_err * DB :=
  match f d with
  | Ok (a, d') => (Ok a, d')
  | Err e => (Err e, d)
  end.

(** A read that needs no transaction, run inside one. *)
Definition tx_read {A} (q : DB -> result A store_err) : tx A := fun d =>
  match q d with Ok a => Ok (a, d) | Err e => Err e end.

Definition audit_Write (entries : list AuditEntry) : tx unit :=
  tx_exec (set_audit (fun l => audit_write l entries)).

(** A nullable reference to a user, as the foreign keys require it. *)
Definition user_ref_ok (id : option N) (d : DB) : bool :=
  match id with None => true | Some u => bool_decide (is_Some (t_users d !! u)) end.

(** Rows of a table that satisfy a predicate, in the order of the map. *)
Definition rows {A} (m : gmap N A) (p : A -> bool) : list A :=
  filter (fun x => p x = true) (snd <$> map_to_list m).

Lemma rows_elem {A} (m : gmap N A) p x : x ∈ rows m p <-> p x = true /\ exists i, m !! i = Some x.
Proof.
  unfold rows. rewrite list_elem_of_filter, list_elem_of_fmap. split.
  - intros (Hp & [i x'] & -> & Hi). split; [done|]. exists i. by apply elem_of_map_to_list.
  - intros (Hp & i & Hi). split; [done|]. exists (i, x). split; [done|]. by apply elem_of_map_to_list.
Qed.

(** ** Customers *)

(** The CHECK constraints of the customers table. *)
Definition customer_check (c : Customer) : bool :=
  bool_decide (Customer_Status c ∈ [CustomerActive; CustomerSuspended; CustomerDeleted])
  && match Customer_RateLimitItemsPerSec c with Some r => (0 <? r)%Z | None => true end
  && match Customer_RetentionDays c with Some r => (1 <=? r)%Z && (r <=? 30)%Z | None => true end.

Definition slug_taken (slug : string) (m : gmap N Customer) : bool :=
  existsb (fun p => bool_decide (Customer_Slug p.2 = slug)) (map_to_list m).
Definition client_id_taken (cid : string) (m : gmap N Customer) : bool :=
  existsb (fun p => bool_decide (Customer_ClientID p.2 = cid)) (map_to_list m).

Definition insert_customer (now : Z) (c : NewCustomer) : tx Customer := fun d =>
  let row := MkCustomer (NewCustomer_ID c) (NewCustomer_Slug c) (NewCustomer_Name c) (NewCustomer_ClientID c)
               CustomerActive (NewCustomer_Region c) None None now now in
  if bool_decide (is_Some (t_customers d !! NewCustomer_ID c)) then Err (ErrOther "insert customer")
  else if slug_taken (NewCustomer_Slug c) (t_customers d) then Err ErrSlugExists
  else if client_id_taken (NewCustomer_ClientID c) (t_customers d) then Err ErrConflict
  else Ok (row, set_customers (<[NewCustomer_ID c := row]>) d).

Definition insertAPIKey (now : Z) (k : NewAPIKey) : tx APIKey := fun d =>
  let row := MkAPIKey (NewAPIKey_ID k) (NewAPIKey_CustomerID k) (NewAPIKey_Name k) (NewAPIKey_KeyPrefix k)
               (NewAPIKey_KeyHash k) (NewAPIKey_CreatedBy k) now (NewAPIKey_ExpiresAt k) None None in
  if bool_decide (is_Some (t_api_keys d !! NewAPIKey_ID k))
     || negb (bool_decide (is_Some (t_customers d !! NewAPIKey_CustomerID k)))
     || negb (user_ref_ok (NewAPIKey_CreatedBy k) d)
  then Err (ErrOther "insert api key")
  else Ok (row, set_api_keys (<[NewAPIKey_ID k := row]>) d).

Definition pg_CreateCustomer (now : Z) (c : NewCustomer) (k : NewAPIKey) (entries : list AuditEntry)
  : DB -> result (Customer * APIKey) store_err * DB :=
  inTx (cust <- insert_customer now c ;;
        key <- insertAPIKey now k ;;
        audit_Write entries ;;
        tx_ret (cust, key)).

Definition pg_GetCustomer (id : N) (d : DB) : result Customer store_err :=
  match t_customers d !! id with
  | Some c => if decide (Customer_Status c = CustomerDeleted) then Err ErrNotFound else Ok c
  | None => Err ErrNotFound
  end.

(** [ORDER BY created_at, id]. *)
Definition customer_before (a b : Customer) : bool :=
  (Customer_CreatedAt a <? Customer_CreatedAt b)%Z
  || (Customer_CreatedAt a =? Customer_CreatedAt b)%Z && (Customer_ID a <? Customer_ID b)%N.

Definition pg_ListCustomers (status : option string) (d : DB) : list Customer :=
  sort_by customer_before
    (rows (t_customers d) (fun c =>
       negb (bool_decide (Customer_Status c = CustomerDeleted))
       && match status with Some s => bool_decide (Customer_Status c = s) | None => true end)).

Definition apply_update (now : Z) (upd : CustomerUpdate) (c : Customer) : Customer :=
  MkCustomer (Customer_ID c) (Customer_Slug c) (default (Customer_Name c) (CustomerUpdate_Name upd))
    (Customer_ClientID c) (default (Customer_Status c) (CustomerUpdate_Status upd)) (Customer_Region c)
    (if OptionalInt_Set (CustomerUpdate_RateLimitItemsPerSec upd)
     then OptionalInt_Value (CustomerUpdate_RateLimitItemsPerSec upd) else Customer_RateLimitItemsPerSec c)
    (if OptionalInt_Set (CustomerUpdate_RetentionDays upd)
     then OptionalInt_Value (CustomerUpdate_RetentionDays upd) else Customer_RetentionDays c)
    (Customer_CreatedAt c) now.

Definition pg_UpdateCustomer (now : Z) (id : N) (upd : CustomerUpdate) (entries : list AuditEntry)
  : DB -> result Customer store_err * DB :=
  inTx (c <- tx_read (pg_GetCustomer id) ;;
        let c := apply_update now upd c in
        tx_check (customer_check c) (ErrOther "update customer") ;;
        tx_exec (set_customers (<[id := c]>)) ;;
        audit_Write entries ;;
        tx_ret c).

Definition revoke_key (now : Z) (k : APIKey) : APIKey :=
  match APIKey_RevokedAt k with
  | Some _ => k
  | None => MkAPIKey (APIKey_ID k) (APIKey_CustomerID k) (APIKey_Name k) (APIKey_KeyPrefix k) (APIKey_KeyHash k)
              (APIKey_CreatedBy k) (APIKey_CreatedAt k) (APIKey_ExpiresAt k) (Some now) (APIKey_LastUsedAt k)
  end.

Definition delete_customer_row (now : Z) (c : Customer) : Customer :=
  MkCustomer (Customer_ID c) (Customer_Slug c) (Customer_Name c) (Customer_ClientID c) CustomerDeleted
    (Customer_Region c) (Customer_RateLimitItemsPerSec c) (Customer_RetentionDays c) (Customer_CreatedAt c) now.

Definition pg_SoftDeleteCustomer (now : Z) (id : N) (entries : list AuditEntry)
  : DB -> result unit store_err * DB :=
  inTx (c <- tx_read (pg_GetCustomer id) ;;
        tx_exec (set_customers (<[id := delete_customer_row now c]>)) ;;
        tx_exec (set_api_keys (fmap (fun k => if decide (APIKey_CustomerID k = id) then revoke_key now k else k))) ;;
        audit_Write entries).

Definition pg_CountActiveCustomers (d : DB) : Z :=
  Z.of_nat (length (rows (t_customers d) (fun c => bool_decide (Customer_Status c = CustomerActive)))).

Definition pg_ListCustomerRefs (d : DB) : list CustomerRef :=
  (fun c => MkCustomerRef (Customer_ID c) (Customer_Name c) (Customer_ClientID c))
    <$> rows (t_customers d) (fun _ => true).

(** ** Ingest keys *)

Definition key_before (a b : APIKey) : bool :=
  (APIKey_CreatedAt a <? APIKey_CreatedAt b)%Z
  || (APIKey_CreatedAt a =? APIKey_CreatedAt b)%Z && (APIKey_ID a <? APIKey_ID b)%N.

Definition pg_ListAPIKeys (customerID : N) (d : DB) : result (list APIKey) store_err :=
  match pg_GetCustomer customerID d with
  | Err e => Err e
  | Ok _ => Ok (sort_by key_before (rows (t_api_keys d) (fun k => bool_decide (APIKey_CustomerID k = customerID))))
  end.

Definition pg_CreateAPIKey (now : Z) (k : NewAPIKey) (entries : list AuditEntry) (d : DB)
  : result APIKey store_err * DB :=
  match pg_GetCustomer (NewAPIKey_CustomerID k) d with
  | Err e => (Err e, d)
  | Ok _ => inTx (key <- insertAPIKey now k ;; audit_Write entries ;; tx_ret key) d
  end.

Definition pg_RevokeAPIKey (now : Z) (customerID keyID : N) (entries : list AuditEntry)
  : DB -> result unit store_err * DB :=
  inTx (k <- tx_read (fun d => match t_api_keys d !! keyID with
                               | Some k => if decide (APIKey_CustomerID k = customerID) then Ok k else Err ErrNotFound
                               | None => Err ErrNotFound
                               end) ;;
        tx_exec (set_api_keys (<[keyID := revoke_key now k]>)) ;;
        audit_Write entries).

(** The join of keys with their customers; COALESCE of the quota. *)
Definition auth_key_of (c : Customer) (k : APIKey) : AuthKey :=
  MkAuthKey (APIKey_ID k) (APIKey_CustomerID k) (Customer_ClientID c) (APIKey_KeyHash k) (Customer_Status c)
    (APIKey_ExpiresAt k) (default 0%Z (Customer_RateLimitItemsPerSec c)).

Definition pg_ActiveKeysByPrefix (prefix : string) (d : DB) : list AuthKey :=
  omap (fun k => (fun c => auth_key_of c k) <$> t_customers d !! APIKey_CustomerID k)
    (rows (t_api_keys d) (fun k => bool_decide (APIKey_KeyPrefix k = prefix)
                                   && bool_decide (APIKey_RevokedAt k = None))).

Definition touch_key (ts : Z) (k : APIKey) : APIKey :=
  MkAPIKey (APIKey_ID k) (APIKey_CustomerID k) (APIKey_Name k) (APIKey_KeyPrefix k) (APIKey_KeyHash k)
    (APIKey_CreatedBy k) (APIKey_CreatedAt k) (APIKey_ExpiresAt k) (APIKey_RevokedAt k)
    (Some (Z.max (default 0%Z (APIKey_LastUsedAt k)) ts)).

(** One UPDATE per id of the batch. *)
Definition pg_TouchAPIKeys (usages : gmap N Z) (d : DB) : DB :=
  set_api_keys (fun m => merge (fun k ts => match k, ts with
                                            | Some k, Some ts => Some (touch_key ts k)
                                            | k, _ => k
                                            end) m usages) d.

(** ** API tokens *)

Definition with_email (d : DB) (t : APIToken) : APIToken :=
  MkAPIToken (APIToken_ID t) (APIToken_Name t) (APIToken_TokenPrefix t) (APIToken_Role t) (APIToken_CreatedBy t)
    (u ← APIToken_CreatedBy t; User_Email <$> t_users d !! u)
    (APIToken_CreatedAt t) (APIToken_ExpiresAt t) (APIToken_RevokedAt t) (APIToken_LastUsedAt t).

Definition insert_api_token (now : Z) (t : NewAPIToken) : tx unit := fun d =>
  let row := MkAPIToken (NewAPIToken_ID t) (NewAPIToken_Name t) (NewAPIToken_TokenPrefix t) (NewAPIToken_Role t)
               (NewAPIToken_CreatedBy t) None now (NewAPIToken_ExpiresAt t) None None in
  if bool_decide (is_Some (t_api_tokens d !! NewAPIToken_ID t))
     || negb (bool_decide (NewAPIToken_Role t ∈ ["admin"; "operator"; "viewer"]))
     || negb (user_ref_ok (NewAPIToken_CreatedBy t) d)
  then Err (ErrOther "insert api token")
  else Ok (tt, set_api_tokens (<[NewAPIToken_ID t := MkAPITokenRow row (NewAPIToken_TokenHash t)]>) d).

Definition pg_CreateAPIToken (now : Z) (t : NewAPIToken) (entries : list AuditEntry)
  : DB -> result APIToken store_err * DB :=
  inTx (insert_api_token now t ;;
        audit_Write entries ;;
        tx_read (fun d => match t_api_tokens d !! NewAPIToken_ID t with
                          | Some r => Ok (with_email d (at_token r))
                          | None => Err (ErrOther "no rows")
                          end)).

(** [ORDER BY created_at DESC]. *)
Definition pg_ListAPITokens (d : DB) : list APIToken :=
  sort_by (fun a b => (APIToken_CreatedAt b <? APIToken_CreatedAt a)%Z)
    ((fun r => with_email d (at_token r)) <$> rows (t_api_tokens d) (fun _ => true)).

Definition revoke_token_row (now : Z) (r : api_token_row) : api_token_row :=
  let t := at_token r in
  match APIToken_RevokedAt t with
  | Some _ => r
  | None => MkAPITokenRow (MkAPIToken (APIToken_ID t) (APIToken_Name t) (APIToken_TokenPrefix t) (APIToken_Role t)
              (APIToken_CreatedBy t) (APIToken_CreatedByEmail t) (APIToken_CreatedAt t) (APIToken_ExpiresAt t)
              (Some now) (APIToken_LastUsedAt t)) (at_hash r)
  end.

Definition pg_RevokeAPIToken (now : Z) (id : N) (entries : list AuditEntry)
  : DB -> result unit store_err * DB :=
  inTx (r <- tx_read (fun d => match t_api_tokens d !! id with Some r => Ok r | None => Err ErrNotFound end) ;;
        tx_exec (set_api_tokens (<[id := revoke_token_row now r]>)) ;;
        audit_Write entries).

Definition pg_ActiveAPITokensByPrefix (prefix : string) (d : DB) : list APITokenAuth :=
  (fun r => let t := at_token r in
     MkAPITokenAuth (APIToken_ID t) (APIToken_Role t) (APIToken_CreatedBy t) (at_hash r) (APIToken_ExpiresAt t))
    <$> rows (t_api_tokens d) (fun r => bool_decide (APIToken_TokenPrefix (at_token r) = prefix)
                                        && bool_decide (APIToken_RevokedAt (at_token r) = None)).

(** ** The invariant of the core tables *)

Definition core_wf (d : DB) : Prop :=
  (forall i c, t_customers d !! i = Some c -> Customer_ID c = i /\ customer_check c = true) /\
  (forall i j c c', t_customers d !! i = Some c -> t_customers d !! j = Some c' ->
     Customer_Slug c = Customer_Slug c' \/ Customer_ClientID c = Customer_ClientID c' -> i = j) /\
  (forall i k, t_api_keys d !! i = Some k -> APIKey_ID k = i /\ is_Some (t_customers d !! APIKey_CustomerID k)).

Lemma inTx_Ok {A} (f : tx A) d a d' : inTx f d = (Ok a, d') -> f d = Ok (a, d').
Proof. unfold inTx. by destruct (f d) as [[? ?]|] eqn:?; intros [= <- <-]. Qed.

Lemma inTx_Err {A} (f : tx A) d e d' : inTx f d = (Err e, d') -> d' = d.
Proof. unfold inTx. destruct (f d) as [[? ?]|]; [done|]. by intros [= _ <-]. Qed.

Lemma tx_read_Ok {A} (q : DB -> result A store_err) d a d' : tx_read q d = Ok (a, d') -> q d = Ok a /\ d' = d.
Proof. unfold tx_read. destruct (q d); [|done]. by intros [= -> ->]. Qed.

Lemma tx_bind_Ok {A B} (m : tx A) (k : A -> tx B) d b d' : tx_bind m k d = Ok (b, d') ->
  exists a d1, m d = Ok (a, d1) /\ k a d1 = Ok (b, d').
Proof. unfold tx_bind. destruct (m d) as [[a d1]|]; [|done]. eauto. Qed.

(** Splitting a transaction into its statements. *)
Ltac tx_split H :=
  repeat match type of H with
  | tx_bind _ _ _ = Ok _ =>
      let a := fresh "a" in let d := fresh "d" in let Hs := fresh "Hs" in
      apply tx_bind_Ok in H as (a & d & Hs & H)
  end.

Lemma inTx_keeps {A} (P : DB -> Prop) (f : tx A) d :
  (forall a d', P d -> f d = Ok (a, d') -> P d') -> P d -> P (inTx f d).2.
Proof. intros Hf Hp. unfold inTx. destruct (f d) as [[a d']|e] eqn:Hd; [by eapply Hf|done]. Qed.

Lemma slug_taken_false slug m : slug_taken slug m = false <-> forall i c, m !! i = Some c -> Customer_Slug c <> slug.
Proof.
  unfold slug_taken. rewrite <- not_true_iff_false, existsb_exists. split.
  - intros H i c Hi Hs. apply H. exists (i, c). split; [|by apply bool_decide_eq_true].
    by apply list_elem_of_In, elem_of_map_to_list.
  - intros H ([i c] & Hin & Hs). apply bool_decide_eq_true in Hs. simpl in Hs.
    apply list_elem_of_In, elem_of_map_to_list in Hin. by apply (H i c).
Qed.

Lemma client_id_taken_false cid m : client_id_taken cid m = false <-> forall i c, m !! i = Some c -> Customer_ClientID c <> cid.
Proof.
  unfold client_id_taken. rewrite <- not_true_iff_false, existsb_exists. split.
  - intros H i c Hi Hs. apply H. exists (i, c). split; [|by apply bool_decide_eq_true].
    by apply list_elem_of_In, elem_of_map_to_list.
  - intros H ([i c] & Hin & Hs). apply bool_decide_eq_true in Hs. simpl in Hs.
    apply list_elem_of_In, elem_of_map_to_list in Hin. by apply (H i c).
Qed.

(** What inserting a customer does, and when it is refused. *)
Lemma insert_customer_Ok now c d row d' : insert_customer now c d = Ok (row, d') ->
  row = MkCustomer (NewCustomer_ID c) (NewCustomer_Slug c) (NewCustomer_Name c) (NewCustomer_ClientID c)
          CustomerActive (NewCustomer_Region c) None None now now
  /\ d' = set_customers (<[NewCustomer_ID c := row]>) d /\ t_customers d !! NewCustomer_ID c = None
  /\ (forall i c', t_customers d !! i = Some c' ->
        Customer_Slug c' <> NewCustomer_Slug c /\ Customer_ClientID c' <> NewCustomer_ClientID c).
Proof.
  unfold insert_customer. case_bool_decide as Hn; [done|].
  destruct (slug_taken _ _) eqn:Hs; [done|]. destruct (client_id_taken _ _) eqn:Hc; [done|].
  rewrite slug_taken_false in Hs. rewrite client_id_taken_false in Hc. intros [= <- <-].
  split_and!; try done; [by apply eq_None_not_Some|]. eauto.
Qed.

Lemma core_wf_ext d d' : t_customers d' = t_customers d -> t_api_keys d' = t_api_keys d -> core_wf d -> core_wf d'.
Proof. unfold core_wf. intros -> ->. done. Qed.

Lemma insert_customer_wf now c d row d' : core_wf d -> insert_customer now c d = Ok (row, d') -> core_wf d'.
Proof.
  intros (H1 & H2 & H3) (-> & -> & Hn & Hfresh)%insert_customer_Ok. split_and!; simpl.
  - intros i c'. rewrite lookup_insert_Some. intros [[<- <-]|[_ ?]]; [done|by apply H1].
  - intros i j c1 c2. rewrite !lookup_insert_Some.
    intros [[<- <-]|[? Hi]] [[<- <-]|[? Hj]] Heq; try done; simpl in Heq.
    + destruct (Hfresh j c2 Hj). destruct Heq; congruence.
    + destruct (Hfresh i c1 Hi). destruct Heq; congruence.
    + by eapply H2.
  - intros i k Hi. destruct (H3 i k Hi) as [? [x Hx]]. split; [done|].
    destruct (decide (NewCustomer_ID c = APIKey_CustomerID k)) as [->|]; [by rewrite lookup_insert_eq|].
    by rewrite lookup_insert_ne.
Qed.

Lemma insertAPIKey_wf now k d row d' : core_wf d -> insertAPIKey now k d = Ok (row, d') -> core_wf d'.
Proof.
  unfold insertAPIKey. intros (H1 & H2 & H3). destruct (bool_decide _); [done|].
  case_bool_decide as Hc; [|done]. simpl. destruct (user_ref_ok _ _); [|done]. simpl. intros [= <- <-]. split_and!; simpl; [done..|].
  intros i k'. rewrite lookup_insert_Some. intros [[<- <-]|[_ ?]]; [done|by apply H3].
Qed.

(** Replacing a customer row by one with the same identity. *)
Lemma replace_customer_wf i c c' d : core_wf d -> t_customers d !! i = Some c ->
  Customer_ID c' = Customer_ID c -> Customer_Slug c' = Customer_Slug c -> Customer_ClientID c' = Customer_ClientID c ->
  customer_check c' = true -> core_wf (set_customers (<[i := c']>) d).
Proof.
  intros (H1 & H2 & H3) Hi Hid Hs Hcl Hck. destruct (H1 i c Hi) as [Hci _]. split_and!; simpl.
  - intros j x. rewrite lookup_insert_Some. intros [[<- <-]|[_ ?]]; [split; [congruence|done]|by apply H1].
  - intros j1 j2 x1 x2. rewrite !lookup_insert_Some.
    intros [[<- <-]|[? Hj1]] [[<- <-]|[? Hj2]] Heq; try done.
    + rewrite Hs, Hcl in Heq. by eapply H2.
    + rewrite Hs, Hcl in Heq. by eapply H2.
    + by eapply H2.
  - intros j k Hj. destruct (H3 j k Hj) as [? [x Hx]]. split; [done|].
    destruct (decide (i = APIKey_CustomerID k)) as [->|]; [by rewrite lookup_insert_eq|by rewrite lookup_insert_ne].
Qed.

(** Rewriting key rows without touching their identity or owner. *)
Lemma map_keys_wf (f : gmap N APIKey -> gmap N APIKey) d : core_wf d ->
  (forall i k, f (t_api_keys d) !! i = Some k -> exists k0, t_api_keys d !! i = Some k0
     /\ APIKey_ID k = APIKey_ID k0 /\ APIKey_CustomerID k = APIKey_CustomerID k0) -> core_wf (set_api_keys f d).
Proof.
  intros (H1 & H2 & H3) Hf. split_and!; simpl; [done..|]. intros i k Hi.
  destruct (Hf i k Hi) as (k0 & Hk0 & -> & ->). by apply H3.
Qed.

Lemma revoke_key_id now k : APIKey_ID (revoke_key now k) = APIKey_ID k
  /\ APIKey_CustomerID (revoke_key now k) = APIKey_CustomerID k.
Proof. unfold revoke_key. by destruct (APIKey_RevokedAt k). Qed.

Lemma delete_customer_row_check now c : customer_check c = true -> customer_check (delete_customer_row now c) = true.
Proof. unfold customer_check. simpl. intros H. apply andb_prop in H as [H ->]. apply andb_prop in H as [_ ->]. done. Qed.

Lemma pg_GetCustomer_Ok id d c : pg_GetCustomer id d = Ok c -> t_customers d !! id = Some c /\ Customer_Status c <> CustomerDeleted.
Proof.
  unfold pg_GetCustomer. destruct (t_customers d !! id) as [c'|]; [|done]. case_decide; [done|].
  intros [= <-]. done.
Qed.

(** The operations on customers and ingest keys keep the tables consistent:
    rows are stored under their id and meet their CHECK constraints, slugs and
    client ids are unique, and every key belongs to a customer. *)
Theorem core_tables_invariant d : core_wf d ->
  (forall now c k es, core_wf (pg_CreateCustomer now c k es d).2) /\
  (forall now id upd es, core_wf (pg_UpdateCustomer now id upd es d).2) /\
  (forall now id es, core_wf (pg_SoftDeleteCustomer now id es d).2) /\
  (forall now k es, core_wf (pg_CreateAPIKey now k es d).2) /\
  (forall now c k es, core_wf (pg_RevokeAPIKey now c k es d).2) /\
  (forall us, core_wf (pg_TouchAPIKeys us d)).
Proof.
  intros Hwf. split_and!; intros.
  - unfold pg_CreateCustomer. apply (inTx_keeps core_wf); [|done]. intros [cu ke] d' H. unfold tx_bind, audit_Write, tx_exec, tx_ret.
    destruct (insert_customer now c d) as [[r1 d1]|] eqn:H1; [|done].
    destruct (insertAPIKey now k d1) as [[r2 d2]|] eqn:H2; [|done]. intros [= _ _ <-].
    eapply (core_wf_ext d2); [done..|]. eapply insertAPIKey_wf, H2. by eapply insert_customer_wf.
  - apply (inTx_keeps core_wf); [|done]. intros cu d' H. unfold tx_bind, audit_Write, tx_exec, tx_ret, tx_read, tx_check.
    destruct (pg_GetCustomer id d) as [c|] eqn:Hg; [|done]. destruct (customer_check _) eqn:Hck; [|done].
    intros [= _ <-]. apply pg_GetCustomer_Ok in Hg as [Hg _].
    eapply (core_wf_ext (set_customers (<[id := apply_update now upd c]>) d)); [done..|].
    by eapply replace_customer_wf.
  - apply (inTx_keeps core_wf); [|done]. intros cu d' H. unfold tx_bind, audit_Write, tx_exec, tx_ret, tx_read.
    destruct (pg_GetCustomer id d) as [c|] eqn:Hg; [|done]. intros [= _ <-]. apply pg_GetCustomer_Ok in Hg as [Hg _].
    eapply core_wf_ext; [done..|]. eapply map_keys_wf with (d := set_customers (<[id := delete_customer_row now c]>) d).
    + eapply replace_customer_wf; try done. apply delete_customer_row_check. by apply (proj1 Hwf) in Hg as [_ ?].
    + intros i k. simpl. rewrite lookup_fmap_Some. intros (k0 & <- & Hk0). exists k0. split; [done|].
      case_decide; [apply revoke_key_id|done].
  - unfold pg_CreateAPIKey. destruct (pg_GetCustomer _ d); [|done].
    apply (inTx_keeps core_wf); [|done]. intros ke d' H. unfold tx_bind, audit_Write, tx_exec, tx_ret.
    destruct (insertAPIKey now k d) as [[r2 d2]|] eqn:H2; [|done]. intros [= _ <-].
    eapply (core_wf_ext d2); [done..|]. by eapply insertAPIKey_wf.
  - apply (inTx_keeps core_wf); [|done]. intros cu d' H. unfold tx_bind, audit_Write, tx_exec, tx_ret, tx_read.
    destruct (t_api_keys d !! k) as [k0|] eqn:Hk0; [|done]. case_decide; [|done]. intros [= _ <-].
    eapply core_wf_ext; [done..|]. eapply map_keys_wf with (d := d); [done|].
    intros i k1. rewrite lookup_insert_Some. intros [[<- <-]|[_ Hi]]; [|by exists k1].
    exists k0. split; [done|]. apply revoke_key_id.
  - apply map_keys_wf; [done|]. intros i k1. rewrite lookup_merge. unfold diag_None.
    destruct (t_api_keys d !! i) as [k0|], (us !! i) as [ts|]; intros [= <-]; by eexists.
Qed.

Lemma core_tables_invariant_witness : core_wf (pg_RevokeAPIKey 5%Z 1%N 1%N [] empty_db).2.
Proof.
  refine (proj1 (proj2 (proj2 (proj2 (proj2 (core_tables_invariant empty_db _))))) 5%Z 1%N 1%N []).
  split_and!; intros i; intros *; simpl; rewrite lookup_empty; discriminate.
Defined.
