(* ===== verification/PgFleet.v ===== *)
(** The PostgreSQL store, fleet part (internal/store/pg_fleet.go): enrollment
    tokens, agents and their events. *)
From S2P Require Import Prelude GoStrings Json StoreTypes PgCore.

Open Scope string_scope.
Open Scope tx_scope.

(** ** Enrollment tokens *)

Definition token_before (a b : BootstrapToken) : bool :=
  (BootstrapToken_CreatedAt b <? BootstrapToken_CreatedAt a)%Z
  || (BootstrapToken_CreatedAt a =? BootstrapToken_CreatedAt b)%Z && (BootstrapToken_ID a <? BootstrapToken_ID b)%N.

Definition pg_ListBootstrapTokens (customerID : N) (d : DB) : result (list BootstrapToken) store_err :=
  match pg_GetCustomer customerID d with
  | Err e => Err e
  | Ok _ => Ok (sort_by token_before
                  (rows (t_bootstrap_tokens d) (fun t => bool_decide (BootstrapToken_CustomerID t = customerID))))
  end.

Definition insert_bootstrap_token (now : Z) (t : NewBootstrapToken) : tx BootstrapToken := fun d =>
  let row := MkBootstrapToken (NewBootstrapToken_ID t) (NewBootstrapToken_CustomerID t) (NewBootstrapToken_Name t)
               (NewBootstrapToken_TokenPrefix t) (NewBootstrapToken_TokenHash t) (NewBootstrapToken_MaxUses t) 0
               (NewBootstrapToken_CreatedBy t) now (NewBootstrapToken_ExpiresAt t) None in
  if bool_decide (is_Some (t_bootstrap_tokens d !! NewBootstrapToken_ID t))
     || negb (bool_decide (is_Some (t_customers d !! NewBootstrapToken_CustomerID t)))
     || negb (user_ref_ok (NewBootstrapToken_CreatedBy t) d)
  then Err (ErrOther "insert bootstrap token")
  else Ok (row, set_bootstrap_tokens (<[NewBootstrapToken_ID t := row]>) d).

Definition pg_CreateBootstrapToken (now : Z) (t : NewBootstrapToken) (entries : list AuditEntry) (d : DB)
  : result BootstrapToken store_err * DB :=
  match pg_GetCustomer (NewBootstrapToken_CustomerID t) d with
  | Err e => (Err e, d)
  | Ok _ => inTx (tok <- insert_bootstrap_token now t ;; audit_Write entries ;; tx_ret tok) d
  end.

Definition revoke_bootstrap (now : Z) (t : BootstrapToken) : BootstrapToken :=
  match BootstrapToken_RevokedAt t with
  | Some _ => t
  | None => MkBootstrapToken (BootstrapToken_ID t) (BootstrapToken_CustomerID t) (BootstrapToken_Name t)
              (BootstrapToken_TokenPrefix t) (BootstrapToken_TokenHash t) (BootstrapToken_MaxUses t)
              (BootstrapToken_UsedCount t) (BootstrapToken_CreatedBy t) (BootstrapToken_CreatedAt t)
              (BootstrapToken_ExpiresAt t) (Some now)
  end.

Definition pg_RevokeBootstrapToken (now : Z) (customerID tokenID : N) (entries : list AuditEntry)
  : DB -> result unit store_err * DB :=
  inTx (t <- tx_read (fun d => match t_bootstrap_tokens d !! tokenID with
                               | Some t => if decide (BootstrapToken_CustomerID t = customerID)
                                           then Ok t else Err ErrNotFound
                               | None => Err ErrNotFound
                               end) ;;
        tx_exec (set_bootstrap_tokens (<[tokenID := revoke_bootstrap now t]>)) ;;
        audit_Write entries).

Definition enroll_token_of (c : Customer) (t : BootstrapToken) : EnrollToken :=
  MkEnrollToken (BootstrapToken_ID t) (BootstrapToken_CustomerID t) (BootstrapToken_TokenHash t)
    (BootstrapToken_MaxUses t) (BootstrapToken_UsedCount t) (BootstrapToken_ExpiresAt t) (Customer_Status c).

Definition pg_ActiveBootstrapTokensByPrefix (prefix : string) (d : DB) : list EnrollToken :=
  omap (fun t => (fun c => enroll_token_of c t) <$> t_customers d !! BootstrapToken_CustomerID t)
    (rows (t_bootstrap_tokens d) (fun t => bool_decide (BootstrapToken_TokenPrefix t = prefix)
                                           && bool_decide (BootstrapToken_RevokedAt t = None))).

Definition use_token (t : BootstrapToken) : BootstrapToken :=
  MkBootstrapToken (BootstrapToken_ID t) (BootstrapToken_CustomerID t) (BootstrapToken_Name t)
    (BootstrapToken_TokenPrefix t) (BootstrapToken_TokenHash t) (BootstrapToken_MaxUses t)
    (BootstrapToken_UsedCount t + 1) (BootstrapToken_CreatedBy t) (BootstrapToken_CreatedAt t)
    (BootstrapToken_ExpiresAt t) (BootstrapToken_RevokedAt t).

(** ** Agent rows: the columns each statement sets *)

Definition agent_with_customer (customerName : option string) (a : Agent) : Agent :=
  MkAgent (Agent_ID a) (Agent_InstanceUID a) (Agent_CustomerID a) customerName (Agent_Class a) (Agent_Name a)
    (Agent_DisplayName a) (Agent_Labels a) (Agent_AgentVersion a) (Agent_Description a) (Agent_Capabilities a)
    (Agent_AssignedConfigHash a) (Agent_ReportedConfigHash a) (Agent_AckedConfigHash a)
    (Agent_ReportedConfigYAML a) (Agent_RemoteConfigStatus a) (Agent_RemoteConfigError a) (Agent_Health a)
    (Agent_Healthy a) (Agent_Connected a) (Agent_LastSeenAt a) (Agent_EnrolledVia a) (Agent_CreatedAt a).

Definition agent_description (name version : option string) (description : option jval) (capabilities : option Z) (a : Agent) : Agent :=
  MkAgent (Agent_ID a) (Agent_InstanceUID a) (Agent_CustomerID a) (Agent_CustomerName a) (Agent_Class a) name
    (Agent_DisplayName a) (Agent_Labels a) version description
    (match capabilities with Some c => Some c | None => Agent_Capabilities a end) (Agent_AssignedConfigHash a)
    (Agent_ReportedConfigHash a) (Agent_AckedConfigHash a) (Agent_ReportedConfigYAML a)
    (Agent_RemoteConfigStatus a) (Agent_RemoteConfigError a) (Agent_Health a) (Agent_Healthy a)
    (Agent_Connected a) (Agent_LastSeenAt a) (Agent_EnrolledVia a) (Agent_CreatedAt a).

Definition agent_meta (displayName : option string) (labels : option jval) (a : Agent) : Agent :=
  MkAgent (Agent_ID a) (Agent_InstanceUID a) (Agent_CustomerID a) (Agent_CustomerName a) (Agent_Class a)
    (Agent_Name a) displayName (match labels with Some l => Some l | None => Agent_Labels a end)
    (Agent_AgentVersion a) (Agent_Description a) (Agent_Capabilities a) (Agent_AssignedConfigHash a)
    (Agent_ReportedConfigHash a) (Agent_AckedConfigHash a) (Agent_ReportedConfigYAML a)
    (Agent_RemoteConfigStatus a) (Agent_RemoteConfigError a) (Agent_Health a) (Agent_Healthy a)
    (Agent_Connected a) (Agent_LastSeenAt a) (Agent_EnrolledVia a) (Agent_CreatedAt a).

Definition agent_connected (connected : bool) (at_ : Z) (a : Agent) : Agent :=
  MkAgent (Agent_ID a) (Agent_InstanceUID a) (Agent_CustomerID a) (Agent_CustomerName a) (Agent_Class a)
    (Agent_Name a) (Agent_DisplayName a) (Agent_Labels a) (Agent_AgentVersion a) (Agent_Description a)
    (Agent_Capabilities a) (Agent_AssignedConfigHash a) (Agent_ReportedConfigHash a) (Agent_AckedConfigHash a)
    (Agent_ReportedConfigYAML a) (Agent_RemoteConfigStatus a) (Agent_RemoteConfigError a) (Agent_Health a)
    (Agent_Healthy a) connected (Some (Z.max (default 0%Z (Agent_LastSeenAt a)) at_)) (Agent_EnrolledVia a)
    (Agent_CreatedAt a).

Definition agent_assigned (hash : option string) (a : Agent) : Agent :=
  MkAgent (Agent_ID a) (Agent_InstanceUID a) (Agent_CustomerID a) (Agent_CustomerName a) (Agent_Class a)
    (Agent_Name a) (Agent_DisplayName a) (Agent_Labels a) (Agent_AgentVersion a) (Agent_Description a)
    (Agent_Capabilities a) hash (Agent_ReportedConfigHash a) (Agent_AckedConfigHash a)
    (Agent_ReportedConfigYAML a) (Agent_RemoteConfigStatus a) (Agent_RemoteConfigError a) (Agent_Health a)
    (Agent_Healthy a) (Agent_Connected a) (Agent_LastSeenAt a) (Agent_EnrolledVia a) (Agent_CreatedAt a).

Definition agent_acked (hash : option string) (a : Agent) : Agent :=
  MkAgent (Agent_ID a) (Agent_InstanceUID a) (Agent_CustomerID a) (Agent_CustomerName a) (Agent_Class a)
    (Agent_Name a) (Agent_DisplayName a) (Agent_Labels a) (Agent_AgentVersion a) (Agent_Description a)
    (Agent_Capabilities a) (Agent_AssignedConfigHash a) (Agent_ReportedConfigHash a) hash
    (Agent_ReportedConfigYAML a) (Agent_RemoteConfigStatus a) (Agent_RemoteConfigError a) (Agent_Health a)
    (Agent_Healthy a) (Agent_Connected a) (Agent_LastSeenAt a) (Agent_EnrolledVia a) (Agent_CreatedAt a).

Definition agent_effective (yaml hash : string) (a : Agent) : Agent :=
  MkAgent (Agent_ID a) (Agent_InstanceUID a) (Agent_CustomerID a) (Agent_CustomerName a) (Agent_Class a)
    (Agent_Name a) (Agent_DisplayName a) (Agent_Labels a) (Agent_AgentVersion a) (Agent_Description a)
    (Agent_Capabilities a) (Agent_AssignedConfigHash a) (Some hash) (Agent_AckedConfigHash a) (Some yaml)
    (Agent_RemoteConfigStatus a) (Agent_RemoteConfigError a) (Agent_Health a) (Agent_Healthy a)
    (Agent_Connected a) (Agent_LastSeenAt a) (Agent_EnrolledVia a) (Agent_CreatedAt a).

Definition agent_remote_status (status : string) (err : option string) (a : Agent) : Agent :=
  MkAgent (Agent_ID a) (Agent_InstanceUID a) (Agent_CustomerID a) (Agent_CustomerName a) (Agent_Class a)
    (Agent_Name a) (Agent_DisplayName a) (Agent_Labels a) (Agent_AgentVersion a) (Agent_Description a)
    (Agent_Capabilities a) (Agent_AssignedConfigHash a) (Agent_ReportedConfigHash a) (Agent_AckedConfigHash a)
    (Agent_ReportedConfigYAML a) status err (Agent_Health a) (Agent_Healthy a) (Agent_Connected a)
    (Agent_LastSeenAt a) (Agent_EnrolledVia a) (Agent_CreatedAt a).

Definition agent_health (health : option jval) (healthy : bool) (a : Agent) : Agent :=
  MkAgent (Agent_ID a) (Agent_InstanceUID a) (Agent_CustomerID a) (Agent_CustomerName a) (Agent_Class a)
    (Agent_Name a) (Agent_DisplayName a) (Agent_Labels a) (Agent_AgentVersion a) (Agent_Description a)
    (Agent_Capabilities a) (Agent_AssignedConfigHash a) (Agent_ReportedConfigHash a) (Agent_AckedConfigHash a)
    (Agent_ReportedConfigYAML a) (Agent_RemoteConfigStatus a) (Agent_RemoteConfigError a) health (Some healthy)
    (Agent_Connected a) (Agent_LastSeenAt a) (Agent_EnrolledVia a) (Agent_CreatedAt a).

Definition agent_seen (ts : Z) (a : Agent) : Agent :=
  MkAgent (Agent_ID a) (Agent_InstanceUID a) (Agent_CustomerID a) (Agent_CustomerName a) (Agent_Class a)
    (Agent_Name a) (Agent_DisplayName a) (Agent_Labels a) (Agent_AgentVersion a) (Agent_Description a)
    (Agent_Capabilities a) (Agent_AssignedConfigHash a) (Agent_ReportedConfigHash a) (Agent_AckedConfigHash a)
    (Agent_ReportedConfigYAML a) (Agent_RemoteConfigStatus a) (Agent_RemoteConfigError a) (Agent_Health a)
    (Agent_Healthy a) (Agent_Connected a) (Some (Z.max (default 0%Z (Agent_LastSeenAt a)) ts))
    (Agent_EnrolledVia a) (Agent_CreatedAt a).

(** ** Agents *)

(** The LEFT JOIN with the customer's name. *)
Definition select_agent (d : DB) (r : agent_row) : Agent :=
  agent_with_customer (c ← Agent_CustomerID (ag_agent r); Customer_Name <$> t_customers d !! c) (ag_agent r).

Definition event_check (eventType : string) : bool :=
  bool_decide (eventType ∈ [AgentEventEnrolled; AgentEventConnected; AgentEventDisconnected;
    AgentEventConfigApplied; AgentEventConfigFailed; AgentEventHealthy; AgentEventUnhealthy]).

Definition insertAgentEvent (now : Z) (agentID : N) (eventType : string) (detail : option jval) : tx unit := fun d =>
  if event_check eventType && bool_decide (is_Some (t_agents d !! agentID))
  then Ok (tt, set_events (fun l => l ++ [MkAgentEvent (t_event_seq d) agentID eventType detail now])%list
                 (t_event_seq d + 1) d)
  else Err (ErrOther "insert agent event").

Definition uid_taken (uid : string) (m : gmap N agent_row) : bool :=
  existsb (fun p => bool_decide (Agent_InstanceUID (ag_agent p.2) = uid)) (map_to_list m).

Definition insert_agent (now : Z) (a : NewAgent) : tx unit := fun d =>
  let row := MkAgent (NewAgent_ID a) (NewAgent_InstanceUID a) (Some (NewAgent_CustomerID a)) None (NewAgent_Class a)
               (NewAgent_Name a) None (Some (JObj [])) (NewAgent_AgentVersion a) (NewAgent_Description a)
               (Some (NewAgent_Capabilities a)) None None None None RemoteConfigUnset None None None false
               (Some now) (Some (NewAgent_EnrolledVia a)) now in
  if bool_decide (is_Some (t_agents d !! NewAgent_ID a)) then Err (ErrOther "insert agent")
  else if uid_taken (NewAgent_InstanceUID a) (t_agents d) then Err ErrConflict
  else if negb (bool_decide (NewAgent_Class a ∈ [AgentClassGateway; AgentClassEdge]))
          || negb (bool_decide (is_Some (t_customers d !! NewAgent_CustomerID a)))
          || negb (bool_decide (is_Some (t_bootstrap_tokens d !! NewAgent_EnrolledVia a)))
  then Err (ErrOther "insert agent")
  else Ok (tt, set_agents (<[NewAgent_ID a := MkAgentRow row None None None]>) d).

Definition read_agent (id : N) : tx Agent :=
  tx_read (fun d => match t_agents d !! id with
                    | Some r => Ok (select_agent d r)
                    | None => Err (ErrOther "read back agent")
                    end).

Definition pg_EnrollAgent (uuid_string : N -> string) (now : Z) (a : NewAgent) : DB -> result Agent store_err * DB :=
  inTx (insert_agent now a ;;
        tx_exec (set_bootstrap_tokens (alter use_token (NewAgent_EnrolledVia a))) ;;
        insertAgentEvent now (NewAgent_ID a) AgentEventEnrolled
          (Some (JObj [("token", JStr (uuid_string (NewAgent_EnrolledVia a)))])) ;;
        read_agent (NewAgent_ID a)).

Definition pg_GetAgent (id : N) (d : DB) : result Agent store_err :=
  match t_agents d !! id with
  | Some r => Ok (select_agent d r)
  | None => Err ErrNotFound
  end.

Definition pg_GetAgentByInstanceUID (uid : string) (d : DB) : result Agent store_err :=
  match rows (t_agents d) (fun r => bool_decide (Agent_InstanceUID (ag_agent r) = uid)) with
  | r :: _ => Ok (select_agent d r)
  | [] => Err ErrNotFound
  end.

Definition pg_AgentsByTokenPrefix (prefix : string) (d : DB) : list AgentAuth :=
  omap (fun r =>
          cid ← Agent_CustomerID (ag_agent r);
          c ← t_customers d !! cid;
          if decide (Customer_Status c = CustomerDeleted) then None
          else Some (MkAgentAuth (Agent_ID (ag_agent r)) cid (Agent_InstanceUID (ag_agent r))
                       (default "" (ag_token_hash r)) (Customer_Status c)))
    (rows (t_agents d) (fun r => bool_decide (ag_token_prefix r = Some prefix))).

Definition pg_SetAgentToken (id : N) (prefix hash : string) (at_ : Z) (d : DB) : result unit store_err * DB :=
  (Ok tt, set_agents (alter (fun r => MkAgentRow (ag_agent r) (Some prefix) (Some hash) (Some at_)) id) d).

Definition agent_before (a b : Agent) : bool :=
  (Agent_CreatedAt a <? Agent_CreatedAt b)%Z
  || (Agent_CreatedAt a =? Agent_CreatedAt b)%Z && (Agent_ID a <? Agent_ID b)%N.

Definition opt_matches {A} `{EqDecision A} (want : option A) (have : option A) : bool :=
  match want with None => true | Some _ => bool_decide (have = want) end.

Definition pg_ListAgents (f : AgentFilter) (d : DB) : list Agent :=
  sort_by agent_before
    (select_agent d <$> rows (t_agents d) (fun r =>
       let a := ag_agent r in
       opt_matches (AgentFilter_Class f) (Some (Agent_Class a))
       && opt_matches (AgentFilter_CustomerID f) (Agent_CustomerID a)
       && opt_matches (AgentFilter_Connected f) (Some (Agent_Connected a)))).

(** The events of a deleted agent go with it. *)
Definition pg_DeleteAgent (id : N) (entries : list AuditEntry) : DB -> result unit store_err * DB :=
  inTx (tx_read (fun d => if bool_decide (is_Some (t_agents d !! id)) then Ok tt else Err ErrNotFound) ;;
        tx_exec (set_agents (delete id)) ;;
        tx_exec (fun d => set_events (filter (fun e => AgentEvent_AgentID e <> id)) (t_event_seq d) d) ;;
        audit_Write entries).

(** UPDATE agents ... WHERE id = $1, failing when there is no such row. *)
Definition update_agent (id : N) (f : Agent -> Agent) : tx unit := fun d =>
  match t_agents d !! id with
  | None => Err ErrNotFound
  | Some r => Ok (tt, set_agents (<[id := MkAgentRow (f (ag_agent r)) (ag_token_prefix r) (ag_token_hash r)
                                            (ag_token_issued_at r)]>) d)
  end.

Definition pg_UpdateAgentDescription (id : N) (name version : option string) (description : option jval)
    (capabilities : option Z) : DB -> result unit store_err * DB :=
  inTx (update_agent id (agent_description name version description capabilities)).

Definition pg_UpdateAgentMeta (id : N) (displayName : option string) (labels : option jval)
    (entries : list AuditEntry) : DB -> result Agent store_err * DB :=
  inTx (update_agent id (agent_meta displayName labels) ;; audit_Write entries ;; read_agent id).

Definition pg_SetAgentConnected (now : Z) (id : N) (connected : bool) (at_ : Z) : DB -> result unit store_err * DB :=
  inTx (update_agent id (agent_connected connected at_) ;;
        insertAgentEvent now id (if connected then AgentEventConnected else AgentEventDisconnected) None).

Definition pg_SetAgentAssignedConfig (id : N) (hash : string) : DB -> result unit store_err * DB :=
  inTx (update_agent id (agent_assigned (Some hash))).

Definition pg_SetAgentAckedConfig (id : N) (hash : option string) : DB -> result unit store_err * DB :=
  inTx (update_agent id (agent_acked hash)).

Definition pg_SetAgentEffectiveConfig (id : N) (yaml hash : string) : DB -> result unit store_err * DB :=
  inTx (update_agent id (agent_effective yaml hash)).

Definition status_check (status : string) : bool :=
  bool_decide (status ∈ [RemoteConfigUnset; RemoteConfigApplying; RemoteConfigApplied; RemoteConfigFailed]).

Definition pg_SetAgentRemoteConfigStatus (now : Z) (id : N) (status : string) (err eventType : option string)
    (detail : option jval) : DB -> result unit store_err * DB :=
  inTx (update_agent id (agent_remote_status status err) ;;
        tx_check (status_check status) (ErrOther "set remote config status") ;;
        match eventType with
        | None => tx_ret tt
        | Some e => insertAgentEvent now id e detail
        end).

Definition pg_SetAgentHealth (now : Z) (id : N) (health : option jval) (healthy : bool) (flipEvent : option string)
  : DB -> result unit store_err * DB :=
  inTx (update_agent id (agent_health health healthy) ;;
        match flipEvent with
        | None => tx_ret tt
        | Some e => insertAgentEvent now id e None
        end).

Definition pg_TouchAgents (seen : gmap N Z) (d : DB) : result unit store_err * DB :=
  (Ok tt, set_agents (fun m => merge (fun r ts => match r, ts with
     | Some r, Some ts => Some (MkAgentRow (agent_seen ts (ag_agent r)) (ag_token_prefix r) (ag_token_hash r)
                                  (ag_token_issued_at r))
     | r, _ => r
     end) m seen) d).

Definition pg_ListAgentEvents (agentID : N) (limit : nat) (d : DB) : result (list AgentEvent) store_err :=
  match pg_GetAgent agentID d with
  | Err e => Err e
  | Ok _ => Ok (take limit (sort_by (fun a b => (AgentEvent_ID b <? AgentEvent_ID a)%Z)
                  (filter (fun e => AgentEvent_AgentID e = agentID) (t_agent_events d))))
  end.

(** ** The invariant of the fleet tables *)

Definition fleet_wf (d : DB) : Prop :=
  (forall i r, t_agents d !! i = Some r ->
     Agent_ID (ag_agent r) = i /\ exists c, Agent_CustomerID (ag_agent r) = Some c /\ is_Some (t_customers d !! c)) /\
  (forall i j r r', t_agents d !! i = Some r -> t_agents d !! j = Some r' ->
     Agent_InstanceUID (ag_agent r) = Agent_InstanceUID (ag_agent r') -> i = j) /\
  Forall (fun e => is_Some (t_agents d !! AgentEvent_AgentID e) /\ (AgentEvent_ID e < t_event_seq d)%Z)
    (t_agent_events d) /\
  StronglySorted Z.lt (AgentEvent_ID <$> t_agent_events d) /\
  (forall i t, t_bootstrap_tokens d !! i = Some t ->
     BootstrapToken_ID t = i /\ is_Some (t_customers d !! BootstrapToken_CustomerID t)
     /\ (0 <= BootstrapToken_UsedCount t)%Z).

(** Steps of a transaction that keep it. *)
Definition keeps {A} (f : tx A) : Prop := forall d a d', fleet_wf d -> f d = Ok (a, d') -> fleet_wf d'.

Lemma keeps_inTx {A} (f : tx A) d : keeps f -> fleet_wf d -> fleet_wf (inTx f d).2.
Proof. intros Hf Hd. apply (inTx_keeps fleet_wf); [|done]. intros a d' ? ?. by eapply Hf. Qed.

Lemma keeps_bind {A B} (m : tx A) (k : A -> tx B) : keeps m -> (forall a, keeps (k a)) -> keeps (tx_bind m k).
Proof.
  intros Hm Hk d b d' Hd. unfold tx_bind. destruct (m d) as [[a d1]|] eqn:Hmd; [|done].
  intros Hkd. eapply Hk, Hkd. by eapply Hm.
Qed.

Lemma keeps_ret {A} (a : A) : keeps (tx_ret a).
Proof. by intros d b d' Hd [= _ <-]. Qed.
Lemma keeps_read {A} (q : DB -> result A store_err) : keeps (tx_read q).
Proof. intros d a d' Hd. unfold tx_read. destruct (q d); [|done]. by intros [= _ <-]. Qed.
Lemma keeps_check b e : keeps (tx_check b e).
Proof. unfold tx_check. destruct b; [apply keeps_ret|done]. Qed.
Lemma keeps_audit es : keeps (audit_Write es).
Proof. intros d a d' Hd [= _ <-]. exact Hd. Qed.

Lemma StronglySorted_snoc (l : list Z) x : StronglySorted Z.lt l -> Forall (fun y => (y < x)%Z) l ->
  StronglySorted Z.lt (l ++ [x])%list.
Proof.
  induction 1 as [|y l Hl IH Hy]; intros Hx; simpl; [repeat constructor|].
  apply Forall_cons in Hx as [Hyx Hx]. constructor; [by apply IH|]. apply Forall_app. split; [done|by constructor].
Qed.

Lemma keeps_event now id e detail : keeps (insertAgentEvent now id e detail).
Proof.
  intros d a d' (H1 & H2 & H3 & H4 & H5). unfold insertAgentEvent.
  destruct (event_check e); [|done]. case_bool_decide as Hid; [|done]. intros [= _ <-].
  split_and!; simpl; [exact H1|exact H2| | |exact H5].
  - apply Forall_app. split; [|constructor; [split; [done|simpl; lia]|done]].
    eapply Forall_impl; [exact H3|]. simpl. intros x [? ?]. split; [done|lia].
  - rewrite fmap_app. apply StronglySorted_snoc; [done|]. apply Forall_fmap.
    eapply Forall_impl; [exact H3|]. by intros x [_ ?].
Qed.

(** Rewriting an agent's columns other than its identity. *)
Lemma update_agent_keeps id f : (forall a, Agent_ID (f a) = Agent_ID a /\ Agent_InstanceUID (f a) = Agent_InstanceUID a
  /\ Agent_CustomerID (f a) = Agent_CustomerID a) -> keeps (update_agent id f).
Proof.
  intros Hf d u d' (H1 & H2 & H3 & H4 & H5). unfold update_agent. destruct (t_agents d !! id) as [r|] eqn:Hr; [|done].
  intros [= _ <-]. destruct (Hf (ag_agent r)) as (Ei & Eu & Ec). split_and!; simpl; [| | |done|done].
  - intros i r'. rewrite lookup_insert_Some. intros [[<- <-]|[_ ?]]; [|by apply H1]. simpl. rewrite Ei, Ec. by apply H1.
  - intros i j r1 r2. rewrite !lookup_insert_Some.
    intros [[<- <-]|[? Hi]] [[<- <-]|[? Hj]]; simpl; rewrite ?Eu; try done; intros; by eapply H2.
  - eapply Forall_impl; [exact H3|]. intros x [[y Hy] ?]. split; [|done].
    destruct (decide (id = AgentEvent_AgentID x)) as [->|]; [by rewrite lookup_insert_eq|by rewrite lookup_insert_ne].
Qed.

Lemma uid_taken_false uid m : uid_taken uid m = false <-> forall i r, m !! i = Some r -> Agent_InstanceUID (ag_agent r) <> uid.
Proof.
  unfold uid_taken. rewrite <- not_true_iff_false, existsb_exists. split.
  - intros H i r Hi Hu. apply H. exists (i, r). split; [|by apply bool_decide_eq_true].
    by apply list_elem_of_In, elem_of_map_to_list.
  - intros H ([i r] & Hin & Hu). apply bool_decide_eq_true in Hu. simpl in Hu.
    apply list_elem_of_In, elem_of_map_to_list in Hin. by apply (H i r).
Qed.

Lemma insert_agent_Ok now a d u d' : insert_agent now a d = Ok (u, d') ->
  exists row, d' = set_agents (<[NewAgent_ID a := row]>) d /\ t_agents d !! NewAgent_ID a = None
    /\ Agent_ID (ag_agent row) = NewAgent_ID a /\ Agent_InstanceUID (ag_agent row) = NewAgent_InstanceUID a
    /\ Agent_CustomerID (ag_agent row) = Some (NewAgent_CustomerID a)
    /\ Agent_RemoteConfigStatus (ag_agent row) = RemoteConfigUnset /\ ag_token_hash row = None
    /\ (forall i r, t_agents d !! i = Some r -> Agent_InstanceUID (ag_agent r) <> NewAgent_InstanceUID a)
    /\ is_Some (t_customers d !! NewAgent_CustomerID a) /\ is_Some (t_bootstrap_tokens d !! NewAgent_EnrolledVia a).
Proof.
  unfold insert_agent. case_bool_decide as Hid; [done|]. destruct (uid_taken _ _) eqn:Hu; [done|].
  rewrite uid_taken_false in Hu. destruct (bool_decide_reflect (NewAgent_Class a ∈ [AgentClassGateway; AgentClassEdge])); [|done].
  destruct (bool_decide_reflect (is_Some (t_customers d !! NewAgent_CustomerID a))); [|done].
  destruct (bool_decide_reflect (is_Some (t_bootstrap_tokens d !! NewAgent_EnrolledVia a))); [|done].
  intros [= _ <-]. eexists. split; [done|]. split_and!; try done. by apply eq_None_not_Some.
Qed.

Lemma insert_agent_keeps now a : keeps (insert_agent now a).
Proof.
  intros d u d' (H1 & H2 & H3 & H4 & H5) (row & -> & Hn & Hid & Hu & Hc & _ & _ & Hf & Hcu & _)%insert_agent_Ok.
  split_and!; simpl; [| | |done|done].
  - intros i r. rewrite lookup_insert_Some. intros [[<- <-]|[_ ?]]; [|by apply H1]. by eauto.
  - intros i j r1 r2. rewrite !lookup_insert_Some.
    intros [[<- <-]|[? Hi]] [[<- <-]|[? Hj]]; try done; rewrite ?Hu; intros He.
    + by destruct (Hf j r2 Hj).
    + by destruct (Hf i r1 Hi).
    + by eapply H2.
  - eapply Forall_impl; [exact H3|]. intros x [[y Hy] ?]. split; [|done].
    rewrite lookup_insert_ne; [done|]. congruence.
Qed.

Lemma tokens_keeps f : (forall (m : gmap N BootstrapToken) i t', f m !! i = Some t' -> exists t, m !! i = Some t
     /\ BootstrapToken_ID t' = BootstrapToken_ID t /\ BootstrapToken_CustomerID t' = BootstrapToken_CustomerID t
     /\ (BootstrapToken_UsedCount t <= BootstrapToken_UsedCount t')%Z) ->
  keeps (tx_exec (set_bootstrap_tokens f)).
Proof.
  intros Hf d u d' (H1 & H2 & H3 & H4 & H5) [= _ <-]. split_and!; simpl; try done. intros i t' Hi.
  destruct (Hf _ _ _ Hi) as (t & Ht & -> & -> & ?). destruct (H5 i t Ht) as (? & ? & ?). split_and!; try done. lia.
Qed.

Lemma revoke_bootstrap_keeps now id t d u d' : fleet_wf d -> t_bootstrap_tokens d !! id = Some t ->
  tx_exec (set_bootstrap_tokens (<[id := revoke_bootstrap now t]>)) d = Ok (u, d') -> fleet_wf d'.
Proof.
  intros (H1 & H2 & H3 & H4 & H5) Ht [= _ <-]. split_and!; simpl; try done. intros i t'. rewrite lookup_insert_Some.
  intros [[<- <-]|[_ ?]]; [|by apply H5]. apply H5 in Ht. unfold revoke_bootstrap. by destruct (BootstrapToken_RevokedAt t).
Qed.

Lemma use_token_keeps id : keeps (tx_exec (set_bootstrap_tokens (alter use_token id))).
Proof.
  apply tokens_keeps. intros m i t'. rewrite lookup_alter_Some.
  intros [(-> & t & ? & ->)|[_ ?]]; [exists t|exists t']; split_and!; try done; simpl; lia.
Qed.

Lemma keeps_read_agent id : keeps (read_agent id).
Proof. apply keeps_read. Qed.

Create HintDb fleet_keeps discriminated.
#[export] Hint Resolve keeps_ret keeps_read keeps_check keeps_audit keeps_event insert_agent_keeps
  use_token_keeps keeps_read_agent : fleet_keeps.

Ltac keeps_steps :=
  apply keeps_inTx; [|done];
  repeat first [ apply keeps_bind; intros
               | solve [auto with fleet_keeps]
               | apply update_agent_keeps; done
               | case_match ].

(** The fleet operations keep the tables consistent: agents are stored under
    their id with an existing customer, instance UIDs are unique, the event log
    refers to existing agents with increasing numbers, and use counts are not
    negative. *)
Theorem fleet_tables_invariant d : fleet_wf d ->
  (forall us now a, fleet_wf (pg_EnrollAgent us now a d).2) /\
  (forall now id c at_, fleet_wf (pg_SetAgentConnected now id c at_ d).2) /\
  (forall now id s e ev det, fleet_wf (pg_SetAgentRemoteConfigStatus now id s e ev det d).2) /\
  (forall now id h b ev, fleet_wf (pg_SetAgentHealth now id h b ev d).2) /\
  (forall id n v ds c, fleet_wf (pg_UpdateAgentDescription id n v ds c d).2) /\
  (forall id dn l es, fleet_wf (pg_UpdateAgentMeta id dn l es d).2) /\
  (forall id h, fleet_wf (pg_SetAgentAckedConfig id h d).2) /\
  (forall id es, fleet_wf (pg_DeleteAgent id es d).2) /\
  (forall now t es, fleet_wf (pg_CreateBootstrapToken now t es d).2) /\
  (forall now c t es, fleet_wf (pg_RevokeBootstrapToken now c t es d).2).
Proof.
  intros Hwf. split_and!; intros; [by keeps_steps..| | |].
  - apply keeps_inTx; [|done]. intros d0 u d' (H1 & H2 & H3 & H4 & H5). unfold tx_bind, tx_read, tx_exec, audit_Write.
    case_bool_decide; [|done]. intros [= _ <-]. split_and!; simpl; try done.
    + intros i r [_ Hi]%lookup_delete_Some. by apply H1.
    + intros i j r r' [_ Hi]%lookup_delete_Some [_ Hj]%lookup_delete_Some. by eapply H2.
    + apply Forall_forall. intros e [Hne Hin]%list_elem_of_filter. rewrite Forall_forall in H3.
      destruct (H3 e Hin). by rewrite lookup_delete_ne.
    + clear -H4. induction (t_agent_events d0) as [|e l IH]; [done|]. simpl in H4. apply StronglySorted_inv in H4 as [H4 Hf].
      rewrite filter_cons. case_decide; [|by apply IH]. simpl. constructor; [by apply IH|].
      rewrite Forall_forall in Hf |- *. intros x Hx. apply Hf. apply list_elem_of_fmap in Hx as (y & -> & Hy).
      apply list_elem_of_filter in Hy as [_ Hy]. by apply list_elem_of_fmap_2.
  - unfold pg_CreateBootstrapToken. destruct (pg_GetCustomer _ d); [|done]. apply keeps_inTx; [|done].
    apply keeps_bind; [|intros; apply keeps_bind; intros; auto with fleet_keeps].
    intros d0 u d' (H1 & H2 & H3 & H4 & H5). unfold insert_bootstrap_token.
    destruct (bool_decide_reflect (is_Some (t_bootstrap_tokens d0 !! NewBootstrapToken_ID t))); [done|].
    destruct (bool_decide_reflect (is_Some (t_customers d0 !! NewBootstrapToken_CustomerID t))); [|done].
    simpl. destruct (user_ref_ok _ _); [|done]. intros [= _ <-]. split_and!; simpl; try done.
    intros j t'. rewrite lookup_insert_Some. intros [[<- <-]|[_ ?]]; [|by apply H5]. done.
  - apply keeps_inTx; [|done]. intros d0 u d' Hd. unfold tx_bind at 1, tx_read at 1.
    destruct (t_bootstrap_tokens d0 !! t) as [t0|] eqn:Ht; [|done]. case_decide; [|done].
    unfold tx_bind. destruct (tx_exec _ d0) as [[[] d1]|] eqn:He; [|done].
    eapply revoke_bootstrap_keeps in He; [|done..]. intros [= _ <-]. exact He.
Qed.

Lemma fleet_wf_empty : fleet_wf empty_db.
Proof.
  repeat apply conj; simpl; [intros i r|intros i j r r'|constructor|constructor|intros i t];
    rewrite lookup_empty; discriminate.
Qed.

Lemma fleet_tables_invariant_witness : fleet_wf (pg_DeleteAgent 1%N [] empty_db).2.
Proof.
  destruct (fleet_tables_invariant empty_db fleet_wf_empty) as (_ & _ & _ & _ & _ & _ & _ & H & _).
  exact (H 1%N []).
Defined.

(** ** What the lookups see *)

Lemma get_by_uid d uid a : fleet_wf d -> pg_GetAgentByInstanceUID uid d = Ok a <->
  exists i r, t_agents d !! i = Some r /\ Agent_InstanceUID (ag_agent r) = uid /\ a = select_agent d r.
Proof.
  intros (H1 & H2 & _). unfold pg_GetAgentByInstanceUID.
  set (p := fun r : agent_row => bool_decide (Agent_InstanceUID (ag_agent r) = uid)).
  assert (forall r, r ∈ rows (t_agents d) p <-> exists i, t_agents d !! i = Some r /\ Agent_InstanceUID (ag_agent r) = uid) as Hr.
  { intros r. rewrite rows_elem. unfold p. rewrite bool_decide_eq_true. naive_solver. }
  destruct (rows (t_agents d) p) as [|r0 l] eqn:Hrows.
  - split; [done|]. intros (i & r & Hi & Hu & _). assert (r ∈ []) as Hin by (apply Hr; eauto). by apply elem_of_nil in Hin.
  - assert (r0 ∈ r0 :: l) as Hin by left. apply Hr in Hin as (i0 & Hi0 & Hu0). split.
    + intros [= <-]. by exists i0, r0.
    + intros (i & r & Hi & Hu & ->). assert (i = i0) as -> by (eapply H2; [done..|congruence]). by simplify_eq.
Qed.

Lemma get_by_uid_None d uid : pg_GetAgentByInstanceUID uid d = Err ErrNotFound <->
  forall i r, t_agents d !! i = Some r -> Agent_InstanceUID (ag_agent r) <> uid.
Proof.
  unfold pg_GetAgentByInstanceUID.
  destruct (rows (t_agents d) _) as [|r0 l] eqn:Hrows.
  - split; [|done]. intros _ i r Hi Hu. assert (r ∈ []) as Hin; [|by apply elem_of_nil in Hin].
    rewrite <- Hrows. apply rows_elem. rewrite bool_decide_eq_true. eauto.
  - split; [done|]. intros Hall. exfalso.
    assert (r0 ∈ r0 :: l) as Hin by left. rewrite <- Hrows in Hin. apply rows_elem in Hin as [Hu (i & Hi)].
    apply bool_decide_eq_true in Hu. by apply (Hall i r0).
Qed.

(** Enrolling an agent either stores it under its instance UID for its
    customer, charges its token with exactly one use and logs one event, or
    changes nothing; it conflicts exactly when the UID is taken (or the fresh id
    is in use). *)
Theorem EnrollAgent_outcome us now a d : fleet_wf d ->
  match pg_EnrollAgent us now a d with
  | (Ok ag, d') =>
      Agent_ID ag = NewAgent_ID a /\ Agent_CustomerID ag = Some (NewAgent_CustomerID a)
      /\ pg_GetAgentByInstanceUID (NewAgent_InstanceUID a) d = Err ErrNotFound
      /\ pg_GetAgentByInstanceUID (NewAgent_InstanceUID a) d' = Ok ag
      /\ (forall i, i <> NewAgent_ID a -> t_agents d' !! i = t_agents d !! i)
      /\ t_bootstrap_tokens d' = alter use_token (NewAgent_EnrolledVia a) (t_bootstrap_tokens d)
      /\ is_Some (t_bootstrap_tokens d !! NewAgent_EnrolledVia a)
      /\ exists e, t_agent_events d' = (t_agent_events d ++ [e])%list /\ AgentEvent_AgentID e = NewAgent_ID a
           /\ AgentEvent_EventType e = AgentEventEnrolled
  | (Err e, d') => d' = d /\
      (e = ErrConflict -> exists i r, t_agents d !! i = Some r /\ Agent_InstanceUID (ag_agent r) = NewAgent_InstanceUID a)
  end.
Proof.
  intros Hwf.
  assert (fleet_wf (pg_EnrollAgent us now a d).2) as Hwf' by (unfold pg_EnrollAgent; keeps_steps).
  revert Hwf'. unfold pg_EnrollAgent, inTx, tx_bind.
  destruct (insert_agent now a d) as [[[] d1]|e] eqn:Hi.
  - apply insert_agent_Ok in Hi as (row & -> & Hn & Hid & Hu & Hc & _ & _ & Hfresh & Hcu & Htok).
    unfold tx_exec, insertAgentEvent, read_agent, tx_read. simpl. rewrite !lookup_insert_eq. simpl.
    rewrite lookup_insert_eq. intros Hwf'. simpl in Hwf'.
    split_and!; simpl; try done.
    + by apply get_by_uid_None.
    + apply get_by_uid; [done|]. exists (NewAgent_ID a), row. simpl. by rewrite lookup_insert_eq.
    + intros i Hne. by rewrite lookup_insert_ne.
    + eexists. split_and!; done.
  - intros _. split; [done|]. intros ->. unfold insert_agent in Hi. destruct (bool_decide _) in Hi; [done|].
    destruct (uid_taken _ _) eqn:Hu.
    + unfold uid_taken in Hu. apply existsb_exists in Hu as ([i r] & Hin & Hb). exists i, r.
      apply bool_decide_eq_true in Hb. split; [|done]. by apply elem_of_map_to_list, list_elem_of_In.
    + by destruct (_ || _) in Hi.
Qed.

Definition ex_customer : Customer := MkCustomer 1%N "acme" "Acme" "cust_1" CustomerActive "eu" None None 0 0.
Definition ex_btoken : BootstrapToken :=
  MkBootstrapToken 5%N 1%N "edge" "otm_bt_00000000" "h" 1 0 None 0 1000 None.
Definition ex_fleet_db : DB := MkDB ∅ {[ 1%N := ex_customer ]} ∅ ∅ {[ 5%N := ex_btoken ]} ∅ [] 1 [] ∅ ∅ empty_ext.
Definition ex_new_agent : NewAgent := MkNewAgent 7%N "uid7" 1%N AgentClassEdge None None None 0 5%N.

Lemma ex_fleet_db_wf : fleet_wf ex_fleet_db.
Proof.
  repeat apply conj; simpl; [intros i r|intros i j r r'|constructor|constructor|intros i t];
    rewrite ?lookup_empty; try discriminate.
  intros [<- <-]%lookup_singleton_Some. split_and!; [done| |done]. exists ex_customer. reflexivity.
Qed.

Lemma EnrollAgent_outcome_witness :
  exists ag d', pg_EnrollAgent (fun _ => "t") 3 ex_new_agent ex_fleet_db = (Ok ag, d')
    /\ Agent_ID ag = 7%N /\ pg_GetAgentByInstanceUID "uid7" d' = Ok ag.
Proof.
  pose proof (EnrollAgent_outcome (fun _ => "t") 3 ex_new_agent ex_fleet_db ex_fleet_db_wf) as Ho.
  destruct (pg_EnrollAgent (fun _ => "t") 3 ex_new_agent ex_fleet_db) as [[ag|e] d'] eqn:He.
  - exists ag, d'. split; [reflexivity|]. split; [exact (proj1 Ho)|]. exact (proj1 (proj2 (proj2 (proj2 Ho)))).
  - vm_compute in He. discriminate.
Defined.
