(* ===== verification/TenantsService.v ===== *)
(** Customer and API-key management (internal/tenants/service.go, bootstrap.go,
    apitoken.go) on top of the store, and the life of an ingest key from its
    creation to its validation by the AuthService. *)
From S2P Require Import Prelude GoStrings Json StoreTypes Slug Tokens Authz IngestAuth PgCore.

Open Scope string_scope.

Inductive svc_err : Type :=
| ErrInvalidName
| ErrInvalidSlug
| ErrUnknownRole
| ErrRandom (msg : string)
| ErrStore (e : store_err)
(** no free slug after all attempts; wraps [ErrSlugExists] *)
| ErrNoFreeSlug (baseSlug : string).

Definition lift_store {A} (r : result A store_err * DB) : result A svc_err * DB :=
  match r with
  | (Ok a, d) => (Ok a, d)
  | (Err e, d) => (Err (ErrStore e), d)
  end.

Section service.
Context `{Sha256}.
(** The Unicode tables behind [strings.ToLower], and uuid formatting. *)
Context (unicode_lower : Z -> Z) (uuid_string : N -> string).

(** What the outside world supplies to one call: the clock, random bytes, and
  fresh identifiers. *)
Record env : Type := MkEnv {
  env_now : Z;
  env_client_bytes : option string;
  env_key_bytes : option string;
  env_id : N;
  env_key_id : N
}.

Definition valid_name (name : string) : bool :=
  negb (bool_decide (name = "")) && (len name <=? 200)%Z.

Definition NewClientID (rand : option string) : result string string :=
  match rand with
  | None => Err "generate client id"
  | Some b => Ok ("cust_" +:+ hex_encode b)
  end.

Record CreatedCustomer : Type := MkCreatedCustomer {
  cc_customer : Customer;
  cc_key : APIKey;
  cc_secret : string
}.

Definition user_entry (actor : option N) (action etype eid : string) (customer : option N) (payload : option jval)
  : AuditEntry := MkAuditEntry actor "" action etype eid customer payload.

Definition key_payload (name prefix : string) : jval := JObj [("name", JStr name); ("key_prefix", JStr prefix)].

(** One attempt of the retry loop: the store's answer and the new secret. *)
Definition try_create (actor : option N) (name trySlug region : string) (e : env) (d : DB)
  : result (result CreatedCustomer store_err * DB) svc_err :=
  match NewClientID (env_client_bytes e) with
  | Err m => Err (ErrRandom m)
  | Ok clientID =>
    match GenerateAPIKey (env_key_bytes e) with
    | Err m => Err (ErrRandom m)
    | Ok key =>
        let newCustomer := MkNewCustomer (env_id e) trySlug name clientID region in
        let newKey := MkNewAPIKey (env_key_id e) (env_id e) "default" (GeneratedKey_Prefix key)
                        (GeneratedKey_Hash key) actor None in
        let entries :=
          [user_entry actor "customer.create" "customer" (uuid_string (env_id e)) (Some (env_id e))
             (Some (JObj [("name", JStr name); ("slug", JStr trySlug); ("client_id", JStr clientID);
                          ("region", JStr region)]));
           user_entry actor "apikey.create" "api_key" (uuid_string (env_key_id e)) (Some (env_id e))
             (Some (key_payload "default" (GeneratedKey_Prefix key)))] in
        match pg_CreateCustomer (env_now e) newCustomer newKey entries d with
        | (Ok (cust, apiKey), d) => Ok (Ok (MkCreatedCustomer cust apiKey (GeneratedKey_Secret key)), d)
        | (Err err, d) => Ok (Err err, d)
        end
    end
  end.

Definition maxAttempts : nat := 10.

(** The loop from attempt [attempt] with [fuel] attempts left. *)
Fixpoint create_loop (fuel : nat) (actor : option N) (name baseSlug trySlug region : string) (derived : bool)
  (attempt : Z) (envs : Z -> env) (d : DB) : result CreatedCustomer svc_err * DB :=
  match fuel with
  | O => (Err (ErrNoFreeSlug baseSlug), d)
  | S fuel =>
    match try_create actor name trySlug region (envs attempt) d with
    | Err e => (Err e, d)
    | Ok (Ok cc, d) => (Ok cc, d)
    | Ok (Err err, d) =>
        if bool_decide (err = ErrSlugExists) && derived then
          create_loop fuel actor name baseSlug (baseSlug +:+ "-" +:+ itoa (attempt + 1)) region derived
            (attempt + 1) envs d
        else if bool_decide (err = ErrConflict) then
          create_loop fuel actor name baseSlug trySlug region derived (attempt + 1) envs d
        else (Err (ErrStore err), d)
    end
  end.

Definition CreateCustomer (actor : option N) (name : string) (slug : option string) (region : string)
  (envs : Z -> env) (d : DB) : result CreatedCustomer svc_err * DB :=
  let name := trim_space name in
  if negb (valid_name name) then (Err ErrInvalidName, d)
  else
  match slug with
  | None =>
      let baseSlug := DeriveSlug unicode_lower name in
      create_loop maxAttempts actor name baseSlug baseSlug region true 1 envs d
  | Some baseSlug =>
      if negb (ValidSlug baseSlug) then (Err ErrInvalidSlug, d)
      else create_loop maxAttempts actor name baseSlug baseSlug region false 1 envs d
  end.

Definition opt_payload (k : string) (v : option jval) : list (string * jval) :=
  match v with Some v => [(k, v)] | None => [] end.
Definition int_or_null (v : option Z) : jval := match v with Some z => JInt z | None => JNull end.

Definition UpdateCustomer (now : Z) (actor : option N) (id : N) (upd : CustomerUpdate) (d : DB)
  : result Customer svc_err * DB :=
  let name := trim_space <$> CustomerUpdate_Name upd in
  if match name with Some n => negb (valid_name n) | None => false end then (Err ErrInvalidName, d)
  else
  let rl := CustomerUpdate_RateLimitItemsPerSec upd in
  let rd := CustomerUpdate_RetentionDays upd in
  let upd := MkCustomerUpdate name (CustomerUpdate_Status upd) rl rd in
  let payload :=
    (opt_payload "name" (JStr <$> name) ++ opt_payload "status" (JStr <$> CustomerUpdate_Status upd)
     ++ (if OptionalInt_Set rl then [("rate_limit_items_per_sec", int_or_null (OptionalInt_Value rl))] else [])
     ++ (if OptionalInt_Set rd then [("retention_days", int_or_null (OptionalInt_Value rd))] else []))%list in
  lift_store (pg_UpdateCustomer now id upd
    [user_entry actor "customer.update" "customer" (uuid_string id) (Some id) (Some (JObj payload))] d).

(** [purged] is the call to the purge function, when one is configured. *)
Definition DeleteCustomer (now : Z) (purge_enabled : bool) (actor : option N) (id : N) (d : DB)
  : result unit svc_err * DB * list (string * string) :=
  match pg_GetCustomer id d with
  | Err e => (Err (ErrStore e), d, [])
  | Ok cust =>
    match pg_SoftDeleteCustomer now id
            [user_entry actor "customer.delete" "customer" (uuid_string id) (Some id) None] d with
    | (Err e, d) => (Err (ErrStore e), d, [])
    | (Ok _, d) =>
        (Ok tt, d, if purge_enabled then [(Customer_ClientID cust, Customer_Region cust)] else [])
    end
  end.

Definition CreateAPIKey (e : env) (actor : option N) (customerID : N) (name : string) (expiresAt : option Z) (d : DB)
  : result (APIKey * string) svc_err * DB :=
  let name := trim_space name in
  if negb (valid_name name) then (Err ErrInvalidName, d)
  else
  match GenerateAPIKey (env_key_bytes e) with
  | Err m => (Err (ErrRandom m), d)
  | Ok key =>
      match pg_CreateAPIKey (env_now e)
              (MkNewAPIKey (env_key_id e) customerID name (GeneratedKey_Prefix key) (GeneratedKey_Hash key)
                 actor expiresAt)
              [user_entry actor "apikey.create" "api_key" (uuid_string (env_key_id e)) (Some customerID)
                 (Some (key_payload name (GeneratedKey_Prefix key)))] d with
      | (Err err, d) => (Err (ErrStore err), d)
      | (Ok stored, d) => (Ok (stored, GeneratedKey_Secret key), d)
      end
  end.

Definition RevokeAPIKey (now : Z) (actor : option N) (customerID keyID : N) (d : DB) : result unit svc_err * DB :=
  lift_store (pg_RevokeAPIKey now customerID keyID
  [user_entry actor "apikey.revoke" "api_key" (uuid_string keyID) (Some customerID) None] d).

Definition CreateAPIToken (e : env) (actor : option N) (name role : string) (expiresAt : option Z) (d : DB)
  : result (APIToken * string) svc_err * DB :=
  let name := trim_space name in
  if negb (valid_name name) then (Err ErrInvalidName, d)
  else if negb (Known role) then (Err ErrUnknownRole, d)
  else
  match GenerateAPIToken (env_key_bytes e) with
  | Err m => (Err (ErrRandom m), d)
  | Ok tok =>
      match pg_CreateAPIToken (env_now e)
              (MkNewAPIToken (env_id e) name (GeneratedKey_Prefix tok) (GeneratedKey_Hash tok) role actor expiresAt)
              [user_entry actor "apitoken.create" "api_token" (uuid_string (env_id e)) None
                 (Some (JObj [("name", JStr name); ("role", JStr role);
                              ("token_prefix", JStr (GeneratedKey_Prefix tok))]))] d with
      | (Err err, d) => (Err (ErrStore err), d)
      | (Ok stored, d) => (Ok (stored, GeneratedKey_Secret tok), d)
      end
  end.

Definition RevokeAPIToken (now : Z) (actor : option N) (tokenID : N) (d : DB) : result unit svc_err * DB :=
  lift_store (pg_RevokeAPIToken now tokenID
  [user_entry actor "apitoken.revoke" "api_token" (uuid_string tokenID) None None] d).

(** ** What the AuthService answers on the tables *)

Definition key_accepted (now : Z) (key : string) (d : DB) : bool :=
  match (ValidateAPIKey uuid_string (fun p => Ok (pg_ActiveKeysByPrefix p d)) now now key (MkIngestState ∅ [])).1 with
  | Ok resp => Resp_Valid resp
  | Err _ => false
  end.

(** The row a key is accepted by. *)
Definition live_key (now : Z) (key : string) (d : DB) (k : APIKey) (c : Customer) : Prop :=
  (exists i, t_api_keys d !! i = Some k) /\ t_customers d !! APIKey_CustomerID k = Some c
  /\ ParseKeyPrefix key = Some (APIKey_KeyPrefix k) /\ APIKey_KeyHash k = sha256 key
  /\ APIKey_RevokedAt k = None /\ (forall e, APIKey_ExpiresAt k = Some e -> now < e)%Z
  /\ Customer_Status c = CustomerActive.

Lemma active_keys_elem prefix d ak :
  ak ∈ pg_ActiveKeysByPrefix prefix d <->
  exists k c i, t_api_keys d !! i = Some k /\ t_customers d !! APIKey_CustomerID k = Some c
  /\ APIKey_KeyPrefix k = prefix /\ APIKey_RevokedAt k = None /\ ak = auth_key_of c k.
Proof using Type.
  unfold pg_ActiveKeysByPrefix. rewrite list_elem_of_omap. split.
  - intros (k & Hk & Hc). apply rows_elem in Hk as [Hp (i & Hi)]. apply andb_prop in Hp as [Hp Hr].
  apply bool_decide_eq_true in Hp, Hr. destruct (t_customers d !! APIKey_CustomerID k) as [c|] eqn:Hcu; [|done].
  simpl in Hc. injection Hc as <-. by exists k, c, i.
  - intros (k & c & i & Hi & Hc & Hp & Hr & ->). exists k. rewrite Hc. split; [|done].
  apply rows_elem. split; [by rewrite !bool_decide_true|by exists i].
Qed.

Lemma key_accepted_live now key d : key_accepted now key d = true -> exists k c, live_key now key d k c.
Proof using Type.
  unfold key_accepted. destruct (ValidateAPIKey _ _ _ _ _ _) as [[resp|] st'] eqn:Hv; [|done].
  simpl. intros Hvalid. destruct (ValidateAPIKey_sound _ _ _ _ _ _ _ _ Hv Hvalid)
  as (prefix & keys & ak & Hp & [= <-] & Hin & (Hh & He & Hs) & _).
  apply active_keys_elem in Hin as (k & c & i & Hi & Hc & Hpk & Hr & ->). exists k, c. subst prefix.
  split_and!; try done. by exists i.
Qed.

Lemma live_key_accepted now key d k c : live_key now key d k c ->
  (forall k' i, t_api_keys d !! i = Some k' -> APIKey_KeyHash k' = sha256 key -> k' = k) ->
  key_accepted now key d = true.
Proof using Type.
  intros ((i & Hi) & Hc & Hp & Hh & Hr & He & Hs) Hu. unfold key_accepted.
  destruct (ValidateAPIKey_complete uuid_string (fun p => Ok (pg_ActiveKeysByPrefix p d)) now now key
  (MkIngestState ∅ []) (APIKey_KeyPrefix k) (pg_ActiveKeysByPrefix (APIKey_KeyPrefix k) d) (auth_key_of c k))
  as (resp & st' & -> & Hv & _); try done.
  - apply active_keys_elem. by exists k, c, i.
  - intros ak Hin Hak. apply active_keys_elem in Hin as (k' & c' & j & Hj & Hc' & _ & _ & ->).
  simpl in Hak. rewrite (Hu k' j Hj Hak) in Hc' |- *. congruence.
Qed.

(** ** The life of a key *)

Lemma pg_CreateAPIKey_Ok now k entries d key d' : pg_CreateAPIKey now k entries d = (Ok key, d') ->
  key = MkAPIKey (NewAPIKey_ID k) (NewAPIKey_CustomerID k) (NewAPIKey_Name k) (NewAPIKey_KeyPrefix k)
          (NewAPIKey_KeyHash k) (NewAPIKey_CreatedBy k) now (NewAPIKey_ExpiresAt k) None None
  /\ t_api_keys d' = <[NewAPIKey_ID k := key]> (t_api_keys d) /\ t_api_keys d !! NewAPIKey_ID k = None
  /\ t_customers d' = t_customers d
  /\ exists c, t_customers d !! NewAPIKey_CustomerID k = Some c /\ Customer_Status c <> CustomerDeleted.
Proof using Type.
  unfold pg_CreateAPIKey, pg_GetCustomer. destruct (t_customers d !! NewAPIKey_CustomerID k) as [c|] eqn:Hc; [|done].
  case_decide as Hdel; [done|]. intros Hi%inTx_Ok. unfold tx_bind, insertAPIKey, audit_Write, tx_exec, tx_ret in Hi.
  destruct (bool_decide_reflect (is_Some (t_api_keys d !! NewAPIKey_ID k))) as [|Hn]; [done|].
  destruct (_ || _); [done|]. injection Hi as <- <-. simpl. split_and!; try done.
  - by apply eq_None_not_Some.
  - by exists c.
Qed.

(** A key just created is accepted while its customer is active and it has not
    expired, with the secret that is handed out, if no other key has its hash. *)
Theorem created_key_accepted e actor customerID name expiresAt d k secret d' now bytes c :
  CreateAPIKey e actor customerID name expiresAt d = (Ok (k, secret), d') ->
  env_key_bytes e = Some bytes -> String.length bytes = 36%nat ->
  (forall i k', t_api_keys d !! i = Some k' -> APIKey_KeyHash k' <> sha256 secret) ->
  t_customers d !! customerID = Some c -> Customer_Status c = CustomerActive ->
  (forall t, expiresAt = Some t -> now < t)%Z ->
  key_accepted now secret d' = true /\ APIKey_CustomerID k = customerID.
Proof using Type.
  unfold CreateAPIKey. intros Hc Hb Hlen Hfresh Hcu Hact Hexp.
  destruct (negb _); [done|]. rewrite Hb in Hc.
  destruct (GenerateAPIKey (Some bytes)) as [key|] eqn:Hgen; [|done].
  assert (GeneratedKey_Hash key = sha256 (GeneratedKey_Secret key)) as Hhash.
  { unfold GenerateAPIKey, mint in Hgen. injection Hgen as <-. reflexivity. }
  pose proof (GenerateAPIKey_parse bytes key Hlen Hgen) as Hparse.
  destruct (pg_CreateAPIKey _ _ _ d) as [[stored|] d1] eqn:Hpg; [|done]. injection Hc as <- <- <-.
  apply pg_CreateAPIKey_Ok in Hpg as (Hst & Hk' & Hfree & Hcus & _). simpl in *. split; [|by rewrite Hst].
  eapply live_key_accepted with (k := stored) (c := c).
  - rewrite Hst. unfold live_key. simpl. split_and!; try done.
    + exists (env_key_id e). by rewrite Hk', lookup_insert_eq, Hst.
    + by rewrite Hcus.
  - intros k' i Hi Hh. rewrite Hk' in Hi. apply lookup_insert_Some in Hi as [[_ <-]|[_ Hi]]; [done|].
    by destruct (Hfresh i k' Hi).
Qed.

(** A key no row of which is live is refused. *)
Lemma not_live_rejected now key d :
  (forall i k, t_api_keys d !! i = Some k -> APIKey_KeyHash k = sha256 key ->
     APIKey_RevokedAt k <> None \/ (exists c, t_customers d !! APIKey_CustomerID k = Some c
                                    /\ Customer_Status c <> CustomerActive)) ->
  key_accepted now key d = false.
Proof using Type.
  intros Hall. apply not_true_iff_false. intros Ha.
  destruct (key_accepted_live _ _ _ Ha) as (k & c & (i & Hi) & Hc & _ & Hh & Hr & _ & Hs).
  destruct (Hall i k Hi Hh) as [?|(c' & Hc' & ?)]; [done|]. by simplify_eq.
Qed.

Lemma revoke_key_revoked now k : APIKey_RevokedAt (revoke_key now k) <> None.
Proof using Type. unfold revoke_key. by destruct (APIKey_RevokedAt k) eqn:H'; simpl; rewrite ?H'. Qed.

Lemma revoke_key_hash now k : APIKey_KeyHash (revoke_key now k) = APIKey_KeyHash k.
Proof using Type. unfold revoke_key. by destruct (APIKey_RevokedAt k). Qed.

(** [belongs]: every row the presented key could match is one of those. *)
Definition all_rows (key : string) (d : DB) (P : N -> APIKey -> Prop) : Prop :=
  forall i k, t_api_keys d !! i = Some k -> APIKey_KeyHash k = sha256 key -> P i k.

(** C15: Cutting a tenant off at the control plane: a key is refused from the moment
    it is revoked, its customer is deleted, or its customer is given a status
    other than active. *)
Theorem key_cut_off now now' actor customerID key d d' :
  (forall keyID, RevokeAPIKey now actor customerID keyID d = (Ok tt, d') ->
     all_rows key d (fun i _ => i = keyID) -> key_accepted now' key d' = false) /\
  (forall purge purged, DeleteCustomer now purge actor customerID d = (Ok tt, d', purged) ->
     all_rows key d (fun _ k => APIKey_CustomerID k = customerID) -> key_accepted now' key d' = false) /\
  (forall upd c status, UpdateCustomer now actor customerID upd d = (Ok c, d') ->
     CustomerUpdate_Status upd = Some status -> status <> CustomerActive ->
     all_rows key d (fun _ k => APIKey_CustomerID k = customerID) -> key_accepted now' key d' = false).
Proof using Type.
  split_and!.
  - unfold RevokeAPIKey, lift_store. intros keyID Hr Hall. apply not_live_rejected.
    destruct (pg_RevokeAPIKey _ _ _ _ d) as [[[]|] d1] eqn:Hpg; [|done]. injection Hr as ->.
    apply inTx_Ok in Hpg. unfold tx_bind, tx_read, tx_exec, audit_Write in Hpg.
    destruct (t_api_keys d !! keyID) as [k0|] eqn:Hk0; [|done]. case_decide; [|done].
    injection Hpg as <-. simpl. intros i k Hi Hh. left.
    apply lookup_insert_Some in Hi as [[_ <-]|[Hne Hi]]; [apply revoke_key_revoked|].
    by destruct Hne; symmetry; apply (Hall i k).
  - unfold DeleteCustomer. intros purge purged Hr Hall. apply not_live_rejected.
    destruct (pg_GetCustomer customerID d) as [cu|]; [|done].
    destruct (pg_SoftDeleteCustomer _ _ _ d) as [[[]|] d1] eqn:Hpg; [|done]. injection Hr as -> _.
    apply inTx_Ok in Hpg. unfold tx_bind, tx_read, tx_exec, audit_Write in Hpg.
    destruct (pg_GetCustomer customerID d) as [cu1|]; [|done]. injection Hpg as <-. simpl.
    intros i k Hi Hh. left. rewrite lookup_fmap in Hi. destruct (t_api_keys d !! i) as [k0|] eqn:Hk0; [|done].
    simpl in Hi. injection Hi as <-. case_decide as Hc; [apply revoke_key_revoked|].
    by destruct Hc; apply (Hall i k0).
  - unfold UpdateCustomer. intros upd c status Hu Hst Hne Hall. apply not_live_rejected.
    destruct (match trim_space <$> _ with Some _ => _ | None => _ end); [done|]. unfold lift_store in Hu.
    destruct (pg_UpdateCustomer _ _ _ _ d) as [[c1|] d1] eqn:Hpg; [|done]. injection Hu as -> ->.
    apply inTx_Ok in Hpg. unfold tx_bind, tx_read, tx_exec, audit_Write, tx_check, tx_ret in Hpg.
    destruct (pg_GetCustomer customerID d) as [cu1|]; [|done]. destruct (customer_check _); [|done].
    injection Hpg as <- <-. simpl. intros i k Hi Hh. right.
    rewrite (Hall i k Hi Hh), lookup_insert_eq. eexists. split; [done|]. simpl. by rewrite Hst.
Qed.

(** ** Creating customers *)

(** The slugs a derived name may end up with. *)
Definition candidate_slug (base : string) (n : Z) : string :=
    if (n =? 1)%Z then base else base +:+ "-" +:+ itoa n.

Lemma try_create_Ok actor name trySlug region e d cc d' :
    try_create actor name trySlug region e d = Ok (Ok cc, d') ->
    let c := cc_customer cc in
    Customer_Slug c = trySlug /\ Customer_Name c = name /\ Customer_Region c = region
    /\ Customer_Status c = CustomerActive /\ Customer_ID c = env_id e
    /\ APIKey_CustomerID (cc_key cc) = Customer_ID c /\ APIKey_KeyHash (cc_key cc) = sha256 (cc_secret cc)
    /\ t_customers d' = <[Customer_ID c := c]> (t_customers d)
    /\ t_api_keys d' = <[APIKey_ID (cc_key cc) := cc_key cc]> (t_api_keys d)
    /\ (forall i c', t_customers d !! i = Some c' -> Customer_Slug c' <> trySlug)
    /\ length (t_audit d') = (length (t_audit d) + 2)%nat.
Proof using Type.
    unfold try_create, NewClientID. destruct (env_client_bytes e) as [cb|]; [|done].
    destruct (GenerateAPIKey (env_key_bytes e)) as [key|] eqn:Hgen; [|done].
    assert (GeneratedKey_Hash key = sha256 (GeneratedKey_Secret key)) as Hhash.
    { unfold GenerateAPIKey, mint in Hgen. destruct (env_key_bytes e); [|done]. by injection Hgen as <-. }
    destruct (pg_CreateCustomer _ _ _ _ d) as [[[cu ke]|] d1] eqn:Hpg; [|done]. intros [= <- <-].
    apply inTx_Ok in Hpg. unfold tx_bind, audit_Write, tx_exec, tx_ret in Hpg.
    destruct (insert_customer _ _ d) as [[r1 d2]|] eqn:H1; [|done].
    apply insert_customer_Ok in H1 as (-> & -> & _ & Hfresh).
    destruct (insertAPIKey _ _ _) as [[r2 d3]|] eqn:H2; [|done]. injection Hpg as <- <- <-.
    unfold insertAPIKey in H2. destruct (_ || _); [done|]. injection H2 as <- <-. simpl. split_and!; try done.
    - intros i c' Hi. by apply (Hfresh i c').
    - by rewrite audit_write_length.
Qed.

Lemma try_create_Err actor name trySlug region e d err d' :
    try_create actor name trySlug region e d = Ok (Err err, d') -> d' = d.
Proof using Type.
    unfold try_create. destruct (NewClientID _); [|done]. destruct (GenerateAPIKey _); [|done].
    unfold pg_CreateCustomer, inTx. destruct (tx_bind _ _ d) as [[[cu ke] d1]|e0]; [done|]. by intros [= _ <-].
Qed.

Definition created_as (base : string) (derived : bool) (name region : string) (hi : Z) (d d' : DB) (cc : CreatedCustomer) : Prop :=
    let c := cc_customer cc in
    (exists n, (1 <= n <= hi)%Z /\ (derived = false -> n = 1%Z) /\ Customer_Slug c = candidate_slug base n)
    /\ Customer_Name c = name /\ Customer_Region c = region /\ Customer_Status c = CustomerActive
    /\ APIKey_CustomerID (cc_key cc) = Customer_ID c /\ APIKey_KeyHash (cc_key cc) = sha256 (cc_secret cc)
    /\ t_customers d' = <[Customer_ID c := c]> (t_customers d)
    /\ t_api_keys d' = <[APIKey_ID (cc_key cc) := cc_key cc]> (t_api_keys d)
    /\ (forall i c', t_customers d !! i = Some c' -> Customer_Slug c' <> Customer_Slug c)
    /\ length (t_audit d') = (length (t_audit d) + 2)%nat.

Lemma create_loop_spec fuel actor name base region derived envs d r d' : forall attempt n,
    create_loop fuel actor name base (candidate_slug base n) region derived attempt envs d = (r, d') ->
    (1 <= n <= attempt)%Z -> (derived = false -> n = 1%Z) ->
    match r with
    | Ok cc => created_as base derived name region (attempt + Z.of_nat fuel - 1) d d' cc
    | Err _ => d' = d
    end.
Proof using Type.
    induction fuel as [|fuel IH]; intros attempt n; cbn [create_loop]; [by intros [= <- <-]|].
    destruct (try_create _ _ _ _ _ d) as [[[cc|err] d1]|e] eqn:Ht; [| |by intros [= <- <-]].
    - intros [= <- <-] Hn Hder. apply try_create_Ok in Ht as (Hs & ? & ? & ? & ? & ? & ? & ? & ? & Hf & ?).
      unfold created_as. rewrite Hs. split_and!; try done. exists n. split_and!; [lia|lia|done|done].
    - apply try_create_Err in Ht as ->. intros Hl Hn Hder.
      destruct (bool_decide (err = ErrSlugExists) && derived) eqn:Hb.
      + apply andb_prop in Hb as [_ ->].
        replace (base +:+ "-" +:+ itoa (attempt + 1)) with (candidate_slug base (attempt + 1)) in Hl.
        2:{ unfold candidate_slug. destruct (Z.eqb_spec (attempt + 1) 1); [lia|done]. }
        apply IH in Hl; [|lia|done]. destruct r; [|done].
        replace (attempt + Z.of_nat (S fuel) - 1)%Z with (attempt + 1 + Z.of_nat fuel - 1)%Z by lia. done.
      + destruct (bool_decide (err = ErrConflict)); [|by injection Hl as <- <-].
        apply IH in Hl; [|lia|done]. destruct r; [|done].
        replace (attempt + Z.of_nat (S fuel) - 1)%Z with (attempt + 1 + Z.of_nat fuel - 1)%Z by lia. done.
Qed.

(** Creating a customer either stores exactly one new, active customer with one
      new key for the returned secret, under a slug nobody has, which is the
      chosen valid slug or the derived one with at most a suffix up to 10, or it
      changes nothing at all. *)
Theorem CreateCustomer_outcome actor name slug region envs d r d' :
    CreateCustomer actor name slug region envs d = (r, d') ->
    match r with
    | Err _ => d' = d
    | Ok cc =>
        let base := default (DeriveSlug unicode_lower (trim_space name)) slug in
        ValidSlug base = true /\ valid_name (trim_space name) = true
        /\ created_as base (bool_decide (slug = None)) (trim_space name) region 10 d d' cc
    end.
Proof using Type.
    unfold CreateCustomer. destruct (valid_name (trim_space name)); cbn [negb]; [|by intros [= <- <-]].
    destruct slug as [s|]; cbn [default].
    - destruct (ValidSlug s) eqn:Hv; cbn [negb]; [|by intros [= <- <-]]. intros Hl.
      pose proof (create_loop_spec maxAttempts actor (trim_space name) s region false envs d r d' 1 1) as Hsp.
      change (candidate_slug s 1) with s in Hsp. specialize (Hsp Hl ltac:(lia) ltac:(done)).
      destruct r; [|exact Hsp]. split; [done|]. split; [done|exact Hsp].
    - intros Hl. set (base := DeriveSlug _ _) in *.
      pose proof (create_loop_spec maxAttempts actor (trim_space name) base region true envs d r d' 1 1) as Hsp.
      change (candidate_slug base 1) with base in Hsp. specialize (Hsp Hl ltac:(lia) ltac:(done)).
      destruct r; [|exact Hsp]. split; [apply DeriveSlug_always_valid|]. split; [done|exact Hsp].
Qed.

End service.

(** ** Concrete calls *)

Definition ex_env (attempt : Z) : env :=
  MkEnv 100 (Some (String (byte_of attempt) "abc")) (Some ex_buf) (Z.to_N attempt) (Z.to_N attempt).
Definition ex_create (name : string) (slug : option string) (d : DB) : result CreatedCustomer svc_err * DB :=
  CreateCustomer (H := fun s => s) (fun z => z) (fun _ => "id") None name slug "eu" ex_env d.
Definition ex_db : DB := (ex_create "Acme" None empty_db).2.

Lemma CreateCustomer_outcome_witness :
  exists cc, (ex_create "Acme" None empty_db).1 = Ok cc /\ ValidSlug (DeriveSlug (fun z => z) "Acme") = true
    /\ Customer_Slug (cc_customer cc) = "acme".
Proof.
  pose proof (CreateCustomer_outcome (H := fun s => s) (fun z => z) (fun _ => "id") None "Acme" None "eu" ex_env
    empty_db (ex_create "Acme" None empty_db).1 ex_db) as Ho.
  specialize (Ho ltac:(vm_compute; reflexivity)).
  destruct (ex_create "Acme" None empty_db).1 as [cc|] eqn:Hcc; [|vm_compute in Hcc; discriminate].
  exists cc. split; [reflexivity|]. split; [exact (proj1 Ho)|].
  vm_compute in Hcc. injection Hcc as <-. reflexivity.
Defined.

Definition ex_env2 : env := MkEnv 200 None (Some "fedcba9876543210fedcba98765432100123") 0%N 9%N.
Definition ex_secret : string := "otm_66656463_YmE5ODc2NTQzMjEwZmVkY2JhOTg3NjU0MzIxMDAxMjM".
Definition ex_new_key : APIKey :=
  MkAPIKey 9%N 1%N "ci" "otm_66656463" ex_secret None 200 (Some 500%Z) None None.
Definition ex_with_key : DB :=
  (CreateAPIKey (H := fun s => s) (fun _ => "id") ex_env2 None 1%N " ci " (Some 500%Z) ex_db).2.

Lemma created_key_accepted_witness :
  key_accepted (H := fun s => s) (fun _ => "id") 300 ex_secret ex_with_key = true /\ APIKey_CustomerID ex_new_key = 1%N.
Proof.
  refine (created_key_accepted (H := fun s => s) (fun _ => "id") ex_env2 None 1%N " ci " (Some 500%Z) ex_db
    ex_new_key ex_secret ex_with_key 300 "fedcba9876543210fedcba98765432100123"
    (MkCustomer 1%N "acme" "Acme" "cust_01616263" CustomerActive "eu" None None 100 100) _ eq_refl eq_refl _ _ eq_refl _).
  - vm_compute. reflexivity.
  - intros i k' Hi.
    change (t_api_keys ex_db) with ({[ 1%N := MkAPIKey 1%N 1%N "default" "otm_30313233" "otm_30313233_NDU2Nzg5YWJjZGVmMDEyMzQ1Njc4OWFiY2RlZjAxMjM" None 100 None None None ]} : gmap N APIKey) in Hi.
    apply lookup_singleton_Some in Hi as [_ <-]. vm_compute. discriminate.
  - vm_compute. reflexivity.
  - intros t [= <-]. reflexivity.
Defined.

Definition long_name : string := "aaaaaaaabbbbbbbbaaaaaaaabbbbbbbbaaaaaaaabbbbbbbbaaaaaaaabbbbbbbb".

(** A second customer whose derived slug already has 64 characters is stored
    under a slug with a suffix, which the slug pattern does not admit. *)
Lemma derived_slug_suffix_too_long :
  exists c1 c2 d1 d2, ex_create long_name None empty_db = (Ok c1, d1)
    /\ CreateCustomer (H := fun s => s) (fun z => z) (fun _ => "id") None long_name None "eu"
         (fun a => ex_env (a + 10)) d1 = (Ok c2, d2)
    /\ ValidSlug (Customer_Slug (cc_customer c1)) = true /\ ValidSlug (Customer_Slug (cc_customer c2)) = false.
Proof.
  eexists _, _, _, _. split; [vm_compute; reflexivity|]. split; [vm_compute; reflexivity|].
  split; vm_compute; reflexivity.
Qed.
