(* ===== verification/Enrollment.v ===== *)
(** Edge-agent enrollment tokens (internal/tenants/bootstrap.go): creation,
    revocation, and when a token may authenticate a connection. *)
From S2P Require Import Prelude GoStrings Json StoreTypes Tokens PgCore PgFleet TenantsService.

Open Scope string_scope.

Definition defaultBootstrapTokenTTL : Z := 30 * 24 * hour.

Inductive token_err : Type :=
| TokenExpired (at_ : Z)
| TokenExhausted (used max : Z)
| TokenCustomer (status : string).

Definition TokenUsable (t : EnrollToken) (now : Z) : option token_err :=
  if negb (after (EnrollToken_ExpiresAt t) now) then Some (TokenExpired (EnrollToken_ExpiresAt t))
  else if (0 <? EnrollToken_MaxUses t)%Z && (EnrollToken_MaxUses t <=? EnrollToken_UsedCount t)%Z
  then Some (TokenExhausted (EnrollToken_UsedCount t) (EnrollToken_MaxUses t))
  else if negb (bool_decide (EnrollToken_CustomerStatus t = CustomerActive))
  then Some (TokenCustomer (EnrollToken_CustomerStatus t))
  else None.

Lemma TokenUsable_None t now : TokenUsable t now = None <->
  (now < EnrollToken_ExpiresAt t)%Z /\ EnrollToken_CustomerStatus t = CustomerActive
  /\ (EnrollToken_MaxUses t <= 0 \/ EnrollToken_UsedCount t < EnrollToken_MaxUses t)%Z.
Proof.
  unfold TokenUsable, after. destruct (Z.ltb_spec now (EnrollToken_ExpiresAt t)); simpl; [|split; [done|lia]].
  destruct (Z.ltb_spec 0 (EnrollToken_MaxUses t)), (Z.leb_spec (EnrollToken_MaxUses t) (EnrollToken_UsedCount t));
    simpl; try (split; [done|lia]); case_bool_decide; simpl; split; try done; intros; try (split_and!; done || lia);
    naive_solver.
Qed.

Section service.
Context `{Sha256} (uuid_string : N -> string).

(** [created] is the clock reading the default expiry counts from. *)
Definition CreateBootstrapToken (e : env) (created : Z) (actor : option N) (customerID : N) (name : string)
    (expiresAt : option Z) (maxUses : Z) (d : DB) : result (BootstrapToken * string) svc_err * DB :=
  let name := trim_space name in
  if negb (valid_name name) then (Err ErrInvalidName, d)
  else
    let maxUses := if (maxUses <? 0)%Z then 0%Z else maxUses in
    match GenerateBootstrapToken (env_key_bytes e) with
    | Err m => (Err (ErrRandom m), d)
    | Ok tok =>
        let expiry := default (created + defaultBootstrapTokenTTL)%Z expiresAt in
        match pg_CreateBootstrapToken (env_now e)
                (MkNewBootstrapToken (env_id e) customerID name (GeneratedKey_Prefix tok) (GeneratedKey_Hash tok)
                   maxUses actor expiry)
                [user_entry actor "bootstraptoken.create" "bootstrap_token" (uuid_string (env_id e)) (Some customerID)
                   (Some (JObj [("name", JStr name); ("token_prefix", JStr (GeneratedKey_Prefix tok));
                                ("max_uses", JInt maxUses)]))] d with
        | (Err err, d) => (Err (ErrStore err), d)
        | (Ok stored, d) => (Ok (stored, GeneratedKey_Secret tok), d)
        end
    end.

Definition RevokeBootstrapToken (now : Z) (actor : option N) (customerID tokenID : N) (d : DB)
  : result unit svc_err * DB :=
  lift_store (pg_RevokeBootstrapToken now customerID tokenID
    [user_entry actor "bootstraptoken.revoke" "bootstrap_token" (uuid_string tokenID) (Some customerID) None] d).
End service.
