(* ===== verification/Crypto.v ===== *)
(** Encryption of secrets at rest (internal/crypto/crypto.go) and the re-keying
    of stored secrets (internal/store/pg_reencrypt.go and the ReencryptSecrets
    handler of internal/api/handlers_admin.go).

    AES-256-GCM is an interface: sealing and opening under a key and a nonce,
    with the two facts the code relies on. *)
From S2P Require Import Prelude GoStrings Base64.
From Stdlib Require Import Ascii.

Open Scope string_scope.

Class Aead := {
  Seal : string -> string -> string -> string;
  Open : string -> string -> string -> option string
}.

(** What is sealed under a key opens under it, and under no other. *)
Class AeadLaws `{Aead} : Prop := {
  Open_Seal : forall key nonce plaintext, Open key nonce (Seal key nonce plaintext) = Some plaintext;
  Open_other_key : forall key key' nonce plaintext, key <> key' -> Open key' nonce (Seal key nonce plaintext) = None
}.

(** ** Byte slices *)

Fixpoint str_take (n : nat) (s : string) : string :=
  match n, s with
  | S n, String c s => String c (str_take n s)
  | _, _ => ""
  end.

Fixpoint str_drop (n : nat) (s : string) : string :=
  match n, s with
  | O, s => s
  | S n, String _ s => str_drop n s
  | _, EmptyString => ""
  end.

Lemma str_take_app a b : str_take (String.length a) (a +:+ b) = a.
Proof. induction a as [|c a IH]; simpl; [by destruct b|]. by rewrite IH. Qed.

Lemma str_drop_app a b : str_drop (String.length a) (a +:+ b) = b.
Proof. by induction a as [|c a IH]; simpl. Qed.

(** ** Cipher *)

Definition version1 : ascii := byte_of 1.
Definition KeySize : nat := 32.
Definition NonceSize : nat := 12.

Inductive crypto_err : Type :=
| ErrNotConfigured
| ErrDecrypt
| ErrKeyBase64
| ErrKeySize (n : nat)
| ErrSecondary (e : crypto_err)
| ErrNonce.

(** The keys stand for the AEADs built from them; a nil cipher is [None]. *)
Record Cipher : Type := MkCipher {
  primary : string;
  decrypters : list string
}.

Definition aeadFromKey (keyBase64 : string) : result string crypto_err :=
  match std_decode keyBase64 with
  | None => Err ErrKeyBase64
  | Some key => if (String.length key =? KeySize)%nat then Ok key else Err (ErrKeySize (String.length key))
  end.

Fixpoint add_secondaries (l : list string) (c : Cipher) : result Cipher crypto_err :=
  match l with
  | [] => Ok c
  | s :: l =>
      match aeadFromKey s with
      | Err e => Err (ErrSecondary e)
      | Ok key => add_secondaries l (MkCipher (primary c) (decrypters c ++ [key]))
      end
  end.

Definition NewWithSecondaries (primaryBase64 : string) (secondariesBase64 : list string) : result Cipher crypto_err :=
  match aeadFromKey primaryBase64 with
  | Err e => Err e
  | Ok key => add_secondaries secondariesBase64 (MkCipher key [key])
  end.

Definition New (keyBase64 : string) : result Cipher crypto_err := NewWithSecondaries keyBase64 [].

Definition Configured (c : option Cipher) : bool := bool_decide (is_Some c).

Section cipher.
Context `{Aead}.

(** [nonce] is what rand.Read fills the nonce with, or fails. *)
Definition Encrypt (nonce : option string) (plaintext : string) (c : option Cipher) : result string crypto_err :=
  match c with
  | None => Err ErrNotConfigured
  | Some c =>
      match nonce with
      | None => Err ErrNonce
      | Some nonce => Ok (String version1 (nonce +:+ Seal (primary c) nonce plaintext))
      end
  end.

Fixpoint open_any (keys : list string) (nonce body : string) : option string :=
  match keys with
  | [] => None
  | key :: keys => match Open key nonce body with Some pt => Some pt | None => open_any keys nonce body end
  end.

Definition Decrypt (ciphertext : string) (c : option Cipher) : result string crypto_err :=
  match c with
  | None => Err ErrNotConfigured
  | Some c =>
      if (String.length ciphertext <? 1 + NonceSize)%nat then Err ErrDecrypt
      else if negb (bool_decide (str_take 1 ciphertext = String version1 "")) then Err ErrDecrypt
      else
        let nonce := str_take NonceSize (str_drop 1 ciphertext) in
        let body := str_drop (1 + NonceSize) ciphertext in
        match open_any (decrypters c) nonce body with
        | Some pt => Ok pt
        | None => Err ErrDecrypt
        end
  end.

Definition EncryptedWithPrimary (ciphertext : string) (c : option Cipher) : bool :=
  match c with
  | None => false
  | Some c =>
      if (String.length ciphertext <? 1 + NonceSize)%nat || negb (bool_decide (str_take 1 ciphertext = String version1 ""))
      then false
      else bool_decide (is_Some (Open (primary c) (str_take NonceSize (str_drop 1 ciphertext))
                                   (str_drop (1 + NonceSize) ciphertext)))
  end.

(** ** Re-keying *)

(** The callback of the ReencryptSecrets handler; [None]: unchanged. *)
Definition migrate (c : option Cipher) (nonce : option string) (enc : string) : result (option string) crypto_err :=
  if EncryptedWithPrimary enc c then Ok None
  else
    match Decrypt enc c with
    | Err e => Err e
    | Ok pt => match Encrypt nonce pt c with
               | Err e => Err e
               | Ok ne => Ok (Some ne)
               end
    end.
End cipher.

(** The columns of [reencryptColumns]: the rows whose secret is not null. *)
Record enc_tables : Type := MkEncTables {
  client_secret_enc : gmap N string;
  secret_enc : gmap N string
}.

(** The batch of one column: every row through [migrate], at the first error
    all is undone.  The index counts the calls. *)
Fixpoint reencrypt_batch (mig : nat -> string -> result (option string) crypto_err) (i : nat)
    (batch : list (N * string)) (col : gmap N string) (migrated : Z) : result (nat * gmap N string * Z) crypto_err :=
  match batch with
  | [] => Ok (i, col, migrated)
  | (id, enc) :: batch =>
      match mig i enc with
      | Err e => Err e
      | Ok None => reencrypt_batch mig (S i) batch col migrated
      | Ok (Some newEnc) => reencrypt_batch mig (S i) batch (<[id := newEnc]> col) (migrated + 1)
      end
  end.

Definition pg_ReencryptSecrets (mig : nat -> string -> result (option string) crypto_err) (t : enc_tables)
  : result Z crypto_err * enc_tables :=
  match reencrypt_batch mig 0 (map_to_list (client_secret_enc t)) (client_secret_enc t) 0 with
  | Err e => (Err e, t)
  | Ok (i, col1, m) =>
      match reencrypt_batch mig i (map_to_list (secret_enc t)) (secret_enc t) m with
      | Err e => (Err e, t)
      | Ok (_, col2, m) => (Ok m, MkEncTables col1 col2)
      end
  end.

(** The handler: refused without a master key. *)
Definition ReencryptSecrets `{Aead} (c : option Cipher) (nonces : nat -> option string) (t : enc_tables)
  : result Z crypto_err * enc_tables :=
  if negb (Configured c) then (Err ErrNotConfigured, t)
  else pg_ReencryptSecrets (fun i => migrate c (nonces i)) t.

(** The keys a new cipher holds. *)
Lemma NewWithSecondaries_wf p secs c : NewWithSecondaries p secs = Ok c ->
  aeadFromKey p = Ok (primary c) /\ primary c ∈ decrypters c
  /\ (forall s, s ∈ secs -> exists key, aeadFromKey s = Ok key /\ key ∈ decrypters c).
Proof.
  unfold NewWithSecondaries. destruct (aeadFromKey p) as [key|]; [|done].
  assert (forall secs c0 c, add_secondaries secs c0 = Ok c -> primary c = primary c0 /\ decrypters c0 ⊆ decrypters c /\
    (forall s, s ∈ secs -> exists key, aeadFromKey s = Ok key /\ key ∈ decrypters c)) as Hadd.
  { clear. induction secs as [|s secs IH]; intros c0 c; cbn [add_secondaries].
    - intros [= <-]. split_and!; [done|done|]. intros s Hs. by apply elem_of_nil in Hs.
    - destruct (aeadFromKey s) as [k|] eqn:Hk; [|done]. intros (Hp & Hd & Hs)%IH. cbn [primary decrypters] in *.
      split_and!; [done|set_solver|]. intros s' [->|Hin]%elem_of_cons; [|by apply Hs].
      exists k. split; [done|]. apply Hd. set_solver. }
  intros (Hp & Hd & Hs)%Hadd. cbn [primary decrypters] in *. split_and!; [by rewrite Hp|rewrite Hp; set_solver|done].
Qed.

(** ** Ciphertexts and keys *)

Section laws.
Context `{AeadLaws}.

(** The layout of a ciphertext for a plaintext under a key. *)
Definition sealed_under (key pt ct : string) : Prop :=
  exists nonce, String.length nonce = NonceSize /\ ct = String version1 (nonce +:+ Seal key nonce pt).

Lemma Encrypt_sealed nonce pt c : String.length nonce = NonceSize ->
  exists ct, Encrypt (Some nonce) pt (Some c) = Ok ct /\ sealed_under (primary c) pt ct.
Proof using Type. intros Hn. eexists. split; [reflexivity|]. by exists nonce. Qed.

Lemma open_any_sealed key nonce pt keys : key ∈ keys -> open_any keys nonce (Seal key nonce pt) = Some pt.
Proof using Type*.
  induction keys as [|k keys IH]; intros Hk; [by apply elem_of_nil in Hk|]. simpl.
  destruct (decide (k = key)) as [->|Hne]; [by rewrite Open_Seal|].
  rewrite Open_other_key by done. apply IH. apply elem_of_cons in Hk as [->|]; done.
Qed.

Lemma sealed_parts nonce body : String.length nonce = NonceSize ->
  (String.length (String version1 (nonce +:+ body)) <? 1 + NonceSize)%nat = false
  /\ str_take 1 (String version1 (nonce +:+ body)) = String version1 ""
  /\ str_take NonceSize (str_drop 1 (String version1 (nonce +:+ body))) = nonce
  /\ str_drop (1 + NonceSize) (String version1 (nonce +:+ body)) = body.
Proof using Type.
  intros Hn. split_and!.
  - apply Nat.ltb_ge. cbn [String.length]. rewrite string_length_app, Hn. lia.
  - reflexivity.
  - cbn [str_drop]. rewrite <- Hn. apply str_take_app.
  - cbn [str_drop Nat.add]. rewrite <- Hn. apply str_drop_app.
Qed.

Lemma Decrypt_sealed key pt ct c : sealed_under key pt ct -> key ∈ decrypters c -> Decrypt ct (Some c) = Ok pt.
Proof using Type*.
  intros (nonce & Hn & ->) Hk. destruct (sealed_parts nonce (Seal key nonce pt) Hn) as (H1 & H2 & H3 & H4).
  unfold Decrypt. rewrite H1, bool_decide_true by done. cbn [negb]. rewrite H3, H4. by rewrite open_any_sealed.
Qed.

Lemma EncryptedWithPrimary_sealed key pt ct c : sealed_under key pt ct ->
  EncryptedWithPrimary ct (Some c) = bool_decide (key = primary c).
Proof using Type*.
  intros (nonce & Hn & ->). destruct (sealed_parts nonce (Seal key nonce pt) Hn) as (H1 & H2 & H3 & H4).
  unfold EncryptedWithPrimary. rewrite H1, bool_decide_true by done. cbn [negb orb]. rewrite H3, H4.
  destruct (decide (key = primary c)) as [->|Hne].
  - rewrite Open_Seal. by rewrite !bool_decide_true by eauto.
  - rewrite Open_other_key by done. rewrite !bool_decide_false; [done|done|by intros []].
Qed.

(** [migrate] moves any readable secret under the primary key. *)
Lemma migrate_sealed c nonce key pt ct : String.length nonce = NonceSize -> key ∈ decrypters c -> sealed_under key pt ct ->
  exists r, migrate (Some c) (Some nonce) ct = Ok r /\ sealed_under (primary c) pt (default ct r)
    /\ (r = None <-> key = primary c).
Proof using Type*.
  intros Hn Hk Hs. unfold migrate. rewrite (EncryptedWithPrimary_sealed _ _ _ c Hs). case_bool_decide as Hp.
  - exists None. split; [done|]. by subst key.
  - rewrite (Decrypt_sealed _ _ _ _ Hs Hk). destruct (Encrypt_sealed nonce pt c Hn) as (ct' & -> & Hs').
    by exists (Some ct').
Qed.

(** Every secret of a column is readable with some key of the cipher. *)
Definition readable (c : Cipher) (pts col : gmap N string) : Prop :=
  forall id, match col !! id with
             | Some ct => exists pt key, pts !! id = Some pt /\ key ∈ decrypters c /\ sealed_under key pt ct
             | None => pts !! id = None
             end.

Definition under_primary (key : string) (pts col : gmap N string) : Prop :=
  forall id, match col !! id with
             | Some ct => exists pt, pts !! id = Some pt /\ sealed_under key pt ct
             | None => pts !! id = None
             end.

(** The rows of a batch not yet visited hold the column's values, the others are
    done. *)
Lemma reencrypt_batch_spec c nonces pts batch : forall i col m,
  primary c ∈ decrypters c ->
  (forall j, exists nonce, nonces j = Some nonce /\ String.length nonce = NonceSize) ->
  NoDup batch.*1 -> (forall id ct, (id, ct) ∈ batch -> col !! id = Some ct) ->
  readable c pts col -> (forall id ct, col !! id = Some ct -> id ∉ batch.*1 ->
    exists pt, pts !! id = Some pt /\ sealed_under (primary c) pt ct) ->
  exists i' col' m', reencrypt_batch (fun j => migrate (Some c) (nonces j)) i batch col m = Ok (i', col', m')
    /\ under_primary (primary c) pts col'.
Proof using Type*.
  induction batch as [|[id enc] batch IH]; intros i col m Hwf Hnonce Hnd Hin Hread Hdone; cbn [reencrypt_batch].
  - exists i, col, m. split; [done|]. intros id. specialize (Hread id).
    destruct (col !! id) as [ct|] eqn:Hct; [|done]. apply (Hdone id ct Hct). apply not_elem_of_nil.
  - cbn [fmap list_fmap fst] in Hnd. apply NoDup_cons in Hnd as [Hnew Hnd].
    assert (col !! id = Some enc) as Henc by (apply Hin; left).
    pose proof (Hread id) as Hr. rewrite Henc in Hr. destruct Hr as (pt & key & Hpt & Hk & Hs).
    destruct (Hnonce i) as (nonce & Hni & Hlen). rewrite Hni.
    destruct (migrate_sealed c nonce key pt enc Hlen Hk Hs) as (r & -> & Hs' & _).
    assert (forall id' ct, (id', ct) ∈ batch -> id' <> id) as Hne.
    { intros id' ct Hb ->. apply Hnew. apply list_elem_of_fmap. by exists (id, ct). }
    assert (forall col', col' !! id = Some (default enc r) -> (forall id', id' <> id -> col' !! id' = col !! id') ->
      (forall id' ct, (id', ct) ∈ batch -> col' !! id' = Some ct) /\ readable c pts col' /\
      (forall id' ct, col' !! id' = Some ct -> id' ∉ batch.*1 ->
         exists pt, pts !! id' = Some pt /\ sealed_under (primary c) pt ct)) as Hstep.
    { intros col' Hid Hother. split_and!.
      - intros id' ct Hb. rewrite Hother by (by eapply Hne). apply Hin. by right.
      - intros id'. destruct (decide (id' = id)) as [->|Hd]; [|rewrite Hother by done; apply Hread].
        rewrite Hid. eauto.
      - intros id' ct Hct Hnb. destruct (decide (id' = id)) as [->|Hd].
        + rewrite Hid in Hct. injection Hct as <-. eauto.
        + rewrite Hother in Hct by done. apply (Hdone id' ct Hct). by apply not_elem_of_cons. }
    destruct r as [ne|].
    + destruct (Hstep (<[id := ne]> col)) as (Hs1 & Hs2 & Hs3);
        [by rewrite lookup_insert_eq|intros id' Hd; by rewrite lookup_insert_ne|]. by apply IH.
    + destruct (Hstep col Henc) as (Hs1 & Hs2 & Hs3); [done|]. by apply IH.
Qed.

Lemma reencrypt_column c nonces pts col i m : primary c ∈ decrypters c ->
  (forall j, exists nonce, nonces j = Some nonce /\ String.length nonce = NonceSize) -> readable c pts col ->
  exists i' col' m', reencrypt_batch (fun j => migrate (Some c) (nonces j)) i (map_to_list col) col m = Ok (i', col', m')
    /\ under_primary (primary c) pts col'.
Proof using Type*.
  intros Hwf Hn Hr. apply reencrypt_batch_spec; try done.
  - apply NoDup_fst_map_to_list.
  - intros id ct. by rewrite elem_of_map_to_list.
  - intros id ct Hct Hnot. destruct Hnot. apply list_elem_of_fmap. exists (id, ct). by rewrite elem_of_map_to_list.
Qed.

(** A column under the primary key is left as it is. *)
Lemma reencrypt_batch_fixed c nonces batch : forall i col m,
  (forall id ct, (id, ct) ∈ batch -> exists pt, sealed_under (primary c) pt ct) ->
  reencrypt_batch (fun j => migrate (Some c) (nonces j)) i batch col m = Ok ((i + length batch)%nat, col, m).
Proof using Type*.
  induction batch as [|[id enc] batch IH]; intros i col m Hb; cbn [reencrypt_batch length].
  - by rewrite Nat.add_0_r.
  - destruct (Hb id enc) as [pt Hs]; [left|]. unfold migrate at 1.
    rewrite (EncryptedWithPrimary_sealed _ _ _ c Hs), bool_decide_true by done.
    rewrite IH; [do 2 f_equal; f_equal; lia|]. intros id' ct ?. apply (Hb id' ct). by right.
Qed.

End laws.

(** ** A concrete AEAD for the witnesses: the key in front of the plaintext,
    compared on opening. *)

Fixpoint toy_seal (key pt : string) : string :=
  match key with
  | EmptyString => String "." pt
  | String c key => String "k" (String c (toy_seal key pt))
  end.

Fixpoint toy_open (key body : string) : option string :=
  match key, body with
  | EmptyString, String "." pt => Some pt
  | String c key, String "k" (String d body) => if decide (c = d) then toy_open key body else None
  | _, _ => None
  end.

Definition ex_aead : Aead := Build_Aead (fun key _ pt => toy_seal key pt) (fun key _ body => toy_open key body).

#[local] Existing Instance ex_aead.

Lemma ex_aead_laws : AeadLaws.
Proof.
  split; simpl; intros key.
  - intros _ pt. induction key as [|c key IH]; simpl; [done|]. by rewrite decide_True.
  - intros key' _ pt. revert key'. induction key as [|c key IH]; intros [|c' key'] Hne; simpl; try done.
    case_decide; [|done]. subst. apply IH. congruence.
Qed.
#[local] Existing Instance ex_aead_laws.

(** "0123456789abcdef0123456789abcdef" and "fedcba9876543210fedcba9876543210". *)
Definition ex_new_key : string := std_encode "0123456789abcdef0123456789abcdef".
Definition ex_old_key : string := std_encode "fedcba9876543210fedcba9876543210".
Definition ex_nonce : string := "nonce-nonce-".

Definition ex_old_cipher : Cipher := match New ex_old_key with Ok c => c | Err _ => MkCipher "" [] end.
Definition ex_cipher : Cipher := match NewWithSecondaries ex_new_key [ex_old_key] with Ok c => c | Err _ => MkCipher "" [] end.
Definition ex_new_cipher : Cipher := match New ex_new_key with Ok c => c | Err _ => MkCipher "" [] end.
Definition ex_sealed : string :=
  match Encrypt (Some ex_nonce) "hunter2" (Some ex_old_cipher) with Ok ct => ct | Err _ => "" end.

