(* ===== verification/Catalog.v ===== *)
(** The component catalog (internal/pipelines/catalog/catalog.go): the collector
    components a pipeline may use, with the JSON Schemas of their configs.

    A schema is kept as the JSON document its text decodes to ([Schema]); the
    schema validator is a library and a parameter of [ValidateConfig]. *)
From S2P Require Import Prelude GoStrings Json.
From Stdlib Require Import Ascii.

Open Scope string_scope.

Definition KindProcessor : string := "processor".
Definition KindExporter : string := "exporter".

Record Component : Type := MkComponent {
  comp_Type : string;
  comp_Kind : string;
  comp_DisplayName : string;
  comp_Description : string;
  comp_DocsURL : string;
  comp_Icon : string;
  comp_Schema : jval;
  comp_Defaults : jval
}.

Record Preset : Type := MkPreset {
  preset_ID : string;
  preset_DisplayName : string;
  preset_Description : string;
  preset_Icon : string;
  preset_ExporterType : string;
  preset_DocsURL : string;
  preset_Defaults : jval
}.

(** Schema and Defaults decode into [map[string]any]. *)
Definition Schema (c : Component) : option (list (string * jval)) := as_obj (comp_Schema c).
Definition Defaults (c : Component) : option (list (string * jval)) := as_obj (comp_Defaults c).

(** ** Data *)

Definition durationSchema : jval :=
  JObj [
    ("type", JStr "string");
    ("pattern", JStr "^[0-9]+(ns|us|ms|s|m|h)$");
    ("description", JStr "Go duration, e.g. 5s")].

Definition headersSchema : jval :=
  JObj [
    ("type", JStr "object");
    ("description", JStr "Additional headers sent with every request.");
    ("additionalProperties", JObj [("type", JStr "string"); ("format", JStr "password")])].

Definition sendingQueueSchema : jval :=
  JObj [
    ("type", JStr "object");
    ("additionalProperties", JBool false);
    ("properties", JObj [
      ("enabled", JObj [("type", JStr "boolean")]);
      ("queue_size", JObj [("type", JStr "integer"); ("minimum", JInt 1)])])].

Definition retryOnFailureSchema : jval :=
  JObj [
    ("type", JStr "object");
    ("additionalProperties", JBool false);
    ("properties", JObj [("enabled", JObj [("type", JStr "boolean")])])].

Definition tlsSchema : jval :=
  JObj [
    ("type", JStr "object");
    ("additionalProperties", JBool false);
    ("properties", JObj [
      ("insecure", JObj [("type", JStr "boolean"); ("description", JStr "Disable TLS (plaintext connection).")]);
      ("insecure_skip_verify", JObj [("type", JStr "boolean"); ("description", JStr "Skip certificate verification.")])])].

Definition compressionSchema : jval :=
  JObj [
    ("type", JStr "string");
    ("enum", JArr [JStr "gzip"; JStr "zstd"; JStr "snappy"; JStr "none"])].

Definition errorModeSchema : jval :=
  JObj [("type", JStr "string"); ("enum", JArr [JStr "ignore"; JStr "silent"; JStr "propagate"])].

Definition processor_batch : Component :=
  MkComponent "batch" KindProcessor "Batch"
    "Batches telemetry before export to reduce request count."
    "https://github.com/open-telemetry/opentelemetry-collector/tree/main/processor/batchprocessor"
    ""
    (JObj [
       ("type", JStr "object");
       ("additionalProperties", JBool false);
       ("properties", JObj [
         ("timeout", durationSchema);
         ("send_batch_size", JObj [("type", JStr "integer"); ("minimum", JInt 0)]);
         ("send_batch_max_size", JObj [("type", JStr "integer"); ("minimum", JInt 0)])])])
    (JObj [("timeout", JStr "5s"); ("send_batch_size", JInt 8192)]).

Definition processor_memory_limiter : Component :=
  MkComponent "memory_limiter" KindProcessor "Memory Limiter"
    "Refuses/drops data when the collector approaches its memory limit."
    "https://github.com/open-telemetry/opentelemetry-collector/tree/main/processor/memorylimiterprocessor"
    ""
    (JObj [
       ("type", JStr "object");
       ("additionalProperties", JBool false);
       ("required", JArr [JStr "check_interval"]);
       ("properties", JObj [
         ("check_interval", durationSchema);
         ("limit_percentage", JObj [("type", JStr "integer"); ("minimum", JInt 1); ("maximum", JInt 100)]);
         ("spike_limit_percentage", JObj [("type", JStr "integer"); ("minimum", JInt 0); ("maximum", JInt 100)]);
         ("limit_mib", JObj [("type", JStr "integer"); ("minimum", JInt 0)]);
         ("spike_limit_mib", JObj [("type", JStr "integer"); ("minimum", JInt 0)])])])
    (JObj [
       ("check_interval", JStr "1s");
       ("limit_percentage", JInt 80);
       ("spike_limit_percentage", JInt 20)]).

Definition processor_filter : Component :=
  MkComponent "filter" KindProcessor "Filter"
    "Drops telemetry matching OTTL conditions."
    "https://github.com/open-telemetry/opentelemetry-collector-contrib/tree/main/processor/filterprocessor"
    ""
    (JObj [
       ("type", JStr "object");
       ("additionalProperties", JBool false);
       ("properties", JObj [
         ("error_mode", errorModeSchema);
         ("logs", JObj [
           ("type", JStr "object");
           ("additionalProperties", JBool false);
           ("properties", JObj [
             ("log_record", JObj [
               ("type", JStr "array");
               ("items", JObj [("type", JStr "string")]);
               ("description", JStr "OTTL conditions; matching records are dropped.")])])]);
         ("traces", JObj [
           ("type", JStr "object");
           ("additionalProperties", JBool false);
           ("properties", JObj [
             ("span", JObj [("type", JStr "array"); ("items", JObj [("type", JStr "string")])]);
             ("spanevent", JObj [("type", JStr "array"); ("items", JObj [("type", JStr "string")])])])]);
         ("metrics", JObj [
           ("type", JStr "object");
           ("additionalProperties", JBool false);
           ("properties", JObj [
             ("metric", JObj [("type", JStr "array"); ("items", JObj [("type", JStr "string")])]);
             ("datapoint", JObj [("type", JStr "array"); ("items", JObj [("type", JStr "string")])])])])])])
    (JObj [("error_mode", JStr "ignore")]).

Definition processor_transform : Component :=
  MkComponent "transform" KindProcessor "Transform"
    "Modifies telemetry with OTTL statements."
    "https://github.com/open-telemetry/opentelemetry-collector-contrib/tree/main/processor/transformprocessor"
    ""
    (JObj [
       ("type", JStr "object");
       ("additionalProperties", JBool false);
       ("properties", JObj [
         ("error_mode", errorModeSchema);
         ("log_statements", JObj [
           ("type", JStr "array");
           ("items", JObj [("type", JStr "string")]);
           ("description", JStr "Flat OTTL statements applied to logs.")]);
         ("trace_statements", JObj [("type", JStr "array"); ("items", JObj [("type", JStr "string")])]);
         ("metric_statements", JObj [("type", JStr "array"); ("items", JObj [("type", JStr "string")])])])])
    (JObj [("error_mode", JStr "ignore")]).

Definition processor_attributes : Component :=
  MkComponent "attributes" KindProcessor "Attributes"
    "Inserts, updates, deletes or hashes span/log/metric attributes."
    "https://github.com/open-telemetry/opentelemetry-collector-contrib/tree/main/processor/attributesprocessor"
    ""
    (JObj [
       ("type", JStr "object");
       ("additionalProperties", JBool false);
       ("required", JArr [JStr "actions"]);
       ("properties", JObj [
         ("actions", JObj [
           ("type", JStr "array");
           ("items", JObj [
             ("type", JStr "object");
             ("additionalProperties", JBool false);
             ("required", JArr [JStr "key"; JStr "action"]);
             ("properties", JObj [
               ("key", JObj [("type", JStr "string"); ("minLength", JInt 1)]);
               ("action", JObj [
                 ("type", JStr "string");
                 ("enum", JArr [JStr "insert"; JStr "update"; JStr "upsert"; JStr "delete"; JStr "hash"; JStr "extract"; JStr "convert"])]);
               ("value", JObj []);
               ("from_attribute", JObj [("type", JStr "string")]);
               ("pattern", JObj [("type", JStr "string")]);
               ("converted_type", JObj [
                 ("type", JStr "string");
                 ("enum", JArr [JStr "int"; JStr "double"; JStr "string"])])])])])])])
    (JObj [("actions", JArr [])]).

Definition processor_resource : Component :=
  MkComponent "resource" KindProcessor "Resource"
    "Modifies resource attributes (applies to all signals)."
    "https://github.com/open-telemetry/opentelemetry-collector-contrib/tree/main/processor/resourceprocessor"
    ""
    (JObj [
       ("type", JStr "object");
       ("additionalProperties", JBool false);
       ("required", JArr [JStr "attributes"]);
       ("properties", JObj [
         ("attributes", JObj [
           ("type", JStr "array");
           ("items", JObj [
             ("type", JStr "object");
             ("additionalProperties", JBool false);
             ("required", JArr [JStr "key"; JStr "action"]);
             ("properties", JObj [
               ("key", JObj [("type", JStr "string"); ("minLength", JInt 1)]);
               ("action", JObj [
                 ("type", JStr "string");
                 ("enum", JArr [JStr "insert"; JStr "update"; JStr "upsert"; JStr "delete"; JStr "hash"; JStr "extract"; JStr "convert"])]);
               ("value", JObj []);
               ("from_attribute", JObj [("type", JStr "string")]);
               ("pattern", JObj [("type", JStr "string")])])])])])])
    (JObj [("attributes", JArr [])]).

Definition exporter_otlp : Component :=
  MkComponent "otlp" KindExporter "OTLP (gRPC)"
    "Sends telemetry to an OTLP gRPC endpoint."
    "https://github.com/open-telemetry/opentelemetry-collector/tree/main/exporter/otlpexporter"
    ""
    (JObj [
       ("type", JStr "object");
       ("additionalProperties", JBool false);
       ("required", JArr [JStr "endpoint"]);
       ("properties", JObj [
         ("endpoint", JObj [
           ("type", JStr "string");
           ("minLength", JInt 1);
           ("description", JStr "host:port of the OTLP gRPC endpoint.")]);
         ("tls", tlsSchema);
         ("compression", compressionSchema);
         ("timeout", durationSchema);
         ("headers", headersSchema);
         ("sending_queue", sendingQueueSchema);
         ("retry_on_failure", retryOnFailureSchema)])])
    (JObj [
       ("endpoint", JStr "backend.example.com:4317");
       ("tls", JObj [("insecure", JBool false)]);
       ("compression", JStr "gzip")]).

Definition exporter_otlphttp : Component :=
  MkComponent "otlphttp" KindExporter "OTLP (HTTP)"
    "Sends telemetry to an OTLP/HTTP endpoint."
    "https://github.com/open-telemetry/opentelemetry-collector/tree/main/exporter/otlphttpexporter"
    ""
    (JObj [
       ("type", JStr "object");
       ("additionalProperties", JBool false);
       ("required", JArr [JStr "endpoint"]);
       ("properties", JObj [
         ("endpoint", JObj [
           ("type", JStr "string");
           ("minLength", JInt 1);
           ("description", JStr "Base URL, e.g. https://otlp.example.com:4318.")]);
         ("tls", tlsSchema);
         ("compression", compressionSchema);
         ("timeout", durationSchema);
         ("headers", headersSchema);
         ("sending_queue", sendingQueueSchema);
         ("retry_on_failure", retryOnFailureSchema)])])
    (JObj [("endpoint", JStr "https://backend.example.com:4318"); ("compression", JStr "gzip")]).

Definition exporter_debug : Component :=
  MkComponent "debug" KindExporter "Debug"
    "Logs telemetry to the collector's stdout (development only)."
    "https://github.com/open-telemetry/opentelemetry-collector/tree/main/exporter/debugexporter"
    ""
    (JObj [
       ("type", JStr "object");
       ("additionalProperties", JBool false);
       ("properties", JObj [
         ("verbosity", JObj [
           ("type", JStr "string");
           ("enum", JArr [JStr "basic"; JStr "normal"; JStr "detailed"])]);
         ("sampling_initial", JObj [("type", JStr "integer"); ("minimum", JInt 0)]);
         ("sampling_thereafter", JObj [("type", JStr "integer"); ("minimum", JInt 0)])])])
    (JObj [("verbosity", JStr "basic")]).

Definition exporter_clickhouse : Component :=
  MkComponent "clickhouse" KindExporter "ClickHouse"
    "Writes telemetry to ClickHouse tables."
    "https://github.com/open-telemetry/opentelemetry-collector-contrib/tree/main/exporter/clickhouseexporter"
    ""
    (JObj [
       ("type", JStr "object");
       ("additionalProperties", JBool false);
       ("required", JArr [JStr "endpoint"]);
       ("properties", JObj [
         ("endpoint", JObj [
           ("type", JStr "string");
           ("minLength", JInt 1);
           ("description", JStr "ClickHouse DSN, e.g. tcp://host:9000.")]);
         ("database", JObj [("type", JStr "string")]);
         ("username", JObj [("type", JStr "string")]);
         ("password", JObj [("type", JStr "string"); ("format", JStr "password")]);
         ("logs_table_name", JObj [("type", JStr "string")]);
         ("traces_table_name", JObj [("type", JStr "string")]);
         ("metrics_table_name", JObj [("type", JStr "string")]);
         ("ttl", durationSchema);
         ("timeout", durationSchema);
         ("sending_queue", sendingQueueSchema);
         ("retry_on_failure", retryOnFailureSchema)])])
    (JObj [("endpoint", JStr "tcp://clickhouse.example.com:9000"); ("database", JStr "otel")]).

Definition exporter_prometheusremotewrite : Component :=
  MkComponent "prometheusremotewrite" KindExporter "Prometheus Remote Write"
    "Sends metrics to a Prometheus remote-write endpoint (metrics only)."
    "https://github.com/open-telemetry/opentelemetry-collector-contrib/tree/main/exporter/prometheusremotewriteexporter"
    ""
    (JObj [
       ("type", JStr "object");
       ("additionalProperties", JBool false);
       ("required", JArr [JStr "endpoint"]);
       ("properties", JObj [
         ("endpoint", JObj [
           ("type", JStr "string");
           ("minLength", JInt 1);
           ("description", JStr "Remote-write URL, e.g. https://vm.example.com/api/v1/write.")]);
         ("tls", tlsSchema);
         ("timeout", durationSchema);
         ("headers", headersSchema);
         ("external_labels", JObj [("type", JStr "object"); ("additionalProperties", JObj [("type", JStr "string")])]);
         ("remote_write_queue", JObj [
           ("type", JStr "object");
           ("additionalProperties", JBool false);
           ("properties", JObj [
             ("enabled", JObj [("type", JStr "boolean")]);
             ("queue_size", JObj [("type", JStr "integer"); ("minimum", JInt 1)]);
             ("num_consumers", JObj [("type", JStr "integer"); ("minimum", JInt 1)])])]);
         ("resource_to_telemetry_conversion", JObj [
           ("type", JStr "object");
           ("additionalProperties", JBool false);
           ("properties", JObj [("enabled", JObj [("type", JStr "boolean")])])])])])
    (JObj [("endpoint", JStr "https://metrics.example.com/api/v1/write")]).

Definition exporter_file : Component :=
  MkComponent "file" KindExporter "File"
    "Writes telemetry to a file on the forwarding collector."
    "https://github.com/open-telemetry/opentelemetry-collector-contrib/tree/main/exporter/fileexporter"
    ""
    (JObj [
       ("type", JStr "object");
       ("additionalProperties", JBool false);
       ("required", JArr [JStr "path"]);
       ("properties", JObj [
         ("path", JObj [("type", JStr "string"); ("minLength", JInt 1)]);
         ("format", JObj [("type", JStr "string"); ("enum", JArr [JStr "json"; JStr "proto"])]);
         ("flush_interval", durationSchema);
         ("rotation", JObj [
           ("type", JStr "object");
           ("additionalProperties", JBool false);
           ("properties", JObj [
             ("max_megabytes", JObj [("type", JStr "integer"); ("minimum", JInt 1)]);
             ("max_days", JObj [("type", JStr "integer"); ("minimum", JInt 1)]);
             ("max_backups", JObj [("type", JStr "integer"); ("minimum", JInt 0)])])])])])
    (JObj [("path", JStr "/var/lib/otelcol/export.json"); ("format", JStr "json")]).

Definition exporter_elasticsearch : Component :=
  MkComponent "elasticsearch" KindExporter "Elasticsearch"
    "Writes logs, traces and metrics to Elasticsearch data streams."
    "https://github.com/open-telemetry/opentelemetry-collector-contrib/tree/main/exporter/elasticsearchexporter"
    "elasticsearch"
    (JObj [
       ("type", JStr "object");
       ("additionalProperties", JBool true);
       ("required", JArr [JStr "endpoints"]);
       ("properties", JObj [
         ("endpoints", JObj [
           ("type", JStr "array");
           ("items", JObj [("type", JStr "string"); ("minLength", JInt 1)]);
           ("minItems", JInt 1);
           ("description", JStr "Elasticsearch URLs, e.g. https://es:9200.")]);
         ("api_key", JObj [("type", JStr "string"); ("format", JStr "password")]);
         ("user", JObj [("type", JStr "string")]);
         ("password", JObj [("type", JStr "string"); ("format", JStr "password")]);
         ("logs_index", JObj [("type", JStr "string")]);
         ("traces_index", JObj [("type", JStr "string")]);
         ("tls", tlsSchema);
         ("retry_on_failure", retryOnFailureSchema)])])
    (JObj [("endpoints", JArr [JStr "https://elasticsearch:9200"])]).

Definition exporter_datadog : Component :=
  MkComponent "datadog" KindExporter "Datadog"
    "Sends telemetry to Datadog. Requires an API key and site."
    "https://github.com/open-telemetry/opentelemetry-collector-contrib/tree/main/exporter/datadogexporter"
    "datadog"
    (JObj [
       ("type", JStr "object");
       ("additionalProperties", JBool true);
       ("required", JArr [JStr "api"]);
       ("properties", JObj [
         ("api", JObj [
           ("type", JStr "object");
           ("additionalProperties", JBool true);
           ("required", JArr [JStr "key"]);
           ("properties", JObj [
             ("key", JObj [("type", JStr "string"); ("format", JStr "password")]);
             ("site", JObj [
               ("type", JStr "string");
               ("description", JStr "e.g. datadoghq.com or datadoghq.eu.")])])])])])
    (JObj [("api", JObj [("site", JStr "datadoghq.com"); ("key", JStr "")])]).

Definition exporter_kafka : Component :=
  MkComponent "kafka" KindExporter "Kafka"
    "Publishes telemetry to Kafka topics (OTLP proto by default)."
    "https://github.com/open-telemetry/opentelemetry-collector-contrib/tree/main/exporter/kafkaexporter"
    "kafka"
    (JObj [
       ("type", JStr "object");
       ("additionalProperties", JBool true);
       ("required", JArr [JStr "brokers"]);
       ("properties", JObj [
         ("brokers", JObj [
           ("type", JStr "array");
           ("items", JObj [("type", JStr "string"); ("minLength", JInt 1)]);
           ("minItems", JInt 1);
           ("description", JStr "host:port broker list.")]);
         ("topic", JObj [("type", JStr "string")]);
         ("encoding", JObj [("type", JStr "string")]);
         ("tls", tlsSchema);
         ("retry_on_failure", retryOnFailureSchema)])])
    (JObj [("brokers", JArr [JStr "kafka:9092"]); ("encoding", JStr "otlp_proto")]).

Definition exporter_awss3 : Component :=
  MkComponent "awss3" KindExporter "AWS S3"
    "Archives telemetry to an S3 bucket (data lake / cold storage)."
    "https://github.com/open-telemetry/opentelemetry-collector-contrib/tree/main/exporter/awss3exporter"
    "awss3"
    (JObj [
       ("type", JStr "object");
       ("additionalProperties", JBool true);
       ("required", JArr [JStr "s3uploader"]);
       ("properties", JObj [
         ("s3uploader", JObj [
           ("type", JStr "object");
           ("additionalProperties", JBool true);
           ("required", JArr [JStr "s3_bucket"; JStr "region"]);
           ("properties", JObj [
             ("s3_bucket", JObj [("type", JStr "string")]);
             ("region", JObj [("type", JStr "string"); ("minLength", JInt 1)]);
             ("s3_prefix", JObj [("type", JStr "string")])])])])])
    (JObj [
       ("s3uploader", JObj [("s3_bucket", JStr ""); ("region", JStr "eu-central-1"); ("s3_prefix", JStr "otel")])]).

Definition exporter_splunk_hec : Component :=
  MkComponent "splunk_hec" KindExporter "Splunk HEC"
    "Sends telemetry to Splunk via the HTTP Event Collector."
    "https://github.com/open-telemetry/opentelemetry-collector-contrib/tree/main/exporter/splunkhecexporter"
    "splunk"
    (JObj [
       ("type", JStr "object");
       ("additionalProperties", JBool true);
       ("required", JArr [JStr "token"; JStr "endpoint"]);
       ("properties", JObj [
         ("token", JObj [("type", JStr "string"); ("format", JStr "password")]);
         ("endpoint", JObj [
           ("type", JStr "string");
           ("minLength", JInt 1);
           ("description", JStr "e.g. https://splunk:8088/services/collector.")]);
         ("source", JObj [("type", JStr "string")]);
         ("index", JObj [("type", JStr "string")]);
         ("tls", tlsSchema);
         ("retry_on_failure", retryOnFailureSchema)])])
    (JObj [("endpoint", JStr "https://splunk:8088/services/collector"); ("token", JStr "")]).

Definition all : list Component := [
  processor_batch;
  processor_memory_limiter;
  processor_filter;
  processor_transform;
  processor_attributes;
  processor_resource;
  exporter_otlp;
  exporter_otlphttp;
  exporter_debug;
  exporter_clickhouse;
  exporter_prometheusremotewrite;
  exporter_file;
  exporter_elasticsearch;
  exporter_datadog;
  exporter_kafka;
  exporter_awss3;
  exporter_splunk_hec].

Definition preset_grafana_loki : Preset :=
  MkPreset "grafana-loki" "Grafana Loki"
    "Ship logs to Loki via its native OTLP endpoint."
    "loki" "otlphttp"
    "https://grafana.com/docs/loki/latest/send-data/otel/"
    (JObj [("endpoint", JStr "https://loki.example.com:3100/otlp"); ("compression", JStr "gzip")]).

Definition preset_grafana_tempo : Preset :=
  MkPreset "grafana-tempo" "Grafana Tempo"
    "Send traces to Tempo over OTLP gRPC."
    "tempo" "otlp"
    "https://grafana.com/docs/tempo/latest/configuration/otel-collector/"
    (JObj [
       ("endpoint", JStr "tempo.example.com:4317");
       ("tls", JObj [("insecure", JBool false)]);
       ("compression", JStr "gzip")]).

Definition preset_grafana_mimir : Preset :=
  MkPreset "grafana-mimir" "Grafana Mimir / Prometheus"
    "Remote-write metrics to Mimir or any Prometheus-compatible store."
    "prometheus" "prometheusremotewrite"
    "https://grafana.com/docs/mimir/latest/references/http-api/#remote-write"
    (JObj [("endpoint", JStr "https://mimir.example.com/api/v1/push")]).

Definition preset_grafana_cloud : Preset :=
  MkPreset "grafana-cloud" "Grafana Cloud (OTLP)"
    "Send logs, traces and metrics to Grafana Cloud's OTLP gateway (Basic auth)."
    "grafana" "otlphttp"
    "https://grafana.com/docs/grafana-cloud/send-data/otlp/"
    (JObj [
       ("endpoint", JStr "https://otlp-gateway-prod-eu-west-0.grafana.net/otlp");
       ("compression", JStr "gzip");
       ("headers", JObj [("Authorization", JStr "Basic <base64 instanceID:token>")])]).

Definition preset_jaeger : Preset :=
  MkPreset "jaeger" "Jaeger"
    "Send traces to Jaeger's OTLP collector endpoint."
    "jaeger" "otlp"
    "https://www.jaegertracing.io/docs/latest/deployment/#collector"
    (JObj [
       ("endpoint", JStr "jaeger-collector.example.com:4317");
       ("tls", JObj [("insecure", JBool false)])]).

Definition preset_otlp_generic : Preset :=
  MkPreset "otlp-generic" "Generic OTLP/HTTP"
    "Any OTLP/HTTP backend."
    "otlp" "otlphttp"
    "https://github.com/open-telemetry/opentelemetry-collector/tree/main/exporter/otlphttpexporter"
    (JObj [("endpoint", JStr "https://backend.example.com:4318"); ("compression", JStr "gzip")]).

Definition preset_elasticsearch : Preset :=
  MkPreset "elasticsearch" "Elasticsearch"
    "Index logs, traces and metrics in Elasticsearch."
    "elasticsearch" "elasticsearch"
    "https://github.com/open-telemetry/opentelemetry-collector-contrib/tree/main/exporter/elasticsearchexporter"
    (JObj [("endpoints", JArr [JStr "https://elasticsearch.example.com:9200"])]).

Definition preset_datadog : Preset :=
  MkPreset "datadog" "Datadog"
    "Forward telemetry to Datadog."
    "datadog" "datadog"
    "https://github.com/open-telemetry/opentelemetry-collector-contrib/tree/main/exporter/datadogexporter"
    (JObj [("api", JObj [("site", JStr "datadoghq.eu"); ("key", JStr "")])]).

Definition preset_kafka : Preset :=
  MkPreset "kafka" "Kafka"
    "Publish telemetry to a Kafka topic."
    "kafka" "kafka"
    "https://github.com/open-telemetry/opentelemetry-collector-contrib/tree/main/exporter/kafkaexporter"
    (JObj [("brokers", JArr [JStr "kafka.example.com:9092"]); ("encoding", JStr "otlp_proto")]).

Definition preset_aws_s3 : Preset :=
  MkPreset "aws-s3" "AWS S3"
    "Archive telemetry to an S3 bucket."
    "awss3" "awss3"
    "https://github.com/open-telemetry/opentelemetry-collector-contrib/tree/main/exporter/awss3exporter"
    (JObj [
       ("s3uploader", JObj [("s3_bucket", JStr ""); ("region", JStr "eu-central-1"); ("s3_prefix", JStr "otel")])]).

Definition preset_splunk_hec : Preset :=
  MkPreset "splunk-hec" "Splunk HEC"
    "Send telemetry to Splunk's HTTP Event Collector."
    "splunk" "splunk_hec"
    "https://github.com/open-telemetry/opentelemetry-collector-contrib/tree/main/exporter/splunkhecexporter"
    (JObj [
       ("endpoint", JStr "https://splunk.example.com:8088/services/collector");
       ("token", JStr "")]).

Definition presets : list Preset := [
  preset_grafana_loki;
  preset_grafana_tempo;
  preset_grafana_mimir;
  preset_grafana_cloud;
  preset_jaeger;
  preset_otlp_generic;
  preset_elasticsearch;
  preset_datadog;
  preset_kafka;
  preset_aws_s3;
  preset_splunk_hec].

(** ** Operations *)

Fixpoint lookup_in (l : list Component) (kind typ : string) : option Component :=
  match l with
  | [] => None
  | c :: l => if bool_decide (comp_Kind c = kind) && bool_decide (comp_Type c = typ) then Some c else lookup_in l kind typ
  end.

Definition Lookup (kind typ : string) : option Component := lookup_in all kind typ.

Definition byKind (kind : string) : list Component := filter (fun c => comp_Kind c = kind) all.
Definition Processors : list Component := byKind KindProcessor.
Definition Exporters : list Component := byKind KindExporter.
Definition All : list Component := all.
Definition Presets : list Preset := presets.

(** [validate_schema schema config] is the library's list of violations; a nil
    config is validated as the empty object. *)
Definition ValidateConfig {E} (validate_schema : jval -> jval -> list E) (c : Component)
    (config : option (list (string * jval))) : list E :=
  validate_schema (comp_Schema c) (JObj (default [] config)).

(** ** What the rest of the program relies on *)

Lemma lookup_in_Some l kind typ c : lookup_in l kind typ = Some c -> c ∈ l /\ comp_Kind c = kind /\ comp_Type c = typ.
Proof.
  induction l as [|x l IH]; simpl; [done|]. destruct (bool_decide_reflect (comp_Kind x = kind)); simpl.
  - case_bool_decide; [intros [= <-]; split_and!; [left|done|done]|]. intros (? & ?)%IH. split; [by right|done].
  - intros (? & ?)%IH. split; [by right|done].
Qed.

(** A component type never contains the slash that separates it from the rest of
    a component id. *)
Lemma Lookup_type_no_slash kind typ c : Lookup kind typ = Some c -> has_byte "/" typ = false /\ typ <> "".
Proof.
  intros (Hin & _ & <-)%lookup_in_Some.
  assert (Forall (fun c => has_byte "/" (comp_Type c) = false /\ comp_Type c <> "") all) as Hall.
  { repeat constructor; done. }
  by apply (proj1 (Forall_forall _ _) Hall).
Qed.

Lemma Lookup_schema_obj kind typ c : Lookup kind typ = Some c -> is_Some (Schema c).
Proof.
  intros (Hin & _ & _)%lookup_in_Some.
  assert (Forall (fun c => is_Some (Schema c)) all) as Hall by (repeat constructor; eauto).
  by apply (proj1 (Forall_forall _ _) Hall).
Qed.
