(* ===== verification/PipelineGraph.v ===== *)
(** Pipeline graphs and the naming of collector components
    (internal/pipelines/graph.go, naming.go). *)
From S2P Require Import Prelude GoStrings Json Slug Catalog.
From Stdlib Require Import Ascii.

Open Scope string_scope.

(** ** graph.go *)

Definition Signals : list string := ["logs"; "traces"; "metrics"].

Definition validSignal (s : string) : bool := bool_decide (s ∈ Signals).

(** A nil config is [None]. *)
Record Node : Type := MkNode {
  node_Type : string;
  node_Name : option string;
  node_Config : option (list (string * jval))
}.

Record Graph : Type := MkGraph {
  graph_Signals : list string;
  graph_Processors : list Node;
  graph_Exporters : list Node
}.

Definition hasSignal (g : Graph) (sig : string) : bool := bool_decide (sig ∈ graph_Signals g).

(** *** Decoding *)

(** Member names match field names up to case: ASCII letters, the long s (C5 BF)
    and the Kelvin sign (E2 84 AA). *)
Fixpoint json_fold (s : string) : string :=
  match s with
  | EmptyString => ""
  | String "197" (String "191" s) => String "s" (json_fold s)
  | String "226" (String "132" (String "170" s)) => String "k" (json_fold s)
  | String c s => String (ascii_lower c) (json_fold s)
  end.

(** The last member that sets a field.  A document that sets one field under
    two spellings, which no writer of graphs produces, is not distinguished
    from one with the last of them. *)
Fixpoint json_field (name : string) (m : list (string * jval)) : option jval :=
  match m with
  | [] => None
  | (k, v) :: m =>
      match json_field name m with
      | Some v' => Some v'
      | None => if decide (json_fold k = name) then Some v else None
      end
  end.

(** [None] is a type error; null leaves the zero value. *)
Definition decode_string (v : option jval) : option string :=
  match v with
  | None | Some JNull => Some ""
  | Some (JStr s) => Some s
  | Some _ => None
  end.

Definition decode_name (v : option jval) : option (option string) :=
  match v with
  | None | Some JNull => Some None
  | Some (JStr s) => Some (Some s)
  | Some _ => None
  end.

Definition decode_config (v : option jval) : option (option (list (string * jval))) :=
  match v with
  | None | Some JNull => Some None
  | Some (JObj m) => Some (Some m)
  | Some _ => None
  end.

Definition decode_slice {A} (f : jval -> option A) (v : option jval) : option (list A) :=
  match v with
  | None | Some JNull => Some []
  | Some (JArr l) => mapM f l
  | Some _ => None
  end.

Definition decode_node (v : jval) : option Node :=
  match v with
  | JNull => Some (MkNode "" None None)
  | JObj m =>
      t ← decode_string (json_field "type" m);
      n ← decode_name (json_field "name" m);
      c ← decode_config (json_field "config" m);
      Some (MkNode t n c)
  | _ => None
  end.

(** [None] is the parse error.  Absent lists become empty ones, as everywhere in
    the model. *)
Definition ParseGraph (raw : jval) : option Graph :=
  match raw with
  | JNull => Some (MkGraph [] [] [])
  | JObj m =>
      s ← decode_slice (fun v => decode_string (Some v)) (json_field "signals" m);
      p ← decode_slice decode_node (json_field "processors" m);
      e ← decode_slice decode_node (json_field "exporters" m);
      Some (MkGraph s p e)
  | _ => None
  end.

Definition marshal_node (n : Node) : jval :=
  JObj ([("type", JStr (node_Type n))]
        ++ match node_Name n with Some s => [("name", JStr s)] | None => [] end
        ++ [("config", match node_Config n with Some m => JObj m | None => JNull end)])%list.

Definition MarshalGraph (g : Graph) : jval :=
  JObj [("signals", JArr (JStr <$> graph_Signals g));
        ("processors", JArr (marshal_node <$> graph_Processors g));
        ("exporters", JArr (marshal_node <$> graph_Exporters g))].

Lemma decode_marshal_node n : decode_node (marshal_node n) = Some n.
Proof. by destruct n as [t [s|] [m|]]. Qed.

(** A stored graph is read back unchanged. *)
Lemma ParseGraph_MarshalGraph g : ParseGraph (MarshalGraph g) = Some g.
Proof.
  destruct g as [s p e].
  assert (forall l, decode_slice decode_node (Some (JArr (marshal_node <$> l))) = Some l) as Hn.
  { intros l. cbn [decode_slice]. apply mapM_Some. induction l; constructor; [apply decode_marshal_node|done]. }
  assert (decode_slice (fun v => decode_string (Some v)) (Some (JArr (JStr <$> s))) = Some s) as Hs.
  { cbn [decode_slice]. apply mapM_Some. induction s; by constructor. }
  transitivity (s' ← decode_slice (fun v => decode_string (Some v)) (Some (JArr (JStr <$> s)));
                p' ← decode_slice decode_node (Some (JArr (marshal_node <$> p)));
                e' ← decode_slice decode_node (Some (JArr (marshal_node <$> e))); Some (MkGraph s' p' e')).
  { reflexivity. }
  by rewrite Hs, !Hn.
Qed.

(** ** naming.go *)

Section naming.
Context (unicode_lower : Z -> Z).

Definition PipelineSlug (name : string) : string := DeriveSlug unicode_lower name.

Definition pipelineKey (customerSlug pipelineSlug : string) : string := customerSlug +:+ "__" +:+ pipelineSlug.

Definition CollectorPipelineID (signal customerSlug pipelineSlug : string) : string :=
  signal +:+ "/" +:+ pipelineKey customerSlug pipelineSlug.

Definition nodeSuffix (n : Node) (idx : Z) : string :=
  match node_Name n with
  | Some s => if decide (s = "") then itoa idx else s
  | None => itoa idx
  end.

Definition ComponentID (n : Node) (idx : Z) (customerSlug pipelineSlug : string) : string :=
  node_Type n +:+ "/" +:+ pipelineKey customerSlug pipelineSlug +:+ "__" +:+ nodeSuffix n idx.

Definition ComponentType (id : string) : string :=
  match cut "/" id with Some (t, _) => t | None => id end.

(** The pattern of node names: a lower-case letter or digit, then at most 63
    of these and hyphens. *)
Definition node_name_pattern (l : list ascii) : bool :=
  match l with
  | [] => false
  | c :: l => is_slug_alnum c && forallb slug_char l && (length l <=? 63)%nat
  end.
Definition ValidNodeName (name : string) : bool := node_name_pattern (bytes_of name).
End naming.

(** *** The metric contract *)

Lemma PipelineSlug_valid unicode_lower name : ValidSlug (PipelineSlug unicode_lower name) = true.
Proof. apply DeriveSlug_always_valid. Qed.

Lemma app_dunder_inj a b a' b' : has_byte "_" a = false -> has_byte "_" a' = false ->
  a +:+ "__" +:+ b = a' +:+ "__" +:+ b' -> a = a' /\ b = b'.
Proof.
  intros Ha Ha' He. change ("__" +:+ b) with (String "_" (String "_" b)) in He.
  change ("__" +:+ b') with (String "_" (String "_" b')) in He.
  apply app_sep_inj in He as [-> He]; [|done|done]. split; [done|]. congruence.
Qed.

Lemma pipelineKey_inj cs ps cs' ps' : ValidSlug cs = true -> ValidSlug cs' = true ->
  pipelineKey cs ps = pipelineKey cs' ps' -> cs = cs' /\ ps = ps'.
Proof. intros Hc Hc' He. apply app_dunder_inj in He; auto using ValidSlug_no_underscore. Qed.

Lemma CollectorPipelineID_inj s cs ps s' cs' ps' : has_byte "/" s = false -> has_byte "/" s' = false ->
  ValidSlug cs = true -> ValidSlug cs' = true ->
  CollectorPipelineID s cs ps = CollectorPipelineID s' cs' ps' -> s = s' /\ cs = cs' /\ ps = ps'.
Proof.
  intros Hs Hs' Hc Hc' He. unfold CollectorPipelineID in He. apply app_sep_inj in He as [-> He]; [|done|done].
  split; [done|]. by apply pipelineKey_inj.
Qed.

Lemma ComponentID_inj n i cs ps n' i' cs' ps' :
  has_byte "/" (node_Type n) = false -> has_byte "/" (node_Type n') = false ->
  ValidSlug cs = true -> ValidSlug cs' = true -> ValidSlug ps = true -> ValidSlug ps' = true ->
  ComponentID n i cs ps = ComponentID n' i' cs' ps' ->
  node_Type n = node_Type n' /\ cs = cs' /\ ps = ps' /\ nodeSuffix n i = nodeSuffix n' i'.
Proof.
  intros Ht Ht' Hc Hc' Hp Hp' He. unfold ComponentID, pipelineKey in He.
  apply app_sep_inj in He as [Hty He]; [|done|done]. rewrite !string_app_assoc in He.
  apply app_dunder_inj in He as [-> He]; [|by apply ValidSlug_no_underscore..].
  apply app_dunder_inj in He as [-> He]; [done|by apply ValidSlug_no_underscore..].
Qed.

Lemma ComponentType_ComponentID n i cs ps : has_byte "/" (node_Type n) = false ->
  ComponentType (ComponentID n i cs ps) = node_Type n.
Proof.
  intros Ht. transitivity (match cut "/" (node_Type n +:+ String "/" (pipelineKey cs ps +:+ "__" +:+ nodeSuffix n i)) with
                           | Some (t, _) => t | None => ComponentID n i cs ps end); [reflexivity|].
  by rewrite cut_app.
Qed.
