(* ===== verification/Secrets.v ===== *)
(** Secret fields of pipeline graphs (internal/pipelines/secrets.go): the walk
    over password-marked fields, encryption before storage, redaction and
    decryption. *)
From S2P Require Import Prelude GoStrings Base64 Json Catalog PipelineGraph Crypto.

Open Scope string_scope.

Definition RedactedSentinel : string := "__otel_fleet_redacted__".
Definition encKey : string := "$enc".

Definition encValue (v : jval) : option string :=
  match v with
  | JObj [(k, x)] => if decide (k = encKey) then s ← as_string x; std_decode s else None
  | _ => None
  end.

Definition newEncValue (ciphertext : string) : jval := JObj [(encKey, JStr (std_encode ciphertext))].

(** ** The walk

    [fn] is called on the path and value of every password-marked field; [St] is
    what its closure captures.  Go ranges over a map in no fixed order; the
    order here is that of the members. *)
Section walk.
Context {St E : Type} (fn : string -> jval -> St -> result (jval * St) E).

Definition index_path (path : string) (i : Z) : string := path +:+ "[" +:+ itoa i +:+ "]".

(** The schema of a member: its own, or that of additional properties. *)
Definition member_schema (schema : list (string * jval)) (k : string) : option (list (string * jval)) :=
  match get_obj schema "properties" ≫= (fun props => get_obj props k) with
  | Some sub => Some sub
  | None => get_obj schema "additionalProperties"
  end.

Definition is_password (schema : list (string * jval)) : bool := bool_decide (get_str schema "format" = Some "password").

Fixpoint transformSecrets (value : jval) (schema : option (list (string * jval))) (path : string) (st : St)
  : result (jval * St) E :=
  match schema with
  | None => Ok (value, st)
  | Some schema =>
      if is_password schema then fn path value st
      else
        match value with
        | JObj v =>
            let fix go (v : list (string * jval)) (st : St) : result (list (string * jval) * St) E :=
              match v with
              | [] => Ok ([], st)
              | (k, val) :: v =>
                  match transformSecrets val (member_schema schema k) (path +:+ "." +:+ k) st with
                  | Err e => Err e
                  | Ok (nv, st) =>
                      match go v st with
                      | Err e => Err e
                      | Ok (out, st) => Ok ((k, nv) :: out, st)
                      end
                  end
              end in
            match go v st with Err e => Err e | Ok (out, st) => Ok (JObj out, st) end
        | JArr v =>
            match get_obj schema "items" with
            | None => Ok (value, st)
            | Some items =>
                let fix go (i : Z) (v : list jval) (st : St) : result (list jval * St) E :=
                  match v with
                  | [] => Ok ([], st)
                  | val :: v =>
                      match transformSecrets val (Some items) (index_path path i) st with
                      | Err e => Err e
                      | Ok (nv, st) =>
                          match go (i + 1)%Z v st with
                          | Err e => Err e
                          | Ok (out, st) => Ok (nv :: out, st)
                          end
                      end
                  end in
                match go 0%Z v st with Err e => Err e | Ok (out, st) => Ok (JArr out, st) end
            end
        | _ => Ok (value, st)
        end
  end.

(** The loops, named. *)
Fixpoint transform_members (schema : list (string * jval)) (path : string) (v : list (string * jval)) (st : St)
  : result (list (string * jval) * St) E :=
  match v with
  | [] => Ok ([], st)
  | (k, val) :: v =>
      match transformSecrets val (member_schema schema k) (path +:+ "." +:+ k) st with
      | Err e => Err e
      | Ok (nv, st) =>
          match transform_members schema path v st with
          | Err e => Err e
          | Ok (out, st) => Ok ((k, nv) :: out, st)
          end
      end
  end.

Fixpoint transform_items (items : list (string * jval)) (path : string) (i : Z) (v : list jval) (st : St)
  : result (list jval * St) E :=
  match v with
  | [] => Ok ([], st)
  | val :: v =>
      match transformSecrets val (Some items) (index_path path i) st with
      | Err e => Err e
      | Ok (nv, st) =>
          match transform_items items path (i + 1) v st with
          | Err e => Err e
          | Ok (out, st) => Ok (nv :: out, st)
          end
      end
  end.

Lemma transformSecrets_eq value schema path st :
  transformSecrets value (Some schema) path st =
  if is_password schema then fn path value st
  else match value with
       | JObj v => match transform_members schema path v st with Err e => Err e | Ok (out, st) => Ok (JObj out, st) end
       | JArr v =>
           match get_obj schema "items" with
           | None => Ok (value, st)
           | Some items => match transform_items items path 0 v st with Err e => Err e | Ok (out, st) => Ok (JArr out, st) end
           end
       | _ => Ok (value, st)
       end.
Proof using Type.
  destruct value as [| | | |l|m]; try reflexivity; cbn [transformSecrets]; destruct (is_password schema); try reflexivity.
  - destruct (get_obj schema "items") as [items|]; [|reflexivity].
    match goal with |- match ?go 0%Z l st with _ => _ end = _ =>
      assert (forall i st, go i l st = transform_items items path i l st) as ->; [|reflexivity] end.
    induction l as [|x l IH]; intros i st'; [reflexivity|]. cbn [transform_items].
    destruct (transformSecrets _ _ _ _) as [[nv st1]|]; [|reflexivity]. by rewrite IH.
  - match goal with |- match ?go m st with _ => _ end = _ =>
      assert (forall st, go m st = transform_members schema path m st) as ->; [|reflexivity] end.
    induction m as [|[k x] m IH]; intros st'; [reflexivity|]. cbn [transform_members].
    destruct (transformSecrets _ _ _ _) as [[nv st1]|]; [|reflexivity]. by rewrite IH.
Qed.

(** One section of a graph. *)
Fixpoint transform_nodes (name kind : string) (i : Z) (nodes : list Node) (st : St) : result (list Node * St) E :=
  match nodes with
  | [] => Ok ([], st)
  | n :: nodes =>
      let r :=
        match Lookup kind (node_Type n), node_Config n with
        | Some comp, Some cfg =>
            match transformSecrets (JObj cfg) (Schema comp) (index_path name i +:+ ".config") st with
            | Err e => Err e
            | Ok (cfg', st) => Ok (MkNode (node_Type n) (node_Name n) (as_obj cfg'), st)
            end
        | _, _ => Ok (n, st)
        end in
      match r with
      | Err e => Err e
      | Ok (n, st) =>
          match transform_nodes name kind (i + 1) nodes st with
          | Err e => Err e
          | Ok (out, st) => Ok (n :: out, st)
          end
      end
  end.

Definition transformGraphSecrets (g : Graph) (st : St) : result (Graph * St) E :=
  match transform_nodes "processors" KindProcessor 0 (graph_Processors g) st with
  | Err e => Err e
  | Ok (ps, st) =>
      match transform_nodes "exporters" KindExporter 0 (graph_Exporters g) st with
      | Err e => Err e
      | Ok (es, st) => Ok (MkGraph (graph_Signals g) ps es, st)
      end
  end.
End walk.

(** A callback that captures nothing. *)
Definition plain_fn {E} (f : string -> jval -> result jval E) : string -> jval -> unit -> result (jval * unit) E :=
  fun path value _ => match f path value with Ok v => Ok (v, tt) | Err e => Err e end.

Definition transform_plain {E} (f : string -> jval -> result jval E) (g : Graph) : result Graph E :=
  match transformGraphSecrets (plain_fn f) g tt with Ok (g, _) => Ok g | Err e => Err e end.

(** ** Two walks in a row

    The second walk meets the results of the first at the same paths: it amounts
    to one walk over the original.  [Good] is an invariant that later states
    guarantee of earlier ones. *)
Section compose.
Context {St E E' : Type} (fn : string -> jval -> St -> result (jval * St) E).
Context (h g : string -> jval -> result jval E') (Good : St -> Prop).
Hypothesis Hfn : forall p x st y st', fn p x st = Ok (y, st') -> Good st' -> Good st /\ h p y = g p x.

Lemma plain_fn_eq p y x : h p y = g p x -> plain_fn h p y tt = plain_fn g p x tt.
Proof using Type. unfold plain_fn. by intros ->. Qed.

Lemma transform_members_compose schema path m : forall st out st',
  Forall (fun kv => forall schema path st v' st', transformSecrets fn kv.2 schema path st = Ok (v', st') -> Good st' ->
    Good st /\ transformSecrets (plain_fn h) v' schema path tt = transformSecrets (plain_fn g) kv.2 schema path tt) m ->
  transform_members fn schema path m st = Ok (out, st') -> Good st' ->
  Good st /\ transform_members (plain_fn h) schema path out tt = transform_members (plain_fn g) schema path m tt.
Proof using Type.
  induction m as [|[k x] m IH]; intros st out st' HF Ht Hg; cbn [transform_members] in Ht.
  - injection Ht as <- <-. done.
  - apply Forall_cons in HF as [Hx HF]. destruct (transformSecrets fn x _ _ st) as [[nv st1]|] eqn:Hv; [|done].
    destruct (transform_members fn schema path m st1) as [[out1 st2]|] eqn:Hm; [|done]. injection Ht as <- <-.
    destruct (IH _ _ _ HF Hm Hg) as [Hg1 He]. destruct (Hx _ _ _ _ _ Hv Hg1) as [Hg0 He0]. split; [done|].
    cbn [transform_members snd] in *. rewrite He0. destruct (transformSecrets (plain_fn g) x _ _ tt) as [[? []]|]; [|done].
    by rewrite He.
Qed.

Lemma transform_items_compose items path l : forall i st out st',
  Forall (fun x => forall schema path st v' st', transformSecrets fn x schema path st = Ok (v', st') -> Good st' ->
    Good st /\ transformSecrets (plain_fn h) v' schema path tt = transformSecrets (plain_fn g) x schema path tt) l ->
  transform_items fn items path i l st = Ok (out, st') -> Good st' ->
  Good st /\ transform_items (plain_fn h) items path i out tt = transform_items (plain_fn g) items path i l tt.
Proof using Type.
  induction l as [|x l IH]; intros i st out st' HF Ht Hg; cbn [transform_items] in Ht.
  - injection Ht as <- <-. done.
  - apply Forall_cons in HF as [Hx HF]. destruct (transformSecrets fn x _ _ st) as [[nv st1]|] eqn:Hv; [|done].
    destruct (transform_items fn items path _ l st1) as [[out1 st2]|] eqn:Hm; [|done]. injection Ht as <- <-.
    destruct (IH _ _ _ _ HF Hm Hg) as [Hg1 He]. destruct (Hx _ _ _ _ _ Hv Hg1) as [Hg0 He0]. split; [done|].
    cbn [transform_items] in *. rewrite He0. destruct (transformSecrets (plain_fn g) x _ _ tt) as [[? []]|]; [|done].
    by rewrite He.
Qed.

Lemma transformSecrets_compose v : forall schema path st v' st',
  transformSecrets fn v schema path st = Ok (v', st') -> Good st' ->
  Good st /\ transformSecrets (plain_fn h) v' schema path tt = transformSecrets (plain_fn g) v schema path tt.
Proof using Hfn.
  induction v as [| | | |l IH|m IH] using jval_ind'; intros [schema|] path st v' st' Ht Hg;
    try (injection Ht as <- <-; done); rewrite transformSecrets_eq in Ht;
    destruct (is_password schema) eqn:Hp;
    try (destruct (Hfn _ _ _ _ _ Ht Hg) as [Hg0 He]; split; [done|];
         rewrite !transformSecrets_eq, Hp; by apply plain_fn_eq);
    try (injection Ht as <- <-; split; [done|]; by rewrite !transformSecrets_eq, Hp).
  - destruct (get_obj schema "items") as [items|] eqn:Hi.
    + destruct (transform_items fn items path 0 l st) as [[out st1]|] eqn:Hl; [|done]. injection Ht as <- <-.
      destruct (transform_items_compose _ _ _ _ _ _ _ IH Hl Hg) as [Hg0 He]. split; [done|].
      by rewrite !transformSecrets_eq, Hp, Hi, He.
    + injection Ht as <- <-. split; [done|]. by rewrite !transformSecrets_eq, Hp, Hi.
  - destruct (transform_members fn schema path m st) as [[out st1]|] eqn:Hm; [|done]. injection Ht as <- <-.
    destruct (transform_members_compose _ _ _ _ _ _ IH Hm Hg) as [Hg0 He]. split; [done|].
    by rewrite !transformSecrets_eq, Hp, He.
Qed.
End compose.

(** The root of a catalog schema is an object, not a secret. *)
Lemma Lookup_schema_root kind typ c : Lookup kind typ = Some c -> exists s, Schema c = Some s /\ is_password s = false.
Proof.
  intros (Hin & _ & _)%lookup_in_Some.
  assert (forallb (fun c => match Schema c with Some s => negb (is_password s) | None => false end) all = true) as Hall
    by (vm_compute; reflexivity).
  rewrite forallb_forall in Hall. apply list_elem_of_In in Hin. specialize (Hall c Hin).
  destruct (Schema c) as [s|]; [|done]. exists s. split; [done|]. by apply negb_true_iff.
Qed.

(** The walk over a whole config leaves an object. *)
Lemma transform_root {St E} (fn : string -> jval -> St -> result (jval * St) E) cfg s path st v st' :
  is_password s = false -> transformSecrets fn (JObj cfg) (Some s) path st = Ok (v, st') ->
  exists cfg', v = JObj cfg'.
Proof.
  intros Hp. rewrite transformSecrets_eq, Hp. destruct (transform_members _ _ _ _ _) as [[out st1]|]; [|done].
  intros [= <- _]. eauto.
Qed.

Section compose_graph.
Context {St E E' : Type} (fn : string -> jval -> St -> result (jval * St) E).
Context (h g : string -> jval -> result jval E') (Good : St -> Prop).
Hypothesis Hfn : forall p x st y st', fn p x st = Ok (y, st') -> Good st' -> Good st /\ h p y = g p x.

Lemma transform_nodes_compose name kind nodes : forall i st out st',
  transform_nodes fn name kind i nodes st = Ok (out, st') -> Good st' ->
  Good st /\ transform_nodes (plain_fn h) name kind i out tt = transform_nodes (plain_fn g) name kind i nodes tt.
Proof using Hfn.
  induction nodes as [|n nodes IH]; intros i st out st' Ht Hg; cbn [transform_nodes] in Ht.
  { injection Ht as <- <-. done. }
  destruct (Lookup kind (node_Type n)) as [comp|] eqn:Hl.
  - destruct (Lookup_schema_root _ _ _ Hl) as (s & Hs & Hroot). destruct (node_Config n) as [cfg|] eqn:Hc.
    + rewrite Hs in Ht.
      destruct (transformSecrets fn (JObj cfg) (Some s) _ st) as [[v st1]|] eqn:Hv; [|done].
      destruct (transform_nodes fn name kind (i + 1) nodes st1) as [[out1 st2]|] eqn:Hn; [|done]. injection Ht as <- <-.
      destruct (IH _ _ _ _ Hn Hg) as [Hg1 He]. destruct (transformSecrets_compose fn h g Good Hfn _ _ _ _ _ _ Hv Hg1) as [Hg0 He0].
      destruct (transform_root _ _ _ _ _ _ _ Hroot Hv) as [cfg' ->]. split; [done|].
      cbn [transform_nodes node_Type node_Config as_obj]. rewrite Hl, Hc, Hs, He0.
      destruct (transformSecrets (plain_fn g) _ _ _ tt) as [[w []]|]; [|done]. by rewrite He.
    + destruct (transform_nodes fn name kind (i + 1) nodes st) as [[out1 st2]|] eqn:Hn; [|done]. injection Ht as <- <-.
      destruct (IH _ _ _ _ Hn Hg) as [Hg1 He]. split; [done|]. cbn [transform_nodes]. by rewrite Hl, Hc, He.
  - destruct (transform_nodes fn name kind (i + 1) nodes st) as [[out1 st2]|] eqn:Hn; [|done]. injection Ht as <- <-.
    destruct (IH _ _ _ _ Hn Hg) as [Hg1 He]. split; [done|]. cbn [transform_nodes]. by rewrite Hl, He.
Qed.

Lemma transformGraphSecrets_compose gr st out st' :
  transformGraphSecrets fn gr st = Ok (out, st') -> Good st' ->
  Good st /\ transform_plain h out = transform_plain g gr.
Proof using Hfn.
  unfold transformGraphSecrets, transform_plain. intros Ht Hg.
  destruct (transform_nodes fn "processors" _ _ _ st) as [[ps st1]|] eqn:Hp; [|done].
  destruct (transform_nodes fn "exporters" _ _ _ st1) as [[es st2]|] eqn:He; [|done]. injection Ht as <- <-.
  destruct (transform_nodes_compose _ _ _ _ _ _ _ He Hg) as [Hg1 E1].
  destruct (transform_nodes_compose _ _ _ _ _ _ _ Hp Hg1) as [Hg0 E0]. split; [done|].
  unfold transformGraphSecrets. cbn [graph_Processors graph_Exporters graph_Signals]. rewrite E0.
  destruct (transform_nodes (plain_fn g) "processors" _ _ _ tt) as [[? []]|]; [|done]. rewrite E1. done.
Qed.
End compose_graph.

(** ** The operations *)

Record Issue : Type := MkIssue {
  issue_Path : option string;
  issue_Message : string
}.

Definition issueAt (path message : string) : Issue := MkIssue (Some path) message.
Definition secretIssue (path message : string) : Issue := issueAt path message.

Inductive secret_err : Type :=
| ErrEncryptSecret (path : string) (e : crypto_err)
| ErrDecryptSecret (path : string) (e : crypto_err).

Section operations.
Context `{Aead}.
(** The text of the issue about a missing master key; it quotes a random key. *)
Context (no_key_message : string).

(** What the callback of EncryptGraphSecrets captures: the issues found and the
    number of nonces drawn. *)
Record enc_state : Type := MkEncState {
  es_issues : list Issue;
  es_nonces : nat
}.

Definition add_issue (path message : string) (st : enc_state) : enc_state :=
  MkEncState (es_issues st ++ [secretIssue path message]) (es_nonces st).

Definition redacted_message : string :=
  "value is redacted but no stored secret exists at this path; provide the actual value".

(** Encrypting one plaintext; the field's own value stays when there is no
    master key. *)
Definition encrypt_string (cipher : option Cipher) (nonces : nat -> option string) (path : string) (value : jval)
    (s : string) (st : enc_state) : result (jval * enc_state) secret_err :=
  match Encrypt (nonces (es_nonces st)) s cipher with
  | Ok ct => Ok (newEncValue ct, MkEncState (es_issues st) (S (es_nonces st)))
  | Err e => if Configured cipher then Err (ErrEncryptSecret path e)
             else Ok (value, add_issue path no_key_message st)
  end.

Definition encrypt_secret (cipher : option Cipher) (nonces : nat -> option string) (prevSecrets : gmap string jval)
    (path : string) (value : jval) (st : enc_state) : result (jval * enc_state) secret_err :=
  match encValue value with
  | Some _ => Ok (value, st)
  | None =>
      match as_string value with
      | None => Ok (value, st)
      | Some s =>
          if decide (s = RedactedSentinel) then
            match prevSecrets !! path with
            | None => Ok (value, add_issue path redacted_message st)
            | Some prevVal =>
                match encValue prevVal with
                | Some _ => Ok (prevVal, st)
                | None => encrypt_string cipher nonces path value (default "" (as_string prevVal)) st
                end
            end
          else encrypt_string cipher nonces path value s st
      end
  end.

(** The previous version's secret fields by path. *)
Definition index_secret (path : string) (value : jval) (st : gmap string jval)
  : result (jval * gmap string jval) secret_err := Ok (value, <[path := value]> st).

Definition prev_secrets (prev : option Graph) : result (gmap string jval) secret_err :=
  match prev with
  | None => Ok ∅
  | Some p => match transformGraphSecrets index_secret p ∅ with Ok (_, m) => Ok m | Err e => Err e end
  end.

(** The graph to store, or the issues. *)
Definition EncryptGraphSecrets (g : Graph) (cipher : option Cipher) (nonces : nat -> option string) (prev : option Graph)
  : result (Graph + list Issue) secret_err :=
  match prev_secrets prev with
  | Err e => Err e
  | Ok prevSecrets =>
      match transformGraphSecrets (encrypt_secret cipher nonces prevSecrets) g (MkEncState [] 0) with
      | Err e => Err e
      | Ok (out, st) => if decide (es_issues st = []) then Ok (inl out) else Ok (inr (es_issues st))
      end
  end.

Definition redact_secret (_ : string) (value : jval) : result jval Empty_set :=
  match value with JNull => Ok JNull | _ => Ok (JStr RedactedSentinel) end.

(** The callback never fails. *)
Definition RedactGraphSecrets (g : Graph) : Graph :=
  match transform_plain redact_secret g with Ok g => g | Err e => match e with end end.

Definition decrypt_secret (cipher : option Cipher) (path : string) (value : jval) : result jval secret_err :=
  match encValue value with
  | None => Ok value
  | Some ct => match Decrypt ct cipher with
               | Ok pt => Ok (JStr pt)
               | Err e => Err (ErrDecryptSecret path e)
               end
  end.

Definition DecryptGraphSecrets (g : Graph) (cipher : option Cipher) : result Graph secret_err :=
  transform_plain (decrypt_secret cipher) g.
End operations.

(** ** Callbacks that keep or always succeed *)

Section total.
Context {E : Type} (f : string -> jval -> result jval E).
Hypothesis Hf : forall p x, is_ok (f p x) = true.

Lemma transformSecrets_total v : forall schema path, is_ok (transformSecrets (plain_fn f) v schema path tt) = true.
Proof using Hf.
  induction v as [| | | |l IH|m IH] using jval_ind'; intros [schema|] path; try done; rewrite transformSecrets_eq;
    (destruct (is_password schema); [unfold plain_fn; specialize (Hf path); match goal with |- context [f path ?x] =>
       specialize (Hf x); by destruct (f path x) end|]); try done.
  - destruct (get_obj schema "items") as [items|]; [|done].
    enough (forall i, is_ok (transform_items (plain_fn f) items path i l tt) = true) as Hi.
    { specialize (Hi 0%Z). by destruct (transform_items _ _ _ _ _ _) as [[]|]. }
    induction IH as [|x l Hx _ IHl]; intros i; [done|]. cbn [transform_items].
    specialize (Hx (Some items) (index_path path i)). destruct (transformSecrets _ x _ _ tt) as [[w []]|]; [|done].
    specialize (IHl (i + 1)%Z). by destruct (transform_items _ _ _ _ _ _) as [[]|].
  - enough (is_ok (transform_members (plain_fn f) schema path m tt) = true) as Hm
      by (by destruct (transform_members _ _ _ _ _) as [[]|]).
    induction IH as [|[k x] m Hx _ IHm]; [done|]. cbn [transform_members snd] in *.
    specialize (Hx (member_schema schema k) (path +:+ "." +:+ k)). destruct (transformSecrets _ x _ _ tt) as [[w []]|]; [|done].
    by destruct (transform_members _ _ _ _ _) as [[]|].
Qed.

Lemma transform_nodes_total name kind nodes : forall i, is_ok (transform_nodes (plain_fn f) name kind i nodes tt) = true.
Proof using Hf.
  induction nodes as [|n nodes IH]; intros i; [done|]. cbn [transform_nodes]. specialize (IH (i + 1)%Z).
  destruct (Lookup kind (node_Type n)) as [comp|]; [destruct (node_Config n) as [cfg|]|].
  - pose proof (transformSecrets_total (JObj cfg) (Schema comp) (index_path name i +:+ ".config")) as Ht.
    destruct (transformSecrets _ _ _ _ _) as [[w []]|]; [|done]. by destruct (transform_nodes _ _ _ _ _ _) as [[]|].
  - by destruct (transform_nodes _ _ _ _ _ _) as [[]|].
  - by destruct (transform_nodes _ _ _ _ _ _) as [[]|].
Qed.

Lemma transform_plain_total g : is_ok (transform_plain f g) = true.
Proof using Hf.
  unfold transform_plain, transformGraphSecrets.
  pose proof (transform_nodes_total "processors" KindProcessor (graph_Processors g) 0).
  pose proof (transform_nodes_total "exporters" KindExporter (graph_Exporters g) 0).
  destruct (transform_nodes _ "processors" _ _ _ _) as [[ps []]|]; [|done].
  by destruct (transform_nodes _ "exporters" _ _ _ _) as [[es []]|].
Qed.
End total.

Section keep.
Context {E : Type}.
Abbreviation keep := (plain_fn (fun (_ : string) (y : jval) => @Ok jval E y)).

Lemma transformSecrets_keep v : forall schema path, transformSecrets keep v schema path tt = Ok (v, tt).
Proof using Type.
  induction v as [| | | |l IH|m IH] using jval_ind'; intros [schema|] path; try done; rewrite transformSecrets_eq;
    (destruct (is_password schema); [done|]); try done.
  - destruct (get_obj schema "items") as [items|]; [|done].
    assert (forall i, transform_items keep items path i l tt = Ok (l, tt)) as Hi; [|by rewrite Hi].
    induction IH as [|x l Hx _ IHl]; intros i; [done|]. cbn [transform_items]. by rewrite Hx, IHl.
  - assert (transform_members keep schema path m tt = Ok (m, tt)) as Hm; [|by rewrite Hm].
    induction IH as [|[k x] m Hx _ IHm]; [done|]. cbn [transform_members snd] in *. by rewrite Hx, IHm.
Qed.

Lemma transform_nodes_keep name kind nodes : forall i, transform_nodes keep name kind i nodes tt = Ok (nodes, tt).
Proof using Type.
  induction nodes as [|[t n c] nodes IH]; intros i; [done|]. cbn [transform_nodes node_Type node_Config node_Name].
  destruct (Lookup kind t) as [comp|]; [|by rewrite IH]. destruct c as [cfg|]; [|by rewrite IH].
  by rewrite transformSecrets_keep, IH.
Qed.

Lemma transform_plain_keep g : transform_plain (fun (_ : string) (y : jval) => @Ok jval E y) g = Ok g.
Proof using Type.
  unfold transform_plain, transformGraphSecrets. rewrite !transform_nodes_keep. by destruct g.
Qed.
End keep.

(** A walk that succeeds also succeeds, with the same result, with any callback
    that extends it. *)
Lemma transform_plain_extends {E E'} (f : string -> jval -> result jval E) (f' : string -> jval -> result jval E') g g' :
  (forall p x y, f p x = Ok y -> f' p x = Ok y) -> transform_plain f g = Ok g' -> transform_plain f' g = Ok g'.
Proof.
  intros Hff Ht. unfold transform_plain in Ht.
  destruct (transformGraphSecrets (plain_fn f) g tt) as [[g1 []]|] eqn:Hg; [|done]. injection Ht as ->.
  pose proof (transformGraphSecrets_compose (plain_fn f) (fun _ y => Ok y) f' (fun _ => True)) as Hc.
  destruct (Hc) with (gr := g) (st := tt) (out := g') (st' := tt) as [_ He]; [|done|done|].
  - intros p x st y st' Hfp _. split; [done|]. unfold plain_fn in Hfp. destruct (f p x) as [z|] eqn:Hz; [|done].
    injection Hfp as -> _. symmetry. by apply Hff.
  - rewrite <- He. apply transform_plain_keep.
Qed.

(** ** What storage, redaction and decryption amount to *)

(** An ordinary plaintext: neither a marker nor the sentinel. *)
Definition ordinary_secret (_ : string) (x : jval) : result jval unit :=
  match encValue x with
  | Some _ => Err tt
  | None => match x with
            | JStr s => if decide (s = RedactedSentinel) then Err tt else Ok x
            | _ => Ok x
            end
  end.

(** No string at a secret position: what is stored there is a marker. *)
Definition no_plaintext (_ : string) (y : jval) : result jval unit :=
  match y with JStr _ => Err tt | _ => Ok JNull end.

(** Only the sentinel or null at a secret position. *)
Definition only_sentinel (_ : string) (y : jval) : result jval unit :=
  match y with
  | JNull => Ok JNull
  | JStr s => if decide (s = RedactedSentinel) then Ok JNull else Err tt
  | _ => Err tt
  end.

Section theorems.
Context `{AeadLaws} (no_key_message : string).

(** The plaintext a submitted value stands for, given the previous version. *)
Definition resolve_secret (cipher : option Cipher) (prevSecrets : gmap string jval) (path : string) (x : jval)
  : result jval secret_err :=
  match encValue x with
  | Some _ => decrypt_secret cipher path x
  | None =>
      match as_string x with
      | None => Ok x
      | Some s =>
          if decide (s = RedactedSentinel) then
            match prevSecrets !! path with
            | None => Ok x
            | Some prevVal => match encValue prevVal with
                              | Some _ => decrypt_secret cipher path prevVal
                              | None => Ok (JStr (default "" (as_string prevVal)))
                              end
            end
          else Ok (JStr s)
      end
  end.

(** A cipher as NewWithSecondaries builds it, and nonces as rand.Read fills
    them. *)
Definition cipher_ok (cipher : option Cipher) : Prop := forall c, cipher = Some c -> primary c ∈ decrypters c.
Definition nonces_ok (nonces : nat -> option string) : Prop :=
  forall j nonce, nonces j = Some nonce -> String.length nonce = NonceSize.

Definition no_issues (st : enc_state) : Prop := es_issues st = [].

Lemma add_issue_not path m st : ~ no_issues (add_issue path m st).
Proof using Type. unfold no_issues, add_issue. simpl. by destruct (es_issues st). Qed.

Lemma encValue_new ct : encValue (newEncValue ct) = Some ct.
Proof using Type. simpl. apply std_decode_encode. Qed.

Lemma encrypt_string_spec cipher nonces p x s st y st' :
  encrypt_string no_key_message cipher nonces p x s st = Ok (y, st') -> no_issues st' ->
  no_issues st /\ exists c nonce, cipher = Some c /\ nonces (es_nonces st) = Some nonce
    /\ y = newEncValue (String version1 (nonce +:+ Seal (primary c) nonce s)).
Proof using Type.
  unfold encrypt_string, Encrypt. destruct cipher as [c|].
  - destruct (nonces (es_nonces st)) as [nonce|] eqn:Hn; [|done]. intros [= <- <-] Hi. split; [done|]. by exists c, nonce.
  - simpl. intros [= <- <-] Hi. by destruct (add_issue_not _ _ _ Hi).
Qed.

Lemma encrypt_secret_spec cipher nonces prevSecrets p x st y st' : cipher_ok cipher -> nonces_ok nonces ->
  encrypt_secret no_key_message cipher nonces prevSecrets p x st = Ok (y, st') -> no_issues st' ->
  no_issues st /\ decrypt_secret cipher p y = resolve_secret cipher prevSecrets p x
    /\ no_plaintext p y = Ok JNull /\ redact_secret p y = redact_secret p x.
Proof using Type*.
  intros Hc Hn. unfold encrypt_secret, resolve_secret.
  assert (forall v, is_Some (encValue v) -> no_plaintext p v = Ok JNull /\ redact_secret p v = Ok (JStr RedactedSentinel)) as Hmark.
  { intros v. destruct v; simpl; intros []; done. }
  assert (forall s, encrypt_string no_key_message cipher nonces p x s st = Ok (y, st') -> no_issues st' ->
    no_issues st /\ decrypt_secret cipher p y = Ok (JStr s) /\ is_Some (encValue y)) as Hstr.
  { intros s He Hi. destruct (encrypt_string_spec _ _ _ _ _ _ _ _ He Hi) as (Hi' & c & nonce & -> & Hno & ->).
    split; [done|]. unfold decrypt_secret. rewrite encValue_new. split; [|eauto].
    rewrite (Decrypt_sealed (primary c) s); [done| |by apply Hc]. exists nonce. split; [by eapply Hn|done]. }
  destruct (encValue x) as [ct|] eqn:Hx.
  { intros [= <- <-] Hi. destruct (Hmark x) as [? ?]; [by eauto|]. done. }
  destruct x as [| | |s| |] eqn:Hxe; cbn [as_string];
    try (intros [= <- <-] Hi; split_and!; try done; unfold decrypt_secret; by rewrite Hx).
  case_decide as Hs.
  - destruct (prevSecrets !! p) as [pv|]; [|intros [= <- <-] Hi; by destruct (add_issue_not _ _ _ Hi)].
    destruct (encValue pv) as [ct|] eqn:Hpv.
    + intros [= <- <-] Hi. destruct (Hmark pv) as [? ->]; [by eauto|]. done.
    + intros He Hi. destruct (Hstr _ He Hi) as (? & ? & Hm). destruct (Hmark y Hm) as [? ->]. done.
  - intros He Hi. destruct (Hstr _ He Hi) as (? & ? & Hm). destruct (Hmark y Hm) as [? ->]. done.
Qed.

Lemma EncryptGraphSecrets_run g cipher nonces prev stored :
  EncryptGraphSecrets no_key_message g cipher nonces prev = Ok (inl stored) ->
  exists ps st, prev_secrets prev = Ok ps /\ no_issues st
    /\ transformGraphSecrets (encrypt_secret no_key_message cipher nonces ps) g (MkEncState [] 0) = Ok (stored, st).
Proof using Type.
  unfold EncryptGraphSecrets. destruct (prev_secrets prev) as [ps|]; [|done].
  destruct (transformGraphSecrets _ g _) as [[out st]|] eqn:Ht; [|done]. case_decide; [|done]. intros [= <-]. eauto.
Qed.

(** C25: Storing and reading back a graph: decrypting what is stored gives, at every
    secret field, the plaintext the submitted value stood for (its own, or the
    previous version's for the redaction sentinel), and gives back the submitted
    graph itself when its secrets are ordinary plaintexts. *)
Theorem secrets_roundtrip g cipher nonces prev stored ps : cipher_ok cipher -> nonces_ok nonces ->
  EncryptGraphSecrets no_key_message g cipher nonces prev = Ok (inl stored) -> prev_secrets prev = Ok ps ->
  DecryptGraphSecrets stored cipher = transform_plain (resolve_secret cipher ps) g
  /\ (transform_plain ordinary_secret g = Ok g -> DecryptGraphSecrets stored cipher = Ok g).
Proof using Type*.
  intros Hc Hn He Hps. destruct (EncryptGraphSecrets_run _ _ _ _ _ He) as (ps' & st & Hps' & Hi & Ht).
  assert (ps' = ps) as -> by congruence.
  assert (DecryptGraphSecrets stored cipher = transform_plain (resolve_secret cipher ps) g) as Hd.
  { eapply transformGraphSecrets_compose with (Good := no_issues); [|exact Ht|exact Hi].
    intros p x s y s' Hfn Hgood. destruct (encrypt_secret_spec _ _ _ _ _ _ _ _ Hc Hn Hfn Hgood) as (? & ? & _). done. }
  split; [exact Hd|]. intros Hord. rewrite Hd. eapply transform_plain_extends; [|exact Hord].
  intros p x y. unfold ordinary_secret, resolve_secret. destruct (encValue x); [done|].
  destruct x as [| | |s| |]; cbn [as_string]; try (by intros [= <-]).
  destruct (decide (s = RedactedSentinel)); [done|]. by intros [= <-].
Qed.

(** Redacting what is stored is redacting what was submitted. *)
Lemma Redact_stored g cipher nonces prev stored : cipher_ok cipher -> nonces_ok nonces ->
  EncryptGraphSecrets no_key_message g cipher nonces prev = Ok (inl stored) -> RedactGraphSecrets stored = RedactGraphSecrets g.
Proof using Type*.
  intros Hc Hn He. destruct (EncryptGraphSecrets_run _ _ _ _ _ He) as (ps & st & _ & Hi & Ht).
  unfold RedactGraphSecrets. assert (transform_plain redact_secret stored = transform_plain redact_secret g) as ->; [|done].
  eapply transformGraphSecrets_compose with (Good := no_issues); [|exact Ht|exact Hi].
  intros p x s y s' Hfn Hgood. destruct (encrypt_secret_spec _ _ _ _ _ _ _ _ Hc Hn Hfn Hgood) as (? & _ & _ & ?). done.
Qed.

End theorems.

(** ** A pipeline with a password, saved, rotated and saved again *)

#[local] Existing Instances ex_aead ex_aead_laws.

Definition ex_secret_graph (password : string) : Graph :=
  MkGraph ["logs"] []
    [MkNode "clickhouse" None (Some [("endpoint", JStr "tcp://ch:9000"); ("password", JStr password)]);
     MkNode "otlp" (Some "b") (Some [("endpoint", JStr "otlp:4317"); ("headers", JObj [("authorization", JStr "tok")])])].

Definition ex_nonces (_ : nat) : option string := Some ex_nonce.

Definition graph_of (r : result (Graph + list Issue) secret_err) : Graph :=
  match r with Ok (inl g) => g | _ => MkGraph [] [] [] end.

(** Saved under the old key. *)
Definition ex_stored : Graph := graph_of (EncryptGraphSecrets "no key" (ex_secret_graph "hunter2") (Some ex_old_cipher) ex_nonces None).
(** What a client was shown, saved again with the new key as primary. *)
Definition ex_resaved : Graph :=
  graph_of (EncryptGraphSecrets "no key" (RedactGraphSecrets ex_stored) (Some ex_cipher) ex_nonces (Some ex_stored)).

Lemma ex_cipher_ok : cipher_ok (Some ex_old_cipher).
Proof. intros c [= <-]. vm_compute. left. Qed.

Lemma ex_nonces_ok : nonces_ok ex_nonces.
Proof. intros j nonce [= <-]. reflexivity. Qed.

Lemma secrets_roundtrip_witness : DecryptGraphSecrets ex_stored (Some ex_old_cipher) = Ok (ex_secret_graph "hunter2").
Proof.
  refine (proj2 (secrets_roundtrip "no key" (ex_secret_graph "hunter2") (Some ex_old_cipher) ex_nonces None ex_stored ∅
    ex_cipher_ok ex_nonces_ok _ _) _); vm_compute; reflexivity.
Defined.


(** Saving a pipeline again does not move its secrets to a new master key: the
    sentinel copies the old ciphertext forward, which the new key alone cannot
    open. *)
Theorem resave_keeps_old_key :
  DecryptGraphSecrets ex_resaved (Some ex_cipher) = Ok (ex_secret_graph "hunter2")
  /\ ex_resaved = ex_stored
  /\ is_ok (DecryptGraphSecrets ex_resaved (Some ex_new_cipher)) = false.
Proof. split_and!; vm_compute; reflexivity. Qed.
