(* ===== verification/Render.v ===== *)
(** Rendering collector configs (internal/pipelines/render.go, render_edge.go).

    A config is the tree of yaml nodes the code builds; turning a tree into text
    is the yaml library's, an interface here. *)
From S2P Require Import Prelude GoStrings Json Slug Catalog PipelineGraph.
From Stdlib Require Import Ascii.

Open Scope string_scope.

(** ** Trees *)

(** A Go scalar; a float keeps the literal it was decoded from. *)
Inductive yscalar : Type :=
| SNull
| SBool (b : bool)
| SInt (z : Z)
| SFloat (lit : string)
| SStr (s : string).

Inductive ynode : Type :=
| YScalar (s : yscalar)
| YSeq (flow : bool) (content : list ynode)
| YMap (content : list (string * ynode)).

(** The yaml library's encoder, with its error's text, and whether
    strconv.ParseFloat accepts a JSON number. *)
Class Yaml := {
  marshalYAML : ynode -> result string string;
  parse_float_ok : string -> bool
}.

(** [strconv.ParseInt(s, 10, 64)]. *)
Fixpoint parse_digits (acc : Z) (s : string) : option Z :=
  match s with
  | EmptyString => Some acc
  | String c s => if is_digit c then parse_digits (10 * acc + (byte_val c - 48))%Z s else None
  end.

Definition parse_int64 (s : string) : option Z :=
  let '(neg, digits) := match s with
                        | String "-" d => (true, d)
                        | String "+" d => (false, d)
                        | _ => (false, s)
                        end in
  if decide (digits = "") then None
  else
    z ← parse_digits 0 digits;
    let z := if neg then (- z)%Z else z in
    if (int64_min <=? z)%Z && (z <=? int64_max)%Z then Some z else None.

Section render.
Context `{Yaml}.

Definition number_node (lit : string) : ynode :=
  match parse_int64 lit with
  | Some z => YScalar (SInt z)
  | None => YScalar (if parse_float_ok lit then SFloat lit else SStr lit)
  end.

Definition key_lt {A} (a b : string * A) : bool := str_lt a.1 b.1.

(** toNode: maps with sorted keys. *)
Fixpoint toNode (v : jval) : ynode :=
  match v with
  | JNull => YScalar SNull
  | JBool b => YScalar (SBool b)
  | JNum lit => number_node lit
  | JStr s => YScalar (SStr s)
  | JArr l => YSeq false ((fix go l := match l with [] => [] | x :: l => toNode x :: go l end) l)
  | JObj m => YMap (sort_by key_lt ((fix go m := match m with [] => [] | (k, x) :: m => (k, toNode x) :: go m end) m))
  end.

(** A [[]string]: a flow sequence. *)
Definition strings_node (l : list string) : ynode := YSeq true ((fun s => YScalar (SStr s)) <$> l).
Definition str_node (s : string) : ynode := YScalar (SStr s).

(** ** Inputs *)

Record RenderPipeline : Type := MkRenderPipeline {
  rp_CustomerSlug : string;
  rp_ClientID : string;
  rp_PipelineSlug : string;
  rp_Graph : Graph
}.

Definition rp_key (p : RenderPipeline) : string := pipelineKey (rp_CustomerSlug p) (rp_PipelineSlug p).

Definition rp_lt (a b : RenderPipeline) : bool :=
  if decide (rp_CustomerSlug a = rp_CustomerSlug b) then str_lt (rp_PipelineSlug a) (rp_PipelineSlug b)
  else str_lt (rp_CustomerSlug a) (rp_CustomerSlug b).

Definition sort_pipelines (ps : list RenderPipeline) : list RenderPipeline := sort_by rp_lt ps.

(** The first key met twice. *)
Fixpoint duplicate_key (seen : list string) (ps : list RenderPipeline) : option string :=
  match ps with
  | [] => None
  | p :: ps => if decide (rp_key p ∈ seen) then Some (rp_key p) else duplicate_key (rp_key p :: seen) ps
  end.

(** ** Shared parts *)

Definition routingConnectorID (signal : string) : string := "routing/tenants_" +:+ signal.

Definition rp_component (p : RenderPipeline) (i : nat) (n : Node) : string :=
  ComponentID n (Z.of_nat i) (rp_CustomerSlug p) (rp_PipelineSlug p).

(** The namespaced components of one list of nodes, and their ids. *)
Definition node_entries (nodes : Graph -> list Node) (p : RenderPipeline) : list (string * ynode) :=
  imap (fun i n => (rp_component p i n, toNode (JObj (default [] (node_Config n))))) (nodes (rp_Graph p)).
Definition node_ids (nodes : Graph -> list Node) (p : RenderPipeline) : list string :=
  imap (rp_component p) (nodes (rp_Graph p)).

Definition receivers_section : ynode :=
  YMap [("otlp", toNode (JObj [("protocols", JObj [("grpc", JObj [("endpoint", JStr "0.0.0.0:4317")]);
                                                   ("http", JObj [("endpoint", JStr "0.0.0.0:4318")])])]))].

Definition default_processors : list (string * ynode) :=
  [("memory_limiter", toNode (JObj [("check_interval", JStr "1s"); ("limit_percentage", JInt 80);
                                    ("spike_limit_percentage", JInt 20)]));
   ("batch", toNode (JObj [("send_batch_size", JInt 8192); ("timeout", JStr "5s")]))].

Definition processors_section (ps : list RenderPipeline) : list (string * ynode) :=
  (default_processors ++ (ps ≫= node_entries graph_Processors))%list.

Definition extensions_section : ynode :=
  YMap [("health_check", toNode (JObj [("endpoint", JStr "0.0.0.0:13133")]))].

Definition telemetry_section : ynode :=
  toNode (JObj [("logs", JObj [("level", JStr "info")]);
                ("metrics", JObj [("readers", JArr [
                   JObj [("pull", JObj [("exporter", JObj [("prometheus",
                     JObj [("host", JStr "0.0.0.0"); ("port", JInt 8888)])])])]])])]).

Definition service_section (svcPipelines : list (string * ynode)) : ynode :=
  YMap [("extensions", strings_node ["health_check"]); ("telemetry", telemetry_section);
        ("pipelines", YMap svcPipelines)].

Definition debug_exporter : list (string * ynode) := [("debug", toNode (JObj []))].

(** An entry of service.pipelines. *)
Definition collector_pipeline (receivers : list string) (processors : option (list string)) (exporters : list string) : ynode :=
  YMap (("receivers", strings_node receivers)
        :: (match processors with Some l => [("processors", strings_node l)] | None => [] end)
        ++ [("exporters", strings_node exporters)])%list.

(** ** The forwarding config *)

(** The pipelines carrying a signal, once per mention. *)
Definition signalsWith (ps : list RenderPipeline) (sig : string) : list RenderPipeline :=
  ps ≫= (fun p => (fun _ => p) <$> filter (fun s => s = sig) (graph_Signals (rp_Graph p))).

Definition rp_pipeline_id (sig : string) (p : RenderPipeline) : string :=
  CollectorPipelineID sig (rp_CustomerSlug p) (rp_PipelineSlug p).

(** Clients in order of first appearance. *)
Fixpoint client_order (seen : list string) (routed : list RenderPipeline) : list string :=
  match routed with
  | [] => []
  | p :: routed =>
      if decide (rp_ClientID p ∈ seen) then client_order seen routed
      else rp_ClientID p :: client_order (rp_ClientID p :: seen) routed
  end.

Definition dquote : string := String "034" "".

(** [%q]: quotes, backslashes and control characters are escaped.  Runes
    outside ASCII are taken as printable. *)
Definition quote_char (c : ascii) : string :=
  let bs (e : ascii) : string := String "092" (String e "") in
  match N_of_ascii c with
  | 7 => bs "a" | 8 => bs "b" | 9 => bs "t" | 10 => bs "n" | 11 => bs "v" | 12 => bs "f" | 13 => bs "r"
  | 34 | 92 => bs c
  | n => if (n <? 32) || (n =? 127) then bs "x" +:+ hex_encode (String c "") else String c ""
  end%N%char.

Fixpoint quote_body (s : string) : string :=
  match s with
  | EmptyString => ""
  | String c s => quote_char c +:+ quote_body s
  end.
Definition go_quote (s : string) : string := dquote +:+ quote_body s +:+ dquote.

Definition tenant_condition (clientID : string) : string :=
  "resource.attributes[" +:+ dquote +:+ "tenant.id" +:+ dquote +:+ "] == " +:+ go_quote clientID.

Definition client_pipelines (sig : string) (routed : list RenderPipeline) (clientID : string) : list string :=
  rp_pipeline_id sig <$> filter (fun p => rp_ClientID p = clientID) routed.

Definition routing_table (sig : string) (routed : list RenderPipeline) : list (string * list string) :=
  (fun c => (tenant_condition c, client_pipelines sig routed c)) <$> client_order [] routed.

Definition table_entry (e : string * list string) : ynode :=
  YMap [("condition", str_node e.1); ("pipelines", strings_node e.2)].

Definition routing_connector (sig : string) (routed : list RenderPipeline) : ynode :=
  YMap [("default_pipelines", strings_node []); ("error_mode", str_node "ignore");
        ("table", YSeq false (table_entry <$> routing_table sig routed))].

Definition routed_signals (ps : list RenderPipeline) : list string :=
  filter (fun sig => signalsWith ps sig <> []) Signals.

Definition connectors_section (ps : list RenderPipeline) : list (string * ynode) :=
  (fun sig => (routingConnectorID sig, routing_connector sig (signalsWith ps sig))) <$> routed_signals ps.

Definition forwarding_exporters (ps : list RenderPipeline) : list (string * ynode) :=
  ((if forallb (fun sig => bool_decide (signalsWith ps sig <> [])) Signals then [] else debug_exporter)
   ++ (ps ≫= node_entries graph_Exporters))%list.

Definition entry_sink (ps : list RenderPipeline) (sig : string) : string :=
  if decide (signalsWith ps sig = []) then "debug" else routingConnectorID sig.

Definition entry_pipelines (ps : list RenderPipeline) : list (string * ynode) :=
  (fun sig => (sig +:+ "/in",
     collector_pipeline ["otlp"] (Some ["memory_limiter"; "batch"]) [entry_sink ps sig])) <$> Signals.

Definition forwarding_pipeline (sig : string) (p : RenderPipeline) : ynode :=
  collector_pipeline [routingConnectorID sig]
    (match graph_Processors (rp_Graph p) with [] => None | _ => Some (node_ids graph_Processors p) end)
    (node_ids graph_Exporters p).

(** One collector pipeline per signal, in canonical order. *)
Definition customer_pipelines (mk : string -> RenderPipeline -> ynode) (p : RenderPipeline) : list (string * ynode) :=
  (fun sig => (rp_pipeline_id sig p, mk sig p)) <$> filter (fun sig => hasSignal (rp_Graph p) sig = true) Signals.

Definition forwarding_pipelines (ps : list RenderPipeline) : list (string * ynode) :=
  (entry_pipelines ps ++ (ps ≫= customer_pipelines forwarding_pipeline))%list.

Definition forwarding_tree (ps : list RenderPipeline) : ynode :=
  YMap ([("receivers", receivers_section); ("processors", YMap (processors_section ps))]
        ++ (match routed_signals ps with [] => [] | _ => [("connectors", YMap (connectors_section ps))] end)
        ++ [("exporters", YMap (forwarding_exporters ps)); ("extensions", extensions_section);
            ("service", service_section (forwarding_pipelines ps))])%list.

Inductive render_err : Type :=
| ErrDuplicateKey (key : string)
| ErrMarshal (text : string).

Definition marshal (t : ynode) : result string render_err :=
  match marshalYAML t with Ok s => Ok s | Err text => Err (ErrMarshal text) end.

Definition RenderForwardingConfig (pipelines : list RenderPipeline) : result string render_err :=
  let ps := sort_pipelines pipelines in
  match duplicate_key [] ps with
  | Some key => Err (ErrDuplicateKey key)
  | None => marshal (forwarding_tree ps)
  end.

(** ** The edge config *)

Definition edgeProcessorIDs (p : RenderPipeline) : list string :=
  ("memory_limiter" :: "batch" :: node_ids graph_Processors p)%list.

Definition edge_pipeline (sig : string) (p : RenderPipeline) : ynode :=
  collector_pipeline ["otlp"] (Some (edgeProcessorIDs p)) (node_ids graph_Exporters p).

Definition edge_exporters (ps : list RenderPipeline) : list (string * ynode) :=
  ((match ps with [] => debug_exporter | _ => [] end) ++ (ps ≫= node_entries graph_Exporters))%list.

Definition edge_pipelines (ps : list RenderPipeline) : list (string * ynode) :=
  ((match ps with
    | [] => (fun sig => (sig +:+ "/in", collector_pipeline ["otlp"] (Some ["memory_limiter"; "batch"]) ["debug"])) <$> Signals
    | _ => []
    end) ++ (ps ≫= customer_pipelines edge_pipeline))%list.

Definition edge_tree (ps : list RenderPipeline) : ynode :=
  YMap [("receivers", receivers_section); ("processors", YMap (processors_section ps));
        ("exporters", YMap (edge_exporters ps)); ("extensions", extensions_section);
        ("service", service_section (edge_pipelines ps))].

Definition RenderEdgeConfig (pipelines : list RenderPipeline) : result string render_err :=
  let ps := sort_pipelines pipelines in
  match duplicate_key [] ps with
  | Some key => Err (ErrDuplicateKey key)
  | None => marshal (edge_tree ps)
  end.

(** ** Fragments *)

Definition fragment_tree (mk : string -> RenderPipeline -> ynode) (p : RenderPipeline) : ynode :=
  YMap ((match graph_Processors (rp_Graph p) with
         | [] => []
         | _ => [("processors", YMap (node_entries graph_Processors p))]
         end)
        ++ [("exporters", YMap (node_entries graph_Exporters p));
            ("service", YMap [("pipelines", YMap (customer_pipelines mk p))])])%list.

Definition RenderFragment (p : RenderPipeline) : result string render_err := marshal (fragment_tree forwarding_pipeline p).
Definition RenderEdgeFragment (p : RenderPipeline) : result string render_err := marshal (fragment_tree edge_pipeline p).
End render.
