(* ===== verification/Validate.v ===== *)
(** Validation of pipeline graphs (internal/pipelines/validate.go).

    The JSON Schema library and the collector binary are parameters: the first
    answers with its error tree, the second with its condensed output. *)
From S2P Require Import Prelude GoStrings Json Slug Catalog PipelineGraph Crypto Secrets Render.

Open Scope string_scope.

Record Result : Type := MkResult {
  res_Valid : bool;
  res_Issues : list Issue;
  res_RenderedYAML : option string
}.

(** The library's error tree; [missing] are the properties a Required error
    names, and [text] is the localized message. *)
Inductive ValidationError : Type :=
  MkValidationError (causes : list ValidationError) (instanceLocation missing : list string) (text : string).

(** What ValidateConfig returns: nothing, a validation error, another error. *)
Inductive schema_verdict : Type :=
| SchemaOk
| SchemaViolation (e : ValidationError)
| SchemaError (text : string).

Class Collector := {
  validate_schema : jval -> jval -> schema_verdict;
  (** the collector binary, whether it exists, and the output of a failed run *)
  BinPath : string;
  bin_available : bool;
  runValidate : string -> option string
}.

Fixpoint schemaIssues (base : string) (verr : ValidationError) : list Issue :=
  match verr with
  | MkValidationError causes loc missing text =>
      match causes with
      | _ :: _ => (fix walk l := match l with [] => [] | c :: l => schemaIssues base c ++ walk l end)%list causes
      | [] =>
          let path := foldl (fun path seg => path +:+ "." +:+ seg) base loc in
          match missing with
          | _ :: _ => (fun m => issueAt (path +:+ "." +:+ m) "required property is missing") <$> missing
          | [] => [issueAt path text]
          end
      end
  end.

Section validate.
Context `{!Collector} `{!Yaml}.

(** Signals in order, with those seen before. *)
Fixpoint signal_issues (i : Z) (seen : list string) (l : list string) : list Issue :=
  match l with
  | [] => []
  | sig :: l =>
      ((if negb (validSignal sig) then
          [issueAt (index_path "signals" i) ("unknown signal " +:+ go_quote sig +:+ " (want logs, traces or metrics)")]
        else if decide (sig ∈ seen) then
          [issueAt (index_path "signals" i) ("duplicate signal " +:+ go_quote sig)]
        else []) ++ signal_issues (i + 1) (sig :: seen) l)%list
  end.

Definition bad_node_name (n : Node) : bool :=
  match node_Name n with
  | Some s => negb (bool_decide (s = "")) && negb (ValidNodeName s)
  | None => false
  end.

(** The loop of validateNodes; [seenID] maps ids to the last index they had. *)
Fixpoint node_issues (field kindName : string) (i : Z) (seenID : gmap string Z) (nodes : list Node) : list Issue :=
  match nodes with
  | [] => []
  | n :: nodes =>
      let base := index_path field i in
      let name_issues := if bad_node_name n
                         then [issueAt (base +:+ ".name") "node name must match ^[a-z0-9][a-z0-9-]{0,63}$"] else [] in
      match Lookup kindName (node_Type n) with
      | None =>
          (name_issues ++ issueAt (base +:+ ".type") ("unknown " +:+ kindName +:+ " type " +:+ go_quote (node_Type n))
           :: node_issues field kindName (i + 1) seenID nodes)%list
      | Some comp =>
          let id := ComponentID n i "c" "p" in
          (name_issues
           ++ (match seenID !! id with
               | Some prev => [issueAt base ("duplicate " +:+ kindName +:+ " instance (same type and name as "
                                 +:+ index_path field prev +:+ "); set a distinct name")]
               | None => []
               end)
           ++ (match validate_schema (comp_Schema comp) (JObj (default [] (node_Config n))) with
               | SchemaOk => []
               | SchemaViolation e => schemaIssues (base +:+ ".config") e
               | SchemaError text => [issueAt (base +:+ ".config") text]
               end)
           ++ node_issues field kindName (i + 1) (<[id := i]> seenID) nodes)%list
      end
  end.

Definition validateNodes (field kindName : string) (nodes : list Node) : list Issue :=
  node_issues field kindName 0 ∅ nodes.

Definition ValidateStructural (g : Graph) : list Issue :=
  ((match graph_Signals g with [] => [issueAt "signals" "at least one signal is required"] | _ => [] end)
   ++ signal_issues 0 [] (graph_Signals g)
   ++ (match graph_Exporters g with [] => [issueAt "exporters" "at least one exporter is required"] | _ => [] end)
   ++ validateNodes "processors" KindProcessor (graph_Processors g)
   ++ validateNodes "exporters" KindExporter (graph_Exporters g))%list.

Definition ClassForwarding : string := "forwarding".
Definition ClassEdge : string := "edge".

Definition render_text (targetClass : string) (e : render_err) : string :=
  match e with
  | ErrDuplicateKey key =>
      "duplicate pipeline key " +:+ go_quote key +:+ " in rendered "
      +:+ (if decide (targetClass = ClassEdge) then "edge " else "") +:+ "config"
  | ErrMarshal text => text
  end.

Definition skipped_message : string :=
  "warning: otelcol validate skipped: collector binary unavailable at " +:+ BinPath.

Definition render_fragment (targetClass : string) : RenderPipeline -> result string render_err :=
  if decide (targetClass = ClassEdge) then RenderEdgeFragment else RenderFragment.
Definition render_full (targetClass : string) : list RenderPipeline -> result string render_err :=
  if decide (targetClass = ClassEdge) then RenderEdgeConfig else RenderForwardingConfig.

Definition Validate (targetClass : string) (candidate : RenderPipeline) (activeOthers : list RenderPipeline) : Result :=
  match ValidateStructural (rp_Graph candidate) with
  | (_ :: _) as issues => MkResult false issues None
  | [] =>
      match render_fragment targetClass candidate with
      | Err e => MkResult false [MkIssue None ("render: " +:+ render_text targetClass e)] None
      | Ok fragment =>
          match render_full targetClass (activeOthers ++ [candidate]) with
          | Err e => MkResult false [MkIssue None ("render " +:+ targetClass +:+ " config: " +:+ render_text targetClass e)] (Some fragment)
          | Ok full =>
              if negb bin_available then MkResult true [MkIssue None skipped_message] (Some fragment)
              else
                match runValidate full with
                | Some out => MkResult false [MkIssue None ("otelcol validate failed: " +:+ out)] (Some fragment)
                | None => MkResult true [] (Some fragment)
                end
          end
      end
  end.

(** ** What structural validation guarantees *)

(** The part of a component id that its node determines. *)
Definition node_key (i : nat) (n : Node) : string * string := (node_Type n, nodeSuffix n (Z.of_nat i)).

Definition nodes_ok (kindName : string) (nodes : list Node) : Prop :=
  Forall (fun n => is_Some (Lookup kindName (node_Type n)) /\ bad_node_name n = false) nodes
  /\ NoDup (imap node_key nodes).

Definition graph_ok (g : Graph) : Prop :=
  graph_Signals g <> [] /\ Forall (fun s => s ∈ Signals) (graph_Signals g) /\ NoDup (graph_Signals g)
  /\ graph_Exporters g <> [] /\ nodes_ok KindProcessor (graph_Processors g) /\ nodes_ok KindExporter (graph_Exporters g).

Lemma signal_issues_nil l : forall i seen, signal_issues i seen l = [] ->
  Forall (fun s => s ∈ Signals) l /\ NoDup l /\ (forall s, s ∈ l -> s ∉ seen).
Proof using Type.
  induction l as [|s l IH]; intros i seen He.
  { split_and!; [constructor|constructor|]. intros s Hs. by apply elem_of_nil in Hs. }
  cbn [signal_issues] in He. apply app_eq_nil in He as [Hs Hl].
  destruct (validSignal s) eqn:Hv; cbn [negb] in Hs; [|done]. destruct (decide (s ∈ seen)) as [|Hns]; [done|].
  apply IH in Hl as (HF & Hnd & Hd). unfold validSignal in Hv. apply bool_decide_eq_true in Hv. split_and!.
  - by constructor.
  - apply NoDup_cons. split; [|done]. intros Hin. apply (Hd s Hin). by left.
  - intros x [->|Hx]%elem_of_cons; [done|]. intros Hin. apply (Hd x Hx). by right.
Qed.

Definition draft_id (i : Z) (j : nat) (n : Node) : string := ComponentID n (i + Z.of_nat j) "c" "p".

Lemma node_issues_nil field kindName nodes : forall i seen, node_issues field kindName i seen nodes = [] ->
  Forall (fun n => is_Some (Lookup kindName (node_Type n)) /\ bad_node_name n = false) nodes
  /\ NoDup (imap (draft_id i) nodes) /\ (forall id, id ∈ imap (draft_id i) nodes -> seen !! id = None).
Proof using Type.
  induction nodes as [|n nodes IH]; intros i seen He.
  { split_and!; [constructor|constructor|]. intros s Hs. by apply elem_of_nil in Hs. }
  cbn [node_issues] in He. destruct (Lookup kindName (node_Type n)) as [comp|] eqn:Hl.
  2:{ by apply app_eq_nil in He as [_ ?]. }
  apply app_eq_nil in He as [Hname He]. apply app_eq_nil in He as [Hdup He]. apply app_eq_nil in He as [_ He].
  destruct (bad_node_name n) eqn:Hb; [done|].
  destruct (seen !! ComponentID n i "c" "p") as [j|] eqn:Hs; [done|].
  apply IH in He as (HF & Hnd & Hd). rewrite imap_cons.
  assert (imap (draft_id i ∘ S) nodes = imap (draft_id (i + 1)) nodes) as Himap.
  { apply imap_ext. intros j x _. unfold draft_id, compose. f_equal. lia. }
  assert (draft_id i 0 n = ComponentID n i "c" "p") as Hzero by (unfold draft_id; f_equal; lia).
  rewrite Himap, Hzero. split_and!.
  - constructor; [by rewrite Hl|done].
  - apply NoDup_cons. split; [|done]. intros Hin. specialize (Hd _ Hin). by rewrite lookup_insert_eq in Hd.
  - intros id [->|Hin]%elem_of_cons; [done|]. specialize (Hd _ Hin). by apply lookup_insert_None in Hd as [? _].
Qed.

Lemma validateNodes_nil field kindName nodes : validateNodes field kindName nodes = [] -> nodes_ok kindName nodes.
Proof using Type.
  intros (HF & Hnd & _)%node_issues_nil. split; [done|].
  apply (NoDup_fmap_1 (fun k : string * string => k.1 +:+ "/" +:+ pipelineKey "c" "p" +:+ "__" +:+ k.2)).
  rewrite fmap_imap. erewrite imap_ext; [exact Hnd|]. done.
Qed.

(** A graph without structural issues has known components under distinct ids,
    distinct known signals and an exporter. *)
Lemma ValidateStructural_ok g : ValidateStructural g = [] -> graph_ok g.
Proof using Type.
  unfold ValidateStructural. intros He. apply app_eq_nil in He as [H1 He]. apply app_eq_nil in He as [H2 He].
  apply app_eq_nil in He as [H3 He]. apply app_eq_nil in He as [H4 H5].
  apply signal_issues_nil in H2 as (HF & Hnd & _). unfold graph_ok. split_and!; try done.
  - by destruct (graph_Signals g).
  - by destruct (graph_Exporters g).
  - by eapply validateNodes_nil.
  - by eapply validateNodes_nil.
Qed.
End validate.
