(* ===== verification/RenderSpec.v ===== *)
(** What the rendered collector configs say: references resolve, tenants are
    routed to their own pipelines only, and the order of the inputs does not
    matter. *)
From S2P Require Import Prelude GoStrings Json Slug Catalog PipelineGraph Crypto Secrets Render Validate.
From Stdlib Require Import Ascii.

Open Scope string_scope.

(** ** Reading a config *)

Fixpoint assoc {A} (k : string) (l : list (string * A)) : option A :=
  match l with
  | [] => None
  | (k', v) :: l => if decide (k' = k) then Some v else assoc k l
  end.

Definition y_get (k : string) (t : ynode) : option ynode := match t with YMap l => assoc k l | _ => None end.
Definition y_map (t : option ynode) : list (string * ynode) := match t with Some (YMap l) => l | _ => [] end.
Definition y_str (t : option ynode) : option string := match t with Some (YScalar (SStr s)) => Some s | _ => None end.
Definition y_seq (t : option ynode) : list ynode := match t with Some (YSeq _ l) => l | _ => [] end.

(** A section of a config, its pipelines, and the names a pipeline refers to. *)
Definition section (t : ynode) (k : string) : list (string * ynode) := y_map (y_get k t).
Definition pipelines (t : ynode) : list (string * ynode) := y_map (y_get "service" t ≫= y_get "pipelines").
Definition refs (pl : ynode) (k : string) : list string := omap (fun y => y_str (Some y)) (y_seq (y_get k pl)).

(** The pipelines a routing connector sends a tenant's data to. *)
Definition routes (t : ynode) (sig clientID : string) : list string :=
  y_seq (assoc (routingConnectorID sig) (section t "connectors") ≫= y_get "table") ≫=
    (fun e => if decide (y_str (y_get "condition" e) = Some (tenant_condition clientID)) then refs e "pipelines" else []).

(** Every name is defined once, and every reference resolves. *)
Definition config_closed (t : ynode) : Prop :=
  (forall k, k ∈ ["receivers"; "processors"; "connectors"; "exporters"] -> NoDup (section t k).*1)
  /\ NoDup (pipelines t).*1
  /\ forall id pl, (id, pl) ∈ pipelines t ->
       refs pl "receivers" <> [] /\ refs pl "exporters" <> []
       /\ (forall r, r ∈ refs pl "receivers" -> r ∈ (section t "receivers").*1 \/ r ∈ (section t "connectors").*1)
       /\ (forall r, r ∈ refs pl "processors" -> r ∈ (section t "processors").*1)
       /\ (forall r, r ∈ refs pl "exporters" -> r ∈ (section t "exporters").*1 \/ r ∈ (section t "connectors").*1).

Lemma assoc_elem {A} k (v : A) l : NoDup l.*1 -> (k, v) ∈ l -> assoc k l = Some v.
Proof.
  induction l as [|[k' v'] l IH]; intros Hnd Hin; [by apply elem_of_nil in Hin|]. simpl in *.
  apply NoDup_cons in Hnd as [Hk Hnd]. apply elem_of_cons in Hin as [[= <- <-]|Hin]; [by rewrite decide_True|].
  rewrite decide_False; [by apply IH|]. intros ->. apply Hk. apply list_elem_of_fmap. by exists (k, v).
Qed.

Lemma refs_strings l k rest pl : pl = YMap rest -> assoc k rest = Some (strings_node l) -> refs pl k = l.
Proof.
  intros -> Ha. unfold refs. cbn [y_get]. rewrite Ha. unfold strings_node. cbn [y_seq]. clear Ha.
  induction l as [|s l IH]; [done|]. cbn. f_equal. exact IH.
Qed.

Lemma refs_collector rs po es :
  refs (collector_pipeline rs po es) "receivers" = rs
  /\ refs (collector_pipeline rs po es) "processors" = default [] po
  /\ refs (collector_pipeline rs po es) "exporters" = es.
Proof. split_and!; [by eapply refs_strings| |by destruct po; eapply refs_strings]. destruct po; [by eapply refs_strings|done]. Qed.

Lemma assoc_fst {A} k (v : A) l : assoc k l = Some v -> k ∈ l.*1.
Proof. induction l as [|[k' v'] l IH]; simpl; [done|]. case_decide as He; [subst; by left|]. intros ?%IH. by right. Qed.

Section spec.
Context `{Yaml}.

(** ** Inputs *)

Definition rp_ok (p : RenderPipeline) : Prop :=
  ValidSlug (rp_CustomerSlug p) = true /\ ValidSlug (rp_PipelineSlug p) = true /\ graph_ok (rp_Graph p).

Definition inputs_ok (ps : list RenderPipeline) : Prop := Forall rp_ok ps /\ NoDup (rp_key <$> ps).

Lemma inputs_ok_perm ps ps' : ps ≡ₚ ps' -> inputs_ok ps -> inputs_ok ps'.
Proof using Type. intros Hp [HF Hnd]. split; by rewrite <- Hp. Qed.

Lemma inputs_ok_sort ps : inputs_ok ps -> inputs_ok (sort_pipelines ps).
Proof using Type. apply inputs_ok_perm. symmetry. apply sort_by_perm. Qed.

Lemma duplicate_key_None ps : forall seen,
  duplicate_key seen ps = None <-> NoDup (rp_key <$> ps) /\ (forall k, k ∈ rp_key <$> ps -> k ∉ seen).
Proof using Type.
  induction ps as [|p ps IH]; intros seen; cbn [duplicate_key fmap list_fmap].
  - split; [|done]. intros _. split; [constructor|]. intros k Hk. by apply elem_of_nil in Hk.
  - rewrite NoDup_cons. destruct (decide (rp_key p ∈ seen)) as [Hin|Hin].
    + split; [done|]. intros [_ Hd]. by destruct (Hd (rp_key p)); [left|].
    + rewrite IH. split.
      * intros [Hnd Hd]. split_and!; [|done|]; [intros Hk; apply (Hd _ Hk); left|].
        intros k [->|Hk]%elem_of_cons; [done|]. intros Hs. apply (Hd k Hk). by right.
      * intros [[Hp Hnd] Hd]. split; [done|]. intros k Hk [->|Hs]%elem_of_cons; [done|]. by apply (Hd k); [right|].
Qed.

Lemma inputs_no_duplicate ps : inputs_ok ps -> duplicate_key [] (sort_pipelines ps) = None.
Proof using Type.
  intros [_ Hnd]%inputs_ok_sort. apply duplicate_key_None. split; [done|]. intros k _. apply not_elem_of_nil.
Qed.

Lemma inputs_NoDup ps : inputs_ok ps -> NoDup ps.
Proof using Type. intros [_ Hnd]. by apply NoDup_fmap_1 in Hnd. Qed.

Lemma inputs_key_inj ps p q : inputs_ok ps -> p ∈ ps -> q ∈ ps -> rp_key p = rp_key q -> p = q.
Proof using Type.
  intros [_ Hnd] Hp Hq Hk. apply list_elem_of_lookup in Hp as [i Hi]. apply list_elem_of_lookup in Hq as [j Hj].
  assert (i = j) as ->; [|congruence]. eapply (NoDup_lookup (rp_key <$> ps)); [done| |].
  - by rewrite list_lookup_fmap, Hi.
  - rewrite list_lookup_fmap, Hj. simpl. by rewrite Hk.
Qed.

Lemma inputs_rp_ok ps p : inputs_ok ps -> p ∈ ps -> rp_ok p.
Proof using Type. intros [HF _]. by apply Forall_forall. Qed.

(** ** Determinism *)

Lemma rp_lt_spec a b : rp_lt a b = false -> rp_lt b a = false -> rp_key a = rp_key b.
Proof using Type.
  unfold rp_lt, rp_key. destruct (decide (rp_CustomerSlug a = rp_CustomerSlug b)) as [Hc|Hc].
  - rewrite decide_True by done. intros H1 H2. by rewrite Hc, (str_lt_total _ _ H1 H2).
  - rewrite decide_False by congruence. intros H1 H2. by destruct Hc; apply str_lt_total.
Qed.

Lemma rp_lt_irrefl a : rp_lt a a = false.
Proof using Type. unfold rp_lt. rewrite decide_True by done. apply str_lt_irrefl. Qed.

Lemma rp_lt_trans a b c : rp_lt a b = true -> rp_lt b c = true -> rp_lt a c = true.
Proof using Type.
  unfold rp_lt. destruct (decide (rp_CustomerSlug a = rp_CustomerSlug b)) as [E1|E1], (decide (rp_CustomerSlug b = rp_CustomerSlug c)) as [E2|E2].
  - rewrite decide_True by congruence. apply str_lt_trans.
  - rewrite decide_False by congruence. by rewrite E1.
  - rewrite decide_False by congruence. by rewrite <- E2.
  - intros H1 H2. pose proof (str_lt_trans _ _ _ H1 H2) as H3. destruct (decide _) as [E3|]; [|done].
    rewrite E3, str_lt_irrefl in H3. done.
Qed.

Lemma rp_lt_negtrans a b c : rp_lt a b = false -> rp_lt b c = false -> rp_lt a c = false.
Proof using Type.
  unfold rp_lt. destruct (decide (rp_CustomerSlug a = rp_CustomerSlug b)) as [E1|E1], (decide (rp_CustomerSlug b = rp_CustomerSlug c)) as [E2|E2].
  - rewrite decide_True by congruence. apply str_lt_negtrans.
  - rewrite decide_False by congruence. by rewrite E1.
  - rewrite decide_False by congruence. by rewrite <- E2.
  - intros H1 H2. pose proof (str_lt_negtrans _ _ _ H1 H2) as H3. destruct (decide _) as [E3|]; [|done].
    rewrite <- E3 in H2. by destruct E1; apply str_lt_total.
Qed.

Lemma sort_pipelines_unique ps ps' : ps ≡ₚ ps' -> NoDup (rp_key <$> ps) -> sort_pipelines ps = sort_pipelines ps'.
Proof using Type.
  intros Hp Hnd.
  assert (forall l, StronglySorted (not_after rp_lt) (sort_pipelines l)) as Hs.
  { intros l. apply sort_by_sorted; [apply rp_lt_irrefl|apply rp_lt_trans|apply rp_lt_negtrans]. }
  apply (sorted_perm_unique (not_after rp_lt)); [|apply Hs|apply Hs|].
  - unfold sort_pipelines. intros x y Hx Hy H1 H2. rewrite sort_by_perm in Hx, Hy.
    pose proof (rp_lt_spec _ _ H2 H1) as Hk.
    apply list_elem_of_lookup in Hx as [i Hi]. apply list_elem_of_lookup in Hy as [j Hj].
    assert (i = j) as ->; [|congruence]. eapply (NoDup_lookup (rp_key <$> ps)); [done| |].
    + by rewrite list_lookup_fmap, Hi.
    + rewrite list_lookup_fmap, Hj. simpl. by rewrite Hk.
  - unfold sort_pipelines. by rewrite !sort_by_perm.
Qed.

(** The rendered configs do not depend on the order in which the pipelines are
    listed, and rendering reports a duplicate key exactly when two pipelines
    share theirs. *)
Theorem render_order_irrelevant :
  (forall ps ps', ps ≡ₚ ps' -> NoDup (rp_key <$> ps) ->
     RenderForwardingConfig ps = RenderForwardingConfig ps' /\ RenderEdgeConfig ps = RenderEdgeConfig ps') /\
  (forall ps, (exists k, RenderForwardingConfig ps = Err (ErrDuplicateKey k)) <-> ~ NoDup (rp_key <$> ps)) /\
  (forall ps, (exists k, RenderEdgeConfig ps = Err (ErrDuplicateKey k)) <-> ~ NoDup (rp_key <$> ps)).
Proof using Type.
  assert (forall ps, duplicate_key [] (sort_pipelines ps) = None <-> NoDup (rp_key <$> ps)) as Hd.
  { intros ps. rewrite duplicate_key_None. unfold sort_pipelines. rewrite sort_by_perm. split; [by intros [? _]|].
    intros Hnd. split; [done|]. intros k _. apply not_elem_of_nil. }
  unfold RenderForwardingConfig, RenderEdgeConfig, marshal. split_and!.
  - intros ps ps' Hp Hnd. rewrite <- (sort_pipelines_unique ps ps' Hp Hnd). done.
  - intros ps. rewrite <- Hd. destruct (duplicate_key [] (sort_pipelines ps)) as [k|]; [split; [done|eauto]|].
    split; [|by intros []]. by destruct (marshalYAML _); intros [].
  - intros ps. rewrite <- Hd. destruct (duplicate_key [] (sort_pipelines ps)) as [k|]; [split; [done|eauto]|].
    split; [|by intros []]. by destruct (marshalYAML _); intros [].
Qed.

(** ** Names are defined once *)

Lemma node_entries_fst sel p : (node_entries sel p).*1 = node_ids sel p.
Proof using Type. unfold node_entries, node_ids. by rewrite fmap_imap. Qed.

Lemma bind_fst {A} (f : A -> list (string * ynode)) l : (l ≫= f).*1 = l ≫= (fun x => (f x).*1).
Proof using Type. induction l as [|x l IH]; [done|]. cbn [mbind list_bind]. by rewrite fmap_app, IH. Qed.

(** The two sections of nodes and their kinds. *)
Definition nodes_of (sel : Graph -> list Node) : Prop := forall g, graph_ok g -> exists kind, nodes_ok kind (sel g).

Lemma nodes_of_processors : nodes_of graph_Processors.
Proof using Type. intros g (_ & _ & _ & _ & Hp & _). eauto. Qed.
Lemma nodes_of_exporters : nodes_of graph_Exporters.
Proof using Type. intros g (_ & _ & _ & _ & _ & He). eauto. Qed.

Lemma nodes_type kind nodes i n : nodes_ok kind nodes -> nodes !! i = Some n -> has_byte "/" (node_Type n) = false.
Proof using Type.
  intros [HF _] Hi. apply (Forall_lookup_1 _ _ _ _ HF) in Hi as [[c Hc] _]. by apply Lookup_type_no_slash in Hc as [? _].
Qed.

Lemma node_ids_elem sel p id : id ∈ node_ids sel p <-> exists i n, sel (rp_Graph p) !! i = Some n /\ id = rp_component p i n.
Proof using Type.
  unfold node_ids. rewrite list_elem_of_lookup. split.
  - intros [i Hi]. rewrite list_lookup_imap in Hi. destruct (sel (rp_Graph p) !! i) as [n|] eqn:Hn; [|done].
    injection Hi as <-. eauto.
  - intros (i & n & Hn & ->). exists i. by rewrite list_lookup_imap, Hn.
Qed.

Lemma component_inj sel ps p q i n j m : nodes_of sel -> inputs_ok ps -> p ∈ ps -> q ∈ ps ->
  sel (rp_Graph p) !! i = Some n -> sel (rp_Graph q) !! j = Some m -> rp_component p i n = rp_component q j m ->
  p = q /\ i = j.
Proof using Type.
  intros Hsel Hok Hp Hq Hi Hj He. destruct (inputs_rp_ok _ _ Hok Hp) as (Pc & Pp & Pg).
  destruct (inputs_rp_ok _ _ Hok Hq) as (Qc & Qp & Qg).
  destruct (Hsel _ Pg) as [k1 Hk1]. destruct (Hsel _ Qg) as [k2 Hk2].
  pose proof (nodes_type _ _ _ _ Hk1 Hi) as T1. pose proof (nodes_type _ _ _ _ Hk2 Hj) as T2.
  destruct (ComponentID_inj _ _ _ _ _ _ _ _ T1 T2 Pc Qc Pp Qp He) as (Ht & Hc & Hs & Hf).
  assert (p = q) as -> by (eapply inputs_key_inj; [done..|]; unfold rp_key; by rewrite Hc, Hs).
  split; [done|]. destruct Hk1 as [_ Hnd]. eapply (NoDup_lookup _ i j); [exact Hnd| |].
  - rewrite list_lookup_imap, Hi. reflexivity.
  - rewrite list_lookup_imap, Hj. simpl. unfold node_key. by rewrite Ht, Hf.
Qed.

Lemma node_section_NoDup sel ps : nodes_of sel -> inputs_ok ps -> NoDup (ps ≫= node_entries sel).*1.
Proof using Type.
  intros Hsel Hok. rewrite bind_fst. apply NoDup_bind.
  - intros p q id Hp Hq. rewrite !node_entries_fst, !node_ids_elem. intros (i & n & Hi & ->) (j & m & Hj & He).
    by destruct (component_inj _ _ _ _ _ _ _ _ Hsel Hok Hp Hq Hi Hj He).
  - intros p Hp. rewrite node_entries_fst. apply NoDup_alt. intros i j id Hi Hj. unfold node_ids in Hi, Hj.
    rewrite list_lookup_imap in Hi, Hj. destruct (sel (rp_Graph p) !! i) as [n|] eqn:Hn; [|done].
    destruct (sel (rp_Graph p) !! j) as [m|] eqn:Hm; [|done]. injection Hi as <-. injection Hj as He.
    by destruct (component_inj _ _ _ _ _ _ _ _ Hsel Hok Hp Hp Hm Hn He).
  - by apply inputs_NoDup.
Qed.

Lemma component_slash p i n : has_byte "/" (rp_component p i n) = true.
Proof using Type. unfold rp_component, ComponentID. rewrite has_byte_app. apply orb_true_intro. by right. Qed.

Lemma node_section_slash sel ps id : id ∈ (ps ≫= node_entries sel).*1 -> has_byte "/" id = true.
Proof using Type.
  rewrite bind_fst, list_elem_of_bind. intros (p & Hid & _). rewrite node_entries_fst, node_ids_elem in Hid.
  destruct Hid as (i & n & _ & ->). apply component_slash.
Qed.

(** ** The collector pipelines of customers *)

Lemma signal_no_slash sig : sig ∈ Signals -> has_byte "/" sig = false.
Proof using Type. unfold Signals. by intros [->|[->|[->|[]%elem_of_nil]%elem_of_cons]%elem_of_cons]%elem_of_cons. Qed.

Lemma Signals_NoDup : NoDup Signals.
Proof using Type. apply (bool_decide_unpack _). vm_compute. done. Qed.

Lemma pipeline_id_inj ps p q sig sig' : inputs_ok ps -> p ∈ ps -> q ∈ ps -> sig ∈ Signals -> sig' ∈ Signals ->
  rp_pipeline_id sig p = rp_pipeline_id sig' q -> sig = sig' /\ p = q.
Proof using Type.
  intros Hok Hp Hq Hs Hs' He. destruct (inputs_rp_ok _ _ Hok Hp) as (Pc & _ & _).
  destruct (inputs_rp_ok _ _ Hok Hq) as (Qc & _ & _). apply signal_no_slash in Hs, Hs'.
  destruct (CollectorPipelineID_inj _ _ _ _ _ _ Hs Hs' Pc Qc He) as (-> & Hc & Hpp). split; [done|].
  eapply inputs_key_inj; [done..|]. unfold rp_key. by rewrite Hc, Hpp.
Qed.

Lemma customer_section_elem mk ps id pl : (id, pl) ∈ ps ≫= customer_pipelines mk <->
  exists p sig, p ∈ ps /\ sig ∈ Signals /\ hasSignal (rp_Graph p) sig = true /\ id = rp_pipeline_id sig p /\ pl = mk sig p.
Proof using Type.
  rewrite list_elem_of_bind. unfold customer_pipelines. split.
  - intros (p & Hin & Hp). apply list_elem_of_fmap in Hin as (sig & [= -> ->] & Hsig).
    apply list_elem_of_filter in Hsig as [Hh Hs]. by exists p, sig.
  - intros (p & sig & Hp & Hs & Hh & -> & ->). exists p. split; [|done]. apply list_elem_of_fmap. exists sig.
    split; [done|]. by apply list_elem_of_filter.
Qed.

Lemma customer_section_NoDup mk ps : inputs_ok ps -> NoDup (ps ≫= customer_pipelines mk).*1.
Proof using Type.
  intros Hok. rewrite bind_fst. unfold customer_pipelines. apply NoDup_bind.
  - intros p q id Hp Hq. rewrite <- !list_fmap_compose, !list_elem_of_fmap.
    intros (s1 & -> & [_ H1]%list_elem_of_filter) (s2 & He & [_ H2]%list_elem_of_filter).
    by destruct (pipeline_id_inj _ _ _ _ _ Hok Hp Hq H1 H2 He).
  - intros p Hp. rewrite <- list_fmap_compose. apply NoDup_fmap_2_strong; [|apply NoDup_filter, Signals_NoDup].
    intros s1 s2 [_ H1]%list_elem_of_filter [_ H2]%list_elem_of_filter He.
    by destruct (pipeline_id_inj _ _ _ _ _ Hok Hp Hp H1 H2 He).
  - by apply inputs_NoDup.
Qed.

Lemma entry_not_customer sig sig' p : sig ∈ Signals -> sig' ∈ Signals -> sig +:+ "/in" <> rp_pipeline_id sig' p.
Proof using Type.
  intros Hs Hs' He. unfold rp_pipeline_id, CollectorPipelineID in He.
  apply app_sep_inj in He as [_ He]; [|by apply signal_no_slash..].
  apply (f_equal (has_byte "_")) in He. unfold pipelineKey in He. rewrite has_byte_app in He. simpl in He.
  by rewrite orb_true_r in He.
Qed.

Lemma pipelines_NoDup mk entry ps : inputs_ok ps ->
  NoDup ((((fun sig => (sig +:+ "/in", entry sig)) <$> Signals) ++ (ps ≫= customer_pipelines mk))%list).*1.
Proof using Type.
  intros Hok. rewrite fmap_app. apply NoDup_app. split_and!.
  - apply (bool_decide_unpack _). vm_compute. done.
  - intros id Hin Hc. rewrite <- list_fmap_compose in Hin. apply list_elem_of_fmap in Hin as (sig & -> & Hs).
    apply list_elem_of_fmap in Hc as ([id pl] & He & Hc). simpl in He.
    apply customer_section_elem in Hc as (p & sig' & _ & Hs' & _ & -> & _). by apply (entry_not_customer sig sig' p).
  - by apply customer_section_NoDup.
Qed.

(** ** Signals and connectors *)

Lemma signalsWith_elem ps sig p : p ∈ signalsWith ps sig <-> p ∈ ps /\ hasSignal (rp_Graph p) sig = true.
Proof using Type.
  unfold signalsWith, hasSignal. rewrite list_elem_of_bind, bool_decide_eq_true. split.
  - intros (q & Hin & Hq). apply list_elem_of_fmap in Hin as (s & -> & Hs). apply list_elem_of_filter in Hs as [-> ?]. done.
  - intros [Hp Hs]. exists p. split; [|done]. apply list_elem_of_fmap. exists sig. split; [done|]. by apply list_elem_of_filter.
Qed.

Lemma routed_elem ps p sig : p ∈ ps -> sig ∈ Signals -> hasSignal (rp_Graph p) sig = true -> sig ∈ routed_signals ps.
Proof using Type.
  intros Hp Hs Hh. apply list_elem_of_filter. split; [|done]. intros Hn.
  assert (p ∈ signalsWith ps sig) as Hin by (by apply signalsWith_elem). rewrite Hn in Hin. by apply elem_of_nil in Hin.
Qed.

Lemma routing_id_inj a b : routingConnectorID a = routingConnectorID b -> a = b.
Proof using Type. apply string_app_inj_l. Qed.

Lemma connectors_elem ps sig : routingConnectorID sig ∈ (connectors_section ps).*1 <-> sig ∈ routed_signals ps.
Proof using Type.
  unfold connectors_section. rewrite <- list_fmap_compose, list_elem_of_fmap. split.
  - intros (s & He & Hs). apply routing_id_inj in He. by subst.
  - intros Hs. by exists sig.
Qed.

Lemma connectors_NoDup ps : NoDup (connectors_section ps).*1.
Proof using Type.
  unfold connectors_section. rewrite <- list_fmap_compose. apply NoDup_fmap_2_strong.
  - intros a b _ _. apply routing_id_inj.
  - apply NoDup_filter, Signals_NoDup.
Qed.

(** ** Sections of the trees *)

Lemma forwarding_sections ps :
  section (forwarding_tree ps) "receivers" = y_map (Some receivers_section)
  /\ section (forwarding_tree ps) "processors" = processors_section ps
  /\ section (forwarding_tree ps) "connectors" = connectors_section ps
  /\ section (forwarding_tree ps) "exporters" = forwarding_exporters ps
  /\ pipelines (forwarding_tree ps) = forwarding_pipelines ps.
Proof using Type.
  unfold forwarding_tree, section, pipelines, connectors_section. destruct (routed_signals ps); split_and!; reflexivity.
Qed.

Lemma edge_sections ps :
  section (edge_tree ps) "receivers" = y_map (Some receivers_section)
  /\ section (edge_tree ps) "processors" = processors_section ps
  /\ section (edge_tree ps) "connectors" = []
  /\ section (edge_tree ps) "exporters" = edge_exporters ps
  /\ pipelines (edge_tree ps) = edge_pipelines ps.
Proof using Type. split_and!; reflexivity. Qed.

Lemma processors_NoDup ps : inputs_ok ps -> NoDup (processors_section ps).*1.
Proof using Type.
  intros Hok. unfold processors_section. rewrite fmap_app. apply NoDup_app. split_and!.
  - apply (bool_decide_unpack _). vm_compute. done.
  - intros id Hin Hs%node_section_slash. by apply elem_of_cons in Hin as [->|[->|[]%elem_of_nil]%elem_of_cons].
  - by apply node_section_NoDup; [apply nodes_of_processors|].
Qed.

Lemma exporters_NoDup (dbg : bool) ps : inputs_ok ps ->
  NoDup (((if dbg then debug_exporter else []) ++ (ps ≫= node_entries graph_Exporters))%list).*1.
Proof using Type.
  intros Hok. rewrite fmap_app. apply NoDup_app. split_and!.
  - destruct dbg; apply (bool_decide_unpack _); vm_compute; done.
  - intros id Hin Hs%node_section_slash. destruct dbg; [|by apply elem_of_nil in Hin].
    by apply elem_of_cons in Hin as [->|[]%elem_of_nil].
  - by apply node_section_NoDup; [apply nodes_of_exporters|].
Qed.

Lemma node_ids_defined sel ps p id : p ∈ ps -> id ∈ node_ids sel p -> id ∈ (ps ≫= node_entries sel).*1.
Proof using Type.
  intros Hp Hid. rewrite bind_fst. apply list_elem_of_bind. exists p. by rewrite node_entries_fst.
Qed.

Lemma node_ids_nonempty sel p : sel (rp_Graph p) <> [] -> node_ids sel p <> [].
Proof using Type. unfold node_ids. by destruct (sel (rp_Graph p)). Qed.

Lemma default_processor_defined ps id : id ∈ ["memory_limiter"; "batch"] -> id ∈ (processors_section ps).*1.
Proof using Type.
  intros Hid. unfold processors_section. rewrite fmap_app. apply elem_of_app. left. exact Hid.
Qed.

Lemma processor_ids_defined ps p id : p ∈ ps -> id ∈ node_ids graph_Processors p -> id ∈ (processors_section ps).*1.
Proof using Type.
  intros Hp Hid. unfold processors_section. rewrite fmap_app. apply elem_of_app. right. by eapply node_ids_defined.
Qed.

(** ** References resolve *)

Definition resolves (t : ynode) (pl : ynode) : Prop :=
  refs pl "receivers" <> [] /\ refs pl "exporters" <> []
  /\ (forall r, r ∈ refs pl "receivers" -> r ∈ (section t "receivers").*1 \/ r ∈ (section t "connectors").*1)
  /\ (forall r, r ∈ refs pl "processors" -> r ∈ (section t "processors").*1)
  /\ (forall r, r ∈ refs pl "exporters" -> r ∈ (section t "exporters").*1 \/ r ∈ (section t "connectors").*1).

Lemma resolves_collector t rs po es : rs <> [] -> es <> [] ->
  (forall r, r ∈ rs -> r ∈ (section t "receivers").*1 \/ r ∈ (section t "connectors").*1) ->
  (forall r, r ∈ default [] po -> r ∈ (section t "processors").*1) ->
  (forall r, r ∈ es -> r ∈ (section t "exporters").*1 \/ r ∈ (section t "connectors").*1) ->
  resolves t (collector_pipeline rs po es).
Proof using Type.
  intros. destruct (refs_collector rs po es) as (E1 & E2 & E3). unfold resolves. by rewrite E1, E2, E3.
Qed.

Lemma rp_exporters_nonempty ps p : inputs_ok ps -> p ∈ ps -> node_ids graph_Exporters p <> [].
Proof using Type.
  intros Hok Hp. destruct (inputs_rp_ok _ _ Hok Hp) as (_ & _ & (_ & _ & _ & He & _)). by apply node_ids_nonempty.
Qed.

Lemma entry_sink_defined ps sig : sig ∈ Signals ->
  entry_sink ps sig ∈ (forwarding_exporters ps).*1 \/ entry_sink ps sig ∈ (connectors_section ps).*1.
Proof using Type.
  intros Hs. unfold entry_sink. case_decide as Hn.
  - left. unfold forwarding_exporters. rewrite fmap_app. apply elem_of_app. left.
    destruct (forallb _ Signals) eqn:Hall; [|by left]. rewrite forallb_forall in Hall.
    apply list_elem_of_In in Hs. specialize (Hall sig Hs). by apply bool_decide_eq_true in Hall.
  - right. apply connectors_elem. by apply list_elem_of_filter.
Qed.

Lemma forwarding_resolves ps id pl : inputs_ok ps -> (id, pl) ∈ forwarding_pipelines ps -> resolves (forwarding_tree ps) pl.
Proof using Type.
  intros Hok Hin. destruct (forwarding_sections ps) as (S1 & S2 & S3 & S4 & _).
  unfold forwarding_pipelines in Hin. apply elem_of_app in Hin as [Hin|Hin].
  - apply list_elem_of_fmap in Hin as (sig & [= -> ->] & Hs). apply resolves_collector; try done.
    + intros r ->%list_elem_of_singleton. left. rewrite S1. by left.
    + rewrite S2. intros r. apply default_processor_defined.
    + rewrite S3, S4. intros r ->%list_elem_of_singleton. by apply entry_sink_defined.
  - apply customer_section_elem in Hin as (p & sig & Hp & Hs & Hh & -> & ->). apply resolves_collector; [done| | | |].
    + by eapply rp_exporters_nonempty.
    + rewrite S3. intros r ->%list_elem_of_singleton. right. apply connectors_elem. by eapply routed_elem.
    + rewrite S2. intros r Hr. apply (processor_ids_defined ps p); [done|].
      by destruct (graph_Processors (rp_Graph p)); [apply elem_of_nil in Hr|].
    + rewrite S4. intros r Hr. left. unfold forwarding_exporters. rewrite fmap_app. apply elem_of_app. right.
      by eapply node_ids_defined.
Qed.

Lemma edge_resolves ps id pl : inputs_ok ps -> (id, pl) ∈ edge_pipelines ps -> resolves (edge_tree ps) pl.
Proof using Type.
  intros Hok Hin. destruct (edge_sections ps) as (S1 & S2 & S3 & S4 & _).
  assert (forall r, r ∈ ["otlp"] -> r ∈ (section (edge_tree ps) "receivers").*1 \/ r ∈ (section (edge_tree ps) "connectors").*1) as Hr.
  { intros r ->%list_elem_of_singleton. left. rewrite S1. by left. }
  assert (forall r, r ∈ ["memory_limiter"; "batch"] -> r ∈ (section (edge_tree ps) "processors").*1) as Hdef.
  { rewrite S2. apply default_processor_defined. }
  unfold edge_pipelines in Hin. apply elem_of_app in Hin as [Hin|Hin].
  - destruct ps as [|p ps]; [|by apply elem_of_nil in Hin].
    apply list_elem_of_fmap in Hin as (sig & [= -> ->] & Hs). apply resolves_collector; try done.
    intros r ->%list_elem_of_singleton. left. by left.
  - apply customer_section_elem in Hin as (p & sig & Hp & Hs & Hh & -> & ->). apply resolves_collector; [done| |done| |].
    + by eapply rp_exporters_nonempty.
    + unfold edgeProcessorIDs. cbn [default]. intros r [->|[->|Hid]%elem_of_cons]%elem_of_cons.
      * apply Hdef. by left.
      * apply Hdef. right. by left.
      * rewrite S2. by eapply processor_ids_defined.
    + rewrite S4. intros r Hid. left. unfold edge_exporters. rewrite fmap_app. apply elem_of_app. right.
      by eapply node_ids_defined.
Qed.

Lemma section_NoDup t : NoDup (section t "processors").*1 -> NoDup (section t "connectors").*1 ->
  NoDup (section t "exporters").*1 -> section t "receivers" = y_map (Some receivers_section) ->
  forall k, k ∈ ["receivers"; "processors"; "connectors"; "exporters"] -> NoDup (section t k).*1.
Proof using Type.
  intros H1 H2 H3 H4 k Hk. repeat (apply elem_of_cons in Hk as [->|Hk]; [try done|]); [|by apply elem_of_nil in Hk].
  rewrite H4. apply (bool_decide_unpack _). vm_compute. done.
Qed.

(** C20: Rendered configs are well formed: with validated graphs and distinct
    pipeline keys, every component and pipeline of the forwarding and of the
    edge config is defined under one name, every pipeline has a receiver and an
    exporter, and every name a pipeline refers to is defined. *)
Theorem rendered_configs_closed ps : inputs_ok ps ->
  RenderForwardingConfig ps = marshal (forwarding_tree (sort_pipelines ps))
  /\ config_closed (forwarding_tree (sort_pipelines ps))
  /\ RenderEdgeConfig ps = marshal (edge_tree (sort_pipelines ps))
  /\ config_closed (edge_tree (sort_pipelines ps)).
Proof using Type.
  intros Hin. pose proof (inputs_no_duplicate ps Hin) as Hd. apply inputs_ok_sort in Hin as Hok.
  set (qs := sort_pipelines ps) in *. unfold RenderForwardingConfig, RenderEdgeConfig. fold qs. rewrite Hd. split_and!; try done.
  - destruct (forwarding_sections qs) as (S1 & S2 & S3 & S4 & S5). unfold config_closed. rewrite S5. split_and!.
    + apply section_NoDup; [rewrite S2; by apply processors_NoDup|rewrite S3; apply connectors_NoDup| |done].
      rewrite S4. unfold forwarding_exporters. destruct (forallb _ _);
        [exact (exporters_NoDup false qs Hok)|exact (exporters_NoDup true qs Hok)].
    + by apply pipelines_NoDup.
    + intros id pl. by apply forwarding_resolves.
  - destruct (edge_sections qs) as (S1 & S2 & S3 & S4 & S5). unfold config_closed. rewrite S5. split_and!.
    + apply section_NoDup; [rewrite S2; by apply processors_NoDup|rewrite S3; constructor| |done].
      rewrite S4. unfold edge_exporters. destruct qs as [|q qs']; [exact (exporters_NoDup true [] Hok)|].
      exact (exporters_NoDup false (q :: qs') Hok).
    + unfold edge_pipelines. destruct qs as [|q qs']; [exact (pipelines_NoDup edge_pipeline _ [] Hok)|].
      by apply customer_section_NoDup.
    + intros id pl. by apply edge_resolves.
Qed.

(** ** Routing *)

Definition all_chars : list ascii := ascii_of_nat <$> seq 0 256.

Lemma all_chars_elem c : c ∈ all_chars.
Proof using Type.
  apply list_elem_of_fmap. exists (nat_of_ascii c). split; [by rewrite ascii_nat_embedding|].
  apply elem_of_seq. pose proof (nat_ascii_bounded c). lia.
Qed.

(** The escapes of characters are a prefix code. *)
Lemma quote_char_prefix c d : String.prefix (quote_char c) (quote_char d) = true -> c = d.
Proof using Type.
  assert (forallb (fun c => forallb (fun d => negb (String.prefix (quote_char c) (quote_char d)) || bool_decide (c = d)) all_chars) all_chars
    = true) as Hall by (vm_compute; reflexivity).
  rewrite forallb_forall in Hall. specialize (Hall c). rewrite forallb_forall in Hall.
  specialize (Hall ltac:(apply list_elem_of_In, all_chars_elem) d ltac:(apply list_elem_of_In, all_chars_elem)).
  intros Hp. rewrite Hp in Hall. cbn [negb orb] in Hall. by apply bool_decide_eq_true in Hall.
Qed.

Lemma app_prefix a b r s : a +:+ r = b +:+ s -> String.prefix a b = true \/ String.prefix b a = true.
Proof using Type.
  revert b. induction a as [|c a IH]; intros [|d b]; simpl; [by left|by left|by right|]. intros [= <- He].
  destruct (ascii_dec c c) as [_|]; [|done]. by apply IH.
Qed.

Lemma quote_char_nonempty c s : quote_char c +:+ s <> "".
Proof using Type. destruct c as [[] [] [] [] [] [] [] []]; discriminate. Qed.

Lemma quote_body_inj a b : quote_body a = quote_body b -> a = b.
Proof using Type.
  revert b. induction a as [|c a IH]; intros [|d b]; cbn [quote_body]; [done| | |].
  - intros He. symmetry in He. by apply quote_char_nonempty in He.
  - intros He. by apply quote_char_nonempty in He.
  - intros He. assert (c = d) as <- by (destruct (app_prefix _ _ _ _ He) as [Hp|Hp]; [|symmetry]; by apply quote_char_prefix).
    f_equal. apply IH. by apply string_app_inj_l in He.
Qed.

Lemma tenant_condition_inj a b : tenant_condition a = tenant_condition b -> a = b.
Proof using Type.
  unfold tenant_condition, go_quote. intros He. do 6 apply string_app_inj_l in He.
  apply string_app_inj_r in He. by apply quote_body_inj.
Qed.

Lemma client_order_elem l c : forall seen,
  c ∈ client_order seen l <-> (c ∉ seen) /\ exists p, p ∈ l /\ rp_ClientID p = c.
Proof using Type.
  induction l as [|p l IH]; intros seen; cbn [client_order].
  - split; [by intros ?%elem_of_nil|]. intros (_ & p & Hp & _). by apply elem_of_nil in Hp.
  - destruct (decide (rp_ClientID p ∈ seen)) as [Hin|Hin].
    + rewrite IH. split.
      * intros (Hs & q & Hq & Hc). split; [done|]. exists q. split; [by right|done].
      * intros (Hs & q & [->|Hq]%elem_of_cons & Hc); [congruence|]. eauto.
    + rewrite elem_of_cons, IH, not_elem_of_cons. split.
      * intros [->|([Hne Hs] & q & Hq & Hc)]; [split; [done|]; exists p; split; [by left|done]|].
        split; [done|]. exists q. split; [by right|done].
      * intros (Hs & q & [->|Hq]%elem_of_cons & Hc); [by left|]. destruct (decide (c = rp_ClientID p)); [by left|right]. eauto.
Qed.

Lemma routing_table_elem sig routed id c : (exists pls, (tenant_condition c, pls) ∈ routing_table sig routed /\ id ∈ pls) <->
  exists p, p ∈ routed /\ rp_ClientID p = c /\ id = rp_pipeline_id sig p.
Proof using Type.
  unfold routing_table. split.
  - intros (pls & Hin & Hid). apply list_elem_of_fmap in Hin as (c' & He & Ho).
    assert (pls = client_pipelines sig routed c') as -> by exact (f_equal snd He).
    apply (f_equal fst), tenant_condition_inj in He as ->.
    apply list_elem_of_fmap in Hid as (p & -> & Hp). apply list_elem_of_filter in Hp as [Hpc Hp]. eauto.
  - intros (p & Hp & Hc & ->). exists (client_pipelines sig routed c). split.
    + apply list_elem_of_fmap. exists c. split; [done|]. apply client_order_elem. split; [apply not_elem_of_nil|]. eauto.
    + apply list_elem_of_fmap. exists p. split; [done|]. by apply list_elem_of_filter.
Qed.

Lemma routes_elem ps sig c id : sig ∈ Signals ->
  id ∈ routes (forwarding_tree ps) sig c <->
  exists pls, (tenant_condition c, pls) ∈ routing_table sig (signalsWith ps sig) /\ id ∈ pls.
Proof using Type.
  intros Hs. unfold routes. destruct (forwarding_sections ps) as (_ & _ & -> & _).
  destruct (decide (sig ∈ routed_signals ps)) as [Hr|Hr].
  - rewrite (assoc_elem _ (routing_connector sig (signalsWith ps sig)) _ (connectors_NoDup ps)).
    2:{ apply list_elem_of_fmap. by exists sig. }
    change (y_seq _) with (table_entry <$> routing_table sig (signalsWith ps sig)).
    rewrite list_elem_of_bind. split.
    + intros (e & Hid & He). apply list_elem_of_fmap in He as ([cond pls] & -> & He). cbn in Hid.
      case_decide as Hc; [|by apply elem_of_nil in Hid]. injection Hc as ->. exists pls. split; [done|].
      erewrite refs_strings in Hid; [exact Hid|reflexivity|reflexivity].
    + intros (pls & He & Hid). exists (table_entry (tenant_condition c, pls)). split; [|by apply list_elem_of_fmap_2].
      rewrite decide_True by reflexivity. by erewrite refs_strings; [|reflexivity|reflexivity].
  - assert (assoc (routingConnectorID sig) (connectors_section ps) = None) as ->.
    { destruct (assoc _ _) as [v|] eqn:Ha; [|done]. destruct Hr. apply connectors_elem.
      revert Ha. generalize (connectors_section ps). intros l. induction l as [|[k w] l IH]; simpl; [done|].
      case_decide as Hk; [intros _; subst; by left|]. intros Ha. right. by apply IH. }
    split; [intros Hn; by apply elem_of_nil in Hn|]. intros (pls & He & _).
    assert (signalsWith ps sig = []) as Hn.
    { destruct (decide (signalsWith ps sig = [])); [done|]. destruct Hr. by apply list_elem_of_filter. }
    rewrite Hn in He. by apply elem_of_nil in He.
Qed.

Lemma forwarding_exporter_assoc ps p i n : inputs_ok ps -> p ∈ ps -> graph_Exporters (rp_Graph p) !! i = Some n ->
  assoc (rp_component p i n) (forwarding_exporters ps) = Some (toNode (JObj (default [] (node_Config n)))).
Proof using Type.
  intros Hok Hp Hi. apply assoc_elem.
  - unfold forwarding_exporters. destruct (forallb _ _); [exact (exporters_NoDup false _ Hok)|exact (exporters_NoDup true _ Hok)].
  - apply elem_of_app. right. apply list_elem_of_bind. exists p. split; [|done]. apply list_elem_of_lookup. exists i.
    unfold node_entries. by rewrite list_lookup_imap, Hi.
Qed.

(** C10: Tenant routing: on the forwarding tier, data stamped with a tenant id is
    sent, for each signal, to exactly the collector pipelines of that tenant's
    active pipelines carrying the signal; such a pipeline is fed by the routing
    connector alone and exports through exactly its own exporters, each with the
    config of its graph. *)
Theorem tenant_routing ps sig c : inputs_ok ps -> sig ∈ Signals ->
  let t := forwarding_tree (sort_pipelines ps) in
  (forall id, id ∈ routes t sig c <->
     exists p, p ∈ ps /\ rp_ClientID p = c /\ hasSignal (rp_Graph p) sig = true /\ id = rp_pipeline_id sig p) /\
  (forall p, p ∈ ps -> hasSignal (rp_Graph p) sig = true ->
     exists pl, assoc (rp_pipeline_id sig p) (pipelines t) = Some pl
       /\ refs pl "receivers" = [routingConnectorID sig] /\ refs pl "exporters" = node_ids graph_Exporters p
       /\ forall i n, graph_Exporters (rp_Graph p) !! i = Some n ->
            assoc (rp_component p i n) (section t "exporters") = Some (toNode (JObj (default [] (node_Config n))))).
Proof using Type.
  intros Hin Hs t. apply inputs_ok_sort in Hin as Hok. assert (forall p, p ∈ sort_pipelines ps <-> p ∈ ps) as Hmem.
  { intros p. unfold sort_pipelines. by rewrite sort_by_perm. }
  destruct (forwarding_sections (sort_pipelines ps)) as (_ & _ & _ & S4 & S5). unfold t. split.
  - intros id. rewrite routes_elem, routing_table_elem by done. split.
    + intros (p & Hp & Hc & ->). apply signalsWith_elem in Hp as [Hp Hh]. exists p. by rewrite <- Hmem.
    + intros (p & Hp & Hc & Hh & ->). exists p. rewrite signalsWith_elem, Hmem. done.
  - intros p Hp Hh. rewrite <- Hmem in Hp. exists (forwarding_pipeline sig p). split.
    { rewrite S5. apply assoc_elem; [by apply pipelines_NoDup|]. apply elem_of_app. right.
      apply customer_section_elem. eauto 10. }
    destruct (refs_collector [routingConnectorID sig] (match graph_Processors (rp_Graph p) with [] => None | _ => Some (node_ids graph_Processors p) end) (node_ids graph_Exporters p)) as (R1 & _ & R3).
    split; [exact R1|]. split; [exact R3|]. intros i n Hi. rewrite S4. by apply forwarding_exporter_assoc.
Qed.
End spec.

(** ** Two tenants *)

Definition ex_yaml : Yaml := Build_Yaml (fun _ => Ok "config") (fun _ => true).
Definition ex_collector : Collector := Build_Collector (fun _ _ => SchemaOk) "otelcol" true (fun _ => None).
#[local] Existing Instances ex_yaml ex_collector.

Definition ex_rp (slug client : string) : RenderPipeline := MkRenderPipeline slug client "main" (ex_secret_graph "pw").
Definition ex_inputs : list RenderPipeline := [ex_rp "umbrella" "cust_2"; ex_rp "acme" "cust_1"].

Lemma ex_inputs_ok : inputs_ok ex_inputs.
Proof.
  split; [|apply (bool_decide_unpack _); vm_compute; done].
  assert (graph_ok (ex_secret_graph "pw")) as Hg by (apply ValidateStructural_ok; vm_compute; reflexivity).
  apply Forall_forall. intros p Hp. apply elem_of_cons in Hp as [->|Hp]; [|apply list_elem_of_singleton in Hp as ->];
    (split; [reflexivity|split; [reflexivity|exact Hg]]).
Qed.

Lemma rendered_configs_closed_witness : config_closed (forwarding_tree (sort_pipelines ex_inputs)).
Proof. exact (proj1 (proj2 (rendered_configs_closed ex_inputs ex_inputs_ok))). Defined.

Lemma tenant_routing_witness :
  "logs/acme__main" ∈ routes (forwarding_tree (sort_pipelines ex_inputs)) "logs" "cust_1"
  /\ "logs/umbrella__main" ∉ routes (forwarding_tree (sort_pipelines ex_inputs)) "logs" "cust_1".
Proof.
  assert ("logs" ∈ Signals) as Hs by (left).
  destruct (tenant_routing ex_inputs "logs" "cust_1" ex_inputs_ok Hs) as [Hr _]. split.
  - apply Hr. exists (ex_rp "acme" "cust_1"). split; [right; left|]. split; [reflexivity|]. split; reflexivity.
  - intros Hin. apply Hr in Hin as (p & Hp & Hc & _ & He).
    apply elem_of_cons in Hp as [->|Hp]; [discriminate|]. apply list_elem_of_singleton in Hp as ->. discriminate.
Defined.
