(* ===== verification/PgPipelines.v ===== *)
(** The PostgreSQL store: pipelines and their versions
    (internal/store/pg_pipelines.go). *)
From S2P Require Import Prelude GoStrings Json StoreTypes PgCore.

Open Scope string_scope.

(** ** Queries *)

Definition versions_of (pipelineID : N) (d : DB) : list version_row :=
  rows (t_pipeline_versions d) (fun v => bool_decide (pv_pipeline_id v = pipelineID)).

(** [max(version)], null without rows. *)
Definition max_version (l : list version_row) : option Z :=
  match l with
  | [] => None
  | v :: l => Some (foldr (fun v m => Z.max (pv_version v) m) (pv_version v) l)
  end.

(** A pipeline joined with its customer and version numbers. *)
Definition select_pipeline (d : DB) (r : pipeline_row) : option Pipeline :=
  (fun c => MkPipeline (pl_id r) (pl_customer_id r) (Customer_Name c) (Customer_Slug c) (Customer_ClientID c)
              (pl_name r) (pl_target_class r) (pl_active_version_id r)
              (v ← pl_active_version_id r; pv_version <$> t_pipeline_versions d !! v)
              (max_version (versions_of (pl_id r) d)) (pl_created_at r))
    <$> t_customers d !! pl_customer_id r.

(** A version joined with its author and the active flag. *)
Definition select_version (d : DB) (v : version_row) : option PipelineVersion :=
  (fun p => MkPipelineVersion (pv_id v) (pv_pipeline_id v) (pv_version v) (pv_graph v) (pv_rendered_yaml v)
              (pv_config_hash v) (pv_validation_status v) (pv_validation_output v) (pv_created_by v)
              (u ← pv_created_by v; User_Email <$> t_users d !! u) (pv_created_at v)
              (bool_decide (pl_active_version_id p = Some (pv_id v))))
    <$> t_pipelines d !! pv_pipeline_id v.

Definition pg_GetPipeline (id : N) (d : DB) : result Pipeline store_err :=
  match t_pipelines d !! id ≫= select_pipeline d with
  | Some p => Ok p
  | None => Err ErrNotFound
  end.

(** ORDER BY c.slug, p.name, p.id. *)
Definition pipeline_before (a b : Pipeline) : bool :=
  if decide (Pipeline_CustomerSlug a = Pipeline_CustomerSlug b) then
    if decide (Pipeline_Name a = Pipeline_Name b) then (Pipeline_ID a <? Pipeline_ID b)%N
    else str_lt (Pipeline_Name a) (Pipeline_Name b)
  else str_lt (Pipeline_CustomerSlug a) (Pipeline_CustomerSlug b).

Definition pg_ListPipelines (customerID : option N) (d : DB) : list Pipeline :=
  sort_by pipeline_before
    (omap (fun r => c ← t_customers d !! pl_customer_id r;
                    if decide (Customer_Status c = CustomerDeleted) then None else select_pipeline d r)
       (rows (t_pipelines d) (fun r => match customerID with
                                       | Some id => bool_decide (pl_customer_id r = id)
                                       | None => true
                                       end))).

Definition version_before (a b : PipelineVersion) : bool := (PipelineVersion_Version b <? PipelineVersion_Version a)%Z.

Definition pg_ListPipelineVersions (pipelineID : N) (d : DB) : list PipelineVersion :=
  sort_by version_before (omap (select_version d) (versions_of pipelineID d)).

Definition find_version (pipelineID : N) (version : Z) (d : DB) : option version_row :=
  head (rows (t_pipeline_versions d)
          (fun v => bool_decide (pv_pipeline_id v = pipelineID) && (pv_version v =? version)%Z)).

Definition pg_GetPipelineVersion (pipelineID : N) (version : Z) (d : DB) : result PipelineVersion store_err :=
  match find_version pipelineID version d ≫= select_version d with
  | Some v => Ok v
  | None => Err ErrNotFound
  end.

(** ** Statements *)

Definition insertPipelineVersion (now : Z) (v : NewPipelineVersion) (version : Z) : tx unit := fun d =>
  let row := MkVersionRow (NewPipelineVersion_ID v) (NewPipelineVersion_PipelineID v) version
               (NewPipelineVersion_Graph v) (NewPipelineVersion_RenderedYAML v) (NewPipelineVersion_ConfigHash v)
               (NewPipelineVersion_ValidationStatus v) (NewPipelineVersion_ValidationOutput v)
               (NewPipelineVersion_CreatedBy v) now in
  if bool_decide (is_Some (t_pipeline_versions d !! NewPipelineVersion_ID v))
     || negb (bool_decide (is_Some (t_pipelines d !! NewPipelineVersion_PipelineID v)))
     || bool_decide (is_Some (find_version (NewPipelineVersion_PipelineID v) version d))
     || negb (bool_decide (NewPipelineVersion_ValidationStatus v ∈ [ValidationValid; ValidationInvalid]))
     || negb (user_ref_ok (NewPipelineVersion_CreatedBy v) d)
  then Err (ErrOther "insert pipeline version")
  else Ok (tt, set_pipeline_versions (<[NewPipelineVersion_ID v := row]>) d).

Definition name_taken (customerID : N) (name : string) (d : DB) : bool :=
  existsb (fun p => bool_decide (pl_customer_id p.2 = customerID) && bool_decide (pl_name p.2 = name))
    (map_to_list (t_pipelines d)).

Definition insert_pipeline (now : Z) (p : NewPipeline) : tx unit := fun d =>
  let targetClass := if decide (NewPipeline_TargetClass p = "") then ClassForwarding else NewPipeline_TargetClass p in
  let row := MkPipelineRow (NewPipeline_ID p) (NewPipeline_CustomerID p) (NewPipeline_Name p) targetClass None now in
  if bool_decide (is_Some (t_pipelines d !! NewPipeline_ID p))
     || negb (bool_decide (targetClass ∈ [ClassForwarding; ClassEdge]))
  then Err (ErrOther "insert pipeline")
  else if name_taken (NewPipeline_CustomerID p) (NewPipeline_Name p) d then Err ErrNameExists
  else Ok (tt, set_pipelines (<[NewPipeline_ID p := row]>) d).

Definition live_customer (id : N) : tx unit :=
  tx_read (fun d => match t_customers d !! id with
                    | Some c => if decide (Customer_Status c = CustomerDeleted) then Err ErrNotFound else Ok tt
                    | None => Err ErrNotFound
                    end).

Definition read_pipeline (id : N) : tx Pipeline :=
  tx_read (fun d => match t_pipelines d !! id ≫= select_pipeline d with
                    | Some p => Ok p
                    | None => Err (ErrOther "read back pipeline")
                    end).

Definition read_version (id : N) : tx PipelineVersion :=
  tx_read (fun d => match t_pipeline_versions d !! id ≫= select_version d with
                    | Some v => Ok v
                    | None => Err (ErrOther "read back version")
                    end).

Definition pg_CreatePipeline (now : Z) (p : NewPipeline) (v : NewPipelineVersion) (entries : list AuditEntry)
  : DB -> result (Pipeline * PipelineVersion) store_err * DB :=
  inTx (live_customer (NewPipeline_CustomerID p) ;;
        insert_pipeline now p ;;
        insertPipelineVersion now v 1 ;;
        audit_Write entries ;;
        pipe <- read_pipeline (NewPipeline_ID p) ;;
        ver <- read_version (NewPipelineVersion_ID v) ;;
        tx_ret (pipe, ver)).

(** The versions cascade; the deferred foreign key is checked at commit. *)
Definition pg_DeletePipeline (id : N) (entries : list AuditEntry) : DB -> result unit store_err * DB :=
  inTx (tx_read (fun d => if bool_decide (is_Some (t_pipelines d !! id)) then Ok tt else Err ErrNotFound) ;;
        tx_exec (set_pipelines (delete id)) ;;
        tx_exec (set_pipeline_versions (filter (fun p => pv_pipeline_id p.2 <> id))) ;;
        audit_Write entries ;;
        tx_read (fun d => if forallb (fun r => match pl_active_version_id r with
                                               | Some v => bool_decide (is_Some (t_pipeline_versions d !! v))
                                               | None => true
                                               end) (snd <$> map_to_list (t_pipelines d))
                          then Ok tt else Err (ErrOther "pipelines_active_version_fk"))).

Definition pg_CreatePipelineVersion (now : Z) (v : NewPipelineVersion) (entries : list AuditEntry)
  : DB -> result PipelineVersion store_err * DB :=
  let pid := NewPipelineVersion_PipelineID v in
  inTx (tx_read (fun d => if bool_decide (is_Some (t_pipelines d !! pid)) then Ok tt else Err ErrNotFound) ;;
        next <- tx_get (fun d => default 0 (max_version (versions_of pid d)) + 1)%Z ;;
        insertPipelineVersion now v next ;;
        audit_Write entries ;;
        read_version (NewPipelineVersion_ID v)).

Definition activate_row (versionID : N) (r : pipeline_row) : pipeline_row :=
  MkPipelineRow (pl_id r) (pl_customer_id r) (pl_name r) (pl_target_class r) (Some versionID) (pl_created_at r).

Definition mark_active (v : PipelineVersion) : PipelineVersion :=
  MkPipelineVersion (PipelineVersion_ID v) (PipelineVersion_PipelineID v) (PipelineVersion_Version v)
    (PipelineVersion_Graph v) (PipelineVersion_RenderedYAML v) (PipelineVersion_ConfigHash v)
    (PipelineVersion_ValidationStatus v) (PipelineVersion_ValidationOutput v) (PipelineVersion_CreatedBy v)
    (PipelineVersion_CreatedByEmail v) (PipelineVersion_CreatedAt v) true.

Definition pg_ActivatePipelineVersion (pipelineID : N) (version : Z) (entries : list AuditEntry)
  : DB -> result (Pipeline * PipelineVersion) store_err * DB :=
  inTx (ver <- tx_read (pg_GetPipelineVersion pipelineID version) ;;
        tx_check (bool_decide (PipelineVersion_ValidationStatus ver = ValidationValid)) ErrConflict ;;
        tx_exec (set_pipelines (alter (activate_row (PipelineVersion_ID ver)) pipelineID)) ;;
        audit_Write entries ;;
        pipe <- tx_read (fun d => match t_pipelines d !! pipelineID ≫= select_pipeline d with
                                  | Some p => Ok p
                                  | None => Err (ErrOther "no rows")
                                  end) ;;
        tx_ret (pipe, mark_active ver)).

(** The renderer's inputs, in the order of slug, name and id. *)
Definition active_of (d : DB) (r : pipeline_row) : option ActivePipeline :=
  c ← t_customers d !! pl_customer_id r;
  vid ← pl_active_version_id r;
  v ← t_pipeline_versions d !! vid;
  if decide (Customer_Status c = CustomerActive)
  then Some (MkActivePipeline (pl_id r) (pl_name r) (pl_customer_id r) (Customer_Slug c) (Customer_ClientID c) (pv_graph v))
  else None.

Definition active_before (a b : ActivePipeline) : bool :=
  if decide (ActivePipeline_CustomerSlug a = ActivePipeline_CustomerSlug b) then
    if decide (ActivePipeline_PipelineName a = ActivePipeline_PipelineName b)
    then (ActivePipeline_PipelineID a <? ActivePipeline_PipelineID b)%N
    else str_lt (ActivePipeline_PipelineName a) (ActivePipeline_PipelineName b)
  else str_lt (ActivePipeline_CustomerSlug a) (ActivePipeline_CustomerSlug b).

Definition pg_ListActivePipelines (targetClass : string) (customerID : option N) (d : DB) : list ActivePipeline :=
  sort_by active_before
    (omap (active_of d)
       (rows (t_pipelines d) (fun r =>
          bool_decide (pl_target_class r = targetClass)
          && match customerID with Some id => bool_decide (pl_customer_id r = id) | None => true end))).

(** ** Invariant *)

(** The numbers of a pipeline's versions are 1 to [n], each used once. *)
Definition numbered (d : DB) (pid : N) (n : Z) : Prop :=
  (forall z, (exists i v, t_pipeline_versions d !! i = Some v /\ pv_pipeline_id v = pid /\ pv_version v = z) <-> (1 <= z <= n)%Z)
  /\ (forall i j v w, t_pipeline_versions d !! i = Some v -> t_pipeline_versions d !! j = Some w ->
        pv_pipeline_id v = pid -> pv_pipeline_id w = pid -> pv_version v = pv_version w -> i = j).

(** [lo] is the least number of versions of each pipeline. *)
Definition wf_at (lo : N -> Z) (d : DB) : Prop :=
  (forall i r, t_pipelines d !! i = Some r -> pl_id r = i /\ is_Some (t_customers d !! pl_customer_id r)
     /\ (exists n, (lo i <= n)%Z /\ numbered d i n)
     /\ (forall vid, pl_active_version_id r = Some vid ->
           exists v, t_pipeline_versions d !! vid = Some v /\ pv_pipeline_id v = i /\ pv_validation_status v = ValidationValid))
  /\ (forall i v, t_pipeline_versions d !! i = Some v -> pv_id v = i /\ is_Some (t_pipelines d !! pv_pipeline_id v))
  /\ (forall i j r q, t_pipelines d !! i = Some r -> t_pipelines d !! j = Some q ->
        pl_customer_id r = pl_customer_id q -> pl_name r = pl_name q -> i = j).

(** Rows under their ids, references that resolve, versions numbered without
    gaps from 1, the active version a valid one of the pipeline itself, and
    names unique per customer. *)
Definition pipelines_wf : DB -> Prop := wf_at (fun _ => 1%Z).

Lemma versions_of_elem pid d v : v ∈ versions_of pid d <->
  pv_pipeline_id v = pid /\ exists i, t_pipeline_versions d !! i = Some v.
Proof. unfold versions_of. by rewrite rows_elem, bool_decide_eq_true. Qed.

Lemma max_version_Some l m : max_version l = Some m <->
  (exists v, v ∈ l /\ pv_version v = m) /\ (forall v, v ∈ l -> pv_version v <= m)%Z.
Proof.
  assert (forall l m0, (exists v, v ∈ l /\ pv_version v = foldr (fun v m => Z.max (pv_version v) m) m0 l)
    \/ foldr (fun v m => Z.max (pv_version v) m) m0 l = m0) as Hex.
  { clear. induction l as [|v l IH]; intros m0; simpl; [by right|].
    destruct (IH m0) as [(w & Hw & He)|He]; [|rewrite He];
      match goal with |- context [Z.max ?a ?b] => destruct (Z.max_spec a b) as [[_ ->]|[_ ->]] end; try (by right);
      try (left; exists v; by split; [left|]). left. exists w. by split; [right|]. }
  assert (forall l m0, (m0 <= foldr (fun v m => Z.max (pv_version v) m) m0 l)%Z
    /\ forall v, v ∈ l -> (pv_version v <= foldr (fun v m => Z.max (pv_version v) m) m0 l)%Z) as Hub.
  { clear. induction l as [|w l IH]; intros m0; simpl.
    - split; [lia|]. intros v Hv. by apply elem_of_nil in Hv.
    - destruct (IH m0) as [H1 H2]. split; [lia|]. intros v [->|Hv]%elem_of_cons; [lia|]. specialize (H2 v Hv). lia. }
  destruct l as [|v l]; simpl.
  { split; [done|]. intros [(v & Hv & _) _]. by apply elem_of_nil in Hv. }
  destruct (Hub l (pv_version v)) as [H1 H2]. set (mx := foldr _ _ l) in *.
  assert (exists w, w ∈ v :: l /\ pv_version w = mx) as (w & Hw & Hwm).
  { destruct (Hex l (pv_version v)) as [(w & Hw & He)|He]; [exists w; by split; [right|]|exists v; by split; [left|]]. }
  assert (forall x, x ∈ v :: l -> (pv_version x <= mx)%Z) as Hall.
  { intros x [->|Hx]%elem_of_cons; [done|by apply H2]. }
  split.
  - intros [= <-]. eauto.
  - intros [(x & Hx & Hxm) Hle]. f_equal. specialize (Hall x Hx). specialize (Hle w Hw). lia.
Qed.

(** The number the next version gets. *)
Lemma next_version d pid n : numbered d pid n -> (0 <= n)%Z ->
  (default 0 (max_version (versions_of pid d)) + 1 = n + 1)%Z.
Proof.
  intros [Hn _] Hpos. destruct (max_version (versions_of pid d)) as [m|] eqn:Hm; simpl.
  - apply max_version_Some in Hm as [(v & Hv & Hvm) Hle]. apply versions_of_elem in Hv as (Hp & i & Hi).
    assert (1 <= m <= n)%Z as Hmn by (apply Hn; eauto).
    destruct (proj2 (Hn n)) as (j & w & Hj & Hw & Hwn); [lia|].
    assert (w ∈ versions_of pid d) as Hin by (apply versions_of_elem; eauto). specialize (Hle w Hin). lia.
  - destruct (decide (n = 0)%Z) as [->|Hnz]; [done|]. destruct (proj2 (Hn n)) as (j & w & Hj & Hw & Hwn); [lia|].
    assert (w ∈ versions_of pid d) as Hin by (apply versions_of_elem; eauto).
    destruct (versions_of pid d); [by apply elem_of_nil in Hin|done].
Qed.

Lemma insertPipelineVersion_Ok now v z d d' : insertPipelineVersion now v z d = Ok (tt, d') ->
  t_pipeline_versions d !! NewPipelineVersion_ID v = None /\ is_Some (t_pipelines d !! NewPipelineVersion_PipelineID v) /\
  d' = set_pipeline_versions (<[NewPipelineVersion_ID v :=
         MkVersionRow (NewPipelineVersion_ID v) (NewPipelineVersion_PipelineID v) z
               (NewPipelineVersion_Graph v) (NewPipelineVersion_RenderedYAML v) (NewPipelineVersion_ConfigHash v)
               (NewPipelineVersion_ValidationStatus v) (NewPipelineVersion_ValidationOutput v)
               (NewPipelineVersion_CreatedBy v) now]>) d.
Proof.
  unfold insertPipelineVersion. destruct (bool_decide_reflect (is_Some (t_pipeline_versions d !! NewPipelineVersion_ID v))) as [|H1]; [done|].
  destruct (bool_decide_reflect (is_Some (t_pipelines d !! NewPipelineVersion_PipelineID v))) as [H2|]; [|done]. cbn [negb orb].
  destruct (_ || _); [done|]. intros [= <-]. split_and!; try done. by apply eq_None_not_Some.
Qed.

(** Adding the next version keeps the numbering of its pipeline, and of others. *)
Lemma numbered_insert d pid n row : numbered d pid n -> (0 <= n)%Z -> t_pipeline_versions d !! pv_id row = None ->
  pv_pipeline_id row = pid -> pv_version row = (n + 1)%Z ->
  numbered (set_pipeline_versions (<[pv_id row := row]>) d) pid (n + 1).
Proof.
  intros [Hn Hu] Hpos Hfresh Hp Hv. split.
  - intros z. simpl. split.
    + intros (i & v & Hi & Hvp & Hz). apply lookup_insert_Some in Hi as [[<- <-]|[_ Hi]]; [lia|].
      assert (1 <= z <= n)%Z by (apply Hn; eauto). lia.
    + intros Hz. destruct (decide (z = n + 1)%Z) as [->|Hne].
      * exists (pv_id row), row. by rewrite lookup_insert_eq.
      * destruct (proj2 (Hn z)) as (i & v & Hi & Hvp & Hz'); [lia|]. exists i, v. split; [|done].
        rewrite lookup_insert_ne; [done|]. intros He. congruence.
  - simpl. assert (forall i v, t_pipeline_versions d !! i = Some v -> pv_pipeline_id v = pid -> pv_version v <> (n + 1)%Z) as Hold.
    { intros i v Hi Hvp Hz. assert (1 <= n + 1 <= n)%Z by (apply Hn; eauto). lia. }
    intros i j v w Hi Hj Hvp Hwp He. apply lookup_insert_Some in Hi as [[<- <-]|[_ Hi]], Hj as [[<- <-]|[_ Hj]].
    + done.
    + exfalso. apply (Hold j w Hj Hwp). congruence.
    + exfalso. apply (Hold i v Hi Hvp). congruence.
    + by eapply Hu.
Qed.

Lemma numbered_other d pid n row : numbered d pid n -> t_pipeline_versions d !! pv_id row = None ->
  pv_pipeline_id row <> pid -> numbered (set_pipeline_versions (<[pv_id row := row]>) d) pid n.
Proof.
  intros [Hn Hu] Hfresh Hp. split; simpl.
  - intros z. rewrite <- Hn. split.
    + intros (i & v & Hi & Hvp & Hz). apply lookup_insert_Some in Hi as [[<- <-]|[_ Hi]]; [done|]. eauto.
    + intros (i & v & Hi & Hvp & Hz). exists i, v. split; [|done]. rewrite lookup_insert_ne; [done|]. congruence.
  - intros i j v w Hi Hj Hvp Hwp He. apply lookup_insert_Some in Hi as [[<- <-]|[_ Hi]]; [done|].
    apply lookup_insert_Some in Hj as [[<- <-]|[_ Hj]]; [done|]. by eapply Hu.
Qed.

Lemma wf_at_weaken lo lo' d : (forall i, lo' i <= lo i)%Z -> wf_at lo d -> wf_at lo' d.
Proof.
  intros Hlo (H1 & H2 & H3). split_and!; try done. intros i r Hi. destruct (H1 i r Hi) as (? & ? & (n & Hn & Hnum) & ?).
  split_and!; try done. exists n. split; [|done]. specialize (Hlo i). lia.
Qed.

(** Other tables do not matter. *)
Lemma wf_at_ext lo d d' : t_pipelines d' = t_pipelines d -> t_pipeline_versions d' = t_pipeline_versions d ->
  t_customers d' = t_customers d -> wf_at lo d -> wf_at lo d'.
Proof.
  intros E1 E2 E3 (H1 & H2 & H3). split_and!; rewrite ?E1, ?E2, ?E3; [|done|done].
  intros i r Hi. destruct (H1 i r Hi) as (? & ? & (n & Hn & Hnum) & ?). split_and!; try done.
  exists n. split; [done|]. unfold numbered in *. by rewrite E2.
Qed.

Lemma wf_insert_version lo d n row : wf_at lo d -> (0 <= n)%Z -> numbered d (pv_pipeline_id row) n ->
  (lo (pv_pipeline_id row) <= n)%Z -> is_Some (t_pipelines d !! pv_pipeline_id row) ->
  t_pipeline_versions d !! pv_id row = None -> pv_version row = (n + 1)%Z ->
  wf_at (fun i => if decide (i = pv_pipeline_id row) then (lo i + 1)%Z else lo i)
    (set_pipeline_versions (<[pv_id row := row]>) d).
Proof.
  intros (H1 & H2 & H3) Hpos Hnum Hlo Hex Hfresh Hv. split_and!; simpl; [| |done].
  - intros i r Hi. destruct (H1 i r Hi) as (Hid & Hc & (m & Hm & Hmnum) & Hact). split_and!; try done.
    + destruct (decide (i = pv_pipeline_id row)) as [->|Hd].
      * exists (n + 1)%Z. split; [lia|]. by apply numbered_insert.
      * exists m. split; [done|]. apply numbered_other; try done.
    + intros vid Hvid. destruct (Hact vid Hvid) as (v & Hvv & ?). exists v. split; [|done].
      rewrite lookup_insert_ne; [done|]. intros He. rewrite He in Hfresh. congruence.
  - intros i v [[<- <-]|[_ Hi]]%lookup_insert_Some; [done|by apply H2].
Qed.

Lemma insert_pipeline_wf now p d d' : pipelines_wf d -> insert_pipeline now p d = Ok (tt, d') ->
  is_Some (t_customers d !! NewPipeline_CustomerID p) ->
  wf_at (fun i => if decide (i = NewPipeline_ID p) then 0%Z else 1%Z) d'
  /\ numbered d' (NewPipeline_ID p) 0 /\ t_pipelines d !! NewPipeline_ID p = None
  /\ t_pipeline_versions d' = t_pipeline_versions d.
Proof.
  intros (H1 & H2 & H3) Hi Hc. unfold insert_pipeline in Hi.
  set (row := MkPipelineRow _ _ _ _ _ _) in Hi.
  assert (pl_id row = NewPipeline_ID p /\ pl_customer_id row = NewPipeline_CustomerID p /\ pl_name row = NewPipeline_Name p
          /\ pl_active_version_id row = None) as (R1 & R2 & R3 & R4) by done. clearbody row.
  destruct (bool_decide_reflect (is_Some (t_pipelines d !! NewPipeline_ID p))) as [|Hnew]; [done|].
  destruct (negb _); [done|]. cbn [orb] in Hi. destruct (name_taken _ _ d) eqn:Hname; [done|]. injection Hi as <-.
  apply eq_None_not_Some in Hnew.
  assert (numbered d (NewPipeline_ID p) 0) as Hnum.
  { assert (forall i v, t_pipeline_versions d !! i = Some v -> pv_pipeline_id v <> NewPipeline_ID p) as Hno.
    { intros i v Hi Hp. destruct (H2 i v Hi) as [_ [? Hs]]. congruence. }
    split; [|intros i j v w Hi _ Hp; by destruct (Hno i v Hi)].
    intros z. split; [|lia]. intros (i & v & Hi & Hp & _). by destruct (Hno i v Hi). }
  split_and!; [|done|done|done]. split_and!; simpl.
  - intros i r [[<- <-]|[Hne Hi]]%lookup_insert_Some.
    + rewrite decide_True by done. split_and!; try done; [by rewrite R2|exists 0%Z; by split|].
      intros vid Hvid. congruence.
    + rewrite decide_False by done. by apply H1.
  - intros i v Hi. destruct (H2 i v Hi) as [? Hs]. split; [done|]. destruct (decide (NewPipeline_ID p = pv_pipeline_id v)) as [->|Hne].
    + by rewrite lookup_insert_eq.
    + by rewrite lookup_insert_ne.
  - assert (forall j q, t_pipelines d !! j = Some q -> pl_customer_id q = NewPipeline_CustomerID p -> pl_name q <> NewPipeline_Name p) as Hno.
    { intros j q Hj Hqc Hqn. unfold name_taken in Hname. rewrite <- not_true_iff_false, existsb_exists in Hname.
      apply Hname. exists (j, q). split; [by apply list_elem_of_In, elem_of_map_to_list|]. simpl. by rewrite !bool_decide_true. }
    intros i j r q [[<- <-]|[_ Hi]]%lookup_insert_Some [[<- <-]|[_ Hj]]%lookup_insert_Some Hcc Hnn; [done| | |by eapply H3].
    + by destruct (Hno j q Hj); congruence.
    + by destruct (Hno i r Hi); congruence.
Qed.

Lemma wf_activate d pid v r : pipelines_wf d -> t_pipelines d !! pid = Some r -> t_pipeline_versions d !! pv_id v = Some v ->
  pv_pipeline_id v = pid -> pv_validation_status v = ValidationValid ->
  pipelines_wf (set_pipelines (alter (activate_row (pv_id v)) pid) d).
Proof.
  intros (H1 & H2 & H3) Hr Hv Hp Hs.
  assert (forall i q, alter (activate_row (pv_id v)) pid (t_pipelines d) !! i = Some q -> exists q0, t_pipelines d !! i = Some q0
    /\ pl_id q = pl_id q0 /\ pl_customer_id q = pl_customer_id q0 /\ pl_name q = pl_name q0
    /\ (q = q0 \/ i = pid /\ pl_active_version_id q = Some (pv_id v))) as Hold.
  { intros i q. destruct (decide (pid = i)) as [<-|Hne].
    - rewrite lookup_alter_eq, Hr. simpl. intros [= <-]. exists r. split_and!; try done. by right.
    - rewrite lookup_alter_ne by done. intros Hi. exists q. split_and!; try done. by left. }
  split_and!; simpl.
  - intros i q (q0 & Hi & E1 & E2 & E3 & Hq)%Hold. destruct (H1 i q0 Hi) as (? & ? & ? & Hact).
    rewrite E1, E2. split_and!; try done. destruct Hq as [->|[-> Hq]]; [done|]. intros vid Hvid. rewrite Hq in Hvid.
    injection Hvid as <-. eauto.
  - intros i w Hi. destruct (H2 i w Hi) as [? [q Hq]]. split; [done|]. destruct (decide (pid = pv_pipeline_id w)) as [He|Hne].
    + rewrite <- He, lookup_alter_eq, Hr. eauto.
    + rewrite lookup_alter_ne by done. eauto.
  - intros i j q w (q0 & Hi & _ & E2 & E3 & _)%Hold (w0 & Hj & _ & F2 & F3 & _)%Hold Hc Hn.
    apply (H3 i j q0 w0 Hi Hj); congruence.
Qed.

Lemma find_version_Some pid z d v : find_version pid z d = Some v ->
  pv_pipeline_id v = pid /\ pv_version v = z /\ exists i, t_pipeline_versions d !! i = Some v.
Proof.
  unfold find_version. intros Hh. apply head_Some_elem_of in Hh. apply rows_elem in Hh as [Hp Hi].
  apply andb_prop in Hp as [H1%bool_decide_eq_true H2%Z.eqb_eq]. done.
Qed.

Lemma pg_GetPipelineVersion_Ok pid z d ver : pipelines_wf d -> pg_GetPipelineVersion pid z d = Ok ver ->
  exists v, t_pipeline_versions d !! pv_id v = Some v /\ pv_pipeline_id v = pid /\ pv_version v = z
    /\ select_version d v = Some ver /\ is_Some (t_pipelines d !! pid).
Proof.
  intros (_ & H2 & _). unfold pg_GetPipelineVersion. destruct (find_version pid z d) as [v|] eqn:Hf; [|done]. simpl.
  destruct (select_version d v) as [w|] eqn:Hs; [|done]. intros [= ->].
  apply find_version_Some in Hf as (Hp & Hz & i & Hi). destruct (H2 i v Hi) as [Hid Hex].
  exists v. rewrite Hid, Hp in *. done.
Qed.

Lemma wf_delete d pid entries : pipelines_wf d ->
  pipelines_wf (set_audit (fun l => audit_write l entries)
    (set_pipeline_versions (filter (fun p => pv_pipeline_id p.2 <> pid)) (set_pipelines (delete pid) d))).
Proof.
  intros (H1 & H2 & H3).
  assert (forall i v, filter (fun p : N * version_row => pv_pipeline_id p.2 <> pid) (t_pipeline_versions d) !! i = Some v <->
    t_pipeline_versions d !! i = Some v /\ pv_pipeline_id v <> pid) as Hf by (intros; by rewrite map_lookup_filter_Some).
  split_and!; simpl.
  - intros i r [Hne Hi]%lookup_delete_Some. destruct (H1 i r Hi) as (? & ? & (n & Hn & Hz & Hu) & Hact). split_and!; try done.
    + exists n. split; [done|]. split; simpl.
      * intros z. rewrite <- Hz. split.
        -- intros (j & v & [Hj _]%Hf & ?). eauto.
        -- intros (j & v & Hj & Hp & ?). exists j, v. rewrite Hf. split_and!; try done. by rewrite Hp.
      * intros j k v w [Hj _]%Hf [Hk _]%Hf. by apply Hu.
    + intros vid Hvid. destruct (Hact vid Hvid) as (v & Hv & Hp & ?). exists v. rewrite Hf. split_and!; try done. by rewrite Hp.
  - intros i v [Hi Hp]%Hf. destruct (H2 i v Hi) as [? Hex]. split; [done|]. by rewrite lookup_delete_ne.
  - intros i j r q [_ Hi]%lookup_delete_Some [_ Hj]%lookup_delete_Some. by apply H3.
Qed.

(** What a successful CreatePipelineVersion did. *)
Lemma create_version_core now v entries d ver d' : pipelines_wf d ->
  pg_CreatePipelineVersion now v entries d = (Ok ver, d') ->
  exists n row, numbered d (NewPipelineVersion_PipelineID v) n /\ (1 <= n)%Z /\ pv_version row = (n + 1)%Z
    /\ pv_id row = NewPipelineVersion_ID v /\ pv_pipeline_id row = NewPipelineVersion_PipelineID v
    /\ pv_graph row = NewPipelineVersion_Graph v /\ t_pipeline_versions d !! NewPipelineVersion_ID v = None
    /\ t_pipelines d' = t_pipelines d /\ t_customers d' = t_customers d
    /\ t_pipeline_versions d' = <[NewPipelineVersion_ID v := row]> (t_pipeline_versions d)
    /\ select_version d' row = Some ver /\ is_Some (t_pipelines d !! NewPipelineVersion_PipelineID v)
    /\ pv_rendered_yaml row = NewPipelineVersion_RenderedYAML v /\ pv_config_hash row = NewPipelineVersion_ConfigHash v.
Proof.
  intros Hwf Hc. unfold pg_CreatePipelineVersion in Hc. apply inTx_Ok in Hc. tx_split Hc.
  apply tx_read_Ok in Hs as [Hex ->]. unfold tx_get in Hs0. injection Hs0 as <- <-.
  destruct a1. apply insertPipelineVersion_Ok in Hs1 as (Hfresh & Hp & ->). unfold audit_Write, tx_exec in Hs2.
  injection Hs2 as _ <-. unfold read_version in Hc. apply tx_read_Ok in Hc as [Hread ->].
  destruct Hp as [r Hr]. pose proof Hwf as (H1 & _ & _).
  destruct (H1 _ r Hr) as (_ & _ & (n & Hn & Hnum) & _). rewrite (next_version d _ n Hnum) in * by lia.
  match type of Hread with context [<[_ := ?row]>] => exists n, row end. do 9 (split; [done|]). split; [reflexivity|].
  split; [|done]. simpl in Hread. rewrite lookup_insert_eq in Hread. simpl in Hread. unfold select_version in Hread |- *. simpl in Hread |- *.
  destruct (t_pipelines d !! NewPipelineVersion_PipelineID v); [|done]. simpl in *. congruence.
Qed.

(** What a successful ActivatePipelineVersion did. *)
Lemma activate_core pid z entries d pipe ver d' : pipelines_wf d ->
  pg_ActivatePipelineVersion pid z entries d = (Ok (pipe, ver), d') ->
  exists v r, t_pipelines d !! pid = Some r /\ t_pipeline_versions d !! pv_id v = Some v /\ pv_pipeline_id v = pid
    /\ pv_version v = z /\ pv_validation_status v = ValidationValid
    /\ t_pipelines d' = alter (activate_row (pv_id v)) pid (t_pipelines d)
    /\ t_pipeline_versions d' = t_pipeline_versions d /\ t_customers d' = t_customers d
    /\ PipelineVersion_ID ver = pv_id v /\ PipelineVersion_Graph ver = pv_graph v
    /\ Pipeline_ActiveVersionID pipe = Some (pv_id v) /\ Pipeline_ID pipe = pl_id r
    /\ Pipeline_TargetClass pipe = pl_target_class r /\ Pipeline_CustomerID pipe = pl_customer_id r
    /\ Pipeline_Name pipe = pl_name r /\ PipelineVersion_Version ver = pv_version v
    /\ PipelineVersion_ValidationStatus ver = pv_validation_status v /\ PipelineVersion_Active ver = true.
Proof.
  intros Hwf Hc. unfold pg_ActivatePipelineVersion in Hc. apply inTx_Ok in Hc. tx_split Hc.
  apply tx_read_Ok in Hs as [Hg ->]. destruct (pg_GetPipelineVersion_Ok _ _ _ _ Hwf Hg) as (v & Hv & Hp & Hz & Hsel & [r Hr]).
  unfold select_version in Hsel. rewrite Hp, Hr in Hsel. simpl in Hsel. injection Hsel as <-. simpl in *.
  unfold tx_check, tx_ret, tx_fail in Hs0. clear Hg. destruct (bool_decide (pv_validation_status v = ValidationValid)) eqn:Hval; [|discriminate Hs0]. apply bool_decide_eq_true in Hval. injection Hs0 as _ <-. unfold tx_exec in Hs1. injection Hs1 as _ <-.
  unfold audit_Write, tx_exec in Hs2. injection Hs2 as _ <-. apply tx_read_Ok in Hs3 as [Hread ->].
  injection Hc as <- <- <-. simpl in Hread. rewrite lookup_alter_eq, Hr in Hread. simpl in Hread.
  unfold select_pipeline in Hread. simpl in Hread. destruct (t_customers d !! pl_customer_id r); [|done]. simpl in Hread.
  injection Hread as <-. exists v, r. split_and!; done.
Qed.

Lemma create_version_users now v entries d ver d' : pg_CreatePipelineVersion now v entries d = (Ok ver, d') -> t_users d' = t_users d.
Proof.
  intros Hc. unfold pg_CreatePipelineVersion in Hc. apply inTx_Ok in Hc. tx_split Hc.
  apply tx_read_Ok in Hs as [_ ->]. unfold tx_get in Hs0. injection Hs0 as <- <-.
  destruct a1. apply insertPipelineVersion_Ok in Hs1 as (_ & _ & ->). unfold audit_Write, tx_exec in Hs2.
  injection Hs2 as _ <-. unfold read_version in Hc. by apply tx_read_Ok in Hc as [_ ->].
Qed.

Lemma pipelines_wf_CreateVersion now v entries d : pipelines_wf d -> pipelines_wf (pg_CreatePipelineVersion now v entries d).2.
Proof.
  intros Hwf. destruct (pg_CreatePipelineVersion now v entries d) as [[ver|e] d'] eqn:Hc.
  - destruct (create_version_core _ _ _ _ _ _ Hwf Hc) as (n & row & Hnum & Hn & Hz & Hid & Hp & _ & Hfresh & E1 & E2 & E3 & _ & Hex & _).
    eapply (wf_at_ext _ (set_pipeline_versions (<[pv_id row := row]>) d)); simpl; [done|by rewrite E3, Hid|done|].
    eapply wf_at_weaken; [|apply (wf_insert_version _ d n row Hwf)]; rewrite ?Hp, ?Hid; try done; [|lia].
    intros i. destruct (decide _); lia.
  - apply inTx_Err in Hc as ->. done.
Qed.

(** What a successful CreatePipeline did. *)
Lemma create_pipeline_core now p v entries d pipe ver d' :
  pg_CreatePipeline now p v entries d = (Ok (pipe, ver), d') ->
  exists row vrow, t_pipelines d !! NewPipeline_ID p = None /\ t_pipelines d' = <[NewPipeline_ID p := row]> (t_pipelines d)
    /\ pl_customer_id row = NewPipeline_CustomerID p /\ pl_name row = NewPipeline_Name p
    /\ t_pipeline_versions d' = <[NewPipelineVersion_ID v := vrow]> (t_pipeline_versions d)
    /\ pv_graph vrow = NewPipelineVersion_Graph v /\ pv_rendered_yaml vrow = NewPipelineVersion_RenderedYAML v
    /\ t_customers d' = t_customers d /\ PipelineVersion_RenderedYAML ver = pv_rendered_yaml vrow
    /\ PipelineVersion_ConfigHash ver = NewPipelineVersion_ConfigHash v /\ PipelineVersion_Graph ver = pv_graph vrow.
Proof.
  intros Hc. unfold pg_CreatePipeline in Hc. apply inTx_Ok in Hc. tx_split Hc. unfold live_customer in Hs.
  apply tx_read_Ok in Hs as [_ ->]. destruct a0, a1. unfold insert_pipeline in Hs0.
  destruct (bool_decide_reflect (is_Some (t_pipelines d !! NewPipeline_ID p))) as [|Hfresh]; [done|]. cbn [orb] in Hs0.
  destruct (negb _); [done|]. destruct (name_taken _ _ _); [done|]. injection Hs0 as <-.
  apply insertPipelineVersion_Ok in Hs1 as (_ & _ & ->). unfold audit_Write, tx_exec in Hs2. injection Hs2 as _ <-.
  unfold read_pipeline in Hs3. unfold read_version in Hs4. apply tx_read_Ok in Hs3 as [_ ->]. apply tx_read_Ok in Hs4 as [Hread ->].
  injection Hc as <- <- <-. simpl in Hread. rewrite lookup_insert_eq in Hread. simpl in Hread. unfold select_version in Hread.
  simpl in Hread. destruct (_ !! NewPipelineVersion_PipelineID v); [|done]. simpl in Hread. injection Hread as <-.
  eexists _, _. split; [by apply eq_None_not_Some|]. split; [reflexivity|]. do 2 (split; [reflexivity|]). split; [reflexivity|]. done.
Qed.

Lemma pipelines_wf_Create now p v entries d : pipelines_wf d -> NewPipelineVersion_PipelineID v = NewPipeline_ID p ->
  pipelines_wf (pg_CreatePipeline now p v entries d).2.
Proof.
  intros Hwf Hpid. apply (inTx_keeps pipelines_wf); [|done]. intros [pipe ver] d' _ Hc. tx_split Hc.
  unfold live_customer in Hs. apply tx_read_Ok in Hs as [Hlive ->]. destruct (t_customers d !! NewPipeline_CustomerID p) as [c|] eqn:Hcu; [|done].
  destruct a0. destruct (insert_pipeline_wf _ _ _ _ Hwf Hs0) as (W1 & Hnum & _ & _); [by rewrite Hcu|].
  destruct a1. apply insertPipelineVersion_Ok in Hs1 as (Hfresh & Hex & ->). unfold audit_Write, tx_exec in Hs2.
  injection Hs2 as _ <-. unfold read_pipeline in Hs3. unfold read_version in Hs4.
  apply tx_read_Ok in Hs3 as [_ ->]. apply tx_read_Ok in Hs4 as [_ ->]. injection Hc as _ _ <-.
  unfold pipelines_wf. match goal with |- wf_at _ (set_audit _ ?x) => apply (wf_at_ext _ x); [reflexivity..|] end.
  match goal with |- wf_at _ (set_pipeline_versions (<[_ := ?r]>) _) => set (row := r) end.
  change (NewPipelineVersion_ID v) with (pv_id row).
  eapply wf_at_weaken; [|apply (wf_insert_version _ d1 0 row W1); [done| |by (rewrite decide_True)| |done|done]];
    [|simpl; by rewrite Hpid|done]. intros i. simpl. rewrite Hpid. destruct (decide (i = NewPipeline_ID p)); lia.
Qed.

(** The answer does not depend on the audit entries. *)
Lemma activate_result pid z entries entries' d :
  (pg_ActivatePipelineVersion pid z entries d).1 = (pg_ActivatePipelineVersion pid z entries' d).1.
Proof.
  unfold pg_ActivatePipelineVersion, inTx, tx_bind, tx_read, tx_check, tx_exec, audit_Write, tx_exec, tx_ret, tx_fail.
  destruct (pg_GetPipelineVersion pid z d); [|done]. case_bool_decide; [|done].
  simpl. destruct (alter _ _ _ !! pid); simpl; [|done]. unfold select_pipeline. simpl. by destruct (t_customers d !! _).
Qed.

Lemma pipelines_wf_Activate pid z entries d : pipelines_wf d -> pipelines_wf (pg_ActivatePipelineVersion pid z entries d).2.
Proof.
  intros Hwf. destruct (pg_ActivatePipelineVersion pid z entries d) as [[[pipe ver]|e] d'] eqn:Hc.
  - destruct (activate_core _ _ _ _ _ _ _ Hwf Hc) as (v & r & Hr & Hv & Hp & _ & Hval & E1 & E2 & E3 & _).
    eapply (wf_at_ext _ (set_pipelines (alter (activate_row (pv_id v)) pid) d)); [done..|]. by eapply wf_activate.
  - apply inTx_Err in Hc as ->. done.
Qed.

Lemma delete_core pid entries d d' : pg_DeletePipeline pid entries d = (Ok tt, d') ->
  t_pipelines d' = delete pid (t_pipelines d)
  /\ t_pipeline_versions d' = filter (fun p => pv_pipeline_id p.2 <> pid) (t_pipeline_versions d) /\ t_customers d' = t_customers d.
Proof.
  intros Hc. unfold pg_DeletePipeline in Hc. apply inTx_Ok in Hc. tx_split Hc. apply tx_read_Ok in Hs as [_ ->].
  unfold audit_Write, tx_exec in Hs0, Hs1, Hs2. injection Hs0 as _ <-. injection Hs1 as _ <-.
  injection Hs2 as _ <-. by apply tx_read_Ok in Hc as [_ ->].
Qed.

Lemma pipelines_wf_Delete pid entries d : pipelines_wf d -> pipelines_wf (pg_DeletePipeline pid entries d).2.
Proof.
  intros Hwf. apply (inTx_keeps pipelines_wf); [|done]. intros [] d' _ Hc. tx_split Hc.
  apply tx_read_Ok in Hs as [_ ->]. unfold audit_Write, tx_exec in Hs0, Hs1, Hs2. injection Hs0 as _ <-. injection Hs1 as _ <-.
  injection Hs2 as _ <-. apply tx_read_Ok in Hc as [_ ->]. by apply wf_delete.
Qed.

(** Every operation on pipelines keeps the tables consistent: rows under their
    ids, versions of every pipeline numbered 1 to n without gaps or repeats, the
    active version a valid one of the same pipeline, names unique per
    customer. *)
Theorem pipelines_invariant d : pipelines_wf d ->
  (forall now p v entries, NewPipelineVersion_PipelineID v = NewPipeline_ID p ->
     pipelines_wf (pg_CreatePipeline now p v entries d).2) /\
  (forall now v entries, pipelines_wf (pg_CreatePipelineVersion now v entries d).2) /\
  (forall pid z entries, pipelines_wf (pg_ActivatePipelineVersion pid z entries d).2) /\
  (forall pid entries, pipelines_wf (pg_DeletePipeline pid entries d).2).
Proof.
  intros Hwf. split_and!.
  - intros now p v entries Hpid. by apply pipelines_wf_Create.
  - intros now v entries. by apply pipelines_wf_CreateVersion.
  - intros pid z entries. by apply pipelines_wf_Activate.
  - intros pid entries. by apply pipelines_wf_Delete.
Qed.

(** On consistent tables a version is found by its number. *)
Lemma find_version_iff pid z d v : pipelines_wf d ->
  find_version pid z d = Some v <-> t_pipeline_versions d !! pv_id v = Some v /\ pv_pipeline_id v = pid /\ pv_version v = z.
Proof.
  intros (H1 & H2 & _). split.
  - intros (Hp & Hz & i & Hi)%find_version_Some. by rewrite (proj1 (H2 i v Hi)).
  - intros (Hv & Hp & Hz). destruct (find_version pid z d) as [w|] eqn:Hf.
    + apply find_version_Some in Hf as (Hwp & Hwz & i & Hi). destruct (H2 _ _ Hv) as [_ [r Hr]]. rewrite Hp in Hr.
      destruct (H1 pid r Hr) as (_ & _ & (n & _ & _ & Hu) & _).
      assert (i = pv_id v) as -> by (by apply (Hu i (pv_id v) w v); rewrite ?Hwz, ?Hz). congruence.
    + assert (v ∈ rows (t_pipeline_versions d) (fun v => bool_decide (pv_pipeline_id v = pid) && (pv_version v =? z)%Z)) as Hin.
      { apply rows_elem. split; [|eauto]. apply andb_true_intro. by rewrite bool_decide_eq_true, Z.eqb_eq. }
      unfold find_version in Hf. destruct (rows _ _); [by apply elem_of_nil in Hin|done].
Qed.

Lemma active_of_id d r a : active_of d r = Some a -> ActivePipeline_PipelineID a = pl_id r.
Proof.
  unfold active_of. destruct (t_customers d !! _); [|done]. destruct (pl_active_version_id r); [|done]. simpl.
  destruct (t_pipeline_versions d !! _); [|done]. simpl. case_decide; [|done]. by intros [= <-].
Qed.

(** An entry of the renderer's input, from the rows. *)
Lemma ListActivePipelines_elem tc c d a : a ∈ pg_ListActivePipelines tc c d <->
  exists i r, t_pipelines d !! i = Some r /\ pl_target_class r = tc /\ (forall id, c = Some id -> pl_customer_id r = id)
    /\ active_of d r = Some a.
Proof.
  unfold pg_ListActivePipelines. rewrite sort_by_perm, list_elem_of_omap. split.
  - intros (r & Hr & Ha). apply rows_elem in Hr as [Hp [i Hi]]. apply andb_prop in Hp as [Ht%bool_decide_eq_true Hc].
    exists i, r. split_and!; try done. intros id ->. by apply bool_decide_eq_true in Hc.
  - intros (i & r & Hi & Ht & Hc & Ha). exists r. split; [|done]. apply rows_elem. split; [|eauto].
    apply andb_true_intro. split; [by apply bool_decide_eq_true|]. destruct c; [|done]. by apply bool_decide_eq_true, Hc.
Qed.

Lemma omap_ext_in {A B} (f g : A -> option B) (l : list A) : (forall x, x ∈ l -> f x = g x) -> omap f l = omap g l.
Proof.
  induction l as [|x l IH]; intros He; [done|]. assert (omap f l = omap g l) as E by (apply IH; intros y Hy; apply He; by right).
  unfold omap in E |- *. simpl. rewrite (He x) by left. by rewrite E.
Qed.

(** Saving a version appends it to the history and changes nothing that is
    live: the new version gets the next number after the latest one and can be
    read back under it with the graph that was saved, every version that could
    be read before reads back the same, and the renderer's inputs (of any
    target class and customer) are what they were until the version is
    activated. *)
Theorem saved_version_appends now v entries d ver d' : pipelines_wf d ->
  pg_CreatePipelineVersion now v entries d = (Ok ver, d') ->
  let pid := NewPipelineVersion_PipelineID v in
  (exists n, numbered d pid n /\ PipelineVersion_Version ver = (n + 1)%Z) /\
  PipelineVersion_Graph ver = NewPipelineVersion_Graph v /\
  pg_GetPipelineVersion pid (PipelineVersion_Version ver) d' = Ok ver /\
  (forall p z w, pg_GetPipelineVersion p z d = Ok w -> pg_GetPipelineVersion p z d' = Ok w) /\
  (forall tc c, pg_ListActivePipelines tc c d' = pg_ListActivePipelines tc c d).
Proof.
  intros Hwf Hc pid. pose proof (pipelines_wf_CreateVersion now v entries d Hwf) as Hwf'. rewrite Hc in Hwf'. simpl in Hwf'.
  pose proof (create_version_users _ _ _ _ _ _ Hc) as Hu.
  destruct (create_version_core _ _ _ _ _ _ Hwf Hc) as (n & row & Hnum & Hn & Hz & Hid & Hp & Hg & Hfresh & E1 & E2 & E3 & Hsel & Hex & _).
  assert (PipelineVersion_Version ver = pv_version row /\ PipelineVersion_Graph ver = pv_graph row) as [Ev Eg].
  { unfold select_version in Hsel. destruct (t_pipelines d' !! _); [|done]. simpl in Hsel. injection Hsel as <-. done. }
  split; [exists n; by rewrite Ev|]. split; [by rewrite Eg|]. split; [|split].
  - unfold pg_GetPipelineVersion. rewrite (proj2 (find_version_iff pid _ d' row Hwf')); [by simpl; rewrite Hsel|].
    rewrite E3, Hid, lookup_insert_eq. done.
  - intros p z w Hw. destruct (pg_GetPipelineVersion_Ok _ _ _ _ Hwf Hw) as (x & Hx & Hxp & Hxz & Hxs & _).
    unfold pg_GetPipelineVersion. rewrite (proj2 (find_version_iff p z d' x Hwf')).
    + simpl. unfold select_version in *. rewrite E1, Hu. by rewrite Hxs.
    + rewrite E3, lookup_insert_ne; [done|]. intros He. congruence.
  - intros tc c. unfold pg_ListActivePipelines. rewrite E1. f_equal. apply omap_ext_in. intros r Hr.
    apply rows_elem in Hr as [_ [i Hi]]. unfold active_of. rewrite E2, E3. destruct (t_customers d !! _); [|done]. simpl.
    destruct (pl_active_version_id r) as [vid|] eqn:Hact; [|done]. simpl. rewrite lookup_insert_ne; [done|].
    intros He. destruct Hwf as (H1 & _). destruct (H1 i r Hi) as (_ & _ & _ & Ha). destruct (Ha vid Hact) as (? & ? & _). congruence.
Qed.

(** The renderer's inputs after an activation. *)
Lemma activation_inputs pid z entries d pipe ver d' : pipelines_wf d ->
  pg_ActivatePipelineVersion pid z entries d = (Ok (pipe, ver), d') ->
  forall tc c a, a ∈ pg_ListActivePipelines tc c d' <->
     (a ∈ pg_ListActivePipelines tc c d /\ ActivePipeline_PipelineID a <> pid) \/
     (exists cu, t_customers d !! Pipeline_CustomerID pipe = Some cu /\ Customer_Status cu = CustomerActive /\
        Pipeline_TargetClass pipe = tc /\ (forall id, c = Some id -> Pipeline_CustomerID pipe = id) /\
        a = MkActivePipeline pid (Pipeline_Name pipe) (Pipeline_CustomerID pipe) (Customer_Slug cu) (Customer_ClientID cu)
              (PipelineVersion_Graph ver)).
Proof.
  intros Hwf Hc. destruct (activate_core _ _ _ _ _ _ _ Hwf Hc) as
    (v & r & Hr & Hv & Hp & Hz & Hval & E1 & E2 & E3 & Ei & Eg & Ea & _ & Et & Ec & En & _). intros tc c a.
  pose proof Hwf as (H1 & _). destruct (H1 pid r Hr) as (Hid & _).
  rewrite !ListActivePipelines_elem, Et, Ec, En, Eg, E1. split.
  - intros (i & q & Hi & Ht & Hcu & Hact). apply lookup_alter_Some in Hi as [(<- & q0 & Hq0 & ->)|[Hne Hi]].
    + right. assert (q0 = r) as -> by congruence. unfold active_of in Hact. rewrite E2, E3 in Hact. simpl in *.
      destruct (t_customers d !! pl_customer_id r) as [cu|] eqn:Hcust; [|done]. simpl in Hact. rewrite Hv in Hact. simpl in Hact.
      case_decide as Hst; [|done]. injection Hact as <-. exists cu. by rewrite Hid.
    + left. assert (active_of d q = Some a) as Hqa by (rewrite <- Hact; unfold active_of; by rewrite E2, E3).
      split; [by exists i, q|]. destruct (H1 i q Hi) as [Hqi _]. by rewrite (active_of_id _ _ _ Hqa), Hqi.
  - intros [[(i & q & Hi & Ht & Hcu & Hact) Hne]|(cu & Hcust & Hst & Ht & Hcu & ->)].
    + exists i, q. rewrite lookup_alter_ne.
      * split_and!; try done. unfold active_of in *. by rewrite E2, E3.
      * intros <-. destruct (H1 pid q Hi) as [Hqi _]. by rewrite (active_of_id _ _ _ Hact), Hqi in Hne.
    + exists pid, (activate_row (pv_id v) r). rewrite lookup_alter_eq, Hr. split_and!; try done.
      unfold active_of. rewrite E2, E3. simpl. rewrite Hcust. simpl. rewrite Hv. simpl. by rewrite decide_True, Hid by done.
Qed.

(** Activation points the pipeline at exactly the requested version, which
    must exist and be valid, and the renderer's inputs change for that pipeline
    only: afterwards they are the inputs of the other pipelines as they were,
    and, when the customer is active, this pipeline with the graph of the
    version now active.  The version history is untouched, so rolling back is
    activating an older number. *)
Theorem activation_outcome pid z entries d pipe ver d' : pipelines_wf d ->
  pg_ActivatePipelineVersion pid z entries d = (Ok (pipe, ver), d') ->
  PipelineVersion_Version ver = z /\ PipelineVersion_ValidationStatus ver = ValidationValid /\
  PipelineVersion_Active ver = true /\ Pipeline_ActiveVersionID pipe = Some (PipelineVersion_ID ver) /\
  t_pipeline_versions d' = t_pipeline_versions d /\
  (forall tc c a, a ∈ pg_ListActivePipelines tc c d' <->
     (a ∈ pg_ListActivePipelines tc c d /\ ActivePipeline_PipelineID a <> pid) \/
     (exists cu, t_customers d !! Pipeline_CustomerID pipe = Some cu /\ Customer_Status cu = CustomerActive /\
        Pipeline_TargetClass pipe = tc /\ (forall id, c = Some id -> Pipeline_CustomerID pipe = id) /\
        a = MkActivePipeline pid (Pipeline_Name pipe) (Pipeline_CustomerID pipe) (Customer_Slug cu) (Customer_ClientID cu)
              (PipelineVersion_Graph ver))).
Proof.
  intros Hwf Hc. pose proof (activation_inputs _ _ _ _ _ _ _ Hwf Hc) as Hin. destruct (activate_core _ _ _ _ _ _ _ Hwf Hc) as
    (v & r & _ & _ & _ & Hz & Hval & _ & E2 & _ & Ei & _ & Ea & _ & _ & _ & _ & Ez & Es & Eact).
  rewrite Ea, Ei, Ez, Es. split_and!; done.
Qed.

(** ** A pipeline with two versions *)

Definition ex_tenant : Customer := MkCustomer 1%N "acme" "Acme" "cust_1" CustomerActive "eu" None None 0 0.
Definition ex_nv (id : N) (g : string) : NewPipelineVersion :=
  MkNewPipelineVersion id 10%N (JStr g) "yaml" "hash" ValidationValid None None.
Definition ex_pipes0 : DB := set_customers (fun _ => {[ 1%N := ex_tenant ]}) empty_db.
Definition ex_pipes1 : DB := (pg_CreatePipeline 1 (MkNewPipeline 10 1 "logs" "") (ex_nv 20 "g1") [] ex_pipes0).2.
Definition ex_pipes2 : DB := (pg_CreatePipelineVersion 2 (ex_nv 21 "g2") [] ex_pipes1).2.
Definition ex_pipes3 : DB := (pg_ActivatePipelineVersion 10 1 [] ex_pipes2).2.

Lemma pipelines_wf_no_rows d : t_pipelines d = ∅ -> t_pipeline_versions d = ∅ -> pipelines_wf d.
Proof. intros E1 E2. split_and!; rewrite ?E1, ?E2; intros; by rewrite lookup_empty in *. Qed.

Lemma ex_pipes0_wf : pipelines_wf ex_pipes0.
Proof. by apply pipelines_wf_no_rows. Qed.

Lemma ex_pipes1_wf : pipelines_wf ex_pipes1.
Proof. apply pipelines_wf_Create; [apply ex_pipes0_wf|done]. Qed.

Lemma ex_pipes2_wf : pipelines_wf ex_pipes2.
Proof. apply pipelines_wf_CreateVersion, ex_pipes1_wf. Qed.

Lemma pipelines_invariant_witness : pipelines_wf ex_pipes3.
Proof. exact (proj1 (proj2 (proj2 (pipelines_invariant ex_pipes2 ex_pipes2_wf))) 10%N 1%Z []). Defined.

Lemma saved_version_appends_witness : exists ver,
  pg_GetPipelineVersion 10 2 ex_pipes2 = Ok ver /\ PipelineVersion_Graph ver = JStr "g2"
  /\ (forall tc c, pg_ListActivePipelines tc c ex_pipes2 = pg_ListActivePipelines tc c ex_pipes1).
Proof.
  destruct (pg_CreatePipelineVersion 2 (ex_nv 21 "g2") [] ex_pipes1) as [[ver|e] d'] eqn:Hc; [|by vm_compute in Hc].
  destruct (saved_version_appends _ _ _ _ _ _ ex_pipes1_wf Hc) as (_ & Hg & Hr & _ & Ha).
  assert (d' = ex_pipes2) as <- by (unfold ex_pipes2; by rewrite Hc).
  assert (PipelineVersion_Version ver = 2%Z) as E by (vm_compute in Hc; by injection Hc as <- _).
  exists ver. rewrite E in Hr. done.
Defined.

Lemma activation_outcome_witness : exists a, a ∈ pg_ListActivePipelines ClassForwarding None ex_pipes3
  /\ ActivePipeline_Graph a = JStr "g1".
Proof.
  destruct (pg_ActivatePipelineVersion 10 1 [] ex_pipes2) as [[[pipe ver]|e] d'] eqn:Hc; [|by vm_compute in Hc].
  destruct (activation_outcome _ _ _ _ _ _ _ ex_pipes2_wf Hc) as (_ & _ & _ & _ & _ & Ha).
  assert (d' = ex_pipes3) as <- by (unfold ex_pipes3; by rewrite Hc).
  vm_compute in Hc. injection Hc as <- <- _.
  eexists. split; [apply Ha; right; exists ex_tenant; split_and!; done|done].
Defined.
