(* ===== verification/PipelineService.v ===== *)
(** The pipeline service (internal/pipelines/service.go, distributor.go): saving
    versions, activating them, and handing the rendered configs to the
    forwarding tier and to the OpAMP tier. *)
From S2P Require Import Prelude GoStrings Json StoreTypes Slug Tokens PgCore PgFleet PgPipelines Catalog PipelineGraph Crypto Secrets.
From S2P Require Import Render Validate RenderSpec.
From Stdlib Require Import Ascii.

Open Scope string_scope.

Inductive svc_err : Type :=
| ErrInvalidName
| ErrSlugTaken
| ErrStore (e : store_err)
| ErrParseGraph
| ErrSecret (e : secret_err)
| ErrRender (e : render_err)
| ErrNotify (text : string)
| ErrDistribute (text : string)
(** the version is active, but the config was not handed over *)
| ErrNotRolledOut (version : Z) (e : svc_err).

(** ** Distribution *)

Definition StateApplied : string := "applied".
Definition StatePendingRestart : string := "pending_restart".

(** What Distribute does to a distributor's state, and (state, detail). *)
Class Distributor (D : Type) := {
  Distribute : string -> D -> result (string * string) string * D
}.

Record PublishDistributor : Type := MkPublishDistributor { current : string }.

#[export] Instance publish_distributor : Distributor PublishDistributor := {
  Distribute renderedFullConfig _ :=
    (Ok (StatePendingRestart, "restart the forwarding collector to apply (docker compose restart forwarding)"),
     MkPublishDistributor renderedFullConfig)
}.

(** What the outside world supplies to a call: the clock, fresh ids, and the
    nonces drawn. *)
Record save_env : Type := MkSaveEnv {
  se_now : Z;
  se_pipeline_id : N;
  se_version_id : N;
  se_nonces : nat -> option string
}.

Section service.
Context {AE : Aead} {CO : Collector} {YM : Yaml} {SH : Sha256}.
Context (unicode_lower : Z -> Z) (uuid_string : N -> string) (no_key_message : string).
Context (cipher : option Cipher).

(** ** Rendering from the database *)

Definition toRender (ap : ActivePipeline) : result RenderPipeline svc_err :=
  match ParseGraph (ActivePipeline_Graph ap) with
  | None => Err ErrParseGraph
  | Some g =>
      match DecryptGraphSecrets g cipher with
      | Err e => Err (ErrSecret e)
      | Ok g => Ok (MkRenderPipeline (ActivePipeline_CustomerSlug ap) (ActivePipeline_ClientID ap)
                      (PipelineSlug unicode_lower (ActivePipeline_PipelineName ap)) g)
      end
  end.

Fixpoint render_inputs (exclude : option N) (aps : list ActivePipeline) : result (list RenderPipeline) svc_err :=
  match aps with
  | [] => Ok []
  | ap :: aps =>
      if bool_decide (exclude = Some (ActivePipeline_PipelineID ap)) then render_inputs exclude aps
      else match toRender ap with
           | Err e => Err e
           | Ok rp => match render_inputs exclude aps with Ok out => Ok (rp :: out) | Err e => Err e end
           end
  end.

Definition activeRenderPipelines (targetClass : string) (customerID exclude : option N) (d : DB)
  : result (list RenderPipeline) svc_err :=
  render_inputs exclude (pg_ListActivePipelines targetClass customerID d).

Definition lift_render {A} (r : result A render_err) : result A svc_err :=
  match r with Ok a => Ok a | Err e => Err (ErrRender e) end.

Definition RenderCurrent (d : DB) : result string svc_err :=
  match activeRenderPipelines ClassForwarding None None d with
  | Err e => Err e
  | Ok inputs => lift_render (RenderForwardingConfig inputs)
  end.

Definition RenderEdgeCurrent (customerID : N) (d : DB) : result string svc_err :=
  match activeRenderPipelines ClassEdge (Some customerID) None d with
  | Err e => Err e
  | Ok inputs => lift_render (RenderEdgeConfig inputs)
  end.

Definition ValidateDraft (targetClass : string) (g : Graph) (d : DB) : Result :=
  let candidate := MkRenderPipeline "draft-validation" "cust_draft_validation" "draft" g in
  let others :=
    if decide (targetClass = ClassEdge) then []
    else match activeRenderPipelines ClassForwarding None None d with Ok others => others | Err _ => [] end in
  Validate targetClass candidate others.

(** ** Saving versions *)

Definition newline : string := String "010"%char "".

(** The payload to insert (its pipeline is set by the caller) when the graph is
    valid, and the validation result. *)
Definition prepare (e : save_env) (cust : Customer) (name targetClass : string) (excludePipeline : option N)
    (g : Graph) (prev : option Graph) (actor : option N) (d : DB)
  : result (option (N -> NewPipelineVersion) * Result) svc_err :=
  match EncryptGraphSecrets no_key_message g cipher (se_nonces e) prev with
  | Err err => Err (ErrSecret err)
  | Ok (inr secretIssues) => Ok (None, MkResult false secretIssues None)
  | Ok (inl stored) =>
    match DecryptGraphSecrets stored cipher with
    | Err err => Err (ErrSecret err)
    | Ok plain =>
      let slug := PipelineSlug unicode_lower name in
      let candidate := MkRenderPipeline (Customer_Slug cust) (Customer_ClientID cust) slug plain in
      let customerScope := if decide (targetClass = ClassEdge) then Some (Customer_ID cust) else None in
      match activeRenderPipelines targetClass customerScope excludePipeline d with
      | Err err => Err err
      | Ok others =>
        let res := Validate targetClass candidate others in
        if negb (res_Valid res) then Ok (None, res)
        else
          let redactedCandidate := MkRenderPipeline (Customer_Slug cust) (Customer_ClientID cust) slug (RedactGraphSecrets stored) in
          match render_fragment targetClass redactedCandidate with
          | Err err => Err (ErrRender err)
          | Ok fragment =>
            let output := match res_Issues res with
                          | [] => None
                          | issues => Some (join newline (issue_Message <$> issues))
                          end in
            Ok (Some (fun pipelineID => MkNewPipelineVersion (se_version_id e) pipelineID (MarshalGraph stored) fragment
                        (sha256 fragment) ValidationValid output actor),
                MkResult (res_Valid res) (res_Issues res) (Some fragment))
          end
      end
    end
  end.

(** Distinct names can derive the same slug. *)
Fixpoint slug_conflict (name slug : string) (existing : list Pipeline) : option svc_err :=
  match existing with
  | [] => None
  | p :: existing =>
      if decide (PipelineSlug unicode_lower (Pipeline_Name p) = slug)
      then Some (if decide (Pipeline_Name p = name) then ErrStore ErrNameExists else ErrSlugTaken)
      else slug_conflict name slug existing
  end.

(** What Create is about to insert. *)
Record pending_create : Type := MkPendingCreate {
  pc_pipeline : NewPipeline;
  pc_version : NewPipelineVersion;
  pc_entries : list AuditEntry
}.

(** The reads and checks of Create. *)
Definition create_checks (e : save_env) (actor : option N) (customerID : N) (name targetClass : string) (g : Graph) (d : DB)
  : result (option pending_create * Result) svc_err :=
  let name := trim_space name in
  if bool_decide (name = "") || (200 <? len name)%Z || bool_decide (PipelineSlug unicode_lower name = "")
  then Err ErrInvalidName
  else
    let targetClass := if decide (targetClass = "") then ClassForwarding else targetClass in
    match pg_GetCustomer customerID d with
    | Err err => Err (ErrStore err)
    | Ok cust =>
      if decide (Customer_Status cust = CustomerDeleted) then Err (ErrStore ErrNotFound)
      else
        let slug := PipelineSlug unicode_lower name in
        match slug_conflict name slug (pg_ListPipelines (Some customerID) d) with
        | Some err => Err err
        | None =>
          match prepare e cust name targetClass None g None actor d with
          | Err err => Err err
          | Ok (None, res) => Ok (None, res)
          | Ok (Some nv, res) =>
              let pipelineID := se_pipeline_id e in
              Ok (Some (MkPendingCreate (MkNewPipeline pipelineID customerID name targetClass) (nv pipelineID)
                    [MkAuditEntry actor "" "pipeline.create" "pipeline" (uuid_string pipelineID) (Some customerID)
                       (Some (JObj [("name", JStr name); ("slug", JStr slug); ("target_class", JStr targetClass)]));
                     MkAuditEntry actor "" "pipeline_version.create" "pipeline_version" (uuid_string (se_version_id e))
                       (Some customerID) (Some (JObj [("pipeline", JStr (uuid_string pipelineID)); ("version", JInt 1)]))]),
                  res)
          end
        end
    end.

(** Its transaction. *)
Definition create_commit (e : save_env) (pc : pending_create) (d : DB) : result (Pipeline * PipelineVersion) svc_err * DB :=
  match pg_CreatePipeline (se_now e) (pc_pipeline pc) (pc_version pc) (pc_entries pc) d with
  | (Ok created, d) => (Ok created, d)
  | (Err err, d) => (Err (ErrStore err), d)
  end.

Definition Create (e : save_env) (actor : option N) (customerID : N) (name targetClass : string) (g : Graph) (d : DB)
  : result (option (Pipeline * PipelineVersion) * Result) svc_err * DB :=
  match create_checks e actor customerID name targetClass g d with
  | Err err => (Err err, d)
  | Ok (None, res) => (Ok (None, res), d)
  | Ok (Some pc, res) =>
      match create_commit e pc d with
      | (Ok created, d) => (Ok (Some created, res), d)
      | (Err err, d) => (Err err, d)
      end
  end.

(** The latest stored graph, against which sentinels resolve. *)
Definition latest_graph (pipelineID : N) (pipe : Pipeline) (d : DB) : result (option Graph) svc_err :=
  match Pipeline_LatestVersion pipe with
  | None => Ok None
  | Some version =>
      match pg_GetPipelineVersion pipelineID version d with
      | Err err => Err (ErrStore err)
      | Ok prevVer => match ParseGraph (PipelineVersion_Graph prevVer) with Some g => Ok (Some g) | None => Err ErrParseGraph end
      end
  end.

Definition CreateVersion (e : save_env) (actor : option N) (pipelineID : N) (g : Graph) (d : DB)
  : result (option PipelineVersion * Result) svc_err * DB :=
  match pg_GetPipeline pipelineID d with
  | Err err => (Err (ErrStore err), d)
  | Ok pipe =>
    match latest_graph pipelineID pipe d with
    | Err err => (Err err, d)
    | Ok prev =>
      let cust := MkCustomer (Pipeline_CustomerID pipe) (Pipeline_CustomerSlug pipe) "" (Pipeline_ClientID pipe) CustomerActive
                    "" None None 0 0 in
      match prepare e cust (Pipeline_Name pipe) (Pipeline_TargetClass pipe) (Some pipelineID) g prev actor d with
      | Err err => (Err err, d)
      | Ok (None, res) => (Ok (None, res), d)
      | Ok (Some nv, res) =>
          match pg_CreatePipelineVersion (se_now e) (nv pipelineID)
                  [MkAuditEntry actor "" "pipeline_version.create" "pipeline_version" (uuid_string (se_version_id e))
                     (Some (Pipeline_CustomerID pipe)) (Some (JObj [("pipeline", JStr (uuid_string pipelineID))]))] d with
          | (Err err, d) => (Err (ErrStore err), d)
          | (Ok ver, d) => (Ok (Some ver, res), d)
          end
      end
    end
  end.

(** ** Rollout *)

(** The rest of the service's surroundings: the database, the distributor, and
    the customers announced on the edge-config channel. *)
Section rollout.
Context {D : Type} {DI : Distributor D}.
(** the attached EdgeNotifier, if any, and what it answers *)
Context (edge : option (N -> result unit string)).

Record world : Type := MkWorld {
  w_db : DB;
  w_dist : D;
  w_announced : list N
}.

Definition with_db (d : DB) (w : world) : world := MkWorld d (w_dist w) (w_announced w).

Definition distribute (w : world) : result (string * string) svc_err * world :=
  match RenderCurrent (w_db w) with
  | Err e => (Err e, w)
  | Ok full =>
      match Distribute full (w_dist w) with
      | (Ok sd, dist) => (Ok sd, MkWorld (w_db w) dist (w_announced w))
      | (Err text, dist) => (Err (ErrDistribute text), MkWorld (w_db w) dist (w_announced w))
      end
  end.

Definition countEdgeAgents (customerID : N) (d : DB) : Z * Z :=
  let agents := pg_ListAgents (MkAgentFilter (Some AgentClassEdge) (Some customerID) None) d in
  foldl (fun '(connected, offline) a => if Agent_Connected a then (connected + 1, offline) else (connected, offline + 1))%Z
    (0, 0)%Z agents.

Definition rollout_detail (connected offline : Z) : string :=
  "rollout queued: " +:+ itoa connected +:+ " connected agent(s) update now, " +:+ itoa offline +:+ " offline update on reconnect".

Definition notifyEdge (customerID : N) (w : world) : result (string * string) svc_err * world :=
  let reply w := let '(connected, offline) := countEdgeAgents customerID (w_db w) in
                 (Ok (StateApplied, rollout_detail connected offline), w) in
  match edge with
  | None => reply w
  | Some changed =>
      match changed customerID with
      | Err text => (Err (ErrNotify text), w)
      | Ok _ => reply (MkWorld (w_db w) (w_dist w) (w_announced w ++ [customerID]))
      end
  end.

Definition ResyncEdge : N -> world -> result (string * string) svc_err * world := notifyEdge.

Definition roll_out (pipe : Pipeline) : world -> result (string * string) svc_err * world :=
  if decide (Pipeline_TargetClass pipe = ClassEdge) then notifyEdge (Pipeline_CustomerID pipe) else distribute.

Definition Activate (actor : option N) (pipelineID : N) (version : Z) (w : world)
  : result (Pipeline * string * string) svc_err * world :=
  match pg_ActivatePipelineVersion pipelineID version
          [MkAuditEntry actor "" "pipeline_version.activate" "pipeline" (uuid_string pipelineID) None
             (Some (JObj [("version", JInt version)]))] (w_db w) with
  | (Err e, d) => (Err (ErrStore e), with_db d w)
  | (Ok (pipe, _), d) =>
      match roll_out pipe (with_db d w) with
      | (Ok (state, detail), w) => (Ok (pipe, state, detail), w)
      | (Err e, w) => (Err (ErrNotRolledOut version e), w)
      end
  end.

(** A failed redistribution is logged, not fatal. *)
Definition Delete (actor : option N) (pipelineID : N) (w : world) : result unit svc_err * world :=
  match pg_GetPipeline pipelineID (w_db w) with
  | Err e => (Err (ErrStore e), w)
  | Ok pipe =>
      let wasActive := bool_decide (is_Some (Pipeline_ActiveVersionID pipe)) in
      match pg_DeletePipeline pipelineID
              [MkAuditEntry actor "" "pipeline.delete" "pipeline" (uuid_string pipelineID) (Some (Pipeline_CustomerID pipe))
                 (Some (JObj [("name", JStr (Pipeline_Name pipe))]))] (w_db w) with
      | (Err e, d) => (Err (ErrStore e), with_db d w)
      | (Ok _, d) =>
          let w := with_db d w in
          if wasActive then (Ok tt, (roll_out pipe w).2) else (Ok tt, w)
      end
  end.
End rollout.

(** ** Invariant *)

(** A stored graph can be read, decrypted, and passes the structural checks. *)
Definition renderable (raw : jval) : Prop :=
  exists g plain, ParseGraph raw = Some g /\ DecryptGraphSecrets g cipher = Ok plain /\ graph_ok plain.

Definition tenants_ok (d : DB) : Prop :=
  (forall i c, t_customers d !! i = Some c -> ValidSlug (Customer_Slug c) = true) /\
  (forall i j c c', t_customers d !! i = Some c -> t_customers d !! j = Some c' -> Customer_Slug c = Customer_Slug c' -> i = j).

(** Pipelines of one customer have distinct slugs. *)
Definition slugs_ok (d : DB) : Prop :=
  forall i j r q, t_pipelines d !! i = Some r -> t_pipelines d !! j = Some q -> pl_customer_id r = pl_customer_id q ->
    PipelineSlug unicode_lower (pl_name r) = PipelineSlug unicode_lower (pl_name q) -> i = j.

Definition svc_wf (d : DB) : Prop :=
  pipelines_wf d /\ tenants_ok d /\ slugs_ok d /\
  (forall i v, t_pipeline_versions d !! i = Some v -> renderable (pv_graph v)).

Lemma active_of_Some d r a : active_of d r = Some a ->
  exists c vid v, t_customers d !! pl_customer_id r = Some c /\ t_pipeline_versions d !! vid = Some v
    /\ a = MkActivePipeline (pl_id r) (pl_name r) (pl_customer_id r) (Customer_Slug c) (Customer_ClientID c) (pv_graph v).
Proof using Type.
  unfold active_of. destruct (t_customers d !! _) as [c|]; [|done]. destruct (pl_active_version_id r) as [vid|]; [|done]. simpl.
  destruct (t_pipeline_versions d !! vid) as [v|] eqn:Hv; [|done]. simpl. case_decide; [|done]. intros [= <-]. eauto 10.
Qed.

Lemma NoDup_fmap_by {A B C} (f : A -> B) (h : A -> C) (l : list A) :
  (forall x y, x ∈ l -> y ∈ l -> h x = h y -> f x = f y) -> NoDup (f <$> l) -> NoDup (h <$> l).
Proof using Type.
  induction l as [|x l IH]; intros Hi Hnd; [constructor|]. apply NoDup_cons in Hnd as [Hx Hnd].
  apply NoDup_cons. split.
  - intros (y & He & Hy)%list_elem_of_fmap. apply Hx. apply list_elem_of_fmap. exists y. split; [|done].
    apply Hi; [by left|by right|done].
  - apply IH; [|done]. intros y z Hy Hz. apply Hi; by right.
Qed.

Lemma rows_ids_NoDup d p : pipelines_wf d -> NoDup (pl_id <$> rows (t_pipelines d) p).
Proof using Type.
  intros (H1 & _). unfold rows.
  assert (pl_id <$> (snd <$> map_to_list (t_pipelines d)) = fst <$> map_to_list (t_pipelines d)) as E.
  { rewrite <- list_fmap_compose. apply list_fmap_ext. intros i [k r] Hi. simpl.
    apply list_elem_of_lookup_2, elem_of_map_to_list in Hi. by destruct (H1 k r Hi). }
  assert (NoDup (pl_id <$> (snd <$> map_to_list (t_pipelines d)))) as Hnd by (rewrite E; apply NoDup_fst_map_to_list).
  clear E. induction (snd <$> map_to_list (t_pipelines d)) as [|r l IH]; [constructor|].
  apply NoDup_cons in Hnd as [Hr Hnd]. rewrite filter_cons. case_decide; [|by apply IH].
  apply NoDup_cons. split; [|by apply IH]. intros (q & He & [_ Hq]%list_elem_of_filter)%list_elem_of_fmap.
  apply Hr, list_elem_of_fmap. eauto.
Qed.

Lemma active_ids_NoDup d tc c : pipelines_wf d -> NoDup (ActivePipeline_PipelineID <$> pg_ListActivePipelines tc c d).
Proof using Type.
  intros Hwf. unfold pg_ListActivePipelines. rewrite sort_by_perm.
  pose proof (rows_ids_NoDup d (fun r => bool_decide (pl_target_class r = tc)
     && match c with Some id => bool_decide (pl_customer_id r = id) | None => true end) Hwf) as Hnd.
  induction (rows _ _) as [|r l IH]; [constructor|]. apply NoDup_cons in Hnd as [Hr Hnd]. unfold omap. simpl.
  destruct (active_of d r) as [a|] eqn:Ha; [|by apply IH]. apply NoDup_cons. split; [|by apply IH].
  intros (b & He & (q & Hq & Hqb)%list_elem_of_omap)%list_elem_of_fmap. apply Hr, list_elem_of_fmap. exists q. split; [|done].
  by rewrite <- (active_of_id _ _ _ Ha), <- (active_of_id _ _ _ Hqb).
Qed.

Lemma active_facts d tc c a : svc_wf d -> a ∈ pg_ListActivePipelines tc c d ->
  (exists r cu, t_pipelines d !! ActivePipeline_PipelineID a = Some r /\ t_customers d !! pl_customer_id r = Some cu
     /\ ActivePipeline_PipelineName a = pl_name r /\ ActivePipeline_CustomerSlug a = Customer_Slug cu
     /\ ActivePipeline_CustomerID a = pl_customer_id r)
  /\ renderable (ActivePipeline_Graph a).
Proof using Type.
  intros ((H1 & _) & _ & _ & Hv) (i & r & Hi & _ & _ & (cu & vid & v & Hc & Hvid & ->)%active_of_Some)%ListActivePipelines_elem.
  destruct (H1 i r Hi) as [Hid _]. simpl. split; [|by eapply Hv]. exists r, cu. rewrite Hid. done.
Qed.

Lemma toRender_ok ap : renderable (ActivePipeline_Graph ap) -> exists rp, toRender ap = Ok rp
  /\ rp_CustomerSlug rp = ActivePipeline_CustomerSlug ap /\ rp_ClientID rp = ActivePipeline_ClientID ap
  /\ rp_PipelineSlug rp = PipelineSlug unicode_lower (ActivePipeline_PipelineName ap) /\ graph_ok (rp_Graph rp).
Proof using Type. intros (g & plain & Hp & Hd & Hg). unfold toRender. rewrite Hp, Hd. by eexists. Qed.

Lemma render_inputs_all aps : (forall ap, ap ∈ aps -> renderable (ActivePipeline_Graph ap)) ->
  exists ps, render_inputs None aps = Ok ps /\ Forall2 (fun ap rp => toRender ap = Ok rp) aps ps.
Proof using Type.
  induction aps as [|ap aps IH]; intros Hr; [by exists []|]. cbn [render_inputs].
  destruct (toRender_ok ap) as (rp & Hrp & _); [apply Hr; by left|].
  destruct IH as (ps & Hps & HF); [intros a Ha; apply Hr; by right|].
  rewrite bool_decide_eq_false_2 by done. rewrite Hrp, Hps. eauto.
Qed.

Lemma Forall2_elem {A B} (f : A -> result B svc_err) l k : Forall2 (fun a b => f a = Ok b) l k ->
  forall b, b ∈ k <-> exists a, a ∈ l /\ f a = Ok b.
Proof using Type.
  induction 1 as [|a b l k Hab HF IH]; intros x.
  - split; [by intros ?%elem_of_nil|]. by intros (a & ?%elem_of_nil & _).
  - rewrite elem_of_cons, IH. split.
    + intros [->|(y & Hy & Hf)]; [exists a; by split; [left|]|exists y; by split; [right|]].
    + intros (y & [->|Hy]%elem_of_cons & Hf); [left; congruence|]. right. eauto.
Qed.

Lemma active_inputs_ok d tc c : svc_wf d -> exists ps, activeRenderPipelines tc c None d = Ok ps /\ inputs_ok ps
  /\ Forall2 (fun ap rp => toRender ap = Ok rp) (pg_ListActivePipelines tc c d) ps.
Proof using Type.
  intros Hwf. pose proof Hwf as (Hp & (Ht1 & Ht2) & Hs & _).
  destruct (render_inputs_all (pg_ListActivePipelines tc c d)) as (ps & Hps & HF).
  { intros ap Hap. by destruct (active_facts _ _ _ _ Hwf Hap). }
  exists ps. split; [done|]. split; [|done].
  assert (forall ap rp, ap ∈ pg_ListActivePipelines tc c d -> toRender ap = Ok rp -> rp_ok rp) as Hok.
  { intros ap rp Hap Hr. destruct (active_facts _ _ _ _ Hwf Hap) as [(r & cu & _ & Hcu & _ & Esl & _) Hrend].
    destruct (toRender_ok ap Hrend) as (rp' & Hr' & E1 & _ & E3 & Hg). assert (rp' = rp) as -> by congruence.
    split; [rewrite E1, Esl; by eapply Ht1|]. split; [rewrite E3; apply PipelineSlug_valid|done]. }
  split.
  - apply Forall_forall. intros rp (i & Hi)%list_elem_of_lookup. destruct (Forall2_lookup_r _ _ _ _ _ HF Hi) as (ap & Hap & Hr).
    by eapply Hok; [eapply list_elem_of_lookup_2|].
  - assert (rp_key <$> ps = (fun ap => pipelineKey (ActivePipeline_CustomerSlug ap)
      (PipelineSlug unicode_lower (ActivePipeline_PipelineName ap))) <$> pg_ListActivePipelines tc c d) as ->.
    { clear Hps Hok. induction HF as [|ap rp aps rps Hr HF IH]; [done|]. rewrite !fmap_cons, IH. f_equal.
      unfold toRender in Hr. destruct (ParseGraph _); [|done]. destruct (DecryptGraphSecrets _ _); [|done]. by injection Hr as <-. }
    apply (NoDup_fmap_by ActivePipeline_PipelineID); [|by apply active_ids_NoDup]. intros a b Ha Hb He.
    destruct (active_facts _ _ _ _ Hwf Ha) as [(r & cu & Hr & Hcu & En & Esl & _) _].
    destruct (active_facts _ _ _ _ Hwf Hb) as [(q & cv & Hq & Hcv & Fn & Fsl & _) _].
    apply pipelineKey_inj in He as [E1 E2]; [|rewrite Esl; by eapply Ht1|rewrite Fsl; by eapply Ht1].
    rewrite Esl, Fsl in E1. rewrite En, Fn in E2. eapply Hs; [done|done|by eapply Ht2|done].
Qed.

(** C19: As long as the stored state is consistent, the configs can always be
    rendered: reading every active pipeline, decrypting it and building the
    forwarding config (and, for every customer, the edge config) fails at most
    in the YAML encoder, the inputs satisfy everything the renderer relies on,
    and they are exactly the active pipelines of the target class, those of the
    customer alone for an edge config. *)
Theorem live_configs_render d : svc_wf d ->
  (exists ps, activeRenderPipelines ClassForwarding None None d = Ok ps /\ inputs_ok ps
     /\ RenderCurrent d = lift_render (marshal (forwarding_tree (sort_pipelines ps)))
     /\ (forall p, p ∈ ps <-> exists ap, ap ∈ pg_ListActivePipelines ClassForwarding None d /\ toRender ap = Ok p)) /\
  (forall cid, exists ps, activeRenderPipelines ClassEdge (Some cid) None d = Ok ps /\ inputs_ok ps
     /\ RenderEdgeCurrent cid d = lift_render (marshal (edge_tree (sort_pipelines ps)))
     /\ (forall p, p ∈ ps <-> exists ap, ap ∈ pg_ListActivePipelines ClassEdge (Some cid) d
            /\ ActivePipeline_CustomerID ap = cid /\ toRender ap = Ok p)).
Proof using Type.
  intros Hwf. split.
  - destruct (active_inputs_ok d ClassForwarding None Hwf) as (ps & Hps & Hin & HF). exists ps. split_and!; try done.
    + unfold RenderCurrent. rewrite Hps. unfold RenderForwardingConfig. by rewrite (inputs_no_duplicate ps Hin).
    + intros p. by rewrite (Forall2_elem _ _ _ HF).
  - intros cid. destruct (active_inputs_ok d ClassEdge (Some cid) Hwf) as (ps & Hps & Hin & HF). exists ps. split_and!; try done.
    + unfold RenderEdgeCurrent. rewrite Hps. unfold RenderEdgeConfig. by rewrite (inputs_no_duplicate ps Hin).
    + intros p. rewrite (Forall2_elem _ _ _ HF). split; intros (ap & Hap & Hr); exists ap; [|by destruct Hr].
      split_and!; try done. apply ListActivePipelines_elem in Hap as (i & r & _ & _ & Hc & (? & ? & ? & _ & _ & ->)%active_of_Some).
      by apply Hc.
Qed.

(** ** Saving keeps the invariant *)

Lemma Validate_graph_ok tc candidate others : res_Valid (Validate tc candidate others) = true -> graph_ok (rp_Graph candidate).
Proof using Type.
  unfold Validate. destruct (ValidateStructural (rp_Graph candidate)) eqn:Hv; [|done]. intros _. by apply ValidateStructural_ok.
Qed.

Lemma prepare_spec e cust name tc excl g prev actor d nv res :
  prepare e cust name tc excl g prev actor d = Ok (Some nv, res) ->
  exists stored plain, EncryptGraphSecrets no_key_message g cipher (se_nonces e) prev = Ok (inl stored)
    /\ DecryptGraphSecrets stored cipher = Ok plain /\ graph_ok plain /\ res_Valid res = true
    /\ forall pid, NewPipelineVersion_PipelineID (nv pid) = pid /\ NewPipelineVersion_ID (nv pid) = se_version_id e
         /\ NewPipelineVersion_Graph (nv pid) = MarshalGraph stored
         /\ render_fragment tc (MkRenderPipeline (Customer_Slug cust) (Customer_ClientID cust) (PipelineSlug unicode_lower name)
              (RedactGraphSecrets stored)) = Ok (NewPipelineVersion_RenderedYAML (nv pid))
         /\ NewPipelineVersion_ConfigHash (nv pid) = sha256 (NewPipelineVersion_RenderedYAML (nv pid)).
Proof using Type.
  unfold prepare. destruct (EncryptGraphSecrets _ _ _ _ _) as [[stored|issues]|err] eqn:He; [|done|done].
  destruct (DecryptGraphSecrets stored cipher) as [plain|err] eqn:Hd; [|done].
  destruct (activeRenderPipelines _ _ _ _) as [others|err]; [|done].
  destruct (res_Valid (Validate _ _ _)) eqn:Hv; cbn [negb]; [|done].
  destruct (render_fragment _ _) as [fragment|err] eqn:Hf; [|done]. intros [= <- <-].
  exists stored, plain. split_and!; try done. by apply Validate_graph_ok in Hv.
Qed.

Lemma stored_renderable stored plain : DecryptGraphSecrets stored cipher = Ok plain -> graph_ok plain ->
  renderable (MarshalGraph stored).
Proof using Type. intros Hd Hg. exists stored, plain. by rewrite ParseGraph_MarshalGraph. Qed.

Lemma slug_conflict_None name slug l : slug_conflict name slug l = None ->
  forall p, p ∈ l -> PipelineSlug unicode_lower (Pipeline_Name p) <> slug.
Proof using Type.
  induction l as [|q l IH]; intros Hn p Hp; [by apply elem_of_nil in Hp|]. cbn [slug_conflict] in Hn.
  case_decide as Hs; [done|]. apply elem_of_cons in Hp as [->|Hp]; [done|by apply IH].
Qed.

Lemma create_checks_spec e actor cid name tc g d pc res : create_checks e actor cid name tc g d = Ok (Some pc, res) ->
  exists cust stored plain, t_customers d !! cid = Some cust /\ Customer_Status cust <> CustomerDeleted
    /\ EncryptGraphSecrets no_key_message g cipher (se_nonces e) None = Ok (inl stored)
    /\ DecryptGraphSecrets stored cipher = Ok plain /\ graph_ok plain /\ res_Valid res = true
    /\ NewPipeline_ID (pc_pipeline pc) = se_pipeline_id e /\ NewPipeline_CustomerID (pc_pipeline pc) = cid
    /\ NewPipeline_Name (pc_pipeline pc) = trim_space name
    /\ NewPipelineVersion_PipelineID (pc_version pc) = se_pipeline_id e
    /\ NewPipelineVersion_Graph (pc_version pc) = MarshalGraph stored
    /\ render_fragment (NewPipeline_TargetClass (pc_pipeline pc)) (MkRenderPipeline (Customer_Slug cust) (Customer_ClientID cust)
         (PipelineSlug unicode_lower (trim_space name)) (RedactGraphSecrets stored)) = Ok (NewPipelineVersion_RenderedYAML (pc_version pc))
    /\ NewPipelineVersion_ConfigHash (pc_version pc) = sha256 (NewPipelineVersion_RenderedYAML (pc_version pc))
    /\ forall p, p ∈ pg_ListPipelines (Some cid) d ->
         PipelineSlug unicode_lower (Pipeline_Name p) <> PipelineSlug unicode_lower (trim_space name).
Proof using Type.
  unfold create_checks. destruct (_ || _); [done|]. unfold pg_GetCustomer.
  destruct (t_customers d !! cid) as [cust|]; [|done]. destruct (decide (Customer_Status cust = CustomerDeleted)) as [|Hlive]; [done|].
  rewrite decide_False by done. destruct (slug_conflict _ _ _) eqn:Hs; [done|].
  destruct (prepare _ _ _ _ _ _ _ _ _) as [[[nv|] res']|err] eqn:Hp; [|done|done]. intros [= <- <-].
  destruct (prepare_spec _ _ _ _ _ _ _ _ _ _ _ Hp) as (stored & plain & He & Hd & Hg & Hv & Hnv).
  destruct (Hnv (se_pipeline_id e)) as (E1 & _ & E3 & E4 & E5). exists cust, stored, plain. split_and!; try done.
  by apply slug_conflict_None with (1 := Hs).
Qed.

Lemma create_checks_class e actor cid name tc g d pc res : create_checks e actor cid name tc g d = Ok (Some pc, res) ->
  NewPipeline_TargetClass (pc_pipeline pc) = if decide (tc = "") then ClassForwarding else tc.
Proof using Type.
  unfold create_checks. destruct (_ || _); [done|]. destruct (pg_GetCustomer _ _); [|done]. case_decide; [done|].
  destruct (slug_conflict _ _ _); [done|]. destruct (prepare _ _ _ _ _ _ _ _ _) as [[[nv|] res']|]; [|done|done]. by intros [= <- _].
Qed.

(** A pipeline of a customer that is not deleted is listed. *)
Lemma ListPipelines_name d i r cust : t_pipelines d !! i = Some r -> t_customers d !! pl_customer_id r = Some cust ->
  Customer_Status cust <> CustomerDeleted -> exists p, p ∈ pg_ListPipelines (Some (pl_customer_id r)) d /\ Pipeline_Name p = pl_name r.
Proof using Type.
  intros Hi Hc Hlive. unfold pg_ListPipelines, select_pipeline. eexists. split.
  - rewrite sort_by_perm. apply list_elem_of_omap. exists r. split.
    + apply rows_elem. split; [by apply bool_decide_eq_true|eauto].
    + rewrite Hc. simpl. rewrite decide_False by done. reflexivity.
  - done.
Qed.

Lemma create_commit_wf e actor cid name tc g d pc res : svc_wf d -> create_checks e actor cid name tc g d = Ok (Some pc, res) ->
  svc_wf (create_commit e pc d).2.
Proof using Type.
  intros Hwf Hck. pose proof Hwf as (Hp & Ht & Hs & Hv).
  destruct (create_checks_spec _ _ _ _ _ _ _ _ _ Hck) as (cust & stored & plain & Hcu & Hlive & _ & Hd & Hg & _ & P1 & P2 & P3 & P4 & P5 & _ & _ & Hslug).
  unfold create_commit. destruct (pg_CreatePipeline _ _ _ _ _) as [[[pipe ver]|err] d'] eqn:Hc; simpl; [|by apply inTx_Err in Hc as ->].
  pose proof (pipelines_wf_Create (se_now e) (pc_pipeline pc) (pc_version pc) (pc_entries pc) d Hp) as Hp'. rewrite Hc in Hp'.
  destruct (create_pipeline_core _ _ _ _ _ _ _ _ Hc) as (row & vrow & Hfresh & E1 & Ec & En & E2 & Eg & _ & E3 & _).
  assert (forall i r, t_pipelines d !! i = Some r -> pl_customer_id r = cid ->
    PipelineSlug unicode_lower (pl_name r) <> PipelineSlug unicode_lower (pl_name row)) as Hnew.
  { intros i r Hi <-. destruct (ListPipelines_name d i r cust Hi Hcu Hlive) as (p & Hpl & <-). rewrite En, P3. by apply Hslug. }
  split; [apply Hp'; by rewrite P1|]. split; [unfold tenants_ok; by rewrite E3|]. split.
  - intros i j r q. rewrite E1. intros [[<- <-]|[_ Hi]]%lookup_insert_Some [[<- <-]|[_ Hj]]%lookup_insert_Some Hcc He.
    + done.
    + exfalso. apply (Hnew j q Hj); [by rewrite <- Hcc, Ec, P2|done].
    + exfalso. apply (Hnew i r Hi); [by rewrite Hcc, Ec, P2|done].
    + by eapply Hs.
  - intros i v. rewrite E2. intros [[<- <-]|[_ Hi]]%lookup_insert_Some; [|by eapply Hv].
    rewrite Eg, P5. by eapply stored_renderable.
Qed.

Lemma CreateVersion_wf e actor pid g d : svc_wf d -> svc_wf (CreateVersion e actor pid g d).2.
Proof using Type.
  intros Hwf. pose proof Hwf as (Hp & Ht & Hs & Hv). unfold CreateVersion.
  destruct (pg_GetPipeline pid d) as [pipe|]; [|done]. destruct (latest_graph pid pipe d) as [prev|]; [|done].
  destruct (prepare _ _ _ _ _ _ _ _ _) as [[[nv|] res]|] eqn:Hpr; [|done|done].
  destruct (prepare_spec _ _ _ _ _ _ _ _ _ _ _ Hpr) as (stored & plain & _ & Hd & Hg & _ & Hnv).
  destruct (Hnv pid) as (_ & _ & E3 & _).
  match goal with |- context [pg_CreatePipelineVersion ?n ?v ?en d] =>
    pose proof (pipelines_wf_CreateVersion n v en d Hp) as Hp'; destruct (pg_CreatePipelineVersion n v en d) as [[ver|err] d'] eqn:Hc end;
    simpl in *; [|by apply inTx_Err in Hc as ->].
  destruct (create_version_core _ _ _ _ _ _ Hp Hc) as (n & row & _ & _ & _ & _ & _ & Eg & _ & F1 & F2 & F3 & _).
  split; [done|]. split; [unfold tenants_ok; by rewrite F2|]. split; [unfold slugs_ok; by rewrite F1|].
  intros i v. rewrite F3. intros [[<- <-]|[_ Hi]]%lookup_insert_Some; [|by eapply Hv]. rewrite Eg, E3. by eapply stored_renderable.
Qed.

Lemma Create_wf e actor cid name tc g d : svc_wf d -> svc_wf (Create e actor cid name tc g d).2.
Proof using Type.
  intros Hwf. unfold Create. destruct (create_checks _ _ _ _ _ _ _) as [[[pc|] res]|] eqn:Hck; [|done|done].
  pose proof (create_commit_wf _ _ _ _ _ _ _ _ _ Hwf Hck) as Hc. by destruct (create_commit e pc d) as [[?|?] ?].
Qed.

Section worlds.
Context {D : Type} {DI : Distributor D} (edge : option (N -> result unit string)).

Lemma distribute_db (w : world (D := D)) : w_db (distribute w).2 = w_db w.
Proof using Type. unfold distribute. destruct (RenderCurrent _); [|done]. by destruct (Distribute _ _) as [[]]. Qed.

Lemma notifyEdge_db cid (w : world (D := D)) : w_db (notifyEdge edge cid w).2 = w_db w.
Proof using Type.
  unfold notifyEdge. destruct edge as [f|]; [destruct (f cid)|]; simpl; [by destruct (countEdgeAgents _ _)|done|by destruct (countEdgeAgents _ _)].
Qed.

Lemma roll_out_db pipe (w : world (D := D)) : w_db (roll_out edge pipe w).2 = w_db w.
Proof using Type. unfold roll_out. case_decide; [apply notifyEdge_db|apply distribute_db]. Qed.

Lemma svc_wf_activate pid z entries d : svc_wf d -> svc_wf (pg_ActivatePipelineVersion pid z entries d).2.
Proof using Type.
  intros (Hp & Ht & Hs & Hv). pose proof (pipelines_wf_Activate pid z entries d Hp) as Hp'.
  destruct (pg_ActivatePipelineVersion pid z entries d) as [[[pipe ver]|err] d'] eqn:Hc; simpl in *; [|by apply inTx_Err in Hc as ->].
  destruct (activate_core _ _ _ _ _ _ _ Hp Hc) as (v & r & _ & _ & _ & _ & _ & E1 & E2 & E3 & _).
  split; [done|]. split; [unfold tenants_ok; by rewrite E3|]. split; [|by rewrite E2]. intros i j x y. rewrite E1.
  assert (forall k q, alter (activate_row (pv_id v)) pid (t_pipelines d) !! k = Some q -> exists q0, t_pipelines d !! k = Some q0
    /\ pl_customer_id q = pl_customer_id q0 /\ pl_name q = pl_name q0) as Hold.
  { intros k q [(<- & q0 & Hq0 & ->)|[_ Hq]]%lookup_alter_Some; eauto. }
  intros (x0 & Hx & Ex1 & Ex2)%Hold (y0 & Hy & Ey1 & Ey2)%Hold. rewrite Ex1, Ex2, Ey1, Ey2. by apply Hs.
Qed.

Lemma svc_wf_delete pid entries d : svc_wf d -> svc_wf (pg_DeletePipeline pid entries d).2.
Proof using Type.
  intros (Hp & Ht & Hs & Hv). pose proof (pipelines_wf_Delete pid entries d Hp) as Hp'.
  destruct (pg_DeletePipeline pid entries d) as [[[]|err] d'] eqn:Hc; simpl in *; [|by apply inTx_Err in Hc as ->].
  destruct (delete_core _ _ _ _ Hc) as (E1 & E2 & E3).
  split; [done|]. split; [unfold tenants_ok; by rewrite E3|]. split.
  - intros i j x y. rewrite E1. intros [_ Hx]%lookup_delete_Some [_ Hy]%lookup_delete_Some. by apply Hs.
  - intros i v. rewrite E2. intros [Hi _]%map_lookup_filter_Some. by eapply Hv.
Qed.

Lemma Activate_db actor pid z (w : world (D := D)) : exists entries, w_db (Activate edge actor pid z w).2
  = (pg_ActivatePipelineVersion pid z entries (w_db w)).2.
Proof using Type.
  unfold Activate. eexists. destruct (pg_ActivatePipelineVersion pid z _ (w_db w)) as [[[pipe ver]|err] d'] eqn:Hc; [|by rewrite Hc].
  pose proof (roll_out_db pipe (with_db d' w)) as Hr. rewrite Hc. destruct (roll_out edge pipe (with_db d' w)) as [[[]|] w'];
    simpl in *; by rewrite Hr.
Qed.

(** C9: The pipeline service keeps its state renderable: starting from tables
    in which versions are numbered without gaps, slugs identify tenants and
    their pipelines, and every stored graph decrypts and passes the structural
    checks, every Create, CreateVersion, Activate and Delete, successful or
    not, leads to such tables again, so a rollout can be rendered after any
    sequence of calls. *)
Theorem service_invariant (w : world (D := D)) : svc_wf (w_db w) ->
  (forall e actor cid name tc g, svc_wf (Create e actor cid name tc g (w_db w)).2) /\
  (forall e actor pid g, svc_wf (CreateVersion e actor pid g (w_db w)).2) /\
  (forall actor pid z, svc_wf (w_db (Activate edge actor pid z w).2)) /\
  (forall actor pid, svc_wf (w_db (Delete edge actor pid w).2)).
Proof using Type.
  intros Hwf. split_and!.
  - intros. by apply Create_wf.
  - intros. by apply CreateVersion_wf.
  - intros actor pid z. destruct (Activate_db actor pid z w) as [entries ->]. by apply svc_wf_activate.
  - intros actor pid. unfold Delete. destruct (pg_GetPipeline pid (w_db w)) as [pipe|]; [|done].
    match goal with |- context [pg_DeletePipeline pid ?en ?d] => pose proof (svc_wf_delete pid en d Hwf) as Hd;
      destruct (pg_DeletePipeline pid en d) as [[[]|] d'] end; [|done].
    case_bool_decide; simpl; [rewrite roll_out_db|]; done.
Qed.
End worlds.

(** C27: In a consistent state, activating any stored valid version of a
    pipeline rolls it out: unless the YAML encoder or the notification fails,
    the call succeeds, the database is the one the activation transaction left,
    the published forwarding config is the rendering of that database, and an
    edge pipeline's customer is announced to the OpAMP tier instead. *)
Theorem activation_rolls_out edge actor pid z (w : world (D := PublishDistributor)) :
  svc_wf (w_db w) -> (forall t, is_ok (marshalYAML t) = true) -> (forall f c, edge = Some f -> is_ok (f c) = true) ->
  forall pipe ver, (exists entries, (pg_ActivatePipelineVersion pid z entries (w_db w)).1 = Ok (pipe, ver)) ->
  exists state detail w', Activate edge actor pid z w = (Ok (pipe, state, detail), w')
    /\ (exists entries, (pg_ActivatePipelineVersion pid z entries (w_db w)).2 = w_db w')
    /\ (Pipeline_TargetClass pipe <> ClassEdge ->
          RenderCurrent (w_db w') = Ok (current (w_dist w')) /\ w_announced w' = w_announced w)
    /\ (Pipeline_TargetClass pipe = ClassEdge -> w_dist w' = w_dist w
          /\ (is_Some edge -> w_announced w' = (w_announced w ++ [Pipeline_CustomerID pipe])%list)).
Proof using Type.
  intros Hwf Hy He pipe ver [entries Ha]. unfold Activate.
  match goal with |- context [pg_ActivatePipelineVersion pid z ?en (w_db w)] => set (en0 := en);
    pose proof (activate_result pid z entries en0 (w_db w)) as Hres; pose proof (svc_wf_activate pid z en0 (w_db w) Hwf) as Hwf' end.
  rewrite Ha in Hres. destruct (pg_ActivatePipelineVersion pid z en0 (w_db w)) as [r d'] eqn:Hc. simpl in Hres, Hwf'. subst r.
  unfold roll_out. destruct (decide (Pipeline_TargetClass pipe = ClassEdge)) as [Hedge|Hfwd].
  - unfold notifyEdge. destruct edge as [f|]; [specialize (He f (Pipeline_CustomerID pipe) eq_refl); destruct (f _); [|done]|]; simpl;
      destruct (countEdgeAgents _ _) as [n1 n2]; simpl; eexists _, _, _; (split; [reflexivity|]); (split; [exists en0; by rewrite Hc|]);
      split; try done; intros _; simpl; split; try done.
  - unfold distribute. simpl. destruct (active_inputs_ok d' ClassForwarding None Hwf') as (ps & Hps & Hin & _).
    assert (exists full, RenderCurrent d' = Ok full) as [full Hfull].
    { unfold RenderCurrent, RenderForwardingConfig, marshal. rewrite Hps, (inputs_no_duplicate ps Hin).
      specialize (Hy (forwarding_tree (sort_pipelines ps))). destruct (marshalYAML _); [by eexists|done]. }
    rewrite Hfull. simpl. eexists _, _, _. split; [reflexivity|]. split; [exists en0; by rewrite Hc|]. by split.
Qed.

(** What is persisted with a version holds no secrets: the stored graph is
    the encrypted one, and the rendered fragment (which the API serves) and its
    hash are those of the submitted graph with its secret fields redacted, for
    pipelines created and for versions added, whatever secrets the graph and
    the previous version had. *)
Theorem persisted_version_redacted {AL : AeadLaws} e : cipher_ok cipher -> nonces_ok (se_nonces e) ->
  (forall actor cid name tc g d pipe ver res d', Create e actor cid name tc g d = (Ok (Some (pipe, ver), res), d') ->
     exists cust stored, t_customers d !! cid = Some cust
       /\ EncryptGraphSecrets no_key_message g cipher (se_nonces e) None = Ok (inl stored)
       /\ ParseGraph (PipelineVersion_Graph ver) = Some stored
       /\ render_fragment (if decide (tc = "") then ClassForwarding else tc)
            (MkRenderPipeline (Customer_Slug cust) (Customer_ClientID cust) (PipelineSlug unicode_lower (trim_space name))
               (RedactGraphSecrets g)) = Ok (PipelineVersion_RenderedYAML ver)
       /\ PipelineVersion_ConfigHash ver = sha256 (PipelineVersion_RenderedYAML ver)) /\
  (forall actor pid g d ver res d', pipelines_wf d -> CreateVersion e actor pid g d = (Ok (Some ver, res), d') ->
     exists pipe prev stored, pg_GetPipeline pid d = Ok pipe /\ latest_graph pid pipe d = Ok prev
       /\ EncryptGraphSecrets no_key_message g cipher (se_nonces e) prev = Ok (inl stored)
       /\ ParseGraph (PipelineVersion_Graph ver) = Some stored
       /\ render_fragment (Pipeline_TargetClass pipe)
            (MkRenderPipeline (Pipeline_CustomerSlug pipe) (Pipeline_ClientID pipe) (PipelineSlug unicode_lower (Pipeline_Name pipe))
               (RedactGraphSecrets g)) = Ok (PipelineVersion_RenderedYAML ver)
       /\ PipelineVersion_ConfigHash ver = sha256 (PipelineVersion_RenderedYAML ver)).
Proof using Type.
  intros Hck Hno. split.
  - intros actor cid name tc g d pipe ver res d'. unfold Create.
    destruct (create_checks _ _ _ _ _ _ _) as [[[pc|] res']|] eqn:Hc; [|done|done]. unfold create_commit.
    destruct (pg_CreatePipeline _ _ _ _ _) as [[[pipe' ver']|] d1] eqn:Hp; [|done]. intros [= <- <- <- <-].
    pose proof (create_checks_class _ _ _ _ _ _ _ _ _ Hc) as Htc.
    destruct (create_checks_spec _ _ _ _ _ _ _ _ _ Hc) as (cust & stored & plain & Hcu & _ & He & _ & _ & _ & _ & _ & _ & _ & P5 & P6 & P7 & _).
    destruct (create_pipeline_core _ _ _ _ _ _ _ _ Hp) as (row & vrow & _ & _ & _ & _ & _ & Eg & Ey & _ & Vy & Vh & Vg).
    exists cust, stored. rewrite Vg, Eg, P5, Vy, Ey, Vh, ParseGraph_MarshalGraph.
    rewrite Htc, (Redact_stored no_key_message g cipher _ None stored Hck Hno He) in P6. done.
  - intros actor pid g d ver res d' Hwf. unfold CreateVersion.
    destruct (pg_GetPipeline pid d) as [pipe|] eqn:Hpi; [|done]. destruct (latest_graph pid pipe d) as [prev|] eqn:Hl; [|done].
    destruct (prepare _ _ _ _ _ _ _ _ _) as [[[nv|] res']|] eqn:Hpr; [|done|done].
    destruct (prepare_spec _ _ _ _ _ _ _ _ _ _ _ Hpr) as (stored & plain & He & _ & _ & _ & Hnv).
    destruct (Hnv pid) as (_ & _ & E3 & E4 & E5). destruct (pg_CreatePipelineVersion _ _ _ d) as [[ver'|] d1] eqn:Hc; [|done].
    intros [= <- <- <-]. destruct (create_version_core _ _ _ _ _ _ Hwf Hc) as (n & row & _ & _ & _ & _ & _ & Eg & _ & _ & _ & _ & Hsel & _ & Ey & Eh).
    exists pipe, prev, stored. unfold select_version in Hsel. destruct (t_pipelines d1 !! _); [|done]. simpl in Hsel. injection Hsel as <-.
    simpl. rewrite Eg, E3, Ey, Eh, ParseGraph_MarshalGraph.
    rewrite (Redact_stored no_key_message g cipher _ prev stored Hck Hno He) in E4. done.
Qed.
End service.

(** ** A tenant's pipeline, created, changed and rolled out *)

#[local] Existing Instances ex_aead ex_aead_laws ex_yaml ex_collector.

Definition ex_sha : Sha256 := fun s => String "#"%char s.
#[local] Existing Instance ex_sha.

Definition ex_lower (r : Z) : Z := if ((65 <=? r) && (r <=? 90))%Z then (r + 32)%Z else r.
Definition ex_env (id : N) : save_env := MkSaveEnv 1 id (id + 10) ex_nonces.
Definition ex_edge : option (N -> result unit string) := Some (fun _ => Ok tt).

Abbreviation ex_wf := (svc_wf ex_lower (Some ex_old_cipher)).
Abbreviation ex_create_checks := (create_checks ex_lower (fun _ => "uuid") "no key" (Some ex_old_cipher)).
Abbreviation ex_create := (Create ex_lower (fun _ => "uuid") "no key" (Some ex_old_cipher)).
Abbreviation ex_create_version := (CreateVersion ex_lower (fun _ => "uuid") "no key" (Some ex_old_cipher)).
Abbreviation ex_activate := (Activate (D := PublishDistributor) ex_lower (fun _ => "uuid") (Some ex_old_cipher) ex_edge).
Abbreviation ex_render_current := (RenderCurrent ex_lower (Some ex_old_cipher)).

(** One pipeline with one version, then two; the second not yet active. *)
Definition ex_svc1 : DB := (ex_create (ex_env 10) None 1%N " Logs " "" (ex_secret_graph "hunter2") ex_pipes0).2.
Definition ex_svc2 : DB := (ex_create_version (ex_env 12) None 10%N (ex_secret_graph RedactedSentinel) ex_svc1).2.
Definition ex_world (d : DB) : world (D := PublishDistributor) := MkWorld d (MkPublishDistributor "") [].

Lemma ex_svc0_wf : ex_wf ex_pipes0.
Proof.
  split; [apply ex_pipes0_wf|]. split.
  - unfold tenants_ok. change (t_customers ex_pipes0) with ({[ 1%N := ex_tenant ]} : gmap N Customer). split.
    + intros i c Hi. apply lookup_singleton_Some in Hi as [_ <-]. reflexivity.
    + intros i j c c' Hi Hj _. apply lookup_singleton_Some in Hi as [<- _], Hj as [<- _]. done.
  - split; [intros i j r q Hi|intros i v Hi]; exfalso; simpl in Hi; by rewrite lookup_empty in Hi.
Qed.

Lemma ex_svc1_wf : ex_wf ex_svc1.
Proof. apply Create_wf, ex_svc0_wf. Qed.

Lemma ex_svc2_wf : ex_wf ex_svc2.
Proof. apply CreateVersion_wf, ex_svc1_wf. Qed.

Lemma service_invariant_witness : ex_wf (w_db (ex_activate None 10%N 2%Z (ex_world ex_svc2)).2).
Proof.
  exact (proj1 (proj2 (proj2 (service_invariant ex_lower (fun _ => "uuid") "no key" (Some ex_old_cipher) ex_edge
    (ex_world ex_svc2) ex_svc2_wf))) None 10%N 2%Z).
Defined.

Lemma live_configs_render_witness : exists ps, ex_render_current ex_svc2 = lift_render (marshal (forwarding_tree ps)).
Proof.
  destruct (live_configs_render ex_lower (Some ex_old_cipher) ex_svc2 ex_svc2_wf) as [(ps & _ & _ & Hr & _) _]. eauto.
Defined.

Lemma activation_rolls_out_witness : exists pipe state detail w',
  ex_activate None 10%N 2%Z (ex_world ex_svc2) = (Ok (pipe, state, detail), w') /\ ex_render_current (w_db w') = Ok (current (w_dist w')).
Proof.
  destruct ((pg_ActivatePipelineVersion 10%N 2%Z [] ex_svc2).1) as [[pipe ver]|err] eqn:Ha; [|by vm_compute in Ha].
  destruct (activation_rolls_out ex_lower (fun _ => "uuid") (Some ex_old_cipher) ex_edge None 10%N 2%Z (ex_world ex_svc2)
    ex_svc2_wf) with (pipe := pipe) (ver := ver) as (state & detail & w' & He & _ & Hf & _).
  - reflexivity.
  - intros f c [= <-]. reflexivity.
  - by exists [].
  - exists pipe, state, detail, w'. split; [exact He|]. apply Hf. vm_compute in Ha. injection Ha as <- _. done.
Defined.

Lemma persisted_version_redacted_witness : exists ver res d',
  ex_create_version (ex_env 12) None 10%N (ex_secret_graph RedactedSentinel) ex_svc1 = (Ok (Some ver, res), d')
  /\ exists stored, ParseGraph (PipelineVersion_Graph ver) = Some stored.
Proof.
  destruct (ex_create_version (ex_env 12) None 10%N (ex_secret_graph RedactedSentinel) ex_svc1) as [[[[ver|] res]|err] d'] eqn:Hc;
    [|by vm_compute in Hc|by vm_compute in Hc].
  exists ver, res, d'. split; [reflexivity|].
  destruct (proj2 (persisted_version_redacted ex_lower (fun _ => "uuid") "no key" (Some ex_old_cipher) (ex_env 12) ex_cipher_ok ex_nonces_ok)
    _ _ _ _ _ _ _ (proj1 ex_svc1_wf) Hc) as (_ & _ & stored & _ & _ & _ & Hp & _). by exists stored.
Defined.

(** ** Two concurrent creations

    The slug check of Create is not part of its transaction, and no constraint
    of the database repeats it. *)

Definition ex_pending (id : N) (name : string) : option pending_create :=
  match ex_create_checks (ex_env id) None 1%N name "" (ex_secret_graph "pw") ex_pipes0 with
  | Ok (pc, _) => pc
  | Err _ => None
  end.

(** Both calls have made their checks; then both commit. *)
Definition ex_raced : DB :=
  match ex_pending 10 "logs", ex_pending 11 "logs!" with
  | Some a, Some b => (create_commit (ex_env 11) b (create_commit (ex_env 10) a ex_pipes0).2).2
  | _, _ => ex_pipes0
  end.

Definition ex_raced_active : world (D := PublishDistributor) :=
  (ex_activate None 11%N 1%Z (ex_activate None 10%N 1%Z (ex_world ex_raced)).2).2.

(** Two Create calls that run at the same time can both pass the slug check
    and commit pipelines with equivalent names; once both are active, the
    forwarding config, which is one document for all tenants, can no longer be
    rendered (one after the other, the second call is refused). *)
Theorem racing_creates_break_rendering :
  is_Some (ex_pending 10 "logs") /\ is_Some (ex_pending 11 "logs!") /\
  (ex_activate None 11%N 1%Z (ex_activate None 10%N 1%Z (ex_world ex_raced)).2).1
    = Err (ErrNotRolledOut 1 (ErrRender (ErrDuplicateKey "acme__logs"))) /\
  ex_render_current (w_db ex_raced_active) = Err (ErrRender (ErrDuplicateKey "acme__logs")) /\
  (ex_create (ex_env 11) None 1%N "logs!" "" (ex_secret_graph "pw")
     (ex_create (ex_env 10) None 1%N "logs" "" (ex_secret_graph "pw") ex_pipes0).2).1 = Err ErrSlugTaken.
Proof. split_and!; try (vm_compute; by eexists); vm_compute; reflexivity. Qed.
