(* ===== verification/K8sDistributor.v ===== *)
(** The Kubernetes distributor (internal/pipelines/k8s.go): the forwarding
    config patched into an OpenTelemetryCollector resource, and what a merge
    patch does with a config that has become smaller.

    The YAML decoder and the API server are parameters; the laws state that
    decoding inverts encoding, and the semantics of a JSON merge patch
    (RFC 7386) that the patch type asks for. *)
From S2P Require Import Prelude GoStrings Json Slug Catalog PipelineGraph Crypto Secrets Render Validate RenderSpec PipelineService.

Open Scope string_scope.

Class Cluster := {
  (** yaml.Unmarshal into a map *)
  Unmarshal : string -> result jval string;
  (** the resource after a merge patch, and the error of a request, if any *)
  merge_patch : jval -> jval -> jval;
  request_error : option string
}.

Record K8sDistributor : Type := MkK8sDistributor {
  k8s_Name : string;
  k8s_Namespace : string
}.

Definition config_patch (cfg : jval) : jval := JObj [("spec", JObj [("config", cfg)])].

(** The distributor's state is the patched resource. *)
Definition k8s_Distribute `{Cluster} (dist : K8sDistributor) (renderedFullConfig : string) (cr : jval)
  : result (string * string) string * jval :=
  match Unmarshal renderedFullConfig with
  | Err e => (Err ("k8s distributor: decode rendered config: " +:+ e), cr)
  | Ok cfg =>
      match request_error with
      | Some e => (Err ("k8s distributor: patch " +:+ k8s_Namespace dist +:+ "/" +:+ k8s_Name dist +:+ ": " +:+ e), cr)
      | None => (Ok (StateApplied, "patched OpenTelemetryCollector " +:+ k8s_Namespace dist +:+ "/" +:+ k8s_Name dist),
                 merge_patch cr (config_patch cfg))
      end
  end.

Definition k8s_distributor `{Cluster} (dist : K8sDistributor) : Distributor jval := {| Distribute := k8s_Distribute dist |}.

(** ** Values of a config *)

Definition scalar_value (s : yscalar) : jval :=
  match s with
  | SNull => JNull
  | SBool b => JBool b
  | SInt z => JInt z
  | SFloat lit => JNum lit
  | SStr s => JStr s
  end.

Fixpoint node_value (t : ynode) : jval :=
  match t with
  | YScalar s => scalar_value s
  | YSeq _ l => JArr ((fix go l := match l with [] => [] | x :: l => node_value x :: go l end) l)
  | YMap m => JObj ((fix go m := match m with [] => [] | (k, x) :: m => (k, node_value x) :: go m end) m)
  end.

Definition member (k : string) (v : jval) : option jval := match v with JObj m => assoc k m | _ => None end.
Fixpoint member_at (path : list string) (v : jval) : option jval :=
  match path with
  | [] => Some v
  | k :: path => member k v ≫= member_at path
  end.

Lemma member_at_snoc path k v : member_at (path ++ [k])%list v = member_at path v ≫= member k.
Proof. revert v. induction path as [|x path IH]; intros v; simpl; [by destruct (member k v)|]. destruct (member x v); simpl; [apply IH|done]. Qed.

Lemma member_node_value k m : member k (node_value (YMap m)) = node_value <$> assoc k m.
Proof. simpl. induction m as [|[k' x] m IH]; simpl; [done|]. by case_decide. Qed.

(** What a merge patch documents: a member the patch does not mention stays, and
    one it sets to a value other than null is patched in turn. *)
Class ClusterLaws `{Cluster} `{Yaml} : Prop := {
  merge_absent : forall t p k, member k (JObj p) = None -> member k (merge_patch t (JObj p)) = member k t;
  merge_present : forall t p k v, member k (JObj p) = Some v -> v <> JNull ->
    member k (merge_patch t (JObj p)) = Some (merge_patch (default JNull (member k t)) v);
  Unmarshal_marshal : forall t s, marshalYAML t = Ok s -> Unmarshal s = Ok (node_value t)
}.

Section k8s.
Context `{CL : Cluster} `{YM : Yaml} {LAWS : ClusterLaws}.

Lemma tree_exporters ps : exists m rest, forwarding_tree ps = YMap m /\ assoc "exporters" m = Some (YMap rest)
  /\ rest = forwarding_exporters ps.
Proof using Type. unfold forwarding_tree. destruct (routed_signals ps); eexists _, _; split_and!; reflexivity. Qed.

(** The exporters of a resource after a config was patched in. *)
Lemma patched_exporters ps cr : exists rest, node_value (YMap (forwarding_exporters ps)) = JObj rest /\
  member_at ["spec"; "config"; "exporters"] (merge_patch cr (config_patch (node_value (forwarding_tree ps))))
  = Some (merge_patch (default JNull (member_at ["spec"; "config"; "exporters"] cr)) (JObj rest)).
Proof using LAWS.
  destruct (tree_exporters ps) as (m & rest & Ht & Ha & ->). eexists. split; [reflexivity|].
  assert (exists c, node_value (forwarding_tree ps) = JObj c /\ member "exporters" (JObj c) = Some (node_value (YMap (forwarding_exporters ps))))
    as (c & Hc & Hm).
  { rewrite Ht. eexists. split; [reflexivity|]. change (JObj _) with (node_value (YMap m)). by rewrite member_node_value, Ha. }
  unfold config_patch. rewrite Hc. cbn [member_at].
  rewrite (merge_present cr [("spec", JObj [("config", JObj c)])] "spec" (JObj [("config", JObj c)])) by done. cbn [mbind option_bind].
  rewrite (merge_present _ [("config", JObj c)] "config" (JObj c)) by done. cbn [mbind option_bind].
  rewrite (merge_present _ c "exporters" _ Hm) by done. cbn [mbind option_bind].
  do 2 f_equal. destruct (member "spec" cr) as [sp|]; [|done]. cbn. destruct (member "config" sp) as [cf|]; [|done]. cbn.
  by destruct (member "exporters" cf).
Qed.

(** With the Kubernetes distributor, deleting or replacing an exporter does
    not remove it from the cluster: the config is applied as a merge patch, so
    an exporter of the config distributed first that the next config no longer
    has is still in the resource, with its settings and credentials, after both
    calls reported success. *)
Theorem k8s_keeps_removed_exporters dist ps qs cr s1 s2 st1 st2 cr1 cr2 p i n :
  inputs_ok ps -> p ∈ ps -> graph_Exporters (rp_Graph p) !! i = Some n ->
  RenderForwardingConfig ps = Ok s1 -> RenderForwardingConfig qs = Ok s2 ->
  k8s_Distribute dist s1 cr = (Ok st1, cr1) -> k8s_Distribute dist s2 cr1 = (Ok st2, cr2) ->
  rp_component p i n ∉ (forwarding_exporters (sort_pipelines qs)).*1 ->
  exists old, member_at ["spec"; "config"; "exporters"; rp_component p i n] cr2
    = Some (merge_patch old (node_value (toNode (JObj (default [] (node_Config n)))))).
Proof using LAWS.
  intros Hin Hp Hi Hr1 Hr2 Hd1 Hd2 Hgone.
  assert (forall ps s cr st cr', RenderForwardingConfig ps = Ok s -> k8s_Distribute dist s cr = (Ok st, cr') ->
    cr' = merge_patch cr (config_patch (node_value (forwarding_tree (sort_pipelines ps))))) as Hdist.
  { clear -LAWS. intros ps s cr st cr'. unfold RenderForwardingConfig, marshal. destruct (duplicate_key _ _); [done|].
    destruct (marshalYAML _) as [s'|] eqn:Hm; [|done]. intros [= ->]. unfold k8s_Distribute. rewrite (Unmarshal_marshal _ _ Hm).
    by destruct request_error; intros [= _ <-]. }
  assert (assoc (rp_component p i n) (forwarding_exporters (sort_pipelines ps)) = Some (toNode (JObj (default [] (node_Config n))))) as Hex.
  { apply forwarding_exporter_assoc; [by apply inputs_ok_sort| |done]. by unfold sort_pipelines; rewrite sort_by_perm. }
  rewrite (Hdist _ _ _ _ _ Hr2 Hd2), (Hdist _ _ _ _ _ Hr1 Hd1) in *. clear Hd1 Hd2.
  destruct (patched_exporters (sort_pipelines ps) cr) as (e1 & E1 & M1).
  match goal with |- context [merge_patch ?c1 (config_patch (node_value (forwarding_tree (sort_pipelines qs))))] =>
    destruct (patched_exporters (sort_pipelines qs) c1) as (e2 & E2 & M2) end.
  exists (default JNull (member (rp_component p i n) (default JNull (member_at ["spec"; "config"; "exporters"] cr)))).
  change ["spec"; "config"; "exporters"; rp_component p i n] with (["spec"; "config"; "exporters"] ++ [rp_component p i n])%list.
  rewrite member_at_snoc, M2, M1. cbn [mbind option_bind default].
  rewrite merge_absent.
  - apply merge_present; [|discriminate]. by rewrite <- E1, member_node_value, Hex.
  - rewrite <- E2, member_node_value. clear Hex. destruct (assoc _ _) as [x|] eqn:Ha; [|done]. exfalso. apply Hgone. exact (assoc_fst _ _ _ Ha).
Qed.
End k8s.

(** ** A merge patch as RFC 7386 defines it *)

Fixpoint rfc7386 (target patch : jval) {struct patch} : jval :=
  match patch with
  | JObj p =>
      let old := match target with JObj m => m | _ => [] end in
      JObj ((fix go p := match p with
             | [] => old
             | (k, v) :: p =>
                 let m := filter (fun e => e.1 <> k) (go p) in
                 match v with JNull => m | _ => (k, rfc7386 (default JNull (assoc k old)) v) :: m end
             end) p)
  | _ => patch
  end.

Lemma assoc_filter_ne k k' (m : list (string * jval)) : k <> k' -> assoc k (filter (fun e => e.1 <> k') m) = assoc k m.
Proof.
  intros Hne. induction m as [|[x v] m IH]; [done|]. rewrite filter_cons. simpl. case_decide as Hx; simpl.
  - by rewrite IH.
  - rewrite decide_False; [done|]. intros ->. done.
Qed.

Lemma rfc7386_member t p k :
  member k (rfc7386 t (JObj p)) = match assoc k p with
                                  | None => member k t
                                  | Some JNull => None
                                  | Some v => Some (rfc7386 (default JNull (member k t)) v)
                                  end.
Proof.
  assert (member k t = assoc k match t with JObj m => m | _ => [] end) as -> by (by destruct t).
  simpl. set (old := match t with JObj m => m | _ => [] end). clearbody old.
  assert (forall m : list (string * jval), assoc k (filter (fun e => e.1 <> k) m) = None) as Hnone.
  { induction m as [|[x v] m IH]; [done|]. rewrite filter_cons. simpl. case_decide as Hx; [|done]. simpl. by rewrite decide_False. }
  induction p as [|[k' v] p IH]; simpl; [done|]. case_decide as Hk.
  - subst. destruct v; simpl; rewrite ?decide_True by done; [apply Hnone|done..].
  - assert (k <> k') as Hk' by congruence. destruct v; simpl; rewrite ?decide_False by done; rewrite assoc_filter_ne by done; exact IH.
Qed.

(** ** Two tenants, then one

    The encoder of the example knows these two configs. *)

#[local] Existing Instances ex_yaml ex_collector.

Definition ex_tree_two : ynode := forwarding_tree (sort_pipelines ex_inputs).
Definition ex_tree_one : ynode := forwarding_tree (sort_pipelines [ex_rp "umbrella" "cust_2"]).

#[local] Instance yscalar_eq_dec : EqDecision yscalar.
Proof. solve_decision. Defined.

Fixpoint ynode_eqb (a b : ynode) : bool :=
  match a, b with
  | YScalar s, YScalar s' => bool_decide (s = s')
  | YSeq f l, YSeq f' l' =>
      bool_decide (f = f') &&
      (fix go l l' := match l, l' with
       | [], [] => true
       | x :: l, y :: l' => ynode_eqb x y && go l l'
       | _, _ => false
       end) l l'
  | YMap m, YMap m' =>
      (fix go m m' := match m, m' with
       | [], [] => true
       | (k, x) :: m, (k', y) :: m' => bool_decide (k = k') && ynode_eqb x y && go m m'
       | _, _ => false
       end) m m'
  | _, _ => false
  end.

Lemma ynode_eqb_eq : forall a b, ynode_eqb a b = true -> a = b.
Proof.
  fix IH 1. intros [s|f l|m] [s'|f' l'|m']; try discriminate; cbn [ynode_eqb].
  - intros Hs%bool_decide_eq_true. by subst.
  - intros [Hf%bool_decide_eq_true Hl]%andb_prop. subst. f_equal. revert l' Hl.
    induction l as [|x l IHl]; intros [|y l']; try discriminate; [done|]. intros [Hx Hl]%andb_prop.
    f_equal; [by apply IH|by apply IHl].
  - intros Hm. f_equal. revert m' Hm. induction m as [|[k x] m IHm]; intros [|[k' y] m']; try discriminate; [done|].
    intros [[Hk%bool_decide_eq_true Hx]%andb_prop Hm]%andb_prop. subst. f_equal; [f_equal; by apply IH|by apply IHm].
Qed.

Definition ex_encode (t : ynode) : result string string :=
  if ynode_eqb t ex_tree_two then Ok "two" else if ynode_eqb t ex_tree_one then Ok "one" else Err "unknown".
Definition ex_encoder : Yaml := Build_Yaml ex_encode (fun _ => true).
Definition ex_cluster : Cluster :=
  Build_Cluster (fun s => Ok (node_value (if decide (s = "two") then ex_tree_two else ex_tree_one))) rfc7386 None.
#[local] Remove Hints ex_yaml : typeclass_instances.
#[local] Existing Instances ex_encoder ex_cluster.

Lemma ex_cluster_laws : ClusterLaws.
Proof.
  split.
  - intros t p k Hk. cbn [merge_patch ex_cluster]. rewrite rfc7386_member. simpl in Hk. by rewrite Hk.
  - intros t p k v Hk Hv. cbn [merge_patch ex_cluster]. rewrite rfc7386_member. simpl in Hk. rewrite Hk. by destruct v.
  - intros t s. cbn [marshalYAML ex_encoder Unmarshal ex_cluster]. unfold ex_encode.
    destruct (ynode_eqb t ex_tree_two) eqn:H2; [intros [= <-]; by apply ynode_eqb_eq in H2 as ->|].
    destruct (ynode_eqb t ex_tree_one) eqn:H1; [|done]. intros [= <-]. by apply ynode_eqb_eq in H1 as ->.
Qed.

(** The tenant "acme" is removed; its exporter and password stay. *)
Lemma k8s_keeps_removed_exporters_witness :
  let dist := MkK8sDistributor "forwarding" "otel" in
  let cr1 := (k8s_Distribute dist "two" (JObj [])).2 in
  exists v, member_at ["spec"; "config"; "exporters"; "clickhouse/acme__main__0"] (k8s_Distribute dist "one" cr1).2 = Some v.
Proof.
  intros dist cr1.
  destruct (k8s_keeps_removed_exporters (LAWS := ex_cluster_laws) dist ex_inputs [ex_rp "umbrella" "cust_2"] (JObj []) "two" "one"
    (StateApplied, "patched OpenTelemetryCollector otel/forwarding") (StateApplied, "patched OpenTelemetryCollector otel/forwarding")
    cr1 (k8s_Distribute dist "one" cr1).2 (ex_rp "acme" "cust_1") 0
    (MkNode "clickhouse" None (Some [("endpoint", JStr "tcp://ch:9000"); ("password", JStr "pw")]))) as [old Ho].
  - exact ex_inputs_ok.
  - right. left.
  - reflexivity.
  - vm_compute. reflexivity.
  - vm_compute. reflexivity.
  - reflexivity.
  - reflexivity.
  - apply (bool_decide_unpack _). vm_compute. done.
  - eexists. exact Ho.
Defined.
