(* ===== verification/OpampRegistry.v ===== *)
(** The in-memory registry of live OpAMP connections
    (internal/opamp/registry.go).

    A connection is a number (the identity of the transport's object); [None]
    is a nil connection.  The map of states is keyed by instance UID. *)
From S2P Require Import Prelude GoStrings StoreTypes.

Open Scope string_scope.

Record agentConn : Type := MkAgentConn {
  ac_conn : option N;
  ac_instanceUID : string;
  ac_agentID : N;
  ac_customerID : N;
  ac_capabilities : Z;
  ac_lastAckedHash : option string;
  ac_remoteConfigStatus : string;
  ac_healthy : option bool;
  ac_lastSeen : Z;
  ac_dirtySeen : bool;
  ac_tokenOffered : bool
}.

Definition set_conn (c : option N) (now : Z) (a : agentConn) : agentConn :=
  MkAgentConn c (ac_instanceUID a) (ac_agentID a) (ac_customerID a) (ac_capabilities a) (ac_lastAckedHash a)
    (ac_remoteConfigStatus a) (ac_healthy a) now true (ac_tokenOffered a).
Definition set_capabilities (z : Z) (a : agentConn) : agentConn :=
  MkAgentConn (ac_conn a) (ac_instanceUID a) (ac_agentID a) (ac_customerID a) z (ac_lastAckedHash a)
    (ac_remoteConfigStatus a) (ac_healthy a) (ac_lastSeen a) (ac_dirtySeen a) (ac_tokenOffered a).
Definition set_lastAckedHash (h : option string) (a : agentConn) : agentConn :=
  MkAgentConn (ac_conn a) (ac_instanceUID a) (ac_agentID a) (ac_customerID a) (ac_capabilities a) h
    (ac_remoteConfigStatus a) (ac_healthy a) (ac_lastSeen a) (ac_dirtySeen a) (ac_tokenOffered a).
Definition set_remoteConfigStatus (s : string) (a : agentConn) : agentConn :=
  MkAgentConn (ac_conn a) (ac_instanceUID a) (ac_agentID a) (ac_customerID a) (ac_capabilities a)
    (ac_lastAckedHash a) s (ac_healthy a) (ac_lastSeen a) (ac_dirtySeen a) (ac_tokenOffered a).
Definition set_healthy (b : bool) (a : agentConn) : agentConn :=
  MkAgentConn (ac_conn a) (ac_instanceUID a) (ac_agentID a) (ac_customerID a) (ac_capabilities a)
    (ac_lastAckedHash a) (ac_remoteConfigStatus a) (Some b) (ac_lastSeen a) (ac_dirtySeen a) (ac_tokenOffered a).
Definition set_seen (t : Z) (dirty : bool) (a : agentConn) : agentConn :=
  MkAgentConn (ac_conn a) (ac_instanceUID a) (ac_agentID a) (ac_customerID a) (ac_capabilities a)
    (ac_lastAckedHash a) (ac_remoteConfigStatus a) (ac_healthy a) t dirty (ac_tokenOffered a).
Definition set_tokenOffered (a : agentConn) : agentConn :=
  MkAgentConn (ac_conn a) (ac_instanceUID a) (ac_agentID a) (ac_customerID a) (ac_capabilities a)
    (ac_lastAckedHash a) (ac_remoteConfigStatus a) (ac_healthy a) (ac_lastSeen a) (ac_dirtySeen a) true.

Record registry : Type := MkRegistry {
  byUID : gmap string agentConn;
  byConn : gmap N string
}.

Definition newRegistry : registry := MkRegistry ∅ ∅.

Definition reg_count (r : registry) : nat := size (byUID r).

Definition reg_get (uid : string) (r : registry) : option agentConn := byUID r !! uid.

Definition delete_conn (c : option N) (m : gmap N string) : gmap N string :=
  match c with Some c => delete c m | None => m end.

Definition reg_put (st : agentConn) (r : registry) : registry :=
  let key := ac_instanceUID st in
  let m := match byUID r !! key with
           | Some prev => if bool_decide (ac_conn prev = ac_conn st) then byConn r
                          else delete_conn (ac_conn prev) (byConn r)
           | None => byConn r
           end in
  MkRegistry (<[key := st]> (byUID r))
    (match ac_conn st with Some c => <[c := key]> m | None => m end).

Definition reg_touch (uid : string) (at_ : Z) (r : registry) : registry :=
  MkRegistry (alter (fun st => set_seen (if after at_ (ac_lastSeen st) then at_ else ac_lastSeen st) true st) uid (byUID r))
    (byConn r).

Definition reg_update (uid : string) (f : agentConn -> agentConn) (r : registry) : registry :=
  MkRegistry (alter f uid (byUID r)) (byConn r).

Definition reg_removeConn (conn : N) (r : registry) : option agentConn * registry :=
  match byConn r !! conn with
  | None => (None, r)
  | Some key =>
      let m := delete conn (byConn r) in
      match byUID r !! key with
      | Some st => if bool_decide (ac_conn st = Some conn)
                   then (Some st, MkRegistry (delete key (byUID r)) m)
                   else (None, MkRegistry (byUID r) m)
      | None => (None, MkRegistry (byUID r) m)
      end
  end.

Definition reg_isConnected (uid : string) (r : registry) : bool := bool_decide (is_Some (byUID r !! uid)).

Definition reg_connsForCustomer (customerID : N) (r : registry) : list agentConn :=
  filter (fun st => ac_customerID st = customerID /\ ac_agentID st <> uuid_nil) (snd <$> map_to_list (byUID r)).

(** The timestamps to flush, with the dirty marks cleared; when two states share
    an agent id, the one the iteration visits last wins. *)
Definition reg_drainDirtySeen (r : registry) : gmap N Z * registry :=
  let dirty st := ac_dirtySeen st && negb (bool_decide (ac_agentID st = uuid_nil)) in
  (foldl (fun m st => if dirty st then <[ac_agentID st := ac_lastSeen st]> m else m) ∅
     (snd <$> map_to_list (byUID r)),
   MkRegistry ((fun st => if dirty st then set_seen (ac_lastSeen st) false st else st) <$> byUID r) (byConn r)).

(** ** Representation invariant

    Every state is stored under its own UID, and the connection index points to
    states whose current connection it is. *)
Definition reg_wf (r : registry) : Prop :=
  (forall u st, byUID r !! u = Some st -> ac_instanceUID st = u) /\
  (forall c u, byConn r !! c = Some u -> exists st, byUID r !! u = Some st /\ ac_conn st = Some c).

Lemma reg_wf_new : reg_wf newRegistry.
Proof. split; intros *; simpl; by rewrite lookup_empty. Qed.

Lemma reg_wf_update uid f r :
  (forall st, ac_instanceUID (f st) = ac_instanceUID st /\ ac_conn (f st) = ac_conn st) ->
  reg_wf r -> reg_wf (reg_update uid f r).
Proof.
  intros Hf [H1 H2]. split; simpl.
  - intros u st. rewrite lookup_alter_Some. intros [(-> & st0 & Hst & ->)|[_ ?]]; [|by apply H1].
    rewrite (proj1 (Hf st0)). by apply H1.
  - intros c u (st & Hst & Hc)%H2. destruct (decide (uid = u)) as [->|Hne].
    + exists (f st). rewrite lookup_alter_eq, Hst. split; [done|]. by rewrite (proj2 (Hf st)).
    + exists st. by rewrite lookup_alter_ne.
Qed.

Lemma reg_wf_put st r : reg_wf r -> reg_wf (reg_put st r).
Proof.
  intros [H1 H2]. split; simpl.
  - intros u st'. rewrite lookup_insert_Some. intros [[<- <-]|[_ ?]]; [done|by apply H1].
  - intros c u Hc.
    assert ((ac_conn st = Some c /\ u = ac_instanceUID st) \/
            (ac_conn st <> Some c /\ byConn r !! c = Some u /\
             (u = ac_instanceUID st -> exists prev, byUID r !! u = Some prev /\ ac_conn prev = ac_conn st))) as Hcases.
    { set (m := match byUID r !! _ with Some _ => _ | None => _ end) in Hc.
      assert (forall c, m !! c = Some u -> byConn r !! c = Some u /\
        (u = ac_instanceUID st -> exists prev, byUID r !! u = Some prev /\ (ac_conn prev = ac_conn st \/ ac_conn prev <> Some c))) as Hm.
      { intros c'. unfold m. destruct (byUID r !! ac_instanceUID st) as [prev|] eqn:Hp.
        - case_bool_decide as Heq.
          + intros Hl. split; [done|]. intros ->. exists prev. auto.
          + unfold delete_conn. destruct (ac_conn prev) as [pc|] eqn:Hpc.
            * intros [Hne Hl]%lookup_delete_Some. split; [done|]. intros ->. exists prev. split; [done|]. right. congruence.
            * intros Hl. split; [done|]. intros ->. exists prev. split; [done|]. right. congruence.
        - intros Hl. split; [done|]. intros ->. destruct (H2 _ _ Hl) as (x & Hx & _). congruence. }
      destruct (ac_conn st) as [sc|] eqn:Hsc.
      - apply lookup_insert_Some in Hc as [[-> <-]|[Hne Hc]]; [by left|]. right. split; [congruence|].
        destruct (Hm c Hc) as [Hl Himp]. split; [done|]. intros Hu. destruct (Himp Hu) as (prev & Hp & [?|Hno]).
        + by exists prev.
        + destruct (H2 _ _ Hl) as (x & Hx & Hxc). congruence.
      - right. split; [done|]. destruct (Hm c Hc) as [Hl Himp]. split; [done|]. intros Hu.
        destruct (Himp Hu) as (prev & Hp & [?|Hno]); [by exists prev|].
        destruct (H2 _ _ Hl) as (x & Hx & Hxc). congruence. }
    destruct Hcases as [[Hst ->]|(Hne & Hl & Himp)].
    + exists st. by rewrite lookup_insert_eq.
    + destruct (decide (ac_instanceUID st = u)) as [Hu|Hu].
      * destruct (Himp (eq_sym Hu)) as (prev & Hp & Hpc). destruct (H2 _ _ Hl) as (x & Hx & Hxc). congruence.
      * rewrite lookup_insert_ne by done. by apply H2.
Qed.

(** Closing a connection removes it from the index; the state goes with it
    exactly when the connection is still its current one. *)
Lemma reg_removeConn_spec conn r : reg_wf r ->
  let '(o, r') := reg_removeConn conn r in
  reg_wf r' /\ byConn r' !! conn = None /\
  match o with
  | Some st => byUID r !! ac_instanceUID st = Some st /\ ac_conn st = Some conn
               /\ byUID r' = delete (ac_instanceUID st) (byUID r)
  | None => byUID r' = byUID r /\ byConn r !! conn = None
  end.
Proof.
  intros [H1 H2]. unfold reg_removeConn. destruct (byConn r !! conn) as [key|] eqn:Hk.
  - destruct (H2 _ _ Hk) as (st & Hst & Hc). rewrite Hst, bool_decide_true by done.
    pose proof (H1 _ _ Hst) as Hu. split_and!; simpl; try done; [split; simpl|by rewrite lookup_delete_eq|congruence..].
    + intros u st' [_ ?]%lookup_delete_Some. by apply H1.
    + intros c u [Hne Hl]%lookup_delete_Some. destruct (H2 _ _ Hl) as (st' & Hst' & Hc').
      exists st'. split; [|done]. rewrite lookup_delete_ne; [done|]. intros ->. congruence.
  - done.
Qed.

Lemma reg_wf_drain r : reg_wf r -> reg_wf (reg_drainDirtySeen r).2.
Proof.
  intros [H1 H2]. split; simpl.
  - intros u st. rewrite lookup_fmap_Some. intros (st0 & <- & Hst). apply H1 in Hst. by case_match.
  - intros c u (st & Hst & Hc)%H2. rewrite lookup_fmap, Hst. simpl. eexists. split; [done|]. by case_match.
Qed.

(** The registry's operations keep its two maps consistent. *)
Theorem registry_invariant :
  reg_wf newRegistry /\
  (forall r st, reg_wf r -> reg_wf (reg_put st r)) /\
  (forall r uid at_, reg_wf r -> reg_wf (reg_touch uid at_ r)) /\
  (forall r conn, reg_wf r -> reg_wf (reg_removeConn conn r).2) /\
  (forall r, reg_wf r -> reg_wf (reg_drainDirtySeen r).2).
Proof.
  split_and!; intros.
  - apply reg_wf_new.
  - by apply reg_wf_put.
  - by apply (reg_wf_update uid).
  - pose proof (reg_removeConn_spec conn r H) as Hs. destruct (reg_removeConn conn r). by destruct Hs.
  - by apply reg_wf_drain.
Qed.
