(* ===== verification/OpampHandler.v ===== *)
(** The OpAMP message handler (internal/opamp/handler.go): authentication,
    enrollment, lifecycle tracking and config offers.

    The handler works against a store and a config renderer; both are
    interfaces here as in the code, so that its isolation properties hold for
    every store, and are instantiated with the PostgreSQL store. *)
From S2P Require Import Prelude GoStrings Json StoreTypes Tokens Enrollment OpampRegistry PgCore PgFleet.
From Corelib Require Import SpecFloat.

Open Scope string_scope.

(** ** Interfaces *)

(** [Store]: the persistence the handler needs.  [S] is the database's state;
    every call may fail and a failing call may still change it. *)
Class FleetStore (S : Type) := {
  fs_ActiveBootstrapTokensByPrefix : string -> S -> result (list EnrollToken) store_err;
  fs_AgentsByTokenPrefix : string -> S -> result (list AgentAuth) store_err;
  fs_SetAgentToken : N -> string -> string -> Z -> S -> result unit store_err * S;
  fs_EnrollAgent : Z -> NewAgent -> S -> result Agent store_err * S;
  fs_GetAgentByInstanceUID : string -> S -> result Agent store_err;
  fs_ListAgents : AgentFilter -> S -> result (list Agent) store_err;
  fs_UpdateAgentDescription : N -> option string -> option string -> option jval -> option Z -> S -> result unit store_err * S;
  fs_SetAgentConnected : Z -> N -> bool -> Z -> S -> result unit store_err * S;
  fs_SetAgentAssignedConfig : N -> string -> S -> result unit store_err * S;
  fs_SetAgentAckedConfig : N -> option string -> S -> result unit store_err * S;
  fs_SetAgentEffectiveConfig : N -> string -> string -> S -> result unit store_err * S;
  fs_SetAgentRemoteConfigStatus : Z -> N -> string -> option string -> option string -> option jval -> S -> result unit store_err * S;
  fs_SetAgentHealth : Z -> N -> option jval -> bool -> option string -> S -> result unit store_err * S;
  fs_TouchAgents : gmap N Z -> S -> result unit store_err * S
}.

(** The numbers of the OpAMP protocol, from the protobufs package. *)
Class Protocol := {
  ServerCap_AcceptsStatus : Z;
  ServerCap_OffersRemoteConfig : Z;
  ServerCap_AcceptsEffectiveConfig : Z;
  ServerCap_OffersConnectionSettings : Z;
  AgentCap_AcceptsRemoteConfig : Z;
  AgentCap_AcceptsOpAMPConnectionSettings : Z;
  Flag_ReportFullState : Z
}.

(** Formatting by encoding/json and time, of values whose text plays no role in
    the handler; a double that is NaN or infinite cannot be encoded. *)
Class Formats := {
  json_double : spec_float -> option string;
  format_nano : Z -> string
}.

(** ** Protobuf messages *)

Inductive AnyValue : Type :=
| AVString (s : string)
| AVBool (b : bool)
| AVInt (z : Z)
| AVDouble (d : spec_float)
| AVBytes (b : string)
| AVArray (l : list AnyValue)
| AVKvlist (l : list (string * AnyValue))
| AVNone.

Record AgentDescription : Type := MkDescription {
  IdentifyingAttributes : list (string * AnyValue);
  NonIdentifyingAttributes : list (string * AnyValue)
}.

Inductive ComponentHealth : Type :=
  MkHealth (healthy : bool) (status lastError : string) (startTimeUnixNano statusTimeUnixNano : Z)
    (children : list (string * ComponentHealth)).

Inductive RemoteConfigStatuses : Type := RCS_UNSET | RCS_APPLIED | RCS_APPLYING | RCS_FAILED | RCS_other (n : Z).

Record RemoteConfigStatus : Type := MkRemoteConfigStatus {
  LastRemoteConfigHash : string;
  Status : RemoteConfigStatuses;
  ErrorMessage : string
}.

Record AgentToServer : Type := MkAgentToServer {
  msg_InstanceUid : string;
  msg_AgentDescription : option AgentDescription;
  msg_Capabilities : Z;
  msg_Health : option ComponentHealth;
  (** the bodies of the config map *)
  msg_EffectiveConfig : option (gmap string string);
  msg_RemoteConfigStatus : option RemoteConfigStatus
}.

Record ConnectionOffer : Type := MkConnectionOffer {
  offer_Hash : string;
  offer_Authorization : string;
  offer_DestinationEndpoint : string
}.

Record ServerToAgent : Type := MkServerToAgent {
  rsp_InstanceUid : string;
  rsp_Error : option string;
  (** body and hash of the offered config *)
  rsp_RemoteConfig : option (string * string);
  rsp_ConnectionSettings : option ConnectionOffer;
  rsp_Flags : Z;
  rsp_Capabilities : Z
}.

Record ConnAuth : Type := MkConnAuth {
  TokenID : N;
  CustomerID : N;
  AgentID : option N;
  ViaAgentToken : bool
}.

(** ** Mapping helpers *)

Section helpers.
Context `{Formats}.

Definition obj_set {V} (k : string) (v : V) (m : list (string * V)) : list (string * V) :=
  (filter (fun p => p.1 <> k) m ++ [(k, v)])%list.

(** All the values of an object, or the failure of one. *)
Fixpoint obj_all (m : list (string * option jval)) : option (list (string * jval)) :=
  match m with
  | [] => Some []
  | (k, v) :: m => v ← v; m ← obj_all m; Some ((k, v) :: m)
  end.

(** The Go value of an attribute as JSON encodes it, [None] when it cannot. *)
Fixpoint anyValueToGo (v : AnyValue) : option jval :=
  match v with
  | AVString s => Some (JStr s)
  | AVBool b => Some (JBool b)
  | AVInt z => Some (JInt z)
  | AVDouble d => JNum <$> json_double d
  | AVBytes b => Some (JStr (hex_encode b))
  | AVArray l =>
      JArr <$> (fix go l := match l with
                            | [] => Some []
                            | x :: l => y ← anyValueToGo x; ys ← go l; Some (y :: ys)
                            end) l
  | AVKvlist l =>
      JObj <$> obj_all ((fix go (acc : list (string * option jval)) l :=
                           match l with
                           | [] => acc
                           | (k, x) :: l => go (obj_set k (anyValueToGo x) acc) l
                           end) [] l)
  | AVNone => Some JNull
  end.

Definition attrsToMap (l : list (string * AnyValue)) : option jval := anyValueToGo (AVKvlist l).

(** [None] when the description cannot be marshalled. *)
Definition descriptionJSON (d : AgentDescription) : option jval :=
  i ← attrsToMap (IdentifyingAttributes d);
  n ← attrsToMap (NonIdentifyingAttributes d);
  Some (JObj [("identifying", i); ("nonIdentifying", n)]).

Definition string_value (v : AnyValue) : string := match v with AVString s => s | _ => "" end.

(** Display name and version. *)
Definition agentIdentity (d : AgentDescription) : option string * option string :=
  let '(hostName, serviceName, version) :=
    foldl (fun '(h, s, v) '(k, x) =>
             if decide (k = "host.name") then (string_value x, s, v)
             else if decide (k = "service.name") then (h, string_value x, v)
             else if decide (k = "service.version") then
               (h, s, if decide (string_value x = "") then v else Some (string_value x))
             else (h, s, v))
      ("", "", None) (IdentifyingAttributes d) in
  let hostName :=
    foldl (fun h '(k, x) => if decide (k = "host.name") then if decide (h = "") then string_value x else h else h)
      hostName (NonIdentifyingAttributes d) in
  (if negb (bool_decide (hostName = "")) then Some hostName
   else if negb (bool_decide (serviceName = "")) then Some serviceName else None, version).

Definition str_field (k s : string) : list (string * jval) := if decide (s = "") then [] else [(k, JStr s)].
Definition time_field (k : string) (t : Z) : list (string * jval) :=
  if (t =? 0)%Z then [] else [(k, JStr (format_nano t))].

Fixpoint componentHealthToMap (h : ComponentHealth) : jval :=
  match h with
  | MkHealth healthy status lastError start st children =>
      JObj ([("healthy", JBool healthy)] ++ str_field "status" status ++ str_field "lastError" lastError
            ++ time_field "startTime" start ++ time_field "statusTime" st
            ++ match children with
               | [] => []
               | _ => [("components",
                        JObj ((fix go l := match l with
                                           | [] => []
                                           | (k, c) :: l => (k, componentHealthToMap c) :: go l
                                           end) children))]
               end)%list
  end.

Definition mapRemoteConfigStatus (s : RemoteConfigStatuses) : string :=
  match s with
  | RCS_APPLYING => RemoteConfigApplying
  | RCS_APPLIED => RemoteConfigApplied
  | RCS_FAILED => RemoteConfigFailed
  | _ => RemoteConfigUnset
  end.

(** The unnamed entry when present, otherwise the single entry. *)
Definition effectiveConfigBody (cm : gmap string string) : option string :=
  match cm !! "" with
  | Some b => Some b
  | None => match map_to_list cm with
            | [(_, b)] => Some b
            | _ => None
            end
  end.
End helpers.

(** ** The handler *)

(** An event handed to the webhook dispatcher. *)
Record fleet_event : Type := MkFleetEvent {
  fe_type : string;
  fe_agent : N;
  fe_customer : N;
  fe_detail : option jval
}.

(** The handler's world: the database, the registry, the events emitted and the
    connections it has told to disconnect. *)
Record world (S : Type) : Type := MkWorld {
  w_store : S;
  w_reg : registry;
  w_emitted : list fleet_event;
  w_disconnected : list (option N)
}.
Arguments MkWorld {S}.
Arguments w_store {S}.
Arguments w_reg {S}.
Arguments w_emitted {S}.
Arguments w_disconnected {S}.

(** What the outside world supplies to one message: the handler's clock, the
    database's, a fresh id and random bytes. *)
Record msg_env : Type := MkMsgEnv {
  me_now : Z;
  me_db_now : Z;
  me_token_now : Z;
  me_fresh_id : N;
  me_token_bytes : option string
}.

Section handler.
Context {S : Type} `{!FleetStore S} `{!Protocol} `{!Formats} `{!Sha256}.
(** [RenderEdgeCurrent] reads the database; [None] is an error. *)
Context (RenderEdgeCurrent : N -> S -> option string).
(** Whether an event sink is registered, and the public endpoint. *)
Context (sink : bool) (publicEndpoint : string).

Definition with_store (s : S) (w : world S) : world S := MkWorld s (w_reg w) (w_emitted w) (w_disconnected w).
Definition with_reg (r : registry) (w : world S) : world S := MkWorld (w_store w) r (w_emitted w) (w_disconnected w).

(** A store call whose error is only logged, and one that reports it. *)
Definition store_log {A} (f : S -> result A store_err * S) (w : world S) : world S :=
  with_store (f (w_store w)).2 w.
Definition store_call {A} (f : S -> result A store_err * S) (w : world S) : bool * world S :=
  let '(r, s) := f (w_store w) in (is_ok r, with_store s w).

Definition emitEvent (eventType : string) (agentID customerID : N) (detail : option jval) (w : world S) : world S :=
  if sink then MkWorld (w_store w) (w_reg w) (w_emitted w ++ [MkFleetEvent eventType agentID customerID detail])%list
                 (w_disconnected w)
  else w.

(** The handler holds the very state it has put into the registry: a field is
    written through both. *)
Definition live_set (f : agentConn -> agentConn) (st : agentConn) (w : world S) : agentConn * world S :=
  (f st, with_reg (reg_update (ac_instanceUID st) f (w_reg w)) w).

Definition disconnect (conn : option N) (w : world S) : world S :=
  match conn with
  | None => w
  | Some _ => MkWorld (w_store w) (w_reg w) (w_emitted w) (w_disconnected w ++ [conn])%list
  end.

(** *** Authentication *)

Inductive auth_err : Type :=
| ErrMissingBearer
| ErrMalformedToken
| ErrLookup (e : store_err)
| ErrUnknownToken
| ErrCustomerIs (status : string)
| ErrTokenUnusable (e : token_err).

Fixpoint find_agent_auth (hash : string) (l : list AgentAuth) : option AgentAuth :=
  match l with
  | [] => None
  | a :: l => if bool_decide (hash = AgentAuth_TokenHash a) then Some a else find_agent_auth hash l
  end.

Definition authenticateAgentToken (prefix token : string) (s : S) : result ConnAuth auth_err :=
  match fs_AgentsByTokenPrefix prefix s with
  | Err e => Err (ErrLookup e)
  | Ok agents =>
      match find_agent_auth (HashAPIKey token) agents with
      | None => Err ErrUnknownToken
      | Some a =>
          if negb (bool_decide (AgentAuth_CustomerStatus a = CustomerActive))
          then Err (ErrCustomerIs (AgentAuth_CustomerStatus a))
          else Ok (MkConnAuth uuid_nil (AgentAuth_CustomerID a) (Some (AgentAuth_AgentID a)) true)
      end
  end.

Fixpoint find_enroll_token (hash : string) (l : list EnrollToken) : option EnrollToken :=
  match l with
  | [] => None
  | t :: l => if bool_decide (hash = EnrollToken_TokenHash t) then Some t else find_enroll_token hash l
  end.

Definition authenticateBootstrapToken (now : Z) (prefix token : string) (s : S) : result ConnAuth auth_err :=
  match fs_ActiveBootstrapTokensByPrefix prefix s with
  | Err e => Err (ErrLookup e)
  | Ok toks =>
      match find_enroll_token (HashAPIKey token) toks with
      | None => Err ErrUnknownToken
      | Some t =>
          match TokenUsable t now with
          | Some e => Err (ErrTokenUnusable e)
          | None => Ok (MkConnAuth (EnrollToken_TokenID t) (EnrollToken_CustomerID t) None false)
          end
      end
  end.

Definition Authenticate (now : Z) (authorization : string) (s : S) : result ConnAuth auth_err :=
  match cut_prefix "Bearer " authorization with
  | None => Err ErrMissingBearer
  | Some token =>
      if decide (token = "") then Err ErrMissingBearer
      else
        match ParseAgentTokenPrefix token with
        | Some prefix => authenticateAgentToken prefix token s
        | None =>
            match ParseBootstrapTokenPrefix token with
            | Some prefix => authenticateBootstrapToken now prefix token s
            | None => Err ErrMalformedToken
            end
        end
  end.

(** *** Resolving the agent of an instance UID *)

Inductive resolved : Type :=
| Resolved (st : agentConn)
| AskFullState
| Reject.

(** [fuel] bounds the re-resolution after a lost enrollment race: the second
    round carries no description and cannot enroll. *)
Fixpoint resolveAgent (fuel : nat) (e : msg_env) (conn : option N) (auth : ConnAuth) (uid : string)
    (desc : option AgentDescription) (caps : Z) (w : world S) : resolved * world S :=
  match fuel with
  | O => (AskFullState, w)
  | Datatypes.S fuel =>
      match fs_GetAgentByInstanceUID uid (w_store w) with
      | Ok agent =>
          if bool_decide (Agent_CustomerID agent = Some (CustomerID auth)) then
            (Resolved (MkAgentConn conn uid (Agent_ID agent) (CustomerID auth)
                         (to_uint64 (default 0%Z (Agent_Capabilities agent)))
                         (Agent_AckedConfigHash agent) (Agent_RemoteConfigStatus agent) (Agent_Healthy agent)
                         time_zero false false), w)
          else (Reject, w)
      | Err ErrNotFound =>
          match desc with
          | None => (AskFullState, w)
          | Some d =>
              let '(name, version) := agentIdentity d in
              let new := MkNewAgent (me_fresh_id e) uid (CustomerID auth) AgentClassEdge name version
                           (descriptionJSON d) (wrap64 caps) (TokenID auth) in
              match fs_EnrollAgent (me_db_now e) new (w_store w) with
              | (Ok agent, s) =>
                  (Resolved (MkAgentConn conn uid (Agent_ID agent) (CustomerID auth) caps None
                               (Agent_RemoteConfigStatus agent) None time_zero false false), with_store s w)
              | (Err ErrConflict, s) => resolveAgent fuel e conn auth uid None 0 (with_store s w)
              | (Err _, s) => (AskFullState, with_store s w)
              end
          end
      | Err _ => (AskFullState, w)
      end
  end.

(** *** Reports *)

(** Whether a report acknowledges a hash other than the remembered one. *)
Definition report_newHash (rcs : RemoteConfigStatus) (st : agentConn) : bool :=
  negb (bool_decide (LastRemoteConfigHash rcs = ""))
  && negb (bool_decide (LastRemoteConfigHash rcs = default "" (ac_lastAckedHash st))).

(** The first switch of handleRemoteConfigStatus: the acknowledged hash is
    remembered, and cleared by an explicit UNSET without a hash. *)
Definition recordAck (rcs : RemoteConfigStatus) (st : agentConn) (w : world S) : agentConn * world S :=
  let acked := LastRemoteConfigHash rcs in
  if negb (bool_decide (acked = "")) then
    let newHash := report_newHash rcs st in
    let '(st, w) := live_set (set_lastAckedHash (Some acked)) st w in
    (st, if newHash then store_log (fs_SetAgentAckedConfig (ac_agentID st) (Some acked)) w else w)
  else if bool_decide (mapRemoteConfigStatus (Status rcs) = RemoteConfigUnset) then
    let '(st, w) := live_set (set_lastAckedHash None) st w in
    (st, store_log (fs_SetAgentAckedConfig (ac_agentID st) None) w)
  else (st, w).

Definition handleRemoteConfigStatus (e : msg_env) (rcs : RemoteConfigStatus) (st : agentConn) (w : world S)
  : agentConn * world S :=
  let status := mapRemoteConfigStatus (Status rcs) in
  let acked := LastRemoteConfigHash rcs in
  let newHash := report_newHash rcs st in
  let '(st, w) := recordAck rcs st w in
  let terminal := bool_decide (status = RemoteConfigApplied) || bool_decide (status = RemoteConfigFailed) in
  if bool_decide (status = ac_remoteConfigStatus st) && negb (newHash && terminal) then (st, w)
  else
    let failed := bool_decide (status = RemoteConfigFailed) in
    let eventType := if bool_decide (status = RemoteConfigApplied) then Some AgentEventConfigApplied
                     else if failed then Some AgentEventConfigFailed else None in
    let hasErr := failed && negb (bool_decide (ErrorMessage rcs = "")) in
    let errMsg := if hasErr then Some (ErrorMessage rcs) else None in
    let detail := JObj (("hash", JStr (hex_encode acked))
                          :: (if hasErr then [("error", JStr (ErrorMessage rcs))] else [])) in
    let '(ok, w) := store_call (fs_SetAgentRemoteConfigStatus (me_db_now e) (ac_agentID st) status errMsg
                                  eventType (Some detail)) w in
    if negb ok then (st, w)
    else
      let w := if failed then emitEvent WebhookEventAgentConfigFailed (ac_agentID st) (ac_customerID st) (Some detail) w
               else w in
      live_set (set_remoteConfigStatus status) st w.

Definition handleEffectiveConfig (cm : gmap string string) (st : agentConn) (w : world S) : world S :=
  match effectiveConfigBody cm with
  | None => w
  | Some body => store_log (fs_SetAgentEffectiveConfig (ac_agentID st) body (sha256 body)) w
  end.

Definition handleHealth (e : msg_env) (h : ComponentHealth) (st : agentConn) (w : world S) : agentConn * world S :=
  let '(MkHealth healthy status lastError _ _ _) := h in
  let flip := if bool_decide (ac_healthy st = Some healthy) then None
              else Some (if healthy then AgentEventHealthy else AgentEventUnhealthy) in
  let '(ok, w) := store_call (fs_SetAgentHealth (me_db_now e) (ac_agentID st) (Some (componentHealthToMap h))
                                healthy flip) w in
  if negb ok then (st, w)
  else
    let w := if bool_decide (is_Some flip) && negb healthy then
               emitEvent WebhookEventAgentUnhealthy (ac_agentID st) (ac_customerID st)
                 (Some (JObj (str_field "status" status ++ str_field "lastError" lastError)%list)) w
             else w in
    live_set (set_healthy healthy) st w.

(** *** Offers *)

Definition serverCapabilities : Z :=
  Z.lor (Z.lor ServerCap_AcceptsStatus ServerCap_OffersRemoteConfig) ServerCap_AcceptsEffectiveConfig.

Definition has_cap (caps bit : Z) : bool := negb (Z.land caps bit =? 0)%Z.

Definition maybeOfferConfig (st : agentConn) (resp : ServerToAgent) (w : world S) : ServerToAgent * world S :=
  if negb (has_cap (ac_capabilities st) AgentCap_AcceptsRemoteConfig) then (resp, w)
  else
    match RenderEdgeCurrent (ac_customerID st) (w_store w) with
    | None => (resp, w)
    | Some desired =>
        let hash := sha256 desired in
        let w := store_log (fs_SetAgentAssignedConfig (ac_agentID st) hash) w in
        if bool_decide (hash = default "" (ac_lastAckedHash st)) then (resp, w)
        else (MkServerToAgent (rsp_InstanceUid resp) (rsp_Error resp) (Some (desired, hash))
                (rsp_ConnectionSettings resp) (Z.lor (rsp_Flags resp) Flag_ReportFullState) (rsp_Capabilities resp), w)
    end.

Definition maybeOfferAgentToken (e : msg_env) (st : agentConn) (resp : ServerToAgent) (w : world S)
  : ServerToAgent * world S :=
  if ac_tokenOffered st then (resp, w)
  else if negb (has_cap (ac_capabilities st) AgentCap_AcceptsOpAMPConnectionSettings) then (resp, w)
  else
    match GenerateAgentToken (me_token_bytes e) with
    | Err _ => (resp, w)
    | Ok gen =>
        let '(ok, w) := store_call (fs_SetAgentToken (ac_agentID st) (GeneratedKey_Prefix gen) (GeneratedKey_Hash gen)
                                      (me_token_now e)) w in
        if negb ok then (resp, w)
        else
          let '(_, w) := live_set set_tokenOffered st w in
          (MkServerToAgent (rsp_InstanceUid resp) (rsp_Error resp) (rsp_RemoteConfig resp)
             (Some (MkConnectionOffer (sha256 (GeneratedKey_Prefix gen)) ("Bearer " +:+ GeneratedKey_Secret gen)
                      publicEndpoint))
             (rsp_Flags resp) (Z.lor (rsp_Capabilities resp) ServerCap_OffersConnectionSettings), w)
    end.

(** *** One message *)

Definition base_response (uid : string) : ServerToAgent := MkServerToAgent uid None None None 0 serverCapabilities.
Definition error_response (uid msg : string) : ServerToAgent :=
  MkServerToAgent uid (Some msg) None None 0 serverCapabilities.

(** The part of HandleMessage after the agent is resolved and authorized;
    [known] says that it was in the registry before. *)
Definition process_message (e : msg_env) (conn : option N) (auth : ConnAuth) (msg : AgentToServer) (known newConn : bool)
    (st : agentConn) (w : world S) : ServerToAgent * world S :=
  let resp := base_response (msg_InstanceUid msg) in
  let st := set_conn conn (me_now e) st in
  let st := if (msg_Capabilities msg =? 0)%Z then st else set_capabilities (msg_Capabilities msg) st in
  let w := match msg_AgentDescription msg with
           | Some d =>
               if known then
                 match descriptionJSON d with
                 | Some desc =>
                     let '(name, version) := agentIdentity d in
                     store_log (fs_UpdateAgentDescription (ac_agentID st) name version (Some desc)
                       (if (msg_Capabilities msg =? 0)%Z then None else Some (wrap64 (msg_Capabilities msg)))) w
                 | None => w
                 end
               else w
           | None => w
           end in
  let w := with_reg (reg_put st (w_reg w)) w in
  let w := if newConn then store_log (fs_SetAgentConnected (me_db_now e) (ac_agentID st) true (me_now e)) w else w in
  let '(st, w) := match msg_RemoteConfigStatus msg with
                  | Some rcs => handleRemoteConfigStatus e rcs st w
                  | None => (st, w)
                  end in
  let w := match msg_EffectiveConfig msg with Some cm => handleEffectiveConfig cm st w | None => w end in
  let '(st, w) := match msg_Health msg with Some h => handleHealth e h st w | None => (st, w) end in
  let '(resp, w) := if newConn || bool_decide (is_Some (msg_AgentDescription msg))
                    then maybeOfferConfig st resp w else (resp, w) in
  if newConn && negb (ViaAgentToken auth) then maybeOfferAgentToken e st resp w else (resp, w).

Definition HandleMessage (e : msg_env) (conn : option N) (auth : ConnAuth) (msg : AgentToServer) (w : world S)
  : ServerToAgent * world S :=
  let uid := msg_InstanceUid msg in
  if decide (uid = "") then (error_response uid "missing instance_uid", w)
  else
    let prev := reg_get uid (w_reg w) in
    let newConn := match prev with None => true | Some p => negb (bool_decide (ac_conn p = conn)) end in
    let '(r, w) := match prev with
                   | Some p => (if bool_decide (ac_customerID p = CustomerID auth) then Resolved p else Reject, w)
                   | None => resolveAgent 2 e conn auth uid (msg_AgentDescription msg) (msg_Capabilities msg) w
                   end in
    match r with
    | Reject => (error_response uid "instance uid is bound to another customer", disconnect conn w)
    | AskFullState =>
        (MkServerToAgent uid None None None (Z.lor 0 Flag_ReportFullState) serverCapabilities, w)
    | Resolved st =>
        if ViaAgentToken auth && match AgentID auth with Some a => negb (bool_decide (ac_agentID st = a)) | None => false end
        then (error_response uid "token does not match this agent", disconnect conn w)
        else process_message e conn auth msg (bool_decide (is_Some prev)) newConn st w
    end.

(** *** Connections closing, pushes and flushes *)

Definition HandleConnectionClose (now db_now : Z) (conn : N) (w : world S) : world S :=
  let '(o, r) := reg_removeConn conn (w_reg w) in
  let w := with_reg r w in
  match o with
  | None => w
  | Some st =>
      if decide (ac_agentID st = uuid_nil) then w
      else
        let at_ := if decide (ac_lastSeen st = time_zero) then now else ac_lastSeen st in
        let w := store_log (fs_SetAgentConnected db_now (ac_agentID st) false at_) w in
        emitEvent WebhookEventAgentOffline (ac_agentID st) (ac_customerID st) None w
  end.

(** One push to a connection; [send_ok] is the transport's answer. *)
Definition push_message (desired hash : string) (st : agentConn) : ServerToAgent :=
  MkServerToAgent (ac_instanceUID st) None (Some (desired, hash)) None Flag_ReportFullState serverCapabilities.

(** The loop over a customer's connections: what is sent, in order, how many
    sends succeeded, and the database after it. *)
Fixpoint push_all (send_ok : N -> bool) (desired hash : string) (conns : list agentConn) (s : S)
  : list (N * ServerToAgent) * Z * S :=
  match conns with
  | [] => ([], 0%Z, s)
  | st :: conns =>
      if negb (has_cap (ac_capabilities st) AgentCap_AcceptsRemoteConfig) then push_all send_ok desired hash conns s
      else
        let '(_, s) := fs_SetAgentAssignedConfig (ac_agentID st) hash s in
        match ac_conn st with
        | None => push_all send_ok desired hash conns s
        | Some c =>
            let '(sent, n, s) := push_all send_ok desired hash conns s in
            ((c, push_message desired hash st) :: sent, (if send_ok c then n + 1 else n)%Z, s)
        end
  end.

(** The counts pushed and offline, or the rendering error. *)
Definition EdgeConfigChanged (send_ok : N -> bool) (customerID : N) (w : world S)
  : option (Z * Z) * list (N * ServerToAgent) * world S :=
  match RenderEdgeCurrent customerID (w_store w) with
  | None => (None, [], w)
  | Some desired =>
      let '(sent, pushed, s) := push_all send_ok desired (sha256 desired)
                                  (reg_connsForCustomer customerID (w_reg w)) (w_store w) in
      let w := with_store s w in
      match fs_ListAgents (MkAgentFilter (Some AgentClassEdge) (Some customerID) (Some false)) (w_store w) with
      | Err _ => (Some (pushed, 0%Z), sent, w)
      | Ok agents => (Some (pushed, Z.of_nat (length agents)), sent, w)
      end
  end.

Definition IsConnected (uid : string) (w : world S) : bool := reg_isConnected uid (w_reg w).

Definition FlushSeen (w : world S) : world S :=
  let '(seen, r) := reg_drainDirtySeen (w_reg w) in
  let w := with_reg r w in
  if decide (seen = ∅) then w else store_log (fs_TouchAgents seen) w.

End handler.
