(* ===== verification/OpampSafety.v ===== *)
(** Safety of the OpAMP server over time: tenant isolation of connections,
    config offers and pushes, for every store and renderer. *)
From S2P Require Import Prelude GoStrings Json StoreTypes Tokens Enrollment OpampRegistry OpampHandler.

Open Scope string_scope.

(** ** What may change between two states of a connection *)

Definition same_binding (a b : agentConn) : Prop :=
  ac_conn b = ac_conn a /\ ac_instanceUID b = ac_instanceUID a /\ ac_agentID b = ac_agentID a
  /\ ac_customerID b = ac_customerID a.

#[global] Instance same_binding_preorder : PreOrder same_binding.
Proof. split; unfold same_binding; [by intros ?|intros ???; naive_solver congruence]. Qed.

(** Two registries with the same connections bound to the same agents. *)
Definition reg_rel (r r' : registry) : Prop :=
  byConn r' = byConn r /\ forall u, option_Forall2 same_binding (byUID r !! u) (byUID r' !! u).

#[global] Instance reg_rel_preorder : PreOrder reg_rel.
Proof.
  split.
  - intros r. split; [done|]. intros u. destruct (byUID r !! u); by constructor.
  - intros r1 r2 r3 [H1 H2] [H3 H4]. split; [congruence|]. intros u. specialize (H2 u). specialize (H4 u).
    destruct H2 as [a b Hab|]; inversion H4; subst; constructor. by etransitivity.
Qed.

Lemma reg_rel_update uid f r : (forall st, same_binding st (f st)) -> reg_rel r (reg_update uid f r).
Proof.
  intros Hf. split; [done|]. intros u. simpl. destruct (decide (uid = u)) as [->|Hne].
  - rewrite lookup_alter_eq. destruct (byUID r !! u); constructor. apply Hf.
  - rewrite lookup_alter_ne by done. destruct (byUID r !! u); by constructor.
Qed.

Section safety.
Context {S : Type} `{!FleetStore S} `{!Protocol} `{!Formats} `{!Sha256}.
Context (RenderEdgeCurrent : N -> S -> option string) (sink : bool) (publicEndpoint : string).

Abbreviation HandleMessage := (HandleMessage RenderEdgeCurrent sink publicEndpoint).
Abbreviation EdgeConfigChanged := (EdgeConfigChanged RenderEdgeCurrent).
Abbreviation process_message := (process_message RenderEdgeCurrent sink publicEndpoint).

(** ** The handler's parts only rebind nothing *)

Lemma store_log_reg {A} (f : S -> result A store_err * S) w : w_reg (store_log f w) = w_reg w.
Proof using Type. done. Qed.

Lemma store_call_reg {A} (f : S -> result A store_err * S) w ok w' : store_call f w = (ok, w') -> w_reg w' = w_reg w.
Proof using Type. unfold store_call. destruct (f (w_store w)). by intros [= _ <-]. Qed.

Lemma emitEvent_reg t a c d (w : world S) : w_reg (emitEvent sink t a c d w) = w_reg w.
Proof using Type. unfold emitEvent. by destruct sink. Qed.

Lemma live_set_rel f st (w : world S) st' w' : (forall a, same_binding a (f a)) -> live_set f st w = (st', w') ->
  same_binding st st' /\ reg_rel (w_reg w) (w_reg w').
Proof using Type. intros Hf [= <- <-]. split; [apply Hf|]. by apply reg_rel_update. Qed.

(** A pair of a local state and a world that only moves within the bindings. *)
Definition bound_step (st : agentConn) (w : world S) (st' : agentConn) (w' : world S) : Prop :=
  same_binding st st' /\ reg_rel (w_reg w) (w_reg w').

Lemma bound_step_trans st w st1 w1 st2 w2 : bound_step st w st1 w1 -> bound_step st1 w1 st2 w2 -> bound_step st w st2 w2.
Proof using Type. intros [? ?] [? ?]. split; by etransitivity. Qed.

Lemma bound_step_reg st (w w' : world S) : w_reg w' = w_reg w -> bound_step st w st w'.
Proof using Type. intros Hr. split; [reflexivity|]. by rewrite Hr. Qed.

Lemma recordAck_bound rcs st w : bound_step st w (recordAck rcs st w).1 (recordAck rcs st w).2.
Proof using Type.
  unfold recordAck. destruct (negb (bool_decide (LastRemoteConfigHash rcs = ""))); simpl.
  - split; [done|]. destruct (report_newHash rcs st); by apply (reg_rel_update _ (set_lastAckedHash _)).
  - destruct (bool_decide (mapRemoteConfigStatus _ = _)); simpl; [|by apply bound_step_reg].
    split; [done|]. by apply (reg_rel_update _ (set_lastAckedHash _)).
Qed.

Lemma handleRemoteConfigStatus_bound e rcs st w st' w' :
  handleRemoteConfigStatus sink e rcs st w = (st', w') -> bound_step st w st' w'.
Proof using Type.
  unfold handleRemoteConfigStatus. generalize (report_newHash rcs st). intros newHash.
  pose proof (recordAck_bound rcs st w) as Hp.
  destruct (recordAck rcs st w) as [st1 w1]. simpl in Hp. destruct (bool_decide _ && negb _); [by intros [= <- <-]|].
  destruct (store_call _ w1) as [ok w2] eqn:Hc. apply store_call_reg in Hc.
  assert (bound_step st w st1 w2) as H2.
  { eapply bound_step_trans; [exact Hp|]. by apply bound_step_reg. }
  destruct ok; simpl; [|by intros [= <- <-]].
  set (w3 := if bool_decide _ then _ else _).
  assert (w_reg w3 = w_reg w2) as H3 by (unfold w3; destruct (bool_decide _); [apply emitEvent_reg|done]).
  intros Hl. apply live_set_rel in Hl; [|done]. eapply bound_step_trans; [exact H2|].
  destruct Hl as [? Hr]. split; [done|]. by rewrite H3 in Hr.
Qed.

Lemma handleHealth_bound e h st w st' w' : handleHealth sink e h st w = (st', w') -> bound_step st w st' w'.
Proof using Type.
  unfold handleHealth. destruct h as [healthy status lastError t1 t2 children].
  destruct (store_call _ w) as [ok w1] eqn:Hc. apply store_call_reg in Hc.
  destruct ok; simpl; [|intros [= <- <-]; by apply bound_step_reg].
  set (w3 := if _ && _ then _ else w1).
  assert (w_reg w3 = w_reg w) as H3 by (unfold w3; destruct (_ && _); [rewrite emitEvent_reg|]; done).
  intros Hl. apply live_set_rel in Hl; [|done]. destruct Hl as [? Hr]. split; [done|]. by rewrite H3 in Hr.
Qed.

Lemma handleEffectiveConfig_reg cm st (w : world S) : w_reg (handleEffectiveConfig cm st w) = w_reg w.
Proof using Type. unfold handleEffectiveConfig. by destruct (effectiveConfigBody cm). Qed.

(** What an offer may contain: the config rendered for the state's customer. *)
Definition offer_ok (customerID : N) (resp : ServerToAgent) : Prop :=
  forall body hash, rsp_RemoteConfig resp = Some (body, hash) ->
    hash = sha256 body /\ exists s, RenderEdgeCurrent customerID s = Some body.

Lemma maybeOfferConfig_spec st resp w resp' w' : maybeOfferConfig RenderEdgeCurrent st resp w = (resp', w') ->
  rsp_RemoteConfig resp = None -> w_reg w' = w_reg w /\ offer_ok (ac_customerID st) resp'.
Proof using Type.
  unfold maybeOfferConfig, offer_ok. intros Hm Hn. destruct (negb _).
  { injection Hm as <- <-. rewrite Hn. done. }
  destruct (RenderEdgeCurrent _ _) as [desired|] eqn:Hr; [|injection Hm as <- <-; by rewrite Hn].
  destruct (bool_decide _); injection Hm as <- <-; simpl; (split; [done|]).
  - by rewrite Hn.
  - intros body hash [= <- <-]. eauto.
Qed.

Lemma maybeOfferAgentToken_spec e st resp w resp' w' : maybeOfferAgentToken publicEndpoint e st resp w = (resp', w') ->
  rsp_RemoteConfig resp' = rsp_RemoteConfig resp /\ reg_rel (w_reg w) (w_reg w').
Proof using Type.
  unfold maybeOfferAgentToken. destruct (ac_tokenOffered st); [by intros [= <- <-]|].
  destruct (negb _); [by intros [= <- <-]|]. destruct (GenerateAgentToken _); [|by intros [= <- <-]].
  destruct (store_call _ w) as [ok w1] eqn:Hc. apply store_call_reg in Hc.
  destruct ok; simpl; intros [= <- <-]; simpl; (split; [done|]).
  - rewrite <- Hc. by apply reg_rel_update.
  - by rewrite Hc.
Qed.

(** Processing puts one state, for the message's connection, and rebinds
    nothing else. *)
Lemma process_message_spec e conn auth msg known newConn st w resp w' :
  process_message e conn auth msg known newConn st w = (resp, w') ->
  offer_ok (ac_customerID st) resp /\
  exists st1, ac_conn st1 = conn /\ ac_instanceUID st1 = ac_instanceUID st /\ ac_agentID st1 = ac_agentID st
    /\ ac_customerID st1 = ac_customerID st /\ reg_rel (reg_put st1 (w_reg w)) (w_reg w').
Proof using Type.
  unfold process_message.
  set (st1 := if (msg_Capabilities msg =? 0)%Z then _ else _).
  assert (ac_conn st1 = conn /\ ac_instanceUID st1 = ac_instanceUID st /\ ac_agentID st1 = ac_agentID st
          /\ ac_customerID st1 = ac_customerID st) as (E1 & E2 & E3 & E4) by (unfold st1; by destruct (_ =? _)%Z).
  set (w1 := match msg_AgentDescription msg with Some _ => _ | None => _ end).
  assert (w_reg w1 = w_reg w) as Hw1.
  { unfold w1. destruct (msg_AgentDescription msg) as [d|]; [|done]. destruct known; [|done].
    destruct (descriptionJSON d); [|done]. by destruct (agentIdentity d). }
  clearbody st1 w1. set (w2 := with_reg _ w1). set (w3 := if newConn then _ else w2).
  assert (w_reg w3 = reg_put st1 (w_reg w)) as Hw3 by (unfold w3, w2; destruct newConn; simpl; by rewrite Hw1).
  clearbody w3.
  destruct (match msg_RemoteConfigStatus msg with Some _ => _ | None => _ end) as [st2 w4] eqn:H4.
  assert (bound_step st1 w3 st2 w4) as Hb4.
  { destruct (msg_RemoteConfigStatus msg); [by eapply handleRemoteConfigStatus_bound|injection H4 as <- <-].
    by apply bound_step_reg. }
  set (w5 := match msg_EffectiveConfig msg with Some _ => _ | None => _ end).
  assert (w_reg w5 = w_reg w4) as Hw5 by (unfold w5; destruct (msg_EffectiveConfig msg); [apply handleEffectiveConfig_reg|done]).
  clearbody w5. destruct (match msg_Health msg with Some _ => _ | None => _ end) as [st3 w6] eqn:H6.
  assert (bound_step st2 w5 st3 w6) as Hb6.
  { destruct (msg_Health msg); [by eapply handleHealth_bound|injection H6 as <- <-]. by apply bound_step_reg. }
  destruct (if newConn || _ then _ else _) as [resp1 w7] eqn:H7.
  assert (w_reg w7 = w_reg w6 /\ offer_ok (ac_customerID st3) resp1) as [Hw7 Hof].
  { destruct (newConn || _); [by eapply maybeOfferConfig_spec|]. injection H7 as <- <-. by split. }
  assert (reg_rel (w_reg w3) (w_reg w6)) as Hr6.
  { etransitivity; [apply Hb4|]. rewrite <- Hw5. apply Hb6. }
  assert (ac_customerID st3 = ac_customerID st) as Hcust.
  { destruct Hb6 as [(_ & _ & _ & E6) _]. destruct Hb4 as [(_ & _ & _ & E5) _]. congruence. }
  rewrite Hcust in Hof.
  destruct (newConn && negb (ViaAgentToken auth)).
  - intros Hm%maybeOfferAgentToken_spec. destruct Hm as [Hc Hr]. split.
    + intros body hash. rewrite Hc. apply Hof.
    + exists st1. split_and!; try done. rewrite <- Hw3. etransitivity; [exact Hr6|]. by rewrite <- Hw7.
  - intros [= <- <-]. split; [done|]. exists st1. split_and!; try done. rewrite <- Hw3, Hw7. exact Hr6.
Qed.

Lemma resolveAgent_spec fuel e conn auth uid : forall desc caps (w : world S) r w',
    resolveAgent fuel e conn auth uid desc caps w = (r, w') ->
    w_reg w' = w_reg w /\
    match r with
    | Resolved st => ac_conn st = conn /\ ac_instanceUID st = uid /\ ac_customerID st = CustomerID auth
    | _ => True
    end.
Proof using Type.
    induction fuel as [|fuel IH]; intros desc caps w r w'; cbn [resolveAgent]; [by intros [= <- <-]|].
    destruct (fs_GetAgentByInstanceUID uid (w_store w)) as [agent|[]]; try by intros [= <- <-].
    - destruct (bool_decide _); by intros [= <- <-].
    - destruct desc as [d|]; [|by intros [= <- <-]]. destruct (agentIdentity d) as [name version].
      destruct (fs_EnrollAgent _ _ _) as [[agent|[]] s]; try by intros [= <- <-].
      intros Hr%IH. exact Hr.
Qed.

(** More fuel than two rounds changes nothing: the recursion of the code ends. *)
Lemma resolveAgent_fuel fuel e conn auth uid desc caps (w : world S) :
    resolveAgent (2 + fuel) e conn auth uid desc caps w = resolveAgent 2 e conn auth uid desc caps w.
Proof using Type.
    cbn [resolveAgent plus]. by destruct (fs_GetAgentByInstanceUID uid (w_store w)) as [agent|[]].
Qed.

(** The binding a state has to respect: its connection's authentication. *)
Definition authorized (auth : ConnAuth) (st : agentConn) : Prop :=
    ac_customerID st = CustomerID auth
    /\ (ViaAgentToken auth = true -> forall a, AgentID auth = Some a -> ac_agentID st = a).

Lemma HandleMessage_spec e conn auth msg w resp w' : reg_wf (w_reg w) ->
    HandleMessage e conn auth msg w = (resp, w') ->
    offer_ok (CustomerID auth) resp /\
    (w_reg w' = w_reg w \/
     exists st1, ac_conn st1 = conn /\ ac_instanceUID st1 = msg_InstanceUid msg /\ authorized auth st1
       /\ reg_rel (reg_put st1 (w_reg w)) (w_reg w')).
Proof using Type.
    intros [Hkey _]. unfold OpampHandler.HandleMessage. destruct (decide _); [intros [= <- <-]; split; [done|by left]|].
    destruct (match reg_get _ _ with Some _ => _ | None => _ end) as [r w1] eqn:Hres.
    assert (w_reg w1 = w_reg w /\ forall st, r = Resolved st ->
              ac_customerID st = CustomerID auth /\ ac_instanceUID st = msg_InstanceUid msg) as [Hw1 Hst].
    { unfold reg_get in Hres. destruct (byUID (w_reg w) !! msg_InstanceUid msg) as [p|] eqn:Hp.
      - injection Hres as <- <-. split; [done|]. intros st. case_bool_decide; [|done]. intros [= <-].
        split; [done|]. by apply Hkey.
      - apply resolveAgent_spec in Hres as [? Hr]. split; [done|]. intros st ->. by destruct Hr as (_ & ? & ?). }
    clear Hres. destruct r as [st| |].
    - destruct (Hst st eq_refl) as [Hcu Hu].
      destruct (ViaAgentToken auth && _) eqn:Hvia; [intros [= <- <-]; split; [done|left; by destruct conn]|].
      intros Hp. apply process_message_spec in Hp as (Hof & st1 & E1 & E2 & E3 & E4 & Hr).
      rewrite Hcu in Hof. split; [done|]. right. exists st1. rewrite Hw1 in Hr. split_and!; [done|congruence| |done].
      split; [congruence|]. intros Hv a Ha. rewrite Hv, Ha in Hvia. simpl in Hvia.
      apply negb_false_iff, bool_decide_eq_true in Hvia. congruence.
    - intros [= <- <-]. split; [done|]. by left.
    - intros [= <- <-]. split; [done|left]. by destruct conn.
Qed.

(** ** The server over time

      [f_auth] is what each accepted connection authenticated as, the value the
      connection's callbacks are closed over. *)
Record fleet : Type := MkFleet {
    f_world : world S;
    f_auth : gmap N ConnAuth
}.

Inductive fleet_step : fleet -> fleet -> Prop :=
| step_connect w auths c now authorization auth :
      auths !! c = None -> Authenticate now authorization (w_store w) = Ok auth ->
      fleet_step (MkFleet w auths) (MkFleet w (<[c := auth]> auths))
| step_message w auths c auth e msg resp w' :
      auths !! c = Some auth -> HandleMessage e (Some c) auth msg w = (resp, w') ->
      fleet_step (MkFleet w auths) (MkFleet w' auths)
| step_close w auths c now db_now :
      fleet_step (MkFleet w auths) (MkFleet (HandleConnectionClose sink now db_now c w) auths)
| step_push w auths send_ok customerID r :
      EdgeConfigChanged send_ok customerID w = r -> fleet_step (MkFleet w auths) (MkFleet r.2 auths)
| step_flush w auths : fleet_step (MkFleet w auths) (MkFleet (FlushSeen w) auths)
(** everybody else's work on the database *)
| step_store w auths s : fleet_step (MkFleet w auths) (MkFleet (with_store s w) auths).

Definition fleet_init (s : S) : fleet := MkFleet (MkWorld s newRegistry [] []) ∅.

(** Every registered state is bound to a connection that is authorized for it. *)
Definition bound_to (auths : gmap N ConnAuth) (r : registry) : Prop :=
    forall u st, byUID r !! u = Some st ->
      exists c auth, ac_conn st = Some c /\ auths !! c = Some auth /\ authorized auth st.

Definition fleet_inv (f : fleet) : Prop := reg_wf (w_reg (f_world f)) /\ bound_to (f_auth f) (w_reg (f_world f)).

Lemma authorized_binding auth a b : same_binding a b -> authorized auth a -> authorized auth b.
Proof using Type. intros (_ & _ & Ha & Hc) [Ho1 Ho2]. unfold authorized. rewrite Ha, Hc. done. Qed.

Lemma reg_rel_wf r r' : reg_rel r r' -> reg_wf r -> reg_wf r'.
Proof using Type.
    intros [Hc Hu] [W1 W2]. split.
    - intros u st Hst. specialize (Hu u). rewrite Hst in Hu. inversion Hu as [a b Hab|]; subst.
      destruct Hab as (_ & -> & _). apply W1. congruence.
    - intros c u. rewrite Hc. intros (st & Hst & Hsc)%W2. specialize (Hu u). rewrite Hst in Hu.
      inversion Hu as [a b Hab|]; subst. exists b. split; [done|]. destruct Hab as (-> & _). done.
Qed.

Lemma reg_rel_bound auths r r' : reg_rel r r' -> bound_to auths r -> bound_to auths r'.
Proof using Type.
    intros [_ Hu] Hb u st Hst. specialize (Hu u). rewrite Hst in Hu. inversion Hu as [a b Hab Ha|]; subst.
    destruct (Hb u a (eq_sym Ha)) as (c & auth & Hc & Hau & Hok). exists c, auth.
    split_and!; [|done|by eapply authorized_binding]. destruct Hab as (-> & _). done.
Qed.

Lemma bound_put auths r st c auth : bound_to auths r -> ac_conn st = Some c -> auths !! c = Some auth ->
    authorized auth st -> bound_to auths (reg_put st r).
Proof using Type.
    intros Hb Hc Ha Hok u st'. simpl. rewrite lookup_insert_Some. intros [[_ <-]|[_ ?]]; [by exists c, auth|by eapply Hb].
Qed.

Lemma bound_sub auths r r' : (forall u st, byUID r' !! u = Some st -> exists st0, byUID r !! u = Some st0 /\ same_binding st0 st) ->
    bound_to auths r -> bound_to auths r'.
Proof using Type.
    intros Hs Hb u st Hst. destruct (Hs u st Hst) as (st0 & Hst0 & Hsb).
    destruct (Hb u st0 Hst0) as (c & auth & Hc & Hau & Hok). exists c, auth.
    split_and!; [|done|by eapply authorized_binding]. destruct Hsb as (-> & _). done.
Qed.

Lemma HandleConnectionClose_reg now db_now c w :
    w_reg (HandleConnectionClose sink now db_now c w) = (reg_removeConn c (w_reg w)).2.
Proof using Type.
    unfold HandleConnectionClose. destruct (reg_removeConn c (w_reg w)) as [[st|] r]; [|done].
    destruct (decide _); [done|]. by rewrite emitEvent_reg.
Qed.

Lemma push_world send_ok customerID (w : world S) : w_reg (EdgeConfigChanged send_ok customerID w).2 = w_reg w.
Proof using Type.
    unfold OpampHandler.EdgeConfigChanged. destruct (RenderEdgeCurrent customerID (w_store w)); [|done].
    destruct (push_all _ _ _ _ _) as [[sent pushed] s']. simpl.
    by destruct (fs_ListAgents _ _).
Qed.

Lemma fleet_step_inv f f' : fleet_step f f' -> fleet_inv f -> fleet_inv f'.
Proof using Type.
    intros Hstep [Hwf Hb]. destruct Hstep as [w auths c now az auth Hfresh Hau|w auths c auth e msg resp w' Hc Hm
      |w auths c now db_now|w auths send_ok cust r Hp|w auths|w auths s]; simpl in *.
    - split; [done|]. intros u st Hst. destruct (Hb u st Hst) as (c' & a' & Hc' & Ha' & Hok).
      exists c', a'. split_and!; try done. simpl. rewrite lookup_insert_ne; [done|]. intros ->. congruence.
    - destruct (HandleMessage_spec _ _ _ _ _ _ _ Hwf Hm) as [_ [Hr|(st1 & E1 & E2 & Hok & Hr)]].
      + unfold fleet_inv. simpl. by rewrite Hr.
      + split; simpl.
        * eapply reg_rel_wf; [exact Hr|]. by apply reg_wf_put.
        * eapply reg_rel_bound; [exact Hr|]. by eapply bound_put.
    - unfold fleet_inv. simpl. rewrite HandleConnectionClose_reg.
      pose proof (reg_removeConn_spec c _ Hwf) as Hs. destruct (reg_removeConn c (w_reg w)) as [o r].
      destruct Hs as (Hwf' & _ & Ho). split; [done|]. eapply bound_sub, Hb. intros u st Hst. simpl in *.
      exists st. split; [|reflexivity]. destruct o as [st0|].
      + destruct Ho as (_ & _ & Hd). rewrite Hd in Hst. by apply lookup_delete_Some in Hst as [_ ?].
      + destruct Ho as [Ho _]. by rewrite Ho in Hst.
    - subst r. unfold fleet_inv. simpl. rewrite push_world. done.
    - unfold fleet_inv. simpl. unfold FlushSeen. destruct (reg_drainDirtySeen (w_reg w)) as [seen r] eqn:Hd.
      assert (r = (reg_drainDirtySeen (w_reg w)).2) as -> by (by rewrite Hd).
      assert (fleet_inv (MkFleet (with_reg (reg_drainDirtySeen (w_reg w)).2 w) auths)) as Hf.
      { split; [by apply reg_wf_drain|]. eapply bound_sub, Hb. intros u st. simpl. rewrite lookup_fmap_Some.
        intros (st0 & <- & Hst0). exists st0. split; [done|]. by destruct (_ && _). }
      by destruct (decide _).
    - done.
Qed.

Lemma fleet_reachable_inv s f : rtc fleet_step (fleet_init s) f -> fleet_inv f.
Proof using Type.
    intros Hr. remember (fleet_init s) as f0 eqn:Hf0.
    assert (fleet_inv f0) as Hi by (subst; split; [apply reg_wf_new|intros u st; simpl; by rewrite lookup_empty]).
    clear Hf0. induction Hr; eauto using fleet_step_inv.
Qed.

Lemma push_all_elem send_ok desired hash c m : forall conns s sent n s',
    push_all send_ok desired hash conns s = (sent, n, s') -> (c, m) ∈ sent ->
    exists st, st ∈ conns /\ ac_conn st = Some c /\ m = push_message desired hash st
      /\ has_cap (ac_capabilities st) AgentCap_AcceptsRemoteConfig = true.
Proof using Type.
    induction conns as [|st conns IH]; intros s sent n s'; cbn [push_all].
    { intros [= <- _ _] Hin. by apply elem_of_nil in Hin. }
    destruct (has_cap _ _) eqn:Hcap; simpl.
    - destruct (fs_SetAgentAssignedConfig _ _ s) as [x s1]. destruct (ac_conn st) as [c'|] eqn:Hc.
      + destruct (push_all _ _ _ conns s1) as [[sent' n'] s2] eqn:Hp. intros [= <- _ _] [Heq|Hin]%elem_of_cons.
        * injection Heq as -> ->. exists st. split_and!; try done. left.
        * destruct (IH _ _ _ _ Hp Hin) as (st' & ? & ?). exists st'. split; [by right|done].
      + intros Hp Hin. destruct (IH _ _ _ _ Hp Hin) as (st' & ? & ?). exists st'. split; [by right|done].
    - intros Hp Hin. destruct (IH _ _ _ _ Hp Hin) as (st' & ? & ?). exists st'. split; [by right|done].
Qed.

(** C8: Tenant isolation of the fleet: in every reachable state, whatever the
      database and the agents do, a config is pushed only to connections that
      authenticated for the customer it was rendered for (and, with an agent
      token, for that very agent), and a response never offers a connection a
      config rendered for another customer. *)
Theorem config_isolation s f : rtc fleet_step (fleet_init s) f ->
    (forall send_ok customerID counts sent w' c m,
       EdgeConfigChanged send_ok customerID (f_world f) = (counts, sent, w') -> (c, m) ∈ sent ->
       exists auth desired, f_auth f !! c = Some auth /\ CustomerID auth = customerID
         /\ RenderEdgeCurrent customerID (w_store (f_world f)) = Some desired
         /\ rsp_RemoteConfig m = Some (desired, sha256 desired)
         /\ (ViaAgentToken auth = true -> forall a, AgentID auth = Some a ->
              exists st, byUID (w_reg (f_world f)) !! rsp_InstanceUid m = Some st /\ ac_agentID st = a)) /\
    (forall c auth e msg resp w' body hash,
       f_auth f !! c = Some auth -> HandleMessage e (Some c) auth msg (f_world f) = (resp, w') ->
       rsp_RemoteConfig resp = Some (body, hash) ->
       hash = sha256 body /\ exists s', RenderEdgeCurrent (CustomerID auth) s' = Some body).
Proof using Type.
    intros Hr. pose proof (fleet_reachable_inv s f Hr) as [Hwf Hb]. split.
    - intros send_ok customerID counts sent w' c m. unfold OpampHandler.EdgeConfigChanged.
      destruct (RenderEdgeCurrent customerID (w_store (f_world f))) as [desired|] eqn:Hren; [|intros [= _ <- _] Hin; by apply elem_of_nil in Hin].
      destruct (push_all _ _ _ _ _) as [[sent' pushed] s'] eqn:Hp. intros Hres Hin.
      assert (sent = sent') as -> by (by destruct (fs_ListAgents _ _); injection Hres).
      destruct (push_all_elem _ _ _ _ _ _ _ _ _ _ Hp Hin) as (st & Hst & Hc & -> & _).
      unfold reg_connsForCustomer in Hst. apply list_elem_of_filter in Hst as [[Hcu _] Hst].
      apply list_elem_of_fmap in Hst as ([u st'] & -> & Hu%elem_of_map_to_list). simpl in *.
      destruct (Hb u st' Hu) as (c' & auth & Hc' & Hau & Hok & Htok). assert (c' = c) as -> by congruence.
      exists auth, desired. split_and!; try done; [congruence|]. intros Hv a Ha. exists st'.
      rewrite (proj1 Hwf u st' Hu). split; [done|]. by apply Htok.
    - intros c auth e msg resp w' body hash Hc Hm Hof.
      destruct (HandleMessage_spec _ _ _ _ _ _ _ Hwf Hm) as [Ho _]. by apply Ho.
Qed.

End safety.
