(* ===== verification/OpampPg.v ===== *)
(** The OpAMP handler on the PostgreSQL store: what its database work amounts
    to, from credentials to config acknowledgement. *)
From S2P Require Import Prelude GoStrings Json StoreTypes Tokens Enrollment OpampRegistry OpampHandler OpampSafety PgCore PgFleet TenantsService.

Open Scope string_scope.

(** ** The store interface, implemented *)

#[global] Instance pg_fleet_store (uuid_string : N -> string) : FleetStore DB := {
  fs_ActiveBootstrapTokensByPrefix p d := Ok (pg_ActiveBootstrapTokensByPrefix p d);
  fs_AgentsByTokenPrefix p d := Ok (pg_AgentsByTokenPrefix p d);
  fs_SetAgentToken := pg_SetAgentToken;
  fs_EnrollAgent := pg_EnrollAgent uuid_string;
  fs_GetAgentByInstanceUID := pg_GetAgentByInstanceUID;
  fs_ListAgents f d := Ok (pg_ListAgents f d);
  fs_UpdateAgentDescription := pg_UpdateAgentDescription;
  fs_SetAgentConnected := pg_SetAgentConnected;
  fs_SetAgentAssignedConfig := pg_SetAgentAssignedConfig;
  fs_SetAgentAckedConfig := pg_SetAgentAckedConfig;
  fs_SetAgentEffectiveConfig := pg_SetAgentEffectiveConfig;
  fs_SetAgentRemoteConfigStatus := pg_SetAgentRemoteConfigStatus;
  fs_SetAgentHealth := pg_SetAgentHealth;
  fs_TouchAgents := pg_TouchAgents
}.

Section pg.
Context `{!Protocol} `{!Formats} `{!Sha256} (uuid_string : N -> string).
#[local] Existing Instance pg_fleet_store.
Local Instance the_store : FleetStore DB := pg_fleet_store uuid_string.
Context (RenderEdgeCurrent : N -> DB -> option string) (sink : bool) (publicEndpoint : string).

(** ** Authentication *)

Lemma find_agent_auth_Some hash l a : find_agent_auth hash l = Some a -> a ∈ l /\ AgentAuth_TokenHash a = hash.
Proof using Type.
  induction l as [|x l IH]; simpl; [done|]. case_bool_decide.
  - intros [= <-]. split; [left|done].
  - intros [? ?]%IH. split; [by right|done].
Qed.

Lemma find_enroll_token_Some hash l t : find_enroll_token hash l = Some t -> t ∈ l /\ EnrollToken_TokenHash t = hash.
Proof using Type.
  induction l as [|x l IH]; simpl; [done|]. case_bool_decide.
  - intros [= <-]. split; [left|done].
  - intros [? ?]%IH. split; [by right|done].
Qed.

Lemma agents_by_prefix_elem p d a : a ∈ pg_AgentsByTokenPrefix p d <->
  exists i r c cu, t_agents d !! i = Some r /\ ag_token_prefix r = Some p
    /\ Agent_CustomerID (ag_agent r) = Some c /\ t_customers d !! c = Some cu /\ Customer_Status cu <> CustomerDeleted
    /\ a = MkAgentAuth (Agent_ID (ag_agent r)) c (Agent_InstanceUID (ag_agent r)) (default "" (ag_token_hash r))
             (Customer_Status cu).
Proof using Type.
  unfold pg_AgentsByTokenPrefix. rewrite list_elem_of_omap. split.
  - intros (r & Hr & Ha). apply rows_elem in Hr as [Hp (i & Hi)]. apply bool_decide_eq_true in Hp.
    destruct (Agent_CustomerID (ag_agent r)) as [c|] eqn:Hc; simpl in Ha; [|done].
    destruct (t_customers d !! c) as [cu|] eqn:Hcu; simpl in Ha; [|done]. case_decide as Hdel; [done|].
    injection Ha as <-. by exists i, r, c, cu.
  - intros (i & r & c & cu & Hi & Hp & Hc & Hcu & Hdel & ->). exists r. split.
    + apply rows_elem. rewrite bool_decide_eq_true. eauto.
    + rewrite Hc. simpl. rewrite Hcu. simpl. by rewrite decide_False.
Qed.

Lemma tokens_by_prefix_elem p d t : t ∈ pg_ActiveBootstrapTokensByPrefix p d <->
  exists i b cu, t_bootstrap_tokens d !! i = Some b /\ BootstrapToken_TokenPrefix b = p
    /\ BootstrapToken_RevokedAt b = None /\ t_customers d !! BootstrapToken_CustomerID b = Some cu
    /\ t = enroll_token_of cu b.
Proof using Type.
  unfold pg_ActiveBootstrapTokensByPrefix. rewrite list_elem_of_omap. split.
  - intros (b & Hb & Ht). apply rows_elem in Hb as [Hp (i & Hi)]. apply andb_prop in Hp as [Hp Hr].
    apply bool_decide_eq_true in Hp, Hr. destruct (t_customers d !! _) as [cu|] eqn:Hcu; simpl in Ht; [|done].
    injection Ht as <-. by exists i, b, cu.
  - intros (i & b & cu & Hi & Hp & Hr & Hcu & ->). exists b. rewrite Hcu. split; [|done].
    apply rows_elem. rewrite !bool_decide_true by done. eauto.
Qed.

(** C18: An accepted connection presented a bearer token whose hash is that of an
    enrolled agent of an active customer, and acts as that agent only; or that
    of a live enrollment token, unrevoked, unexpired and with a use left, of an
    active customer, and acts for that customer. *)
Theorem Authenticate_sound now authorization d auth :
  Authenticate now authorization d = Ok auth ->
  exists token cu, authorization = "Bearer " +:+ token /\ t_customers d !! CustomerID auth = Some cu
    /\ Customer_Status cu = CustomerActive /\
    ((exists i r, t_agents d !! i = Some r /\ default "" (ag_token_hash r) = sha256 token
        /\ Agent_CustomerID (ag_agent r) = Some (CustomerID auth)
        /\ ViaAgentToken auth = true /\ AgentID auth = Some (Agent_ID (ag_agent r))) \/
     (exists i b, t_bootstrap_tokens d !! i = Some b /\ BootstrapToken_TokenHash b = sha256 token
        /\ BootstrapToken_CustomerID b = CustomerID auth /\ BootstrapToken_ID b = TokenID auth
        /\ BootstrapToken_RevokedAt b = None /\ (now < BootstrapToken_ExpiresAt b)%Z
        /\ (BootstrapToken_MaxUses b <= 0 \/ BootstrapToken_UsedCount b < BootstrapToken_MaxUses b)%Z
        /\ ViaAgentToken auth = false /\ AgentID auth = None)).
Proof using Type.
  unfold Authenticate. destruct (cut_prefix "Bearer " authorization) as [token|] eqn:Hcut; [|done].
  apply cut_prefix_Some in Hcut. case_decide; [done|]. destruct (ParseAgentTokenPrefix token) as [p|].
  - unfold authenticateAgentToken. simpl. destruct (find_agent_auth _ _) as [a|] eqn:Hf; [|done].
    apply find_agent_auth_Some in Hf as [Hin Hh].
    apply agents_by_prefix_elem in Hin as (i & r & c & cu & Hi & _ & Hc & Hcu & _ & ->). simpl in *.
    case_bool_decide as Hs; [|done]. intros [= <-]. exists token, cu. split_and!; try done. left. exists i, r. done.
  - destruct (ParseBootstrapTokenPrefix token) as [p|]; [|done]. unfold authenticateBootstrapToken. simpl.
    destruct (find_enroll_token _ _) as [t|] eqn:Hf; [|done]. apply find_enroll_token_Some in Hf as [Hin Hh].
    apply tokens_by_prefix_elem in Hin as (i & b & cu & Hi & _ & Hr & Hcu & ->).
    destruct (TokenUsable _ now) eqn:Hu; [done|]. apply TokenUsable_None in Hu as (He & Hs & Hm). simpl in *.
    intros [= <-]. exists token, cu. split_and!; try done. right. exists i, b. done.
Qed.

(** ** The per-agent token *)

Lemma has_token_prefix_bearer t : cut_prefix "Bearer " ("Bearer " +:+ t) = Some t.
Proof using Type. apply cut_prefix_app. Qed.

(** A token the handler offers works: it is the last thing stored for the
    agent, and presenting it authenticates as exactly this agent, as long as no
    other agent's token has the same hash. *)
Theorem offered_token_authenticates now e st resp (w : world DB) resp' w' offer bytes row cu :
  maybeOfferAgentToken publicEndpoint e st resp w = (resp', w') ->
  rsp_ConnectionSettings resp = None -> rsp_ConnectionSettings resp' = Some offer ->
  me_token_bytes e = Some bytes -> String.length bytes = 36%nat ->
  t_agents (w_store w) !! ac_agentID st = Some row -> Agent_ID (ag_agent row) = ac_agentID st ->
  Agent_CustomerID (ag_agent row) = Some (ac_customerID st) ->
  t_customers (w_store w) !! ac_customerID st = Some cu -> Customer_Status cu = CustomerActive ->
  (forall i r secret, offer_Authorization offer = "Bearer " +:+ secret -> i <> ac_agentID st ->
     t_agents (w_store w) !! i = Some r -> default "" (ag_token_hash r) <> sha256 secret) ->
  Authenticate now (offer_Authorization offer) (w_store w')
    = Ok (MkConnAuth uuid_nil (ac_customerID st) (Some (ac_agentID st)) true).
Proof using Type.
  unfold maybeOfferAgentToken. intros Hoff Hn Hs Hb Hlen Hrow Hid Hcid Hcu Hact Huniq.
  destruct (ac_tokenOffered st); [injection Hoff as <- <-; congruence|].
  destruct (negb _); [injection Hoff as <- <-; congruence|]. rewrite Hb in Hoff.
  destruct (GenerateAgentToken (Some bytes)) as [gen|] eqn:Hgen; [|injection Hoff as <- <-; congruence].
  assert (ParseAgentTokenPrefix (GeneratedKey_Secret gen) = Some (GeneratedKey_Prefix gen)) as Hparse.
  { by apply (mint_token_parse "at" "generate agent token" bytes). }
  assert (GeneratedKey_Hash gen = sha256 (GeneratedKey_Secret gen)) as Hhash by (unfold GenerateAgentToken, mint in Hgen; by injection Hgen as <-).
  clear Hgen. unfold store_call, live_set in Hoff.
  remember ("Bearer " +:+ GeneratedKey_Secret gen) as az eqn:Haz.
  cbn [fs_SetAgentToken the_store pg_fleet_store pg_SetAgentToken is_ok negb] in Hoff. injection Hoff as <- <-. cbn [rsp_ConnectionSettings] in Hs.
  apply (inj Some) in Hs. subst offer. cbn [offer_Authorization w_store with_reg with_store] in Huniq |- *.
  unfold Authenticate.
  rewrite Haz, has_token_prefix_bearer. rewrite decide_False by (intros Hz; by rewrite Hz in Hparse). rewrite Hparse.
  unfold authenticateAgentToken. simpl. set (d' := set_agents _ _).
  assert (forall a, a ∈ pg_AgentsByTokenPrefix (GeneratedKey_Prefix gen) d' ->
    AgentAuth_TokenHash a = sha256 (GeneratedKey_Secret gen) ->
    a = MkAgentAuth (ac_agentID st) (ac_customerID st) (Agent_InstanceUID (ag_agent row))
          (sha256 (GeneratedKey_Secret gen)) CustomerActive) as Ha.
  { intros a Hin Hha. apply agents_by_prefix_elem in Hin as (i & r & c & cu' & Hi & _ & Hc & Hcu' & _ & ->).
    simpl in *. destruct (decide (i = ac_agentID st)) as [->|Hne].
    - rewrite lookup_alter_eq, Hrow in Hi. simpl in Hi. injection Hi as <-. simpl in *. congruence.
    - rewrite lookup_alter_ne in Hi by done. by destruct (Huniq i r (GeneratedKey_Secret gen) Haz Hne Hi). }
  destruct (find_agent_auth _ _) as [a|] eqn:Hf.
  - apply find_agent_auth_Some in Hf as [Hin Hh]. rewrite (Ha a Hin Hh). done.
  - exfalso.
    assert (MkAgentAuth (ac_agentID st) (ac_customerID st) (Agent_InstanceUID (ag_agent row))
          (sha256 (GeneratedKey_Secret gen)) CustomerActive ∈ pg_AgentsByTokenPrefix (GeneratedKey_Prefix gen) d') as Hin.
    { apply agents_by_prefix_elem. eexists (ac_agentID st), _, (ac_customerID st), cu. simpl.
      rewrite lookup_alter_eq, Hrow. simpl. split_and!; try done; [by rewrite Hact|].
      simpl. by rewrite Hid, Hhash, Hact. }
    revert Hin Hf. generalize (pg_AgentsByTokenPrefix (GeneratedKey_Prefix gen) d'). intros l Hin Hf.
    induction l as [|x l IH]; [by apply elem_of_nil in Hin|]. simpl in Hf. case_bool_decide as Hx; [done|].
    apply elem_of_cons in Hin as [<-|Hin]; [by simpl in Hx|by apply IH].
Qed.

(** ** Reports *)

Definition row_update (f : Agent -> Agent) (r : agent_row) : agent_row :=
  MkAgentRow (f (ag_agent r)) (ag_token_prefix r) (ag_token_hash r) (ag_token_issued_at r).

Lemma update_agent_row id f d r : t_agents d !! id = Some r ->
  update_agent id f d = Ok (tt, set_agents (<[id := row_update f r]>) d).
Proof using Type. intros Hr. unfold update_agent. by rewrite Hr. Qed.

Lemma mapRemoteConfigStatus_check s : status_check (mapRemoteConfigStatus s) = true.
Proof using Type. by destruct s. Qed.

Lemma pg_status_spec now id status err ev detail d r :
  t_agents d !! id = Some r -> status_check status = true ->
  (forall e, ev = Some e -> event_check e = true) ->
  exists d', pg_SetAgentRemoteConfigStatus now id status err ev detail d = (Ok tt, d')
    /\ t_agents d' = <[id := row_update (agent_remote_status status err) r]> (t_agents d)
    /\ exists new, t_agent_events d' = (t_agent_events d ++ new)%list
         /\ ((fun x => (AgentEvent_AgentID x, AgentEvent_EventType x)) <$> new) = match ev with Some e => [(id, e)] | None => [] end.
Proof using Type.
  intros Hr Hs He. unfold pg_SetAgentRemoteConfigStatus, inTx, tx_bind. rewrite (update_agent_row _ _ _ _ Hr).
  unfold tx_check. rewrite Hs. cbn [tx_ret]. destruct ev as [e|].
  - unfold insertAgentEvent. rewrite (He e eq_refl). simpl. rewrite lookup_insert_eq. simpl.
    eexists. split; [done|]. split; [done|]. by eexists.
  - eexists. split; [done|]. split; [done|]. exists []. by rewrite app_nil_r.
Qed.

(** What counts as a transition, and the event it leaves. *)
Definition report_transition (rcs : RemoteConfigStatus) (st : agentConn) : bool :=
  let status := mapRemoteConfigStatus (Status rcs) in
  negb (bool_decide (status = ac_remoteConfigStatus st))
  || report_newHash rcs st && (bool_decide (status = RemoteConfigApplied) || bool_decide (status = RemoteConfigFailed)).

Definition report_event (rcs : RemoteConfigStatus) : option string :=
  match Status rcs with
  | RCS_APPLIED => Some AgentEventConfigApplied
  | RCS_FAILED => Some AgentEventConfigFailed
  | _ => None
  end.

(** The kinds of events, with their agents. *)
Definition event_kinds (l : list AgentEvent) : list (N * string) :=
  (fun x => (AgentEvent_AgentID x, AgentEvent_EventType x)) <$> l.

(** The row of a state's agent, and that the state mirrors it. *)
Definition mirrors (d : DB) (st : agentConn) (row : agent_row) : Prop :=
  t_agents d !! ac_agentID st = Some row
  /\ Agent_AckedConfigHash (ag_agent row) = ac_lastAckedHash st
  /\ Agent_RemoteConfigStatus (ag_agent row) = ac_remoteConfigStatus st.

Lemma acked_write id h d r : t_agents d !! id = Some r ->
  pg_SetAgentAckedConfig id h d = (Ok tt, set_agents (<[id := row_update (agent_acked h) r]>) d).
Proof using Type. intros Hr. unfold pg_SetAgentAckedConfig, inTx. by rewrite (update_agent_row _ _ _ _ Hr). Qed.

Lemma recordAck_spec rcs st (w : world DB) row st' w' :
  recordAck rcs st w = (st', w') -> mirrors (w_store w) st row ->
  same_binding st st' /\ ac_capabilities st' = ac_capabilities st
  /\ ac_remoteConfigStatus st' = ac_remoteConfigStatus st
  /\ t_agent_events (w_store w') = t_agent_events (w_store w) /\ w_emitted w' = w_emitted w
  /\ (LastRemoteConfigHash rcs <> "" -> ac_lastAckedHash st' = Some (LastRemoteConfigHash rcs))
  /\ exists row', mirrors (w_store w') st' row'.
Proof using Type.
  unfold recordAck. intros Hr (Hrow & Hack & Hst). case_bool_decide as He; cbn [negb] in Hr.
  - destruct (bool_decide (mapRemoteConfigStatus (Status rcs) = RemoteConfigUnset)).
    + unfold live_set, store_log in Hr. cbn [w_store with_reg fs_SetAgentAckedConfig pg_fleet_store the_store] in Hr.
      change (ac_agentID (set_lastAckedHash None st)) with (ac_agentID st) in Hr.
      rewrite (acked_write _ _ _ _ Hrow) in Hr. injection Hr as <- <-. split_and!; try done.
      eexists. split; [|split]; [by apply lookup_insert_eq|done|done].
    + injection Hr as <- <-. split_and!; try done. by exists row.
  - unfold live_set in Hr. destruct (report_newHash rcs st) eqn:Hn.
    + unfold store_log in Hr. cbn [w_store with_reg fs_SetAgentAckedConfig pg_fleet_store the_store] in Hr.
      change (ac_agentID (set_lastAckedHash _ st)) with (ac_agentID st) in Hr.
      rewrite (acked_write _ _ _ _ Hrow) in Hr. injection Hr as <- <-. split_and!; try done.
      eexists. split; [|split]; [by apply lookup_insert_eq|done|done].
    + injection Hr as <- <-. split_and!; try done. exists row. split; [done|split]; [|done].
      unfold report_newHash in Hn. rewrite bool_decide_false in Hn by done. simpl in Hn.
      apply negb_false_iff, bool_decide_eq_true in Hn. rewrite Hack. simpl.
      destruct (ac_lastAckedHash st); simpl in Hn; congruence.
Qed.

Lemma report_event_check rcs ev : report_event rcs = Some ev -> event_check ev = true.
Proof using Type. unfold report_event. by destruct (Status rcs); intros [= <-]. Qed.

(** Everything a report does, shared by the theorems below. *)
Lemma remote_status_core e rcs st (w : world DB) st' w' row :
  handleRemoteConfigStatus sink e rcs st w = (st', w') -> mirrors (w_store w) st row ->
  (exists new, t_agent_events (w_store w') = (t_agent_events (w_store w) ++ new)%list
     /\ event_kinds new = if report_transition rcs st then (fun ev => (ac_agentID st, ev)) <$> option_list (report_event rcs) else []) /\
  (fe_type <$> w_emitted w') = ((fe_type <$> w_emitted w) ++
     (if report_transition rcs st && bool_decide (mapRemoteConfigStatus (Status rcs) = RemoteConfigFailed) && sink
      then [WebhookEventAgentConfigFailed] else []))%list /\
  same_binding st st' /\ ac_capabilities st' = ac_capabilities st /\
  ac_remoteConfigStatus st' = mapRemoteConfigStatus (Status rcs) /\
  (LastRemoteConfigHash rcs <> "" -> ac_lastAckedHash st' = Some (LastRemoteConfigHash rcs)) /\
  exists row', mirrors (w_store w') st' row'.
Proof using Type.
  intros Hh Hm. unfold handleRemoteConfigStatus in Hh. destruct (recordAck rcs st w) as [st1 w1] eqn:Hr.
  destruct (recordAck_spec _ _ _ _ _ _ Hr Hm) as (Hb & Hcap & Hst & Hev & Hem & Hack & row1 & Hm1).
  assert (ac_agentID st1 = ac_agentID st) as Hid by (by destruct Hb as (_ & _ & ? & _)).
  rewrite Hst in Hh. rewrite <- Hev, <- Hem. clear Hr Hm.
  unfold report_transition. set (status := mapRemoteConfigStatus (Status rcs)) in *.
  set (terminal := bool_decide (status = RemoteConfigApplied) || bool_decide (status = RemoteConfigFailed)) in *.
  destruct (bool_decide (status = ac_remoteConfigStatus st) && negb (report_newHash rcs st && terminal)) eqn:Hskip.
  - apply andb_prop in Hskip as [Hs1 Hs2%negb_true_iff]. injection Hh as <- <-. rewrite Hs1, Hs2. simpl.
    apply bool_decide_eq_true in Hs1. split; [exists []; by rewrite app_nil_r|].
    split; [by rewrite app_nil_r|]. split; [exact Hb|].
    split; [done|]. split; [congruence|]. split; [done|]. by exists row1.
  - assert (negb (bool_decide (status = ac_remoteConfigStatus st)) || report_newHash rcs st && terminal = true) as ->.
    { apply andb_false_iff in Hskip as [->|Hs%negb_false_iff]; [done|]. rewrite Hs. apply orb_true_r. }
    destruct Hm1 as (Hrow1 & Hack1 & Hst1). unfold store_call in Hh.
    cbn [fs_SetAgentRemoteConfigStatus pg_fleet_store the_store] in Hh.
    replace (if bool_decide (status = RemoteConfigApplied) then Some AgentEventConfigApplied
             else if bool_decide (status = RemoteConfigFailed) then Some AgentEventConfigFailed else None)
      with (report_event rcs) in Hh by (unfold status, report_event; by destruct (Status rcs)).
    destruct (pg_status_spec (me_db_now e) (ac_agentID st1) status
      (if bool_decide (status = RemoteConfigFailed) && negb (bool_decide (ErrorMessage rcs = ""))
       then Some (ErrorMessage rcs) else None) (report_event rcs)
      (Some (JObj (("hash", JStr (hex_encode (LastRemoteConfigHash rcs))) ::
           (if bool_decide (status = RemoteConfigFailed) && negb (bool_decide (ErrorMessage rcs = ""))
            then [("error", JStr (ErrorMessage rcs))] else [])))) (w_store w1) row1 Hrow1
      (mapRemoteConfigStatus_check _) (report_event_check rcs)) as (d' & Heq & Hag & new & Hnew & Hkinds).
    rewrite Heq in Hh. cbn [is_ok negb] in Hh. clear Heq.
    assert (w_store w' = d' /\ st' = set_remoteConfigStatus status st1 /\
            w_emitted w' = w_emitted (if bool_decide (status = RemoteConfigFailed)
              then emitEvent sink WebhookEventAgentConfigFailed (ac_agentID st1) (ac_customerID st1)
                (Some (JObj (("hash", JStr (hex_encode (LastRemoteConfigHash rcs))) ::
                  (if bool_decide (status = RemoteConfigFailed) && negb (bool_decide (ErrorMessage rcs = ""))
                   then [("error", JStr (ErrorMessage rcs))] else [])))) w1 else w1)) as (Hd & -> & Hem').
    { unfold live_set in Hh. injection Hh as <- <-. unfold emitEvent. destruct (bool_decide (status = RemoteConfigFailed)), sink; repeat split. }
    rewrite Hd, Hem'. clear Hh Hd Hem'. split; [exists new; split; [done|]|].
    { unfold event_kinds. rewrite Hkinds, Hid. by destruct (report_event rcs). }
    split.
    { unfold emitEvent. destruct (bool_decide (status = RemoteConfigFailed)), sink; simpl;
        rewrite ?fmap_app, ?app_nil_r; reflexivity. }
    split; [exact Hb|]. split; [done|]. split; [done|]. split; [done|].
    eexists. split; [|split]; [by rewrite Hag; apply lookup_insert_eq|done|done].
Qed.

(** A remote-config report leaves an event exactly when it is a transition to
    applied or failed, the webhook subscribers hear of exactly the failed
    transitions, and the row afterwards holds the reported status and the
    acknowledged hash, as the connection state remembers them. *)
Theorem remote_status_report e rcs st (w : world DB) st' w' row :
  handleRemoteConfigStatus sink e rcs st w = (st', w') -> mirrors (w_store w) st row ->
  (exists new, t_agent_events (w_store w') = (t_agent_events (w_store w) ++ new)%list
     /\ event_kinds new = if report_transition rcs st then (fun ev => (ac_agentID st, ev)) <$> option_list (report_event rcs) else []) /\
  (fe_type <$> w_emitted w') = ((fe_type <$> w_emitted w) ++
     (if report_transition rcs st && bool_decide (mapRemoteConfigStatus (Status rcs) = RemoteConfigFailed) && sink
      then [WebhookEventAgentConfigFailed] else []))%list /\
  exists row', mirrors (w_store w') st' row' /\ ac_remoteConfigStatus st' = mapRemoteConfigStatus (Status rcs)
    /\ (LastRemoteConfigHash rcs <> "" -> ac_lastAckedHash st' = Some (LastRemoteConfigHash rcs)).
Proof using Type.
  intros Hh Hm. destruct (remote_status_core _ _ _ _ _ _ _ Hh Hm) as (Hev & Hem & _ & _ & Hst & Hack & row' & Hm').
  split; [exact Hev|]. split; [exact Hem|]. by exists row'.
Qed.

(** Once an agent has acknowledged the hash of the config its customer renders
    to, a later offer is empty, and the row says the agent is in sync: assigned
    and acknowledged hash are both that hash. *)
Theorem acknowledged_config_settles e rcs st (w : world DB) st' w' row desired resp resp' w'' :
  handleRemoteConfigStatus sink e rcs st w = (st', w') -> mirrors (w_store w) st row ->
  RenderEdgeCurrent (ac_customerID st) (w_store w') = Some desired ->
  LastRemoteConfigHash rcs = sha256 desired -> sha256 desired <> "" ->
  maybeOfferConfig RenderEdgeCurrent st' resp w' = (resp', w'') ->
  resp' = resp /\
  (has_cap (ac_capabilities st) AgentCap_AcceptsRemoteConfig = true ->
   exists row'', t_agents (w_store w'') !! ac_agentID st = Some row''
     /\ Agent_AssignedConfigHash (ag_agent row'') = Some (sha256 desired)
     /\ Agent_AckedConfigHash (ag_agent row'') = Some (sha256 desired)).
Proof using Type.
  intros Hh Hm Hren Hhash Hne Ho.
  destruct (remote_status_core _ _ _ _ _ _ _ Hh Hm) as (_ & _ & (_ & _ & Hid & Hcu) & Hcap & _ & Hack & row' & Hrow & Hack' & _).
  rewrite Hhash in Hack. specialize (Hack Hne). unfold maybeOfferConfig in Ho. rewrite Hcap in Ho.
  destruct (has_cap _ _) eqn:Hc; cbn [negb] in Ho; [|by injection Ho as <- <-].
  rewrite Hcu, Hren, Hack in Ho. cbn [default] in Ho. rewrite bool_decide_true in Ho by done.
  injection Ho as <- <-. split; [done|]. intros _. rewrite Hid in Hrow |- *.
  unfold store_log, pg_SetAgentAssignedConfig, inTx.
  cbn [fs_SetAgentAssignedConfig pg_fleet_store the_store w_store with_store].
  unfold pg_SetAgentAssignedConfig, inTx. rewrite (update_agent_row _ _ _ _ Hrow). simpl.
  eexists. split; [by apply lookup_insert_eq|]. simpl. by rewrite Hack', Hack.
Qed.

End pg.

(** ** Concrete runs *)

(** Protocol numbers of the OpAMP specification. *)
Definition ex_protocol : Protocol := Build_Protocol 1 2 4 32 2 256 1.
Definition ex_formats : Formats := Build_Formats (fun _ => Some "0") (fun _ => "t").
Definition ex_sha : Sha256 := fun s => s.

#[local] Existing Instances ex_protocol ex_formats ex_sha.
#[local] Instance ex_store : FleetStore DB := pg_fleet_store (fun _ => "token").

Definition ex_render (c : N) (d : DB) : option string := Some "receivers: {}".

(** The customer of [ex_db] with a bootstrap token for a single use. *)
Definition ex_token_run : result (BootstrapToken * string) svc_err * DB :=
  CreateBootstrapToken (fun _ => "token") (ex_env 2) 0 None 1 "edge" None 1 ex_db.
Definition ex_token_db : DB := ex_token_run.2.
Definition ex_bearer : string :=
  "Bearer " +:+ match ex_token_run.1 with Ok (_, secret) => secret | Err _ => "" end.
Definition ex_auth : ConnAuth := MkConnAuth 2 1 None false.

Definition ex_message (uid : string) : AgentToServer :=
  MkAgentToServer uid (Some (MkDescription [("service.name", AVString "otelcol")] [])) 263 None None None.
Definition ex_menv (id : N) : msg_env := MkMsgEnv 5 5 5 id (Some ex_buf).

Definition ex_start : fleet := fleet_init ex_token_db.
Definition ex_connected : fleet := MkFleet (f_world ex_start) {[9%N := ex_auth]}.

Definition ex_handle (id : N) (uid : string) (w : world DB) : ServerToAgent * world DB :=
  HandleMessage ex_render true "wss://fleet" (ex_menv id) (Some 9%N) ex_auth (ex_message uid) w.
Definition ex_enrolled_run : ServerToAgent * world DB := ex_handle 20 "uid-a" (f_world ex_connected).
Definition ex_twice_run : ServerToAgent * world DB := ex_handle 21 "uid-b" ex_enrolled_run.2.

Definition ex_twice : fleet := MkFleet ex_twice_run.2 (f_auth ex_connected).
Definition ex_closed : fleet := MkFleet (HandleConnectionClose true 7 7 9 ex_twice_run.2) (f_auth ex_connected).

Abbreviation ex_step := (fleet_step ex_render true "wss://fleet").

Lemma ex_enrolled_reachable : rtc ex_step ex_start (MkFleet ex_enrolled_run.2 (f_auth ex_connected)).
Proof.
  apply (rtc_l _ _ ex_connected).
  { apply (step_connect _ _ _ (f_world ex_start) ∅ 9 5 ex_bearer ex_auth); vm_compute; reflexivity. }
  apply rtc_once, (step_message _ _ _ (f_world ex_connected) (f_auth ex_connected) 9 ex_auth (ex_menv 20)
    (ex_message "uid-a") ex_enrolled_run.1); [vm_compute; reflexivity|]. apply surjective_pairing.
Qed.

Lemma ex_twice_reachable : rtc ex_step ex_start ex_twice.
Proof.
  etransitivity; [apply ex_enrolled_reachable|].
  apply rtc_once, (step_message _ _ _ ex_enrolled_run.2 (f_auth ex_connected) 9 ex_auth (ex_menv 21)
    (ex_message "uid-b") ex_twice_run.1); [vm_compute; reflexivity|]. apply surjective_pairing.
Qed.

Lemma ex_closed_reachable : rtc ex_step ex_start ex_closed.
Proof. eapply rtc_r; [apply ex_twice_reachable|]. unfold ex_twice, ex_closed. apply step_close. Qed.

(** The use limit of a bootstrap token is checked when a connection
    authenticates and not when an agent enrolls: one connection with a
    single-use token can enroll two agents. *)
Theorem single_use_token_enrolls_twice :
  exists f b, rtc ex_step ex_start f /\ t_bootstrap_tokens (w_store (f_world f)) !! 2%N = Some b
    /\ BootstrapToken_MaxUses b = 1%Z /\ BootstrapToken_UsedCount b = 2%Z
    /\ (exists r1 r2, t_agents (w_store (f_world f)) !! 20%N = Some r1 /\ t_agents (w_store (f_world f)) !! 21%N = Some r2
          /\ Agent_EnrolledVia (ag_agent r1) = Some 2%N /\ Agent_EnrolledVia (ag_agent r2) = Some 2%N).
Proof.
  exists ex_twice. eexists. split; [apply ex_twice_reachable|]. split; [vm_compute; reflexivity|].
  do 2 (split; [reflexivity|]). do 2 eexists. do 2 (split; [vm_compute; reflexivity|]). split; reflexivity.
Qed.

(** A connection that reports a second instance UID leaves the first one in the
    registry for good: after the connection is closed, its agent still counts as
    connected, in the registry and in the database. *)
Theorem first_uid_outlives_connection :
  exists f, rtc ex_step ex_start f /\ byConn (w_reg (f_world f)) = ∅
    /\ IsConnected "uid-a" (f_world f) = true /\ IsConnected "uid-b" (f_world f) = false
    /\ exists r, t_agents (w_store (f_world f)) !! 20%N = Some r /\ Agent_Connected (ag_agent r) = true.
Proof.
  exists ex_closed. split; [apply ex_closed_reachable|].
  do 3 (split; [vm_compute; reflexivity|]). eexists. split; vm_compute; reflexivity.
Qed.

(** *** Witnesses *)

Lemma Authenticate_sound_witness :
  exists token b, ex_bearer = "Bearer " +:+ token /\ t_bootstrap_tokens ex_token_db !! 2%N = Some b
    /\ BootstrapToken_TokenHash b = ex_sha token /\ BootstrapToken_RevokedAt b = None.
Proof.
  destruct (Authenticate_sound (fun _ => "token") 5 ex_bearer ex_token_db ex_auth) as (token & cu & Hb & _ & _ & [Ha|Ht]).
  - vm_compute. reflexivity.
  - destruct Ha as (i & r & _ & _ & _ & Hv & _). vm_compute in Hv. discriminate.
  - destruct Ht as (i & b & Hi & Hh & _ & Hid & Hr & _). exists token, b. split; [exact Hb|].
    assert (i = 2%N) as ->.
    { apply (elem_of_map_to_list (t_bootstrap_tokens ex_token_db) i b) in Hi. vm_compute in Hi.
      apply list_elem_of_singleton in Hi. injection Hi as -> _. reflexivity. }
    split; [exact Hi|]. split; [exact Hh|exact Hr].
Defined.

(** The enrolled agent's row, and a connection state for it. *)
Definition ex_world : world DB := ex_enrolled_run.2.
Definition ex_state : agentConn :=
  MkAgentConn (Some 9%N) "uid-a" 20 1 263 None RemoteConfigUnset None 5 false false.
Definition ex_row : agent_row :=
  match t_agents (w_store ex_world) !! 20%N with
  | Some r => r
  | None => MkAgentRow (MkAgent 0 "" None None "" None None None None None None None None None None "" None None None
                          false None None 0) None None None
  end.
Definition ex_customer : Customer :=
  default (MkCustomer 0 "" "" "" "" "" None None 0 0) (t_customers (w_store ex_world) !! 1%N).

Definition ex_offer : ServerToAgent * world DB :=
  maybeOfferAgentToken "wss://fleet" (ex_menv 20) ex_state (base_response "uid-a") ex_world.
Definition ex_offered : ConnectionOffer := default (MkConnectionOffer "" "" "") (rsp_ConnectionSettings ex_offer.1).

Lemma ex_mirrors : mirrors (w_store ex_world) ex_state ex_row.
Proof. split_and!; vm_compute; reflexivity. Qed.

Lemma offered_token_authenticates_witness :
  Authenticate 99 (offer_Authorization ex_offered) (w_store ex_offer.2) = Ok (MkConnAuth uuid_nil 1 (Some 20%N) true).
Proof.
  refine (offered_token_authenticates (fun _ => "token") "wss://fleet" 99 (ex_menv 20) ex_state (base_response "uid-a")
    ex_world ex_offer.1 ex_offer.2 ex_offered ex_buf ex_row ex_customer _ _ _ _ _ _ _ _ _ _ _);
    try (vm_compute; reflexivity).
  intros i r secret _ Hne Hi. exfalso. apply Hne.
  apply (elem_of_map_to_list (t_agents (w_store ex_world)) i r) in Hi. vm_compute in Hi.
  apply list_elem_of_singleton in Hi. injection Hi as -> _. reflexivity.
Defined.

Definition ex_report : RemoteConfigStatus := MkRemoteConfigStatus "receivers: {}" RCS_APPLIED "".
Definition ex_failure : RemoteConfigStatus := MkRemoteConfigStatus "receivers: {}" RCS_FAILED "bad config".

Lemma remote_status_report_witness :
  let r := handleRemoteConfigStatus true (ex_menv 0) ex_failure ex_state ex_world in
  (fe_type <$> w_emitted r.2) = ((fe_type <$> w_emitted ex_world) ++ [WebhookEventAgentConfigFailed])%list
  /\ exists row', mirrors (w_store r.2) r.1 row'.
Proof.
  intros r. destruct (remote_status_report (fun _ => "token") true (ex_menv 0) ex_failure ex_state ex_world r.1 r.2 ex_row)
    as (_ & Hem & row' & Hm & _).
  - apply surjective_pairing.
  - exact ex_mirrors.
  - split; [exact Hem|]. exists row'. exact Hm.
Defined.

Lemma acknowledged_config_settles_witness :
  let r := handleRemoteConfigStatus true (ex_menv 0) ex_report ex_state ex_world in
  let o := maybeOfferConfig ex_render r.1 (base_response "uid-a") r.2 in
  o.1 = base_response "uid-a" /\ exists row'', t_agents (w_store o.2) !! 20%N = Some row''
    /\ Agent_AssignedConfigHash (ag_agent row'') = Agent_AckedConfigHash (ag_agent row'').
Proof.
  intros r o.
  destruct (acknowledged_config_settles (fun _ => "token") ex_render true (ex_menv 0) ex_report ex_state ex_world r.1 r.2
              ex_row "receivers: {}" (base_response "uid-a") o.1 o.2) as [Ho Hrow].
  - apply surjective_pairing.
  - exact ex_mirrors.
  - reflexivity.
  - reflexivity.
  - discriminate.
  - apply surjective_pairing.
  - split; [exact Ho|]. destruct (Hrow eq_refl) as (row'' & Hi & Has & Hac). exists row''. split; [exact Hi|].
    rewrite Has. symmetry. exact Hac.
Defined.

(** A push to the enrolled agent goes to its own customer's connection. *)
Lemma config_isolation_witness : exists auth, f_auth ex_twice !! 9%N = Some auth /\ CustomerID auth = 1%N.
Proof.
  destruct (config_isolation ex_render true "wss://fleet" ex_token_db ex_twice ex_twice_reachable) as [Hpush _].
  destruct (EdgeConfigChanged ex_render (fun _ => true) 1 (f_world ex_twice)) as [[counts sent] w'] eqn:Hp.
  assert ((9%N, push_message "receivers: {}" "receivers: {}"
            (set_tokenOffered (MkAgentConn (Some 9%N) "uid-a" 20 1 263 None "unset" None 5 true false))) ∈ sent) as Hin.
  { apply (f_equal (fun x => x.1.2)) in Hp. vm_compute in Hp. subst sent. set_solver. }
  destruct (Hpush _ _ _ _ _ _ _ Hp Hin) as (auth & desired & Ha & Hc & _). exists auth. split; [exact Ha|exact Hc].
Defined.
