(* ===== verification/EdgeRollout.v ===== *)
(** From an activation to the agents: the pipeline service renders what the
    OpAMP handler pushes (cmd/otel-fleet/main.go hands the service to the
    handler as its renderer, and forwards the announced customers to it). *)
From S2P Require Import Prelude GoStrings Json StoreTypes Slug Tokens PgCore PgFleet PgPipelines Catalog PipelineGraph Crypto Secrets.
From S2P Require Import Render Validate RenderSpec PipelineService.
From S2P Require Import OpampRegistry OpampHandler OpampSafety OpampPg.

Open Scope string_scope.

Section rollout.
Context {AE : Aead} {YM : Yaml} {SH : Sha256} {PR : Protocol} {FO : Formats}.
Context (unicode_lower : Z -> Z) (uuid_string : N -> string) (cipher : option Cipher).
#[local] Instance rollout_store : FleetStore DB := pg_fleet_store uuid_string.

(** The service as the handler's renderer. *)
Definition edge_renderer (customerID : N) (d : DB) : option string :=
  match PipelineService.RenderEdgeCurrent unicode_lower cipher customerID d with
  | Ok config => Some config
  | Err _ => None
  end.

Lemma Forall2_lookup_elem {A B} (P : A -> B -> Prop) l k : Forall2 P l k -> forall a, a ∈ l -> exists b, b ∈ k /\ P a b.
Proof using Type.
  induction 1 as [|x y l k Hxy HF IH]; intros a Ha; [by apply elem_of_nil in Ha|].
  apply elem_of_cons in Ha as [->|Ha]; [exists y; by split; [left|]|]. destruct (IH a Ha) as (b & ? & ?). exists b. by split; [right|].
Qed.

Lemma push_all_complete send_ok desired hash c m : forall conns s sent n s',
    push_all send_ok desired hash conns s = (sent, n, s') ->
    (c, m) ∈ sent <-> exists st, st ∈ conns /\ ac_conn st = Some c /\ m = push_message desired hash st
      /\ has_cap (ac_capabilities st) AgentCap_AcceptsRemoteConfig = true.
Proof using Type.
  intros conns s sent n s' Hp. split; [by eapply push_all_elem|]. revert s sent n s' Hp.
  induction conns as [|st conns IH]; intros s sent n s'; cbn [push_all].
  { intros _ (st & Hst & _). by apply elem_of_nil in Hst. }
  intros Hp (x & [->|Hx]%elem_of_cons & Hc & Hm & Hcap).
  - rewrite Hcap, Hc in Hp. cbn [negb] in Hp. destruct (fs_SetAgentAssignedConfig _ _ s) as [y s1].
    destruct (push_all _ _ _ conns s1) as [[sent' n'] s2]. injection Hp as <- _ _. rewrite Hm. left.
  - destruct (negb _); [by eapply IH; eauto|]. destruct (fs_SetAgentAssignedConfig _ _ s) as [y s1]. destruct (ac_conn st).
    + destruct (push_all _ _ _ conns s1) as [[sent' n'] s2] eqn:Hr. injection Hp as <- _ _. right. eapply IH; eauto.
    + eapply IH; eauto.
Qed.

End rollout.

(** ** One agent of the tenant is connected *)

#[local] Existing Instances ex_aead ex_yaml ex_collector PipelineService.ex_sha ex_protocol ex_formats.

Definition ex_edge_db : DB :=
  (PipelineService.Create ex_lower (fun _ => "uuid") "no key" (Some ex_old_cipher) (PipelineService.ex_env 10) None 1%N "edge logs" "edge"
     (ex_secret_graph "hunter2") ex_pipes0).2.
Definition ex_activated : result (Pipeline * PipelineVersion) store_err * DB := pg_ActivatePipelineVersion 10%N 1%Z [] ex_edge_db.
Definition ex_conn : agentConn := MkAgentConn (Some 9%N) "uid-a" 40 1 2 None "" None 0 false false.
Definition ex_edge_world : world DB := MkWorld ex_activated.2 (MkRegistry {["uid-a" := ex_conn]} {[9%N := "uid-a"]}) [] [].

