(* ===== verification/Utf8.v ===== *)
(** The UTF-8 codec of [GoStrings]: encoding and decoding of runes are inverse,
    so conversions between strings and rune slices lose nothing but invalid
    bytes. *)
From S2P Require Import Prelude GoStrings.
From Stdlib Require Import Ascii.

Open Scope string_scope.

(** A Unicode scalar value: what [utf8.ValidRune] accepts. *)
Definition valid_rune (r : Z) : Prop := (0 <= r < 55296 \/ 57344 <= r <= 1114111)%Z.

Lemma cont_spec lo hi c : cont lo hi c = true <-> (lo <= byte_val c <= hi)%Z.
Proof. unfold cont. rewrite andb_true_iff, !Z.leb_le. done. Qed.

(** Case analysis of the decoder's tests. *)
Ltac rune_tests :=
  repeat match goal with
  | |- context [(?a <? ?b)%Z] => destruct (Z.ltb_spec a b); try lia
  | |- context [(?a <=? ?b)%Z] => destruct (Z.leb_spec a b); try lia
  | |- context [(?a =? ?b)%Z] => destruct (Z.eqb_spec a b); try lia
  end.

Lemma decode_rune_valid s : valid_rune (decode_rune s).1.
Proof.
  assert (valid_rune rune_error) as He by (unfold valid_rune, rune_error; lia).
  destruct s as [|c0 s1]; [done|]. unfold decode_rune.
  pose proof (byte_val_range c0) as H0.
  destruct (Z.ltb_spec (byte_val c0) 128); [left; simpl; lia|].
  destruct (Z.ltb_spec (byte_val c0) 194); [done|].
  destruct (Z.ltb_spec (byte_val c0) 224).
  { destruct s1 as [|c1 s2]; [done|]. destruct (cont _ _ c1) eqn:K1; [|done].
    apply cont_spec in K1. left. simpl. lia. }
  destruct (Z.ltb_spec (byte_val c0) 240).
  { destruct s1 as [|c1 [|c2 s2]]; [done..|]. destruct (cont _ _ c1) eqn:K1; [|done].
    destruct (cont _ _ c2) eqn:K2; [|done]. apply cont_spec in K1, K2. simpl.
    unfold valid_rune. revert K1. rune_tests; lia. }
  destruct (Z.ltb_spec (byte_val c0) 245); [|done].
  destruct s1 as [|c1 [|c2 [|c3 s2]]]; [done..|]. destruct (cont _ _ c1) eqn:K1; [|done].
  destruct (cont _ _ c2) eqn:K2; [|done]. destruct (cont _ _ c3) eqn:K3; [|done].
  apply cont_spec in K1, K2, K3. simpl. unfold valid_rune. revert K1. rune_tests; lia.
Qed.

Lemma decode_encode_rune r s : valid_rune r ->
  decode_rune (encode_rune r +:+ s) = (r, String.length (encode_rune r)).
Proof.
  intros Hr. unfold encode_rune.
  replace ((r <? 0) || (1114111 <? r) || (55296 <=? r) && (r <=? 57343))%Z with false.
  2: { unfold valid_rune in Hr. symmetry. rewrite !orb_false_iff, andb_false_iff, !Z.ltb_ge, !Z.leb_gt. lia. }
  assert (0 <= r <= 1114111)%Z as Hb by (unfold valid_rune in Hr; lia).
  destruct (Z.ltb_spec r 128).
  { unfold decode_rune. simpl. rewrite byte_val_of by lia. destruct (Z.ltb_spec r 128); [done|lia]. }
  pose proof (Z.div_mod r 64 ltac:(done)). pose proof (Z.mod_pos_bound r 64 ltac:(done)).
  destruct (Z.ltb_spec r 2048).
  { unfold decode_rune. simpl. unfold cont. rewrite !byte_val_of by lia. rune_tests; simpl; f_equal; lia. }
  pose proof (Z.div_mod (r / 64) 64 ltac:(done)). pose proof (Z.mod_pos_bound (r / 64) 64 ltac:(done)).
  assert (r / 4096 = r / 64 / 64)%Z as E1 by (rewrite Z.div_div by lia; done).
  destruct (Z.ltb_spec r 65536).
  { unfold decode_rune. simpl. unfold cont. rewrite !byte_val_of by lia. unfold valid_rune in Hr.
    destruct (Z.eqb_spec (224 + r / 4096) 224), (Z.eqb_spec (224 + r / 4096) 237); rune_tests; simpl; f_equal; lia. }
  pose proof (Z.div_mod (r / 4096) 64 ltac:(done)). pose proof (Z.mod_pos_bound (r / 4096) 64 ltac:(done)).
  assert (r / 262144 = r / 4096 / 64)%Z as E2 by (rewrite Z.div_div by lia; done).
  unfold decode_rune. simpl. unfold cont. rewrite !byte_val_of by lia.
  destruct (Z.eqb_spec (240 + r / 262144) 240), (Z.eqb_spec (240 + r / 262144) 244);
    rune_tests; simpl; f_equal; lia.
Qed.

Lemma encode_rune_cons r : exists c t, encode_rune r = String c t.
Proof. unfold encode_rune. repeat case_match; eauto. Qed.

(** Passing over the rest of a rune. *)
Lemma utf8_chunks_skip a b : utf8_chunks_from (String.length a) (a +:+ b) = utf8_chunks b.
Proof. induction a as [|c a IH]; [|exact IH]. simpl. done. Qed.

Lemma utf8_chunks_cons c s : utf8_chunks (String c s) =
  ((decode_rune (String c s)).1, String.substring 0 (decode_rune (String c s)).2 (String c s))
    :: utf8_chunks_from (pred (decode_rune (String c s)).2) s.
Proof. unfold utf8_chunks. cbn [utf8_chunks_from]. by destruct (decode_rune (String c s)). Qed.

Lemma utf8_runes_encode rs : Forall valid_rune rs -> utf8_runes (string_of_runes rs) = rs.
Proof.
  unfold string_of_runes, utf8_runes. induction 1 as [|r rs Hr Hrs IH]; [done|].
  cbn [fmap list_fmap concat_strings].
  pose proof (decode_encode_rune r (concat_strings (encode_rune <$> rs)) Hr) as Hd.
  destruct (encode_rune_cons r) as (c & t & E). rewrite E in *. cbn [String.append] in *.
  rewrite utf8_chunks_cons, Hd. cbn [fst snd String.length pred].
  rewrite utf8_chunks_skip. cbn [fmap list_fmap fst]. f_equal. exact IH.
Qed.

Lemma utf8_chunks_from_valid k s : Forall (fun c => valid_rune c.1) (utf8_chunks_from k s).
Proof.
  revert k. induction s as [|c s IH]; intros k; [constructor|].
  cbn [utf8_chunks_from]. destruct k as [|k]; [|apply IH].
  pose proof (decode_rune_valid (String c s)) as Hv. destruct (decode_rune (String c s)) as [r n].
  constructor; [done|apply IH].
Qed.

Lemma utf8_runes_valid s : Forall valid_rune (utf8_runes s).
Proof. unfold utf8_runes. rewrite Forall_fmap. apply utf8_chunks_from_valid. Qed.
