(* ===== verification/GoFormat.v ===== *)
(** More of Go's standard library, as far as notifications use it: the text
    [encoding/json] writes, RFC 3339 timestamps in UTC, [url.PathEscape],
    [fmt.Sprint] of dynamic values and HMAC-SHA256. *)
From S2P Require Import Prelude GoStrings Json GoFloat Tokens.
From Corelib Require Import SpecFloat.
From Stdlib Require Import Ascii.

Open Scope string_scope.

(** ** encoding/json *)

Definition nl : ascii := "010"%char.

Definition json_hex4 (n : N) : string :=
  String (hex_digit (n / 4096 mod 16)) (String (hex_digit (n / 256 mod 16))
    (String (hex_digit (n / 16 mod 16)) (String (hex_digit (n mod 16)) ""))).
Definition backslash (s : string) : string := String "092"%char s.

(** One rune of a string literal, HTML characters escaped, as [json.Marshal]
    does; a byte that is not UTF-8 is written as the replacement character. *)
Definition json_rune (c : Z * string) : string :=
  let '(r, bytes) := c in
  if (r =? 34)%Z || (r =? 92)%Z then backslash bytes
  else if (r =? 8)%Z then backslash "b"
  else if (r =? 12)%Z then backslash "f"
  else if (r =? 10)%Z then backslash "n"
  else if (r =? 13)%Z then backslash "r"
  else if (r =? 9)%Z then backslash "t"
  else if (r <? 32)%Z || (r =? 60)%Z || (r =? 62)%Z || (r =? 38)%Z || (r =? 8232)%Z || (r =? 8233)%Z
  then backslash (String "u"%char (json_hex4 (Z.to_N r)))
  else if (r =? rune_error)%Z && (String.length bytes =? 1)%nat then backslash "ufffd"
  else bytes.

Definition dquote : ascii := "034"%char.
Definition json_string (s : string) : string :=
  String dquote (concat_strings (json_rune <$> utf8_chunks s) +:+ String dquote "").

(** The members of an object are written in the order of the list; a Go map is
    given by its members sorted by key. *)
Fixpoint json_text (v : jval) : string :=
  match v with
  | JNull => "null"
  | JBool b => if b then "true" else "false"
  | JNum lit => lit
  | JStr s => json_string s
  | JArr l => "[" +:+ join "," ((fix go l := match l with [] => [] | x :: l => json_text x :: go l end) l) +:+ "]"
  | JObj m => "{" +:+ join "," ((fix go m := match m with
                                             | [] => []
                                             | x :: m => (json_string x.1 +:+ ":" +:+ json_text x.2) :: go m
                                             end) m) +:+ "}"
  end.

Example json_text_ex : json_text (JObj [("a<", JArr [JNum "1"; JNull]); ("b", JStr (String nl "x"))])
  = "{" +:+ String dquote "a" +:+ backslash "u003c" +:+ String dquote ":[1,null]," +:+ String dquote "b"
    +:+ String dquote ":" +:+ String dquote "" +:+ backslash "nx" +:+ String dquote "}".
Proof. reflexivity. Qed.

(** The members of a [map[string]V], sorted by key. *)
Definition sorted_members {V} (m : gmap string V) : list (string * V) :=
  sort_by (fun a b => str_lt a.1 b.1) (map_to_list m).

(** ** Dynamic values

    The values of a [map[string]any] the program builds itself. *)
Inductive any_value : Type :=
| AStr (s : string)
| AInt (z : Z)
| AFloat (f : spec_float).

#[global] Instance spec_float_eq_dec : EqDecision spec_float.
Proof. solve_decision. Defined.
#[global] Instance any_value_eq_dec : EqDecision any_value.
Proof. solve_decision. Defined.

(** strconv's shortest decimal of a finite float64, in the two layouts. *)
Class FloatFormat := {
  format_g : spec_float -> string;
  format_json : spec_float -> string
}.

Section any_value.
Context {FF : FloatFormat}.

(** [fmt.Sprint(v)] and the [%v] verb. *)
Definition sprint (v : any_value) : string :=
  match v with
  | AStr s => s
  | AInt z => itoa z
  | AFloat S754_nan => "NaN"
  | AFloat (S754_infinity s) => if s then "-Inf" else "+Inf"
  | AFloat f => format_g f
  end.

(** [json.Marshal] refuses NaN and the infinities. *)
Definition any_json (v : any_value) : option jval :=
  match v with
  | AStr s => Some (JStr s)
  | AInt z => Some (JNum (itoa z))
  | AFloat (S754_nan | S754_infinity _) => None
  | AFloat f => Some (JNum (format_json f))
  end.

Definition map_json (m : gmap string any_value) : option jval :=
  JObj <$> mapM (fun kv => pair kv.1 <$> any_json kv.2) (sorted_members m).
End any_value.

(** ** time.Time in UTC *)

Definition pad0 (w : nat) (z : Z) : string :=
  let s := itoa z in concat_strings (repeat "0" (w - String.length s)) +:+ s.

(** The civil date of a day number counted from 1970-01-01. *)
Definition civil (days : Z) : Z * Z * Z :=
  let z := (days + 719468)%Z in
  let era := (z / 146097)%Z in
  let doe := (z - era * 146097)%Z in
  let yoe := ((doe - doe / 1460 + doe / 36524 - doe / 146096) / 365)%Z in
  let doy := (doe - (365 * yoe + yoe / 4 - yoe / 100))%Z in
  let mp := ((5 * doy + 2) / 153)%Z in
  let d := (doy - (153 * mp + 2) / 5 + 1)%Z in
  let m := if (mp <? 10)%Z then (mp + 3)%Z else (mp - 9)%Z in
  ((yoe + era * 400 + (if (m <=? 2)%Z then 1 else 0))%Z, m, d).

Definition date_time (t : Z) : string :=
  let secs := (t / second)%Z in
  let '(y, m, d) := civil (secs / 86400) in
  let s := (secs mod 86400)%Z in
  pad0 4 y +:+ "-" +:+ pad0 2 m +:+ "-" +:+ pad0 2 d +:+ "T"
    +:+ pad0 2 (s / 3600) +:+ ":" +:+ pad0 2 (s / 60 mod 60) +:+ ":" +:+ pad0 2 (s mod 60).

(** [Format(time.RFC3339)], and the JSON form with its fraction, of a UTC time. *)
Definition rfc3339 (t : Z) : string := date_time t +:+ "Z".

Fixpoint trim_zeros (l : list ascii) : list ascii :=
  match l with
  | c :: l' => if bool_decide (c = "0"%char) then trim_zeros l' else l
  | [] => []
  end.

Definition rfc3339nano (t : Z) : string :=
  let n := (t mod second)%Z in
  if (n =? 0)%Z then rfc3339 t
  else date_time t +:+ "." +:+ of_bytes (rev (trim_zeros (rev (bytes_of (pad0 9 n))))) +:+ "Z".

Example rfc3339_ex : rfc3339 1785248241000000000 = "2026-07-28T14:17:21Z".
Proof. reflexivity. Qed.
Example rfc3339nano_ex : rfc3339nano 951782400120000000 = "2000-02-29T00:00:00.12Z".
Proof. reflexivity. Qed.
Example rfc3339_zero : rfc3339 time_zero = "0001-01-01T00:00:00Z".
Proof. reflexivity. Qed.

(** ** strings.EqualFold with an ASCII string

    Simple case folding: besides the ASCII letters themselves only the long s
    and the Kelvin sign fold to ASCII. *)
Definition fold_rune (r : Z) : Z :=
  if ((65 <=? r) && (r <=? 90))%Z then (r + 32)%Z
  else if (r =? 383)%Z then 115%Z
  else if (r =? 8490)%Z then 107%Z
  else r.
Definition EqualFold (s t : string) : bool :=
  bool_decide (fold_rune <$> utf8_runes s = fold_rune <$> utf8_runes t).

Example EqualFold_ex : EqualFold "LocalHost" "localhost" = true /\ EqualFold "localhos" "localhost" = false.
Proof. split; reflexivity. Qed.

(** ** net/url *)

Definition upper_hex (n : N) : ascii :=
  if (n <? 10)%N then ascii_of_N (48 + n) else ascii_of_N (55 + n).

(** The bytes a path segment keeps. *)
Definition path_unescaped (c : ascii) : bool :=
  is_lower c || is_upper c || is_digit c
  || bool_decide (c ∈ ["-"; "_"; "."; "~"; "$"; "&"; "+"; "="; ":"; "@"]%char).

Fixpoint PathEscape (s : string) : string :=
  match s with
  | "" => ""
  | String c s =>
      if path_unescaped c then String c (PathEscape s)
      else String "%"%char (String (upper_hex (N_of_ascii c / 16)) (String (upper_hex (N_of_ascii c mod 16)) (PathEscape s)))
  end.

Example PathEscape_ex : PathEscape "a b/c:%" = "a%20b%2Fc:%25".
Proof. reflexivity. Qed.

(** ** crypto/hmac with SHA-256 (block size 64) *)

Definition xor_byte (k : N) (c : ascii) : ascii := ascii_of_N (N.lxor k (N_of_ascii c)).
Fixpoint map_bytes (f : ascii -> ascii) (s : string) : string :=
  match s with "" => "" | String c s => String (f c) (map_bytes f s) end.

Definition hmac_sha256 {SHA : Sha256} (key message : string) : string :=
  let key := if (64 <? String.length key)%nat then sha256 key else key in
  let key := key +:+ concat_strings (repeat (String "000"%char "") (64 - String.length key)) in
  sha256 (map_bytes (xor_byte 92) key +:+ sha256 (map_bytes (xor_byte 54) key +:+ message)).
