(* ===== verification/GoParse.v ===== *)
(** What the program parses with Go's standard library: [time.ParseDuration],
    [strconv.Atoi] and [strconv.ParseBool]. *)
From S2P Require Import Prelude GoStrings GoFloat.
From Stdlib Require Import Ascii.

Open Scope string_scope.

(** ** Durations *)

Definition digit_val (c : ascii) : Z := (byte_val c - 48)%Z.

(** 1<<63 *)
Definition two63 : Z := 9223372036854775808.

(** [leadingInt]: the number and the rest, or an overflow. *)
Fixpoint leadingInt (x : Z) (s : string) : option (Z * string) :=
  match s with
  | String c s' =>
      if is_digit c then
        if (two63 / 10 <? x)%Z then None
        else let x := (x * 10 + digit_val c)%Z in if (two63 <? x)%Z then None else leadingInt x s'
      else Some (x, s)
  | "" => Some (x, s)
  end.

(** [leadingFraction]: digits that do not fit are dropped; the fraction, its
    power of ten, and the rest. *)
Fixpoint leadingFraction (x scale : Z) (overflow : bool) (s : string) : Z * Z * string :=
  match s with
  | String c s' =>
      if is_digit c then
        if overflow then leadingFraction x scale true s'
        else if ((two63 - 1) / 10 <? x)%Z then leadingFraction x scale true s'
        else
          let y := (x * 10 + digit_val c)%Z in
          if (two63 <? y)%Z then leadingFraction x scale true s' else leadingFraction y (scale * 10) false s'
      else (x, scale, s)
  | "" => (x, scale, s)
  end.

(** The unit: everything up to a dot or a digit. *)
Fixpoint take_unit (s : string) : string * string :=
  match s with
  | String c s' =>
      if bool_decide (c = "."%char) || is_digit c then ("", s)
      else let '(u, r) := take_unit s' in (String c u, r)
  | "" => ("", "")
  end.

(** U+00B5 and U+03BC, the two micro signs. *)
Definition micro1 : string := of_bytes [byte_of 194; byte_of 181] +:+ "s".
Definition micro2 : string := of_bytes [byte_of 206; byte_of 188] +:+ "s".

Definition unitMap (u : string) : option Z :=
  if bool_decide (u = "ns") then Some nanosecond
  else if bool_decide (u ∈ ["us"; micro1; micro2]) then Some 1000%Z
  else if bool_decide (u = "ms") then Some millisecond
  else if bool_decide (u = "s") then Some second
  else if bool_decide (u = "m") then Some minute
  else if bool_decide (u = "h") then Some hour
  else None.

(** One number with its unit: the value added, or [None]. *)
Definition duration_term (s : string) : option (Z * string) :=
  '(v, s1) ← leadingInt 0 s;
  let pre := negb (bool_decide (s1 = s)) in
  let '(f, scale, s2, post) :=
    match s1 with
    | String "." s1' => let '(f, scale, s2) := leadingFraction 0 1 false s1' in (f, scale, s2, negb (bool_decide (s2 = s1')))
    | _ => (0%Z, 1%Z, s1, false)
    end in
  if negb pre && negb post then None
  else
    let '(u, s3) := take_unit s2 in
    unit ← unitMap u;
    if (two63 / unit <? v)%Z then None
    else
      let v := (v * unit)%Z in
      let v := if (0 <? f)%Z
               then (v + default 0 (trunc_to_Z (fmul (float_of_Z f) (fdiv (float_of_Z unit) (float_of_Z scale)))))%Z
               else v in
      if (two63 <? v)%Z then None else Some (v, s3).

Fixpoint duration_terms (fuel : nat) (d : Z) (s : string) : option Z :=
  match s with
  | "" => Some d
  | _ =>
      match fuel with
      | O => None
      | S fuel =>
          '(v, s) ← duration_term s;
          let d := (d + v)%Z in
          if (two63 <? d)%Z then None else duration_terms fuel d s
      end
  end.

(** Every term takes a byte or more. *)
Definition ParseDuration (s : string) : option Z :=
  let '(neg, s) :=
    match s with
    | String "-" s => (true, s)
    | String "+" s => (false, s)
    | _ => (false, s)
    end in
  if bool_decide (s = "0") then Some 0%Z
  else if bool_decide (s = "") then None
  else
    d ← duration_terms (String.length s) 0 s;
    if neg then Some (- d)%Z else if (two63 - 1 <? d)%Z then None else Some d.


(** ** Numbers and booleans *)

Fixpoint digits_value (acc : Z) (l : list ascii) : option Z :=
  match l with
  | [] => Some acc
  | c :: l => if is_digit c then digits_value (acc * 10 + (byte_val c - 48)) l else None
  end.

(** [strconv.Atoi] on a 64-bit platform. *)
Definition Atoi (s : string) : option Z :=
  let unsigned := fun (neg : bool) (l : list ascii) =>
    match l with
    | [] => None
    | _ => v ← digits_value 0 l;
           let v := if neg then (- v)%Z else v in
           if (int64_min <=? v)%Z && (v <=? int64_max)%Z then Some v else None
    end in
  match bytes_of s with
  | c :: l => if bool_decide (c = "-"%char) then unsigned true l
              else if bool_decide (c = "+"%char) then unsigned false l
              else unsigned false (c :: l)
  | [] => None
  end.

Definition ParseBool (s : string) : option bool :=
  if bool_decide (s ∈ ["1"; "t"; "T"; "TRUE"; "true"; "True"]) then Some true
  else if bool_decide (s ∈ ["0"; "f"; "F"; "FALSE"; "false"; "False"]) then Some false
  else None.

Lemma Atoi_range s v : Atoi s = Some v -> (int64_min <= v <= int64_max)%Z.
Proof.
  assert (forall (w : Z), (if (int64_min <=? w)%Z && (w <=? int64_max)%Z then Some w else None) = Some v ->
    (int64_min <= v <= int64_max)%Z) as Hf.
  { intros w. destruct (_ && _) eqn:E; [|done]. intros [= <-]. apply andb_true_iff in E as [?%Z.leb_le ?%Z.leb_le]. lia. }
  unfold Atoi. destruct (bytes_of s) as [|c l]; [done|]. repeat case_bool_decide; cbv zeta; [destruct l; [done|]|destruct l; [done|]|];
    intros (w & _ & Hw)%bind_Some; by eapply Hf.
Qed.

Example parse_duration_examples :
  ParseDuration <$> ["24h"; "1.5h"; "1h15m30.918s"; "-2m"; "1d"; ""; "0"; ".5s"; "3000000h"; ".s"; "5"] =
  [Some (24 * hour); Some (90 * minute); Some (4530918 * millisecond); Some (- 2 * minute); None; None; Some 0; Some (500 * millisecond);
   None; None; None]%Z.
Proof. vm_compute. reflexivity. Qed.
