(* ===== verification/Webhooks.v ===== *)
(** Webhook notifications: internal/webhooks/dispatcher.go, vendors.go and
    validate.go.

    HTTP is a receiver that answers each attempt with a status or fails; the
    random delivery id and the state of the context are inputs.  [Publish] and
    the worker's receive are the steps of the queue; deliveries are lists of
    what each goroutine sends. *)
From S2P Require Import Prelude GoStrings Utf8 Json GoFloat GoFormat StoreTypes Tokens Crypto.
From Corelib Require Import SpecFloat.
From Stdlib Require Import Ascii.

Open Scope string_scope.

Definition queueSize : nat := 256.
Definition deliveryTimeout : Z := 10 * second.
Definition pagerDutyEndpoint : string := "https://events.pagerduty.com/v2/enqueue".
Definition opsgenieEndpoint : string := "https://api.opsgenie.com/v2/alerts".
Definition AlertFiring : string := "alert.firing".
Definition AlertResolved : string := "alert.resolved".

Record Event : Type := MkEvent {
  Event_Type : string;
  Event_OccurredAt : Z;
  Event_AgentID : N;
  Event_CustomerID : N;
  Event_Detail : option (gmap string any_value)
}.

Record AgentInfo : Type := MkAgentInfo {
  AgentInfo_ID : N;
  AgentInfo_Name : option string;
  AgentInfo_Class : string;
  AgentInfo_CustomerID : option N;
  AgentInfo_CustomerName : option string
}.

(** A nil detail map is [None]. *)
Record Payload : Type := MkPayload {
  Payload_Event : string;
  Payload_OccurredAt : Z;
  Payload_Agent : option AgentInfo;
  Payload_Detail : option (gmap string any_value)
}.

Definition detail (p : Payload) : gmap string any_value := default ∅ (Payload_Detail p).

(** ** The event queue *)

(** The retry loop of [Publish]: send if there is room, else drop the oldest
    and try again. *)
Fixpoint publish_loop (fuel : nat) (evt : Event) (q : list Event) : option (list Event) :=
  match fuel with
  | O => None
  | S fuel =>
      if (length q <? queueSize)%nat then Some (q ++ [evt])%list
      else publish_loop fuel evt (tail q)
  end.

Definition Publish (evt : Event) (q : list Event) : list Event := default q (publish_loop 2 evt q).

Definition AgentEvent (now : Z) (eventType : string) (agentID customerID : N)
  (d : option (gmap string any_value)) : list Event -> list Event :=
  Publish (MkEvent eventType now agentID customerID d).

(** ** Texts shared by the vendors *)

Definition is_set (s : option string) : bool :=
  match s with Some s => negb (bool_decide (s = "")) | None => false end.

(** The receiver's answer to attempt [n]: a status, or no answer. *)
Abbreviation receiver := (nat -> option Z) (only parsing).

Section webhooks.
Context {FF : FloatFormat} {SHA : Sha256} {AE : Aead}.
Context (uuid_string : N -> string).

Definition severityColor (severity : string) : string :=
  if bool_decide (severity = AlertSeverityCritical) then "#bb004e"
  else if bool_decide (severity = AlertSeverityWarning) then "#ffcf00"
  else if bool_decide (severity = AlertSeverityInfo) then "#255bf5"
  else "#6c92f8".

Definition slackTitle (event : string) : string * string :=
  if bool_decide (event = WebhookEventAgentOffline) then (":red_circle:", "Agent offline")
  else if bool_decide (event = WebhookEventAgentUnhealthy) then (":warning:", "Agent unhealthy")
  else if bool_decide (event = WebhookEventAgentConfigFailed) then (":x:", "Config apply failed")
  else if bool_decide (event = "test") then (":bell:", "Test notification")
  else if bool_decide (event = AlertFiring) then (":rotating_light:", "Alert firing")
  else if bool_decide (event = AlertResolved) then (":white_check_mark:", "Alert resolved")
  else (":information_source:", event).

(** [p.Detail["severity"].(string)] *)
Definition detail_severity (p : Payload) : option string :=
  match detail p !! "severity" with Some (AStr s) => Some s | _ => None end.

Definition slackMessage (p : Payload) : jval :=
  let '(emoji, title) := slackTitle (Payload_Event p) in
  let lines := [emoji +:+ " *otel-fleet* — " +:+ title] in
  let agent_lines := match Payload_Agent p with
    | None => []
    | Some a =>
        let name := match AgentInfo_Name a with
                    | Some n => if bool_decide (n = "") then "unknown" else n
                    | None => "unknown"
                    end in
        ("*Agent:* " +:+ name +:+ " (" +:+ AgentInfo_Class a +:+ ")")
          :: match AgentInfo_CustomerName a with
             | Some n => if bool_decide (n = "") then [] else ["*Customer:* " +:+ n]
             | None => []
             end
    end in
  let detail_lines := (fun kv => "*" +:+ kv.1 +:+ ":* " +:+ sprint kv.2) <$> sorted_members (detail p) in
  let text := join (String nl "")
                (lines ++ agent_lines ++ detail_lines ++ ["_" +:+ rfc3339 (Payload_OccurredAt p) +:+ "_"])%list in
  match detail_severity p with
  | Some sev => if bool_decide (sev = "") then JObj [("text", JStr text)]
                else JObj [("attachments", JArr [JObj [("color", JStr (severityColor sev));
                                                      ("mrkdwn_in", JArr [JStr "text"]); ("text", JStr text)]])]
  | None => JObj [("text", JStr text)]
  end.

Definition alertDedupKey (p : Payload) : string :=
  match detail p !! "rule" with
  | Some rule =>
      let cust := match detail p !! "customer" with
                  | Some c => if bool_decide (sprint c = "") then "all" else sprint c
                  | None => "all"
                  end in
      let metric := match detail p !! "metric" with Some m => sprint m | None => "" end in
      "otel-fleet:" +:+ sprint rule +:+ ":" +:+ cust +:+ ":" +:+ metric
  | None =>
      match Payload_Agent p with
      | Some a => "otel-fleet:" +:+ Payload_Event p +:+ ":" +:+ uuid_string (AgentInfo_ID a)
      | None => "otel-fleet:" +:+ Payload_Event p
      end
  end.

Definition eventSummary (p : Payload) : string :=
  let '(_, title) := slackTitle (Payload_Event p) in
  let s := "otel-fleet — " +:+ title in
  match detail p !! "rule" with
  | Some rule => s +:+ ": " +:+ sprint rule
  | None => match Payload_Agent p with
            | Some a => match AgentInfo_Name a with
                        | Some n => if bool_decide (n = "") then s else s +:+ ": " +:+ n
                        | None => s
                        end
            | None => s
            end
  end.

Definition eventSource (p : Payload) : string :=
  let from_detail := match detail p !! "customer" with
                     | Some c => if bool_decide (sprint c = "") then "otel-fleet" else sprint c
                     | None => "otel-fleet"
                     end in
  match Payload_Agent p with
  | Some a => if is_set (AgentInfo_CustomerName a) then default "" (AgentInfo_CustomerName a)
              else if is_set (AgentInfo_Name a) then default "" (AgentInfo_Name a)
              else from_detail
  | None => from_detail
  end.

(** The switch on an alert severity, falling through to the one on the event. *)
Definition by_severity (p : Payload) (critical warning info : string) (event : string) : string :=
  match detail_severity p with
  | Some sev => if bool_decide (sev = AlertSeverityCritical) then critical
                else if bool_decide (sev = AlertSeverityWarning) then warning
                else if bool_decide (sev = AlertSeverityInfo) then info
                else event
  | None => event
  end.
Definition by_event (p : Payload) (offline config_failed unhealthy other : string) : string :=
  if bool_decide (Payload_Event p = WebhookEventAgentOffline) then offline
  else if bool_decide (Payload_Event p = WebhookEventAgentConfigFailed) then config_failed
  else if bool_decide (Payload_Event p = WebhookEventAgentUnhealthy) then unhealthy
  else other.

Definition pagerDutySeverity (p : Payload) : string :=
  by_severity p "critical" "warning" "info" (by_event p "critical" "error" "warning" "info").
Definition opsgeniePriority (p : Payload) : string :=
  by_severity p "P1" "P3" "P5" (by_event p "P1" "P2" "P3" "P4").

Definition detailStrings (p : Payload) : gmap string string := sprint <$> detail p.

Definition truncate (s : string) (n : nat) : string :=
  let r := utf8_runes s in
  if (length r <=? n)%nat then s else string_of_runes (take n r).

Definition opsgenieAlias (p : Payload) : string := truncate (alertDedupKey p) 512.

(** ** Request bodies

    [None]: json.Marshal refuses the value. *)

Definition opt_str (s : option string) : jval := match s with Some s => JStr s | None => JNull end.
Definition opt_uuid (i : option N) : jval := match i with Some i => JStr (uuid_string i) | None => JNull end.

Definition agent_json (a : AgentInfo) : jval :=
  JObj [("id", JStr (uuid_string (AgentInfo_ID a))); ("name", opt_str (AgentInfo_Name a));
        ("class", JStr (AgentInfo_Class a)); ("customerId", opt_uuid (AgentInfo_CustomerID a));
        ("customerName", opt_str (AgentInfo_CustomerName a))].

(** The struct's fields in order; an empty [agent] or [detail] is omitted. *)
Definition payload_json (p : Payload) : option jval :=
  let head := [("event", JStr (Payload_Event p)); ("occurredAt", JStr (rfc3339nano (Payload_OccurredAt p)))] in
  let agent := match Payload_Agent p with Some a => [("agent", agent_json a)] | None => [] end in
  if bool_decide (detail p = ∅) then Some (JObj (head ++ agent)%list)
  else (fun d => JObj (head ++ agent ++ [("detail", d)])%list) <$> map_json (detail p).

Definition pagerDutyBody (p : Payload) (routingKey : string) : option jval :=
  let action := if bool_decide (Payload_Event p = AlertResolved) then "resolve" else "trigger" in
  let dedup := ("dedup_key", JStr (alertDedupKey p)) in
  let key := ("routing_key", JStr routingKey) in
  if bool_decide (action = "trigger") then
    (fun d => JObj [dedup; ("event_action", JStr action);
                    ("payload", JObj [("custom_details", d);
                                      ("severity", JStr (pagerDutySeverity p));
                                      ("source", JStr (eventSource p));
                                      ("summary", JStr (truncate (eventSummary p) 1024));
                                      ("timestamp", JStr (rfc3339 (Payload_OccurredAt p)))]);
                    key])
      <$> match Payload_Detail p with None => Some JNull | Some d => map_json d end
  else Some (JObj [dedup; ("event_action", JStr action); key]).

Definition opsgenieCreateBody (p : Payload) : jval :=
  JObj [("alias", JStr (opsgenieAlias p));
        ("details", JObj ((fun kv => (kv.1, JStr kv.2)) <$> sorted_members (detailStrings p)));
        ("message", JStr (truncate (eventSummary p) 130));
        ("priority", JStr (opsgeniePriority p));
        ("source", JStr "otel-fleet")].

Definition opsgenieCloseBody : jval := JObj [("note", JStr "resolved by otel-fleet"); ("source", JStr "otel-fleet")].

Definition Signature (secret body : string) : string := "sha256=" +:+ hex_encode (hmac_sha256 secret body).

(** ** Rendering *)

Inductive webhook_err : Type :=
| ErrSecret (e : crypto_err)
| ErrUnsupportedValue.

Record request : Type := MkRequest {
  req_url : string;
  req_body : string;
  req_headers : gmap string string
}.

Definition marshal (v : option jval) : result string webhook_err :=
  match v with Some v => Ok (json_text v) | None => Err ErrUnsupportedValue end.

Definition base_headers (deliveryID eventType : string) : gmap string string :=
  {[ "Content-Type" := "application/json"; "X-Otelfleet-Event" := eventType; "X-Otelfleet-Delivery" := deliveryID ]}.

(** The channel secret, empty when none is stored. *)
Definition channel_secret (cipher : option Cipher) (wh : Webhook) : result string webhook_err :=
  match Webhook_SecretEnc wh with
  | None | Some "" => Ok ""
  | Some enc => match Decrypt enc cipher with Ok s => Ok s | Err e => Err (ErrSecret e) end
  end.

Definition render (cipher : option Cipher) (deliveryID : string) (wh : Webhook) (eventType : string) (p : Payload)
  : result request webhook_err :=
  let headers := base_headers deliveryID eventType in
  let url := Webhook_URL wh in
  match channel_secret cipher wh with
  | Err e => Err e
  | Ok secret =>
      if bool_decide (Webhook_Type wh = WebhookTypeSlack) then
        Ok (MkRequest url (json_text (slackMessage p)) headers)
      else if bool_decide (Webhook_Type wh = WebhookTypePagerDuty) then
        match marshal (pagerDutyBody p secret) with
        | Err e => Err e
        | Ok body => Ok (MkRequest (if bool_decide (url = "") then pagerDutyEndpoint else url) body headers)
        end
      else if bool_decide (Webhook_Type wh = WebhookTypeOpsgenie) then
        let base := if bool_decide (url = "") then opsgenieEndpoint else url in
        let headers := <["Authorization" := "GenieKey " +:+ secret]> headers in
        if bool_decide (Payload_Event p = AlertResolved) then
          Ok (MkRequest (base +:+ "/" +:+ PathEscape (opsgenieAlias p) +:+ "/close?identifierType=alias")
                (json_text opsgenieCloseBody) headers)
        else Ok (MkRequest base (json_text (opsgenieCreateBody p)) headers)
      else
        match marshal (payload_json p) with
        | Err e => Err e
        | Ok body => Ok (MkRequest url body
                           (if bool_decide (secret = "") then headers
                            else <["X-Otelfleet-Signature" := Signature secret body]> headers))
        end
  end.

(** ** Delivery *)

Definition backoff : list Z := [second; 5 * second; 25 * second]%Z.

Inductive delivery_outcome : Type :=
| Delivered (status : Z)
| DeliveryRejected (status : Z)
| GaveUp
| Cancelled
| RenderFailed (e : webhook_err).

(** What a delivery sent, in order, the waits between attempts, and its end. *)
Record delivery : Type := MkDelivery {
  dl_requests : list request;
  dl_waits : list Z;
  dl_outcome : delivery_outcome
}.

Definition dl_cons (r : request) (w : Z) (d : delivery) : delivery :=
  MkDelivery (r :: dl_requests d) (w :: dl_waits d) (dl_outcome d).

(** The attempts from number [attempt] on; [cancelled n]: the context ends
    during the wait after attempt [n].  [None]: out of fuel. *)
Fixpoint deliver_loop (fuel attempt : nat) (r : request) (answer : receiver) (cancelled : nat -> bool)
  : option delivery :=
  match fuel with
  | O => None
  | S fuel =>
      let retry :=
        match backoff !! attempt with
        | None => Some (MkDelivery [r] [] GaveUp)
        | Some w => if cancelled attempt then Some (MkDelivery [r] [w] Cancelled)
                    else dl_cons r w <$> deliver_loop fuel (S attempt) r answer cancelled
        end in
      match answer attempt with
      | Some status =>
          if ((200 <=? status) && (status <? 300))%Z then Some (MkDelivery [r] [] (Delivered status))
          else if (status <? 500)%Z then Some (MkDelivery [r] [] (DeliveryRejected status))
          else retry
      | None => retry
      end
  end.

Definition deliverWithRetry (cipher : option Cipher) (deliveryID : string) (wh : Webhook) (eventType : string) (p : Payload)
  (answer : receiver) (cancelled : nat -> bool) : option delivery :=
  match render cipher deliveryID wh eventType p with
  | Err e => Some (MkDelivery [] [] (RenderFailed e))
  | Ok r => deliver_loop (S (length backoff)) 0 r answer cancelled
  end.

(** [SendTest]: one attempt and the message for the caller; a render error is
    reported by its text. *)
Definition SendTest (cipher : option Cipher) (deliveryID : string) (now : Z) (wh : Webhook) (answer : option Z)
  (err_text : option webhook_err -> string) : bool * string :=
  match render cipher deliveryID wh "test"
          (MkPayload "test" now None (Some {[ "message" := AStr "otel-fleet test delivery"; "channel" := AStr (Webhook_Name wh) ]})) with
  | Err e => (false, "delivery failed: " +:+ err_text (Some e))
  | Ok _ => match answer with
            | None => (false, "delivery failed: " +:+ err_text None)
            | Some status => (((200 <=? status) && (status <? 300))%Z, "receiver returned HTTP " +:+ itoa status)
            end
  end.

(** ** Fan-out: the deliveries started, one goroutine each *)

Definition SendToChannels (channels : list Webhook) (p : Payload) : list (Webhook * string * Payload) :=
  (fun wh => (wh, Payload_Event p, p)) <$> filter (fun wh => Webhook_Enabled wh = true) channels.

Definition buildPayload (getAgent : N -> result Agent store_err) (evt : Event) : Payload :=
  let cid := if decide (Event_CustomerID evt = uuid_nil) then None else Some (Event_CustomerID evt) in
  let info := match getAgent (Event_AgentID evt) with
              | Ok a => MkAgentInfo (Event_AgentID evt) (Agent_Name a) (Agent_Class a) (Agent_CustomerID a) (Agent_CustomerName a)
              | Err _ => MkAgentInfo (Event_AgentID evt) None AgentClassEdge cid None
              end in
  MkPayload (Event_Type evt) (Event_OccurredAt evt) (Some info) (Event_Detail evt).

Definition dispatch (hooks : result (list Webhook) store_err) (getAgent : N -> result Agent store_err) (evt : Event)
  : list (Webhook * string * Payload) :=
  match hooks with
  | Err _ => []
  | Ok hooks =>
      let matched := filter (fun wh => Webhook_Enabled wh = true /\ Event_Type evt ∈ Webhook_Events wh) hooks in
      match matched with
      | [] => []
      | _ => let p := buildPayload getAgent evt in (fun wh => (wh, Event_Type evt, p)) <$> matched
      end
  end.
End webhooks.

(** ** Target validation

    [url.Parse] gives the scheme and the host name of a URL, [net.ParseIP] the
    16 bytes of an address. *)
Class NetUrl := {
  url_Parse : string -> option (string * string);
  ParseIP : string -> option (list Z)
}.

(** [To4]: the IPv4 form of a mapped address. *)
Definition v4_prefix : list Z := [0; 0; 0; 0; 0; 0; 0; 0; 0; 0; 255; 255]%Z.
Definition To4 (ip : list Z) : option (list Z) :=
  if bool_decide (take 12 ip = v4_prefix) then Some (drop 12 ip) else None.

Definition byte_at (ip : list Z) (i : nat) : Z := default 0%Z (ip !! i).

Definition IsUnspecified (ip : list Z) : bool :=
  match To4 ip with
  | Some v4 => bool_decide (v4 = [0; 0; 0; 0]%Z)
  | None => bool_decide (ip = repeat 0%Z 16)
  end.
Definition IsLoopback (ip : list Z) : bool :=
  match To4 ip with
  | Some v4 => (byte_at v4 0 =? 127)%Z
  | None => bool_decide (ip = repeat 0%Z 15 ++ [1%Z])%list
  end.
Definition IsLinkLocalUnicast (ip : list Z) : bool :=
  match To4 ip with
  | Some v4 => (byte_at v4 0 =? 169)%Z && (byte_at v4 1 =? 254)%Z
  | None => (byte_at ip 0 =? 254)%Z && (Z.land (byte_at ip 1) 192 =? 128)%Z
  end.
Definition IsLinkLocalMulticast (ip : list Z) : bool :=
  match To4 ip with
  | Some v4 => (byte_at v4 0 =? 224)%Z && (byte_at v4 1 =? 0)%Z && (byte_at v4 2 =? 0)%Z
  | None => (byte_at ip 0 =? 255)%Z && (Z.land (byte_at ip 1) 15 =? 2)%Z
  end.

Definition isLoopbackHost (host : string) (ip : option (list Z)) : bool :=
  EqualFold host "localhost"
  || match ip with Some ip => IsLoopback ip | None => false end.

Inductive url_err : Type :=
| ErrInvalidURL
| ErrNoHost
| ErrLinkLocal
| ErrPlainHTTP
| ErrScheme.

Definition ValidateURL {NU : NetUrl} (raw : string) : option url_err :=
  match url_Parse (trim_space raw) with
  | None => Some ErrInvalidURL
  | Some (scheme, host) =>
      if bool_decide (host = "") then Some ErrNoHost
      else
        let ip := ParseIP host in
        let blocked := match ip with
                       | Some ip => IsLinkLocalUnicast ip || IsLinkLocalMulticast ip || IsUnspecified ip
                       | None => false
                       end in
        if blocked then Some ErrLinkLocal
        else if bool_decide (scheme = "https") then None
        else if bool_decide (scheme = "http") then
          if isLoopbackHost host ip then None else Some ErrPlainHTTP
        else Some ErrScheme
  end.

(** ** Delivery ends *)

#[global] Instance crypto_err_eq_dec : EqDecision crypto_err.
Proof. solve_decision. Defined.
#[global] Instance webhook_err_eq_dec : EqDecision webhook_err.
Proof. solve_decision. Defined.
#[global] Instance delivery_outcome_eq_dec : EqDecision delivery_outcome.
Proof. solve_decision. Defined.

(** An answer that leads to another attempt. *)
Definition transient (a : option Z) : Prop := match a with None => True | Some status => (500 <= status)%Z end.

Definition outcome_of (answer : receiver) (cancelled : nat -> bool) (last : nat) (o : delivery_outcome) : Prop :=
  match o with
  | Delivered status => answer last = Some status /\ (200 <= status < 300)%Z
  | DeliveryRejected status => answer last = Some status /\ (status < 500)%Z /\ ~ (200 <= status < 300)%Z
  | GaveUp => last = 3%nat /\ transient (answer last)
  | Cancelled => transient (answer last) /\ cancelled last = true
  | RenderFailed _ => False
  end.

(** A run of the loop: [n + 1] requests, all the same, after transient answers
    and uninterrupted waits. *)
Definition loop_run (attempt : nat) (r : request) (answer : receiver) (cancelled : nat -> bool) (d : delivery) : Prop :=
  exists n, (attempt + n <= 3)%nat /\ dl_requests d = replicate (S n) r
    /\ (forall i, (attempt <= i < attempt + n)%nat -> transient (answer i) /\ cancelled i = false)
    /\ outcome_of answer cancelled (attempt + n) (dl_outcome d)
    /\ dl_waits d = take (if bool_decide (dl_outcome d = Cancelled) then S n else n) (drop attempt backoff).

(** *** Properties *)

Section delivery.
Context {FF : FloatFormat} {SHA : Sha256} {AE : Aead}.

Lemma deliver_loop_retry fuel attempt r answer cancelled : transient (answer attempt) ->
  deliver_loop (S fuel) attempt r answer cancelled =
    match backoff !! attempt with
    | None => Some (MkDelivery [r] [] GaveUp)
    | Some w => if cancelled attempt then Some (MkDelivery [r] [w] Cancelled)
                else dl_cons r w <$> deliver_loop fuel (S attempt) r answer cancelled
    end.
Proof.
  cbn [deliver_loop]. destruct (answer attempt) as [st|]; [|done]. simpl. intros Ht.
  replace (_ && _) with false by lia. destruct (Z.ltb_spec st 500); [lia|done].
Qed.

Lemma deliver_loop_final fuel k r answer cancelled : (k <= 3)%nat -> ~ transient (answer k) ->
  exists d, deliver_loop (S fuel) k r answer cancelled = Some d /\ loop_run k r answer cancelled d.
Proof.
  intros Hk Ht. assert (exists o, deliver_loop (S fuel) k r answer cancelled = Some (MkDelivery [r] [] o)
    /\ o <> Cancelled /\ outcome_of answer cancelled k o) as (o & Hd & Hc & Ho).
  { cbn [deliver_loop]. destruct (answer k) as [st|] eqn:Ha; [|done]. simpl in Ht.
    destruct ((200 <=? st) && (st <? 300))%Z eqn:H2; [|destruct (Z.ltb_spec st 500); [|lia]];
      eexists; (split_and!; [done..|]); simpl; lia || (split; [done|lia]). }
  eexists; split; [exact Hd|]. exists 0%nat. rewrite Nat.add_0_r.
  split_and!; [lia|done|lia|done|by rewrite bool_decide_false].
Qed.

#[local] Instance transient_dec a : Decision (transient a).
Proof. destruct a; simpl; apply _. Defined.

(** From attempt [k] on, fuel for the remaining attempts is enough. *)
Lemma deliver_loop_runs m k r answer cancelled : (k + m = 3)%nat ->
  exists d, deliver_loop (S m) k r answer cancelled = Some d /\ loop_run k r answer cancelled d.
Proof.
  revert k. induction m as [|m IH]; intros k Hk; destruct (decide (transient (answer k))) as [Ht|Ht].
  2, 4: apply deliver_loop_final; [lia|done].
  - assert (k = 3)%nat as -> by lia. rewrite deliver_loop_retry by done. simpl.
    eexists; split; [done|]. exists 0%nat. split_and!; [lia|done|lia|by split|done].
  - rewrite deliver_loop_retry by done.
    destruct (lookup_lt_is_Some_2 backoff k ltac:(simpl; lia)) as [w Hw]. rewrite Hw.
    destruct (cancelled k) eqn:Hc.
    { eexists; split; [done|]. exists 0%nat. rewrite Nat.add_0_r. split_and!; [lia|done|lia|by split|].
      simpl. by rewrite (drop_S _ _ _ Hw). }
    destruct (IH (S k) ltac:(lia)) as (d & -> & n & Hn & Hr & Hi & Ho & Hws). eexists; split; [done|].
    exists (S n). replace (k + S n)%nat with (S k + n)%nat by lia. split_and!; [lia|simpl; by rewrite Hr| |done|].
    + intros i Hi'. destruct (decide (i = k)) as [->|]; [done|]. apply Hi. lia.
    + simpl. rewrite Hws, (drop_S _ _ _ Hw). by case_bool_decide.
Qed.

(** C28: every delivery ends, whatever the receiver answers: it sends between one
    and four requests, all identical to the one rendered, tries again only
    after a network error or a 5xx answer and an uninterrupted wait, waits a
    prefix of 1 s, 5 s and 25 s, and reports the answer to the last request; a
    delivery that cannot be rendered sends nothing. *)
Theorem deliverWithRetry_ends uuid_string cipher id wh ev p answer cancelled :
  exists d, deliverWithRetry uuid_string cipher id wh ev p answer cancelled = Some d /\
    match render uuid_string cipher id wh ev p with
    | Err e => d = MkDelivery [] [] (RenderFailed e)
    | Ok r => loop_run 0 r answer cancelled d /\ (foldr Z.add 0 (dl_waits d) <= 31 * second)%Z
    end.
Proof.
  unfold deliverWithRetry. destruct (render _ _ _ _ _ _) as [r|e]; [|by eexists].
  destruct (deliver_loop_runs 3 0 r answer cancelled eq_refl) as (d & Hd & Hl).
  exists d. split; [exact Hd|]. split; [done|]. destruct Hl as (n & Hn & _ & _ & _ & ->).
  assert (n = 0 \/ n = 1 \/ n = 2 \/ n = 3)%nat as Hn' by lia.
  destruct Hn' as [->|[->|[->| ->]]]; case_bool_decide; vm_compute; discriminate.
Qed.
End delivery.

(** ** The queue *)

(** A producer publishes, the worker receives; both are atomic operations on
    the channel. *)
Inductive queue_op : Type :=
| OpPublish (evt : Event)
| OpReceive.

(** The queue, and the events received so far. *)
Definition queue_step (s : list Event * list Event) (op : queue_op) : list Event * list Event :=
  match op with
  | OpPublish evt => (Publish evt s.1, s.2)
  | OpReceive => match s.1 with [] => s | e :: q => (q, s.2 ++ [e])%list end
  end.
Definition queue_run (ops : list queue_op) : list Event * list Event := foldl queue_step ([], []) ops.

Definition published (ops : list queue_op) : list Event :=
  omap (fun op => match op with OpPublish evt => Some evt | OpReceive => None end) ops.

Lemma Publish_room evt q : (length q < queueSize)%nat -> Publish evt q = (q ++ [evt])%list.
Proof. intros H. unfold Publish. cbn [publish_loop]. by apply Nat.ltb_lt in H as ->. Qed.

Lemma Publish_full evt q : length q = queueSize -> Publish evt q = (tail q ++ [evt])%list.
Proof.
  intros H. unfold Publish. cbn [publish_loop]. rewrite H, Nat.ltb_irrefl.
  replace (length (tail q) <? queueSize)%nat with true; [done|].
  symmetry. apply Nat.ltb_lt. destruct q; simpl in *; [discriminate|lia].
Qed.

(** Publishing keeps a suffix of the queue, all of it when there is room. *)
Lemma Publish_suffix evt q : (length q <= queueSize)%nat ->
  exists q', Publish evt q = (q' ++ [evt])%list /\ q' `suffix_of` q /\ q' `sublist_of` q
    /\ (length q' < queueSize)%nat /\ ((length q < queueSize)%nat -> q' = q).
Proof.
  intros Hl. destruct (decide (length q = queueSize)) as [Hf|Hr].
  - rewrite Publish_full by done. destruct q as [|e q]; [discriminate|]. exists q. simpl in *.
    split_and!; [done|by exists [e]|by apply sublist_cons|lia|lia].
  - rewrite Publish_room by lia. exists q. split_and!; [done..|lia|done].
Qed.

Lemma queue_run_snoc ops op : queue_run (ops ++ [op]) = queue_step (queue_run ops) op.
Proof. unfold queue_run. by rewrite foldl_app. Qed.

Lemma published_snoc ops op : published (ops ++ [op]) =
  (published ops ++ match op with OpPublish evt => [evt] | OpReceive => [] end)%list.
Proof. unfold published. rewrite omap_app. by destruct op. Qed.

(** For every sequence of publishes and receives, the queue never exceeds its
    256 entries and always holds the most recent events; the events received
    and queued are a subsequence of the published ones in their order; and as
    long as the worker was never more than 256 events behind, nothing is lost. *)
Theorem queue_keeps_newest ops :
  let '(q, received) := queue_run ops in
  (length q <= queueSize)%nat
  /\ q `suffix_of` published ops
  /\ (received ++ q)%list `sublist_of` published ops
  /\ ((forall ops', ops' `prefix_of` ops ->
         (length (published ops') <= length (queue_run ops').2 + queueSize)%nat) ->
      (received ++ q)%list = published ops).
Proof.
  induction ops as [|op ops IH] using rev_ind.
  { split_and!; [simpl; lia|done|done|done]. }
  rewrite queue_run_snoc, published_snoc. destruct (queue_run ops) as [q rec] eqn:Hrun.
  destruct IH as (Hlen & Hsuf & Hsub & Hall). destruct op as [evt|]; simpl.
  - destruct (Publish_suffix evt q Hlen) as (q' & -> & Hq1 & Hq2 & Hq3 & Hq4).
    rewrite (assoc_L (++)%list). split_and!.
    + rewrite length_app. simpl. lia.
    + destruct Hq1 as [k1 E1], Hsuf as [k2 E2]. exists (k2 ++ k1)%list. rewrite E2, E1. by rewrite !(assoc_L (++)%list).
    + apply sublist_app; [|done]. etrans; [|exact Hsub]. by apply sublist_app.
    + intros Hb. assert ((rec ++ q)%list = published ops) as Hp.
      { apply Hall. intros ops' Ho. apply Hb. by apply prefix_app_r. }
      specialize (Hb _ ltac:(reflexivity)). rewrite queue_run_snoc, published_snoc, Hrun in Hb.
      simpl in Hb. rewrite <- Hp, !length_app in Hb. simpl in Hb. rewrite Hq4 by lia. by rewrite Hp.
  - rewrite app_nil_r.
    assert ((forall ops' : list queue_op, ops' `prefix_of` (ops ++ [OpReceive])%list ->
      (length (published ops') <= length (queue_run ops').2 + queueSize)%nat) -> (rec ++ q)%list = published ops) as Hp.
    { intros Hb. apply Hall. intros ops' Ho. apply Hb. by apply prefix_app_r. }
    destruct q as [|e q]; simpl; [done|]. rewrite <- (assoc_L (++)%list). simpl.
    split_and!; [simpl in Hlen; lia|by eapply suffix_cons_l|done|done].
Qed.

(** ** Bodies and targets *)

(** Truncation caps a text at a number of characters: what remains decodes to
    the first [n] runes of the text and no others, so an alias, summary or
    message never exceeds the vendor's limit and no character is cut in half. *)
Theorem truncate_runes s n :
  utf8_runes (truncate s n) = take n (utf8_runes s) /\ (length (utf8_runes (truncate s n)) <= n)%nat.
Proof.
  assert (utf8_runes (truncate s n) = take n (utf8_runes s)) as ->.
  { unfold truncate. destruct (Nat.leb_spec (length (utf8_runes s)) n); [by rewrite take_ge|].
    apply utf8_runes_encode. apply Forall_take, utf8_runes_valid. }
  split; [done|]. rewrite length_take. lia.
Qed.

(** The addresses a target may not name. *)
Definition forbidden_address (ip : list Z) : Prop :=
  ip = (v4_prefix ++ [0; 0; 0; 0])%list%Z \/ ip = repeat 0%Z 16
  \/ (exists c d, ip = (v4_prefix ++ [169; 254; c; d])%list%Z)
  \/ (exists d, ip = (v4_prefix ++ [224; 0; 0; d])%list%Z)
  \/ (To4 ip = None /\ byte_at ip 0 = 254 /\ Z.land (byte_at ip 1) 192 = 128)%Z
  \/ (To4 ip = None /\ byte_at ip 0 = 255 /\ Z.land (byte_at ip 1) 15 = 2)%Z.

Lemma To4_Some ip v4 : To4 ip = Some v4 -> length ip = 16%nat ->
  exists a b c d, v4 = [a; b; c; d] /\ ip = (v4_prefix ++ [a; b; c; d])%list.
Proof.
  unfold To4. case_bool_decide as Hp; [|done]. intros [= <-] Hl.
  pose proof (take_drop 12 ip) as E. rewrite Hp in E.
  assert (length (drop 12 ip) = 4%nat) as Hd by (rewrite length_drop; lia).
  destruct (drop 12 ip) as [|a [|b [|c [|d [|]]]]]; try discriminate. exists a, b, c, d. done.
Qed.

Lemma To4_app a b c d : To4 (v4_prefix ++ [a; b; c; d]) = Some [a; b; c; d].
Proof. done. Qed.

Lemma blocked_spec ip : length ip = 16%nat ->
  IsLinkLocalUnicast ip || IsLinkLocalMulticast ip || IsUnspecified ip = true <-> forbidden_address ip.
Proof.
  intros Hl. unfold IsLinkLocalUnicast, IsLinkLocalMulticast, IsUnspecified, forbidden_address.
  destruct (To4 ip) as [v4|] eqn:E4.
  - destruct (To4_Some _ _ E4 Hl) as (a & b & c & d & -> & ->). unfold byte_at. simpl.
    rewrite !orb_true_iff, !andb_true_iff, !Z.eqb_eq, bool_decide_eq_true. split.
    + intros [[[-> ->]|[[-> ->] ->]]|[= -> -> -> ->]].
      * right; right; left. by exists c, d.
      * right; right; right; left. by exists d.
      * by left.
    + intros [[= -> -> -> ->]|[[=]|[(? & ? & [= -> -> -> ->])|[(? & [= -> -> -> ->])|[[? _]|[? _]]]]]]; try done; tauto.
  - rewrite !orb_true_iff, !andb_true_iff, !Z.eqb_eq, bool_decide_eq_true. split; [tauto|].
    intros [->|[->|[(? & ? & ->)|[(? & ->)|Hr]]]]; try done; tauto.
Qed.

(** Exactly these targets are accepted: a URL with a host, over https, or over
    http when the host is localhost or a loopback address; and, if the host is
    an IP literal, it is not unspecified, link-local or the metadata address, in
    IPv4, IPv4-mapped or IPv6 form. *)
Theorem ValidateURL_accepts {NU : NetUrl} raw :
  (forall host ip, ParseIP host = Some ip -> length ip = 16%nat) ->
  ValidateURL raw = None <->
  exists scheme host, url_Parse (trim_space raw) = Some (scheme, host) /\ host <> ""
    /\ (scheme = "https" \/ scheme = "http"
          /\ (EqualFold host "localhost" = true \/ exists ip, ParseIP host = Some ip /\ IsLoopback ip = true))
    /\ (forall ip, ParseIP host = Some ip -> ~ forbidden_address ip).
Proof.
  intros Hlen. unfold ValidateURL, isLoopbackHost. destruct (url_Parse _) as [[scheme host]|]; [|naive_solver].
  destruct (bool_decide_reflect (host = "")) as [->|Hh]; [naive_solver|].
  assert ((match ParseIP host with Some ip => IsLinkLocalUnicast ip || IsLinkLocalMulticast ip || IsUnspecified ip | None => false end)
    = true <-> ~ forall ip, ParseIP host = Some ip -> ~ forbidden_address ip) as Hb.
  { destruct (ParseIP host) as [ip|] eqn:Hip; [|naive_solver]. rewrite blocked_spec by eauto.
    split; [naive_solver|]. intros Hn. destruct (IsLinkLocalUnicast ip || IsLinkLocalMulticast ip || IsUnspecified ip) eqn:Hx.
    - apply blocked_spec; eauto.
    - destruct Hn. intros ? [= <-] Hf. apply blocked_spec in Hf; [congruence|eauto]. }
  destruct (match ParseIP host with Some _ => _ | None => _ end).
  { split; [done|]. intros (? & ? & [= <- <-] & _ & _ & Hf). by destruct (proj1 Hb eq_refl). }
  assert (forall ip, ParseIP host = Some ip -> ~ forbidden_address ip) as Hf.
  { intros ip Hip Hx. assert (false = true); [|done]. apply Hb. intros Hall. by apply (Hall ip). }
  destruct (bool_decide_reflect (scheme = "https")) as [->|Hs]; [split; [eauto 10|done]|].
  destruct (bool_decide_reflect (scheme = "http")) as [->|Hs'].
  - destruct (EqualFold host "localhost") eqn:He; simpl; [split; [eauto 10|done]|].
    destruct (ParseIP host) as [ip|] eqn:Hip; [|split; [done|naive_solver]].
    destruct (IsLoopback ip) eqn:Hl; [split; [intros _; exists "http", host; rewrite Hip; eauto 12|done]|].
    split; [done|]. intros (? & ? & [= <- <-] & _ & [?|[_ [?|(? & ? & ?)]]] & _); congruence.
  - split; [done|]. intros (? & ? & [= <- <-] & _ & [?|[? _]] & _); congruence.
Qed.

(** ** Credentials of deliveries *)

Section credentials.
Context {FF : FloatFormat} {SHA : Sha256} {AE : Aead} {LAWS : AeadLaws}.

Lemma channel_secret_sealed c wh enc key secret : Webhook_SecretEnc wh = Some enc -> sealed_under key secret enc ->
  key ∈ decrypters c -> channel_secret (Some c) wh = Ok secret.
Proof using LAWS.
  intros Henc Hs Hk. pose proof Hs as (nonce & Hn & E). unfold channel_secret. rewrite Henc.
  rewrite (Decrypt_sealed _ _ _ _ Hs Hk). by rewrite E.
Qed.

(** Every delivery to a channel whose secret was sealed under a key the cipher
    still holds carries that secret the way the channel's type wants it: a
    generic webhook is signed with the HMAC of exactly the body that is sent,
    Opsgenie gets the API key as its Authorization header, PagerDuty the routing
    key in the body.  Nothing else in a request to Slack or in a generic
    webhook depends on the secret. *)
Theorem delivery_credentials uuid_string c id wh ev p enc key secret r :
  Webhook_SecretEnc wh = Some enc -> sealed_under key secret enc -> key ∈ decrypters c -> secret <> "" ->
  render uuid_string (Some c) id wh ev p = Ok r ->
  if bool_decide (Webhook_Type wh = WebhookTypeSlack) then
    r = MkRequest (Webhook_URL wh) (json_text (slackMessage p)) (base_headers id ev)
  else if bool_decide (Webhook_Type wh = WebhookTypePagerDuty) then
    exists m, pagerDutyBody uuid_string p secret = Some (JObj m) /\ req_body r = json_text (JObj m)
      /\ obj_get m "routing_key" = Some (JStr secret) /\ obj_get m "dedup_key" = Some (JStr (alertDedupKey uuid_string p))
      /\ req_headers r = base_headers id ev
  else if bool_decide (Webhook_Type wh = WebhookTypeOpsgenie) then
    req_headers r = <["Authorization" := "GenieKey " +:+ secret]> (base_headers id ev)
  else
    req_url r = Webhook_URL wh
    /\ req_headers r = <["X-Otelfleet-Signature" := "sha256=" +:+ hex_encode (hmac_sha256 secret (req_body r))]> (base_headers id ev)
    /\ exists v, payload_json uuid_string p = Some v /\ req_body r = json_text v.
Proof using LAWS.
  intros Henc Hs Hk Hne. unfold render. rewrite (channel_secret_sealed _ _ _ _ _ Henc Hs Hk).
  destruct (bool_decide (_ = WebhookTypeSlack)); [by intros [= <-]|].
  destruct (bool_decide (_ = WebhookTypePagerDuty)).
  { unfold pagerDutyBody. destruct (bool_decide (_ = "trigger")).
    - destruct (match Payload_Detail p with None => _ | Some _ => _ end) as [dj|]; [|done].
      intros [= <-]. by eexists.
    - intros [= <-]. by eexists. }
  destruct (bool_decide (_ = WebhookTypeOpsgenie)).
  { destruct (bool_decide (_ = AlertResolved)); by intros [= <-]. }
  destruct (payload_json uuid_string p) as [v|]; [|done]. rewrite (bool_decide_false (secret = "")) by done.
  intros [= <-]. split_and!; [done..|]. by exists v.
Qed.
End credentials.

(** ** Examples *)

#[local] Instance ex_format : FloatFormat := Build_FloatFormat (fun _ => "0") (fun _ => "0").
#[local] Existing Instance ex_aead.
#[local] Existing Instance ex_aead_laws.
Definition ex_sha : Sha256 := fun s => s.
#[local] Existing Instance ex_sha.

Definition ex_hook : Webhook :=
  MkWebhook 7%N WebhookTypeGeneric "ops" "https://ops.example" [WebhookEventAgentOffline] (Some ex_sealed) true None 0 0.
Definition ex_payload : Payload := MkPayload WebhookEventAgentOffline 0 (Some (MkAgentInfo 3%N None AgentClassEdge None None)) None.

Lemma delivery_credentials_witness : exists r,
  render (fun _ => "u") (Some ex_old_cipher) "d" ex_hook WebhookEventAgentOffline ex_payload = Ok r
  /\ req_headers r = <["X-Otelfleet-Signature" := "sha256=" +:+ hex_encode (hmac_sha256 "hunter2" (req_body r))]>
                       (base_headers "d" WebhookEventAgentOffline).
Proof.
  destruct (render (fun _ => "u") (Some ex_old_cipher) "d" ex_hook WebhookEventAgentOffline ex_payload) as [r|e] eqn:E;
    [|vm_compute in E; discriminate].
  exists r. split; [reflexivity|].
  assert (sealed_under "fedcba9876543210fedcba9876543210" "hunter2" ex_sealed) as Hs.
  { exists ex_nonce. split; vm_compute; reflexivity. }
  refine (proj1 (proj2 (delivery_credentials _ _ _ _ _ _ _ _ _ _ _ Hs _ _ E))).
  - reflexivity.
  - vm_compute. set_solver.
  - discriminate.
Defined.

(** Three failures and a success; the waits are 1 s, 5 s and 25 s. *)
Example deliver_ex : let d := deliverWithRetry (fun _ => "u") (Some ex_old_cipher) "d" ex_hook WebhookEventAgentOffline ex_payload
    (fun n => [None; Some 503%Z; Some 500%Z; Some 204%Z] !!! n) (fun _ => false) in
  (fun d => (length (dl_requests d), dl_waits d, dl_outcome d)) <$> d = Some (4%nat, backoff, Delivered 204).
Proof. vm_compute. reflexivity. Qed.

(** Hosts of http:// URLs without a path; two literal addresses. *)
Definition ex_net : NetUrl := Build_NetUrl
  (fun s => match cut_prefix "http://" s with
            | Some h => Some ("http", h)
            | None => pair "https" <$> cut_prefix "https://" s
            end)
  (fun h => if decide (h = "127.0.0.1") then Some (v4_prefix ++ [127; 0; 0; 1])%list%Z
            else if decide (h = "169.254.169.254") then Some (v4_prefix ++ [169; 254; 169; 254])%list%Z
            else None).

Lemma ValidateURL_accepts_witness :
  exists scheme host, url_Parse (NetUrl := ex_net) (trim_space " http://127.0.0.1") = Some (scheme, host) /\ host <> "".
Proof.
  destruct (proj1 (ValidateURL_accepts (NU := ex_net) " http://127.0.0.1"
    ltac:(intros host ip; simpl; repeat case_decide; intros [= <-]; reflexivity))
    ltac:(vm_compute; reflexivity)) as (s & h & H1 & H2 & _).
  by exists s, h.
Defined.

Example ValidateURL_metadata : ValidateURL (NU := ex_net) "https://169.254.169.254" = Some ErrLinkLocal.
Proof. vm_compute. reflexivity. Qed.
