(* ===== verification/Alerting.v ===== *)
(** Alert rules: internal/alerting/alerting.go and promql.go.

    A pass reads the store and the metric sources, which are inputs, updates
    the in-memory firing state and hands notifications to the channels
    ([Webhooks.SendToChannels]).  The service's life is a list of passes. *)
From S2P Require Import Prelude GoStrings Json GoFloat GoFormat StoreTypes Tokens Crypto Webhooks.
From Corelib Require Import SpecFloat.
From Stdlib Require Import Ascii.

Open Scope string_scope.

(** ** Metric sources *)

(** [breach] *)
Definition breach (comparison : string) (value threshold : spec_float) : bool :=
  if bool_decide (comparison = AlertComparisonBelow) then flt value threshold
  else if bool_decide (comparison = AlertComparisonAbove) then fgt value threshold
  else false.

(** A failed read, with its message. *)
Abbreviation read A := (result A string) (only parsing).

(** [chSource.Metric]: the rows of the query from each region's connection, or
    its error; counts are uint64. *)
Definition add_row (out : gmap string spec_float) (row : string * Z) : gmap string spec_float :=
  <[row.1 := fadd (default (S754_zero false) (out !! row.1)) (float_of_Z row.2)]> out.

Fixpoint merge_regions (out : gmap string spec_float) (regions : list (result (list (string * Z)) string))
  : result (gmap string spec_float) string :=
  match regions with
  | [] => Ok out
  | Err e :: _ => Err e
  | Ok rows :: regions => merge_regions (foldl add_row out rows) regions
  end.

Definition chSource_Metric (chs : list (string -> Z -> result (list (string * Z)) string)) (metric : string) (since : Z)
  : result (gmap string spec_float) string :=
  if bool_decide (metric = AlertMetricIngestItems) || bool_decide (metric = AlertMetricErrorLogs)
  then merge_regions ∅ ((fun ch => ch metric since) <$> chs)
  else Err ("unknown metric " +:+ metric).

(** [PromQLSource]: its regions, and the value and presence flag of a query. *)
Record PromQLSource : Type := MkPromQL {
  pq_Regions : list string;
  pq_Query : string -> string -> result (spec_float * bool) string
}.

(** [NewVMPromQLSource] and its [Query]: the decoded response of the region's
    endpoint, whose result samples are pairs of a timestamp and a value. *)
Record vm_response : Type := MkVMResponse {
  vm_status : string;
  vm_result : list (jval * jval)
}.

Definition vm_Query (ParseFloat : string -> option spec_float) (urls : gmap string string)
  (http : string -> string -> result vm_response string) (region query : string) : result (spec_float * bool) string :=
  let base := default "" (urls !! region) in
  let no_data := Ok (S754_zero false, false) in
  if bool_decide (base = "") then no_data
  else
    match http base query with
    | Err e => Err ("victoriametrics query: " +:+ e)
    | Ok body =>
        match vm_result body with
        | [] => no_data
        | (_, value) :: _ =>
            if negb (bool_decide (vm_status body = "success")) then no_data
            else match value with
                 | JStr str => match ParseFloat str with
                               | None => Err "victoriametrics query: parse value"
                               | Some v => Ok (v, true)
                               end
                 | _ => no_data
                 end
        end
    end.

Definition NewVMPromQLSource (ParseFloat : string -> option spec_float) (urls : gmap string string)
  (http : string -> string -> result vm_response string) : PromQLSource :=
  MkPromQL (sort_by str_lt (map_to_list (filter (fun kv => kv.2 <> "") urls)).*1) (vm_Query ParseFloat urls http).

(** ** Evaluation *)

Record pendingNotify : Type := MkPending {
  pn_channels : list Webhook;
  pn_payload : Payload;
  pn_firing : bool;
  pn_severity : string;
  pn_scope : string
}.

(** What one evaluation pass accumulates; each pending notification is kept with
    the firing key whose transition it reports. *)
Record pass_state : Type := MkPass {
  ps_firing : gmap string bool;
  ps_pending : list (string * pendingNotify);
  ps_critical : gset string
}.

(** One comparison of a rule with a threshold: for a customer or a region. *)
Record evaluation : Type := MkEvaluation {
  ev_key : string;
  ev_scope : string;
  ev_breached : bool;
  ev_severity : string;
  ev_channels : list Webhook;
  ev_detail : gmap string any_value
}.

(** What a pass reads: the store and the sources. *)
Record pass_input : Type := MkInput {
  in_now : Z;
  in_windows : result (list MaintenanceWindow) string;
  in_rules : result (list AlertRule) string;
  in_refs : result (list CustomerRef) string;
  in_hooks : result (list Webhook) string;
  in_Metric : string -> Z -> result (gmap string spec_float) string;
  in_promql : option PromQLSource
}.

Definition channelsFor (rule : AlertRule) (byHookID : gmap N Webhook) : list Webhook :=
  omap (fun id => byHookID !! id) (AlertRule_ChannelIDs rule).

Definition hooks_by_id (hooks : list Webhook) : gmap N Webhook :=
  foldl (fun m h => <[Webhook_ID h := h]> m) ∅ hooks.
Definition refs_by_id (refs : list CustomerRef) : gmap N CustomerRef :=
  foldl (fun m r => <[CustomerRef_ID r := r]> m) ∅ refs.

Section alerting.
Context (uuid_string : N -> string).

Definition rule_scope (refs : list CustomerRef) (rule : AlertRule) : list CustomerRef :=
  match AlertRule_CustomerID rule with
  | Some id => option_list (refs_by_id refs !! id)
  | None => refs
  end.

Definition customer_key (rule : AlertRule) (ref : CustomerRef) : string :=
  uuid_string (AlertRule_ID rule) +:+ "|" +:+ uuid_string (CustomerRef_ID ref).
Definition region_key (rule : AlertRule) (region : string) : string :=
  uuid_string (AlertRule_ID rule) +:+ "|promql|" +:+ region.

(** [now.Add(-time.Duration(rule.WindowSeconds) * time.Second)] *)
Definition window_start (now : Z) (rule : AlertRule) : Z :=
  (now + wrap64 (- AlertRule_WindowSeconds rule * second))%Z.

Definition customer_evaluation (rule : AlertRule) (channels : list Webhook) (perTenant : gmap string spec_float)
  (ref : CustomerRef) : evaluation :=
  let value := default (S754_zero false) (perTenant !! CustomerRef_ClientID ref) in
  MkEvaluation (customer_key rule ref) (uuid_string (CustomerRef_ID ref))
    (breach (AlertRule_Comparison rule) value (AlertRule_Threshold rule)) (AlertRule_Severity rule) channels
    (list_to_map [("rule", AStr (AlertRule_Name rule)); ("severity", AStr (AlertRule_Severity rule));
                  ("customer", AStr (CustomerRef_Name ref)); ("metric", AStr (AlertRule_Metric rule));
                  ("comparison", AStr (AlertRule_Comparison rule)); ("threshold", AFloat (AlertRule_Threshold rule));
                  ("observed", AFloat value); ("windowSeconds", AInt (AlertRule_WindowSeconds rule))]).

(** A region whose query fails is passed over. *)
Definition region_evaluation (rule : AlertRule) (channels : list Webhook) (pq : PromQLSource) (region : string)
  : option evaluation :=
  match pq_Query pq region (AlertRule_Query rule) with
  | Err _ => None
  | Ok (value, ok) => Some
      (MkEvaluation (region_key rule region) ("region:" +:+ region)
         (ok && breach (AlertRule_Comparison rule) value (AlertRule_Threshold rule)) (AlertRule_Severity rule) channels
         (list_to_map [("rule", AStr (AlertRule_Name rule)); ("severity", AStr (AlertRule_Severity rule));
                       ("metric", AStr "promql"); ("region", AStr region); ("query", AStr (AlertRule_Query rule));
                       ("comparison", AStr (AlertRule_Comparison rule)); ("threshold", AFloat (AlertRule_Threshold rule));
                       ("observed", AFloat value)]))
  end.

Definition promql_evaluations (i : pass_input) (byHookID : gmap N Webhook) (rule : AlertRule) : list evaluation :=
  match in_promql i with
  | None => []
  | Some pq => omap (region_evaluation rule (channelsFor rule byHookID) pq) (pq_Regions pq)
  end.

(** The evaluations of a rule, or the error that skips it. *)
Definition rule_evaluations (i : pass_input) (refs : list CustomerRef) (byHookID : gmap N Webhook) (rule : AlertRule)
  : result (list evaluation) string :=
  if bool_decide (AlertRule_Metric rule = AlertMetricPromQL) then Ok (promql_evaluations i byHookID rule)
  else match in_Metric i (AlertRule_Metric rule) (window_start (in_now i) rule) with
       | Err e => Err e
       | Ok perTenant => Ok (customer_evaluation rule (channelsFor rule byHookID) perTenant <$> rule_scope refs rule)
       end.

(** The body both loops share: update the firing state, mark a breached critical
    and append the transition, if there is one. *)
Definition note_evaluation (now : Z) (s : pass_state) (e : evaluation) : pass_state :=
  let was := default false (ps_firing s !! ev_key e) in
  let firing := <[ev_key e := ev_breached e]> (ps_firing s) in
  let critical := if ev_breached e && bool_decide (ev_severity e = AlertSeverityCritical)
                  then {[ev_scope e]} ∪ ps_critical s else ps_critical s in
  if bool_decide (ev_breached e = was) then MkPass firing (ps_pending s) critical
  else
    let event := if ev_breached e then AlertFiring else AlertResolved in
    MkPass firing
      (ps_pending s ++ [(ev_key e, MkPending (ev_channels e) (MkPayload event now None (Some (ev_detail e)))
                           (ev_breached e) (ev_severity e) (ev_scope e))])%list
      critical.

Definition evalRule (i : pass_input) (refs : list CustomerRef) (byHookID : gmap N Webhook) (s : pass_state)
  (rule : AlertRule) : pass_state :=
  match rule_evaluations i refs byHookID rule with
  | Err _ => s
  | Ok evs => foldl (note_evaluation (in_now i)) s evs
  end.

(** [dispatch]: the calls of [SendToChannels]. *)
Definition inhibited (inhibit : bool) (critical : gset string) (n : pendingNotify) : bool :=
  inhibit && pn_firing n && negb (bool_decide (pn_severity n = AlertSeverityCritical))
  && bool_decide (pn_scope n ∈ critical).

Definition dispatch (inhibit : bool) (critical : gset string) (pending : list pendingNotify)
  : list (list Webhook * Payload) :=
  (fun n => (pn_channels n, pn_payload n))
    <$> filter (fun n => inhibited inhibit critical n = false /\ pn_channels n <> []) pending.

(** Why a pass did not evaluate anything. *)
Inductive pass_skip : Type :=
| SkipError (msg : string)
| SkipMaintenance
| SkipNoRules.

Definition pass_rules (i : pass_input) : result (list AlertRule * list CustomerRef * gmap N Webhook) pass_skip :=
  match in_windows i with
  | Err e => Err (SkipError ("list maintenance windows: " +:+ e))
  | Ok (_ :: _) => Err SkipMaintenance
  | Ok [] =>
      match in_rules i with
      | Err e => Err (SkipError ("list rules: " +:+ e))
      | Ok [] => Err SkipNoRules
      | Ok rules =>
          match in_refs i with
          | Err e => Err (SkipError ("list customer refs: " +:+ e))
          | Ok refs =>
              match in_hooks i with
              | Err e => Err (SkipError ("list channels: " +:+ e))
              | Ok hooks => Ok (rules, refs, hooks_by_id hooks)
              end
          end
      end
  end.

(** The state a pass leaves, with its transitions and active criticals. *)
Definition evaluate_pass (i : pass_input) (firing : gmap string bool) : pass_state :=
  match pass_rules i with
  | Err _ => MkPass firing [] ∅
  | Ok (rules, refs, hooks) => foldl (evalRule i refs hooks) (MkPass firing [] ∅) rules
  end.

(** [Evaluate]: the new firing state and what is sent, with the error if any. *)
Definition Evaluate (inhibit : bool) (i : pass_input) (firing : gmap string bool)
  : option string * gmap string bool * list (list Webhook * Payload) :=
  let err := match pass_rules i with Err (SkipError e) => Some e | _ => None end in
  let s := evaluate_pass i firing in
  (err, ps_firing s, dispatch inhibit (ps_critical s) (ps_pending s).*2).

(** The passes of a run, from the empty state a start begins with. *)
Fixpoint run (inhibit : bool) (passes : list pass_input) (firing : gmap string bool)
  : gmap string bool * list (list Webhook * Payload) :=
  match passes with
  | [] => (firing, [])
  | i :: passes =>
      let '(_, firing, sent) := Evaluate inhibit i firing in
      let '(firing, sent') := run inhibit passes firing in
      (firing, (sent ++ sent')%list)
  end.
End alerting.

(** ** Transitions over time *)

(** The states a list of transitions reports for a key. *)
Definition events (key : string) (l : list (string * pendingNotify)) : list bool :=
  omap (fun t => if bool_decide (t.1 = key) then Some (pn_firing t.2) else None) l.

(** A sequence of states each different from the one before, from [b] on. *)
Fixpoint alternates (b : bool) (l : list bool) : Prop :=
  match l with [] => True | x :: l => x = negb b /\ alternates x l end.

Definition final (b : bool) (l : list bool) : bool := default b (last l).

Lemma omap_cons {A B} (f : A -> option B) x l : omap f (x :: l) = (option_list (f x) ++ omap f l)%list.
Proof. simpl. by destruct (f x). Qed.

Lemma events_app key l1 l2 : events key (l1 ++ l2) = (events key l1 ++ events key l2)%list.
Proof. apply omap_app. Qed.

Lemma final_cons b x l : final b (x :: l) = final x l.
Proof. unfold final. rewrite last_cons. by destruct (last l). Qed.

Lemma final_app b l1 l2 : final b (l1 ++ l2) = final (final b l1) l2.
Proof. revert b. induction l1 as [|x l1 IH]; intros b; [done|]. simpl. rewrite !final_cons. apply IH. Qed.

Lemma alternates_app b l1 l2 : alternates b (l1 ++ l2) <-> alternates b l1 /\ alternates (final b l1) l2.
Proof.
  revert b. induction l1 as [|x l1 IH]; intros b; simpl; [naive_solver|]. rewrite final_cons, IH. tauto.
Qed.

Definition state_of (firing : gmap string bool) (key : string) : bool := default false (firing !! key).

(** Transitions that lead from one firing state to another: per key they
    alternate, and each carries the event of its new state. *)
Definition explains (firing : gmap string bool) (l : list (string * pendingNotify)) (firing' : gmap string bool) : Prop :=
  (forall key, alternates (state_of firing key) (events key l) /\ state_of firing' key = final (state_of firing key) (events key l))
  /\ Forall (fun t => Payload_Event (pn_payload t.2) = if pn_firing t.2 then AlertFiring else AlertResolved) l.

Lemma explains_refl firing : explains firing [] firing.
Proof. split; [done|constructor]. Qed.

Lemma explains_app f1 l1 f2 l2 f3 : explains f1 l1 f2 -> explains f2 l2 f3 -> explains f1 (l1 ++ l2) f3.
Proof.
  intros [H1 E1] [H2 E2]. split; [|by apply Forall_app].
  intros key. destruct (H1 key) as [A1 F1], (H2 key) as [A2 F2]. rewrite F1 in A2, F2.
  rewrite events_app, final_app, alternates_app. done.
Qed.

#[export] Hint Resolve explains_refl explains_app : otel.

Definition tracks (s s' : pass_state) : Prop :=
  exists l, ps_pending s' = (ps_pending s ++ l)%list /\ explains (ps_firing s) l (ps_firing s').

#[global] Instance tracks_preorder : PreOrder tracks.
Proof.
  split.
  - intros s. exists []. rewrite app_nil_r. auto with otel.
  - intros s1 s2 s3 (l1 & E1 & H1) (l2 & E2 & H2). exists (l1 ++ l2)%list.
    rewrite E2, E1, (assoc_L (++)%list). eauto with otel.
Qed.

Lemma state_of_insert firing k b k' : state_of (<[k := b]> firing) k' = if bool_decide (k = k') then b else state_of firing k'.
Proof. unfold state_of. case_bool_decide as H; [by subst; rewrite lookup_insert_eq|by rewrite lookup_insert_ne]. Qed.

Lemma note_evaluation_tracks now s e : tracks s (note_evaluation now s e).
Proof.
  unfold note_evaluation, tracks. change (default false (ps_firing s !! ev_key e)) with (state_of (ps_firing s) (ev_key e)).
  destruct (bool_decide_reflect (ev_breached e = state_of (ps_firing s) (ev_key e))) as [Hb|Hb]; simpl.
  - exists []. rewrite app_nil_r. split; [done|]. split; [|constructor]. intros key. split; [done|]. simpl.
    rewrite state_of_insert. case_bool_decide; [by subst|done].
  - eexists. split; [done|]. split; [|by repeat constructor]. intros key. rewrite state_of_insert. unfold events. simpl.
    case_bool_decide as Hk; [|done]. subst. simpl. split; [|done]. split; [|done].
    destruct (ev_breached e), (state_of (ps_firing s) (ev_key e)); done.
Qed.

Lemma foldl_tracks {A} (f : pass_state -> A -> pass_state) l s : (forall s x, tracks s (f s x)) -> tracks s (foldl f s l).
Proof.
  intros Hf. revert s. induction l as [|x l IH]; intros s; simpl; [reflexivity|].
  etrans; [apply Hf|apply IH].
Qed.

Section transitions.
Context (uuid_string : N -> string).

Lemma evaluate_pass_explains i firing :
  explains firing (ps_pending (evaluate_pass uuid_string i firing)) (ps_firing (evaluate_pass uuid_string i firing)).
Proof using Type.
  unfold evaluate_pass. destruct (pass_rules i) as [[[rules refs] hooks]|]; [|apply explains_refl].
  destruct (foldl_tracks (evalRule uuid_string i refs hooks) rules (MkPass firing [] ∅)) as (l & -> & H); [|done].
  intros s rule. unfold evalRule. destruct (rule_evaluations _ _ _ _ _); [|reflexivity].
  apply foldl_tracks, note_evaluation_tracks.
Qed.

(** The transitions of a run, pass by pass. *)
Fixpoint run_transitions (passes : list pass_input) (firing : gmap string bool)
  : gmap string bool * list (string * pendingNotify) :=
  match passes with
  | [] => (firing, [])
  | i :: passes =>
      let s := evaluate_pass uuid_string i firing in
      let '(firing, l) := run_transitions passes (ps_firing s) in
      (firing, (ps_pending s ++ l)%list)
  end.

Lemma run_transitions_explains passes firing :
  explains firing (run_transitions passes firing).2 (run_transitions passes firing).1.
Proof using Type.
  revert firing. induction passes as [|i passes IH]; intros firing; simpl; [apply explains_refl|].
  specialize (IH (ps_firing (evaluate_pass uuid_string i firing))).
  destruct (run_transitions passes _) as [f l]. simpl in *. eapply explains_app; [apply evaluate_pass_explains|exact IH].
Qed.

Lemma run_firing inhibit passes firing : (run uuid_string inhibit passes firing).1 = (run_transitions passes firing).1.
Proof using Type.
  revert firing. induction passes as [|i passes IH]; intros firing; [done|]. cbn [run run_transitions]. unfold Evaluate.
  specialize (IH (ps_firing (evaluate_pass uuid_string i firing))).
  destruct (run _ _ passes _), (run_transitions passes _). exact IH.
Qed.

(** C29: over any sequence of passes since the start, whatever the rules, readings
    and failures in between, the transitions reported for one rule and one
    customer (or region) alternate between firing and resolved, beginning with
    firing; the remembered state is the last one reported; and the event of each
    notification is that of its transition.  So an alert is reported once when
    it enters breach and once when it clears. *)
Theorem alerts_alternate inhibit passes key :
  let '(firing, transitions) := run_transitions passes ∅ in
  alternates false (events key transitions)
  /\ state_of (run uuid_string inhibit passes ∅).1 key = final false (events key transitions)
  /\ (forall t, t ∈ transitions -> Payload_Event (pn_payload t.2) = if pn_firing t.2 then AlertFiring else AlertResolved).
Proof using Type.
  pose proof (run_transitions_explains passes ∅) as [He Hp]. rewrite run_firing.
  destruct (run_transitions passes ∅) as [firing l]. specialize (He key) as [Ha Hf].
  split_and!; [exact Ha|exact Hf|]. by apply Forall_forall.
Qed.
End transitions.

(** ** One pass *)

Section pass.
Context (uuid_string : N -> string).

(** The evaluations of a pass, in order; a rule whose metric cannot be read has
    none. *)
Definition pass_evaluations (i : pass_input) : list evaluation :=
  match pass_rules i with
  | Err _ => []
  | Ok (rules, refs, hooks) =>
      concat ((fun rule => match rule_evaluations uuid_string i refs hooks rule with Ok evs => evs | Err _ => [] end) <$> rules)
  end.

Lemma evaluate_pass_evaluations i firing :
  evaluate_pass uuid_string i firing = foldl (note_evaluation (in_now i)) (MkPass firing [] ∅) (pass_evaluations i).
Proof using Type.
  unfold evaluate_pass, pass_evaluations. destruct (pass_rules i) as [[[rules refs] hooks]|]; [|done].
  generalize (MkPass firing [] ∅). induction rules as [|rule rules IH]; intros s; [done|].
  simpl. rewrite foldl_app, IH. unfold evalRule. by destruct (rule_evaluations _ _ _ _ rule).
Qed.

(** The transition an evaluation reports, given the state before. *)
Definition transition_of (now : Z) (firing : gmap string bool) (e : evaluation) : option (string * pendingNotify) :=
  if bool_decide (ev_breached e = state_of firing (ev_key e)) then None
  else Some (ev_key e, MkPending (ev_channels e)
               (MkPayload (if ev_breached e then AlertFiring else AlertResolved) now None (Some (ev_detail e)))
               (ev_breached e) (ev_severity e) (ev_scope e)).

Lemma note_evaluation_pending now s e : ps_pending (note_evaluation now s e)
  = (ps_pending s ++ option_list (transition_of now (ps_firing s) e))%list.
Proof. unfold note_evaluation, transition_of, state_of. destruct (bool_decide _); [by rewrite app_nil_r|done]. Qed.

Lemma note_evaluation_firing now s e : ps_firing (note_evaluation now s e) = <[ev_key e := ev_breached e]> (ps_firing s).
Proof. unfold note_evaluation. by destruct (bool_decide _). Qed.

Lemma note_evaluation_critical now s e : ps_critical (note_evaluation now s e) =
  (if ev_breached e && bool_decide (ev_severity e = AlertSeverityCritical) then {[ev_scope e]} ∪ ps_critical s
   else ps_critical s).
Proof. unfold note_evaluation. by destruct (bool_decide (ev_breached e = _)). Qed.

Lemma transitions_insert now firing k b (evs : list evaluation) : k ∉ ev_key <$> evs ->
  omap (transition_of now (<[k := b]> firing)) evs = omap (transition_of now firing) evs.
Proof using Type.
  induction evs as [|e evs IH]; intros Hk; [done|]. apply not_elem_of_cons in Hk as [Hne Hk].
  rewrite !omap_cons, IH by done. f_equal. unfold transition_of.
  by rewrite state_of_insert, (bool_decide_false (k = _)) by done.
Qed.

(** With every key evaluated at most once, the pass compares each key with the
    state before it. *)
Lemma foldl_note now evs s : NoDup (ev_key <$> evs) ->
  let s' := foldl (note_evaluation now) s evs in
  (forall e, e ∈ evs -> ps_firing s' !! ev_key e = Some (ev_breached e))
  /\ (forall k, k ∉ ev_key <$> evs -> ps_firing s' !! k = ps_firing s !! k)
  /\ ps_pending s' = (ps_pending s ++ omap (transition_of now (ps_firing s)) evs)%list.
Proof.
  revert s. induction evs as [|e evs IH]; intros s Hnd; simpl; [split_and!; [intros e He; by apply elem_of_nil in He|done|by rewrite app_nil_r]|].
  apply NoDup_cons in Hnd as [Hk Hnd]. destruct (IH (note_evaluation now s e) Hnd) as (H1 & H2 & H3).
  rewrite note_evaluation_pending in H3. split_and!.
  - intros e' He'. apply elem_of_cons in He' as [->|He']; [|by apply H1].
    rewrite H2, note_evaluation_firing by done. by rewrite lookup_insert_eq.
  - intros k Hk'. apply not_elem_of_cons in Hk' as [Hne Hk']. rewrite H2, note_evaluation_firing by done. by rewrite lookup_insert_ne.
  - rewrite H3, <- (assoc_L (++)%list), note_evaluation_firing. f_equal.
    rewrite (transitions_insert now _ (ev_key e) (ev_breached e) evs Hk). by destruct (transition_of now (ps_firing s) e).
Qed.

Lemma foldl_critical now evs s scope : scope ∈ ps_critical (foldl (note_evaluation now) s evs) <->
  scope ∈ ps_critical s \/ exists e, e ∈ evs /\ ev_breached e = true /\ ev_severity e = AlertSeverityCritical /\ ev_scope e = scope.
Proof.
  revert s. induction evs as [|e evs IH]; intros s; simpl.
  - split; [by left|]. intros [?|(e & He & _)]; [done|]. by apply elem_of_nil in He.
  - rewrite IH, note_evaluation_critical. setoid_rewrite elem_of_cons.
    destruct (ev_breached e) eqn:Hb, (bool_decide_reflect (ev_severity e = AlertSeverityCritical)) as [Hs|Hs]; simpl;
      rewrite ?elem_of_union, ?elem_of_singleton; naive_solver congruence.
Qed.

(** C30: what a pass sends: for every transition with channels one call with its
    payload, unless inhibition is on, the transition is a firing one of a rule
    that is not critical, and some critical rule is in breach for the same
    customer or region in this very pass.  Resolved notifications and critical
    ones are never held back. *)
Theorem notifications_sent inhibit i firing channels p :
  (channels, p) ∈ (Evaluate uuid_string inhibit i firing).2 <->
  exists t, t ∈ ps_pending (evaluate_pass uuid_string i firing) /\ pn_channels t.2 = channels /\ pn_payload t.2 = p
    /\ channels <> []
    /\ ~ (inhibit = true /\ pn_firing t.2 = true /\ pn_severity t.2 <> AlertSeverityCritical
          /\ exists e, e ∈ pass_evaluations i /\ ev_breached e = true /\ ev_severity e = AlertSeverityCritical
                       /\ ev_scope e = pn_scope t.2).
Proof using Type.
  unfold Evaluate, dispatch. cbn [snd]. rewrite list_elem_of_fmap.
  assert (forall n, inhibited inhibit (ps_critical (evaluate_pass uuid_string i firing)) n = false <->
    ~ (inhibit = true /\ pn_firing n = true /\ pn_severity n <> AlertSeverityCritical
       /\ exists e, e ∈ pass_evaluations i /\ ev_breached e = true /\ ev_severity e = AlertSeverityCritical
                    /\ ev_scope e = pn_scope n)) as Hi.
  { intros n. unfold inhibited. rewrite <- not_true_iff_false, !andb_true_iff, negb_true_iff, bool_decide_eq_false, bool_decide_eq_true.
    rewrite evaluate_pass_evaluations, foldl_critical. cbn [ps_critical]. set_solver. }
  split.
  - intros (n & [= -> ->] & (Hn & Hc)%list_elem_of_filter). apply list_elem_of_fmap in Hc as (t & -> & Ht).
    destruct Hn as [Hn1 Hn2]. exists t. split_and!; [done..|]. by apply Hi.
  - intros (t & Ht & <- & <- & Hc & Hn). exists t.2. split; [done|]. apply list_elem_of_filter. split.
    + split; [by apply Hi|done].
    + apply list_elem_of_fmap. by exists t.
Qed.
End pass.

(** ** Per rule and customer *)

Section rules.
Context (uuid_string : N -> string).
Hypothesis uuid_inj : forall a b, uuid_string a = uuid_string b -> a = b.
Hypothesis uuid_no_bar : forall a, has_byte "|" (uuid_string a) = false.

(** The keys of a rule start with its id. *)
Lemma key_of_rule rule rule' x x' :
  uuid_string (AlertRule_ID rule) +:+ String "|" x = uuid_string (AlertRule_ID rule') +:+ String "|" x' ->
  AlertRule_ID rule = AlertRule_ID rule' /\ x = x'.
Proof using uuid_inj uuid_no_bar.
  intros H. apply app_sep_inj in H as [H ->]; [|apply uuid_no_bar..]. split; [by apply uuid_inj|done].
Qed.

Lemma rule_evaluations_keys i refs hooks rule evs : rule_evaluations uuid_string i refs hooks rule = Ok evs ->
  forall e, e ∈ evs -> exists x, ev_key e = uuid_string (AlertRule_ID rule) +:+ String "|" x.
Proof using Type.
  unfold rule_evaluations. destruct (bool_decide _).
  - intros [= <-] e. unfold promql_evaluations. destruct (in_promql i) as [pq|]; [|intros H; by apply elem_of_nil in H].
    intros (r & _ & Hr)%list_elem_of_omap. unfold region_evaluation in Hr.
    destruct (pq_Query pq r _) as [[v ok]|]; [|done]. injection Hr as <-. by eexists.
  - destruct (in_Metric i _ _) as [m|]; [|done]. intros [= <-] e (ref & -> & _)%list_elem_of_fmap. by eexists.
Qed.

Lemma refs_by_id_lookup refs id ref : refs_by_id refs !! id = Some ref -> ref ∈ refs.
Proof using Type.
  unfold refs_by_id. assert (forall m : gmap N CustomerRef, foldl (fun m r => <[CustomerRef_ID r := r]> m) m refs !! id = Some ref ->
    ref ∈ refs \/ m !! id = Some ref) as H.
  { induction refs as [|r refs IH]; intros m; simpl; [by right|]. intros Hm. apply IH in Hm as [?|Hm]; [left; by right|].
    apply lookup_insert_Some in Hm as [[_ ->]|[_ ?]]; [left; by left|by right]. }
  intros Hm. apply H in Hm as [?|Hm]; [done|]. by rewrite lookup_empty in Hm.
Qed.

Lemma rule_scope_NoDup refs rule : NoDup (CustomerRef_ID <$> refs) -> NoDup (CustomerRef_ID <$> rule_scope refs rule).
Proof using Type.
  intros H. unfold rule_scope. destruct (AlertRule_CustomerID rule) as [id|]; [|done].
  destruct (refs_by_id refs !! id); simpl; [apply NoDup_singleton|constructor].
Qed.

Lemma region_keys_NoDup rule channels pq rs : NoDup rs ->
  NoDup (ev_key <$> omap (region_evaluation uuid_string rule channels pq) rs).
Proof using Type.
  induction 1 as [|r rs Hr Hrs IH]; [constructor|]. rewrite omap_cons.
  destruct (region_evaluation uuid_string rule channels pq r) as [e|] eqn:He; [|done].
  assert (ev_key e = region_key uuid_string rule r) as Hke.
  { unfold region_evaluation in He. destruct (pq_Query pq r _) as [[v ok]|]; [|done]. by injection He as <-. }
  simpl. constructor; [|done]. rewrite Hke. intros (e' & Hk & He')%list_elem_of_fmap.
  apply list_elem_of_omap in He' as (r' & Hr' & Hev). unfold region_evaluation in Hev.
  destruct (pq_Query pq r' _) as [[v ok]|]; [|done]. injection Hev as <-. simpl in Hk. unfold region_key in Hk.
  apply string_app_inj_l, string_app_inj_l in Hk. by subst.
Qed.

Lemma rule_keys_NoDup i refs hooks rule evs : NoDup (CustomerRef_ID <$> refs) ->
  (forall pq, in_promql i = Some pq -> NoDup (pq_Regions pq)) ->
  rule_evaluations uuid_string i refs hooks rule = Ok evs -> NoDup (ev_key <$> evs).
Proof using uuid_inj.
  intros Hrefs Hpq. unfold rule_evaluations. destruct (bool_decide _).
  - intros [= <-]. unfold promql_evaluations. destruct (in_promql i) as [pq|] eqn:E; [|constructor].
    by apply region_keys_NoDup, Hpq.
  - destruct (in_Metric i _ _) as [m|]; [|done]. intros [= <-]. rewrite <- list_fmap_compose.
    change (NoDup (customer_key uuid_string rule <$> rule_scope refs rule)).
    pose proof (rule_scope_NoDup refs rule Hrefs) as Hs. induction (rule_scope refs rule) as [|ref l IH]; [constructor|].
    apply NoDup_cons in Hs as [Hn Hs]. simpl. constructor; [|by apply IH].
    intros (ref' & Hk & Hin)%list_elem_of_fmap. apply Hn. unfold customer_key in Hk.
    apply string_app_inj_l, string_app_inj_l, uuid_inj in Hk. rewrite Hk. by apply list_elem_of_fmap_2.
Qed.

Definition distinct_ids (i : pass_input) (rules : list AlertRule) (refs : list CustomerRef) : Prop :=
  NoDup (AlertRule_ID <$> rules) /\ NoDup (CustomerRef_ID <$> refs)
  /\ (forall pq, in_promql i = Some pq -> NoDup (pq_Regions pq)).

Lemma pass_keys_NoDup i rules refs hooks : pass_rules i = Ok (rules, refs, hooks) -> distinct_ids i rules refs ->
  NoDup (ev_key <$> pass_evaluations uuid_string i).
Proof using uuid_inj uuid_no_bar.
  intros Hp (Hr & Hc & Hq). unfold pass_evaluations. rewrite Hp. clear Hp.
  induction rules as [|rule rules IH]; [constructor|]. apply NoDup_cons in Hr as [Hn Hr]. simpl.
  rewrite fmap_app. apply NoDup_app. split_and!; [|intros k Hk Hk'|by apply IH].
  - destruct (rule_evaluations uuid_string i refs hooks rule) as [evs|] eqn:E; [|constructor].
    by eapply rule_keys_NoDup.
  - apply list_elem_of_fmap in Hk as (e & -> & He), Hk' as (e' & Hke & He').
    destruct (rule_evaluations uuid_string i refs hooks rule) as [evs|] eqn:E; [|by apply elem_of_nil in He].
    apply (rule_evaluations_keys _ _ _ _ _ E) in He as [x Hx].
    apply list_elem_of_In, in_concat in He' as (l & Hl & He'). apply list_elem_of_In in Hl, He'.
    apply list_elem_of_fmap in Hl as (rule' & -> & Hrule').
    destruct (rule_evaluations uuid_string i refs hooks rule') as [evs'|] eqn:E'; [|by apply elem_of_nil in He'].
    apply (rule_evaluations_keys _ _ _ _ _ E') in He' as [x' Hx'].
    rewrite Hx, Hx' in Hke. apply key_of_rule in Hke as [Hid _]. apply Hn. rewrite Hid. by apply list_elem_of_fmap_2.
Qed.

Lemma pass_evaluations_elem i rules refs hooks rule evs e : pass_rules i = Ok (rules, refs, hooks) -> rule ∈ rules ->
  rule_evaluations uuid_string i refs hooks rule = Ok evs -> e ∈ evs -> e ∈ pass_evaluations uuid_string i.
Proof using Type.
  intros Hp Hr Hev He. unfold pass_evaluations. rewrite Hp. apply list_elem_of_In, in_concat. exists evs.
  split; [|by apply list_elem_of_In]. apply list_elem_of_In, list_elem_of_fmap. exists rule. by rewrite Hev.
Qed.

Lemma filter_transition now firing e k : filter (fun t => t.1 = k) (option_list (transition_of now firing e)) =
  if bool_decide (ev_key e = k) then option_list (transition_of now firing e) else [].
Proof using Type.
  unfold transition_of. destruct (bool_decide (ev_breached e = _)); simpl; [by case_bool_decide|].
  unfold filter. simpl. by repeat case_decide; case_bool_decide.
Qed.

Lemma transitions_of_key now firing evs e : NoDup (ev_key <$> evs) -> e ∈ evs ->
  filter (fun t => t.1 = ev_key e) (omap (transition_of now firing) evs) = option_list (transition_of now firing e).
Proof using Type.
  assert (forall evs k, k ∉ ev_key <$> evs -> filter (fun t => t.1 = k) (omap (transition_of now firing) evs) = []) as Hnone.
  { clear. induction evs as [|e evs IH]; intros k Hk; [done|]. apply not_elem_of_cons in Hk as [Hne Hk].
    by rewrite omap_cons, filter_app, IH, filter_transition, bool_decide_false by done. }
  induction evs as [|e' evs IH]; intros Hnd He; [by apply elem_of_nil in He|].
  apply NoDup_cons in Hnd as [Hn Hnd]. rewrite omap_cons, filter_app, filter_transition.
  apply elem_of_cons in He as [->|He].
  - rewrite (Hnone evs) by done. by rewrite app_nil_r, bool_decide_true.
  - rewrite IH, bool_decide_false by (done || intros Heq; apply Hn; rewrite Heq; by apply list_elem_of_fmap_2). done.
Qed.

(** One pass over a metric rule: for every customer in the rule's scope the new
    state is the comparison of the customer's value (0 when there is no data)
    with the threshold, and the pass reports exactly one transition, with the
    rule's existing channels and the observed value, if that differs from the
    state before, and none otherwise. *)
Theorem metric_rule_pass i rules refs hooks firing rule ref perTenant :
  pass_rules i = Ok (rules, refs, hooks) -> distinct_ids i rules refs ->
  rule ∈ rules -> AlertRule_Metric rule <> AlertMetricPromQL ->
  in_Metric i (AlertRule_Metric rule) (window_start (in_now i) rule) = Ok perTenant ->
  ref ∈ rule_scope refs rule ->
  let value := default (S754_zero false) (perTenant !! CustomerRef_ClientID ref) in
  let breached := breach (AlertRule_Comparison rule) value (AlertRule_Threshold rule) in
  let key := customer_key uuid_string rule ref in
  let s := evaluate_pass uuid_string i firing in
  ps_firing s !! key = Some breached
  /\ (breached = state_of firing key -> filter (fun t => t.1 = key) (ps_pending s) = [])
  /\ (breached <> state_of firing key -> exists n, filter (fun t => t.1 = key) (ps_pending s) = [(key, n)]
        /\ pn_channels n = channelsFor rule hooks /\ pn_firing n = breached /\ pn_severity n = AlertRule_Severity rule
        /\ Payload_Event (pn_payload n) = (if breached then AlertFiring else AlertResolved)
        /\ detail (pn_payload n) !! "observed" = Some (AFloat value)
        /\ detail (pn_payload n) !! "customer" = Some (AStr (CustomerRef_Name ref))).
Proof using uuid_inj uuid_no_bar.
  intros Hp Hd Hr Hm Hv Href. set (e := customer_evaluation uuid_string rule (channelsFor rule hooks) perTenant ref).
  assert (e ∈ pass_evaluations uuid_string i) as He.
  { eapply pass_evaluations_elem; [done..| |by apply list_elem_of_fmap_2].
    unfold rule_evaluations. rewrite bool_decide_false by done. by rewrite Hv. }
  pose proof (pass_keys_NoDup _ _ _ _ Hp Hd) as Hnd. simpl. rewrite evaluate_pass_evaluations.
  destruct (foldl_note (in_now i) _ (MkPass firing [] ∅) Hnd) as (H1 & _ & H3). cbn zeta in H1, H3. rewrite H3.
  split_and!; [exact (H1 e He)|..]; cbn [ps_pending ps_firing app]; intros Hb;
    change (customer_key uuid_string rule ref) with (ev_key e) in *;
    rewrite (transitions_of_key _ _ _ e Hnd He); unfold transition_of.
  - by rewrite bool_decide_true.
  - rewrite bool_decide_false by exact Hb. by eexists.
Qed.
End rules.

(** ** What the receivers see *)

(** The payload of a transition. *)
Definition alert_payload (now : Z) (e : evaluation) (firing : bool) : Payload :=
  MkPayload (if firing then AlertFiring else AlertResolved) now None (Some (ev_detail e)).

(** PagerDuty's open incidents: a trigger opens the one of its dedup key, a
    resolve closes it. *)
Definition incident_step {FF : FloatFormat} (uuid_string : N -> string) (open : gset string) (p : Payload) : gset string :=
  let key := alertDedupKey uuid_string p in
  if bool_decide (Payload_Event p = AlertResolved) then open ∖ {[key]} else open ∪ {[key]}.

Section receivers.
Context {FF : FloatFormat} {SHA : Sha256} {AE : Aead}.
Context (uuid_string : N -> string).

Lemma customer_dedup rule channels pt ref now b :
  alertDedupKey uuid_string (alert_payload now (customer_evaluation uuid_string rule channels pt ref) b) =
    "otel-fleet:" +:+ AlertRule_Name rule +:+ ":"
      +:+ (if bool_decide (CustomerRef_Name ref = "") then "all" else CustomerRef_Name ref) +:+ ":" +:+ AlertRule_Metric rule.
Proof using Type. unfold alertDedupKey, detail. simpl. reflexivity. Qed.

#[local] Opaque json_text.

(** A resolved notification addresses exactly the incident its firing one opened,
    whatever was observed in between: PagerDuty gets a trigger and a resolve
    with the same dedup key, Opsgenie a create whose alias, escaped, is the path
    of the close request. *)
Theorem resolve_addresses_fire cipher wh rule ref channels pt now id r channels' pt' now' id' r' :
  let fire := alert_payload now (customer_evaluation uuid_string rule channels pt ref) true in
  let resolve := alert_payload now' (customer_evaluation uuid_string rule channels' pt' ref) false in
  render uuid_string cipher id wh AlertFiring fire = Ok r ->
  render uuid_string cipher id' wh AlertResolved resolve = Ok r' ->
  (Webhook_Type wh = WebhookTypePagerDuty -> exists m m' key,
     req_body r = json_text (JObj m) /\ req_body r' = json_text (JObj m') /\ req_url r = req_url r'
     /\ obj_get m "dedup_key" = Some (JStr key) /\ obj_get m' "dedup_key" = Some (JStr key)
     /\ obj_get m "event_action" = Some (JStr "trigger") /\ obj_get m' "event_action" = Some (JStr "resolve"))
  /\ (Webhook_Type wh = WebhookTypeOpsgenie -> exists m alias,
     req_body r = json_text (JObj m) /\ obj_get m "alias" = Some (JStr alias)
     /\ req_url r' = req_url r +:+ "/" +:+ PathEscape alias +:+ "/close?identifierType=alias").
Proof using Type.
  intros fire resolve. unfold render. destruct (channel_secret cipher wh) as [secret|]; [|done].
  assert (alertDedupKey uuid_string fire = alertDedupKey uuid_string resolve) as Hk by (unfold fire, resolve; by rewrite !customer_dedup).
  intros Hr Hr'. split; intros Ht; rewrite Ht in Hr, Hr'; cbn -[pagerDutyBody opsgenieCreateBody opsgenieAlias json_text PathEscape] in Hr, Hr'.
  - destruct (pagerDutyBody uuid_string fire secret) as [b|] eqn:Hb; [|done].
    destruct (pagerDutyBody uuid_string resolve secret) as [b'|] eqn:Hb'; [|done].
    injection Hr as <-. injection Hr' as <-. unfold pagerDutyBody in Hb, Hb'. cbn -[map_json alertDedupKey] in Hb, Hb'.
    destruct (map_json _) as [dj|]; [|done]. injection Hb as <-. injection Hb' as <-.
    eexists _, _, (alertDedupKey uuid_string fire). split_and!; [reflexivity..| |reflexivity|reflexivity].
    rewrite Hk. reflexivity.
  - injection Hr as <-. injection Hr' as <-. eexists _, (opsgenieAlias uuid_string fire).
    split; [reflexivity|]. split; [reflexivity|].
    cbn [req_url]. unfold opsgenieAlias. by rewrite Hk.
Qed.

Lemma map_json_nonfinite d k f : d !! k = Some (AFloat f) -> any_json (AFloat f) = None -> map_json d = None.
Proof using Type.
  intros Hd Hf. unfold map_json. apply fmap_None, mapM_None. apply Exists_exists. exists (k, AFloat f).
  split; [|by cbn [fst snd]; rewrite Hf]. unfold sorted_members. rewrite sort_by_perm. by apply elem_of_map_to_list.
Qed.

(** Rendering fails when the body of the channel's type cannot be written. *)
Lemma render_unwritable cipher id wh ev p :
  Webhook_Type wh = WebhookTypeGeneric /\ payload_json uuid_string p = None
  \/ Webhook_Type wh = WebhookTypePagerDuty /\ (forall key, pagerDutyBody uuid_string p key = None) ->
  exists e, render uuid_string cipher id wh ev p = Err e.
Proof using Type.
  unfold render. destruct (channel_secret cipher wh) as [secret|e]; [|by eexists].
  intros [[-> Hb]|[-> Hb]]; rewrite Hb; by eexists.
Qed.

(** A PromQL rule whose query yields an infinite value (a division by zero, say)
    fires, but a generic webhook or PagerDuty channel never hears of it: the
    observed value cannot be written as JSON, so the delivery fails before its
    first request, for this and every such pass. *)
Theorem infinite_observation_lost rule channels pq region cipher wh id now answer cancelled :
  pq_Query pq region (AlertRule_Query rule) = Ok (S754_infinity false, true) ->
  AlertRule_Comparison rule = AlertComparisonAbove -> flt (AlertRule_Threshold rule) (S754_infinity false) = true ->
  Webhook_Type wh = WebhookTypeGeneric \/ Webhook_Type wh = WebhookTypePagerDuty ->
  exists e, region_evaluation uuid_string rule channels pq region = Some e /\ ev_breached e = true
    /\ exists err, deliverWithRetry uuid_string cipher id wh AlertFiring (alert_payload now e true) answer cancelled
                   = Some (MkDelivery [] [] (RenderFailed err)).
Proof using Type.
  intros Hq Hc Ht Hw. unfold region_evaluation. rewrite Hq, Hc. eexists. split; [reflexivity|]. split; [exact Ht|].
  set (p := alert_payload _ _ _).
  assert (map_json (detail p) = None) as Hm by (eapply (map_json_nonfinite _ "observed"); reflexivity).
  destruct (render_unwritable cipher id wh AlertFiring p) as [err Herr].
  { destruct Hw as [Hw|Hw]; [left|right]; (split; [exact Hw|]).
    - unfold payload_json. rewrite bool_decide_false, Hm; [done|].
      intros He. by apply (f_equal (fun m : gmap string any_value => m !! "rule")) in He.
    - intros key. unfold pagerDutyBody. change (Payload_Detail p) with (Some (detail p)). cbn -[map_json detail].
      by rewrite Hm. }
  exists err. unfold deliverWithRetry. by rewrite Herr.
Qed.
End receivers.

(** ** Examples *)

#[local] Transparent json_text.
#[local] Instance ex_format : FloatFormat := Build_FloatFormat (fun _ => "0") (fun _ => "0").
#[local] Existing Instance ex_aead.
#[local] Existing Instance Webhooks.ex_sha.

(** Identifiers in unary. *)
Definition ex_uuid (n : N) : string := of_bytes (repeat "u"%char (N.to_nat n)).

Lemma ex_uuid_inj a b : ex_uuid a = ex_uuid b -> a = b.
Proof.
  unfold ex_uuid. intros H. apply (f_equal String.list_ascii_of_string) in H.
  rewrite !String.list_ascii_of_string_of_list_ascii in H. apply (f_equal length) in H. rewrite !repeat_length in H. lia.
Qed.

Lemma ex_uuid_no_bar a : has_byte "|" (ex_uuid a) = false.
Proof. unfold ex_uuid. induction (N.to_nat a) as [|n IH]; [done|]. exact IH. Qed.

Definition fl (z : Z) : spec_float := float_of_Z z.
Definition ex_pd : Webhook := MkWebhook 9%N WebhookTypePagerDuty "pd" "" [] None true None 0 0.
Definition ex_rule (metric comparison : string) (threshold : Z) : AlertRule :=
  MkAlertRule 1%N "r" metric "q" comparison (fl threshold) 300 AlertSeverityWarning None [9%N] true 0 0.
Definition ex_ref : CustomerRef := MkCustomerRef 2%N "acme" "cust_acme".

Definition ex_metric_input (items : Z) : pass_input :=
  MkInput (1000 * second) (Ok []) (Ok [ex_rule AlertMetricIngestItems AlertComparisonBelow 10]) (Ok [ex_ref]) (Ok [ex_pd])
    (fun _ _ => Ok {[ "cust_acme" := fl items ]}) None.

Lemma metric_rule_pass_witness :
  ps_firing (evaluate_pass ex_uuid (ex_metric_input 3) ∅) !! customer_key ex_uuid (ex_rule AlertMetricIngestItems AlertComparisonBelow 10) ex_ref
  = Some true.
Proof.
  refine (proj1 (metric_rule_pass ex_uuid ex_uuid_inj ex_uuid_no_bar (ex_metric_input 3)
    [ex_rule AlertMetricIngestItems AlertComparisonBelow 10] [ex_ref] (hooks_by_id [ex_pd]) ∅
    (ex_rule AlertMetricIngestItems AlertComparisonBelow 10) ex_ref {[ "cust_acme" := fl 3 ]} _ _ _ _ _ _)).
  - reflexivity.
  - split_and!; [apply NoDup_singleton|apply NoDup_singleton|discriminate].
  - left.
  - discriminate.
  - reflexivity.
  - left.
Defined.

(** A rule that fires, stays and clears sends two notifications. *)
Example fire_once : map (fun s => Payload_Event s.2)
    (run ex_uuid true [ex_metric_input 3; ex_metric_input 4; ex_metric_input 20] ∅).2 = [AlertFiring; AlertResolved].
Proof. vm_compute. reflexivity. Qed.

Definition ex_fire : Payload :=
  alert_payload 0 (customer_evaluation ex_uuid (ex_rule AlertMetricIngestItems AlertComparisonBelow 10) [] ∅ ex_ref) true.
Definition ex_resolve : Payload :=
  alert_payload 60 (customer_evaluation ex_uuid (ex_rule AlertMetricIngestItems AlertComparisonBelow 10) []
                      {[ "cust_acme" := fl 20 ]} ex_ref) false.

Lemma resolve_addresses_fire_witness : exists r r' m m' key,
  render ex_uuid None "d1" ex_pd AlertFiring ex_fire = Ok r /\ render ex_uuid None "d2" ex_pd AlertResolved ex_resolve = Ok r'
  /\ req_body r = json_text (JObj m) /\ req_body r' = json_text (JObj m')
  /\ obj_get m "dedup_key" = Some (JStr key) /\ obj_get m' "dedup_key" = Some (JStr key).
Proof.
  destruct (render ex_uuid None "d1" ex_pd AlertFiring ex_fire) as [r|] eqn:E; [|vm_compute in E; discriminate].
  destruct (render ex_uuid None "d2" ex_pd AlertResolved ex_resolve) as [r'|] eqn:E'; [|vm_compute in E'; discriminate].
  destruct (proj1 (resolve_addresses_fire ex_uuid None ex_pd _ ex_ref [] ∅ 0 "d1" r [] _ 60 "d2" r' E E') eq_refl)
    as (m & m' & key & H1 & H2 & _ & H3 & H4 & _).
  exists r, r', m, m', key. split_and!; [reflexivity|reflexivity|assumption..].
Defined.

(** Infrastructure rules over two regions. *)
Definition ex_promql (eu us : spec_float * bool) : PromQLSource :=
  MkPromQL ["eu"; "us"] (fun region _ => Ok (if bool_decide (region = "eu") then eu else us)).
Definition ex_promql_input (eu us : spec_float * bool) : pass_input :=
  MkInput (1000 * second) (Ok []) (Ok [ex_rule AlertMetricPromQL AlertComparisonAbove 10]) (Ok []) (Ok [ex_pd])
    (fun _ _ => Ok ∅) (Some (ex_promql eu us)).

Lemma infinite_observation_lost_witness : exists e,
  region_evaluation ex_uuid (ex_rule AlertMetricPromQL AlertComparisonAbove 10) [ex_pd]
    (ex_promql (S754_infinity false, true) (fl 0, true)) "eu" = Some e /\ ev_breached e = true.
Proof.
  destruct (infinite_observation_lost ex_uuid (ex_rule AlertMetricPromQL AlertComparisonAbove 10) [ex_pd]
    (ex_promql (S754_infinity false, true) (fl 0, true)) "eu" None ex_pd "d" 0 (fun _ => Some 202%Z) (fun _ => false))
    as (e & He & Hb & _).
  - reflexivity.
  - reflexivity.
  - vm_compute. reflexivity.
  - right. reflexivity.
  - exists e. split; [exact He|exact Hb].
Defined.

(** A rule that fires in two regions opens one PagerDuty incident, because the
    dedup key of a PromQL alert does not name the region: when one region
    recovers, the incident is closed while the other region is still firing. *)
Theorem region_resolve_closes_other :
  let '(firing, sent) := run ex_uuid false
    [ex_promql_input (fl 20, true) (fl 20, true); ex_promql_input (fl 20, true) (fl 0, true)] ∅ in
  state_of firing (region_key ex_uuid (ex_rule AlertMetricPromQL AlertComparisonAbove 10) "eu") = true
  /\ foldl (incident_step ex_uuid) ∅ sent.*2 = ∅.
Proof. vm_compute. split; reflexivity. Qed.

(** An empty query result resolves a firing PromQL alert and the next reading
    fires it again: one missing sample makes the alert flap. *)
Theorem missing_sample_flaps :
  map (fun s => Payload_Event s.2)
    (run ex_uuid false [ex_promql_input (fl 20, true) (fl 0, true); ex_promql_input (fl 0, false) (fl 0, true);
                        ex_promql_input (fl 20, true) (fl 0, true)] ∅).2 = [AlertFiring; AlertResolved; AlertFiring].
Proof. vm_compute. reflexivity. Qed.
