(* ===== verification/PgUsers.v ===== *)
(** The PostgreSQL store, users: internal/store/pg_users.go and the user
    operations of pg.go.

    [lower] is PostgreSQL's lower(); session rows hold the encoded session,
    whose bytes contain the id of its user. *)
From S2P Require Import Prelude GoStrings Json StoreTypes Authz PgCore.

Open Scope string_scope.

Record UserWithIdentities : Type := MkUserWithIdentities {
  UWI_User : User;
  UWI_Identities : list string;
  UWI_CustomerIDs : list N
}.

(** Optional fields of an update. *)
Record UserUpdate : Type := MkUserUpdate {
  UserUpdate_Role : option string;
  UserUpdate_Disabled : option bool
}.

(** ** Table setters *)

Definition set_identities (f : gmap (string * string) N -> gmap (string * string) N) : DB -> DB :=
  set_ext (fun x => MkExt (f (x_identities x)) (x_grants x) (x_sessions x) (x_groups x) (x_members x) (x_webhooks x)
                      (x_alert_rules x) (x_windows x) (x_billing x) (x_overrides x)).
Definition set_grants (f : gset (N * N) -> gset (N * N)) : DB -> DB :=
  set_ext (fun x => MkExt (x_identities x) (f (x_grants x)) (x_sessions x) (x_groups x) (x_members x) (x_webhooks x)
                      (x_alert_rules x) (x_windows x) (x_billing x) (x_overrides x)).
Definition set_sessions (f : gmap string string -> gmap string string) : DB -> DB :=
  set_ext (fun x => MkExt (x_identities x) (x_grants x) (f (x_sessions x)) (x_groups x) (x_members x) (x_webhooks x)
                      (x_alert_rules x) (x_windows x) (x_billing x) (x_overrides x)).
Definition set_groups (f : gmap N scim_group_row -> gmap N scim_group_row) : DB -> DB :=
  set_ext (fun x => MkExt (x_identities x) (x_grants x) (x_sessions x) (f (x_groups x)) (x_members x) (x_webhooks x)
                      (x_alert_rules x) (x_windows x) (x_billing x) (x_overrides x)).
Definition set_members (f : gset (N * N) -> gset (N * N)) : DB -> DB :=
  set_ext (fun x => MkExt (x_identities x) (x_grants x) (x_sessions x) (x_groups x) (f (x_members x)) (x_webhooks x)
                      (x_alert_rules x) (x_windows x) (x_billing x) (x_overrides x)).

(** ** Row updates *)

Definition with_role (role : string) (u : User) : User :=
  MkUser (User_ID u) (User_Email u) (User_DisplayName u) role (User_ExternalID u) (User_DisabledAt u)
    (User_LastLoginAt u) (User_CreatedAt u) (User_ScimManaged u).
Definition with_disabled_at (t : option Z) (u : User) : User :=
  MkUser (User_ID u) (User_Email u) (User_DisplayName u) (User_Role u) (User_ExternalID u) t
    (User_LastLoginAt u) (User_CreatedAt u) (User_ScimManaged u).
Definition with_scim (displayName externalID : option string) (u : User) : User :=
  MkUser (User_ID u) (User_Email u) displayName (User_Role u) externalID (User_DisabledAt u)
    (User_LastLoginAt u) (User_CreatedAt u) (User_ScimManaged u).
Definition with_login (now : Z) (role : string) (u : User) : User :=
  MkUser (User_ID u) (User_Email u) (User_DisplayName u) role (User_ExternalID u) (User_DisabledAt u)
    (Some now) (User_CreatedAt u) (User_ScimManaged u).
Definition with_managed (role : string) (u : User) : User :=
  MkUser (User_ID u) (User_Email u) (User_DisplayName u) role (User_ExternalID u) (User_DisabledAt u)
    (User_LastLoginAt u) (User_CreatedAt u) true.

(** A scan of [userCols], which leaves out scim_managed. *)
Definition scan_user (u : User) : User :=
  MkUser (User_ID u) (User_Email u) (User_DisplayName u) (User_Role u) (User_ExternalID u) (User_DisabledAt u)
    (User_LastLoginAt u) (User_CreatedAt u) false.

(** The CHECK constraint on users.role. *)
Definition role_ok (role : string) : bool := bool_decide (role ∈ ["admin"; "operator"; "viewer"]).

Definition email_taken (email : string) (m : gmap N User) : bool :=
  existsb (fun p => bool_decide (User_Email p.2 = email)) (map_to_list m).
(** The partial unique index on users.external_id; [except] is the row being
    updated. *)
Definition external_id_taken (except : option N) (ext : option string) (m : gmap N User) : bool :=
  match ext with
  | None => false
  | Some e => existsb (fun p => bool_decide (User_ExternalID p.2 = Some e) && negb (bool_decide (Some p.1 = except)))
                (map_to_list m)
  end.

(** INSERT INTO users, with what each violated constraint is mapped to. *)
Definition insert_user (u : User) (dup_email dup_external other : store_err) : tx unit := fun d =>
  if negb (role_ok (User_Role u)) || bool_decide (is_Some (t_users d !! User_ID u)) then Err other
  else if email_taken (User_Email u) (t_users d) then Err dup_email
  else if external_id_taken None (User_ExternalID u) (t_users d) then Err dup_external
  else Ok (tt, set_users (<[User_ID u := u]>) d).

Definition enabled_admin (u : User) : bool :=
  bool_decide (User_Role u = "admin") && bool_decide (User_DisabledAt u = None).
Definition enabled_admins (d : DB) : nat := length (rows (t_users d) enabled_admin).

(** Does a byte string occur in another: position($1 in data) > 0. *)
Fixpoint str_contains (needle hay : string) : bool :=
  has_prefix needle hay || match hay with "" => false | String _ hay => str_contains needle hay end.

Section users.
Context (uuid_string : N -> string) (lower : string -> string).

(** ** Reads *)

Definition with_identities (d : DB) (u : User) : UserWithIdentities :=
  MkUserWithIdentities (scan_user u)
    (sort_by str_lt ((fun i => i.1.1) <$> filter (fun i => i.2 = User_ID u) (map_to_list (x_identities (t_ext d)))))
    (snd <$> filter (fun g => g.1 = User_ID u) (elements (x_grants (t_ext d)))).

Definition pg_GetUser (id : N) (d : DB) : result User store_err :=
  match t_users d !! id with Some u => Ok u | None => Err ErrNotFound end.

Definition pg_GetUserWithIdentities (id : N) (d : DB) : result UserWithIdentities store_err :=
  match t_users d !! id with Some u => Ok (with_identities d u) | None => Err ErrNotFound end.

(** The first row of the query's result. *)
Definition pg_GetUserByEmail (email : string) (d : DB) : result UserWithIdentities store_err :=
  match rows (t_users d) (fun u => bool_decide (lower (User_Email u) = lower email)) with
  | u :: _ => Ok (with_identities d u)
  | [] => Err ErrNotFound
  end.

Definition user_before (a b : User) : bool :=
  (User_CreatedAt a <? User_CreatedAt b)%Z
  || (User_CreatedAt a =? User_CreatedAt b)%Z && (User_ID a <? User_ID b)%N.

Definition pg_ListUsers (d : DB) : list UserWithIdentities :=
  with_identities d <$> sort_by user_before (rows (t_users d) (fun _ => true)).

Definition pg_ListUserCustomerIDs (userID : N) (d : DB) : list N :=
  snd <$> filter (fun g => g.1 = userID) (elements (x_grants (t_ext d))).

(** ** Writes *)

Definition pg_CreateSCIMUser (now : Z) (id : N) (email role : string) (displayName externalID : option string)
  (entries : list AuditEntry) : DB -> result UserWithIdentities store_err * DB :=
  inTx (insert_user (MkUser id email displayName role externalID None None now false)
          ErrEmailExists ErrConflict (ErrOther "insert scim user") ;;
        audit_Write entries ;;
        tx_read (pg_GetUserWithIdentities id)).

Definition pg_UpdateSCIMUser (id : N) (displayName externalID : option string) (entries : list AuditEntry)
  : DB -> result UserWithIdentities store_err * DB :=
  inTx (taken <- tx_get (fun d => bool_decide (is_Some (t_users d !! id)) && external_id_taken (Some id) externalID (t_users d)) ;;
        tx_check (negb taken) (ErrOther "update scim user") ;;
        u <- tx_read (pg_GetUser id) ;;
        tx_exec (set_users (<[id := with_scim displayName externalID u]>)) ;;
        audit_Write entries ;;
        tx_read (pg_GetUserWithIdentities id)).

(** One INSERT per customer, skipping duplicates. *)
Fixpoint insert_grants (userID : N) (customerIDs : list N) : tx unit :=
  match customerIDs with
  | [] => tx_ret tt
  | cid :: customerIDs =>
      found <- tx_get (fun d => bool_decide (is_Some (t_customers d !! cid))) ;;
      tx_check found ErrNotFound ;;
      tx_exec (set_grants (fun g => {[ (userID, cid) ]} ∪ g)) ;;
      insert_grants userID customerIDs
  end.

Definition clear_grants (userID : N) : DB -> DB := set_grants (filter (fun g => g.1 <> userID)).

Definition pg_SetUserCustomerGrants (userID : N) (customerIDs : list N) (entries : list AuditEntry)
  : DB -> result unit store_err * DB :=
  inTx (_ <- tx_read (pg_GetUser userID) ;;
        tx_exec (clear_grants userID) ;;
        insert_grants userID customerIDs ;;
        audit_Write entries).

Definition pg_CreateInvitedUser (now : Z) (id : N) (email role : string) (entries : list AuditEntry)
  : DB -> result User store_err * DB :=
  inTx (let u := MkUser id email None role None None None now false in
        insert_user u ErrEmailExists (ErrOther "insert invited user") (ErrOther "insert invited user") ;;
        audit_Write entries ;;
        tx_ret u).

Definition ensureEnabledAdminRemains : tx unit := fun d =>
  if (enabled_admins d =? 0)%nat then Err ErrLastAdmin else Ok (tt, d).

Definition deleteSessionsByUser (id : N) : tx unit :=
  tx_exec (set_sessions (filter (fun s => str_contains (uuid_string id) s.2 = false))).

Definition update_role (id : N) (role : string) : tx unit :=
  u <- tx_read (pg_GetUser id) ;;
  tx_check (role_ok role) (ErrOther "update role") ;;
  tx_exec (set_users (<[id := with_role role u]>)).

Definition update_disabled (now : Z) (id : N) (disabled : bool) : tx unit :=
  u <- tx_read (pg_GetUser id) ;;
  if disabled then
    tx_exec (set_users (<[id := with_disabled_at (Some (default now (User_DisabledAt u))) u]>)) ;;
    deleteSessionsByUser id
  else tx_exec (set_users (<[id := with_disabled_at None u]>)).

Definition tx_when {A} (o : option A) (f : A -> tx unit) : tx unit :=
  match o with Some a => f a | None => tx_ret tt end.

(** The statements of [UpdateUserAdmin]; a transaction of its own below. *)
Definition update_user_admin (now : Z) (id : N) (upd : UserUpdate) (entries : list AuditEntry) : tx UserWithIdentities :=
  _ <- tx_read (pg_GetUser id) ;;
  tx_when (UserUpdate_Role upd) (update_role id) ;;
  tx_when (UserUpdate_Disabled upd) (update_disabled now id) ;;
  ensureEnabledAdminRemains ;;
  audit_Write entries ;;
  tx_read (pg_GetUserWithIdentities id).

Definition pg_UpdateUserAdmin (now : Z) (id : N) (upd : UserUpdate) (entries : list AuditEntry)
  : DB -> result UserWithIdentities store_err * DB :=
  inTx (update_user_admin now id upd entries).

(** created_by = NULL in the three tables the code names. *)
Definition detach_created_by (id : N) (d : DB) : DB :=
  let drop := fun o => if decide (o = Some id) then None else o in
  set_pipeline_versions (fmap (fun v => MkVersionRow (pv_id v) (pv_pipeline_id v) (pv_version v) (pv_graph v)
      (pv_rendered_yaml v) (pv_config_hash v) (pv_validation_status v) (pv_validation_output v) (drop (pv_created_by v)) (pv_created_at v)))
  (set_bootstrap_tokens (fmap (fun t => MkBootstrapToken (BootstrapToken_ID t) (BootstrapToken_CustomerID t) (BootstrapToken_Name t)
      (BootstrapToken_TokenPrefix t) (BootstrapToken_TokenHash t) (BootstrapToken_MaxUses t) (BootstrapToken_UsedCount t)
      (drop (BootstrapToken_CreatedBy t)) (BootstrapToken_CreatedAt t) (BootstrapToken_ExpiresAt t) (BootstrapToken_RevokedAt t)))
  (set_api_keys (fmap (fun k => MkAPIKey (APIKey_ID k) (APIKey_CustomerID k) (APIKey_Name k) (APIKey_KeyPrefix k) (APIKey_KeyHash k)
      (drop (APIKey_CreatedBy k)) (APIKey_CreatedAt k) (APIKey_ExpiresAt k) (APIKey_RevokedAt k) (APIKey_LastUsedAt k))) d)).

(** The references to users the schema has besides those: without ON DELETE. *)
Definition user_referenced (id : N) (d : DB) : bool :=
  existsb (fun r => bool_decide (APIToken_CreatedBy (at_token r) = Some id)) (rows (t_api_tokens d) (fun _ => true))
  || existsb (fun w => bool_decide (Webhook_CreatedBy w = Some id)) (rows (x_webhooks (t_ext d)) (fun _ => true))
  || bool_decide (BillingSettings_UpdatedBy (x_billing (t_ext d)) = Some id)
  || existsb (fun o => bool_decide (BillingOverride_UpdatedBy o = Some id)) (rows (x_overrides (t_ext d)) (fun _ => true)).

(** DELETE FROM users with the cascades to identities, grants and memberships. *)
Definition delete_user_row (id : N) : DB -> DB := fun d =>
  set_members (filter (fun m => m.2 <> id)) (clear_grants id (set_identities (filter (fun i => i.2 <> id)) (set_users (delete id) d))).

Definition pg_DeleteUser (id : N) (entries : list AuditEntry) : DB -> result unit store_err * DB :=
  inTx (tx_exec (detach_created_by id) ;;
        referenced <- tx_get (fun d => bool_decide (is_Some (t_users d !! id)) && user_referenced id d) ;;
        tx_check (negb referenced) (ErrOther "delete user") ;;
        _ <- tx_read (pg_GetUser id) ;;
        tx_exec (delete_user_row id) ;;
        ensureEnabledAdminRemains ;;
        deleteSessionsByUser id ;;
        audit_Write entries).

(** [newID]: the default of the id column. *)
Definition find_or_create_user (now : Z) (newID : N) (email : string) (displayName : option string) (roleIfNew : string)
  : tx User := fun d =>
  match rows (t_users d) (fun u => bool_decide (User_Email u = email)) with
  | u :: _ => Ok (scan_user u, d)
  | [] =>
      let u := MkUser newID email displayName roleIfNew None None None now false in
      (insert_user u (ErrOther "insert user") (ErrOther "insert user") (ErrOther "insert user") ;; tx_ret u) d
  end.

Definition insert_identity (userID : N) (provider subject : string) : tx unit := fun d =>
  if bool_decide (is_Some (x_identities (t_ext d) !! (provider, subject))) then Err (ErrOther "insert identity")
  else Ok (tt, set_identities (<[(provider, subject) := userID]>) d).

Definition pg_UpsertUserByIdentity (now : Z) (newID : N) (provider subject email : string) (displayName : option string)
  (roleIfNew : string) : DB -> result User store_err * DB :=
  inTx (known <- tx_get (fun d => id ← x_identities (t_ext d) !! (provider, subject); t_users d !! id) ;;
        u <- match known with
             | Some u => tx_ret (scan_user u)
             | None =>
                 u <- find_or_create_user now newID email displayName roleIfNew ;;
                 insert_identity (User_ID u) provider subject ;;
                 tx_ret u
             end ;;
        let role := if decide (roleIfNew = "admin") then "admin" else User_Role u in
        row <- tx_read (pg_GetUser (User_ID u)) ;;
        let row := with_login now role row in
        tx_exec (set_users (<[User_ID u := row]>)) ;;
        tx_ret (scan_user row)).
End users.

(** ** Inversion of statements *)

Lemma tx_check_Ok b e d a d' : tx_check b e d = Ok (a, d') -> b = true /\ d' = d.
Proof. destruct b; [|done]. by intros [= _ ->]. Qed.

Lemma tx_get_Ok {A} (f : DB -> A) d a d' : tx_get f d = Ok (a, d') -> a = f d /\ d' = d.
Proof. by intros [= -> ->]. Qed.

Lemma tx_exec_Ok f d a d' : tx_exec f d = Ok (a, d') -> d' = f d.
Proof. by intros [= _ ->]. Qed.

Lemma audit_Write_Ok es d a d' : audit_Write es d = Ok (a, d') -> d' = set_audit (fun l => audit_write l es) d.
Proof. by intros [= _ ->]. Qed.

Lemma pg_GetUser_Ok id d u : pg_GetUser id d = Ok u -> t_users d !! id = Some u.
Proof. unfold pg_GetUser. destruct (t_users d !! id); [|done]. by intros [= ->]. Qed.

(** Split a successful transaction into its statements and invert the simple
    ones. *)
Ltac tx_invert H :=
  repeat match type of H with
  | tx_bind _ _ _ = Ok _ =>
      let a := fresh "a" in let d := fresh "d" in let Hs := fresh "Hs" in
      apply tx_bind_Ok in H as (a & d & Hs & H); cbv beta zeta in H;
      first
        [ apply tx_read_Ok in Hs as [Hs ->]
        | apply tx_check_Ok in Hs as [Hs ->]
        | apply tx_get_Ok in Hs as [-> ->]
        | apply tx_exec_Ok in Hs as ->
        | apply audit_Write_Ok in Hs as ->
        | idtac ]
  | tx_read _ _ = Ok _ => apply tx_read_Ok in H as [H ->]
  | tx_exec _ _ = Ok _ => apply tx_exec_Ok in H as ->
  | audit_Write _ _ = Ok _ => apply audit_Write_Ok in H as ->
  | tx_ret _ _ = Ok _ => injection H as H <-
  end.

(** ** Well-formed user tables *)

(** Rows are stored under their ids with a valid role, emails and external ids
    are unique, and grants, memberships and identities refer to rows that
    exist. *)
Record users_wf (d : DB) : Prop := {
  uw_row : forall i u, t_users d !! i = Some u -> User_ID u = i /\ role_ok (User_Role u) = true;
  uw_email : forall i j u v, t_users d !! i = Some u -> t_users d !! j = Some v -> User_Email u = User_Email v -> i = j;
  uw_external : forall i j u v e, t_users d !! i = Some u -> t_users d !! j = Some v ->
    User_ExternalID u = Some e -> User_ExternalID v = Some e -> i = j;
  uw_grants : forall u c, (u, c) ∈ x_grants (t_ext d) -> is_Some (t_users d !! u) /\ is_Some (t_customers d !! c);
  uw_members : forall g u, (g, u) ∈ x_members (t_ext d) -> is_Some (x_groups (t_ext d) !! g) /\ is_Some (t_users d !! u);
  uw_identities : forall p u, x_identities (t_ext d) !! p = Some u -> is_Some (t_users d !! u);
  uw_groups : forall g r, x_groups (t_ext d) !! g = Some r -> sg_id r = g
}.

Lemma existsb_rows_false {A} (f : N * A -> bool) (m : gmap N A) : existsb f (map_to_list m) = false <->
  forall i x, m !! i = Some x -> f (i, x) = false.
Proof.
  rewrite <- not_true_iff_false, existsb_exists. split.
  - intros H i x Hi. apply not_true_is_false. intros Hf. apply H. exists (i, x). split; [|done].
    by apply list_elem_of_In, elem_of_map_to_list.
  - intros H ([i x] & Hin & Hf). apply list_elem_of_In, elem_of_map_to_list in Hin. by rewrite (H i x Hin) in Hf.
Qed.

Lemma email_taken_false email m : email_taken email m = false <-> forall i u, m !! i = Some u -> User_Email u <> email.
Proof.
  unfold email_taken. rewrite existsb_rows_false.
  split; intros H i u Hi; specialize (H i u Hi); simpl in *; by apply bool_decide_eq_false in H || apply bool_decide_eq_false.
Qed.

Lemma external_id_taken_false except e m : external_id_taken except (Some e) m = false <->
  forall i u, m !! i = Some u -> User_ExternalID u = Some e -> Some i = except.
Proof.
  unfold external_id_taken. rewrite existsb_rows_false. split; intros H i u Hi.
  - intros He. specialize (H i u Hi). apply andb_false_iff in H as [H|H]; simpl in H.
    + by apply bool_decide_eq_false in H.
    + by apply negb_false_iff, bool_decide_eq_true in H.
  - simpl. destruct (bool_decide_reflect (User_ExternalID u = Some e)) as [He|He]; [|done].
    by rewrite (bool_decide_true _ (H i u Hi He)).
Qed.

(** Two states with the same user tables. *)
Definition same_users (d d' : DB) : Prop :=
  t_users d' = t_users d /\ t_customers d' = t_customers d /\ x_grants (t_ext d') = x_grants (t_ext d)
  /\ x_members (t_ext d') = x_members (t_ext d) /\ x_identities (t_ext d') = x_identities (t_ext d)
  /\ x_groups (t_ext d') = x_groups (t_ext d).

Lemma users_wf_same d d' : same_users d d' -> users_wf d -> users_wf d'.
Proof. intros (E1 & E2 & E3 & E4 & E5 & E6) []. by split; rewrite ?E1, ?E2, ?E3, ?E4, ?E5, ?E6. Qed.

(** Replacing a user row that keeps its identity. *)
Lemma replace_user_wf id u u' d : users_wf d -> t_users d !! id = Some u ->
  User_ID u' = User_ID u -> User_Email u' = User_Email u -> role_ok (User_Role u') = true ->
  (User_ExternalID u' = User_ExternalID u \/ external_id_taken (Some id) (User_ExternalID u') (t_users d) = false) ->
  users_wf (set_users (<[id := u']>) d).
Proof.
  intros [W1 W2 W3 W4 W5 W6 W7] Hu Hid Hem Hr Hext.
  assert (forall i, is_Some (t_users d !! i) -> is_Some (<[id := u']> (t_users d) !! i)) as Hkeep.
  { intros i [v Hv]. destruct (decide (id = i)) as [->|]; [by rewrite lookup_insert_eq|by rewrite lookup_insert_ne]. }
  destruct (W1 _ _ Hu) as [Hidu _]. split; simpl.
  - intros i v. rewrite lookup_insert_Some. intros [[<- <-]|[_ Hv]]; [|by apply W1]. split; [congruence|done].
  - intros i j v w. rewrite !lookup_insert_Some. intros [[<- <-]|[? Hv]] [[<- <-]|[? Hw]] He; try done.
    + rewrite Hem in He. by eapply W2.
    + rewrite Hem in He. by eapply W2.
    + by eapply W2.
  - assert (forall j w e, id <> j -> t_users d !! j = Some w -> User_ExternalID u' = Some e -> User_ExternalID w = Some e -> False) as Hx.
    { intros j w e Hne Hw He He'. destruct Hext as [Hext|Hext].
      - apply Hne. eapply W3; [exact Hu|exact Hw| |exact He']. congruence.
      - rewrite He in Hext. rewrite external_id_taken_false in Hext. specialize (Hext j w Hw He'). congruence. }
    intros i j v w e. rewrite !lookup_insert_Some. intros [[<- <-]|[? Hv]] [[<- <-]|[? Hw]] He He'; try done.
    + exfalso. by eapply Hx.
    + exfalso. by eapply Hx.
    + by eapply W3.
  - intros v c [? ?]%W4. auto.
  - intros g v [? ?]%W5. auto.
  - intros p v ?%W6. auto.
  - exact W7.
Qed.

Lemma insert_user_Ok u e1 e2 e3 d a d' : insert_user u e1 e2 e3 d = Ok (a, d') ->
  d' = set_users (<[User_ID u := u]>) d /\ t_users d !! User_ID u = None /\ role_ok (User_Role u) = true
  /\ email_taken (User_Email u) (t_users d) = false /\ external_id_taken None (User_ExternalID u) (t_users d) = false.
Proof.
  unfold insert_user. destruct (role_ok (User_Role u)); [|done]. case_bool_decide as Hn; [done|]. simpl.
  destruct (email_taken _ _); [done|]. destruct (external_id_taken _ _ _); [done|].
  intros [= _ <-]. by apply eq_None_not_Some in Hn.
Qed.

Lemma insert_user_wf u e1 e2 e3 d a d' : users_wf d -> insert_user u e1 e2 e3 d = Ok (a, d') -> users_wf d'.
Proof.
  intros [W1 W2 W3 W4 W5 W6 W7] (-> & Hn & Hr & Hem & Hext)%insert_user_Ok. rewrite email_taken_false in Hem.
  assert (forall i, is_Some (t_users d !! i) -> is_Some (<[User_ID u := u]> (t_users d) !! i)) as Hkeep.
  { intros i [v Hv]. rewrite lookup_insert_ne; [by eexists|]. intros <-. congruence. }
  split; simpl.
  - intros i v. rewrite lookup_insert_Some. intros [[<- <-]|[_ Hv]]; [done|by apply W1].
  - intros i j v w. rewrite !lookup_insert_Some. intros [[<- <-]|[? Hv]] [[<- <-]|[? Hw]] He; try done.
    + by destruct (Hem j w Hw).
    + by destruct (Hem i v Hv).
    + by eapply W2.
  - assert (forall j w e, t_users d !! j = Some w -> User_ExternalID u = Some e -> User_ExternalID w = Some e -> False) as Hx.
    { intros j w e Hw He He'. rewrite He, external_id_taken_false in Hext. by specialize (Hext j w Hw He'). }
    intros i j v w e. rewrite !lookup_insert_Some. intros [[<- <-]|[? Hv]] [[<- <-]|[? Hw]] He He'; try done.
    + exfalso. by eapply (Hx j w e).
    + exfalso. by eapply (Hx i v e).
    + by eapply W3.
  - intros v c [? ?]%W4. auto.
  - intros g v [? ?]%W5. auto.
  - intros p v ?%W6. auto.
  - exact W7.
Qed.

Lemma clear_grants_wf id d : users_wf d -> users_wf (clear_grants id d).
Proof. intros [W1 W2 W3 W4 W5 W6 W7]. split; simpl; try done. intros u c [_ H]%elem_of_filter. by apply W4. Qed.

Lemma delete_user_row_wf id d : users_wf d -> users_wf (delete_user_row id d).
Proof.
  intros [W1 W2 W3 W4 W5 W6 W7]. split; simpl.
  - intros i u [_ Hu]%lookup_delete_Some. by apply W1.
  - intros i j u v [_ Hu]%lookup_delete_Some [_ Hv]%lookup_delete_Some. by eapply W2.
  - intros i j u v e [_ Hu]%lookup_delete_Some [_ Hv]%lookup_delete_Some. by eapply W3.
  - intros u c [Hne H]%elem_of_filter. apply W4 in H. by rewrite lookup_delete_ne.
  - intros g u [Hne H]%elem_of_filter. apply W5 in H. by rewrite lookup_delete_ne.
  - intros p u [H Hne]%map_lookup_filter_Some. apply W6 in H. by rewrite lookup_delete_ne.
  - exact W7.
Qed.

(** What a run of grant insertions does. *)
Lemma insert_grants_Ok userID cs d a d' : insert_grants userID cs d = Ok (a, d') ->
  d' = set_grants (fun g => list_to_set (pair userID <$> cs) ∪ g) d /\ forall c, c ∈ cs -> is_Some (t_customers d !! c).
Proof.
  revert d. induction cs as [|c cs IH]; intros d; simpl.
  - intros [= _ <-]. split; [|intros c Hc; by apply elem_of_nil in Hc]. destruct d as [? ? ? ? ? ? ? ? ? ? ? []].
    unfold set_grants, set_ext. simpl. by rewrite (left_id_L ∅ (∪)).
  - intros H. tx_invert H. apply bool_decide_eq_true in Hs. apply IH in H as [-> Hc]. split.
    + unfold set_grants, set_ext. simpl. do 2 f_equal. set_solver.
    + intros c' [->|?]%elem_of_cons; [done|by apply Hc].
Qed.

Lemma insert_grants_wf userID cs d a d' : users_wf d -> is_Some (t_users d !! userID) ->
  insert_grants userID cs d = Ok (a, d') -> users_wf d'.
Proof.
  intros [W1 W2 W3 W4 W5 W6 W7] Hu [-> Hc]%insert_grants_Ok. split; simpl; try done.
  intros u c [H|H]%elem_of_union; [|by apply W4].
  apply elem_of_list_to_set, list_elem_of_fmap in H as (c' & [= -> ->] & Hin). auto.
Qed.

(** ** Statements on a user row *)

Lemma update_role_wf id role d a d' : users_wf d -> update_role id role d = Ok (a, d') -> users_wf d'.
Proof.
  intros Hwf H. unfold update_role in H. tx_invert H. apply pg_GetUser_Ok in Hs.
  eapply replace_user_wf; [done..|by left].
Qed.

Lemma update_disabled_wf uuid now id b d a d' : users_wf d -> update_disabled uuid now id b d = Ok (a, d') -> users_wf d'.
Proof.
  intros Hwf H. unfold update_disabled in H. tx_invert H. apply pg_GetUser_Ok in Hs.
  destruct (uw_row _ Hwf _ _ Hs) as [_ Hr]. destruct b; unfold deleteSessionsByUser in H; tx_invert H.
  - eapply users_wf_same; [|eapply (replace_user_wf id _ (with_disabled_at _ _)); [exact Hwf|exact Hs|done..|by left]].
    by split_and!.
  - eapply replace_user_wf; [done..|by left].
Qed.

Lemma tx_when_keeps {A} (P : DB -> Prop) (o : option A) f d a d' :
  (forall x d a d', P d -> f x d = Ok (a, d') -> P d') -> P d -> tx_when o f d = Ok (a, d') -> P d'.
Proof. intros Hf Hp. destruct o as [x|]; simpl; [by apply Hf|]. by intros [= _ <-]. Qed.

Lemma ensureEnabledAdminRemains_Ok d a d' : ensureEnabledAdminRemains d = Ok (a, d') -> d' = d /\ (0 < enabled_admins d)%nat.
Proof. unfold ensureEnabledAdminRemains. destruct (Nat.eqb_spec (enabled_admins d) 0); [done|]. intros [= _ <-]. split; [done|lia]. Qed.

(** What each committed operation on users establishes. *)
Lemma update_user_admin_Ok uuid now id upd es d a d' : update_user_admin uuid now id upd es d = Ok (a, d') ->
  (users_wf d -> users_wf d') /\ (0 < enabled_admins d')%nat.
Proof.
  unfold update_user_admin. intros H. tx_invert H. apply ensureEnabledAdminRemains_Ok in Hs2 as [-> Hadm].
  split; [|exact Hadm]. intros Hwf.
  eapply (tx_when_keeps users_wf) in Hs0; [|eauto using update_role_wf|exact Hwf].
  eapply (tx_when_keeps users_wf) in Hs1; [|eauto using update_disabled_wf|exact Hs0].
  eapply users_wf_same; [|exact Hs1]. by split_and!.
Qed.
