(* ===== verification/PgScim.v ===== *)
(** The PostgreSQL store, SCIM groups: internal/store/pg_scim_groups.go.

    The maps [affectedSet] and [grantSet] are sets; the slices made from them
    are enumerated in a fixed order. *)
From S2P Require Import Prelude GoStrings Json StoreTypes Authz PgCore PgUsers.

Open Scope string_scope.

Record SCIMGroup : Type := MkSCIMGroup {
  SCIMGroup_ID : N;
  SCIMGroup_ExternalID : option string;
  SCIMGroup_DisplayName : string;
  SCIMGroup_Members : list N;
  SCIMGroup_CreatedAt : Z;
  SCIMGroup_UpdatedAt : Z
}.

Record SCIMMapping : Type := MkSCIMMapping {
  RolePrefix : string;
  CustomerPrefix : string;
  DefaultRole : string
}.

Definition pg_GetCustomerBySlug (slug : string) (d : DB) : result Customer store_err :=
  match rows (t_customers d) (fun c => bool_decide (Customer_Slug c = slug)
                                       && negb (bool_decide (Customer_Status c = CustomerDeleted))) with
  | c :: _ => Ok c
  | [] => Err ErrNotFound
  end.

(** ** Groups *)

(** [ORDER BY user_id] *)
Definition loadGroupMembers (id : N) (d : DB) : list N :=
  sort_by N.ltb (snd <$> filter (fun m => m.1 = id) (elements (x_members (t_ext d)))).

Definition scim_group (d : DB) (r : scim_group_row) : SCIMGroup :=
  MkSCIMGroup (sg_id r) (sg_external_id r) (sg_display_name r) (loadGroupMembers (sg_id r) d) (sg_created_at r) (sg_updated_at r).

Fixpoint insertGroupMembers (groupID : N) (members : list N) : tx unit :=
  match members with
  | [] => tx_ret tt
  | uid :: members =>
      found <- tx_get (fun d => bool_decide (is_Some (t_users d !! uid))) ;;
      tx_check found ErrNotFound ;;
      tx_exec (set_members (fun m => {[ (groupID, uid) ]} ∪ m)) ;;
      insertGroupMembers groupID members
  end.

Definition group_external_id_taken (except : option N) (ext : option string) (m : gmap N scim_group_row) : bool :=
  match ext with
  | None => false
  | Some e => existsb (fun p => bool_decide (sg_external_id p.2 = Some e) && negb (bool_decide (Some p.1 = except)))
                (map_to_list m)
  end.

Definition insert_group (r : scim_group_row) : tx unit := fun d =>
  if bool_decide (is_Some (x_groups (t_ext d) !! sg_id r)) then Err (ErrOther "insert scim group")
  else if group_external_id_taken None (sg_external_id r) (x_groups (t_ext d)) then Err ErrConflict
  else Ok (tt, set_groups (<[sg_id r := r]>) d).

(** pgx.ErrNoRows, mapped to ErrNotFound by the callers. *)
Definition get_group (id : N) (d : DB) : result scim_group_row store_err :=
  match x_groups (t_ext d) !! id with Some r => Ok r | None => Err ErrNotFound end.

Definition read_group (id : N) (d : DB) : result SCIMGroup store_err :=
  match get_group id d with Ok r => Ok (scim_group d r) | Err e => Err e end.

Definition pg_CreateSCIMGroup (now : Z) (id : N) (displayName : string) (externalID : option string) (members : list N)
  (entries : list AuditEntry) : DB -> result SCIMGroup store_err * DB :=
  inTx (insert_group (MkSCIMGroupRow id externalID displayName now now) ;;
        insertGroupMembers id members ;;
        g <- tx_read (read_group id) ;;
        audit_Write entries ;;
        tx_ret g).

Definition pg_GetSCIMGroup (id : N) (d : DB) : result SCIMGroup store_err := read_group id d.

(** [ORDER BY display_name] *)
Definition pg_ListSCIMGroups (d : DB) : list SCIMGroup :=
  scim_group d <$> sort_by (fun a b => str_lt (sg_display_name a) (sg_display_name b)) (rows (x_groups (t_ext d)) (fun _ => true)).

Definition clear_members (id : N) : DB -> DB := set_members (filter (fun m => m.1 <> id)).

Definition update_group_row (now : Z) (id : N) (displayName externalID : option string) : tx scim_group_row :=
  before <- tx_read (get_group id) ;;
  let r := MkSCIMGroupRow id (match externalID with Some e => Some e | None => sg_external_id before end)
             (default (sg_display_name before) displayName) (sg_created_at before) now in
  taken <- tx_get (fun d => group_external_id_taken (Some id) (sg_external_id r) (x_groups (t_ext d))) ;;
  tx_check (negb taken) ErrConflict ;;
  tx_exec (set_groups (<[id := r]>)) ;;
  tx_ret r.

Definition replace_members (id : N) (members : list N) : tx unit :=
  tx_exec (clear_members id) ;;
  insertGroupMembers id members.

Definition pg_UpdateSCIMGroup (now : Z) (id : N) (displayName externalID : option string) (members : option (list N))
  (entries : list AuditEntry) : DB -> result (SCIMGroup * list N) store_err * DB :=
  inTx (before <- tx_read (get_group id) ;;
        oldMembers <- tx_get (loadGroupMembers id) ;;
        _ <- update_group_row now id displayName externalID ;;
        let nameChanged := match displayName with
                           | Some n => negb (bool_decide (n = sg_display_name before))
                           | None => false
                           end in
        tx_when members (replace_members id) ;;
        let affected : gset N := match members with
                                 | Some ms => list_to_set oldMembers ∪ list_to_set ms
                                 | None => if nameChanged then list_to_set oldMembers else ∅
                                 end in
        g <- tx_read (read_group id) ;;
        audit_Write entries ;;
        tx_ret (g, elements affected)).

Definition touch_group (now : Z) (id : N) : DB -> DB :=
  set_groups (fun m => match m !! id with
                       | Some r => <[id := MkSCIMGroupRow (sg_id r) (sg_external_id r) (sg_display_name r) (sg_created_at r) now]> m
                       | None => m
                       end).

Definition pg_ModifySCIMGroupMembers (now : Z) (id : N) (add remove : list N) (entries : list AuditEntry)
  : DB -> result (SCIMGroup * list N) store_err * DB :=
  inTx (_ <- tx_read (get_group id) ;;
        insertGroupMembers id add ;;
        tx_exec (set_members (filter (fun m => ~ (m.1 = id /\ m.2 ∈ remove)))) ;;
        tx_exec (touch_group now id) ;;
        g <- tx_read (read_group id) ;;
        audit_Write entries ;;
        tx_ret (g, elements (list_to_set add ∪ list_to_set remove : gset N))).

Definition pg_DeleteSCIMGroup (id : N) (entries : list AuditEntry) : DB -> result (list N) store_err * DB :=
  inTx (formerMembers <- tx_get (loadGroupMembers id) ;;
        _ <- tx_read (get_group id) ;;
        tx_exec (fun d => clear_members id (set_groups (delete id) d)) ;;
        audit_Write entries ;;
        tx_ret formerMembers).

(** ** Access derived from groups *)

(** The display names of the groups a user is in. *)
Definition group_names (userID : N) (d : DB) : list string :=
  omap (fun m => sg_display_name <$> x_groups (t_ext d) !! m.1)
    (filter (fun m => m.2 = userID) (elements (x_members (t_ext d)))).

(** What the loop over the names finds. *)
Record derived : Type := MkDerived {
  dv_bestRole : string;
  dv_hasMapped : bool;
  dv_slugs : list string
}.

Definition derive_step (m : SCIMMapping) (a : derived) (dn : string) : derived :=
  if negb (bool_decide (RolePrefix m = "")) && has_prefix (RolePrefix m) dn then
    let role := default dn (cut_prefix (RolePrefix m) dn) in
    MkDerived (if Known role && (Rank (dv_bestRole a) <? Rank role)%Z then role else dv_bestRole a) true (dv_slugs a)
  else if negb (bool_decide (CustomerPrefix m = "")) && has_prefix (CustomerPrefix m) dn then
    MkDerived (dv_bestRole a) true (dv_slugs a ++ [default dn (cut_prefix (CustomerPrefix m) dn)])%list
  else a.

Definition derive (m : SCIMMapping) (names : list string) : derived := foldl (derive_step m) (MkDerived "" false []) names.

(** The customers named by the slugs; unknown ones are skipped. *)
Definition grant_set (slugs : list string) (d : DB) : gset N :=
  list_to_set (omap (fun slug => match pg_GetCustomerBySlug slug d with Ok c => Some (Customer_ID c) | Err _ => None end) slugs).

Definition write_access (userID : N) (newRole : string) (grants : gset N) (u : User) : tx unit :=
  tx_check (role_ok newRole) (ErrOther "update users") ;;
  tx_exec (set_users (<[userID := with_managed newRole u]>)) ;;
  tx_exec (clear_grants userID) ;;
  insert_grants userID (elements grants).

Definition pg_RecomputeSCIMUserAccess (userID : N) (m : SCIMMapping) (entries : list AuditEntry)
  : DB -> result unit store_err * DB :=
  inTx (u <- tx_read (pg_GetUser userID) ;;
        names <- tx_get (group_names userID) ;;
        let dv := derive m names in
        if negb (User_ScimManaged u || dv_hasMapped dv) then tx_ret tt
        else
          let newRole := if bool_decide (dv_bestRole dv = "") then DefaultRole m else dv_bestRole dv in
          admins <- tx_get enabled_admins ;;
          let newRole := if bool_decide (User_Role u = RoleAdmin) && negb (bool_decide (newRole = RoleAdmin))
                            && (admins <=? 1)%nat then RoleAdmin else newRole in
          grants <- tx_get (grant_set (dv_slugs dv)) ;;
          write_access userID newRole grants u ;;
          audit_Write entries).

(** ** Statements *)

Lemma insertGroupMembers_Ok g us d a d' : insertGroupMembers g us d = Ok (a, d') ->
  d' = set_members (fun m => list_to_set (pair g <$> us) ∪ m) d /\ forall u, u ∈ us -> is_Some (t_users d !! u).
Proof.
  revert d. induction us as [|u us IH]; intros d; simpl.
  - intros [= _ <-]. split; [|intros u Hu; by apply elem_of_nil in Hu]. destruct d as [? ? ? ? ? ? ? ? ? ? ? []].
    unfold set_members, set_ext. simpl. by rewrite (left_id_L ∅ (∪)).
  - intros H. tx_invert H. apply bool_decide_eq_true in Hs. apply IH in H as [-> Hu]. split.
    + unfold set_members, set_ext. simpl. do 2 f_equal. set_solver.
    + intros u' [->|?]%elem_of_cons; [done|by apply Hu].
Qed.

Lemma insertGroupMembers_wf g us d a d' : users_wf d -> is_Some (x_groups (t_ext d) !! g) ->
  insertGroupMembers g us d = Ok (a, d') -> users_wf d'.
Proof.
  intros [W1 W2 W3 W4 W5 W6 W7] Hg [-> Hu]%insertGroupMembers_Ok. split; simpl; try done.
  intros g' u [H|H]%elem_of_union; [|by apply W5].
  apply elem_of_list_to_set, list_elem_of_fmap in H as (u' & [= -> ->] & Hin). auto.
Qed.

Lemma set_members_subset_wf f d : users_wf d -> (forall m, f m ⊆ m) -> users_wf (set_members f d).
Proof. intros [W1 W2 W3 W4 W5 W6 W7] Hf. split; simpl; try done. intros g u H%Hf. by apply W5. Qed.

Lemma clear_members_wf g d : users_wf d -> users_wf (clear_members g d).
Proof. intros H. apply set_members_subset_wf; [done|]. intros m p [_ ?]%elem_of_filter. done. Qed.

Lemma put_group_wf g r d : users_wf d -> sg_id r = g -> users_wf (set_groups (<[g := r]>) d).
Proof.
  intros [W1 W2 W3 W4 W5 W6 W7] Hr. split; simpl; try done.
  - intros g' u [? ?]%W5. split; [|done]. destruct (decide (g = g')) as [->|]; [by rewrite lookup_insert_eq|by rewrite lookup_insert_ne].
  - intros g' r'. rewrite lookup_insert_Some. intros [[<- <-]|[_ ?]]; [done|by apply W7].
Qed.

Lemma delete_group_wf g d : users_wf d -> users_wf (clear_members g (set_groups (delete g) d)).
Proof.
  intros [W1 W2 W3 W4 W5 W6 W7]. split; simpl; try done.
  - intros g' u [Hne H]%elem_of_filter. simpl in Hne. apply W5 in H. by rewrite lookup_delete_ne.
  - intros g' r [_ H]%lookup_delete_Some. by apply W7.
Qed.

Lemma get_group_Ok id d r : get_group id d = Ok r -> x_groups (t_ext d) !! id = Some r.
Proof. unfold get_group. destruct (x_groups (t_ext d) !! id); [|done]. by intros [= ->]. Qed.

Lemma insert_group_Ok r d a d' : insert_group r d = Ok (a, d') -> d' = set_groups (<[sg_id r := r]>) d
  /\ x_groups (t_ext d) !! sg_id r = None.
Proof.
  unfold insert_group. case_bool_decide as Hn; [done|]. destruct (group_external_id_taken _ _ _); [done|].
  intros [= _ <-]. by apply eq_None_not_Some in Hn.
Qed.

Lemma update_group_row_Ok now id dn ext d r d' : update_group_row now id dn ext d = Ok (r, d') ->
  d' = set_groups (<[id := r]>) d /\ sg_id r = id
  /\ exists before, x_groups (t_ext d) !! id = Some before /\ sg_display_name r = default (sg_display_name before) dn.
Proof. unfold update_group_row. intros H. tx_invert H. subst. apply get_group_Ok in Hs. split_and!; [done..|]. by exists a. Qed.

Lemma touch_group_wf now id d : users_wf d -> users_wf (touch_group now id d).
Proof.
  intros Hwf. unfold touch_group. destruct (x_groups (t_ext d) !! id) as [r|] eqn:Hr.
  - assert (set_groups (fun m => match m !! id with
              | Some r => <[id := MkSCIMGroupRow (sg_id r) (sg_external_id r) (sg_display_name r) (sg_created_at r) now]> m
              | None => m end) d
            = set_groups (<[id := MkSCIMGroupRow (sg_id r) (sg_external_id r) (sg_display_name r) (sg_created_at r) now]>) d) as ->.
    { unfold set_groups, set_ext. simpl. by rewrite Hr. }
    apply put_group_wf; [done|]. exact (uw_groups _ Hwf _ _ Hr).
  - eapply users_wf_same; [|exact Hwf]. split_and!; try done. simpl. by rewrite Hr.
Qed.

(** ** All operations on users and groups *)

Inductive user_op : Type :=
| CreateSCIMUser (now : Z) (id : N) (email role : string) (displayName externalID : option string)
| UpdateSCIMUser (id : N) (displayName externalID : option string)
| SetUserCustomerGrants (userID : N) (customerIDs : list N)
| CreateInvitedUser (now : Z) (id : N) (email role : string)
| UpdateUserAdmin (now : Z) (id : N) (upd : UserUpdate)
| DeleteUser (id : N)
| UpsertUserByIdentity (now : Z) (newID : N) (provider subject email : string) (displayName : option string) (roleIfNew : string)
| CreateSCIMGroup (now : Z) (id : N) (displayName : string) (externalID : option string) (members : list N)
| UpdateSCIMGroup (now : Z) (id : N) (displayName externalID : option string) (members : option (list N))
| ModifySCIMGroupMembers (now : Z) (id : N) (add remove : list N)
| DeleteSCIMGroup (id : N)
| RecomputeSCIMUserAccess (userID : N) (m : SCIMMapping).

Section ops.
Context (uuid_string : N -> string).

Definition user_exec (es : list AuditEntry) (d : DB) (op : user_op) : DB :=
  match op with
  | CreateSCIMUser now id email role dn ext => (pg_CreateSCIMUser now id email role dn ext es d).2
  | UpdateSCIMUser id dn ext => (pg_UpdateSCIMUser id dn ext es d).2
  | SetUserCustomerGrants uid cs => (pg_SetUserCustomerGrants uid cs es d).2
  | CreateInvitedUser now id email role => (pg_CreateInvitedUser now id email role es d).2
  | UpdateUserAdmin now id upd => (pg_UpdateUserAdmin uuid_string now id upd es d).2
  | DeleteUser id => (pg_DeleteUser uuid_string id es d).2
  | UpsertUserByIdentity now nid p s e dn r => (pg_UpsertUserByIdentity now nid p s e dn r d).2
  | CreateSCIMGroup now id dn ext ms => (pg_CreateSCIMGroup now id dn ext ms es d).2
  | UpdateSCIMGroup now id dn ext ms => (pg_UpdateSCIMGroup now id dn ext ms es d).2
  | ModifySCIMGroupMembers now id add remove => (pg_ModifySCIMGroupMembers now id add remove es d).2
  | DeleteSCIMGroup id => (pg_DeleteSCIMGroup id es d).2
  | RecomputeSCIMUserAccess uid m => (pg_RecomputeSCIMUserAccess uid m es d).2
  end.

Lemma write_access_Ok uid role g u d a d' : write_access uid role g u d = Ok (a, d') ->
  role_ok role = true
  /\ d' = set_grants (fun x => list_to_set (pair uid <$> elements g) ∪ x) (clear_grants uid (set_users (<[uid := with_managed role u]>) d))
  /\ forall c, c ∈ g -> is_Some (t_customers d !! c).
Proof using Type.
  unfold write_access. intros H. tx_invert H. apply insert_grants_Ok in H as [-> Hc]. split_and!; [done..|].
  intros c Hin. apply (Hc c). by apply elem_of_elements.
Qed.

Lemma write_access_wf uid role g u d a d' : users_wf d -> t_users d !! uid = Some u ->
  write_access uid role g u d = Ok (a, d') -> users_wf d'.
Proof using Type.
  intros Hwf Hu H. unfold write_access in H. tx_invert H.
  eapply insert_grants_wf; [|  |exact H].
  - apply clear_grants_wf. eapply replace_user_wf; [done..|by left].
  - simpl. rewrite lookup_insert_eq. by eexists.
Qed.

(** The transaction of a login. *)
Lemma find_or_create_Ok now nid email dn role d u d' : users_wf d ->
  find_or_create_user now nid email dn role d = Ok (u, d') ->
  users_wf d' /\ t_users d ⊆ t_users d' /\ exists row, t_users d' !! User_ID u = Some row /\ User_Role row = User_Role u.
Proof using Type.
  intros Hwf. unfold find_or_create_user. destruct (rows _ _) as [|x l] eqn:Hrows.
  - intros H. tx_invert H. pose proof (insert_user_Ok _ _ _ _ _ _ _ Hs) as (-> & Hn & _).
    split; [by eapply insert_user_wf|]. split; [by apply insert_subseteq|]. subst. eexists. split; [apply lookup_insert_eq|done].
  - intros [= <- <-]. split; [done|]. split; [done|].
    assert (x ∈ x :: l) as Hx by left. rewrite <- Hrows in Hx. apply rows_elem in Hx as (_ & i & Hi).
    destruct (uw_row _ Hwf _ _ Hi) as [<- _]. by exists x.
Qed.

Lemma update_scim_wf id dn ext es d a d' : users_wf d ->
  pg_UpdateSCIMUser id dn ext es d = (Ok a, d') -> users_wf d'.
Proof using Type.
  intros Hwf H. apply inTx_Ok in H. tx_invert H. apply pg_GetUser_Ok in Hs0. apply negb_true_iff, andb_false_iff in Hs.
  eapply users_wf_same; [|eapply (replace_user_wf id _ (with_scim dn ext _)); [exact Hwf|exact Hs0|done|done| |]].
  - by split_and!.
  - by destruct (uw_row _ Hwf _ _ Hs0).
  - right. destruct Hs as [Hs|Hs]; [|done]. apply bool_decide_eq_false in Hs. destruct Hs. by eexists.
Qed.

(** The user a login resolves to, before it is stamped. *)
Definition resolve_login (now : Z) (nid : N) (p sub email : string) (dn : option string) (role : string) (d : DB)
  : result (User * DB) store_err :=
  match x_identities (t_ext d) !! (p, sub) ≫= fun id => t_users d !! id with
  | Some u => tx_ret (scan_user u)
  | None => u <- find_or_create_user now nid email dn role ;; insert_identity (User_ID u) p sub ;; tx_ret u
  end d.

Lemma resolve_login_Ok now nid p sub email dn role d u d' : users_wf d ->
  resolve_login now nid p sub email dn role d = Ok (u, d') ->
  users_wf d' /\ t_users d ⊆ t_users d' /\ exists row, t_users d' !! User_ID u = Some row /\ User_Role row = User_Role u.
Proof using Type.
  intros Hwf. unfold resolve_login. destruct (_ ≫= _) as [row|] eqn:Hid; intros H.
  - injection H as <- <-. apply bind_Some in Hid as (i & _ & Hi). destruct (uw_row _ Hwf _ _ Hi) as [<- _].
    split; [done|]. split; [done|]. by exists row.
  - tx_invert H. subst. apply find_or_create_Ok in Hs as (W1 & Hsub & row & Hrow & Hr); [|exact Hwf].
    unfold insert_identity in Hs0. case_bool_decide; [done|]. injection Hs0 as _ <-.
    split; [|split; [done|by exists row]]. destruct W1 as [W1 W2 W3 W4 W5 W6 W7]. split; simpl; try done.
    intros q v. rewrite lookup_insert_Some. intros [[<- <-]|[_ Hv]]; [by eexists|by eapply W6].
Qed.

Lemma upsert_Ok now nid p sub email dn role d a d' : users_wf d ->
  pg_UpsertUserByIdentity now nid p sub email dn role d = (Ok a, d') ->
  exists d0 u row role', users_wf d0 /\ t_users d ⊆ t_users d0 /\ t_users d0 !! u = Some row
    /\ d' = set_users (<[u := with_login now role' row]>) d0 /\ (role' = "admin" \/ role' = User_Role row).
Proof using Type.
  intros Hwf H. apply inTx_Ok in H. tx_invert H.
  apply resolve_login_Ok in Hs as (W & Hsub & row & Hrow & Hr); [|exact Hwf].
  apply pg_GetUser_Ok in Hs0. rewrite Hrow in Hs0. injection Hs0 as <-.
  eexists d0, _, row, _. split_and!; [exact W|exact Hsub|exact Hrow|reflexivity|].
  rewrite Hr. case_decide; [by left|by right].
Qed.

Lemma update_group_wf now id dn ext ms es d a d' : users_wf d ->
  pg_UpdateSCIMGroup now id dn ext ms es d = (Ok a, d') -> users_wf d' /\ t_users d' = t_users d.
Proof using Type.
  intros Hwf H. apply inTx_Ok in H. tx_invert H. apply update_group_row_Ok in Hs0 as (-> & Hg & _).
  set (P := fun d2 => users_wf d2 /\ is_Some (x_groups (t_ext d2) !! id) /\ t_users d2 = t_users d).
  eapply (tx_when_keeps P) in Hs1 as (W & _ & Hu).
  - split; [|exact Hu]. eapply users_wf_same; [|exact W]. by split_and!.
  - intros m d2 b d3 (W2 & G2 & U2) Hm. unfold replace_members in Hm. tx_invert Hm.
    split; [eapply insertGroupMembers_wf; [by apply clear_members_wf|done|exact Hm]|].
    by apply insertGroupMembers_Ok in Hm as [-> _].
  - split; [by apply put_group_wf|]. split; [|done]. simpl. rewrite lookup_insert_eq. by eexists.
Qed.

Lemma modify_group_wf now id add remove es d a d' : users_wf d ->
  pg_ModifySCIMGroupMembers now id add remove es d = (Ok a, d') -> users_wf d' /\ t_users d' = t_users d.
Proof using Type.
  intros Hwf H. apply inTx_Ok in H. tx_invert H. apply get_group_Ok in Hs.
  split; [|by apply insertGroupMembers_Ok in Hs0 as [-> _]].
  eapply users_wf_same; [|apply (touch_group_wf now id), set_members_subset_wf].
  - by split_and!.
  - eapply insertGroupMembers_wf; [exact Hwf|by eexists|exact Hs0].
  - intros m p [_ Hp]%elem_of_filter. exact Hp.
Qed.

Lemma create_group_wf now id dn ext ms es d a d' : users_wf d ->
  pg_CreateSCIMGroup now id dn ext ms es d = (Ok a, d') -> users_wf d' /\ t_users d' = t_users d.
Proof using Type.
  intros Hwf H. apply inTx_Ok in H. tx_invert H. apply insert_group_Ok in Hs as [-> _].
  split; [|by apply insertGroupMembers_Ok in Hs0 as [-> _]].
  eapply users_wf_same; [|eapply insertGroupMembers_wf; [| |exact Hs0]].
  - by split_and!.
  - by apply put_group_wf.
  - simpl. rewrite lookup_insert_eq. by eexists.
Qed.

Lemma delete_user_wf id es d a d' : users_wf d -> pg_DeleteUser uuid_string id es d = (Ok a, d') ->
  users_wf d' /\ (0 < enabled_admins d')%nat.
Proof using Type.
  intros Hwf H. apply inTx_Ok in H. tx_invert H. apply ensureEnabledAdminRemains_Ok in Hs1 as [-> Hadm].
  split; [|exact Hadm].
  eapply users_wf_same; [|apply (delete_user_row_wf id)]; [|eapply users_wf_same; [|exact Hwf]]; by split_and!.
Qed.

Lemma recompute_wf uid m es d a d' : users_wf d -> pg_RecomputeSCIMUserAccess uid m es d = (Ok a, d') -> users_wf d'.
Proof using Type.
  intros Hwf H. apply inTx_Ok in H. tx_invert H. apply pg_GetUser_Ok in Hs. destruct (negb _); tx_invert H; [done|].
  eapply users_wf_same; [|eapply write_access_wf; [exact Hwf|exact Hs|exact Hs0]]. by split_and!.
Qed.

Lemma set_grants_wf uid cs es d a d' : users_wf d -> pg_SetUserCustomerGrants uid cs es d = (Ok a, d') ->
  users_wf d' /\ t_users d' = t_users d.
Proof using Type.
  intros Hwf H. apply inTx_Ok in H. tx_invert H. apply pg_GetUser_Ok in Hs.
  split; [|by apply insert_grants_Ok in Hs0 as [-> _]].
  eapply users_wf_same; [|eapply insert_grants_wf; [by apply clear_grants_wf|by eexists|exact Hs0]]. by split_and!.
Qed.

(** An operation that fails changes nothing. *)
Lemma op_keeps {A} (P : DB -> Prop) (r : result A store_err * DB) d :
  P d -> (forall a d', r = (Ok a, d') -> P d') -> (forall e d', r = (Err e, d') -> d' = d) -> P r.2.
Proof using Type. destruct r as [[a|e] d']; intros Hd Hok Herr; [by eapply Hok|]. simpl. by rewrite (Herr e d' eq_refl). Qed.

Lemma user_exec_wf es d op : users_wf d -> users_wf (user_exec es d op).
Proof using Type.
  intros Hwf.
  destruct op; simpl; (apply (op_keeps users_wf _ d); [exact Hwf| |intros e0 d'; apply inTx_Err]); intros a d' H.
  1, 4: apply inTx_Ok in H; tx_invert H; eapply users_wf_same; [|eapply insert_user_wf; [exact Hwf|exact Hs]]; by split_and!.
  - by eapply update_scim_wf.
  - by eapply set_grants_wf.
  - apply inTx_Ok, update_user_admin_Ok in H as [H _]. by apply H.
  - by eapply delete_user_wf.
  - apply upsert_Ok in H as (d0 & u & row & role & W & _ & Hu & -> & Hr); [|exact Hwf].
    eapply replace_user_wf; [exact W|exact Hu|done|done| |by left].
    destruct Hr as [-> | ->]; [done|]. by destruct (uw_row _ W _ _ Hu).
  - by eapply create_group_wf.
  - by eapply update_group_wf.
  - by eapply modify_group_wf.
  - apply inTx_Ok in H. tx_invert H. eapply users_wf_same; [|apply (delete_group_wf id); exact Hwf]. by split_and!.
  - by eapply recompute_wf.
Qed.

(** Every operation on users, their logins and grants, and SCIM groups keeps
    the user tables well formed: rows under their ids with a valid role, unique
    emails and external ids, and grants, memberships and identities that refer
    to existing rows; an operation that fails leaves the tables as they were. *)
Theorem user_tables_wf es d ops : users_wf d -> users_wf (foldl (user_exec es) d ops).
Proof using Type. revert d. induction ops as [|op ops IH]; intros d Hwf; [done|]. by apply IH, user_exec_wf. Qed.

(** These operations leave the customers alone. *)
Lemma user_exec_customers es d op : t_customers (user_exec es d op) = t_customers d.
Proof using Type.
  set (P := fun d' => t_customers d' = t_customers d).
  destruct op; simpl; (apply (op_keeps P _ d); [done| |intros e0 d'; apply inTx_Err]);
    intros a d' H; apply inTx_Ok in H; unfold update_user_admin in H; tx_invert H; unfold P;
    repeat match goal with
    | H : insert_user _ _ _ _ _ = Ok _ |- _ => apply insert_user_Ok in H as (-> & _)
    | H : insert_grants _ _ _ = Ok _ |- _ => apply insert_grants_Ok in H as [-> _]
    | H : insert_group _ _ = Ok _ |- _ => apply insert_group_Ok in H as [-> _]
    | H : insertGroupMembers _ _ _ = Ok _ |- _ => apply insertGroupMembers_Ok in H as [-> _]
    | H : update_group_row _ _ _ _ _ = Ok _ |- _ => apply update_group_row_Ok in H as (-> & _)
    | H : ensureEnabledAdminRemains _ = Ok _ |- _ => apply ensureEnabledAdminRemains_Ok in H as [-> _]
    end; try done.
  - eapply (tx_when_keeps P) in Hs0; [|intros role d2 b d3 E H0; unfold update_role in H0; tx_invert H0; exact E|done].
    eapply (tx_when_keeps P) in Hs1; [exact Hs1| |exact Hs0].
    intros dis d2 b d3 E H0. unfold update_disabled, deleteSessionsByUser in H0. tx_invert H0. by destruct dis; tx_invert H0.
  - change (P d0). destruct (_ ≫= _); tx_invert Hs; [done|].
    unfold insert_identity in Hs2. case_bool_decide; [done|]. injection Hs2 as _ <-. change (P d1). revert Hs1.
    unfold find_or_create_user. destruct (rows _ _); [|by intros [= _ <-]].
    intros H1. tx_invert H1. by apply insert_user_Ok in Hs1 as (-> & _).
  - eapply (tx_when_keeps P) in Hs1; [exact Hs1| |done].
    intros ms d2 b d3 E H0. unfold replace_members in H0. tx_invert H0. by apply insertGroupMembers_Ok in H0 as [-> _].
  - destruct (negb _); tx_invert H; [done|]. by apply write_access_Ok in Hs0 as (_ & -> & _).
Qed.

(** *** The last enabled admin *)

Definition has_admin (d : DB) : Prop := exists i u, t_users d !! i = Some u /\ enabled_admin u = true.

Lemma has_admin_count d : has_admin d <-> (0 < enabled_admins d)%nat.
Proof using Type.
  unfold enabled_admins. split.
  - intros (i & u & Hu & Ha). assert (u ∈ rows (t_users d) enabled_admin) as Hin by (apply rows_elem; eauto).
    destruct (rows (t_users d) enabled_admin); [by apply elem_of_nil in Hin|simpl; lia].
  - destruct (rows (t_users d) enabled_admin) as [|u l] eqn:E; [simpl; lia|]. intros _.
    assert (u ∈ rows (t_users d) enabled_admin) as Hin by (rewrite E; left).
    apply rows_elem in Hin as (Ha & i & Hi). by exists i, u.
Qed.

Lemma has_admin_users d d' : t_users d' = t_users d -> has_admin d -> has_admin d'.
Proof using Type. unfold has_admin. by intros ->. Qed.

(** Inserting a new row, or replacing one by a row that is an enabled admin if
    the old one was, keeps the admins there are. *)
Lemma has_admin_insert i u d : (forall v, t_users d !! i = Some v -> enabled_admin v = true -> enabled_admin u = true) ->
  has_admin d -> has_admin (set_users (<[i := u]>) d).
Proof using Type.
  intros Hi (j & v & Hv & Ha). destruct (decide (i = j)) as [->|Hne].
  - exists j, u. simpl. rewrite lookup_insert_eq. split; [done|]. by eapply Hi.
  - exists j, v. simpl. by rewrite lookup_insert_ne.
Qed.

Lemma other_admin i d : (1 < enabled_admins d)%nat -> exists j v, j <> i /\ t_users d !! j = Some v /\ enabled_admin v = true.
Proof using Type.
  intros Hn. assert (0 < length (rows (delete i (t_users d)) enabled_admin))%nat as Hpos.
  { unfold enabled_admins, rows in *. destruct (t_users d !! i) as [u|] eqn:Hi; [|by rewrite delete_id by done; lia].
    rewrite <- (map_to_list_delete _ _ _ Hi) in Hn. rewrite fmap_cons, filter_cons in Hn. cbn [snd] in Hn.
    case_decide; cbn [length] in Hn; lia. }
  destruct (rows (delete i (t_users d)) enabled_admin) as [|v l] eqn:E; [simpl in Hpos; lia|].
  assert (v ∈ rows (delete i (t_users d)) enabled_admin) as Hin by (rewrite E; left).
  apply rows_elem in Hin as (Ha & j & [Hne Hj]%lookup_delete_Some). exists j, v. split_and!; [congruence|done..].
Qed.

(** The role a recomputation gives a managed user. *)
Definition recomputed_role (m : SCIMMapping) (u : User) (d : DB) (names : list string) : string :=
  let dv := derive m names in
  let role := if bool_decide (dv_bestRole dv = "") then DefaultRole m else dv_bestRole dv in
  if bool_decide (User_Role u = RoleAdmin) && negb (bool_decide (role = RoleAdmin)) && (enabled_admins d <=? 1)%nat
  then RoleAdmin else role.

Lemma recompute_Ok uid m es d a d' : pg_RecomputeSCIMUserAccess uid m es d = (Ok a, d') ->
  exists u, t_users d !! uid = Some u /\
    let names := group_names uid d in
    if User_ScimManaged u || dv_hasMapped (derive m names) then
      t_users d' = <[uid := with_managed (recomputed_role m u d names) u]> (t_users d)
      /\ x_grants (t_ext d') = list_to_set (pair uid <$> elements (grant_set (dv_slugs (derive m names)) d))
                                ∪ filter (fun g => g.1 <> uid) (x_grants (t_ext d))
      /\ t_customers d' = t_customers d /\ x_members (t_ext d') = x_members (t_ext d) /\ x_groups (t_ext d') = x_groups (t_ext d)
    else d' = d.
Proof using Type.
  intros H. apply inTx_Ok in H. tx_invert H. apply pg_GetUser_Ok in Hs. exists a0. split; [done|]. cbv zeta.
  destruct (User_ScimManaged a0 || _) eqn:Hm; cbn [negb] in H; tx_invert H; [|done].
  apply write_access_Ok in Hs0 as (_ & -> & _). by split_and!.
Qed.

Lemma recompute_has_admin uid m es d a d' : has_admin d -> pg_RecomputeSCIMUserAccess uid m es d = (Ok a, d') -> has_admin d'.
Proof using Type.
  intros Hadm H. apply recompute_Ok in H as (u & Hu & H). cbv zeta in H.
  destruct (User_ScimManaged u || _); [|by subst]. destruct H as (Hus & _).
  apply (has_admin_users (set_users (<[uid := with_managed (recomputed_role m u d (group_names uid d)) u]>) d) d' Hus).
  unfold recomputed_role. destruct (_ && _ && _) eqn:Hc.
  - apply has_admin_insert; [|done]. intros v Hv Ha. rewrite Hu in Hv. injection Hv as <-.
    unfold enabled_admin in *. simpl. apply andb_true_iff in Ha as [_ ->]. done.
  - set (role := if bool_decide _ then _ else _) in *. destruct (decide (role = RoleAdmin)) as [->|Hne].
    { apply has_admin_insert; [|done]. intros v Hv Ha. rewrite Hu in Hv. injection Hv as <-.
      unfold enabled_admin in *. simpl. apply andb_true_iff in Ha as [_ ->]. done. }
    rewrite (bool_decide_false _ Hne) in Hc. cbn [negb] in Hc. rewrite andb_true_r in Hc.
    apply andb_false_iff in Hc as [Hc|Hc].
    + apply has_admin_insert; [|done]. intros v Hv Ha. rewrite Hu in Hv. injection Hv as <-.
      unfold enabled_admin in Ha. apply andb_true_iff in Ha as [Ha _]. change RoleAdmin with "admin" in Hc. by rewrite Ha in Hc.
    + apply Nat.leb_gt in Hc. destruct (other_admin uid d Hc) as (j & v & Hj & Hv & Ha).
      exists j, v. simpl. by rewrite lookup_insert_ne.
Qed.

Lemma user_exec_has_admin es d op : users_wf d -> has_admin d -> has_admin (user_exec es d op).
Proof using Type.
  intros Hwf Hadm.
  destruct op; simpl; (apply (op_keeps has_admin _ d); [exact Hadm| |intros e0 d'; apply inTx_Err]); intros a d' H.
  1, 4: apply inTx_Ok in H; tx_invert H; apply insert_user_Ok in Hs as (-> & Hn & _);
    (eapply has_admin_users; [|apply has_admin_insert; [|exact Hadm]]); [reflexivity|congruence].
  - apply inTx_Ok in H. tx_invert H. apply pg_GetUser_Ok in Hs0.
    eapply has_admin_users; [|apply (has_admin_insert id (with_scim displayName externalID a1)); [|exact Hadm]]; [reflexivity|].
    intros v Hv. rewrite Hs0 in Hv. by injection Hv as <-.
  - eapply has_admin_users; [|exact Hadm]. by eapply set_grants_wf.
  - apply inTx_Ok, update_user_admin_Ok in H as [_ H]. by apply has_admin_count.
  - apply has_admin_count. by eapply delete_user_wf.
  - apply upsert_Ok in H as (d0 & u & row & role & W & Hsub & Hu & -> & Hr); [|exact Hwf].
    apply has_admin_insert.
    + intros v Hv Ha. rewrite Hu in Hv. injection Hv as <-. destruct Hr as [-> | ->]; [|exact Ha].
      unfold enabled_admin in *. simpl. apply andb_true_iff in Ha as [_ ->]. done.
    + destruct Hadm as (i & v & Hv & Ha). exists i, v. split; [|done]. by eapply lookup_weaken.
  - eapply has_admin_users; [|exact Hadm]. by eapply create_group_wf.
  - eapply has_admin_users; [|exact Hadm]. by eapply update_group_wf.
  - eapply has_admin_users; [|exact Hadm]. by eapply modify_group_wf.
  - apply inTx_Ok in H. tx_invert H. by eapply has_admin_users.
  - by eapply recompute_has_admin.
Qed.

(** No sequence of these operations, one after the other, ever leaves the
    system without an enabled administrator: not role changes, deactivations,
    deletions and logins, and not the recomputation of roles from SCIM
    groups. *)
Theorem last_admin_kept es d ops : users_wf d -> has_admin d -> has_admin (foldl (user_exec es) d ops).
Proof using Type.
  revert d. induction ops as [|op ops IH]; intros d Hwf Hadm; [done|].
  apply IH; [by apply user_exec_wf|by apply user_exec_has_admin].
Qed.
End ops.

(** ** What groups say about a user *)

(** A group's name as a role, as a customer slug, or as neither. *)
Definition names_role (m : SCIMMapping) (dn role : string) : Prop := RolePrefix m <> "" /\ dn = RolePrefix m +:+ role.
Definition names_slug (m : SCIMMapping) (dn slug : string) : Prop :=
  CustomerPrefix m <> "" /\ dn = CustomerPrefix m +:+ slug /\ forall role, ~ names_role m dn role.
Definition mapped (m : SCIMMapping) (dn : string) : Prop := exists x, names_role m dn x \/ names_slug m dn x.

(** The role due to a set of group names: the highest known one named, or the
    default. *)
Definition due_role (m : SCIMMapping) (names : list string) (role : string) : Prop :=
  (exists dn, dn ∈ names /\ names_role m dn role /\ Known role = true
     /\ forall dn' role', dn' ∈ names -> names_role m dn' role' -> Known role' = true -> (Rank role' <= Rank role)%Z)
  \/ role = DefaultRole m /\ forall dn role', dn ∈ names -> names_role m dn role' -> Known role' = false.

(** The customers due: those not deleted whose slug is named. *)
Definition due_customer (m : SCIMMapping) (names : list string) (d : DB) (c : N) : Prop :=
  exists dn slug cust, dn ∈ names /\ names_slug m dn slug /\ pg_GetCustomerBySlug slug d = Ok cust /\ Customer_ID cust = c.

Lemma Rank_pos role : Known role = true -> (0 < Rank role)%Z.
Proof. unfold Known, Rank, level. repeat case_decide; done || lia. Qed.

(** The three cases of a step, by what the name says. *)
Lemma derive_step_cases m a dn :
  (exists role, names_role m dn role
     /\ derive_step m a dn = MkDerived (if Known role && (Rank (dv_bestRole a) <? Rank role)%Z then role else dv_bestRole a) true (dv_slugs a))
  \/ (exists slug, names_slug m dn slug /\ derive_step m a dn = MkDerived (dv_bestRole a) true (dv_slugs a ++ [slug])%list)
  \/ (~ mapped m dn /\ derive_step m a dn = a).
Proof.
  unfold derive_step. destruct (bool_decide_reflect (RolePrefix m = "")) as [Hr|Hr]; simpl.
  2: destruct (has_prefix (RolePrefix m) dn) eqn:Hp.
  2: { left. apply has_prefix_spec in Hp as [role ->]. exists role. rewrite cut_prefix_app. done. }
  all: assert (forall role, ~ names_role m dn role) as Hnr
    by (intros role [? ->]; first [done | by rewrite (proj2 (has_prefix_spec _ _) (ex_intro _ role eq_refl)) in Hp]).
  all: right; destruct (bool_decide_reflect (CustomerPrefix m = "")) as [Hc|Hc]; simpl.
  2, 4: destruct (has_prefix (CustomerPrefix m) dn) eqn:Hq;
    [left; apply has_prefix_spec in Hq as [slug ->]; exists slug; by rewrite cut_prefix_app|].
  all: right; split; [|done]; intros [x [Hx|(? & -> & _)]]; [by eapply Hnr|].
  all: first [done | by rewrite (proj2 (has_prefix_spec _ _) (ex_intro _ x eq_refl)) in Hq].
Qed.

Lemma names_role_inj m dn r r' : names_role m dn r -> names_role m dn r' -> r = r'.
Proof. intros [_ ->] [_ H]. by apply string_app_inj_l in H. Qed.
Lemma names_slug_inj m dn r r' : names_slug m dn r -> names_slug m dn r' -> r = r'.
Proof. intros (_ & -> & _) (_ & H & _). by apply string_app_inj_l in H. Qed.

Lemma derive_snoc m names dn : derive m (names ++ [dn]) = derive_step m (derive m names) dn.
Proof. unfold derive. by rewrite foldl_app. Qed.

Lemma derive_hasMapped m names : dv_hasMapped (derive m names) = true <-> exists dn, dn ∈ names /\ mapped m dn.
Proof.
  induction names as [|dn names IH] using rev_ind; [split; [done|intros (? & H & _); by apply elem_of_nil in H]|].
  rewrite derive_snoc. destruct (derive_step_cases m (derive m names) dn) as [(x & Hx & ->)|[(x & Hx & ->)|[Hn ->]]]; simpl.
  - split; [|done]. intros _. exists dn. split; [set_solver|]. exists x. by left.
  - split; [|done]. intros _. exists dn. split; [set_solver|]. exists x. by right.
  - rewrite IH. split; intros (dn' & Hin & Hm); exists dn'; (split; [|done]); set_solver.
Qed.

Lemma derive_slugs m names slug : slug ∈ dv_slugs (derive m names) <-> exists dn, dn ∈ names /\ names_slug m dn slug.
Proof.
  induction names as [|dn names IH] using rev_ind; [split; [intros H|intros (? & H & _)]; by apply elem_of_nil in H|].
  rewrite derive_snoc. destruct (derive_step_cases m (derive m names) dn) as [(x & Hx & ->)|[(x & Hx & ->)|[Hn ->]]]; simpl;
    rewrite ?elem_of_app, IH; setoid_rewrite elem_of_app; setoid_rewrite list_elem_of_singleton.
  - split; [naive_solver|]. intros (dn' & [Hin|<-] & Hs); [by exists dn'|]. destruct Hs as (_ & _ & Hs). by destruct (Hs x).
  - split; [intros [?| ->]; naive_solver|]. intros (dn' & [Hin|<-] & Hs); [left; by exists dn'|].
    right. by eapply names_slug_inj.
  - split; [naive_solver|]. intros (dn' & [Hin|<-] & Hs); [by exists dn'|]. destruct Hn. exists slug. by right.
Qed.

Lemma derive_role m names :
  (dv_bestRole (derive m names) = "" \/ Known (dv_bestRole (derive m names)) = true
     /\ exists dn, dn ∈ names /\ names_role m dn (dv_bestRole (derive m names)))
  /\ forall dn role, dn ∈ names -> names_role m dn role -> Known role = true -> (Rank role <= Rank (dv_bestRole (derive m names)))%Z.
Proof.
  induction names as [|dn names IH] using rev_ind; [split; [by left|intros ? ? H; by apply elem_of_nil in H]|].
  rewrite derive_snoc. destruct IH as [H1 H2].
  assert (dv_bestRole (derive m names) = "" \/ Known (dv_bestRole (derive m names)) = true
     /\ exists dn', dn' ∈ (names ++ [dn])%list /\ names_role m dn' (dv_bestRole (derive m names))) as H1'.
  { destruct H1 as [?|(? & dn' & ? & ?)]; [by left|right; split; [done|]; exists dn'; set_solver]. }
  destruct (derive_step_cases m (derive m names) dn) as [(x & Hx & ->)|[(x & Hx & ->)|[Hn ->]]]; simpl.
  - destruct (Known x) eqn:Hk; simpl; [destruct (Z.ltb_spec (Rank (dv_bestRole (derive m names))) (Rank x)) as [Hlt|Hle]|].
    1: split; [right; split; [done|]; exists dn; split; [set_solver|done]|].
    2, 3: split; [exact H1'|].
    all: intros dn' role [Hin| ->%list_elem_of_singleton]%elem_of_app Hr Hkr;
      [specialize (H2 dn' role Hin Hr Hkr); lia|rewrite (names_role_inj _ _ _ _ Hr Hx) in *; done || congruence].
  - split; [exact H1'|]. intros dn' role [Hin| ->%list_elem_of_singleton]%elem_of_app Hr Hkr; [by eapply H2|].
    destruct Hx as (_ & _ & Hx). by destruct (Hx role).
  - split; [exact H1'|]. intros dn' role [Hin| ->%list_elem_of_singleton]%elem_of_app Hr Hkr; [by eapply H2|].
    destruct Hn. exists role. by left.
Qed.

(** ** Recomputation *)

(** Customers are stored under their ids. *)
Definition customer_ids (d : DB) : Prop := forall i c, t_customers d !! i = Some c -> Customer_ID c = i.

Lemma pg_GetCustomerBySlug_Ok slug d c : customer_ids d -> pg_GetCustomerBySlug slug d = Ok c ->
  t_customers d !! Customer_ID c = Some c /\ Customer_Slug c = slug /\ Customer_Status c <> CustomerDeleted.
Proof.
  intros Hids. unfold pg_GetCustomerBySlug. destruct (rows _ _) as [|x l] eqn:E; [done|]. intros [= ->].
  assert (c ∈ c :: l) as Hin by left. rewrite <- E in Hin. apply rows_elem in Hin as (Hc & i & Hi).
  apply andb_true_iff in Hc as [Hs Hd]. apply bool_decide_eq_true in Hs. apply negb_true_iff, bool_decide_eq_false in Hd.
  by rewrite (Hids _ _ Hi).
Qed.

Lemma grant_set_due m names d c : c ∈ grant_set (dv_slugs (derive m names)) d <-> due_customer m names d c.
Proof.
  unfold grant_set, due_customer. rewrite elem_of_list_to_set, list_elem_of_omap. setoid_rewrite derive_slugs. split.
  - intros (slug & (dn & Hin & Hs) & Hc). destruct (pg_GetCustomerBySlug slug d) as [cu|] eqn:E; [|done].
    injection Hc as <-. by exists dn, slug, cu.
  - intros (dn & slug & cu & Hin & Hs & E & <-). exists slug. split; [by exists dn|]. by rewrite E.
Qed.

Lemma Known_role_ok role : Known role = true -> role_ok role = true.
Proof. intros H. apply negb_true_iff, Z.eqb_neq, level_known in H as [->|[->| ->]]; reflexivity. Qed.

Lemma recomputed_role_due m u d names : Known (DefaultRole m) = true ->
  role_ok (recomputed_role m u d names) = true
  /\ (due_role m names (recomputed_role m u d names)
      \/ recomputed_role m u d names = RoleAdmin /\ User_Role u = RoleAdmin /\ (enabled_admins d <= 1)%nat).
Proof.
  intros Hdef. destruct (derive_role m names) as [H1 H2]. unfold recomputed_role. set (best := dv_bestRole (derive m names)) in *.
  assert (role_ok (if bool_decide (best = "") then DefaultRole m else best) = true
    /\ due_role m names (if bool_decide (best = "") then DefaultRole m else best)) as [Hok Hdue].
  { destruct (bool_decide_reflect (best = "")) as [Hb|Hb].
    - split; [by apply Known_role_ok|]. right. split; [done|]. intros dn role' Hin Hr. destruct (Known role') eqn:Hk; [|done].
      specialize (H2 dn role' Hin Hr Hk). rewrite Hb in H2. pose proof (Rank_pos _ Hk). change (Rank "") with 0%Z in H2. lia.
    - destruct H1 as [?|(Hk & dn & Hin & Hr)]; [done|]. split; [by apply Known_role_ok|]. left. exists dn. split_and!; [done..|].
      intros dn' role' Hin' Hr' Hk'. by eapply H2. }
  destruct (_ && _ && _) eqn:Hc; [|by split; [|left]]. split; [done|]. right.
  apply andb_true_iff in Hc as [[Hu%bool_decide_eq_true _]%andb_true_iff Hn%Nat.leb_le]. done.
Qed.

Lemma insert_grants_succeeds uid cs d : (forall c, c ∈ cs -> is_Some (t_customers d !! c)) ->
  exists d', insert_grants uid cs d = Ok (tt, d').
Proof.
  revert d. induction cs as [|c cs IH]; intros d Hc; [by eexists|]. simpl. unfold tx_bind, tx_get, tx_check, tx_exec.
  rewrite bool_decide_true by (apply Hc; left). simpl. apply IH. intros c' Hc'. simpl. apply Hc. by right.
Qed.

Lemma recompute_succeeds uid m es d : customer_ids d -> Known (DefaultRole m) = true -> is_Some (t_users d !! uid) ->
  exists d', pg_RecomputeSCIMUserAccess uid m es d = (Ok tt, d').
Proof.
  intros Hids Hdef [u Hu]. unfold pg_RecomputeSCIMUserAccess, inTx, tx_bind, tx_read, tx_get, pg_GetUser. rewrite Hu.
  cbv zeta. destruct (negb _); [by eexists|]. unfold write_access, tx_bind, tx_check, tx_exec.
  change (if _ && _ && _ then RoleAdmin else _) with (recomputed_role m u d (group_names uid d)).
  rewrite (proj1 (recomputed_role_due m u d (group_names uid d) Hdef)). cbn [tx_ret].
  edestruct (insert_grants_succeeds uid (elements (grant_set (dv_slugs (derive m (group_names uid d))) d))) as [d' ->]; [|by eexists].
  intros c Hc. apply elem_of_elements, grant_set_due in Hc as (dn & slug & cu & _ & _ & Hs & <-).
  apply pg_GetCustomerBySlug_Ok in Hs as [Hs _]; [|done]. simpl. by eexists.
Qed.

(** Is the user's access governed by groups, now or since earlier? *)
Definition governed (m : SCIMMapping) (u : User) (names : list string) : Prop :=
  User_ScimManaged u = true \/ exists dn, dn ∈ names /\ mapped m dn.

Lemma governed_spec m u names : User_ScimManaged u || dv_hasMapped (derive m names) = true <-> governed m u names.
Proof. unfold governed. by rewrite orb_true_iff, derive_hasMapped. Qed.

(** The committed recomputation, in terms of what the groups say. *)
Lemma recompute_access uid m es d u d' : Known (DefaultRole m) = true -> t_users d !! uid = Some u ->
  pg_RecomputeSCIMUserAccess uid m es d = (Ok tt, d') ->
  (~ governed m u (group_names uid d) -> d' = d)
  /\ (governed m u (group_names uid d) -> exists role,
        t_users d' = <[uid := with_managed role u]> (t_users d)
        /\ (due_role m (group_names uid d) role \/ role = RoleAdmin /\ User_Role u = RoleAdmin /\ (enabled_admins d <= 1)%nat)
        /\ (forall v c, (v, c) ∈ x_grants (t_ext d') <->
              (v = uid /\ due_customer m (group_names uid d) d c \/ v <> uid /\ (v, c) ∈ x_grants (t_ext d)))
        /\ t_customers d' = t_customers d /\ x_members (t_ext d') = x_members (t_ext d) /\ x_groups (t_ext d') = x_groups (t_ext d)).
Proof.
  intros Hdef Hu H. apply recompute_Ok in H as (u' & Hu' & H). rewrite Hu in Hu'. injection Hu' as <-. cbv zeta in H.
  pose proof (governed_spec m u (group_names uid d)) as Hg. destruct (_ || _).
  - split; [intros Hn; destruct Hn; by apply Hg|]. intros _. destruct H as (H1 & H2 & H3 & H4 & H5).
    eexists. split; [exact H1|]. split; [by apply recomputed_role_due|]. split; [|done].
    intros v c. rewrite H2, elem_of_union, elem_of_list_to_set, list_elem_of_fmap, elem_of_filter.
    setoid_rewrite elem_of_elements. setoid_rewrite grant_set_due. simpl. naive_solver.
  - split; [done|]. intros Hg'. by apply Hg in Hg'.
Qed.

(** Recomputing a user's access always succeeds for an existing user, and
    touches nothing when no group ever governed the user.  Otherwise the user is
    marked as managed, has the highest role named by their groups, or the
    default role, except that the only enabled administrator stays one; and has
    grants for exactly the customers, not deleted, whose slugs their groups
    name.  Other users keep their access. *)
Theorem recompute_outcome uid m es d u : customer_ids d -> Known (DefaultRole m) = true -> t_users d !! uid = Some u ->
  exists d', pg_RecomputeSCIMUserAccess uid m es d = (Ok tt, d')
  /\ (~ governed m u (group_names uid d) -> d' = d)
  /\ (governed m u (group_names uid d) -> exists role,
        t_users d' = <[uid := with_managed role u]> (t_users d)
        /\ (due_role m (group_names uid d) role \/ role = RoleAdmin /\ User_Role u = RoleAdmin /\ (enabled_admins d <= 1)%nat)
        /\ (forall v c, (v, c) ∈ x_grants (t_ext d') <->
              (v = uid /\ due_customer m (group_names uid d) d c \/ v <> uid /\ (v, c) ∈ x_grants (t_ext d)))).
Proof.
  intros Hids Hdef Hu. destruct (recompute_succeeds uid m es d Hids Hdef ltac:(by eexists)) as [d' Hd'].
  exists d'. split; [exact Hd'|]. destruct (recompute_access _ _ _ _ _ _ Hdef Hu Hd') as [H1 H2].
  split; [exact H1|]. intros Hg. destruct (H2 Hg) as (role & A & B & C & _). by exists role.
Qed.

(** ** Deleting a user *)

(** A user who ever created a management-API token cannot be deleted: the
    foreign key of api_tokens.created_by refuses it, since the attribution is
    dropped from three other tables only. *)
Theorem token_creator_undeletable uuid_string id u tid row es d : t_users d !! id = Some u ->
  t_api_tokens d !! tid = Some row -> APIToken_CreatedBy (at_token row) = Some id ->
  pg_DeleteUser uuid_string id es d = (Err (ErrOther "delete user"), d).
Proof.
  intros Hu Ht Hc. unfold pg_DeleteUser, inTx, tx_bind, tx_exec, tx_get, tx_check.
  assert (user_referenced id (detach_created_by id d) = true) as ->.
  { unfold user_referenced. do 3 (apply orb_true_iff; left). apply existsb_exists. exists row.
    split; [|by apply bool_decide_eq_true]. apply list_elem_of_In, rows_elem. split; [done|]. by exists tid. }
  change (t_users (detach_created_by id d)) with (t_users d). rewrite Hu, bool_decide_true by (by eexists). done.
Qed.

(** ** Concurrent transactions

    Under READ COMMITTED two updates of different users do not wait for each
    other: each counts the enabled admins in a state without the other's
    uncommitted change, and both rows are written. *)
Definition concurrent_updates (uuid_string : N -> string) (now : Z) (es : list AuditEntry) (d : DB)
  (id1 : N) (upd1 : UserUpdate) (id2 : N) (upd2 : UserUpdate) : option DB :=
  match update_user_admin uuid_string now id1 upd1 es d, update_user_admin uuid_string now id2 upd2 es d with
  | Ok (_, d1), Ok (_, d2) =>
      u1 ← t_users d1 !! id1; u2 ← t_users d2 !! id2;
      Some (set_users (fun m => <[id1 := u1]> (<[id2 := u2]> m)) d)
  | _, _ => None
  end.

(** ** Examples *)

Definition ex_user (id : N) (email role : string) (disabled : option Z) (managed : bool) : User :=
  MkUser id email None role None disabled None 0 managed.
Definition ex_users (us : list User) : DB := set_users (fun _ => list_to_map ((fun u => (User_ID u, u)) <$> us)) empty_db.
Definition ex_mapping : SCIMMapping := MkSCIMMapping "otel-" "customer:" "viewer".

(** Two administrators. *)
Definition ex_two_admins : DB := ex_users [ex_user 1 "a@x" "admin" None false; ex_user 2 "b@x" "admin" None false].

(** Two administrators can demote each other at the same time: each transaction
    sees the other still in office, both commit, and no enabled administrator
    remains, although each update checks the invariant in its transaction. *)
Theorem concurrent_demotions_lose_admins : exists d,
  concurrent_updates (fun _ => "u") 0 [] ex_two_admins 1 (MkUserUpdate (Some "viewer") None) 2 (MkUserUpdate (Some "viewer") None)
    = Some d /\ enabled_admins ex_two_admins = 2%nat /\ enabled_admins d = 0%nat.
Proof. eexists. split_and!; vm_compute; reflexivity. Qed.

(** An enabled and a disabled administrator; the second is managed by groups and
    in none. *)
Definition ex_disabled_admin : DB := ex_users [ex_user 1 "a@x" "admin" None false; ex_user 2 "b@x" "admin" (Some 5%Z) true].

(** A disabled administrator whose groups no longer name the role keeps it when
    one enabled administrator is left, and is an administrator again once
    enabled: the guard counts enabled admins without looking whether the user
    being demoted is one of them. *)
Theorem disabled_admin_keeps_role :
  let d := (pg_RecomputeSCIMUserAccess 2 ex_mapping [] ex_disabled_admin).2 in
  ~ due_role ex_mapping (group_names 2 d) "admin"
  /\ option_map User_Role (t_users d !! 2%N) = Some "admin"
  /\ enabled_admins (pg_UpdateUserAdmin (fun _ => "u") 9 2 (MkUserUpdate None (Some false)) [] d).2 = 2%nat.
Proof.
  cbv zeta. split; [|vm_compute; split; reflexivity].
  assert (group_names 2 (pg_RecomputeSCIMUserAccess 2 ex_mapping [] ex_disabled_admin).2 = []) as -> by (vm_compute; reflexivity).
  intros [(dn & Hin & _)|[Hd _]]; [by apply elem_of_nil in Hin|discriminate].
Qed.

Lemma ex_two_admins_wf : users_wf ex_two_admins.
Proof.
  assert (forall i u, t_users ex_two_admins !! i = Some u ->
    i = 1%N /\ u = ex_user 1 "a@x" "admin" None false \/ i = 2%N /\ u = ex_user 2 "b@x" "admin" None false) as Hu.
  { intros i u. cbn. rewrite !lookup_insert_Some, lookup_empty. naive_solver. }
  split.
  - intros i u [[-> ->]|[-> ->]]%Hu; split; reflexivity.
  - intros i j u v [[-> ->]|[-> ->]]%Hu [[-> ->]|[-> ->]]%Hu; done.
  - intros i j u v e [[-> ->]|[-> ->]]%Hu [[-> ->]|[-> ->]]%Hu; done.
  - intros u c H. by apply elem_of_empty in H.
  - intros g u H. by apply elem_of_empty in H.
  - intros p u. cbn. by rewrite lookup_empty.
  - intros g r. cbn. by rewrite lookup_empty.
Qed.

Definition ex_ops : list user_op :=
  [UpdateUserAdmin 5 1 (MkUserUpdate (Some "viewer") None); DeleteUser 2;
   CreateSCIMGroup 6 9 "otel-operator" None [2%N]; RecomputeSCIMUserAccess 2 ex_mapping].

Lemma user_tables_wf_witness : users_wf (foldl (user_exec (fun _ => "u") []) ex_two_admins ex_ops).
Proof. apply (user_tables_wf (fun _ => "u") [] ex_two_admins ex_ops). exact ex_two_admins_wf. Defined.

(** The first admin is demoted; the second can neither be deleted nor demoted by
    its group any more. *)
Example ex_ops_roles : User_Role <$> t_users (foldl (user_exec (fun _ => "u") []) ex_two_admins ex_ops) =
  {[ 1%N := "viewer"; 2%N := "admin" ]}.
Proof. vm_compute. reflexivity. Qed.

Lemma last_admin_kept_witness : has_admin (foldl (user_exec (fun _ => "u") []) ex_two_admins ex_ops).
Proof.
  apply (last_admin_kept (fun _ => "u") [] ex_two_admins ex_ops).
  - exact ex_two_admins_wf.
  - exists 1%N, (ex_user 1 "a@x" "admin" None false). split; reflexivity.
Defined.

Lemma recompute_outcome_witness : exists d', pg_RecomputeSCIMUserAccess 2 ex_mapping [] ex_disabled_admin = (Ok tt, d').
Proof.
  destruct (recompute_outcome 2 ex_mapping [] ex_disabled_admin (ex_user 2 "b@x" "admin" (Some 5%Z) true)) as (d' & Hd & _).
  - intros i c. cbn. by rewrite lookup_empty.
  - reflexivity.
  - reflexivity.
  - exists d'. exact Hd.
Defined.

Definition ex_token : api_token_row :=
  MkAPITokenRow (MkAPIToken 7%N "ci" "otm_pat_x" "viewer" (Some 2%N) None 0 None (Some 3%Z) None) "h".
Definition ex_token_db : DB := set_api_tokens (fun _ => {[ 7%N := ex_token ]}) ex_two_admins.

Lemma token_creator_undeletable_witness :
  pg_DeleteUser (fun _ => "u") 2 [] ex_token_db = (Err (ErrOther "delete user"), ex_token_db).
Proof.
  exact (token_creator_undeletable (fun _ => "u") 2 (ex_user 2 "b@x" "admin" None false) 7 ex_token [] ex_token_db eq_refl eq_refl eq_refl).
Defined.
