(* ===== verification/Scim.v ===== *)
(** SCIM provisioning: internal/scim/scim.go and groups.go.

    A request is its decoded body (or [None] where decoding fails), its path
    parameter and query; a response is its status and resource.  JSON that the
    code keeps raw is a [jval], a missing value [None]. *)
From S2P Require Import Prelude GoStrings Json GoFormat GoParse StoreTypes Authz PgCore PgUsers PgScim.
From Stdlib Require Import Ascii.

Open Scope string_scope.

(** ** Payloads and resources *)

Record email : Type := MkEmail { email_Value : string; email_Primary : bool }.

Record userPayload : Type := MkUserPayload {
  up_UserName : string;
  up_ExternalID : string;
  up_DisplayName : string;
  up_Name : option string;
  up_Emails : list email;
  up_Active : option bool
}.

Definition primaryEmail (p : userPayload) : string :=
  let e := trim_space (up_UserName p) in
  if negb (bool_decide (e = "")) then e
  else match filter (fun em => email_Primary em = true /\ email_Value em <> "") (up_Emails p) with
       | em :: _ => email_Value em
       | [] => match up_Emails p with em :: _ => email_Value em | [] => "" end
       end.

Definition display (p : userPayload) : string :=
  if negb (bool_decide (up_DisplayName p = "")) then up_DisplayName p else default "" (up_Name p).

(** A string that is nil when empty. *)
Definition non_empty (s : string) : option string := if bool_decide (s = "") then None else Some s.

Record groupPayload : Type := MkGroupPayload {
  gp_DisplayName : string;
  gp_ExternalID : option string;
  gp_Members : list string
}.

Record patchOp : Type := MkPatchOp {
  op_Op : string;
  op_Path : string;
  op_Value : option jval
}.

Record userResource : Type := MkUserResource {
  ur_ID : string;
  ur_ExternalID : string;
  ur_UserName : string;
  ur_Name : option string;
  ur_DisplayName : string;
  ur_Active : bool;
  ur_Created : string;
  ur_Location : string
}.

Record groupResource : Type := MkGroupResource {
  gr_ID : string;
  gr_ExternalID : string;
  gr_DisplayName : string;
  gr_Members : list string;
  gr_Created : string;
  gr_LastModified : string;
  gr_Location : string
}.

Inductive response : Type :=
| RError (status : Z) (detail : string)
| RUser (status : Z) (u : userResource)
| RUsers (total start : Z) (us : list userResource)
| RGroup (status : Z) (g : groupResource)
| RGroups (gs : list groupResource)
| RNoContent
(** the handler panics *)
| RPanic.

Definition is_error (r : response) : bool :=
  match r with RError _ _ | RPanic => true | _ => false end.

(** ** json.Unmarshal of raw values

    Keys match fields case-insensitively; null leaves a field as it is, or nil
    for a pointer or slice. *)
Definition unmarshal_string (v : option jval) : option string :=
  match v with Some (JStr s) => Some s | Some JNull => Some "" | _ => None end.

(** The values a struct field is set from, in order. *)
Definition field_values (name : string) (m : list (string * jval)) : list jval :=
  snd <$> filter (fun kv => EqualFold kv.1 name = true) m.

Definition parseBool (raw : option jval) : option bool :=
  match raw with
  | Some (JBool b) => Some b
  | Some JNull => Some false
  | Some (JStr s) => ParseBool s
  | _ => None
  end.

(** A [*bool] and a [*string] field: [None] when some value has the wrong type. *)
Definition bool_ptr_field (name : string) (m : list (string * jval)) : option (option bool) :=
  foldl (fun a v => match a, v with
                    | None, _ => None
                    | Some _, JBool b => Some (Some b)
                    | Some _, JNull => Some None
                    | _, _ => None
                    end) (Some None) (field_values name m).
Definition string_ptr_field (name : string) (m : list (string * jval)) : option (option string) :=
  foldl (fun a v => match a, v with
                    | None, _ => None
                    | Some _, JStr s => Some (Some s)
                    | Some _, JNull => Some None
                    | _, _ => None
                    end) (Some None) (field_values name m).

(** A string field: mistyped values are skipped; [false] if there was one. *)
Definition string_field (name : string) (m : list (string * jval)) : string * bool :=
  foldl (fun a v => match v with
                    | JStr s => (s, a.2)
                    | JNull => a
                    | _ => (a.1, false)
                    end) ("", true) (field_values name m).

(** One [groupMember]: its value, and whether it decoded without error. *)
Definition member_value (v : jval) : string * bool :=
  match v with
  | JObj m => ((string_field "value" m).1,
               (string_field "value" m).2 && (string_field "$ref" m).2 && (string_field "type" m).2)
  | JNull => ("", true)
  | _ => ("", false)
  end.

(** [decodeMembers]: errors are ignored, what could be decoded is kept. *)
Definition decodeMembers (raw : option jval) : list string :=
  match raw with Some (JArr l) => (fun v => (member_value v).1) <$> l | _ => [] end.

(** The [members] slice of a pathless value: nil, or its values; [None] on a type
    error. *)
Definition members_field (m : list (string * jval)) : option (option (list string)) :=
  foldl (fun a v => match a, v with
                    | None, _ => None
                    | Some _, JNull => Some None
                    | Some _, JArr l => if forallb (fun v => (member_value v).2) l
                                        then Some (Some ((fun v => (member_value v).1) <$> l)) else None
                    | _, _ => None
                    end) (Some None) (field_values "members" m).

(** ** Filters and numbers *)

(** [strings.Trim(s, q)] for the double quote. *)
Definition trim_quotes (s : string) : string :=
  of_bytes (trim_both (fun c => bool_decide (c = dquote)) (bytes_of s)).

Definition atoiDefault (s : string) (def : Z) : Z := default def (Atoi s).

(** Go's [l[lo:hi]]; [None] where it panics. *)
Definition slice {A} (l : list A) (lo hi : Z) : option (list A) :=
  if ((0 <=? lo) && (lo <=? hi) && (hi <=? Z.of_nat (length l)))%Z
  then Some (take (Z.to_nat (hi - lo)) (drop (Z.to_nat lo) l)) else None.

(** *** memberFilterRe, unanchored, on runes *)

Definition re_space (r : Z) : bool := bool_decide (r ∈ [9; 10; 12; 13; 32]%Z).
Fixpoint match_lit (lit rs : list Z) : option (list Z) :=
  match lit, rs with
  | [], _ => Some rs
  | l :: lit, r :: rs => if (fold_rune l =? fold_rune r)%Z then match_lit lit rs else None
  | _, [] => None
  end.
Definition match_spaces1 (rs : list Z) : option (list Z) :=
  match rs with r :: _ => if re_space r then Some (drop_while re_space rs) else None | [] => None end.
Fixpoint span_unquoted (rs : list Z) : list Z * list Z :=
  match rs with
  | r :: rs' => if (r =? 34)%Z then ([], rs) else let '(a, b) := span_unquoted rs' in (r :: a, b)
  | [] => ([], [])
  end.

(** A match at the head: the captured id. *)
Definition match_member_filter (rs : list Z) : option (list Z) :=
  rs ← match_lit (utf8_runes "members[") rs;
  rs ← match_lit (utf8_runes "value") (drop_while re_space rs);
  rs ← match_spaces1 rs;
  rs ← match_lit (utf8_runes "eq") rs;
  rs ← match_spaces1 rs;
  rs ← match_lit [34]%Z rs;
  let '(id, rs) := span_unquoted rs in
  match id with
  | [] => None
  | _ => rs ← match_lit [34]%Z rs;
         _ ← match_lit (utf8_runes "]") (drop_while re_space rs);
         Some id
  end.

Fixpoint find_member_filter (rs : list Z) : option (list Z) :=
  match match_member_filter rs with
  | Some id => Some id
  | None => match rs with [] => None | _ :: rs => find_member_filter rs end
  end.

Definition memberFilter (path : string) : option string := string_of_runes <$> find_member_filter (utf8_runes path).

(** ** Handlers *)

Section scim.
Context (uuid_string : N -> string) (uuid_parse : string -> option N).
Context (lower : string -> string) (unicode_lower : Z -> Z).
Context (mapping : SCIMMapping).

Definition ToLower : string -> string := strings_ToLower unicode_lower.

(** [New]: an unknown default role becomes viewer. *)
Definition New (m : SCIMMapping) : SCIMMapping :=
  if Known (DefaultRole m) then m else MkSCIMMapping (RolePrefix m) (CustomerPrefix m) RoleViewer.

(** [authMiddleware]: [None] lets the request through. *)
Definition authMiddleware (auth : option string) : option response :=
  match auth with
  | None => Some (RError 401 "invalid or missing token")
  | Some role => if AtLeast role RoleAdmin then None else Some (RError 403 "SCIM requires an admin token")
  end.

Definition toResource (u : UserWithIdentities) : userResource :=
  let usr := UWI_User u in
  let named := match User_DisplayName usr with Some n => non_empty n | None => None end in
  MkUserResource (uuid_string (User_ID usr)) (default "" (User_ExternalID usr)) (User_Email usr)
    named (default "" named) (bool_decide (User_DisabledAt usr = None)) (rfc3339 (User_CreatedAt usr))
    ("/scim/v2/Users/" +:+ uuid_string (User_ID usr)).

Definition toGroupResource (g : SCIMGroup) : groupResource :=
  MkGroupResource (uuid_string (SCIMGroup_ID g)) (default "" (SCIMGroup_ExternalID g)) (SCIMGroup_DisplayName g)
    (uuid_string <$> SCIMGroup_Members g) (rfc3339 (SCIMGroup_CreatedAt g)) (rfc3339 (SCIMGroup_UpdatedAt g))
    ("/scim/v2/Groups/" +:+ uuid_string (SCIMGroup_ID g)).

Definition scim_entry (action entityType entityID : string) (payload : option jval) : list AuditEntry :=
  [MkAuditEntry None "" action entityType entityID None payload].

Definition internal : response := RError 500 "internal error".

Definition memberIDs (values : list string) : list N := omap (fun v => uuid_parse (trim_space v)) values.

(** *** Users *)

Definition createUser (now : Z) (newID : N) (body : option userPayload) (d : DB) : response * DB :=
  match body with
  | None => (RError 400 "invalid SCIM payload", d)
  | Some p =>
      let e := ToLower (trim_space (primaryEmail p)) in
      if bool_decide (e = "") || negb (has_byte "@" e) then (RError 400 "userName (email) is required", d)
      else
        let entries := scim_entry "scim.user.create" "user" ""
          (Some (JObj [("email", JStr e); ("role", JStr (DefaultRole mapping)); ("via", JStr "scim")])) in
        match pg_CreateSCIMUser now newID e (DefaultRole mapping) (non_empty (display p)) (non_empty (up_ExternalID p)) entries d with
        | (Err (ErrEmailExists | ErrConflict), d) => (RError 409 "a user with this userName or externalId already exists", d)
        | (Err _, d) => (internal, d)
        | (Ok u, d) => (RUser 201 (toResource u), d)
        end
  end.

Definition parseUserNameFilter (filter : string) : string :=
  let f := trim_space filter in
  match cut_prefix "username eq " (ToLower f) with
  | None => ""
  | Some _ => trim_quotes (trim_space (of_bytes (drop 12 (bytes_of f))))
  end.

Definition page (users : list UserWithIdentities) (startIndex count : string) : response :=
  let total := Z.of_nat (length users) in
  let start := Z.max 1 (atoiDefault startIndex 1) in
  let count := Z.max 0 (atoiDefault count total) in
  let lo := Z.min (start - 1) total in
  let hi := Z.min (wrap64 (lo + count)) total in
  match slice users lo hi with
  | None => RPanic
  | Some us => RUsers total start (toResource <$> us)
  end.

Definition listUsers (filter startIndex count : string) (d : DB) : response :=
  let f := parseUserNameFilter filter in
  if negb (bool_decide (f = "")) then
    match pg_GetUserByEmail lower f d with
    | Ok u => RUsers 1 1 [toResource u]
    | Err ErrNotFound => RUsers 0 1 []
    | Err _ => internal
    end
  else page (pg_ListUsers d) startIndex count.

Definition load (id : string) (d : DB) : result UserWithIdentities response :=
  match uuid_parse id with
  | None => Err (RError 404 "user not found")
  | Some uid => match pg_GetUserWithIdentities uid d with
                | Ok u => Ok u
                | Err ErrNotFound => Err (RError 404 "user not found")
                | Err _ => Err internal
                end
  end.

Definition getUser (id : string) (d : DB) : response :=
  match load id d with Err r => r | Ok u => RUser 200 (toResource u) end.

Definition setActive (now : Z) (id : N) (active : bool) (d : DB) : result UserWithIdentities response * DB :=
  let action := if active then "scim.user.activate" else "scim.user.deactivate" in
  match pg_UpdateUserAdmin uuid_string now id (MkUserUpdate None (Some (negb active)))
          (scim_entry action "user" (uuid_string id) None) d with
  | (Err ErrNotFound, d) => (Err (RError 404 "user not found"), d)
  | (Err ErrLastAdmin, d) => (Err (RError 409 "cannot deactivate the last enabled admin"), d)
  | (Err _, d) => (Err internal, d)
  | (Ok u, d) => (Ok u, d)
  end.

Definition user_update_entry (id : N) : list AuditEntry := scim_entry "scim.user.update" "user" (uuid_string id) None.

(** The answer after an optional change of the active state. *)
Definition finish_active (now : Z) (id : N) (active : option bool) (updated : UserWithIdentities) (d : DB) : response * DB :=
  match active with
  | None => (RUser 200 (toResource updated), d)
  | Some a => match setActive now id a d with
              | (Err r, d) => (r, d)
              | (Ok u, d) => (RUser 200 (toResource u), d)
              end
  end.

Definition putUser (now : Z) (id : string) (body : option userPayload) (d : DB) : response * DB :=
  match load id d with
  | Err r => (r, d)
  | Ok u =>
      match body with
      | None => (RError 400 "invalid SCIM payload", d)
      | Some p =>
          let uid := User_ID (UWI_User u) in
          match pg_UpdateSCIMUser uid (non_empty (display p)) (non_empty (up_ExternalID p)) (user_update_entry uid) d with
          | (Err _, d) => (internal, d)
          | (Ok updated, d) => finish_active now uid (up_Active p) updated d
          end
      end
  end.

(** What the operations of a user PATCH set. *)
Record user_patch : Type := MkUserPatch {
  setActive_ : option bool;
  setDisplay : option string;
  displayDirty : bool
}.

Definition patch_user_op (a : user_patch) (op : patchOp) : user_patch :=
  if negb (EqualFold (op_Op op) "replace") && negb (EqualFold (op_Op op) "add") then a
  else
    let path := op_Path op in
    let path := ToLower (default path (cut_prefix "urn:ietf:params:scim:schemas:core:2.0:User:" path)) in
    if bool_decide (path = "active") then
      match parseBool (op_Value op) with
      | Some b => MkUserPatch (Some b) (setDisplay a) (displayDirty a)
      | None => a
      end
    else if bool_decide (path = "displayname") then
      match unmarshal_string (op_Value op) with
      | Some s => MkUserPatch (setActive_ a) (Some s) true
      | None => a
      end
    else if bool_decide (path = "") then
      match op_Value op with
      | Some (JObj m) =>
          match bool_ptr_field "active" m, string_ptr_field "displayName" m with
          | Some act, Some dn =>
              MkUserPatch (match act with Some b => Some b | None => setActive_ a end)
                (match dn with Some s => Some s | None => setDisplay a end)
                (displayDirty a || bool_decide (is_Some dn))
          | _, _ => a
          end
      | _ => a
      end
    else a.

Definition patchUser (now : Z) (id : string) (body : option (list patchOp)) (d : DB) : response * DB :=
  match load id d with
  | Err r => (r, d)
  | Ok u =>
      match body with
      | None => (RError 400 "invalid SCIM PatchOp", d)
      | Some ops =>
          let uid := User_ID (UWI_User u) in
          let p := foldl patch_user_op (MkUserPatch None None false) ops in
          if displayDirty p then
            match pg_UpdateSCIMUser uid (setDisplay p) (User_ExternalID (UWI_User u)) (user_update_entry uid) d with
            | (Err _, d) => (internal, d)
            | (Ok updated, d) => finish_active now uid (setActive_ p) updated d
            end
          else finish_active now uid (setActive_ p) u d
      end
  end.

Definition deleteUser (now : Z) (id : string) (d : DB) : response * DB :=
  match load id d with
  | Err r => (r, d)
  | Ok u => match setActive now (User_ID (UWI_User u)) false d with
            | (Err r, d) => (r, d)
            | (Ok _, d) => (RNoContent, d)
            end
  end.

(** *** Groups *)

(** Errors are logged and dropped. *)
Definition recompute (users : list N) (d : DB) : DB :=
  foldl (fun d uid => (pg_RecomputeSCIMUserAccess uid mapping (scim_entry "scim.access.recompute" "user" (uuid_string uid) None) d).2)
    d users.

Definition parseDisplayNameFilter (filter : string) : string :=
  let f := trim_space filter in
  match cut_prefix "displayname eq " (ToLower f) with
  | None => ""
  | Some _ => trim_quotes (trim_space (of_bytes (drop 15 (bytes_of f))))
  end.

Definition listGroups (filter_ : string) (d : DB) : response :=
  let f := parseDisplayNameFilter filter_ in
  RGroups (toGroupResource <$> filter (fun g => f = "" \/ SCIMGroup_DisplayName g = f) (pg_ListSCIMGroups d)).

Definition createGroup (now : Z) (newID : N) (body : option groupPayload) (d : DB) : response * DB :=
  match body with
  | None => (RError 400 "invalid JSON body", d)
  | Some p =>
      if bool_decide (trim_space (gp_DisplayName p) = "") then (RError 400 "displayName is required", d)
      else
        match pg_CreateSCIMGroup now newID (gp_DisplayName p) (gp_ExternalID p) (memberIDs (gp_Members p))
                (scim_entry "scim.group.create" "scim_group" (uuid_string newID)
                   (Some (JObj [("displayName", JStr (gp_DisplayName p)); ("members", JInt (Z.of_nat (length (gp_Members p))))]))) d with
        | (Err ErrConflict, d) => (RError 409 "a group with this externalId already exists", d)
        | (Err ErrNotFound, d) => (RError 400 "one or more members are not known users", d)
        | (Err _, d) => (internal, d)
        | (Ok g, d) => (RGroup 201 (toGroupResource g), recompute (SCIMGroup_Members g) d)
        end
  end.

Definition groupID (id : string) : result N response :=
  match uuid_parse id with Some gid => Ok gid | None => Err (RError 404 "group not found") end.

Definition loadGroup (gid : N) (d : DB) : result SCIMGroup response :=
  match pg_GetSCIMGroup gid d with
  | Ok g => Ok g
  | Err ErrNotFound => Err (RError 404 "group not found")
  | Err _ => Err internal
  end.

Definition getGroup (id : string) (d : DB) : response :=
  match groupID id with
  | Err r => r
  | Ok gid => match loadGroup gid d with Err r => r | Ok g => RGroup 200 (toGroupResource g) end
  end.

Definition handleGroupWriteErr (e : store_err) : response :=
  match e with
  | ErrNotFound => RError 404 "group not found or member is not a known user"
  | ErrConflict => RError 409 "a group with this externalId already exists"
  | _ => internal
  end.

Definition putGroup (now : Z) (id : string) (body : option groupPayload) (d : DB) : response * DB :=
  match groupID id with
  | Err r => (r, d)
  | Ok gid =>
      match body with
      | None => (RError 400 "invalid JSON body", d)
      | Some p =>
          let members := memberIDs (gp_Members p) in
          match pg_UpdateSCIMGroup now gid (Some (gp_DisplayName p)) (gp_ExternalID p) (Some members)
                  (scim_entry "scim.group.update" "scim_group" (uuid_string gid)
                     (Some (JObj [("displayName", JStr (gp_DisplayName p)); ("members", JInt (Z.of_nat (length members)))]))) d with
          | (Err e, d) => (handleGroupWriteErr e, d)
          | (Ok (g, affected), d) => (RGroup 200 (toGroupResource g), recompute affected d)
          end
      end
  end.

(** What the operations of a group PATCH ask for. *)
Record group_patch : Type := MkGroupPatch {
  newDisplayName : option string;
  replaceMembers : option (list N);
  add_ : list N;
  remove_ : list N
}.

Definition patch_group_op (a : group_patch) (op : patchOp) : group_patch :=
  let verb := ToLower (trim_space (op_Op op)) in
  let path := trim_space (op_Path op) in
  let lpath := ToLower path in
  let filtered := memberFilter path in
  if bool_decide (lpath = "displayname") then
    match unmarshal_string (op_Value op) with
    | Some v => MkGroupPatch (Some v) (replaceMembers a) (add_ a) (remove_ a)
    | None => a
    end
  else if bool_decide (verb = "remove") && bool_decide (is_Some filtered) then
    match filtered ≫= uuid_parse with
    | Some uid => MkGroupPatch (newDisplayName a) (replaceMembers a) (add_ a) (remove_ a ++ [uid])
    | None => a
    end
  else if bool_decide (lpath = "members") then
    let ids := memberIDs (decodeMembers (op_Value op)) in
    if bool_decide (verb = "add") then MkGroupPatch (newDisplayName a) (replaceMembers a) (add_ a ++ ids) (remove_ a)
    else if bool_decide (verb = "remove") then MkGroupPatch (newDisplayName a) (replaceMembers a) (add_ a) (remove_ a ++ ids)
    else if bool_decide (verb = "replace") then MkGroupPatch (newDisplayName a) (Some ids) (add_ a) (remove_ a)
    else a
  else if bool_decide (path = "") then
    match op_Value op with
    | Some (JObj m) =>
        match string_ptr_field "displayName" m, members_field m with
        | Some dn, Some ms =>
            MkGroupPatch (match dn with Some n => Some n | None => newDisplayName a end)
              (match ms with Some l => Some (memberIDs l) | None => replaceMembers a end) (add_ a) (remove_ a)
        | _, _ => a
        end
    | _ => a
    end
  else a.

Definition group_patch_entry (gid : N) : list AuditEntry := scim_entry "scim.group.patch" "scim_group" (uuid_string gid) None.

(** The optional rename of the second branch: the group, if it was written, and
    the affected users. *)
Definition patch_rename (now : Z) (gid : N) (p : group_patch) (d : DB) : result (option SCIMGroup * gset N) store_err * DB :=
  match newDisplayName p with
  | None => (Ok (None, ∅), d)
  | Some n => match pg_UpdateSCIMGroup now gid (Some n) None None (group_patch_entry gid) d with
              | (Err e, d) => (Err e, d)
              | (Ok (g, aff), d) => (Ok (Some g, list_to_set aff), d)
              end
  end.

Definition patch_members (now : Z) (gid : N) (p : group_patch) (acc : option SCIMGroup * gset N) (d : DB)
  : result (option SCIMGroup * gset N) store_err * DB :=
  match add_ p, remove_ p with
  | [], [] => (Ok acc, d)
  | _, _ => match pg_ModifySCIMGroupMembers now gid (add_ p) (remove_ p) (group_patch_entry gid) d with
            | (Err e, d) => (Err e, d)
            | (Ok (g, aff), d) => (Ok (Some g, acc.2 ∪ list_to_set aff), d)
            end
  end.

Definition patch_writes (now : Z) (gid : N) (p : group_patch) (d : DB) : result (option SCIMGroup * gset N) store_err * DB :=
  match replaceMembers p with
  | Some ms => match pg_UpdateSCIMGroup now gid (newDisplayName p) None (Some ms) (group_patch_entry gid) d with
               | (Err e, d) => (Err e, d)
               | (Ok (g, aff), d) => (Ok (Some g, list_to_set aff), d)
               end
  | None => match patch_rename now gid p d with
            | (Err e, d) => (Err e, d)
            | (Ok acc, d) => patch_members now gid p acc d
            end
  end.

Definition patchGroup (now : Z) (id : string) (body : option (list patchOp)) (d : DB) : response * DB :=
  match groupID id with
  | Err r => (r, d)
  | Ok gid =>
      match body with
      | None => (RError 400 "invalid JSON body", d)
      | Some ops =>
          match patch_writes now gid (foldl patch_group_op (MkGroupPatch None None [] []) ops) d with
          | (Err e, d) => (handleGroupWriteErr e, d)
          | (Ok (Some g, affected), d) => (RGroup 200 (toGroupResource g), recompute (elements affected) d)
          | (Ok (None, affected), d) =>
              match loadGroup gid d with
              | Err r => (r, d)
              | Ok g => (RGroup 200 (toGroupResource g), recompute (elements affected) d)
              end
          end
      end
  end.

Definition deleteGroup (id : string) (d : DB) : response * DB :=
  match groupID id with
  | Err r => (r, d)
  | Ok gid =>
      match pg_DeleteSCIMGroup gid (scim_entry "scim.group.delete" "scim_group" (uuid_string gid) None) d with
      | (Err ErrNotFound, d) => (RError 404 "group not found", d)
      | (Err _, d) => (internal, d)
      | (Ok formerMembers, d) => (RNoContent, recompute formerMembers d)
      end
  end.
End scim.
