(* ===== verification/ScimAccess.v ===== *)
(** SCIM provisioning, what it does to access: the requests of scim.go and
    groups.go as steps on the store, and the sessions the Guard then serves. *)
From S2P Require Import Prelude GoStrings Json GoFormat GoParse StoreTypes Authz PgCore PgUsers PgScim Scim.
From stdpp Require Import relations.

Open Scope string_scope.

(** ** The names a user's groups have *)

Lemma group_names_spec dn uid d : dn ∈ group_names uid d <->
  exists g r, (g, uid) ∈ x_members (t_ext d) /\ x_groups (t_ext d) !! g = Some r /\ dn = sg_display_name r.
Proof.
  unfold group_names. rewrite list_elem_of_omap. split.
  - intros ([g v] & [Hv Hin]%list_elem_of_filter & Hr). simpl in *. subst v. apply elem_of_elements in Hin.
    destruct (x_groups (t_ext d) !! g) as [r|] eqn:E; [|done]. injection Hr as <-. by exists g, r.
  - intros (g & r & Hin & Hg & ->). exists (g, uid). rewrite list_elem_of_filter, elem_of_elements. simpl. by rewrite Hg.
Qed.

Lemma loadGroupMembers_spec u g d : u ∈ loadGroupMembers g d <-> (g, u) ∈ x_members (t_ext d).
Proof.
  unfold loadGroupMembers. rewrite sort_by_perm, list_elem_of_fmap. split.
  - intros ([g' u'] & -> & [Hg Hin]%list_elem_of_filter). simpl in *. subst. by apply elem_of_elements in Hin.
  - intros Hin. exists (g, u). rewrite list_elem_of_filter, elem_of_elements. done.
Qed.

Definition same_names (l l' : list string) : Prop := forall dn, dn ∈ l <-> dn ∈ l'.

Lemma governed_names m u l l' : same_names l l' -> governed m u l <-> governed m u l'.
Proof. unfold governed. intros H. by setoid_rewrite (H _). Qed.

Lemma due_role_names m l l' role : same_names l l' -> due_role m l role <-> due_role m l' role.
Proof. unfold due_role. intros H. by setoid_rewrite (H _). Qed.

Lemma due_customer_names m l l' d d' c : same_names l l' -> t_customers d' = t_customers d ->
  due_customer m l d c <-> due_customer m l' d' c.
Proof. unfold due_customer, pg_GetCustomerBySlug. intros H ->. by setoid_rewrite (H _). Qed.

(** ** Access that is current *)

(** A user governed by groups is marked as managed, has the role due, or is an
    administrator, and has grants for exactly the customers due. *)
Definition access_current (m : SCIMMapping) (d : DB) (uid : N) : Prop := forall u,
  t_users d !! uid = Some u -> governed m u (group_names uid d) ->
  User_ScimManaged u = true
  /\ (due_role m (group_names uid d) (User_Role u) \/ User_Role u = RoleAdmin)
  /\ forall c, (uid, c) ∈ x_grants (t_ext d) <-> due_customer m (group_names uid d) d c.

(** What a user's access depends on is the same in two states. *)
Record kept (d d' : DB) (v : N) : Prop := {
  k_user : forall u', t_users d' !! v = Some u' ->
    exists u, t_users d !! v = Some u /\ User_Role u' = User_Role u /\ User_ScimManaged u' = User_ScimManaged u;
  k_names : same_names (group_names v d) (group_names v d');
  k_grants : forall c, (v, c) ∈ x_grants (t_ext d') <-> (v, c) ∈ x_grants (t_ext d);
  k_customers : t_customers d' = t_customers d
}.

Lemma kept_current m d d' v : kept d d' v -> access_current m d v -> access_current m d' v.
Proof.
  intros [Hu Hn Hg Hc] Hcur u' Hu' Hgov. destruct (Hu u' Hu') as (u & Hu0 & Hr & Hm).
  assert (governed m u (group_names v d)) as Hgov0.
  { apply (governed_names m u _ _ Hn). destruct Hgov as [Hs|Hs]; [left; congruence|by right]. }
  destruct (Hcur u Hu0 Hgov0) as (H1 & H2 & H3). split; [congruence|]. split.
  - rewrite Hr, <- (due_role_names m _ _ _ Hn). exact H2.
  - intros c. rewrite Hg, H3. by apply due_customer_names.
Qed.

Lemma kept_trans d1 d2 d3 v : kept d1 d2 v -> kept d2 d3 v -> kept d1 d3 v.
Proof.
  intros [U1 N1 G1 C1] [U2 N2 G2 C2]. split.
  - intros u3 H3. destruct (U2 u3 H3) as (u2 & H2 & R2 & M2). destruct (U1 u2 H2) as (u1 & H1 & R1 & M1).
    exists u1. split_and!; congruence.
  - intros dn. by rewrite (N1 dn), (N2 dn).
  - intros c. by rewrite G2, G1.
  - by rewrite C2.
Qed.

Lemma same_display_name (x y : option scim_group_row) r : sg_display_name <$> y = sg_display_name <$> x -> x = Some r ->
  exists r', y = Some r' /\ sg_display_name r' = sg_display_name r.
Proof. intros H ->. destruct y as [r'|]; [|done]. injection H as H. by exists r'. Qed.

(** The memberships of a user, and the names of those groups, decide. *)
Lemma kept_intro d d' v : t_users d' !! v = t_users d !! v -> t_customers d' = t_customers d ->
  (forall c, (v, c) ∈ x_grants (t_ext d') <-> (v, c) ∈ x_grants (t_ext d)) ->
  (forall g, (g, v) ∈ x_members (t_ext d') <-> (g, v) ∈ x_members (t_ext d)) ->
  (forall g, (g, v) ∈ x_members (t_ext d) ->
     sg_display_name <$> x_groups (t_ext d') !! g = sg_display_name <$> x_groups (t_ext d) !! g) ->
  kept d d' v.
Proof.
  intros Hu Hc Hg Hm Hn. split; [intros u'; rewrite Hu; by exists u'| |done..].
  intros dn. rewrite !group_names_spec. split; intros (g & r & Hin & Hr & ->).
  - destruct (same_display_name _ _ r (Hn g Hin) Hr) as (r' & Hr' & <-). exists g, r'. by rewrite Hm.
  - apply Hm in Hin. destruct (same_display_name _ _ r (eq_sym (Hn g Hin)) Hr) as (r' & Hr' & <-). by exists g, r'.
Qed.

(** Rows that say nothing about access may change. *)
Lemma kept_same d d' v : (forall u', t_users d' !! v = Some u' ->
    exists u, t_users d !! v = Some u /\ User_Role u' = User_Role u /\ User_ScimManaged u' = User_ScimManaged u) ->
  t_customers d' = t_customers d -> x_grants (t_ext d') = x_grants (t_ext d) ->
  x_members (t_ext d') = x_members (t_ext d) -> x_groups (t_ext d') = x_groups (t_ext d) -> kept d d' v.
Proof. intros Hu Hc Hg Hm Hgr. split; [done| |by rewrite Hg|done]. intros dn. by rewrite !group_names_spec, Hm, Hgr. Qed.

(** *** The store operations *)

Lemma update_scim_user_kept id dn ext es d a d' v : pg_UpdateSCIMUser id dn ext es d = (Ok a, d') -> kept d d' v.
Proof.
  intros H. apply inTx_Ok in H. tx_invert H. apply pg_GetUser_Ok in Hs0. apply kept_same; try done.
  intros u'. simpl. rewrite lookup_insert_Some. intros [[<- <-]|[_ ?]]; eauto.
Qed.

Lemma update_disabled_Ok uuid now id b d a d' : update_disabled uuid now id b d = Ok (a, d') ->
  exists u t, t_users d !! id = Some u /\ t_users d' = <[id := with_disabled_at t u]> (t_users d) /\ (is_Some t <-> b = true)
  /\ t_customers d' = t_customers d /\ x_grants (t_ext d') = x_grants (t_ext d)
  /\ x_members (t_ext d') = x_members (t_ext d) /\ x_groups (t_ext d') = x_groups (t_ext d).
Proof.
  unfold update_disabled. intros H. tx_invert H. apply pg_GetUser_Ok in Hs.
  destruct b; unfold deleteSessionsByUser in H; tx_invert H; eexists a0, _; (split_and!; [exact Hs|reflexivity|split|..]); try done.
Qed.

(** What a committed change of the active state did. *)
Lemma update_active_Ok uuid now id b es d a d' :
  pg_UpdateUserAdmin uuid now id (MkUserUpdate None (Some b)) es d = (Ok a, d') ->
  exists u t, t_users d !! id = Some u /\ t_users d' = <[id := with_disabled_at t u]> (t_users d) /\ (is_Some t <-> b = true)
  /\ t_customers d' = t_customers d /\ x_grants (t_ext d') = x_grants (t_ext d)
  /\ x_members (t_ext d') = x_members (t_ext d) /\ x_groups (t_ext d') = x_groups (t_ext d).
Proof.
  intros H. apply inTx_Ok in H. unfold update_user_admin in H. cbn [tx_when UserUpdate_Role UserUpdate_Disabled] in H.
  tx_invert H. apply ensureEnabledAdminRemains_Ok in Hs2 as [-> _]. injection Hs0 as _ <-.
  apply update_disabled_Ok in Hs1 as (u & t & Hs1). by exists u, t.
Qed.

Lemma update_active_kept uuid now id b es d a d' v :
  pg_UpdateUserAdmin uuid now id (MkUserUpdate None (Some b)) es d = (Ok a, d') -> kept d d' v.
Proof.
  intros (u & t & Hu & Hus & _ & Hc & Hg & Hm & Hgr)%update_active_Ok. apply kept_same; try done.
  intros u'. rewrite Hus, lookup_insert_Some. intros [[<- <-]|[_ ?]]; eauto.
Qed.

Lemma group_op_kept d d' v gid : t_users d' = t_users d -> t_customers d' = t_customers d ->
  x_grants (t_ext d') = x_grants (t_ext d) ->
  (forall g, (g, v) ∈ x_members (t_ext d') <-> (g, v) ∈ x_members (t_ext d)) ->
  (forall g, g <> gid -> x_groups (t_ext d') !! g = x_groups (t_ext d) !! g) ->
  ((gid, v) ∈ x_members (t_ext d) ->
     sg_display_name <$> x_groups (t_ext d') !! gid = sg_display_name <$> x_groups (t_ext d) !! gid) ->
  kept d d' v.
Proof.
  intros Hu Hc Hg Hm Hgr Hname. apply kept_intro; [by rewrite Hu|done|by rewrite Hg|done|].
  intros g Hin. destruct (decide (g = gid)) as [->|Hne]; [by apply Hname|by rewrite Hgr].
Qed.

Lemma read_group_Ok id d g : read_group id d = Ok g -> exists r, x_groups (t_ext d) !! id = Some r /\ g = scim_group d r.
Proof. unfold read_group. destruct (get_group id d) as [r|] eqn:E; [|done]. intros [= <-]. exists r. by apply get_group_Ok in E. Qed.

Lemma elem_of_pairs (g h : N) (v : N) (us : list N) (m : gset (N * N)) :
  (h, v) ∈ list_to_set (pair g <$> us) ∪ m <-> h = g /\ v ∈ us \/ (h, v) ∈ m.
Proof. rewrite elem_of_union, elem_of_list_to_set, list_elem_of_fmap. naive_solver. Qed.

Lemma create_group_kept now id dn ext ms es d g d' v : pg_CreateSCIMGroup now id dn ext ms es d = (Ok g, d') ->
  v ∉ SCIMGroup_Members g -> kept d d' v.
Proof.
  intros H Hv. apply inTx_Ok in H. tx_invert H. apply insert_group_Ok in Hs as [-> Hn].
  apply insertGroupMembers_Ok in Hs0 as [-> _]. apply read_group_Ok in Hs1 as (r & Hr & ->). subst.
  simpl in Hr. rewrite lookup_insert_eq in Hr. injection Hr as <-. cbn [SCIMGroup_Members scim_group] in Hv.
  rewrite loadGroupMembers_spec in Hv. cbn -[union] in Hv. rewrite elem_of_pairs in Hv.
  apply (group_op_kept _ _ _ id); try done; cbn -[union].
  - intros g. rewrite elem_of_pairs. naive_solver.
  - intros g Hne. by rewrite lookup_insert_ne.
  - intros Hin. destruct Hv. by right.
Qed.

Lemma update_group_kept now id dn ext ms es d g aff d' v : pg_UpdateSCIMGroup now id dn ext ms es d = (Ok (g, aff), d') ->
  v ∉ aff -> kept d d' v.
Proof.
  intros H Hv. apply inTx_Ok in H. tx_invert H. apply get_group_Ok in Hs.
  apply update_group_row_Ok in Hs0 as (-> & _ & before & Hb & Hname). rewrite Hs in Hb. injection Hb as <-.
  subst g d'. rewrite elem_of_elements in Hv.
  assert (d1 = match ms with
               | Some l => set_members (fun m => list_to_set (pair id <$> l) ∪ m) (clear_members id (set_groups (<[id := a0]>) d))
               | None => set_groups (<[id := a0]>) d end) as ->.
  { destruct ms as [l|]; simpl in Hs1; [|by injection Hs1].
    unfold replace_members in Hs1. tx_invert Hs1. by apply insertGroupMembers_Ok in Hs1 as [-> _]. }
  clear Hs1 Hs2. destruct ms as [l|].
  - rewrite elem_of_union, !elem_of_list_to_set, loadGroupMembers_spec in Hv.
    apply (group_op_kept _ _ _ id); try done; cbn -[union].
    + intros g. rewrite elem_of_pairs, elem_of_filter. simpl. destruct (decide (g = id)) as [->|]; naive_solver.
    + intros g Hne. by rewrite lookup_insert_ne.
    + intros Hin. destruct Hv. by left.
  - apply (group_op_kept _ _ _ id); try done; simpl.
    + intros g Hne. by rewrite lookup_insert_ne.
    + intros Hin. rewrite lookup_insert_eq, Hs. simpl. rewrite Hname. f_equal.
      destruct dn as [n|]; [|done]. simpl. destruct (bool_decide_reflect (n = sg_display_name a)) as [|Hne]; [done|].
      cbn [negb] in Hv. destruct Hv.
      by rewrite elem_of_list_to_set, loadGroupMembers_spec.
Qed.

Lemma modify_members_kept now id add remove es d g aff d' v : pg_ModifySCIMGroupMembers now id add remove es d = (Ok (g, aff), d') ->
  v ∉ aff -> kept d d' v.
Proof.
  intros H Hv. apply inTx_Ok in H. tx_invert H. apply get_group_Ok in Hs. apply insertGroupMembers_Ok in Hs0 as [-> _].
  subst. rewrite elem_of_elements, elem_of_union, !elem_of_list_to_set in Hv. clear Hs1.
  apply (group_op_kept _ _ _ id); try done; cbn -[union]; rewrite ?Hs.
  - intros h. rewrite elem_of_filter, elem_of_pairs. simpl. naive_solver.
  - intros h Hne. by rewrite lookup_insert_ne.
  - intros _. by rewrite lookup_insert_eq.
Qed.

Lemma delete_group_kept id es d former d' v : pg_DeleteSCIMGroup id es d = (Ok former, d') -> v ∉ former -> kept d d' v.
Proof.
  intros H Hv. apply inTx_Ok in H. tx_invert H. subst. rewrite loadGroupMembers_spec in Hv.
  apply (group_op_kept _ _ _ id); try done; simpl.
  - intros h. rewrite elem_of_filter. simpl. naive_solver.
  - intros h Hne. by rewrite lookup_delete_ne.
Qed.

(** ** Recomputing *)

Lemma recompute_error uid m es d : t_users d !! uid = None -> (pg_RecomputeSCIMUserAccess uid m es d).2 = d.
Proof. intros H. unfold pg_RecomputeSCIMUserAccess, inTx, tx_bind, tx_read, pg_GetUser. by rewrite H. Qed.

Lemma same_names_tables v d d' : x_members (t_ext d') = x_members (t_ext d) -> x_groups (t_ext d') = x_groups (t_ext d) ->
  same_names (group_names v d) (group_names v d').
Proof. intros Hm Hg dn. by rewrite !group_names_spec, Hm, Hg. Qed.

Lemma recompute_current uid m es d v : customer_ids d -> Known (DefaultRole m) = true -> v = uid \/ access_current m d v ->
  access_current m (pg_RecomputeSCIMUserAccess uid m es d).2 v.
Proof.
  intros Hids Hdef Hv. destruct (t_users d !! uid) as [u|] eqn:Hu.
  2: { rewrite recompute_error by done. destruct Hv as [->|?]; [|done]. intros w Hw. congruence. }
  destruct (recompute_succeeds uid m es d Hids Hdef (mk_is_Some _ _ Hu)) as [d' Hd']. rewrite Hd'.
  destruct (recompute_access _ _ _ _ _ _ Hdef Hu Hd') as [Hno Hyes]. simpl.
  destruct (decide (User_ScimManaged u || dv_hasMapped (derive m (group_names uid d)) = true)) as [Hgov|Hgov].
  - apply governed_spec in Hgov. destruct (Hyes Hgov) as (role & Hus & Hrole & Hgr & Hc & Hm & Hg).
    pose proof (same_names_tables uid d d' Hm Hg) as Hn. destruct (decide (v = uid)) as [->|Hne].
    + intros w Hw Hgw. rewrite Hus, lookup_insert_eq in Hw. injection Hw as <-. split; [done|]. split.
      * simpl. rewrite <- (due_role_names m _ _ _ Hn). destruct Hrole as [?|(? & _)]; [by left|by right].
      * intros c. rewrite Hgr, <- (due_customer_names m _ _ d d' c Hn Hc). naive_solver.
    + destruct Hv as [?|Hv]; [done|]. eapply kept_current; [|exact Hv]. split.
      * intros w. rewrite Hus, lookup_insert_ne by done. by exists w.
      * by apply same_names_tables.
      * intros c. rewrite Hgr. naive_solver.
      * exact Hc.
  - rewrite Hno; [|by rewrite <- governed_spec]. destruct Hv as [->|?]; [|done].
    intros w Hw Hgw. destruct Hgov. apply governed_spec. congruence.
Qed.

Lemma recompute_customers uid m es d : t_customers (pg_RecomputeSCIMUserAccess uid m es d).2 = t_customers d.
Proof.
  destruct (pg_RecomputeSCIMUserAccess uid m es d) as [[a|e] d'] eqn:E; [|by rewrite (inTx_Err _ _ _ _ E)].
  apply recompute_Ok in E as (u & _ & H). cbv zeta in H. destruct (_ || _); [by destruct H as (_ & _ & ? & _)|by subst].
Qed.

Section requests.
Context (uuid_string : N -> string) (uuid_parse : string -> option N) (unicode_lower : Z -> Z).
Context (mapping : SCIMMapping).

Lemma recompute_all_current us d v : customer_ids d -> Known (DefaultRole mapping) = true -> v ∈ us \/ access_current mapping d v ->
  access_current mapping (recompute uuid_string mapping us d) v.
Proof using Type.
  intros Hids Hdef. unfold recompute. revert d Hids. induction us as [|uid us IH]; intros d Hids Hv; simpl.
  - destruct Hv as [Hv|Hv]; [by apply elem_of_nil in Hv|done].
  - apply IH.
    + unfold customer_ids. by rewrite recompute_customers.
    + destruct Hv as [[->|Hv]%elem_of_cons|Hv]; [right|by left|right]; apply recompute_current; auto.
Qed.

Lemma recompute_all_customers us d : t_customers (recompute uuid_string mapping us d) = t_customers d.
Proof using Type.
  unfold recompute. revert d. induction us as [|uid us IH]; intros d; simpl; [done|]. by rewrite IH, recompute_customers.
Qed.

(** ** Requests *)

Inductive request : Type :=
| PostUser (newID : N) (body : option userPayload)
| PutUser (id : string) (body : option userPayload)
| PatchUser (id : string) (body : option (list patchOp))
| DeleteUser (id : string)
| PostGroup (newID : N) (body : option groupPayload)
| PutGroup (id : string) (body : option groupPayload)
| PatchGroup (id : string) (body : option (list patchOp))
| DeleteGroup (id : string).

Definition handle (now : Z) (q : request) (d : DB) : response * DB :=
  match q with
  | PostUser newID body => createUser uuid_string unicode_lower mapping now newID body d
  | PutUser id body => putUser uuid_string uuid_parse now id body d
  | PatchUser id body => patchUser uuid_string uuid_parse unicode_lower now id body d
  | DeleteUser id => deleteUser uuid_string uuid_parse now id d
  | PostGroup newID body => createGroup uuid_string uuid_parse mapping now newID body d
  | PutGroup id body => putGroup uuid_string uuid_parse mapping now id body d
  | PatchGroup id body => patchGroup uuid_string uuid_parse unicode_lower mapping now id body d
  | DeleteGroup id => deleteGroup uuid_string uuid_parse mapping id d
  end.

(** What every store operation keeps, every request keeps. *)
Section keeps.
Context (P : DB -> Prop) (Hop : forall es d op, P d -> P (user_exec uuid_string es d op)).

Lemma call_keeps op es d : P d -> forall A (c : result A store_err * DB) r d', c.2 = user_exec uuid_string es d op -> c = (r, d') -> P d'.
Proof using Hop. intros Hd A c r d' Hc ->. simpl in Hc. rewrite Hc. by apply Hop. Qed.

Lemma recompute_keeps us d : P d -> P (recompute uuid_string mapping us d).
Proof using Hop.
  unfold recompute. revert d. induction us as [|uid us IH]; intros d Hd; simpl; [done|].
  apply IH. exact (Hop _ _ (RecomputeSCIMUserAccess uid mapping) Hd).
Qed.

Lemma setActive_keeps now id b d r d' : P d -> setActive uuid_string now id b d = (r, d') -> P d'.
Proof using Hop.
  intros Hd. unfold setActive. destruct (pg_UpdateUserAdmin _ _ _ _ _ _) as [r0 d1] eqn:E.
  eapply (call_keeps (UpdateUserAdmin now id (MkUserUpdate None (Some (negb b))))) in E; [|exact Hd|reflexivity].
  destruct r0 as [u|[]]; by intros [= _ <-].
Qed.

Lemma finish_active_keeps now id a u d r d' : P d -> finish_active uuid_string now id a u d = (r, d') -> P d'.
Proof using Hop.
  intros Hd. unfold finish_active. destruct a as [b|]; [|by intros [= _ <-]].
  destruct (setActive _ _ _ _ _) as [r0 d1] eqn:E. apply setActive_keeps in E; [|exact Hd]. destruct r0; by intros [= _ <-].
Qed.

Lemma update_group_keeps now gid dn ext ms es d r d' : P d -> pg_UpdateSCIMGroup now gid dn ext ms es d = (r, d') -> P d'.
Proof using Hop. intros Hd. eapply (call_keeps (UpdateSCIMGroup now gid dn ext ms) es d Hd); reflexivity. Qed.

Lemma patch_writes_keeps now gid p d r d' : P d -> patch_writes uuid_string now gid p d = (r, d') -> P d'.
Proof using Hop.
  intros Hd. unfold patch_writes. destruct (replaceMembers p) as [ms|].
  - destruct (pg_UpdateSCIMGroup _ _ _ _ _ _ _) as [r0 d1] eqn:E. apply update_group_keeps in E; [|exact Hd].
    destruct r0 as [[]|]; by intros [= _ <-].
  - destruct (patch_rename _ _ _ _ _) as [r0 d1] eqn:E. assert (P d1) as Hd1.
    { unfold patch_rename in E. destruct (newDisplayName p); [|by injection E as _ <-].
      destruct (pg_UpdateSCIMGroup _ _ _ _ _ _ _) as [r1 d2] eqn:E1. apply update_group_keeps in E1; [|exact Hd].
      destruct r1 as [[]|]; by injection E as _ <-. }
    destruct r0 as [acc|e]; [|by intros [= _ <-]]. unfold patch_members. intros H. clear E.
    assert ((r, d') = (Ok acc, d1) \/ exists r1, pg_ModifySCIMGroupMembers now gid (add_ p) (remove_ p) (group_patch_entry uuid_string gid) d1 = (r1, d')) as [Hr|[r1 Hr]].
    { destruct (pg_ModifySCIMGroupMembers _ _ _ _ _ _) as [[[]|] d2]; destruct (add_ p), (remove_ p); injection H as <- <-; eauto. }
    + by injection Hr as _ ->.
    + eapply (call_keeps (ModifySCIMGroupMembers now gid (add_ p) (remove_ p))) in Hr; [exact Hr|exact Hd1|reflexivity].
Qed.

Lemma handle_keeps now q d : P d -> P (handle now q d).2.
Proof using Hop.
  intros Hd. destruct (handle now q d) as [r d'] eqn:H. simpl. revert H. destruct q; simpl.
  - unfold createUser. destruct body as [p|]; [|by intros [= _ <-]]. destruct (_ || _); [by intros [= _ <-]|].
    destruct (pg_CreateSCIMUser _ _ _ _ _ _ _ _) as [r0 d1] eqn:E.
    eapply (call_keeps (CreateSCIMUser _ _ _ _ _ _)) in E; [|exact Hd|reflexivity]. destruct r0 as [u|[]]; by intros [= _ <-].
  - unfold putUser. destruct (load _ _ _) as [u|]; [|by intros [= _ <-]]. destruct body as [p|]; [|by intros [= _ <-]].
    destruct (pg_UpdateSCIMUser _ _ _ _ _) as [r0 d1] eqn:E.
    eapply (call_keeps (UpdateSCIMUser _ _ _)) in E; [|exact Hd|reflexivity].
    destruct r0; [by apply finish_active_keeps|by intros [= _ <-]].
  - unfold patchUser. destruct (load _ _ _) as [u|]; [|by intros [= _ <-]]. destruct body as [ops|]; [|by intros [= _ <-]].
    cbv zeta. destruct (displayDirty _); [|by apply finish_active_keeps].
    destruct (pg_UpdateSCIMUser _ _ _ _ _) as [r0 d1] eqn:E.
    eapply (call_keeps (UpdateSCIMUser _ _ _)) in E; [|exact Hd|reflexivity].
    destruct r0; [by apply finish_active_keeps|by intros [= _ <-]].
  - unfold deleteUser. destruct (load _ _ _) as [u|]; [|by intros [= _ <-]].
    destruct (setActive _ _ _ _ _) as [r0 d1] eqn:E. apply setActive_keeps in E; [|exact Hd]. destruct r0; by intros [= _ <-].
  - unfold createGroup. destruct body as [p|]; [|by intros [= _ <-]]. case_bool_decide; [by intros [= _ <-]|].
    destruct (pg_CreateSCIMGroup _ _ _ _ _ _ _) as [r0 d1] eqn:E.
    eapply (call_keeps (CreateSCIMGroup _ _ _ _ _)) in E; [|exact Hd|reflexivity].
    destruct r0 as [g|[]]; intros [= _ <-]; by try apply recompute_keeps.
  - unfold putGroup. destruct (groupID _ _) as [gid|]; [|by intros [= _ <-]]. destruct body as [p|]; [|by intros [= _ <-]].
    cbv zeta. destruct (pg_UpdateSCIMGroup _ _ _ _ _ _ _) as [r0 d1] eqn:E. apply update_group_keeps in E; [|exact Hd].
    destruct r0 as [[]|]; intros [= _ <-]; by try apply recompute_keeps.
  - unfold patchGroup. destruct (groupID _ _) as [gid|]; [|by intros [= _ <-]]. destruct body as [ops|]; [|by intros [= _ <-]].
    destruct (patch_writes _ _ _ _ _) as [r0 d1] eqn:E. apply patch_writes_keeps in E; [|exact Hd].
    destruct r0 as [[[g|] aff]|]; [|destruct (loadGroup _ _)|]; intros [= _ <-]; by try apply recompute_keeps.
  - unfold deleteGroup. destruct (groupID _ _) as [gid|]; [|by intros [= _ <-]].
    destruct (pg_DeleteSCIMGroup _ _ _) as [r0 d1] eqn:E.
    eapply (call_keeps (DeleteSCIMGroup _)) in E; [|exact Hd|reflexivity].
    destruct r0 as [|[]]; intros [= _ <-]; by try apply recompute_keeps.
Qed.
End keeps.

(** ** Access stays current *)

Lemma kept_refl d v : kept d d v.
Proof using Type. by apply kept_same; eauto. Qed.

Lemma setActive_kept now id b d r d' v : setActive uuid_string now id b d = (r, d') -> kept d d' v.
Proof using Type.
  unfold setActive. destruct (pg_UpdateUserAdmin _ _ _ _ _ _) as [[u|e] d1] eqn:E.
  - intros [= _ <-]. by eapply update_active_kept.
  - apply inTx_Err in E as ->. destruct e; intros [= _ <-]; apply kept_refl.
Qed.

Lemma finish_active_kept now id a u d r d' v : finish_active uuid_string now id a u d = (r, d') -> kept d d' v.
Proof using Type.
  unfold finish_active. destruct a as [b|]; [|intros [= _ <-]; apply kept_refl].
  destruct (setActive _ _ _ _ _) as [r0 d1] eqn:E. apply (setActive_kept _ _ _ _ _ _ v) in E. destruct r0; by intros [= _ <-].
Qed.

Lemma update_then_finish_kept now uid dn ext es a d r d' v :
  match pg_UpdateSCIMUser uid dn ext es d with
  | (Err _, d) => (internal, d)
  | (Ok updated, d) => finish_active uuid_string now uid a updated d
  end = (r, d') -> kept d d' v.
Proof using Type.
  destruct (pg_UpdateSCIMUser _ _ _ _ _) as [[u|e] d1] eqn:E.
  - intros H. eapply kept_trans; [by eapply update_scim_user_kept|by eapply finish_active_kept].
  - apply inTx_Err in E as ->. intros [= _ <-]. apply kept_refl.
Qed.

(** A user created without groups is not governed. *)
Lemma create_user_current now newID body d v : users_wf d -> access_current mapping d v ->
  access_current mapping (createUser uuid_string unicode_lower mapping now newID body d).2 v.
Proof using Type.
  intros Hwf Hcur. unfold createUser. destruct body as [p|]; [|done]. destruct (_ || _); [done|].
  destruct (pg_CreateSCIMUser _ _ _ _ _ _ _ _) as [[u|e] d1] eqn:E.
  - apply inTx_Ok in E. tx_invert E. apply insert_user_Ok in Hs as (-> & Hn & _). simpl in *.
    intros w. simpl. rewrite lookup_insert_Some. intros [[<- <-]|[_ Hw]]; [|by apply Hcur].
    intros [?|(dn & (g & r & Hin & _)%group_names_spec & _)]; [done|]. apply (uw_members _ Hwf) in Hin as [_ [w Hw]].
    change (t_users d !! newID = Some w) in Hw. congruence.
  - apply inTx_Err in E as ->. by destruct e.
Qed.

Lemma patch_writes_kept now gid p d g aff d' v : patch_writes uuid_string now gid p d = (Ok (g, aff), d') -> v ∉ aff -> kept d d' v.
Proof using Type.
  unfold patch_writes. intros H Hv. destruct (replaceMembers p) as [ms|].
  { destruct (pg_UpdateSCIMGroup _ _ _ _ _ _ _) as [[[g0 a0]|] d1] eqn:E; [|done]. injection H as <- <- <-.
    eapply update_group_kept; [exact E|]. by rewrite elem_of_list_to_set in Hv. }
  destruct (patch_rename _ _ _ _ _) as [[acc|] d1] eqn:E; [|done].
  assert (v ∉ acc.2 -> kept d d1 v) as H1.
  { unfold patch_rename in E. destruct (newDisplayName p); [|injection E as <- <-; intros _; apply kept_refl].
    destruct (pg_UpdateSCIMGroup _ _ _ _ _ _ _) as [[[g0 a0]|] d2] eqn:E1; [|done]. injection E as <- <-. simpl.
    rewrite elem_of_list_to_set. by eapply update_group_kept. }
  unfold patch_members in H.
  assert ((g, aff) = acc /\ d' = d1 \/ exists g0 a0, aff = acc.2 ∪ list_to_set a0
    /\ pg_ModifySCIMGroupMembers now gid (add_ p) (remove_ p) (group_patch_entry uuid_string gid) d1 = (Ok (g0, a0), d'))
    as [[<- ->]|(g0 & a0 & -> & Hm)].
  { destruct (pg_ModifySCIMGroupMembers _ _ _ _ _ _) as [[[]|] d2]; destruct (add_ p), (remove_ p); simplify_eq; eauto 10. }
  - by apply H1.
  - eapply kept_trans; [apply H1|]. 2: eapply modify_members_kept; [exact Hm|].
    all: intros Hin; apply Hv, elem_of_union; rewrite ?elem_of_list_to_set; auto.
Qed.

Section current.
Context (d : DB) (Hids : customer_ids d) (Hdef : Known (DefaultRole mapping) = true).
Context (Hcur : forall v, access_current mapping d v).

(** Every user but the affected ones keeps their access; those are
    recomputed. *)
Lemma affected_current us d' : t_customers d' = t_customers d -> (forall v, v ∉ us -> kept d d' v) ->
  forall v, access_current mapping (recompute uuid_string mapping us d') v.
Proof using Hids Hdef Hcur.
  intros Hc Hk v. apply recompute_all_current; [by unfold customer_ids; rewrite Hc|done|].
  destruct (decide (v ∈ us)) as [?|Hv]; [by left|right]. eapply kept_current; [by apply Hk|apply Hcur].
Qed.


Lemma handle_current now q r d' : users_wf d -> handle now q d = (r, d') ->
  (match q with PatchGroup _ _ => is_error r = false | _ => True end) -> forall v, access_current mapping d' v.
Proof using Hids Hdef Hcur.
  intros Hwf H Hok.
  assert (t_customers d' = t_customers d) as Hc.
  { change d' with (r, d').2. rewrite <- H. apply (handle_keeps (fun d' => t_customers d' = t_customers d)); [|done].
    intros es d1 op <-. apply user_exec_customers. }
  destruct q; simpl in H.
  - intros v. change d' with (r, d').2. rewrite <- H. by apply create_user_current.
  - unfold putUser in H. destruct (load _ _ _) as [u|]; [|by injection H as _ <-]. destruct body as [p|]; [|by injection H as _ <-].
    intros v. eapply kept_current; [by eapply update_then_finish_kept|apply Hcur].
  - unfold patchUser in H. destruct (load _ _ _) as [u|]; [|by injection H as _ <-]. destruct body as [ops|]; [|by injection H as _ <-].
    intros v. eapply kept_current; [|apply Hcur]. cbv zeta in H.
    destruct (displayDirty _); [by eapply update_then_finish_kept|by eapply finish_active_kept].
  - unfold deleteUser in H. destruct (load _ _ _) as [u|]; [|by injection H as _ <-].
    intros v. eapply kept_current; [|apply Hcur].
    destruct (setActive _ _ _ _ _) as [[u0|r0] d1] eqn:E; injection H as _ <-; by eapply setActive_kept.
  - unfold createGroup in H. destruct body as [p|]; [|by injection H as _ <-]. case_bool_decide; [by injection H as _ <-|].
    destruct (pg_CreateSCIMGroup _ _ _ _ _ _ _) as [[g|e] d1] eqn:E.
    + injection H as <- <-. rewrite recompute_all_customers in Hc. apply affected_current; [exact Hc|].
      intros v. by eapply create_group_kept.
    + apply inTx_Err in E as ->. by destruct e; injection H as _ <-.
  - unfold putGroup in H. destruct (groupID _ _) as [gid|]; [|by injection H as _ <-]. destruct body as [p|]; [|by injection H as _ <-].
    cbv zeta in H. destruct (pg_UpdateSCIMGroup _ _ _ _ _ _ _) as [[[g aff]|e] d1] eqn:E.
    + injection H as <- <-. rewrite recompute_all_customers in Hc. apply affected_current; [exact Hc|].
      intros v. by eapply update_group_kept.
    + apply inTx_Err in E as ->. by injection H as _ <-.
  - unfold patchGroup in H. destruct (groupID _ _) as [gid|]; [|by injection H as <- <-]. destruct body as [ops|]; [|by injection H as <- <-].
    destruct (patch_writes _ _ _ _ _) as [[[g aff]|e] d1] eqn:E.
    + assert (d' = recompute uuid_string mapping (elements aff) d1) as ->.
      { destruct g; [by injection H as _ <-|]. destruct (loadGroup gid d1) as [?|r0] eqn:El; [by injection H as _ <-|].
        injection H as <- _. unfold loadGroup in El. destruct (pg_GetSCIMGroup _ _) as [|[]]; by simplify_eq. }
      rewrite recompute_all_customers in Hc. apply affected_current; [exact Hc|].
      intros v Hv. rewrite elem_of_elements in Hv. by eapply patch_writes_kept.
    + injection H as <- _. by destruct e.
  - unfold deleteGroup in H. destruct (groupID _ _) as [gid|]; [|by injection H as _ <-].
    destruct (pg_DeleteSCIMGroup _ _ _) as [[former|e] d1] eqn:E.
    + injection H as <- <-. rewrite recompute_all_customers in Hc. apply affected_current; [exact Hc|].
      intros v. by eapply delete_group_kept.
    + apply inTx_Err in E as ->. by destruct e; injection H as _ <-.
Qed.
End current.

(** What provisioning relies on and keeps. *)
Record provisioned (d : DB) : Prop := {
  pv_wf : users_wf d;
  pv_customers : customer_ids d;
  pv_admin : has_admin d;
  pv_current : forall v, access_current mapping d v
}.

(** A request, where a PATCH of a group is answered without an error. *)
Definition scim_step (d d' : DB) : Prop := exists now q r, handle now q d = (r, d')
  /\ match q with PatchGroup _ _ => is_error r = false | _ => True end.

Lemma step_provisioned d1 d2 : Known (DefaultRole mapping) = true -> scim_step d1 d2 -> provisioned d1 -> provisioned d2.
Proof using Type.
  intros Hdef (now & q & r & Hh & Hok) [W C A Hcur].
  assert (forall P : DB -> Prop, (forall es d op, P d -> P (user_exec uuid_string es d op)) -> P d1 -> P d2) as Hkeep.
  { intros P Hop Hd. change d2 with (r, d2).2. rewrite <- Hh. by apply handle_keeps. }
  split.
  - apply (Hkeep users_wf); [|done]. intros es d op. apply user_exec_wf.
  - apply (Hkeep customer_ids); [|done]. intros es d op. unfold customer_ids. by rewrite user_exec_customers.
  - apply (Hkeep (fun d => users_wf d /\ has_admin d)); [|done]. intros es d op [? ?].
    split; [by apply user_exec_wf|by apply user_exec_has_admin].
  - by eapply handle_current.
Qed.

End requests.

(** ** Sessions over the provisioned tables *)

Section sessions.
Context `{Tokens.Sha256} (uuid_string : N -> string) (uuid_parse : string -> option N) (unicode_lower : Z -> Z).
Context (mapping : SCIMMapping).

(** The Guard's view of the store. *)
Definition pg_guard_store (d : DB) : GuardStore :=
  MkGuardStore (fun id => pg_GetUser id d) (fun id => Ok (pg_ListUserCustomerIDs id d))
    (fun prefix => Ok (pg_ActiveAPITokensByPrefix prefix d)).

Lemma ListUserCustomerIDs_elem uid d c : c ∈ pg_ListUserCustomerIDs uid d <-> (uid, c) ∈ x_grants (t_ext d).
Proof using Type.
  unfold pg_ListUserCustomerIDs. rewrite list_elem_of_fmap. split.
  - intros ([u c'] & -> & [Hu Hin]%list_elem_of_filter). simpl in *. subst. by apply elem_of_elements in Hin.
  - intros Hin. exists (uid, c). rewrite list_elem_of_filter, elem_of_elements. done.
Qed.

Lemma disable_ends_sessions now id es d a d' :
  pg_UpdateUserAdmin uuid_string now id (MkUserUpdate None (Some true)) es d = (Ok a, d') ->
  forall key data, x_sessions (t_ext d') !! key = Some data -> str_contains (uuid_string id) data = false.
Proof using Type.
  intros Hu. apply inTx_Ok in Hu. unfold update_user_admin in Hu. cbn [tx_when UserUpdate_Role UserUpdate_Disabled] in Hu.
  tx_invert Hu. apply ensureEnabledAdminRemains_Ok in Hs2 as [-> _]. injection Hs0 as _ <-.
  unfold update_disabled, deleteSessionsByUser in Hs1. apply tx_bind_Ok in Hs1 as (u & d2 & _ & Hs1). tx_invert Hs1.
  intros key data. simpl. intros [_ Hd]%map_lookup_filter_Some. exact Hd.
Qed.

Lemma setActive_Ok now id b d u d' : setActive uuid_string now id b d = (Ok u, d') ->
  exists es, pg_UpdateUserAdmin uuid_string now id (MkUserUpdate None (Some (negb b))) es d = (Ok u, d').
Proof using Type.
  unfold setActive. destruct (pg_UpdateUserAdmin _ _ _ _ _ _) as [[u0|e] d1] eqn:E; [|by destruct e].
  intros [= <- <-]. eexists. exact E.
Qed.

Lemma setActive_Err now id b d r d' : setActive uuid_string now id b d = (Err r, d') -> is_error r = true.
Proof using Type.
  unfold setActive. destruct (pg_UpdateUserAdmin _ _ _ _ _ _) as [[u0|[]] d1]; intros [=]; by subst.
Qed.

(** What a 204 to a SCIM DELETE of a user did. *)
Lemma deleteUser_Ok now id uid d d' : users_wf d -> uuid_parse id = Some uid ->
  deleteUser uuid_string uuid_parse now id d = (RNoContent, d') ->
  exists u es, pg_UpdateUserAdmin uuid_string now uid (MkUserUpdate None (Some true)) es d = (Ok u, d').
Proof using Type.
  intros Hwf Hid. unfold deleteUser, load, pg_GetUserWithIdentities. rewrite Hid.
  destruct (t_users d !! uid) as [u|] eqn:Hu; [|done]. simpl. destruct (uw_row _ Hwf _ _ Hu) as [-> _].
  destruct (setActive _ _ _ _ _) as [[u0|r0] d1] eqn:E; intros [= He]; subst.
  - apply setActive_Ok in E as [es E]. by exists u0, es.
  - by apply setActive_Err in E.
Qed.

(** Once a SCIM DELETE of a user is answered with 204, the user's row stays
    but is disabled, no session that names the user is left in the table, and
    the Guard answers any further request of theirs without an API token with
    401, except on the public paths. *)
Theorem deleted_user_is_locked_out now now' id uid d d' fresh s r : users_wf d ->
  deleteUser uuid_string uuid_parse now id d = (RNoContent, d') -> uuid_parse id = Some uid ->
  session_UserID uuid_parse s = Some uid -> looksLikeAPIToken (req_authorization r) = false -> req_path r ∉ publicPaths ->
  Guard uuid_parse (pg_guard_store d') now' fresh s r = (Denied 401 "account_disabled", s)
  /\ (forall key data, x_sessions (t_ext d') !! key = Some data -> str_contains (uuid_string uid) data = false)
  /\ is_Some (t_users d' !! uid).
Proof using Type.
  intros Hwf Hdel Hid Hs Hl Hp. destruct (deleteUser_Ok _ _ _ _ _ Hwf Hid Hdel) as (u0 & es & E).
  pose proof (update_active_Ok _ _ _ _ _ _ _ _ E) as (u & t & Hu & Hus & Ht & _).
  assert (t_users d' !! uid = Some (with_disabled_at t u)) as Hrow by (by rewrite Hus, lookup_insert_eq).
  split; [|split; [by eapply disable_ends_sessions|by eexists]].
  unfold Guard. rewrite bool_decide_false, Hl, Hs by done. simpl. unfold pg_GetUser. rewrite Hrow.
  rewrite bool_decide_true; [done|]. simpl. by apply Ht.
Qed.

(** As long as access is current, a session of a user governed by groups,
    other than an administrator, reaches exactly the customers that the user's
    groups name. *)
Theorem provisioned_session_scope d now fresh s r p s' uid u :
  provisioned mapping d -> t_users d !! uid = Some u -> governed mapping u (group_names uid d) ->
  session_UserID uuid_parse s = Some uid -> looksLikeAPIToken (req_authorization r) = false ->
  Guard uuid_parse (pg_guard_store d) now fresh s r = (Served p, s') -> User_Role u <> RoleAdmin ->
  due_role mapping (group_names uid d) (User_Role (Principal_User p))
  /\ forall c, requireCustomerAccess (Some p) (Some c) = None <-> due_customer mapping (group_names uid d) d c.
Proof using Type.
  intros [Hwf _ _ Hcur] Hu Hg Hs Hl HG Hr. destruct (Hcur uid u Hu Hg) as (Hm & Hrole & Hdue).
  assert (Principal_User p = u) as Hp.
  { revert HG. unfold Guard. case_bool_decide; [done|]. rewrite Hl, Hs. simpl. unfold pg_GetUser. rewrite Hu.
    repeat case_match; by intros [= <- _]. }
  destruct (Guard_scope uuid_parse (pg_guard_store d) now fresh s r p s' Hl HG ltac:(by rewrite Hp)) as (grants & Hgr & Hacc).
  rewrite Hp in *. split; [by destruct Hrole|]. intros c. rewrite Hacc, <- Hdue. simpl in Hgr.
  injection Hgr as <-. destruct (uw_row _ Hwf _ _ Hu) as [-> _]. rewrite ListUserCustomerIDs_elem, Hm.
  split; [intros [?|[_ ?]]; done|by left].
Qed.
End sessions.

(** ** Paging *)

Section paging.
Context (uuid_string : N -> string).

(** A page of the user list starts at startIndex, at least the first user, and
    has count users, or as many as are left; both parameters fall back to
    their defaults when they are not numbers.  When the end of the page
    overflows the machine integer the slice bounds are out of order and the
    handler panics. *)
Theorem listUsers_page users startIndex count : (Z.of_nat (length users) <= int64_max)%Z ->
  let total := Z.of_nat (length users) in
  let start := Z.max 1 (atoiDefault startIndex 1) in
  let n := Z.max 0 (atoiDefault count total) in
  let lo := Z.min (start - 1) total in
  page uuid_string users startIndex count =
    if (lo + n <=? int64_max)%Z
    then RUsers total start (toResource uuid_string <$> take (Z.to_nat n) (drop (Z.to_nat lo) users))
    else RPanic.
Proof.
  intros Hlen total start n lo. unfold page. fold total. fold start n lo.
  assert (0 <= lo <= total)%Z as Hlo by lia.
  assert (0 <= n <= int64_max)%Z as Hn.
  { unfold n, atoiDefault. destruct (Atoi count) as [v|] eqn:E; simpl; [apply Atoi_range in E|]; lia. }
  unfold slice. destruct (Z.leb_spec (lo + n) int64_max) as [Hle|Hgt].
  - rewrite wrap64_id by (unfold in_int64, int64_min in *; lia).
    replace (_ && _ && _) with true by lia. f_equal. f_equal. unfold total in *.
    destruct (Z.le_gt_cases (lo + n) (Z.of_nat (length users))).
    + f_equal. lia.
    + rewrite !take_ge; rewrite ?length_drop; [done|lia..].
  - replace (wrap64 (lo + n)) with (lo + n - 18446744073709551616)%Z.
    + replace (_ && _ && _) with false by (unfold int64_max in *; lia). done.
    + unfold wrap64, int64_min, int64_max in *. rewrite <- (Z.mod_unique _ _ 1 (lo + n - 18446744073709551616 + 9223372036854775808)); lia.
Qed.
End paging.

(** ** Group PATCH *)

Section patch.
Context (uuid_string : N -> string) (uuid_parse : string -> option N) (unicode_lower : Z -> Z).
Context (mapping : SCIMMapping).

Lemma recompute_members us d : x_members (t_ext (recompute uuid_string mapping us d)) = x_members (t_ext d).
Proof using Type.
  unfold recompute. revert d. induction us as [|uid us IH]; intros d; simpl; [done|]. rewrite IH.
  destruct (pg_RecomputeSCIMUserAccess _ _ _ _) as [[a|e] d'] eqn:E; [|by rewrite (inTx_Err _ _ _ _ E)].
  apply recompute_Ok in E as (u & _ & E). cbv zeta in E. simpl. destruct (_ || _); [by destruct E as (_ & _ & _ & ? & _)|by subst].
Qed.

Lemma update_group_members now gid dn ext ms es d g aff d' : pg_UpdateSCIMGroup now gid dn ext (Some ms) es d = (Ok (g, aff), d') ->
  forall u, (gid, u) ∈ x_members (t_ext d') <-> u ∈ ms.
Proof using Type.
  clear uuid_string uuid_parse unicode_lower mapping.
  intros E u. apply inTx_Ok in E. tx_invert E. apply update_group_row_Ok in Hs0 as (-> & _).
  cbn [tx_when] in Hs1. unfold replace_members in Hs1. tx_invert Hs1. apply insertGroupMembers_Ok in Hs1 as [-> _].
  subst. cbn -[union]. rewrite elem_of_pairs, elem_of_filter. simpl. naive_solver.
Qed.

(** A PATCH operation without a path whose value has members makes those the
    members of the group, whatever its verb: an add, and even a remove,
    replaces the membership. *)
Theorem pathless_members_replace now id gid op v dn l d g d' : uuid_parse id = Some gid ->
  trim_space (op_Path op) = "" -> op_Value op = Some (JObj v) ->
  string_ptr_field "displayName" v = Some dn -> members_field v = Some (Some l) ->
  patchGroup uuid_string uuid_parse unicode_lower mapping now id (Some [op]) d = (RGroup 200 g, d') ->
  forall u, (gid, u) ∈ x_members (t_ext d') <-> u ∈ memberIDs uuid_parse l.
Proof using Type.
  intros Hid Hp Hv Hdn Hl. unfold patchGroup, groupID. rewrite Hid. cbn [foldl].
  assert (exists n, patch_group_op uuid_parse unicode_lower (MkGroupPatch None None [] []) op
    = MkGroupPatch n (Some (memberIDs uuid_parse l)) [] []) as [n ->].
  { unfold patch_group_op. rewrite Hp. cbv zeta. change (ToLower unicode_lower "") with "". change (memberFilter "") with (@None string).
    rewrite (bool_decide_false (is_Some None)) by (by intros []). rewrite andb_false_r. simpl. rewrite Hv, Hdn, Hl. by eexists. }
  unfold patch_writes. cbn [replaceMembers newDisplayName].
  destruct (pg_UpdateSCIMGroup _ _ _ _ _ _ _) as [[[g0 aff]|e] d1] eqn:E; intros H.
  - injection H as _ <-. rewrite recompute_members. by eapply update_group_members.
  - destruct e; discriminate.
Qed.
End patch.

(** ** Examples *)

(** Ids written as short numbers. *)
Definition ex_uuid_string (n : N) : string := match n with 1%N => "1" | 2%N => "2" | 9%N => "9" | _ => "77" end.
Definition ex_uuid_parse (s : string) : option N :=
  if bool_decide (s = "1") then Some 1%N else if bool_decide (s = "2") then Some 2%N
  else if bool_decide (s = "9") then Some 9%N else if bool_decide (s = "77") then Some 77%N else None.
Definition ex_lower (r : Z) : Z := r.

Definition ex_handle : Z -> request -> DB -> response * DB := handle ex_uuid_string ex_uuid_parse ex_lower ex_mapping.

(** An administrator and a viewer. *)
Definition ex_two_users : DB := ex_users [ex_user 1 "a@x" "admin" None false; MkUser 2 "b@x" None "viewer" None None None 0 false].

(** The second user is put into a group that makes them an operator. *)
Definition ex_operators : DB := (ex_handle 6 (PostGroup 9 (Some (MkGroupPayload "otel-operator" None ["2"]))) ex_two_users).2.

Definition ex_rename : patchOp := MkPatchOp "replace" "displayName" (Some (JStr "otel-viewer")).
Definition ex_add_unknown : patchOp :=
  MkPatchOp "add" "members" (Some (JArr [JObj [("value", JStr "77")]])).

Definition ex_post_group : request := PostGroup 9 (Some (MkGroupPayload "otel-operator" None ["2"])).
Definition ex_failed_patch : request := PatchGroup "9" (Some [ex_rename; ex_add_unknown]).

Lemma ex_two_users_row i u : t_users ex_two_users !! i = Some u ->
  (i = 1%N \/ i = 2%N) /\ User_ScimManaged u = false /\ (i = 1%N -> u = ex_user 1 "a@x" "admin" None false)
  /\ (i = 2%N -> u = MkUser 2 "b@x" None "viewer" None None None 0 false).
Proof. cbn. rewrite !lookup_insert_Some, lookup_empty. naive_solver. Qed.

Lemma ex_two_users_provisioned : provisioned ex_mapping ex_two_users.
Proof.
  split.
  - split; try (intros; set_solver).
    + intros i u Hu%ex_two_users_row. destruct Hu as ([->| ->] & _ & H1 & H2); [rewrite H1|rewrite H2]; done.
    + intros i j u v Hu%ex_two_users_row Hv%ex_two_users_row.
      destruct Hu as ([->| ->] & _ & H1 & H2), Hv as ([->| ->] & _ & H3 & H4); rewrite ?H1, ?H2, ?H3, ?H4 by done; done.
    + intros i j u v e Hu%ex_two_users_row. destruct Hu as ([->| ->] & _ & H1 & H2); rewrite ?H1, ?H2 by done; done.
  - intros i c. cbn. by rewrite lookup_empty.
  - exists 1%N, (ex_user 1 "a@x" "admin" None false). split; reflexivity.
  - intros v u Hu%ex_two_users_row [Hm|(dn & (g & r & Hin & _)%group_names_spec & _)]; [|by apply elem_of_empty in Hin].
    destruct Hu as (_ & Hf & _). congruence.
Qed.

Lemma ex_operators_provisioned : provisioned ex_mapping ex_operators.
Proof.
  eapply (step_provisioned ex_uuid_string ex_uuid_parse ex_lower); [reflexivity| |apply ex_two_users_provisioned].
  exists 6%Z, ex_post_group. eexists. split; [apply surjective_pairing|exact I].
Qed.

(** A PATCH of a group that renames it and adds a member who does not exist is
    answered with 404, but the rename stays, in a transaction of its own, and
    nobody's access is recomputed: a member keeps the role of the old name. *)
Theorem failed_patch_leaves_stale_access :
  let d := (ex_handle 7 ex_failed_patch ex_operators).2 in
  (ex_handle 7 ex_failed_patch ex_operators).1 = RError 404 "group not found or member is not a known user"
  /\ group_names 2 d = ["otel-viewer"] /\ User_Role <$> t_users d !! 2%N = Some "operator"
  /\ access_current ex_mapping ex_operators 2 /\ ~ access_current ex_mapping d 2.
Proof.
  cbv zeta. assert (group_names 2 (ex_handle 7 ex_failed_patch ex_operators).2 = ["otel-viewer"]) as Hn by (vm_compute; reflexivity).
  split_and!; [vm_compute; reflexivity|exact Hn|vm_compute; reflexivity| |].
  - apply ex_operators_provisioned.
  - intros H. unfold access_current in H. rewrite Hn in H.
    assert (exists u, t_users (ex_handle 7 ex_failed_patch ex_operators).2 !! 2%N = Some u /\ User_ScimManaged u = true /\ User_Role u = "operator")
      as (u & Hu & Hm & Hr) by (eexists; split; [vm_compute; reflexivity|split; reflexivity]).
    destruct (H u Hu (or_introl Hm)) as (_ & [[(dn & Hin & [_ He] & _)|[He _]]|He] & _); rewrite Hr in He; [|discriminate..].
    apply list_elem_of_singleton in Hin. subst. discriminate.
Qed.


(** The role goes with the group. *)
Example ex_operator_roles : (User_Role <$> t_users ex_operators !! 2%N,
  User_Role <$> t_users (ex_handle 8 (DeleteGroup "9") ex_operators).2 !! 2%N) = (Some "operator", Some "viewer").
Proof. vm_compute. reflexivity. Qed.

Definition ex_scim_request : Request := MkRequest "/api/v1/customers" "GET" "" "".

Lemma deleted_user_is_locked_out_witness :
  Guard (H := fun s => s) ex_uuid_parse (pg_guard_store (ex_handle 8 (DeleteUser "2") ex_two_users).2) 9 "new" (MkSession "2" "c") ex_scim_request
    = (Denied 401 "account_disabled", MkSession "2" "c").
Proof.
  refine (proj1 (deleted_user_is_locked_out (H := fun s => s) ex_uuid_string ex_uuid_parse 8 9 "2" 2 ex_two_users _ "new" (MkSession "2" "c")
    ex_scim_request (pv_wf _ _ ex_two_users_provisioned) _ eq_refl eq_refl eq_refl _)).
  - vm_compute. reflexivity.
  - apply (bool_decide_unpack _). vm_compute. exact I.
Defined.

Lemma listUsers_page_witness : listUsers ex_uuid_string (fun s => s) ex_lower "" "2" "9223372036854775807" ex_two_users = RPanic.
Proof.
  change (page ex_uuid_string (pg_ListUsers ex_two_users) "2" "9223372036854775807" = RPanic).
  rewrite (listUsers_page ex_uuid_string (pg_ListUsers ex_two_users) "2" "9223372036854775807") by (vm_compute; discriminate).
  vm_compute. reflexivity.
Defined.

(** The second user, once an operator. *)
Definition ex_op_user : User := with_managed "operator" (MkUser 2 "b@x" None "viewer" None None None 0 false).

Lemma provisioned_session_scope_witness : due_role ex_mapping (group_names 2 ex_operators) "operator" /\ forall c,
  requireCustomerAccess (Some (MkPrincipal ex_op_user "c" false ∅)) (Some c) = None
    <-> due_customer ex_mapping (group_names 2 ex_operators) ex_operators c.
Proof.
  refine (provisioned_session_scope (H := fun s => s) ex_uuid_parse ex_mapping ex_operators 9 "new" (MkSession "2" "c") ex_scim_request
    (MkPrincipal ex_op_user "c" false ∅) (MkSession "2" "c") 2 ex_op_user ex_operators_provisioned _ (or_introl eq_refl) eq_refl eq_refl _ _).
  - vm_compute. reflexivity.
  - vm_compute. reflexivity.
  - discriminate.
Defined.

Definition ex_pathless : patchOp := MkPatchOp "add" "" (Some (JObj [("members", JArr [JObj [("value", JStr "1")]])])).

(** Adding the first user to the group drops the second one. *)
Lemma pathless_members_replace_witness :
  ~ (9%N, 2%N) ∈ x_members (t_ext (ex_handle 8 (PatchGroup "9" (Some [ex_pathless])) ex_operators).2).
Proof.
  assert (exists g, (ex_handle 8 (PatchGroup "9" (Some [ex_pathless])) ex_operators).1 = RGroup 200 g) as [g Hg]
    by (eexists; vm_compute; reflexivity).
  assert (ex_handle 8 (PatchGroup "9" (Some [ex_pathless])) ex_operators
    = (RGroup 200 g, (ex_handle 8 (PatchGroup "9" (Some [ex_pathless])) ex_operators).2)) as H
    by (rewrite <- Hg; apply surjective_pairing).
  intros Hin. apply (pathless_members_replace ex_uuid_string ex_uuid_parse ex_lower ex_mapping 8 "9" 9 ex_pathless
    [("members", JArr [JObj [("value", JStr "1")]])] None ["1"] _ _ _ eq_refl eq_refl eq_refl eq_refl eq_refl H) in Hin.
  revert Hin. apply (bool_decide_unpack _). vm_compute. exact I.
Defined.
