(* ===== verification/PgSettings.v ===== *)
(** The PostgreSQL store, settings: internal/store/pg_webhooks.go,
    pg_alerting.go and pg_billing.go.

    A CHECK constraint or a foreign key the code does not name in its error
    handling makes the statement fail with an error of the driver. *)
From S2P Require Import Prelude GoStrings StoreTypes PgCore PgUsers.
From Stdlib Require Import SpecFloat.

Open Scope string_scope.

(** ** Table setters *)

Definition set_webhooks (f : gmap N Webhook -> gmap N Webhook) : DB -> DB :=
  set_ext (fun x => MkExt (x_identities x) (x_grants x) (x_sessions x) (x_groups x) (x_members x) (f (x_webhooks x))
                      (x_alert_rules x) (x_windows x) (x_billing x) (x_overrides x)).
Definition set_alert_rules (f : gmap N AlertRule -> gmap N AlertRule) : DB -> DB :=
  set_ext (fun x => MkExt (x_identities x) (x_grants x) (x_sessions x) (x_groups x) (x_members x) (x_webhooks x)
                      (f (x_alert_rules x)) (x_windows x) (x_billing x) (x_overrides x)).
Definition set_windows (f : gmap N MaintenanceWindow -> gmap N MaintenanceWindow) : DB -> DB :=
  set_ext (fun x => MkExt (x_identities x) (x_grants x) (x_sessions x) (x_groups x) (x_members x) (x_webhooks x)
                      (x_alert_rules x) (f (x_windows x)) (x_billing x) (x_overrides x)).
Definition set_billing (b : BillingSettings) : DB -> DB :=
  set_ext (fun x => MkExt (x_identities x) (x_grants x) (x_sessions x) (x_groups x) (x_members x) (x_webhooks x)
                      (x_alert_rules x) (x_windows x) b (x_overrides x)).
Definition set_overrides (f : gmap N BillingOverride -> gmap N BillingOverride) : DB -> DB :=
  set_ext (fun x => MkExt (x_identities x) (x_grants x) (x_sessions x) (x_groups x) (x_members x) (x_webhooks x)
                      (x_alert_rules x) (x_windows x) (x_billing x) (f (x_overrides x))).

(** ** Webhooks *)

Record NewWebhook : Type := MkNewWebhook {
  NewWebhook_ID : N;
  NewWebhook_Type : string;
  NewWebhook_Name : string;
  NewWebhook_URL : string;
  NewWebhook_Events : list string;
  NewWebhook_SecretEnc : option string;
  NewWebhook_Enabled : bool;
  NewWebhook_CreatedBy : option N
}.

(** [WebhookUpdate_Events]: [None] for the nil slice. *)
Record WebhookUpdate : Type := MkWebhookUpdate {
  WebhookUpdate_Type : option string;
  WebhookUpdate_Name : option string;
  WebhookUpdate_URL : option string;
  WebhookUpdate_Events : option (list string);
  WebhookUpdate_SecretSet : bool;
  WebhookUpdate_SecretEnc : option string;
  WebhookUpdate_Enabled : option bool
}.

(** [webhooks_type_check] *)
Definition webhook_check (type : string) : bool := bool_decide (type ∈ ["webhook"; "slack"; "pagerduty"; "opsgenie"]).

(** [ORDER BY created_at, id] *)
Definition webhook_before (a b : Webhook) : bool :=
  (Webhook_CreatedAt a <? Webhook_CreatedAt b)%Z
  || (Webhook_CreatedAt a =? Webhook_CreatedAt b)%Z && (Webhook_ID a <? Webhook_ID b)%N.

Definition pg_ListWebhooks (d : DB) : list Webhook := sort_by webhook_before (rows (x_webhooks (t_ext d)) (fun _ => true)).

Definition pg_GetWebhook (id : N) (d : DB) : result Webhook store_err :=
  match x_webhooks (t_ext d) !! id with Some w => Ok w | None => Err ErrNotFound end.

Definition pg_CreateWebhook (now : Z) (w : NewWebhook) (entries : list AuditEntry) : DB -> result Webhook store_err * DB :=
  let row := MkWebhook (NewWebhook_ID w) (NewWebhook_Type w) (NewWebhook_Name w) (NewWebhook_URL w) (NewWebhook_Events w)
               (NewWebhook_SecretEnc w) (NewWebhook_Enabled w) (NewWebhook_CreatedBy w) now now in
  inTx (ok <- tx_get (fun d => webhook_check (NewWebhook_Type w) && user_ref_ok (NewWebhook_CreatedBy w) d
                               && negb (bool_decide (is_Some (x_webhooks (t_ext d) !! NewWebhook_ID w)))) ;;
        tx_check ok (ErrOther "insert webhook") ;;
        tx_exec (set_webhooks (<[NewWebhook_ID w := row]>)) ;;
        audit_Write entries ;;
        tx_ret row).

Definition patch_webhook (now : Z) (upd : WebhookUpdate) (w : Webhook) : Webhook :=
  MkWebhook (Webhook_ID w) (default (Webhook_Type w) (WebhookUpdate_Type upd)) (default (Webhook_Name w) (WebhookUpdate_Name upd))
    (default (Webhook_URL w) (WebhookUpdate_URL upd)) (default (Webhook_Events w) (WebhookUpdate_Events upd))
    (if WebhookUpdate_SecretSet upd then WebhookUpdate_SecretEnc upd else Webhook_SecretEnc w)
    (default (Webhook_Enabled w) (WebhookUpdate_Enabled upd)) (Webhook_CreatedBy w) (Webhook_CreatedAt w) now.

Definition pg_UpdateWebhook (now : Z) (id : N) (upd : WebhookUpdate) (entries : list AuditEntry) : DB -> result Webhook store_err * DB :=
  inTx (w <- tx_read (pg_GetWebhook id) ;;
        let w := patch_webhook now upd w in
        tx_check (webhook_check (Webhook_Type w)) (ErrOther "update webhook") ;;
        tx_exec (set_webhooks (<[id := w]>)) ;;
        audit_Write entries ;;
        tx_ret w).

Definition pg_DeleteWebhook (id : N) (entries : list AuditEntry) : DB -> result unit store_err * DB :=
  inTx (_ <- tx_read (pg_GetWebhook id) ;;
        tx_exec (set_webhooks (delete id)) ;;
        audit_Write entries).

Definition pg_WriteAuditEntries (entries : list AuditEntry) (d : DB) : result unit store_err * DB :=
  match entries with
  | [] => (Ok tt, d)
  | _ => inTx (audit_Write entries) d
  end.

(** ** Alert rules *)

Record NewAlertRule : Type := MkNewAlertRule {
  NewAlertRule_ID : N;
  NewAlertRule_Name : string;
  NewAlertRule_Metric : string;
  NewAlertRule_Query : string;
  NewAlertRule_Comparison : string;
  NewAlertRule_Threshold : spec_float;
  NewAlertRule_WindowSeconds : Z;
  NewAlertRule_Severity : string;
  NewAlertRule_CustomerID : option N;
  NewAlertRule_ChannelIDs : list N;
  NewAlertRule_Enabled : bool
}.

(** [AlertRuleUpdate_ChannelIDs]: [None] for the nil slice. *)
Record AlertRuleUpdate : Type := MkAlertRuleUpdate {
  AlertRuleUpdate_Name : option string;
  AlertRuleUpdate_Metric : option string;
  AlertRuleUpdate_Query : option string;
  AlertRuleUpdate_Comparison : option string;
  AlertRuleUpdate_Threshold : option spec_float;
  AlertRuleUpdate_WindowSeconds : option Z;
  AlertRuleUpdate_Severity : option string;
  AlertRuleUpdate_ChannelIDs : option (list N);
  AlertRuleUpdate_Enabled : option bool
}.

(** The CHECK constraints of alert_rules and the range of an INT column. *)
Definition alert_rule_check (r : AlertRule) : bool :=
  bool_decide (AlertRule_Metric r ∈ ["ingest_items"; "error_logs"; "promql"])
  && bool_decide (AlertRule_Comparison r ∈ ["below"; "above"])
  && ((60 <=? AlertRule_WindowSeconds r) && (AlertRule_WindowSeconds r <=? 2147483647))%Z
  && bool_decide (AlertRule_Severity r ∈ ["info"; "warning"; "critical"])
  && (negb (bool_decide (AlertRule_Metric r = "promql"))
      || negb (bool_decide (AlertRule_Query r = "")) && bool_decide (AlertRule_CustomerID r = None)).

Definition rule_before (a b : AlertRule) : bool :=
  (AlertRule_CreatedAt a <? AlertRule_CreatedAt b)%Z
  || (AlertRule_CreatedAt a =? AlertRule_CreatedAt b)%Z && (AlertRule_ID a <? AlertRule_ID b)%N.

Definition listAlertRules (enabledOnly : bool) (d : DB) : list AlertRule :=
  sort_by rule_before (rows (x_alert_rules (t_ext d)) (fun r => negb enabledOnly || AlertRule_Enabled r)).
Definition pg_ListAlertRules (d : DB) : list AlertRule := listAlertRules false d.
Definition pg_ListEnabledAlertRules (d : DB) : list AlertRule := listAlertRules true d.

Definition pg_GetAlertRule (id : N) (d : DB) : result AlertRule store_err :=
  match x_alert_rules (t_ext d) !! id with Some r => Ok r | None => Err ErrNotFound end.

Definition customer_ref_ok (id : option N) (d : DB) : bool :=
  match id with None => true | Some c => bool_decide (is_Some (t_customers d !! c)) end.

Definition pg_CreateAlertRule (now : Z) (r : NewAlertRule) (entries : list AuditEntry) : DB -> result AlertRule store_err * DB :=
  let severity := if bool_decide (NewAlertRule_Severity r = "") then AlertSeverityWarning else NewAlertRule_Severity r in
  let row := MkAlertRule (NewAlertRule_ID r) (NewAlertRule_Name r) (NewAlertRule_Metric r) (NewAlertRule_Query r)
               (NewAlertRule_Comparison r) (NewAlertRule_Threshold r) (NewAlertRule_WindowSeconds r) severity
               (NewAlertRule_CustomerID r) (NewAlertRule_ChannelIDs r) (NewAlertRule_Enabled r) now now in
  inTx (ok <- tx_get (fun d => alert_rule_check row && negb (bool_decide (is_Some (x_alert_rules (t_ext d) !! NewAlertRule_ID r)))) ;;
        tx_check ok (ErrOther "insert alert rule") ;;
        known <- tx_get (customer_ref_ok (NewAlertRule_CustomerID r)) ;;
        tx_check known ErrNotFound ;;
        tx_exec (set_alert_rules (<[NewAlertRule_ID r := row]>)) ;;
        audit_Write entries ;;
        tx_ret row).

Definition patch_rule (now : Z) (upd : AlertRuleUpdate) (r : AlertRule) : AlertRule :=
  MkAlertRule (AlertRule_ID r) (default (AlertRule_Name r) (AlertRuleUpdate_Name upd))
    (default (AlertRule_Metric r) (AlertRuleUpdate_Metric upd)) (default (AlertRule_Query r) (AlertRuleUpdate_Query upd))
    (default (AlertRule_Comparison r) (AlertRuleUpdate_Comparison upd)) (default (AlertRule_Threshold r) (AlertRuleUpdate_Threshold upd))
    (default (AlertRule_WindowSeconds r) (AlertRuleUpdate_WindowSeconds upd)) (default (AlertRule_Severity r) (AlertRuleUpdate_Severity upd))
    (AlertRule_CustomerID r) (default (AlertRule_ChannelIDs r) (AlertRuleUpdate_ChannelIDs upd))
    (default (AlertRule_Enabled r) (AlertRuleUpdate_Enabled upd)) (AlertRule_CreatedAt r) now.

Definition pg_UpdateAlertRule (now : Z) (id : N) (upd : AlertRuleUpdate) (entries : list AuditEntry) : DB -> result AlertRule store_err * DB :=
  inTx (r <- tx_read (pg_GetAlertRule id) ;;
        let r := patch_rule now upd r in
        tx_check (alert_rule_check r) (ErrOther "update alert rule") ;;
        tx_exec (set_alert_rules (<[id := r]>)) ;;
        audit_Write entries ;;
        tx_ret r).

Definition pg_DeleteAlertRule (id : N) (entries : list AuditEntry) : DB -> result unit store_err * DB :=
  inTx (_ <- tx_read (pg_GetAlertRule id) ;;
        tx_exec (set_alert_rules (delete id)) ;;
        audit_Write entries).

(** ** Maintenance windows *)

Record NewMaintenanceWindow : Type := MkNewMaintenanceWindow {
  NewMaintenanceWindow_ID : N;
  NewMaintenanceWindow_Name : string;
  NewMaintenanceWindow_StartsAt : Z;
  NewMaintenanceWindow_EndsAt : Z
}.

(** [ORDER BY starts_at DESC, id] *)
Definition window_before (a b : MaintenanceWindow) : bool :=
  (MaintenanceWindow_StartsAt b <? MaintenanceWindow_StartsAt a)%Z
  || (MaintenanceWindow_StartsAt a =? MaintenanceWindow_StartsAt b)%Z && (MaintenanceWindow_ID a <? MaintenanceWindow_ID b)%N.

Definition pg_ListMaintenanceWindows (d : DB) : list MaintenanceWindow :=
  sort_by window_before (rows (x_windows (t_ext d)) (fun _ => true)).

Definition pg_ListActiveMaintenanceWindows (at_ : Z) (d : DB) : list MaintenanceWindow :=
  rows (x_windows (t_ext d)) (fun w => (MaintenanceWindow_StartsAt w <=? at_)%Z && (at_ <? MaintenanceWindow_EndsAt w)%Z).

Definition pg_CreateMaintenanceWindow (now : Z) (w : NewMaintenanceWindow) (entries : list AuditEntry)
  : DB -> result MaintenanceWindow store_err * DB :=
  let row := MkMaintenanceWindow (NewMaintenanceWindow_ID w) (NewMaintenanceWindow_Name w) (NewMaintenanceWindow_StartsAt w)
               (NewMaintenanceWindow_EndsAt w) now in
  inTx (ok <- tx_get (fun d => (NewMaintenanceWindow_StartsAt w <? NewMaintenanceWindow_EndsAt w)%Z
                               && negb (bool_decide (is_Some (x_windows (t_ext d) !! NewMaintenanceWindow_ID w)))) ;;
        tx_check ok (ErrOther "insert maintenance window") ;;
        tx_exec (set_windows (<[NewMaintenanceWindow_ID w := row]>)) ;;
        audit_Write entries ;;
        tx_ret row).

Definition pg_DeleteMaintenanceWindow (id : N) (entries : list AuditEntry) : DB -> result unit store_err * DB :=
  inTx (found <- tx_get (fun d => bool_decide (is_Some (x_windows (t_ext d) !! id))) ;;
        tx_check found ErrNotFound ;;
        tx_exec (set_windows (delete id)) ;;
        audit_Write entries).

(** ** Prices *)

Record BillingSettingsUpdate : Type := MkBillingSettingsUpdate {
  BillingSettingsUpdate_PricePerGiBMicro : option Z;
  BillingSettingsUpdate_PricePerMillionItemsMicro : option Z;
  BillingSettingsUpdate_Currency : option string
}.

(** The singleton row always exists: no operation removes it. *)
Definition pg_GetBillingSettings (d : DB) : BillingSettings := x_billing (t_ext d).

Definition patch_billing (now : Z) (upd : BillingSettingsUpdate) (actor : option N) (b : BillingSettings) : BillingSettings :=
  MkBillingSettings (default (BillingSettings_PricePerGiBMicro b) (BillingSettingsUpdate_PricePerGiBMicro upd))
    (default (BillingSettings_PricePerMillionItemsMicro b) (BillingSettingsUpdate_PricePerMillionItemsMicro upd))
    (default (BillingSettings_Currency b) (BillingSettingsUpdate_Currency upd)) now actor.

Definition pg_UpdateBillingSettings (now : Z) (upd : BillingSettingsUpdate) (actor : option N) (entries : list AuditEntry)
  : DB -> result BillingSettings store_err * DB :=
  inTx (b <- tx_get pg_GetBillingSettings ;;
        let b := patch_billing now upd actor b in
        ok <- tx_get (user_ref_ok actor) ;;
        tx_check ok (ErrOther "update billing settings") ;;
        tx_exec (set_billing b) ;;
        audit_Write entries ;;
        tx_ret b).

Definition override_before (a b : BillingOverride) : bool := (BillingOverride_CustomerID a <? BillingOverride_CustomerID b)%N.

(** [ORDER BY customer_id] *)
Definition pg_ListBillingOverrides (d : DB) : list BillingOverride :=
  sort_by override_before (rows (x_overrides (t_ext d)) (fun _ => true)).

Definition pg_SetBillingOverride (now : Z) (customerID : N) (gibMicro itemsMicro : option Z) (actor : option N) (entries : list AuditEntry)
  : DB -> result BillingOverride store_err * DB :=
  let o := MkBillingOverride customerID gibMicro itemsMicro now actor in
  inTx (known <- tx_get (fun d => bool_decide (is_Some (t_customers d !! customerID))) ;;
        tx_check known ErrNotFound ;;
        ok <- tx_get (user_ref_ok actor) ;;
        tx_check ok (ErrOther "set billing override") ;;
        tx_exec (set_overrides (<[customerID := o]>)) ;;
        audit_Write entries ;;
        tx_ret o).

Definition pg_DeleteBillingOverride (customerID : N) (entries : list AuditEntry) : DB -> result unit store_err * DB :=
  inTx (found <- tx_get (fun d => bool_decide (is_Some (x_overrides (t_ext d) !! customerID))) ;;
        tx_check found ErrNotFound ;;
        tx_exec (set_overrides (delete customerID)) ;;
        audit_Write entries).

(** ** The settings stay evaluable *)

Definition settings_wf (d : DB) : Prop :=
  (forall i w, x_webhooks (t_ext d) !! i = Some w -> Webhook_ID w = i /\ webhook_check (Webhook_Type w) = true)
  /\ (forall i r, x_alert_rules (t_ext d) !! i = Some r ->
        AlertRule_ID r = i /\ alert_rule_check r = true /\ customer_ref_ok (AlertRule_CustomerID r) d = true)
  /\ (forall i w, x_windows (t_ext d) !! i = Some w ->
        MaintenanceWindow_ID w = i /\ (MaintenanceWindow_StartsAt w < MaintenanceWindow_EndsAt w)%Z)
  /\ (forall i o, x_overrides (t_ext d) !! i = Some o -> BillingOverride_CustomerID o = i /\ is_Some (t_customers d !! i)).

(** The operations on the settings as requests to the store. *)
Inductive settings_op : Type :=
| OpCreateWebhook (w : NewWebhook)
| OpUpdateWebhook (id : N) (upd : WebhookUpdate)
| OpDeleteWebhook (id : N)
| OpWriteAudit
| OpCreateAlertRule (r : NewAlertRule)
| OpUpdateAlertRule (id : N) (upd : AlertRuleUpdate)
| OpDeleteAlertRule (id : N)
| OpCreateWindow (w : NewMaintenanceWindow)
| OpDeleteWindow (id : N)
| OpUpdateBilling (upd : BillingSettingsUpdate) (actor : option N)
| OpSetOverride (customer : N) (gib items : option Z) (actor : option N)
| OpDeleteOverride (customer : N).

Definition settings_step (now : Z) (es : list AuditEntry) (op : settings_op) (d : DB) : DB :=
  match op with
  | OpCreateWebhook w => (pg_CreateWebhook now w es d).2
  | OpUpdateWebhook id upd => (pg_UpdateWebhook now id upd es d).2
  | OpDeleteWebhook id => (pg_DeleteWebhook id es d).2
  | OpWriteAudit => (pg_WriteAuditEntries es d).2
  | OpCreateAlertRule r => (pg_CreateAlertRule now r es d).2
  | OpUpdateAlertRule id upd => (pg_UpdateAlertRule now id upd es d).2
  | OpDeleteAlertRule id => (pg_DeleteAlertRule id es d).2
  | OpCreateWindow w => (pg_CreateMaintenanceWindow now w es d).2
  | OpDeleteWindow id => (pg_DeleteMaintenanceWindow id es d).2
  | OpUpdateBilling upd a => (pg_UpdateBillingSettings now upd a es d).2
  | OpSetOverride c g i a => (pg_SetBillingOverride now c g i a es d).2
  | OpDeleteOverride c => (pg_DeleteBillingOverride c es d).2
  end.

Lemma settings_wf_ext d d' : t_ext d' = t_ext d -> t_customers d' = t_customers d -> settings_wf d -> settings_wf d'.
Proof. unfold settings_wf, customer_ref_ok. by intros -> ->. Qed.

Lemma insert_rows {A} (P : N -> A -> Prop) (m : gmap N A) i x : P i x -> (forall j y, m !! j = Some y -> P j y) ->
  forall j y, <[i := x]> m !! j = Some y -> P j y.
Proof. intros Hx Hm j y. rewrite lookup_insert_Some. intros [[<- <-]|[_ ?]]; [done|by apply Hm]. Qed.

Lemma delete_rows {A} (P : N -> A -> Prop) (m : gmap N A) i : (forall j y, m !! j = Some y -> P j y) ->
  forall j y, delete i m !! j = Some y -> P j y.
Proof. intros Hm j y. rewrite lookup_delete_Some. intros [_ ?]. by apply Hm. Qed.

(** A rule that meets the constraints of its table is one the evaluator knows. *)
Lemma alert_rule_check_spec r : alert_rule_check r = true ->
  AlertRule_Metric r ∈ ["ingest_items"; "error_logs"; "promql"] /\ AlertRule_Comparison r ∈ ["below"; "above"]
  /\ (60 <= AlertRule_WindowSeconds r <= 2147483647)%Z /\ AlertRule_Severity r ∈ ["info"; "warning"; "critical"]
  /\ (AlertRule_Metric r = "promql" -> AlertRule_Query r <> "" /\ AlertRule_CustomerID r = None).
Proof.
  unfold alert_rule_check. rewrite !andb_true_iff, orb_true_iff, andb_true_iff, !negb_true_iff, !bool_decide_eq_true, !bool_decide_eq_false,
    !Z.leb_le. tauto.
Qed.

Lemma inTx_settings {A} (f : tx A) d : (forall a d', f d = Ok (a, d') -> settings_wf d -> settings_wf d') ->
  settings_wf d -> settings_wf (inTx f d).2.
Proof. intros Hf. apply inTx_keeps. eauto. Qed.

Lemma settings_step_wf now es op d : settings_wf d -> settings_wf (settings_step now es op d).
Proof.
  intros W. destruct op; simpl; try (unfold pg_WriteAuditEntries; destruct es; [done|]); apply inTx_settings; try exact W;
    intros res d' H (W1 & W2 & W3 & W4); tx_invert H; subst; rewrite ?andb_true_iff, ?negb_true_iff in *;
    (split; [|split; [|split]]); simpl; try done.
  - apply insert_rows; [|done]. simpl. tauto.
  - apply insert_rows; [|done]. unfold pg_GetWebhook in *. case_match; simplify_eq. split; [|done]. simpl. by apply W1.
  - by apply delete_rows.
  - apply insert_rows; [|done]. simpl. tauto.
  - apply insert_rows; [|done]. unfold pg_GetAlertRule in *. case_match; simplify_eq. simpl. split; [by apply W2|]. split; [done|].
    by eapply W2.
  - by apply delete_rows.
  - apply insert_rows; [|done]. simpl. rewrite <- Z.ltb_lt. tauto.
  - by apply delete_rows.
  - apply insert_rows; [|done]. split; [done|]. by apply bool_decide_eq_true in Hs.
  - by apply delete_rows.
Qed.

Definition settings_run (now : N -> Z) (ops : list (list AuditEntry * settings_op)) (d : DB) : DB :=
  (foldl (fun p op => (p.1 + 1, settings_step (now p.1) op.1 op.2 p.2)%N) (0%N, d) ops).2.

Lemma settings_run_wf now ops d : settings_wf d -> settings_wf (settings_run now ops d).
Proof.
  unfold settings_run. generalize 0%N. revert d. induction ops as [|[es op] ops IH]; intros d n W; [done|].
  simpl. apply IH. by apply settings_step_wf.
Qed.

Lemma rows_key_NoDup {A} (id : A -> N) (m : gmap N A) p : (forall i x, m !! i = Some x -> id x = i) -> NoDup (id <$> rows m p).
Proof.
  intros Hid. unfold rows. apply (sublist_NoDup _ (id <$> (snd <$> map_to_list m))).
  2: { apply fmap_sublist, sublist_filter. }
  replace (id <$> _) with (fst <$> map_to_list m); [apply NoDup_fst_map_to_list|].
  rewrite <- list_fmap_compose. apply list_fmap_ext. intros k [i x] Hk. simpl. symmetry. apply Hid.
  apply elem_of_map_to_list, list_elem_of_lookup. by exists k.
Qed.

(** Whatever sequence of requests reaches the settings, every stored alert
    rule the evaluator loads is one it knows how to evaluate (a known metric and
    comparison, a window of at least a minute, a query and no customer when it
    is a PromQL rule), names an existing customer if any, and is loaded once;
    a window that mutes notifications is active for a moment only if it was
    planned around that moment. *)
Theorem settings_stay_evaluable now ops d : settings_wf d ->
  let d' := settings_run now ops d in
  NoDup (AlertRule_ID <$> pg_ListEnabledAlertRules d')
  /\ (forall r, r ∈ pg_ListEnabledAlertRules d' <->
        x_alert_rules (t_ext d') !! AlertRule_ID r = Some r /\ AlertRule_Enabled r = true)
  /\ (forall r, r ∈ pg_ListEnabledAlertRules d' ->
        AlertRule_Metric r ∈ ["ingest_items"; "error_logs"; "promql"] /\ AlertRule_Comparison r ∈ ["below"; "above"]
        /\ (60 <= AlertRule_WindowSeconds r <= 2147483647)%Z
        /\ (AlertRule_Metric r = "promql" -> AlertRule_Query r <> "" /\ AlertRule_CustomerID r = None)
        /\ customer_ref_ok (AlertRule_CustomerID r) d' = true)
  /\ (forall t w, w ∈ pg_ListActiveMaintenanceWindows t d' ->
        x_windows (t_ext d') !! MaintenanceWindow_ID w = Some w /\ (MaintenanceWindow_StartsAt w <= t < MaintenanceWindow_EndsAt w)%Z).
Proof.
  intros W d'. apply (settings_run_wf now ops) in W. fold d' in W. destruct W as (_ & W2 & W3 & _).
  assert (forall r, r ∈ pg_ListEnabledAlertRules d' <->
        x_alert_rules (t_ext d') !! AlertRule_ID r = Some r /\ AlertRule_Enabled r = true) as Hin.
  { intros r. unfold pg_ListEnabledAlertRules, listAlertRules. rewrite sort_by_perm, rows_elem. simpl. split.
    - intros (He & i & Hi). destruct (W2 _ _ Hi) as [-> _]. done.
    - intros [Hi He]. split; [done|]. by eexists. }
  split_and!; [|exact Hin| |].
  - unfold pg_ListEnabledAlertRules, listAlertRules. rewrite sort_by_perm. apply rows_key_NoDup. intros i r Hi. by apply W2.
  - intros r [Hi _]%Hin. destruct (W2 _ _ Hi) as (_ & (H1 & H2 & H3 & _ & H4)%alert_rule_check_spec & H5). done.
  - intros t w (Hb & i & Hi)%rows_elem. destruct (W3 _ _ Hi) as [-> _].
    apply andb_true_iff in Hb as [?%Z.leb_le ?%Z.ltb_lt]. done.
Qed.

(** ** Examples *)

Lemma empty_settings_wf : settings_wf empty_db.
Proof. split_and!; intros i *; simpl; rewrite lookup_empty; discriminate. Qed.

Definition ex_rule (id : N) (metric query : string) : NewAlertRule :=
  MkNewAlertRule id "quiet" metric query "below" (S754_zero false) 300 "" None [] true.
Definition ex_settings_ops : list (list AuditEntry * settings_op) :=
  [([], OpCreateAlertRule (ex_rule 1 "ingest_items" "")); ([], OpCreateAlertRule (ex_rule 2 "promql" ""));
   ([], OpUpdateAlertRule 1 (MkAlertRuleUpdate None (Some "promql") None None None None None None None));
   ([], OpCreateWindow (MkNewMaintenanceWindow 3 "night" 10 20)); ([], OpCreateWindow (MkNewMaintenanceWindow 4 "never" 20 20))].

(** The second rule has no query and the update would take the first one's
    away: both statements fail. *)
Lemma settings_stay_evaluable_witness :
  AlertRule_ID <$> pg_ListEnabledAlertRules (settings_run Z.of_N ex_settings_ops empty_db) = [1%N]
  /\ NoDup (AlertRule_ID <$> pg_ListEnabledAlertRules (settings_run Z.of_N ex_settings_ops empty_db))
  /\ MaintenanceWindow_ID <$> pg_ListActiveMaintenanceWindows 15 (settings_run Z.of_N ex_settings_ops empty_db) = [3%N].
Proof.
  split; [vm_compute; reflexivity|]. split; [|vm_compute; reflexivity].
  exact (proj1 (settings_stay_evaluable Z.of_N ex_settings_ops empty_db empty_settings_wf)).
Defined.
