(* ===== verification/ApiCore.v ===== *)
(** The REST layer, common parts: internal/api/httpjson.go, the error handling
    of router.go, and the principal of a request.

    The context of a request is its principal, if the Guard put one there; the
    body and the parameters are decoded already.  A handler returns a response,
    an error response, or an error that the router turns into one. *)
From S2P Require Import Prelude GoStrings Json StoreTypes Authz PgCore.

Open Scope string_scope.

Definition codeForbidden : string := "forbidden".
Definition codeNotFound : string := "not_found".
Definition codeBadRequest : string := "bad_request".
Definition codeConflict : string := "conflict".
Definition codeInternal : string := "internal".
Definition codeUnauthorized : string := "unauthorized".
Definition codeUpstream : string := "upstream_unavailable".

Inductive handler_err : Type :=
| badRequestError (msg : string)
| forbiddenError (f : forbidden)
| otherError.

Inductive outcome (A : Type) : Type :=
| Success (status : Z) (body : A)
| Failure (status : Z) (code message : string)
| Raised (e : handler_err).
Arguments Success {A} status body.
Arguments Failure {A} status code message.
Arguments Raised {A} e.

Definition forbidden_message (f : forbidden) : string :=
  match f with
  | errNoCustomerAccess => "you do not have access to this customer"
  | errNeedsAllCustomers => "this action requires access to all customers"
  end.

(** [ResponseErrorHandlerFunc] *)
Definition respond {A} (o : outcome A) : outcome A :=
  match o with
  | Raised (badRequestError msg) => Failure 400 codeBadRequest msg
  | Raised (forbiddenError f) => Failure 403 codeForbidden (forbidden_message f)
  | Raised otherError => Failure 500 codeInternal "internal server error"
  | o => o
  end.

Definition status_of {A} (o : outcome A) : Z :=
  match respond o with Success s _ | Failure s _ _ => s | Raised _ => 500 end.

Definition bad_request {A} (msg : string) : outcome A := Failure 400 codeBadRequest msg.
Definition not_found {A} (msg : string) : outcome A := Failure 404 codeNotFound msg.
Definition conflict {A} (msg : string) : outcome A := Failure 409 codeConflict msg.

(** [actorID]: the zero id of a token without a creator is no actor. *)
Definition actorID (p : option Principal) : option N :=
  match p with
  | Some p => if bool_decide (User_ID (Principal_User p) = uuid_nil) then None else Some (User_ID (Principal_User p))
  | None => None
  end.

(** A scope check in front of a handler that leaves the state [w]. *)
Definition checked {A W} (f : option forbidden) (w : W) (k : outcome A * W) : outcome A * W :=
  match f with
  | Some f => (Raised (forbiddenError f), w)
  | None => k
  end.

(** [int] query parameters clamped to a range. *)
Definition clamp_limit (def max : Z) (limit : option Z) : Z :=
  let l := default def limit in
  let l := if (l <? 1)%Z then 1%Z else l in
  if (max <? l)%Z then max else l.

Definition opt_json {A} (f : A -> jval) (o : option A) : jval := match o with Some a => f a | None => JNull end.

Definition user_audit (p : option Principal) (action entityType entityID : string) (customer : option N) (payload : option jval)
  : list AuditEntry := [MkAuditEntry (actorID p) "" action entityType entityID customer payload].

Lemma clamp_limit_range def max limit : (1 <= max)%Z -> (1 <= clamp_limit def max limit <= max)%Z.
Proof. unfold clamp_limit. intros. destruct (Z.ltb_spec (default def limit) 1); case_match; lia. Qed.
