(* ===== verification/Billing.v ===== *)
(** Metered billing: internal/stats/cost.go, internal/billing/billing.go and
    internal/api/handlers_billing.go.

    ClickHouse is an input: for every region the rows of the aggregation, whose
    sums are uint64, or a failure.  [sort.Slice] is the insertion sort of the
    prelude; [big.Int.Int64] keeps the low 64 bits. *)
From S2P Require Import Prelude GoStrings Json GoFormat StoreTypes Authz PgCore PgUsers PgSettings ApiCore.
From Stdlib Require Import Ascii.

Open Scope string_scope.

(** ** Usage *)

Record CostDay : Type := MkCostDay { CostDay_Date : Z; CostDay_Items : Z; CostDay_Bytes : Z }.

Record CustomerCost : Type := MkCustomerCost {
  CustomerCost_CustomerID : N;
  CustomerCost_Name : string;
  CustomerCost_Items : Z;
  CustomerCost_Bytes : Z;
  CustomerCost_Days : list CostDay
}.

(** One row of the query: tenant, day, and the two sums. *)
Record cost_row : Type := MkCostRow { cr_tenant : string; cr_day : Z; cr_items : Z; cr_bytes : Z }.

(** [perTenant] with [tenantOrder]: the tenants in the order first seen. *)
Fixpoint add_row (r : cost_row) (acc : list (string * CustomerCost)) : list (string * CustomerCost) :=
  let items := wrap64 (cr_items r) in
  let bytes := wrap64 (cr_bytes r) in
  match acc with
  | [] => [(cr_tenant r, MkCustomerCost uuid_nil "" items bytes [MkCostDay (cr_day r) items bytes])]
  | (t, c) :: acc =>
      if bool_decide (t = cr_tenant r)
      then (t, MkCustomerCost (CustomerCost_CustomerID c) (CustomerCost_Name c) (wrap64 (CustomerCost_Items c + items))
                 (wrap64 (CustomerCost_Bytes c + bytes)) (CustomerCost_Days c ++ [MkCostDay (cr_day r) items bytes])) :: acc
      else (t, c) :: add_row r acc
  end.

Definition add_rows (acc : list (string * CustomerCost)) (rs : list cost_row) : list (string * CustomerCost) :=
  foldl (fun acc r => add_row r acc) acc rs.

(** The fan-out over the regions. *)
Fixpoint collect (acc : list (string * CustomerCost)) (regions : list (option (list cost_row)))
  : option (list (string * CustomerCost)) :=
  match regions with
  | [] => Some acc
  | None :: _ => None
  | Some rs :: regions => collect (add_rows acc rs) regions
  end.

(** The later of two refs with the same client id wins in [byClientID]. *)
Definition ref_of (refs : list CustomerRef) (tenant : string) : option CustomerRef :=
  last (filter (fun r => CustomerRef_ClientID r = tenant) refs).

Definition cost_before (a b : CustomerCost) : bool :=
  if negb (CustomerCost_Bytes a =? CustomerCost_Bytes b)%Z then (CustomerCost_Bytes b <? CustomerCost_Bytes a)%Z
  else str_lt (CustomerCost_Name a) (CustomerCost_Name b).

(** [None] for ErrUpstreamUnavailable. *)
Definition GetCost (usage : list (option (list cost_row))) (d : DB) : option (list CustomerCost) :=
  perTenant ← collect [] usage;
  Some (sort_by cost_before
          (omap (fun tc => r ← ref_of (pg_ListCustomerRefs d) tc.1;
                           Some (MkCustomerCost (CustomerRef_ID r) (CustomerRef_Name r) (CustomerCost_Items tc.2)
                                   (CustomerCost_Bytes tc.2) (CustomerCost_Days tc.2)))
             perTenant)).

(** ** Statements *)

Definition bytesPerGiB : Z := Z.shiftl 1 30.

Record Line : Type := MkLine {
  Line_CustomerID : N;
  Line_Name : string;
  Line_Items : Z;
  Line_Bytes : Z;
  Line_BytesCostMicro : Z;
  Line_ItemsCostMicro : Z;
  Line_TotalMicro : Z;
  Line_Overridden : bool
}.

Record Statement : Type := MkStatement {
  Statement_Month : string;
  Statement_Currency : string;
  Statement_PricePerGiBMicro : Z;
  Statement_PricePerMillionItemsMicro : Z;
  Statement_Lines : list Line;
  Statement_TotalMicro : Z
}.

Definition mulDiv (price qty divisor : Z) : Z :=
  if (price <=? 0)%Z || (qty <=? 0)%Z || (divisor <=? 0)%Z then 0%Z
  else wrap64 (Z.quot (price * qty) divisor).

(** The prices of a customer, and whether an override set one. *)
Definition prices (s : BillingSettings) (overrides : gmap N BillingOverride) (id : N) : Z * Z * bool :=
  match overrides !! id with
  | None => (BillingSettings_PricePerGiBMicro s, BillingSettings_PricePerMillionItemsMicro s, false)
  | Some ov =>
      (default (BillingSettings_PricePerGiBMicro s) (BillingOverride_PricePerGiBMicro ov),
       default (BillingSettings_PricePerMillionItemsMicro s) (BillingOverride_PricePerMillionItemsMicro ov),
       bool_decide (is_Some (BillingOverride_PricePerGiBMicro ov)) || bool_decide (is_Some (BillingOverride_PricePerMillionItemsMicro ov)))
  end.

Definition line_of (s : BillingSettings) (overrides : gmap N BillingOverride) (c : CustomerCost) : Line :=
  let '(gib, items, overridden) := prices s overrides (CustomerCost_CustomerID c) in
  let bytesCost := mulDiv gib (CustomerCost_Bytes c) bytesPerGiB in
  let itemsCost := mulDiv items (CustomerCost_Items c) 1000000 in
  MkLine (CustomerCost_CustomerID c) (CustomerCost_Name c) (CustomerCost_Items c) (CustomerCost_Bytes c)
    bytesCost itemsCost (wrap64 (bytesCost + itemsCost)) overridden.

Definition line_before (a b : Line) : bool :=
  if negb (Line_TotalMicro a =? Line_TotalMicro b)%Z then (Line_TotalMicro b <? Line_TotalMicro a)%Z
  else str_lt (Line_Name a) (Line_Name b).

Definition Compute_ (month : string) (costs : list CustomerCost) (s : BillingSettings) (overrides : gmap N BillingOverride) : Statement :=
  let lines := line_of s overrides <$> costs in
  MkStatement month (BillingSettings_Currency s) (BillingSettings_PricePerGiBMicro s) (BillingSettings_PricePerMillionItemsMicro s)
    (sort_by line_before lines) (foldl (fun acc l => wrap64 (acc + Line_TotalMicro l)) 0%Z lines).

(** ** Handlers *)

Record api_BillingSettings : Type := MkApiBillingSettings {
  abs_PricePerGibMicro : Z;
  abs_PricePerMillionItemsMicro : Z;
  abs_Currency : string;
  abs_UpdatedAt : Z
}.

Definition toBillingSettings (b : BillingSettings) : api_BillingSettings :=
  MkApiBillingSettings (BillingSettings_PricePerGiBMicro b) (BillingSettings_PricePerMillionItemsMicro b)
    (BillingSettings_Currency b) (BillingSettings_UpdatedAt b).

Definition GetBillingSettings (d : DB) : outcome api_BillingSettings := Success 200 (toBillingSettings (pg_GetBillingSettings d)).

Definition negative (o : option Z) : bool := match o with Some z => (z <? 0)%Z | None => false end.

Definition UpdateBillingSettings (now : Z) (p : option Principal) (gib items : option Z) (currency : option string) (d : DB)
  : outcome api_BillingSettings * DB :=
  if negative gib then (bad_request "pricePerGibMicro must be >= 0", d)
  else if negative items then (bad_request "pricePerMillionItemsMicro must be >= 0", d)
  else if match currency with Some c => negb (len c =? 3)%Z | None => false end then (bad_request "currency must be a 3-letter code", d)
  else match pg_UpdateBillingSettings now (MkBillingSettingsUpdate gib items currency) (actorID p)
               (user_audit p "billing.settings.update" "billing_settings" "singleton" None None) d with
       | (Err _, d) => (Raised otherError, d)
       | (Ok b, d) => (Success 200 (toBillingSettings b), d)
       end.

(** [time.Parse("2006-01", s)]: year and month. *)
Definition parse_month (s : string) : option (Z * Z) :=
  match bytes_of s with
  | [a; b; c; d; sep; e; f] =>
      if forallb is_digit [a; b; c; d; e; f] && bool_decide (sep = "-"%char) then
        let y := ((byte_val a - 48) * 1000 + (byte_val b - 48) * 100 + (byte_val c - 48) * 10 + (byte_val d - 48))%Z in
        let m := ((byte_val e - 48) * 10 + (byte_val f - 48))%Z in
        if ((1 <=? m) && (m <=? 12))%Z then Some (y, m) else None
      else None
  | _ => None
  end.

(** The first day of a month, counted from 1970-01-01. *)
Definition month_start (ym : Z * Z) : Z :=
  let '(y, m) := ym in
  let y := if (m <=? 2)%Z then (y - 1)%Z else y in
  let era := (y / 400)%Z in
  let yoe := (y - era * 400)%Z in
  let mp := ((m + 9) mod 12)%Z in
  let doy := ((153 * mp + 2) / 5)%Z in
  (era * 146097 + (yoe * 365 + yoe / 4 - yoe / 100 + doy) - 719468)%Z.

(** [AddDate(0, 1, 0)] of the first day of a month. *)
Definition next_month (ym : Z * Z) : Z * Z := if (ym.2 =? 12)%Z then (ym.1 + 1, 1)%Z else (ym.1, ym.2 + 1)%Z.

Definition day_time (day : Z) : Z := (day * 86400 * second)%Z.

Definition overrides_map (l : list BillingOverride) : gmap N BillingOverride :=
  foldl (fun m o => <[BillingOverride_CustomerID o := o]> m) ∅ l.

(** [usage from to]: what the stores of the regions answer for the range. *)
Definition GetBillingStatement (usage : Z -> Z -> list (option (list cost_row))) (month : string) (d : DB) : outcome Statement :=
  match parse_month month with
  | None => bad_request "month must be YYYY-MM"
  | Some ym =>
      let from := day_time (month_start ym) in
      let to := day_time (month_start (next_month ym)) in
      match GetCost (usage from to) d with
      | None => Raised (badRequestError "usage backend unavailable")
      | Some costs => Success 200 (Compute_ month costs (pg_GetBillingSettings d) (overrides_map (pg_ListBillingOverrides d)))
      end
  end.

Record api_BillingOverride : Type := MkApiBillingOverride {
  abo_CustomerId : N;
  abo_CustomerName : string;
  abo_PricePerGibMicro : option Z;
  abo_PricePerMillionItemsMicro : option Z;
  abo_UpdatedAt : Z
}.

Definition toBillingOverride (o : BillingOverride) (name : string) : api_BillingOverride :=
  MkApiBillingOverride (BillingOverride_CustomerID o) name (BillingOverride_PricePerGiBMicro o)
    (BillingOverride_PricePerMillionItemsMicro o) (BillingOverride_UpdatedAt o).

Definition ListBillingOverrides (d : DB) : outcome (list api_BillingOverride) :=
  let name id := default "" (CustomerRef_Name <$> last (filter (fun r => CustomerRef_ID r = id) (pg_ListCustomerRefs d))) in
  Success 200 ((fun o => toBillingOverride o (name (BillingOverride_CustomerID o))) <$> pg_ListBillingOverrides d).

Definition SetBillingOverride (uuid_string : N -> string) (now : Z) (p : option Principal) (id : N) (gib items : option Z) (d : DB)
  : outcome api_BillingOverride * DB :=
  if bool_decide (gib = None) && bool_decide (items = None)
  then (bad_request "provide at least one price, or DELETE to revert to global pricing", d)
  else if negative gib then (bad_request "pricePerGibMicro must be >= 0", d)
  else if negative items then (bad_request "pricePerMillionItemsMicro must be >= 0", d)
  else match pg_GetCustomer id d with
       | Err ErrNotFound => (not_found "customer not found", d)
       | Err _ => (Raised otherError, d)
       | Ok cust =>
           match pg_SetBillingOverride now id gib items (actorID p)
                   (user_audit p "billing.override.set" "billing_price_override" (uuid_string id) (Some id)
                      (Some (JObj [("pricePerGibMicro", opt_json JInt gib); ("pricePerMillionItemsMicro", opt_json JInt items)]))) d with
           | (Err ErrNotFound, d) => (not_found "customer not found", d)
           | (Err _, d) => (Raised otherError, d)
           | (Ok saved, d) => (Success 200 (toBillingOverride saved (Customer_Name cust)), d)
           end
       end.

Definition DeleteBillingOverride (uuid_string : N -> string) (p : option Principal) (id : N) (d : DB) : outcome unit * DB :=
  match pg_DeleteBillingOverride id (user_audit p "billing.override.delete" "billing_price_override" (uuid_string id) (Some id) None) d with
  | (Err ErrNotFound, d) => (not_found "override not found", d)
  | (Err _, d) => (Raised otherError, d)
  | (Ok _, d) => (Success 204 tt, d)
  end.

(** ** Exact amounts *)

Fixpoint zsum {A} (f : A -> Z) (l : list A) : Z :=
  match l with [] => 0%Z | x :: l => (f x + zsum f l)%Z end.

Lemma zsum_nonneg {A} (f : A -> Z) l : (forall x, x ∈ l -> (0 <= f x)%Z) -> (0 <= zsum f l)%Z.
Proof.
  induction l as [|x l IH]; simpl; intros H; [lia|].
  pose proof (H x ltac:(left)). specialize (IH ltac:(intros y Hy; apply H; by right)). lia.
Qed.

Lemma zsum_perm {A} (f : A -> Z) l l' : l ≡ₚ l' -> zsum f l = zsum f l'.
Proof. induction 1; simpl; lia. Qed.

Lemma zsum_app {A} (f : A -> Z) l l' : zsum f (l ++ l') = (zsum f l + zsum f l')%Z.
Proof. induction l; simpl; lia. Qed.

(** The amount due for a quantity, rounded down, in exact arithmetic. *)
Definition amount (price qty divisor : Z) : Z := (Z.max 0 price * Z.max 0 qty / divisor)%Z.

Lemma amount_nonneg price qty divisor : (0 < divisor)%Z -> (0 <= amount price qty divisor)%Z.
Proof. intros. apply Z.div_pos; [|done]. apply Z.mul_nonneg_nonneg; lia. Qed.

Lemma mulDiv_amount price qty divisor : (0 < divisor)%Z -> (amount price qty divisor <= int64_max)%Z ->
  mulDiv price qty divisor = amount price qty divisor.
Proof.
  intros Hd Hle. pose proof (amount_nonneg price qty divisor Hd). unfold mulDiv, amount in *.
  destruct (Z.leb_spec price 0); [by rewrite (Z.max_l 0 price) by lia; rewrite Z.mul_0_l, Z.div_0_l by lia|].
  destruct (Z.leb_spec qty 0); [by rewrite (Z.max_l 0 qty) by lia; rewrite Z.mul_0_r, Z.div_0_l by lia|].
  destruct (Z.leb_spec divisor 0); [lia|]. cbn [orb].
  rewrite (Z.max_r 0 price), (Z.max_r 0 qty) in * by lia. rewrite Z.quot_div_nonneg by lia.
  apply wrap64_id. unfold in_int64, int64_min, int64_max in *. lia.
Qed.

(** The rate of one dimension: the one the customer's override sets, or else the
    global one. *)
Definition rate (field : BillingOverride -> option Z) (global : Z) (ov : gmap N BillingOverride) (id : N) : Z :=
  default global (ov !! id ≫= field).

Definition has_rate (field : BillingOverride -> option Z) (ov : gmap N BillingOverride) (id : N) : bool :=
  bool_decide (is_Some (ov !! id ≫= field)).

Lemma prices_rates s ov id : prices s ov id =
  (rate BillingOverride_PricePerGiBMicro (BillingSettings_PricePerGiBMicro s) ov id,
   rate BillingOverride_PricePerMillionItemsMicro (BillingSettings_PricePerMillionItemsMicro s) ov id,
   has_rate BillingOverride_PricePerGiBMicro ov id || has_rate BillingOverride_PricePerMillionItemsMicro ov id).
Proof. unfold prices, rate, has_rate. by destruct (ov !! id). Qed.

(** What the usage of a customer costs. *)
Definition exact_bytes (s : BillingSettings) (ov : gmap N BillingOverride) (c : CustomerCost) : Z :=
  amount (rate BillingOverride_PricePerGiBMicro (BillingSettings_PricePerGiBMicro s) ov (CustomerCost_CustomerID c))
    (CustomerCost_Bytes c) bytesPerGiB.
Definition exact_items (s : BillingSettings) (ov : gmap N BillingOverride) (c : CustomerCost) : Z :=
  amount (rate BillingOverride_PricePerMillionItemsMicro (BillingSettings_PricePerMillionItemsMicro s) ov (CustomerCost_CustomerID c))
    (CustomerCost_Items c) 1000000.
Definition exact_total (s : BillingSettings) (ov : gmap N BillingOverride) (c : CustomerCost) : Z :=
  (exact_bytes s ov c + exact_items s ov c)%Z.

Definition exact_line (s : BillingSettings) (ov : gmap N BillingOverride) (c : CustomerCost) : Line :=
  MkLine (CustomerCost_CustomerID c) (CustomerCost_Name c) (CustomerCost_Items c) (CustomerCost_Bytes c)
    (exact_bytes s ov c) (exact_items s ov c) (exact_total s ov c)
    (has_rate BillingOverride_PricePerGiBMicro ov (CustomerCost_CustomerID c)
       || has_rate BillingOverride_PricePerMillionItemsMicro ov (CustomerCost_CustomerID c)).

Lemma exact_nonneg s ov c : (0 <= exact_bytes s ov c)%Z /\ (0 <= exact_items s ov c)%Z.
Proof. split; by apply amount_nonneg. Qed.

Lemma exact_total_nonneg s ov c : (0 <= exact_total s ov c)%Z.
Proof. pose proof (exact_nonneg s ov c). unfold exact_total. lia. Qed.

Lemma line_exact s ov c : (exact_total s ov c <= int64_max)%Z -> line_of s ov c = exact_line s ov c.
Proof.
  unfold line_of, exact_line. intros Hle. pose proof (exact_nonneg s ov c) as [Hb Hi]. unfold exact_total in *.
  rewrite prices_rates. unfold exact_bytes, exact_items in *.
  rewrite !mulDiv_amount by (done || lia). rewrite wrap64_id by (unfold in_int64, int64_min, int64_max in *; lia). done.
Qed.

Lemma total_exact (l : list Line) acc : (0 <= acc)%Z -> (forall x, x ∈ l -> (0 <= Line_TotalMicro x)%Z) ->
  (acc + zsum Line_TotalMicro l <= int64_max)%Z ->
  foldl (fun acc l => wrap64 (acc + Line_TotalMicro l)) acc l = (acc + zsum Line_TotalMicro l)%Z.
Proof.
  revert acc. induction l as [|x l IH]; intros acc Ha Hl Hle; simpl in *; [lia|].
  pose proof (Hl x ltac:(left)). assert (0 <= zsum Line_TotalMicro l)%Z by (apply zsum_nonneg; intros; apply Hl; by right).
  rewrite wrap64_id by (unfold in_int64, int64_min, int64_max in *; lia).
  rewrite IH; [lia|lia| |lia]. intros; apply Hl; by right.
Qed.

Lemma line_before_irrefl l : line_before l l = false.
Proof. unfold line_before. rewrite Z.eqb_refl. apply str_lt_irrefl. Qed.

(** [not (line_before b a)]: more expensive, or as expensive and not later by
    name. *)
Lemma line_before_false a b : line_before b a = false <->
  (Line_TotalMicro b < Line_TotalMicro a)%Z \/ Line_TotalMicro a = Line_TotalMicro b /\ str_lt (Line_Name b) (Line_Name a) = false.
Proof.
  unfold line_before. destruct (Z.eqb_spec (Line_TotalMicro b) (Line_TotalMicro a)); simpl; [|rewrite Z.ltb_ge]; split; intros.
  - right. split; [lia|done].
  - destruct H as [?|[_ ?]]; [lia|done].
  - left. lia.
  - destruct H as [?|[? _]]; lia.
Qed.

Lemma line_before_true a b : line_before a b = true <->
  (Line_TotalMicro b < Line_TotalMicro a)%Z \/ Line_TotalMicro a = Line_TotalMicro b /\ str_lt (Line_Name a) (Line_Name b) = true.
Proof.
  unfold line_before. destruct (Z.eqb_spec (Line_TotalMicro a) (Line_TotalMicro b)); simpl; [|rewrite Z.ltb_lt]; split; intros.
  - right. by split.
  - destruct H as [?|[_ ?]]; [lia|done].
  - left. lia.
  - destruct H as [?|[? _]]; lia.
Qed.

Lemma lines_sorted l : StronglySorted (not_after line_before) (sort_by line_before l).
Proof.
  apply sort_by_sorted.
  - apply line_before_irrefl.
  - intros x y z. rewrite !line_before_true. intros [?|[? H1]] [?|[? H2]]; [left; lia..|].
    right. split; [lia|]. by eapply str_lt_trans.
  - intros x y z. rewrite !line_before_false. intros [?|[? H1]] [?|[? H2]]; [left; lia..|].
    right. split; [lia|]. by eapply str_lt_negtrans.
Qed.

(** C31: as long as the whole statement fits a 64-bit integer, it is exact: one
    line for every customer of the usage list, priced at the customer's
    override or else at the global rate, each amount rounded down; the most
    expensive first, and the total is the sum of the lines. *)
Theorem statement_exact month costs s ov : (zsum (exact_total s ov) costs <= int64_max)%Z ->
  let st := Compute_ month costs s ov in
  Statement_Lines st ≡ₚ exact_line s ov <$> costs
  /\ StronglySorted (not_after line_before) (Statement_Lines st)
  /\ Statement_TotalMicro st = zsum Line_TotalMicro (Statement_Lines st)
  /\ Statement_TotalMicro st = zsum (exact_total s ov) costs.
Proof.
  intros Hle st.
  assert (forall c, c ∈ costs -> (exact_total s ov c <= zsum (exact_total s ov) costs)%Z) as Hone.
  { clear. induction costs as [|x l IH]; intros c; [intros H; by apply elem_of_nil in H|]. simpl.
    assert (0 <= zsum (exact_total s ov) l)%Z by (apply zsum_nonneg; intros; apply exact_total_nonneg).
    pose proof (exact_total_nonneg s ov x). intros [->|Hin]%elem_of_cons; [lia|]. specialize (IH c Hin). lia. }
  assert (line_of s ov <$> costs = exact_line s ov <$> costs) as Hl.
  { apply list_fmap_ext. intros i c Hc. apply line_exact. apply list_elem_of_lookup_2 in Hc. specialize (Hone c Hc). lia. }
  assert (zsum Line_TotalMicro (exact_line s ov <$> costs) = zsum (exact_total s ov) costs) as Hs.
  { clear. induction costs as [|x l IH]; [done|]. rewrite fmap_cons. simpl. by rewrite IH. }
  assert (Statement_TotalMicro st = zsum (exact_total s ov) costs) as Ht.
  { unfold st, Compute_. cbn [Statement_TotalMicro]. rewrite Hl, total_exact; [by rewrite Hs|lia| |by rewrite Hs].
    intros x (c & -> & _)%list_elem_of_fmap. apply exact_total_nonneg. }
  unfold st, Compute_ in *. cbn [Statement_Lines Statement_TotalMicro] in *. rewrite Hl in *. split_and!.
  - apply sort_by_perm.
  - apply lines_sorted.
  - rewrite (zsum_perm _ _ _ (sort_by_perm _ _)). congruence.
  - exact Ht.
Qed.

(** ** Usage per customer *)

Definition rows_of (t : string) (rs : list cost_row) : list cost_row := filter (fun r => cr_tenant r = t) rs.

Lemma wrap64_add a b : wrap64 (wrap64 a + wrap64 b) = wrap64 (a + b).
Proof.
  unfold wrap64, int64_min. f_equal.
  replace ((a - -9223372036854775808) mod 18446744073709551616 + -9223372036854775808
           + ((b - -9223372036854775808) mod 18446744073709551616 + -9223372036854775808) - -9223372036854775808)%Z
    with ((a - -9223372036854775808) mod 18446744073709551616 + (b - -9223372036854775808) mod 18446744073709551616
           + -9223372036854775808)%Z by lia.
  rewrite <- Z.add_mod_idemp_l, <- Z.add_mod, Z.add_mod_idemp_l by lia. f_equal. lia.
Qed.

(** The usage of one tenant in a list of rows. *)
Definition usage_of (t : string) (rs : list cost_row) (c : CustomerCost) : Prop :=
  CustomerCost_Items c = wrap64 (zsum cr_items (rows_of t rs))
  /\ CustomerCost_Bytes c = wrap64 (zsum cr_bytes (rows_of t rs))
  /\ CustomerCost_Days c = (fun r => MkCostDay (cr_day r) (wrap64 (cr_items r)) (wrap64 (cr_bytes r))) <$> rows_of t rs.

Record acc_of (acc : list (string * CustomerCost)) (rs : list cost_row) : Prop := {
  ao_nodup : NoDup acc.*1;
  ao_tenants : forall t, t ∈ acc.*1 <-> exists r, r ∈ rs /\ cr_tenant r = t;
  ao_usage : forall t c, (t, c) ∈ acc -> usage_of t rs c
}.

Lemma rows_of_snoc t rs r : rows_of t (rs ++ [r]) = (rows_of t rs ++ (if bool_decide (cr_tenant r = t) then [r] else []))%list.
Proof. unfold rows_of. rewrite filter_app, filter_cons, filter_nil. by case_bool_decide; case_decide. Qed.

Lemma usage_of_other t rs r c : cr_tenant r <> t -> usage_of t rs c -> usage_of t (rs ++ [r]) c.
Proof. intros Ht. unfold usage_of. by rewrite rows_of_snoc, bool_decide_false, app_nil_r. Qed.

Lemma add_row_tenants r acc t : t ∈ (add_row r acc).*1 <-> t ∈ acc.*1 \/ t = cr_tenant r.
Proof.
  induction acc as [|[t' c'] acc IH]; simpl; [set_solver|]. case_bool_decide as Ht; rewrite !fmap_cons; cbn [fst];
    rewrite !elem_of_cons; [subst; naive_solver|]. rewrite IH. tauto.
Qed.

Lemma add_row_acc r acc rs : acc_of acc rs -> acc_of (add_row r acc) (rs ++ [r]).
Proof.
  intros [Hnd Hts Hus]. split.
  - clear Hts Hus. revert Hnd. induction acc as [|[t c] acc IH]; simpl; [intros _; apply NoDup_singleton|].
    case_bool_decide as Ht; [done|]. rewrite !fmap_cons. cbn [fst]. intros [Hn Hnd]%NoDup_cons. apply NoDup_cons. split; [|by apply IH].
    rewrite add_row_tenants. by intros [?| ->].
  - intros t. rewrite add_row_tenants, Hts. setoid_rewrite elem_of_app. setoid_rewrite list_elem_of_singleton. naive_solver.
  - assert (rows_of (cr_tenant r) rs = [] \/ cr_tenant r ∈ acc.*1) as Hnew.
    { destruct (decide (cr_tenant r ∈ acc.*1)) as [?|Hn]; [by right|left]. rewrite Hts in Hn.
      unfold rows_of. destruct (filter _ rs) as [|x l] eqn:E; [done|]. destruct Hn. exists x.
      assert (x ∈ x :: l) as Hx by left. rewrite <- E in Hx. by apply list_elem_of_filter in Hx as [? ?]. }
    clear Hts. induction acc as [|[t c] acc IH]; intros t' c'; simpl.
    + intros [= -> ->]%list_elem_of_singleton. destruct Hnew as [Hnew|Hnew]; [|by apply elem_of_nil in Hnew].
      unfold usage_of. rewrite rows_of_snoc, Hnew, bool_decide_true by done. simpl. by rewrite !Z.add_0_r.
    + rewrite fmap_cons in Hnd. cbn [fst] in Hnd. apply NoDup_cons in Hnd as [Hn Hnd]. case_bool_decide as Ht.
      * intros [[= -> ->]|Hin]%elem_of_cons.
        -- destruct (Hus t c) as (H1 & H2 & H3); [left|]. unfold usage_of. rewrite rows_of_snoc, bool_decide_true by done.
           cbn [CustomerCost_Items CustomerCost_Bytes CustomerCost_Days]. rewrite !zsum_app, H1, H2, H3, !wrap64_add, fmap_app. simpl.
           by rewrite !Z.add_0_r.
        -- apply usage_of_other; [|apply Hus; by right]. intros <-. apply Hn. subst. apply list_elem_of_fmap. by exists (cr_tenant r, c').
      * intros [[= -> ->]|Hin]%elem_of_cons; [apply usage_of_other; [congruence|apply Hus; left]|].
        apply IH; [done|by intros ? ? ?; apply Hus; right| |done].
        destruct Hnew as [?|Hnew]; [by left|right]. rewrite fmap_cons in Hnew. cbn [fst] in Hnew. set_solver.
Qed.

Lemma add_rows_acc rs' acc rs : acc_of acc rs -> acc_of (add_rows acc rs') (rs ++ rs').
Proof.
  unfold add_rows. revert acc rs. induction rs' as [|r rs' IH]; intros acc rs H; simpl; [by rewrite app_nil_r|].
  rewrite cons_middle, (assoc_L (++)). by apply IH, add_row_acc.
Qed.

Lemma collect_acc usage acc acc' rs : acc_of acc rs -> collect acc usage = Some acc' ->
  exists rss, usage = Some <$> rss /\ acc_of acc' (rs ++ concat rss).
Proof.
  revert acc rs. induction usage as [|[rs'|] usage IH]; intros acc rs H; simpl; [|intros Hc|done].
  - intros [= <-]. exists []. simpl. by rewrite app_nil_r.
  - apply (IH _ (rs ++ rs')%list) in Hc as (rss & -> & Hc); [|by apply add_rows_acc]. exists (rs' :: rss).
    rewrite fmap_cons. simpl. by rewrite <- (assoc_L (++)) in Hc.
Qed.

Lemma ref_of_Some d t r : core_wf d -> ref_of (pg_ListCustomerRefs d) t = Some r <->
  exists i c, t_customers d !! i = Some c /\ Customer_ClientID c = t /\ r = MkCustomerRef i (Customer_Name c) t.
Proof.
  intros (W1 & W2 & _). unfold ref_of.
  assert (forall r, r ∈ filter (fun r => CustomerRef_ClientID r = t) (pg_ListCustomerRefs d) <->
    exists i c, t_customers d !! i = Some c /\ Customer_ClientID c = t /\ r = MkCustomerRef i (Customer_Name c) t) as Hin.
  { intros r'. rewrite list_elem_of_filter. unfold pg_ListCustomerRefs. rewrite list_elem_of_fmap. split.
    - intros (Ht & c & -> & (_ & i & Hi)%rows_elem). destruct (W1 _ _ Hi) as [-> _]. exists i, c. simpl in Ht. by rewrite Ht.
    - intros (i & c & Hi & Ht & ->). split; [done|]. exists c. destruct (W1 _ _ Hi) as [-> _]. rewrite Ht. split; [done|].
      apply rows_elem. split; [done|]. by exists i. }
  split.
  - intros Hl. apply Hin. apply last_Some_elem_of in Hl. done.
  - intros Hr. apply Hin in Hr as Hr'. destruct (last _) as [r'|] eqn:El.
    + apply last_Some_elem_of, Hin in El as (i & c & Hi & Ht & ->). destruct Hr as (j & c' & Hj & Ht' & ->).
      assert (i = j) as -> by (eapply W2; [exact Hi|exact Hj|right; congruence]). congruence.
    + apply last_None in El. rewrite El in Hr'. by apply elem_of_nil in Hr'.
Qed.

Definition named_cost (d : DB) (tc : string * CustomerCost) : option CustomerCost :=
  r ← ref_of (pg_ListCustomerRefs d) tc.1;
  Some (MkCustomerCost (CustomerRef_ID r) (CustomerRef_Name r) (CustomerCost_Items tc.2) (CustomerCost_Bytes tc.2) (CustomerCost_Days tc.2)).

Lemma named_cost_Some d t c0 c : core_wf d -> named_cost d (t, c0) = Some c <->
  exists i cust, t_customers d !! i = Some cust /\ Customer_ClientID cust = t
    /\ c = MkCustomerCost i (Customer_Name cust) (CustomerCost_Items c0) (CustomerCost_Bytes c0) (CustomerCost_Days c0).
Proof.
  intros Hwf. unfold named_cost. rewrite bind_Some. simpl. setoid_rewrite (ref_of_Some d t _ Hwf). split.
  - intros (r & (i & cust & Hi & Ht & ->) & [= <-]). by exists i, cust.
  - intros (i & cust & Hi & Ht & ->). exists (MkCustomerRef i (Customer_Name cust) t). split; [by exists i, cust|done].
Qed.

Lemma named_ids_nodup d acc : core_wf d -> NoDup acc.*1 -> NoDup (CustomerCost_CustomerID <$> omap (named_cost d) acc).
Proof.
  intros Hwf. induction acc as [|[t c0] acc IH]; [intros _; constructor|]. rewrite fmap_cons. cbn [fst].
  intros [Hn Hnd]%NoDup_cons. simpl. destruct (named_cost d (t, c0)) as [c|] eqn:E; [|by apply IH].
  rewrite fmap_cons. constructor; [|by apply IH].
  intros (c1 & Hid & ([t' c1'] & Hin & Hc)%list_elem_of_omap)%list_elem_of_fmap.
  apply (named_cost_Some _ _ _ _ Hwf) in E as (i & cust & Hi & Ht & ->), Hc as (j & cust' & Hj & Ht' & ->).
  simpl in Hid. subst j. rewrite Hi in Hj. injection Hj as <-. apply Hn, list_elem_of_fmap. exists (t', c1'). simpl. split; [congruence|done].
Qed.

(** The usage list has exactly one entry for every customer the control plane
    knows, suspended and deleted ones included, with data in some region; its
    items and bytes are the sums over all regions, modulo 2^64, its days the
    rows in order; tenants it does not know are skipped.  One failing region
    fails the list. *)
Theorem GetCost_usage usage d : core_wf d ->
  match GetCost usage d with
  | Some costs => exists rss, usage = Some <$> rss /\
      (forall c, c ∈ costs <-> exists i cust, t_customers d !! i = Some cust
         /\ (exists r, r ∈ concat rss /\ cr_tenant r = Customer_ClientID cust)
         /\ CustomerCost_CustomerID c = i /\ CustomerCost_Name c = Customer_Name cust
         /\ usage_of (Customer_ClientID cust) (concat rss) c)
      /\ NoDup (CustomerCost_CustomerID <$> costs)
  | None => None ∈ usage
  end.
Proof.
  intros Hwf. unfold GetCost. change (fun tc => r ← ref_of _ _; _) with (named_cost d).
  destruct (collect [] usage) as [acc|] eqn:E; simpl.
  - apply (collect_acc _ _ _ []) in E as (rss & -> & [Hnd Hts Hus]).
    2: { split; [constructor|intros t; split; [intros H; by apply elem_of_nil in H|intros (r & H & _); by apply elem_of_nil in H]|].
         intros t c H. by apply elem_of_nil in H. }
    rewrite app_nil_l in *. exists rss. split; [done|]. split.
    + intros c. rewrite sort_by_perm, list_elem_of_omap. split.
      * intros ([t c0] & Hin & (i & cust & Hi & Ht & ->)%(named_cost_Some _ _ _ _ Hwf)). exists i, cust. rewrite Ht.
        split; [done|]. split; [apply Hts, list_elem_of_fmap; by exists (t, c0)|]. split; [done|]. split; [done|]. exact (Hus _ _ Hin).
      * intros (i & cust & Hi & Hr & Hid & Hname & Hu). apply Hts, list_elem_of_fmap in Hr as ([t c0] & Ht & Hin). simpl in Ht.
        exists (t, c0). split; [done|]. apply (named_cost_Some _ _ _ _ Hwf). exists i, cust. split_and!; [done..|].
        apply Hus in Hin. rewrite <- Ht in Hin. destruct c as [a b c1 c2 c3], Hu as (U1 & U2 & U3), Hin as (V1 & V2 & V3).
        simpl in *. congruence.
    + rewrite sort_by_perm. by apply named_ids_nodup.
  - revert E. generalize (@nil (string * CustomerCost)). induction usage as [|[rs|] usage IH]; simpl; intros acc H; [done| |left].
    right. by eapply IH.
Qed.

(** ** Examples *)

(** The months of three centuries start on the days the calendar says. *)
Example month_start_civil :
  forallb (fun y => forallb (fun m => bool_decide (civil (month_start (y, m)) = (y, m, 1%Z)))
                      [1; 2; 3; 4; 5; 6; 7; 8; 9; 10; 11; 12]%Z) (seqZ 1900 300) = true.
Proof. vm_compute. reflexivity. Qed.

Definition ex_prices : BillingSettings := MkBillingSettings 250000 1000000 "EUR" 0 None.
Definition ex_costs : list CustomerCost :=
  [MkCustomerCost 1 "Acme" 2500000 (3 * bytesPerGiB) []; MkCustomerCost 2 "Beta" 0 (bytesPerGiB / 2) []].
Definition ex_overrides : gmap N BillingOverride := {[ 2%N := MkBillingOverride 2 (Some 800000%Z) None 0 None ]}.

Lemma statement_exact_witness : Statement_TotalMicro (Compute_ "2026-07" ex_costs ex_prices ex_overrides) = 3650000%Z.
Proof.
  destruct (statement_exact "2026-07" ex_costs ex_prices ex_overrides) as (_ & _ & _ & ->).
  - vm_compute. discriminate.
  - vm_compute. reflexivity.
Defined.

(** The API accepts any price that is not negative; a large one turns the amount
    of two GiB negative. *)
Example price_overflows :
  Statement_TotalMicro (Compute_ "2026-07" [MkCustomerCost 1 "Acme" 0 (2 * bytesPerGiB) []]
    (MkBillingSettings int64_max 0 "EUR" 0 None) ∅) = (-2)%Z.
Proof. vm_compute. reflexivity. Qed.

Definition ex_billing_db : DB :=
  set_customers (fun _ => {[ 1%N := MkCustomer 1 "acme" "Acme" "cust_1" CustomerActive "eu" None None 0 0 ]}) empty_db.
Definition ex_usage : list (option (list cost_row)) :=
  [Some [MkCostRow "cust_1" 20000 10 4096; MkCostRow "cust_9" 20000 7 7]; Some [MkCostRow "cust_1" 20001 5 1024]].

Lemma ex_billing_wf : core_wf ex_billing_db.
Proof.
  assert (forall i c, t_customers ex_billing_db !! i = Some c -> i = 1%N /\ c = MkCustomer 1 "acme" "Acme" "cust_1" CustomerActive "eu" None None 0 0) as H.
  { intros i c. cbn. rewrite lookup_singleton_Some. naive_solver. }
  split_and!.
  - intros i c [-> ->]%H. split; [done|]. vm_compute. reflexivity.
  - intros i j c c' [-> ->]%H [-> ->]%H _. done.
  - intros i k. cbn. by rewrite lookup_empty.
Qed.

Lemma GetCost_usage_witness : exists costs, GetCost ex_usage ex_billing_db = Some costs
  /\ NoDup (CustomerCost_CustomerID <$> costs) /\ CustomerCost_Bytes <$> costs = [5120%Z].
Proof.
  pose proof (GetCost_usage ex_usage ex_billing_db ex_billing_wf) as H. destruct (GetCost ex_usage ex_billing_db) as [costs|] eqn:E.
  - exists costs. destruct H as (rss & _ & _ & Hnd). split; [done|]. split; [exact Hnd|].
    assert (option_map (fmap CustomerCost_Bytes) (GetCost ex_usage ex_billing_db) = Some [5120%Z]) as He by (vm_compute; reflexivity).
    rewrite E in He. by injection He.
  - vm_compute in E. discriminate.
Defined.
