(* ===== verification/ApiTenant.v ===== *)
(** The REST handlers of tenant data: internal/api/handlers.go,
    handlers_fleet.go and handlers_pipelines.go over the services and the store.

    A handler is a function of the request's principal, its decoded parameters
    and the tables (or the rollout's surroundings).  Statements the store runs
    in one call are one step; between two calls of a handler other requests may
    run, which the theorems about single requests leave out. *)
From S2P Require Import Prelude GoStrings Json GoFormat StoreTypes Slug Tokens Authz PgCore PgFleet PgPipelines.
From S2P Require Import Catalog PipelineGraph Crypto Secrets TenantsService Enrollment Render Validate PipelineService.
From S2P Require Import PgUsers PgSettings ApiCore Billing.

Open Scope string_scope.

(** ** Customers *)

Record api_Customer : Type := MkApiCustomer {
  ac_Id : N;
  ac_Slug : string;
  ac_Name : string;
  ac_TenantId : string;
  ac_Status : string;
  ac_Region : string;
  ac_RateLimitItemsPerSec : option Z;
  ac_RetentionDays : option Z;
  ac_CreatedAt : Z
}.

Definition toCustomer (c : Customer) : api_Customer :=
  MkApiCustomer (Customer_ID c) (Customer_Slug c) (Customer_Name c) (Customer_ClientID c) (Customer_Status c) (Customer_Region c)
    (Customer_RateLimitItemsPerSec c) (Customer_RetentionDays c) (Customer_CreatedAt c).

Record api_ApiKey : Type := MkApiApiKey {
  ak_Id : N;
  ak_CustomerId : N;
  ak_Name : string;
  ak_KeyPrefix : string;
  ak_CreatedAt : Z;
  ak_ExpiresAt : option Z;
  ak_RevokedAt : option Z;
  ak_LastUsedAt : option Z
}.

Definition toAPIKey (k : APIKey) : api_ApiKey :=
  MkApiApiKey (APIKey_ID k) (APIKey_CustomerID k) (APIKey_Name k) (APIKey_KeyPrefix k) (APIKey_CreatedAt k) (APIKey_ExpiresAt k)
    (APIKey_RevokedAt k) (APIKey_LastUsedAt k).

(** The created key carries the secret besides the key's fields. *)
Definition toAPIKeyCreated (k : APIKey) (secret : string) : api_ApiKey * string := (toAPIKey k, secret).

(** The configured regions, with their display names. *)
Record region_config : Type := MkRegionConfig {
  rc_DefaultRegion : string;
  rc_Regions : list (string * string)
}.

Definition HasRegion (cfg : region_config) (name : string) : bool := bool_decide (name ∈ (rc_Regions cfg).*1).
Definition RegionNames (cfg : region_config) : list string := (rc_Regions cfg).*1.

(** What a list shows to the caller. *)
Definition in_scope {A} (p : option Principal) (owner : A -> option N) (l : list A) : list A :=
  match customerScope p with
  | None => l
  | Some allowed => filter (fun x => match owner x with Some c => bool_decide (c ∈ allowed) | None => false end = true) l
  end.

(** The body of a customer PATCH. *)
Record CustomerPatch : Type := MkCustomerPatch {
  cp_Name : option string;
  cp_Status : option string;
  cp_RateLimitItemsPerSec : option Z;
  cp_RetentionDays : option Z
}.

(** [raw]: the captured body as JSON; without it a present value is a set one. *)
Definition quotaRetentionUpdate (raw : option jval) (body : CustomerPatch) : OptionalInt * OptionalInt :=
  let absent := MkOptionalInt false None in
  match raw with
  | None =>
      (match cp_RateLimitItemsPerSec body with Some v => MkOptionalInt true (Some v) | None => absent end,
       match cp_RetentionDays body with Some v => MkOptionalInt true (Some v) | None => absent end)
  | Some (JObj keys) =>
      (if bool_decide ("rateLimitItemsPerSec" ∈ keys.*1) then MkOptionalInt true (cp_RateLimitItemsPerSec body) else absent,
       if bool_decide ("retentionDays" ∈ keys.*1) then MkOptionalInt true (cp_RetentionDays body) else absent)
  | Some _ => (absent, absent)
  end.

Definition tenants_message (e : TenantsService.svc_err) : string :=
  match e with
  | TenantsService.ErrInvalidName => "name must be 1-200 characters"
  | ErrInvalidSlug => "slug must match ^[a-z0-9][a-z0-9-]{1,62}[a-z0-9]$"
  | _ => ""
  end.

(** ** Agents *)

Definition hexPtr (b : option string) : option string :=
  match b with Some b => if decide (b = "") then None else Some (hex_encode b) | None => None end.

Definition configInSync (assigned acked : option string) : option bool :=
  match assigned, acked with
  | Some a, Some b => if decide (a = "") then None else if decide (b = "") then None else Some (bool_decide (a = b))
  | _, _ => None
  end.

(** [json.Unmarshal] into a map of strings, its errors ignored: a value that is
    not a string leaves the empty one. *)
Definition agentLabels (raw : option jval) : gmap string string :=
  match raw with
  | Some (JObj m) => foldl (fun acc kv => <[kv.1 := match kv.2 with JStr s => s | _ => "" end]> acc) ∅ m
  | _ => ∅
  end.

(** [json.Marshal] of a map of strings. *)
Definition marshal_labels (labels : gmap string string) : jval :=
  JObj ((fun kv => (kv.1, JStr kv.2)) <$> sorted_members labels).

Record api_Agent : Type := MkApiAgent {
  aa_Id : N;
  aa_InstanceUid : string;
  aa_Class : string;
  aa_CustomerId : option N;
  aa_CustomerName : option string;
  aa_Name : option string;
  aa_DisplayName : option string;
  aa_Labels : gmap string string;
  aa_AgentVersion : option string;
  aa_Connected : bool;
  aa_Healthy : option bool;
  aa_LastSeenAt : option Z;
  aa_RemoteConfigStatus : string;
  aa_RemoteConfigError : option string;
  aa_AssignedConfigHash : option string;
  aa_ReportedConfigHash : option string;
  aa_ConfigInSync : option bool;
  aa_CreatedAt : Z
}.

Definition toAgent (a : Agent) : api_Agent :=
  MkApiAgent (Agent_ID a) (hex_encode (Agent_InstanceUID a)) (Agent_Class a) (Agent_CustomerID a) (Agent_CustomerName a)
    (Agent_Name a) (Agent_DisplayName a) (agentLabels (Agent_Labels a)) (Agent_AgentVersion a) (Agent_Connected a) (Agent_Healthy a)
    (Agent_LastSeenAt a) (Agent_RemoteConfigStatus a) (Agent_RemoteConfigError a) (hexPtr (Agent_AssignedConfigHash a))
    (hexPtr (Agent_ReportedConfigHash a)) (configInSync (Agent_AssignedConfigHash a) (Agent_AckedConfigHash a)) (Agent_CreatedAt a).

(** [json.Unmarshal] of a column into a map: [None] when it fails, the inner
    [None] for an absent column. *)
Definition detail_map (raw : option jval) : option (option (list (string * jval))) :=
  match raw with
  | None => Some None
  | Some (JObj m) => Some (Some m)
  | Some JNull => Some (Some [])
  | Some _ => None
  end.

Record api_AgentDetail : Type := MkApiAgentDetail {
  ad_Base : api_Agent;
  ad_Description : option (list (string * jval));
  ad_Health : option (list (string * jval))
}.

Definition toAgentDetail (a : Agent) : option api_AgentDetail :=
  d ← detail_map (Agent_Description a);
  h ← detail_map (Agent_Health a);
  Some (MkApiAgentDetail (toAgent a) d h).

Record api_AgentEvent : Type := MkApiAgentEvent {
  ae_Id : Z;
  ae_EventType : string;
  ae_Detail : option (list (string * jval));
  ae_CreatedAt : Z
}.

Definition toAgentEvent (e : AgentEvent) : option api_AgentEvent :=
  d ← detail_map (AgentEvent_Detail e);
  Some (MkApiAgentEvent (AgentEvent_ID e) (AgentEvent_EventType e) d (AgentEvent_CreatedAt e)).

Record api_BootstrapToken : Type := MkApiBootstrapToken {
  ab_Id : N;
  ab_CustomerId : N;
  ab_Name : string;
  ab_TokenPrefix : string;
  ab_MaxUses : Z;
  ab_UsedCount : Z;
  ab_CreatedAt : Z;
  ab_ExpiresAt : Z;
  ab_RevokedAt : option Z
}.

Definition toBootstrapToken (t : BootstrapToken) : api_BootstrapToken :=
  MkApiBootstrapToken (BootstrapToken_ID t) (BootstrapToken_CustomerID t) (BootstrapToken_Name t) (BootstrapToken_TokenPrefix t)
    (BootstrapToken_MaxUses t) (BootstrapToken_UsedCount t) (BootstrapToken_CreatedAt t) (BootstrapToken_ExpiresAt t)
    (BootstrapToken_RevokedAt t).

(** ** Pipelines *)

Record api_Pipeline : Type := MkApiPipeline {
  ap_Id : N;
  ap_CustomerId : N;
  ap_CustomerName : string;
  ap_Name : string;
  ap_TargetClass : string;
  ap_ActiveVersion : option Z;
  ap_LatestVersion : option Z;
  ap_CreatedAt : Z
}.

Definition toPipeline (p : Pipeline) : api_Pipeline :=
  MkApiPipeline (Pipeline_ID p) (Pipeline_CustomerID p) (Pipeline_CustomerName p) (Pipeline_Name p) (Pipeline_TargetClass p)
    (Pipeline_ActiveVersion p) (Pipeline_LatestVersion p) (Pipeline_CreatedAt p).

Record api_VersionSummary : Type := MkApiVersionSummary {
  avs_Version : Z;
  avs_ValidationStatus : string;
  avs_Active : bool;
  avs_CreatedBy : option string;
  avs_CreatedAt : Z
}.

Definition toVersionSummary (v : PipelineVersion) : api_VersionSummary :=
  MkApiVersionSummary (PipelineVersion_Version v) (PipelineVersion_ValidationStatus v) (PipelineVersion_Active v)
    (PipelineVersion_CreatedByEmail v) (PipelineVersion_CreatedAt v).

(** The graph of the API has the fields of the service's. *)
Record api_PipelineVersion : Type := MkApiPipelineVersion {
  apv_Summary : api_VersionSummary;
  apv_Graph : Graph;
  apv_RenderedYaml : string;
  apv_ConfigHash : string
}.

Definition toVersion (v : PipelineVersion) : option api_PipelineVersion :=
  g ← ParseGraph (PipelineVersion_Graph v);
  Some (MkApiPipelineVersion (toVersionSummary v) (RedactGraphSecrets g) (PipelineVersion_RenderedYAML v)
          (hex_encode (PipelineVersion_ConfigHash v))).

Definition firstIssueMessage (r : Result) : string :=
  match res_Issues r with
  | iss :: _ => match issue_Path iss with Some p => p +:+ ": " +:+ issue_Message iss | None => issue_Message iss end
  | [] => "pipeline graph is invalid"
  end.

(** ** Handlers *)

Section server.
Context {AE : Aead} {CO : Collector} {YM : Yaml} {SH : Sha256}.
Context (unicode_lower : Z -> Z) (uuid_string : N -> string) (no_key_message : string).
Context (cipher : option Cipher) (cfg : region_config).

Section customers.
Context (p : option Principal).

Definition ListCustomers (status : option string) (d : DB) : outcome (list api_Customer) :=
  Success 200 (toCustomer <$> in_scope p (fun c => Some (Customer_ID c)) (pg_ListCustomers status d)).

(** The customer and its initial key with the secret. *)
Definition CreateCustomer (name : string) (slug region : option string) (envs : Z -> env) (d : DB)
  : outcome (api_Customer * (api_ApiKey * string)) * DB :=
  checked (requireUnscoped p) d (
    let region := match region with Some r => if decide (r = "") then rc_DefaultRegion cfg else r | None => rc_DefaultRegion cfg end in
    if negb (HasRegion cfg region)
    then (bad_request ("unknown region " +:+ go_quote region +:+ " (configured: " +:+ join ", " (RegionNames cfg) +:+ ")"), d)
    else
      match TenantsService.CreateCustomer unicode_lower uuid_string (actorID p) name slug region envs d with
      | (Err (TenantsService.ErrInvalidName as e), d) | (Err (ErrInvalidSlug as e), d) => (bad_request (tenants_message e), d)
      | (Err (TenantsService.ErrStore ErrSlugExists), d) | (Err (ErrNoFreeSlug _), d) => (conflict "slug already exists", d)
      | (Err _, d) => (Raised otherError, d)
      | (Ok cc, d) => (Success 201 (toCustomer (cc_customer cc), toAPIKeyCreated (cc_key cc) (cc_secret cc)), d)
      end).

Definition ListRegions : outcome (list (string * option string) * string) :=
  Success 200 ((fun r => (r.1, if decide (r.2 = "") then None else Some r.2)) <$> rc_Regions cfg, rc_DefaultRegion cfg).

Definition GetCustomer (id : N) (d : DB) : outcome api_Customer :=
  match requireCustomerAccess p (Some id) with
  | Some f => Raised (forbiddenError f)
  | None =>
      match pg_GetCustomer id d with
      | Err ErrNotFound => not_found "customer not found"
      | Err _ => Raised otherError
      | Ok c => Success 200 (toCustomer c)
      end
  end.

Definition UpdateCustomer (now : Z) (id : N) (raw : option jval) (body : CustomerPatch) (d : DB) : outcome api_Customer * DB :=
  checked (requireCustomerAccess p (Some id)) d (
    let '(rl, rd) := quotaRetentionUpdate raw body in
    if OptionalInt_Set rl && match OptionalInt_Value rl with Some v => (v <? 1)%Z | None => false end
    then (Raised (badRequestError "rateLimitItemsPerSec must be >= 1 (or null for unlimited)"), d)
    else if OptionalInt_Set rd && match OptionalInt_Value rd with Some v => (v <? 1)%Z || (30 <? v)%Z | None => false end
    then (Raised (badRequestError "retentionDays must be between 1 and 30 (or null for the global TTL)"), d)
    else
      match TenantsService.UpdateCustomer uuid_string now (actorID p) id
              (MkCustomerUpdate (cp_Name body) (cp_Status body) rl rd) d with
      | (Err (TenantsService.ErrInvalidName as e), d) => (Raised (badRequestError (tenants_message e)), d)
      | (Err (TenantsService.ErrStore ErrNotFound), d) => (not_found "customer not found", d)
      | (Err _, d) => (Raised otherError, d)
      | (Ok c, d) => (Success 200 (toCustomer c), d)
      end).

(** The purges started in the background are listed besides the tables. *)
Definition DeleteCustomer (now : Z) (purge_enabled : bool) (id : N) (d : DB) : outcome unit * DB * list (string * string) :=
  match requireCustomerAccess p (Some id) with
  | Some f => (Raised (forbiddenError f), d, [])
  | None =>
      match TenantsService.DeleteCustomer uuid_string now purge_enabled (actorID p) id d with
      | (Err (TenantsService.ErrStore ErrNotFound), d, purges) => (not_found "customer not found", d, purges)
      | (Err _, d, purges) => (Raised otherError, d, purges)
      | (Ok _, d, purges) => (Success 204 tt, d, purges)
      end
  end.

(** *** Ingest keys *)

Definition ListApiKeys (id : N) (d : DB) : outcome (list api_ApiKey) :=
  match requireCustomerAccess p (Some id) with
  | Some f => Raised (forbiddenError f)
  | None =>
      match pg_ListAPIKeys id d with
      | Err ErrNotFound => not_found "customer not found"
      | Err _ => Raised otherError
      | Ok keys => Success 200 (toAPIKey <$> keys)
      end
  end.

Definition CreateApiKey (e : env) (id : N) (name : string) (expiresAt : option Z) (d : DB) : outcome (api_ApiKey * string) * DB :=
  checked (requireCustomerAccess p (Some id)) d (
    match TenantsService.CreateAPIKey uuid_string e (actorID p) id name expiresAt d with
    | (Err (TenantsService.ErrInvalidName as e), d) => (bad_request (tenants_message e), d)
    | (Err (TenantsService.ErrStore ErrNotFound), d) => (not_found "customer not found", d)
    | (Err _, d) => (Raised otherError, d)
    | (Ok (key, secret), d) => (Success 201 (toAPIKeyCreated key secret), d)
    end).

Definition RevokeApiKey (now : Z) (id keyID : N) (d : DB) : outcome unit * DB :=
  checked (requireCustomerAccess p (Some id)) d (
    match TenantsService.RevokeAPIKey uuid_string now (actorID p) id keyID d with
    | (Err (TenantsService.ErrStore ErrNotFound), d) => (not_found "api key not found", d)
    | (Err _, d) => (Raised otherError, d)
    | (Ok _, d) => (Success 204 tt, d)
    end).

Definition GetCostStats (usage : Z -> Z -> list (option (list cost_row))) (from to : Z) (d : DB) : outcome (list CustomerCost) :=
  if negb (after to from) then bad_request "'to' must be after 'from'"
  else
    match GetCost (usage from to) d with
    | None => Failure 503 codeUpstream "stats backend unavailable"
    | Some costs => Success 200 (in_scope p (fun c => Some (CustomerCost_CustomerID c)) costs)
    end.
End customers.

(** *** Agents *)

Section fleet.
Context (p : option Principal).

(** The head the handlers of one agent share: the answer that ends the request,
    or the agent. *)
Inductive refusal : Type :=
| RefuseNotFound (message : string)
| RefuseError (e : handler_err).

Definition refuse {A} (r : refusal) : outcome A :=
  match r with RefuseNotFound m => not_found m | RefuseError e => Raised e end.

Definition agent_head (id : N) (d : DB) : result Agent refusal :=
  match pg_GetAgent id d with
  | Err ErrNotFound => Err (RefuseNotFound "agent not found")
  | Err _ => Err (RefuseError otherError)
  | Ok a => match requireCustomerAccess p (Agent_CustomerID a) with
            | Some f => Err (RefuseError (forbiddenError f))
            | None => Ok a
            end
  end.

Definition agent_entry (action : string) (a : Agent) (id : N) : list AuditEntry :=
  user_audit p action "agent" (uuid_string id) (Agent_CustomerID a)
    (Some (JObj [("instance_uid", JStr (hex_encode (Agent_InstanceUID a)))])).

Definition ListAgents (f : AgentFilter) (d : DB) : outcome (list api_Agent) :=
  Success 200 (toAgent <$> in_scope p Agent_CustomerID (pg_ListAgents f d)).

Definition GetAgent (id : N) (d : DB) : outcome api_AgentDetail :=
  match agent_head id d with
  | Err r => refuse r
  | Ok a => match toAgentDetail a with Some detail => Success 200 detail | None => Raised otherError end
  end.

Definition DeleteAgent (id : N) (d : DB) : outcome unit * DB :=
  match agent_head id d with
  | Err r => (refuse r, d)
  | Ok a =>
      if Agent_Connected a then (conflict "agent is currently connected", d)
      else match pg_DeleteAgent id (agent_entry "agent.delete" a id) d with
           | (Err ErrNotFound, d) => (not_found "agent not found", d)
           | (Err _, d) => (Raised otherError, d)
           | (Ok _, d) => (Success 204 tt, d)
           end
  end.

(** An absent or blank display name clears the override; absent labels stay. *)
Definition UpdateAgent (id : N) (displayName : option string) (labels : option (gmap string string)) (d : DB) : outcome api_Agent * DB :=
  match agent_head id d with
  | Err r => (refuse r, d)
  | Ok a =>
      let name := n ← displayName; let trimmed := trim_space n in if decide (trimmed = "") then None else Some trimmed in
      match pg_UpdateAgentMeta id name (marshal_labels <$> labels) (agent_entry "agent.update" a id) d with
      | (Err ErrNotFound, d) => (not_found "agent not found", d)
      | (Err _, d) => (Raised otherError, d)
      | (Ok updated, d) => (Success 200 (toAgent updated), d)
      end
  end.

(** A failure to write the audit entry is only logged. *)
Definition SyncAgent {D : Type} (edge : option (N -> result unit string)) (id : N) (w : world (D := D)) : outcome string * world :=
  match agent_head id (w_db w) with
  | Err r => (refuse r, w)
  | Ok a =>
      let inapplicable := (bad_request "re-sync applies to edge agents only; gateway configs are managed outside OpAMP", w) in
      if negb (bool_decide (Agent_Class a = AgentClassEdge)) then inapplicable
      else match Agent_CustomerID a with
           | None => inapplicable
           | Some customer =>
               match ResyncEdge edge customer w with
               | (Err _, w) => (Raised otherError, w)
               | (Ok (_, detail), w) => (Success 202 detail, with_db (pg_WriteAuditEntries (agent_entry "agent.sync" a id) (w_db w)).2 w)
               end
           end
  end.

(** The assigned and the reported config. *)
Definition GetAgentConfig (id : N) (d : DB) : outcome (string * string) :=
  match agent_head id d with
  | Err r => refuse r
  | Ok a =>
      let assigned := match Agent_CustomerID a with
                      | Some customer => if decide (Agent_Class a = AgentClassEdge)
                                         then RenderEdgeCurrent unicode_lower cipher customer d else Ok ""
                      | None => Ok ""
                      end in
      match assigned with
      | Err _ => Raised otherError
      | Ok assigned => Success 200 (assigned, default "" (Agent_ReportedConfigYAML a))
      end
  end.

Definition ListAgentEvents (id : N) (limit : option Z) (d : DB) : outcome (list api_AgentEvent) :=
  match agent_head id d with
  | Err r => refuse r
  | Ok _ =>
      match pg_ListAgentEvents id (Z.to_nat (clamp_limit 50 500 limit)) d with
      | Err ErrNotFound => not_found "agent not found"
      | Err _ => Raised otherError
      | Ok events => match mapM toAgentEvent events with Some out => Success 200 out | None => Raised otherError end
      end
  end.

(** *** Bootstrap tokens *)

Definition ListBootstrapTokens (id : N) (d : DB) : outcome (list api_BootstrapToken) :=
  match requireCustomerAccess p (Some id) with
  | Some f => Raised (forbiddenError f)
  | None =>
      match pg_ListBootstrapTokens id d with
      | Err ErrNotFound => not_found "customer not found"
      | Err _ => Raised otherError
      | Ok toks => Success 200 (toBootstrapToken <$> toks)
      end
  end.

Definition CreateBootstrapToken (e : env) (created : Z) (id : N) (name : string) (expiresAt maxUses : option Z) (d : DB)
  : outcome (api_BootstrapToken * string) * DB :=
  checked (requireCustomerAccess p (Some id)) d (
    match Enrollment.CreateBootstrapToken uuid_string e created (actorID p) id name expiresAt (default 0%Z maxUses) d with
    | (Err (TenantsService.ErrInvalidName as e), d) => (Raised (badRequestError (tenants_message e)), d)
    | (Err (TenantsService.ErrStore ErrNotFound), d) => (not_found "customer not found", d)
    | (Err _, d) => (Raised otherError, d)
    | (Ok (t, secret), d) => (Success 201 (toBootstrapToken t, secret), d)
    end).

Definition RevokeBootstrapToken (now : Z) (id tokenID : N) (d : DB) : outcome unit * DB :=
  checked (requireCustomerAccess p (Some id)) d (
    match Enrollment.RevokeBootstrapToken uuid_string now (actorID p) id tokenID d with
    | (Err (TenantsService.ErrStore ErrNotFound), d) => (not_found "bootstrap token not found", d)
    | (Err _, d) => (Raised otherError, d)
    | (Ok _, d) => (Success 204 tt, d)
    end).
End fleet.

(** *** Pipelines *)

Section pipelines.
Context (p : option Principal).

Definition ListPipelines (d : DB) : outcome (list api_Pipeline) :=
  Success 200 (toPipeline <$> in_scope p (fun x => Some (Pipeline_CustomerID x)) (pg_ListPipelines None d)).

Definition ListCustomerPipelines (id : N) (d : DB) : outcome (list api_Pipeline) :=
  match requireCustomerAccess p (Some id) with
  | Some f => Raised (forbiddenError f)
  | None =>
      match pg_GetCustomer id d with
      | Err ErrNotFound => not_found "customer not found"
      | Err _ => Raised otherError
      | Ok _ => Success 200 (toPipeline <$> pg_ListPipelines (Some id) d)
      end
  end.

(** The service creates a pipeline exactly when its validation result is valid. *)
Definition CreatePipeline (e : save_env) (id : N) (name : string) (targetClass : option string) (g : Graph) (d : DB)
  : outcome api_Pipeline * DB :=
  checked (requireCustomerAccess p (Some id)) d (
    match Create unicode_lower uuid_string no_key_message cipher e (actorID p) id name (default ClassForwarding targetClass) g d with
    | (Err ErrInvalidName, d) => (bad_request "invalid pipeline name", d)
    | (Err ErrSlugTaken, d) => (conflict "a pipeline with an equivalent name already exists", d)
    | (Err (ErrStore ErrNameExists), d) => (conflict "name already exists", d)
    | (Err (ErrStore ErrNotFound), d) => (not_found "customer not found", d)
    | (Err _, d) => (Raised otherError, d)
    | (Ok (None, res), d) => (bad_request (firstIssueMessage res), d)
    | (Ok (Some (created, _), _), d) => (Success 201 (toPipeline created), d)
    end).

Definition GetPipeline (id : N) (d : DB) : outcome (api_Pipeline * list api_VersionSummary) :=
  match pg_GetPipeline id d with
  | Err ErrNotFound => not_found "pipeline not found"
  | Err _ => Raised otherError
  | Ok pipe =>
      match requireCustomerAccess p (Some (Pipeline_CustomerID pipe)) with
      | Some f => Raised (forbiddenError f)
      | None => Success 200 (toPipeline pipe, toVersionSummary <$> pg_ListPipelineVersions id d)
      end
  end.

Definition pipeline_access (id : N) (d : DB) : option forbidden := requirePipelineAccess p (fun id => pg_GetPipeline id d) id.

Definition DeletePipeline {D : Type} {DI : Distributor D} (edge : option (N -> result unit string)) (id : N) (w : world (D := D))
  : outcome unit * world :=
  checked (pipeline_access id (w_db w)) w (
    match Delete unicode_lower uuid_string cipher edge (actorID p) id w with
    | (Err (ErrStore ErrNotFound), w) => (not_found "pipeline not found", w)
    | (Err _, w) => (Raised otherError, w)
    | (Ok _, w) => (Success 204 tt, w)
    end).

Definition ValidatePipeline (targetClass : option string) (g : Graph) (d : DB) : outcome Result :=
  Success 200 (ValidateDraft unicode_lower cipher (default ClassForwarding targetClass) g d).

(** The answer to an invalid graph is its validation result. *)
Definition CreatePipelineVersion (e : save_env) (id : N) (g : Graph) (d : DB) : outcome (api_PipelineVersion + Result) * DB :=
  checked (pipeline_access id d) d (
    match CreateVersion unicode_lower uuid_string no_key_message cipher e (actorID p) id g d with
    | (Err (ErrStore ErrNotFound), d) => (not_found "pipeline not found", d)
    | (Err _, d) => (Raised otherError, d)
    | (Ok (None, res), d) => (Success 400 (inr res), d)
    | (Ok (Some ver, _), d) =>
        match toVersion ver with
        | Some out => (Success 201 (inl out), d)
        | None => (Raised otherError, d)
        end
    end).

Definition GetPipelineVersion (id : N) (version : Z) (d : DB) : outcome api_PipelineVersion :=
  match pipeline_access id d with
  | Some f => Raised (forbiddenError f)
  | None =>
      match pg_GetPipelineVersion id version d with
      | Err ErrNotFound => not_found "version not found"
      | Err _ => Raised otherError
      | Ok v => match toVersion v with Some out => Success 200 out | None => Raised otherError end
      end
  end.

(** A version that was activated but not rolled out is an internal error. *)
Definition ActivatePipelineVersion {D : Type} {DI : Distributor D} (edge : option (N -> result unit string)) (id : N) (version : Z)
    (w : world (D := D)) : outcome (Z * string * string) * world :=
  checked (pipeline_access id (w_db w)) w (
    match Activate unicode_lower uuid_string cipher edge (actorID p) id version w with
    | (Err (ErrStore ErrNotFound), w) => (not_found "version not found", w)
    | (Err (ErrStore ErrConflict), w) => (bad_request "version is not valid and cannot be activated", w)
    | (Err _, w) => (Raised otherError, w)
    | (Ok (_, state, detail), w) => (Success 200 (version, state, detail), w)
    end).
End pipelines.
End server.
