(* ===== verification/ApiIsolation.v ===== *)
(** What a tenant-scoped session can change through the REST handlers of
    ApiTenant: the rows of other customers stay as they are. *)
From S2P Require Import Prelude GoStrings Json GoFormat StoreTypes Slug Tokens Authz PgCore PgFleet PgPipelines.
From S2P Require Import Catalog PipelineGraph Crypto Secrets TenantsService Enrollment Render Validate PipelineService.
From S2P Require Import RenderSpec PgUsers PgScim ScimAccess PgSettings ApiCore ApiTenant.

Open Scope string_scope.

(** ** The rows of a customer *)

Record tenant_rows : Type := MkTenantRows {
  tr_customer : option Customer;
  tr_keys : gmap N APIKey;
  tr_tokens : gmap N BootstrapToken;
  tr_agents : gmap N agent_row;
  tr_events : list AgentEvent;
  tr_pipelines : gmap N pipeline_row;
  tr_versions : gmap N version_row
}.

Definition agent_owner (d : DB) (id : N) : option N := r ← t_agents d !! id; Agent_CustomerID (ag_agent r).
Definition pipeline_owner (d : DB) (id : N) : option N := pl_customer_id <$> t_pipelines d !! id.

Definition rows_of (c : N) (d : DB) : tenant_rows :=
  MkTenantRows (t_customers d !! c)
    (filter (fun x => APIKey_CustomerID x.2 = c) (t_api_keys d))
    (filter (fun x => BootstrapToken_CustomerID x.2 = c) (t_bootstrap_tokens d))
    (filter (fun x => Agent_CustomerID (ag_agent x.2) = Some c) (t_agents d))
    (filter (fun e => agent_owner d (AgentEvent_AgentID e) = Some c) (t_agent_events d))
    (filter (fun x => pl_customer_id x.2 = c) (t_pipelines d))
    (filter (fun x => pipeline_owner d (pv_pipeline_id x.2) = Some c) (t_pipeline_versions d)).

(** The tables without an owner that tenant requests do not touch. *)
Definition shared_rows (d : DB) : gmap N User * gmap N api_token_row * ext_tables := (t_users d, t_api_tokens d, t_ext d).

(** A step that touches rows of one customer only. *)
Definition only (c : N) (d d' : DB) : Prop :=
  shared_rows d' = shared_rows d /\ forall c', c' <> c -> rows_of c' d' = rows_of c' d.

#[export] Instance only_refl c : Reflexive (only c).
Proof. by intros d. Qed.

#[export] Instance only_trans c : Transitive (only c).
Proof. intros d1 d2 d3 [S1 H1] [S2 H2]. split; [by rewrite S2|]. intros c' Hc. by rewrite H2, H1. Qed.

Lemma filter_insert_other {A} (P : N * A -> Prop) `{forall x, Decision (P x)} (m : gmap N A) i x :
  ~ P (i, x) -> (forall y, m !! i = Some y -> ~ P (i, y)) -> filter P (<[i := x]> m) = filter P m.
Proof. intros. by apply map_filter_insert_not'. Qed.

Lemma only_intro c d d' : shared_rows d' = shared_rows d ->
  (forall c', c' <> c -> t_customers d' !! c' = t_customers d !! c') ->
  (forall c', c' <> c -> filter (fun x => APIKey_CustomerID x.2 = c') (t_api_keys d') = filter (fun x => APIKey_CustomerID x.2 = c') (t_api_keys d)) ->
  (forall c', c' <> c -> filter (fun x => BootstrapToken_CustomerID x.2 = c') (t_bootstrap_tokens d')
                         = filter (fun x => BootstrapToken_CustomerID x.2 = c') (t_bootstrap_tokens d)) ->
  t_agents d' = t_agents d -> t_agent_events d' = t_agent_events d -> t_pipelines d' = t_pipelines d ->
  t_pipeline_versions d' = t_pipeline_versions d -> only c d d'.
Proof.
  intros Hs H1 H2 H3 H4 H5 H6 H7. split; [done|]. intros c' Hc. unfold rows_of, agent_owner, pipeline_owner.
  by rewrite H1, H2, H3, H4, H5, H6, H7 by done.
Qed.

Lemma only_inTx {A} c (f : tx A) d : (forall a d', f d = Ok (a, d') -> only c d d') -> only c d (inTx f d).2.
Proof. intros Hf. unfold inTx. destruct (f d) as [[a d']|e] eqn:E; [by eapply Hf|done]. Qed.

Lemma only_audit c f d : only c d (set_audit f d).
Proof. by apply only_intro. Qed.

(** ** The store's operations *)

Lemma UpdateCustomer_only now id upd es d : only id d (pg_UpdateCustomer now id upd es d).2.
Proof.
  apply only_inTx. intros c d' H. tx_invert H. subst. apply only_intro; try done.
  intros c' Hc. simpl. by rewrite lookup_insert_ne.
Qed.

Lemma SoftDelete_only now id es d : only id d (pg_SoftDeleteCustomer now id es d).2.
Proof.
  apply only_inTx. intros c d' H. tx_invert H. apply only_intro; try done.
  - intros c' Hc. simpl. by rewrite lookup_insert_ne.
  - intros c' Hc. simpl. apply map_eq. intros i. apply option_eq. intros k. rewrite !map_lookup_filter_Some, lookup_fmap_Some. simpl.
    split.
    + intros ((k0 & <- & Hk0) & Hown). case_decide as Hd; [|done]. rewrite (proj2 (revoke_key_id now k0)) in Hown. congruence.
    + intros (Hk & Hown). split; [|done]. exists k. split; [|done]. rewrite decide_False; congruence.
Qed.

Lemma CreateAPIKey_only now k es d : only (NewAPIKey_CustomerID k) d (pg_CreateAPIKey now k es d).2.
Proof.
  unfold pg_CreateAPIKey. destruct (pg_GetCustomer _ d); [|done]. apply only_inTx. intros key d' H. tx_invert H.
  unfold insertAPIKey in Hs. destruct (_ || _ || _) eqn:E; [done|]. injection Hs as <- <-.
  apply only_intro; try done. intros c' Hc. simpl. apply filter_insert_other; [done|].
  apply orb_false_iff in E as [[E _]%orb_false_iff _]. apply bool_decide_eq_false in E. intros y Hy. destruct E. by exists y.
Qed.

Lemma RevokeAPIKey_only now c k es d : only c d (pg_RevokeAPIKey now c k es d).2.
Proof.
  apply only_inTx. intros u d' H. tx_invert H. apply only_intro; try done. intros c' Hc. simpl.
  destruct (t_api_keys d !! k) as [k0|] eqn:E; [|done]. case_decide as Ho; [|done]. simplify_eq.
  apply filter_insert_other; simpl; [rewrite (proj2 (revoke_key_id now _)); done|]. intros y Hy. by simplify_eq.
Qed.

Lemma CreateBootstrapToken_only now t es d : only (NewBootstrapToken_CustomerID t) d (pg_CreateBootstrapToken now t es d).2.
Proof.
  unfold pg_CreateBootstrapToken. destruct (pg_GetCustomer _ d); [|done]. apply only_inTx. intros tok d' H. tx_invert H.
  unfold insert_bootstrap_token in Hs. destruct (_ || _ || _) eqn:E; [done|]. injection Hs as <- <-.
  apply only_intro; try done. intros c' Hc. simpl. apply filter_insert_other; [done|].
  apply orb_false_iff in E as [[E _]%orb_false_iff _]. apply bool_decide_eq_false in E. intros y Hy. destruct E. by exists y.
Qed.

Lemma revoke_bootstrap_customer now t : BootstrapToken_CustomerID (revoke_bootstrap now t) = BootstrapToken_CustomerID t.
Proof. unfold revoke_bootstrap. by case_match. Qed.

Lemma RevokeBootstrapToken_only now c t es d : only c d (pg_RevokeBootstrapToken now c t es d).2.
Proof.
  apply only_inTx. intros u d' H. tx_invert H. apply only_intro; try done. intros c' Hc. simpl.
  destruct (t_bootstrap_tokens d !! t) as [t0|] eqn:E; [|done]. case_decide as Ho; [|done]. simplify_eq.
  apply filter_insert_other; simpl; [rewrite revoke_bootstrap_customer; done|]. intros y Hy. by simplify_eq.
Qed.

Lemma update_agent_only c id f d d' : agent_owner d id = Some c -> (forall a, Agent_CustomerID (f a) = Agent_CustomerID a) ->
  update_agent id f d = Ok (tt, d') -> only c d d'.
Proof.
  unfold update_agent, agent_owner. intros Ho Hf. destruct (t_agents d !! id) as [r|] eqn:E; [|done]. simpl in Ho.
  intros [= <-]. split; [done|]. intros c' Hc. unfold rows_of, agent_owner, pipeline_owner. f_equal; simpl.
  - apply filter_insert_other; simpl; [rewrite Hf, Ho; congruence|]. intros y Hy. congruence.
  - apply list_filter_iff. intros e. destruct (decide (AgentEvent_AgentID e = id)) as [->|Hn].
    + rewrite lookup_insert_eq, E. simpl. by rewrite Hf.
    + by rewrite lookup_insert_ne.
Qed.

Lemma UpdateAgentMeta_only c id dn labels es d : agent_owner d id = Some c -> only c d (pg_UpdateAgentMeta id dn labels es d).2.
Proof.
  intros Ho. apply only_inTx. intros a d' H. tx_invert H. destruct a0. eapply update_agent_only in Hs; [|done|done].
  unfold read_agent in H. tx_invert H. etrans; [exact Hs|apply only_audit].
Qed.

Lemma DeleteAgent_only c id es d : agent_owner d id = Some c -> only c d (pg_DeleteAgent id es d).2.
Proof.
  unfold agent_owner. intros Ho. apply only_inTx. intros u d' H. tx_invert H. split; [done|]. intros c' Hc.
  unfold rows_of, agent_owner, pipeline_owner. f_equal; simpl.
  - apply map_filter_delete_not. intros y Hy. rewrite Hy in Ho. simpl in Ho. simpl. congruence.
  - rewrite list_filter_filter. apply list_filter_iff. intros e. destruct (decide (AgentEvent_AgentID e = id)) as [->|Hn].
    + rewrite lookup_delete_eq. simpl. destruct (t_agents d !! id); simpl in *; [|done]. naive_solver congruence.
    + rewrite lookup_delete_ne by done. tauto.
Qed.

Lemma insertPipelineVersion_only c now v z d d' : pipeline_owner d (NewPipelineVersion_PipelineID v) = Some c ->
  insertPipelineVersion now v z d = Ok (tt, d') -> only c d d'.
Proof.
  unfold insertPipelineVersion. intros Ho. destruct (_ || _ || _ || _ || _) eqn:E; [done|]. intros [= <-].
  do 4 apply orb_false_iff in E as [E _]. apply bool_decide_eq_false in E.
  split; [done|]. intros c' Hc. unfold rows_of. f_equal. simpl. apply filter_insert_other; simpl.
  - unfold pipeline_owner in *. simpl. rewrite Ho. congruence.
  - intros y Hy. destruct E. by exists y.
Qed.

Lemma insert_pipeline_only now p d d' : insert_pipeline now p d = Ok (tt, d') ->
  only (NewPipeline_CustomerID p) d d' /\ pipeline_owner d' (NewPipeline_ID p) = Some (NewPipeline_CustomerID p).
Proof.
  unfold insert_pipeline. destruct (_ || _) eqn:E; [done|]. destruct (name_taken _ _ _); [done|]. intros [= <-].
  apply orb_false_iff in E as [E _]. apply bool_decide_eq_false in E. split.
  - split; [done|]. intros c' Hc. unfold rows_of, pipeline_owner. f_equal; simpl.
    + apply filter_insert_other; [done|]. intros y Hy. destruct E. by exists y.
    + apply map_filter_ext. intros i v _. simpl. destruct (decide (pv_pipeline_id v = NewPipeline_ID p)) as [->|Hn].
      * rewrite lookup_insert_eq. destruct (t_pipelines d !! _) as [r|] eqn:Er; [destruct E; by exists r|]. simpl. split; [congruence|done].
      * by rewrite lookup_insert_ne.
  - unfold pipeline_owner. simpl. by rewrite lookup_insert_eq.
Qed.

Lemma only_shared c d d' : only c d d' -> shared_rows d' = shared_rows d.
Proof. by intros [? _]. Qed.

Lemma CreatePipeline_only now p v es d : NewPipelineVersion_PipelineID v = NewPipeline_ID p ->
  only (NewPipeline_CustomerID p) d (pg_CreatePipeline now p v es d).2.
Proof.
  intros Hv. apply only_inTx. intros [pipe ver] d' H. tx_invert H.
  unfold live_customer in Hs. unfold read_pipeline in Hs2. unfold read_version in Hs3. tx_invert Hs. tx_invert Hs2. tx_invert Hs3.
  destruct a0, a1. apply insert_pipeline_only in Hs0 as [H1 Ho]. rewrite <- Hv in Ho. eapply insertPipelineVersion_only in Hs1; [|exact Ho].
  subst. etrans; [exact H1|]. etrans; [exact Hs1|]. apply only_audit.
Qed.

Lemma CreatePipelineVersion_only c now v es d : pipeline_owner d (NewPipelineVersion_PipelineID v) = Some c ->
  only c d (pg_CreatePipelineVersion now v es d).2.
Proof.
  intros Ho. unfold pg_CreatePipelineVersion. apply only_inTx. intros ver d' H. tx_invert H.
  unfold read_version in H. tx_invert H. match goal with Hi : insertPipelineVersion _ _ _ _ = Ok (?u, _) |- _ => destruct u end.
  etrans; [eapply insertPipelineVersion_only; eassumption|]. apply only_audit.
Qed.

Lemma pipelines_only c f id d : pipeline_owner d id = Some c -> (forall r, pl_customer_id (f r) = pl_customer_id r) ->
  only c d (set_pipelines (alter f id) d).
Proof.
  unfold pipeline_owner. intros Ho Hf. split; [done|]. intros c' Hc. unfold rows_of, pipeline_owner. f_equal; simpl.
  - apply map_eq. intros i. apply option_eq. intros r. rewrite !map_lookup_filter_Some. simpl.
    destruct (decide (i = id)) as [->|Hn]; [|by rewrite lookup_alter_ne].
    rewrite lookup_alter_eq. destruct (t_pipelines d !! id) as [r0|]; simpl in *; [|done]. simplify_eq.
    split; intros [[= <-] ?]; rewrite ?Hf in *; congruence.
  - apply map_filter_ext. intros i v _. simpl. destruct (decide (pv_pipeline_id v = id)) as [->|Hn].
    + rewrite lookup_alter_eq. destruct (t_pipelines d !! id); simpl; [by rewrite Hf|done].
    + by rewrite lookup_alter_ne.
Qed.

Lemma ActivateVersion_only c id z es d : pipeline_owner d id = Some c -> only c d (pg_ActivatePipelineVersion id z es d).2.
Proof.
  intros Ho. apply only_inTx. intros [pipe ver] d' H. tx_invert H. subst.
  etrans; [by apply (pipelines_only c (activate_row (PipelineVersion_ID a)) id)|]. apply only_audit.
Qed.

Lemma ActivateVersion_owner id z es d pipe ver d' : pg_ActivatePipelineVersion id z es d = (Ok (pipe, ver), d') ->
  pipeline_owner d id = Some (Pipeline_CustomerID pipe).
Proof.
  unfold pg_ActivatePipelineVersion. intros H. apply inTx_Ok in H. tx_invert H. simplify_eq.
  unfold pipeline_owner. simpl in Hs1. rewrite lookup_alter_eq in Hs1. destruct (t_pipelines d !! id) as [r0|]; simpl in *; [|done].
  unfold select_pipeline in Hs1. simpl in Hs1. destruct (t_customers d !! _); simpl in Hs1; [|done]. by injection Hs1 as <-.
Qed.

Lemma DeletePipeline_only c id es d : pipeline_owner d id = Some c -> only c d (pg_DeletePipeline id es d).2.
Proof.
  unfold pipeline_owner. intros Ho. apply only_inTx. intros u d' H. tx_invert H. split; [done|]. intros c' Hc.
  unfold rows_of, pipeline_owner. f_equal; simpl.
  - apply map_filter_delete_not. intros y Hy. rewrite Hy in Ho. simpl in Ho. simpl. congruence.
  - apply map_eq. intros i. apply option_eq. intros v. rewrite !map_lookup_filter_Some. simpl.
    destruct (decide (pv_pipeline_id v = id)) as [->|Hn].
    + rewrite lookup_delete_eq. simpl. destruct (t_pipelines d !! id); simpl in *; [|done]. naive_solver congruence.
    + rewrite lookup_delete_ne by done. tauto.
Qed.

Lemma GetPipeline_owner id d pipe : pg_GetPipeline id d = Ok pipe -> pipeline_owner d id = Some (Pipeline_CustomerID pipe).
Proof.
  unfold pg_GetPipeline, pipeline_owner. destruct (t_pipelines d !! id) as [r|]; [|done]. simpl. unfold select_pipeline.
  destruct (t_customers d !! _); [|done]. simpl. by intros [= <-].
Qed.

(** ** Requests that change state *)

Lemma access_granted p allowed id : customerScope p = Some allowed -> requireCustomerAccess p id = None ->
  exists c, id = Some c /\ c ∈ allowed.
Proof.
  unfold customerScope, requireCustomerAccess, CanAccessCustomer. destruct p as [p|]; [|done].
  destruct (Principal_AllCustomers p) eqn:E; [done|]. intros [= <-]. destruct id as [c|]; [|done].
  case_bool_decide; [|done]. by exists c.
Qed.

Section server.
Context {AE : Aead} {CO : Collector} {YM : Yaml} {SH : Sha256}.
Context (unicode_lower : Z -> Z) (uuid_string : N -> string) (no_key_message : string).
Context (cipher : option Cipher) (cfg : region_config).
Context {D : Type} {DI : Distributor D} (edge : option (N -> result unit string)).

Inductive write_request : Type :=
| RCreateCustomer (name : string) (slug region : option string) (envs : Z -> env)
| RUpdateCustomer (now : Z) (id : N) (raw : option jval) (body : CustomerPatch)
| RDeleteCustomer (now : Z) (purge_enabled : bool) (id : N)
| RCreateApiKey (e : env) (id : N) (name : string) (expiresAt : option Z)
| RRevokeApiKey (now : Z) (id keyID : N)
| RDeleteAgent (id : N)
| RUpdateAgent (id : N) (displayName : option string) (labels : option (gmap string string))
| RSyncAgent (id : N)
| RCreateBootstrapToken (e : env) (created : Z) (id : N) (name : string) (expiresAt maxUses : option Z)
| RRevokeBootstrapToken (now : Z) (id tokenID : N)
| RCreatePipeline (e : save_env) (id : N) (name : string) (targetClass : option string) (g : Graph)
| RDeletePipeline (id : N)
| RCreatePipelineVersion (e : save_env) (id : N) (g : Graph)
| RActivatePipelineVersion (id : N) (version : Z).

Definition on_db (f : DB -> DB) (w : world (D := D)) : world := with_db (f (w_db w)) w.

Definition write (p : option Principal) (r : write_request) (w : world (D := D)) : world :=
  match r with
  | RCreateCustomer name slug region envs => on_db (fun d => (CreateCustomer unicode_lower uuid_string cfg p name slug region envs d).2) w
  | RUpdateCustomer now id raw body => on_db (fun d => (UpdateCustomer uuid_string p now id raw body d).2) w
  | RDeleteCustomer now purge id => on_db (fun d => (DeleteCustomer uuid_string p now purge id d).1.2) w
  | RCreateApiKey e id name exp => on_db (fun d => (CreateApiKey uuid_string p e id name exp d).2) w
  | RRevokeApiKey now id key => on_db (fun d => (RevokeApiKey uuid_string p now id key d).2) w
  | RDeleteAgent id => on_db (fun d => (DeleteAgent uuid_string p id d).2) w
  | RUpdateAgent id dn labels => on_db (fun d => (UpdateAgent uuid_string p id dn labels d).2) w
  | RSyncAgent id => (SyncAgent uuid_string p edge id w).2
  | RCreateBootstrapToken e created id name exp max => on_db (fun d => (CreateBootstrapToken uuid_string p e created id name exp max d).2) w
  | RRevokeBootstrapToken now id tok => on_db (fun d => (RevokeBootstrapToken uuid_string p now id tok d).2) w
  | RCreatePipeline e id name tc g => on_db (fun d => (CreatePipeline unicode_lower uuid_string no_key_message cipher p e id name tc g d).2) w
  | RDeletePipeline id => (DeletePipeline unicode_lower uuid_string cipher p edge id w).2
  | RCreatePipelineVersion e id g => on_db (fun d => (CreatePipelineVersion unicode_lower uuid_string no_key_message cipher p e id g d).2) w
  | RActivatePipelineVersion id version => (ActivatePipelineVersion unicode_lower uuid_string cipher p edge id version w).2
  end.

(** A change confined to customers of [allowed]: rows and announcements. *)
Definition confined (allowed : gset N) (w w' : world (D := D)) : Prop :=
  shared_rows (w_db w') = shared_rows (w_db w)
  /\ (forall c, c ∉ allowed -> rows_of c (w_db w') = rows_of c (w_db w))
  /\ exists l, w_announced w' = (w_announced w ++ l)%list /\ forall c, c ∈ l -> c ∈ allowed.

Lemma confined_refl allowed w : confined allowed w w.
Proof using Type. split; [done|]. split; [done|]. exists []. rewrite app_nil_r. split; [done|]. intros c Hc. by apply elem_of_nil in Hc. Qed.

Lemma confined_trans allowed w1 w2 w3 : confined allowed w1 w2 -> confined allowed w2 w3 -> confined allowed w1 w3.
Proof using Type.
  intros (S1 & R1 & l1 & A1 & L1) (S2 & R2 & l2 & A2 & L2). split; [by rewrite S2|]. split; [intros c Hc; by rewrite R2, R1|].
  exists (l1 ++ l2)%list. rewrite A2, A1, (assoc_L (++)). split; [done|]. intros c [?|?]%elem_of_app; auto.
Qed.

Lemma confined_same_db allowed w w' l : w_db w' = w_db w -> w_announced w' = (w_announced w ++ l)%list ->
  (forall c, c ∈ l -> c ∈ allowed) -> confined allowed w w'.
Proof using Type. intros Hd Ha Hl. split; [by rewrite Hd|]. split; [by rewrite Hd|]. by exists l. Qed.

Lemma confined_only allowed c d w : c ∈ allowed -> only c (w_db w) d -> confined allowed w (with_db d w).
Proof using Type.
  intros Hc [Hs Hr]. split; [done|]. split; [intros c' Hc'; apply Hr; congruence|].
  exists []. simpl. rewrite app_nil_r. split; [done|]. intros c' Hc'. by apply elem_of_nil in Hc'.
Qed.

Lemma notifyEdge_confined allowed c w : c ∈ allowed -> confined allowed w (notifyEdge edge c w).2.
Proof using Type.
  intros Hc. unfold notifyEdge. destruct edge as [changed|].
  - destruct (changed c); [|apply confined_refl].
    apply (confined_same_db _ _ _ [c]); [|simpl|].
    + by destruct (countEdgeAgents _ _).
    + by destruct (countEdgeAgents _ _).
    + intros c' ->%list_elem_of_singleton. done.
  - destruct (countEdgeAgents _ _). apply confined_refl.
Qed.

Lemma distribute_confined allowed w : confined allowed w (distribute unicode_lower cipher w).2.
Proof using Type.
  unfold distribute. destruct (RenderCurrent _ _ _); [|apply confined_refl].
  destruct (Distribute _ _) as [[?|?] ?]; apply (confined_same_db _ _ _ []); simpl; rewrite ?app_nil_r; try done;
    intros c Hc; by apply elem_of_nil in Hc.
Qed.

Lemma roll_out_confined allowed pipe w : Pipeline_CustomerID pipe ∈ allowed -> confined allowed w (roll_out unicode_lower cipher edge pipe w).2.
Proof using Type. intros. unfold roll_out. case_decide; [by apply notifyEdge_confined|apply distribute_confined]. Qed.

(** The services on customers and keys. *)

Lemma svc_UpdateCustomer_only now actor id upd d : only id d (TenantsService.UpdateCustomer uuid_string now actor id upd d).2.
Proof using Type.
  unfold TenantsService.UpdateCustomer. case_match; [done|]. unfold lift_store.
  match goal with |- context [pg_UpdateCustomer now id ?u ?es d] => pose proof (UpdateCustomer_only now id u es d) as Ho end.
  by destruct (pg_UpdateCustomer _ _ _ _ _) as [[?|?] ?].
Qed.

Lemma svc_DeleteCustomer_only now purge actor id d : only id d (TenantsService.DeleteCustomer uuid_string now purge actor id d).1.2.
Proof using Type.
  unfold TenantsService.DeleteCustomer. destruct (pg_GetCustomer id d); [|done].
  match goal with |- context [pg_SoftDeleteCustomer now id ?es d] => pose proof (SoftDelete_only now id es d) as Ho end.
  by destruct (pg_SoftDeleteCustomer _ _ _ _) as [[?|?] ?].
Qed.

Lemma svc_CreateAPIKey_only e actor id name exp d : only id d (TenantsService.CreateAPIKey uuid_string e actor id name exp d).2.
Proof using Type.
  unfold TenantsService.CreateAPIKey. case_match; [done|]. destruct (GenerateAPIKey _) as [key|]; [|done].
  match goal with |- context [pg_CreateAPIKey ?now ?k ?es d] => pose proof (CreateAPIKey_only now k es d) as Ho end.
  by destruct (pg_CreateAPIKey _ _ _ _) as [[?|?] ?].
Qed.

Lemma svc_RevokeAPIKey_only now actor id key d : only id d (TenantsService.RevokeAPIKey uuid_string now actor id key d).2.
Proof using Type.
  unfold TenantsService.RevokeAPIKey, lift_store.
  match goal with |- context [pg_RevokeAPIKey now id key ?es d] => pose proof (RevokeAPIKey_only now id key es d) as Ho end.
  by destruct (pg_RevokeAPIKey _ _ _ _ _) as [[?|?] ?].
Qed.

Lemma svc_CreateBootstrapToken_only e created actor id name exp max d :
  only id d (Enrollment.CreateBootstrapToken uuid_string e created actor id name exp max d).2.
Proof using Type.
  unfold Enrollment.CreateBootstrapToken. case_match; [done|]. destruct (GenerateBootstrapToken _) as [key|]; [|done].
  match goal with |- context [pg_CreateBootstrapToken ?now ?k ?es d] => pose proof (CreateBootstrapToken_only now k es d) as Ho end.
  by destruct (pg_CreateBootstrapToken _ _ _ _) as [[?|?] ?].
Qed.

Lemma svc_RevokeBootstrapToken_only now actor id tok d : only id d (Enrollment.RevokeBootstrapToken uuid_string now actor id tok d).2.
Proof using Type.
  unfold Enrollment.RevokeBootstrapToken, lift_store.
  match goal with |- context [pg_RevokeBootstrapToken now id tok ?es d] => pose proof (RevokeBootstrapToken_only now id tok es d) as Ho end.
  by destruct (pg_RevokeBootstrapToken _ _ _ _ _) as [[?|?] ?].
Qed.

(** The pipeline service. *)

Lemma prepare_pipeline e cust name tc excl g prev actor d nv res pid :
  prepare unicode_lower no_key_message cipher e cust name tc excl g prev actor d = Ok (Some nv, res) -> NewPipelineVersion_PipelineID (nv pid) = pid.
Proof using Type.
  unfold prepare. destruct (EncryptGraphSecrets _ _ _ _ _) as [[stored|]|]; try done. destruct (DecryptGraphSecrets _ _); [|done].
  destruct (activeRenderPipelines _ _ _ _ _ _); [|done]. destruct (negb _); [done|]. destruct (render_fragment _ _); [|done].
  by intros [= <- <-].
Qed.

Lemma svc_Create_only e actor id name tc g d :
  only id d (Create unicode_lower uuid_string no_key_message cipher e actor id name tc g d).2.
Proof using Type.
  unfold Create. destruct (create_checks _ _ _ _ _ _ _ _ _ _ _) as [[[pc|] res]|] eqn:E; try done.
  assert (NewPipelineVersion_PipelineID (pc_version pc) = NewPipeline_ID (pc_pipeline pc) /\ NewPipeline_CustomerID (pc_pipeline pc) = id) as [Hv Hc].
  { unfold create_checks in E. destruct (_ || _ || _); [done|]. destruct (pg_GetCustomer id d) as [cust|]; [|done].
    destruct (decide _); [done|]. destruct (slug_conflict _ _ _ _); [done|].
    destruct (prepare _ _ _ _ _ _ _ _ _ _ _ _) as [[[nv|] r]|] eqn:Ep; try done. injection E as <- _. simpl.
    split; [|done]. by eapply prepare_pipeline. }
  unfold create_commit. pose proof (CreatePipeline_only (se_now e) (pc_pipeline pc) (pc_version pc) (pc_entries pc) d Hv) as Ho.
  rewrite Hc in Ho. by destruct (pg_CreatePipeline _ _ _ _ _) as [[?|?] ?].
Qed.

Lemma svc_CreateVersion_only e actor pid c g d : (forall pipe, pg_GetPipeline pid d = Ok pipe -> Pipeline_CustomerID pipe = c) ->
  only c d (CreateVersion unicode_lower uuid_string no_key_message cipher e actor pid g d).2.
Proof using Type.
  intros Hc. unfold CreateVersion. destruct (pg_GetPipeline pid d) as [pipe|] eqn:Eg; [|done].
  destruct (latest_graph _ _ _) as [prev|]; [|done].
  destruct (prepare _ _ _ _ _ _ _ _ _ _ _ _) as [[[nv|] r]|] eqn:Ep; try done.
  apply (prepare_pipeline _ _ _ _ _ _ _ _ _ _ _ pid) in Ep.
  match goal with |- context [pg_CreatePipelineVersion ?now ?v ?es d] => pose proof (CreatePipelineVersion_only c now v es d) as Ho end.
  rewrite Ep in Ho. apply GetPipeline_owner in Eg as Eo. rewrite (Hc _ eq_refl) in Eo. specialize (Ho Eo).
  by destruct (pg_CreatePipelineVersion _ _ _ _) as [[?|?] ?].
Qed.

Lemma svc_Activate_confined allowed actor pid z w :
  (forall pipe, pg_GetPipeline pid (w_db w) = Ok pipe -> Pipeline_CustomerID pipe ∈ allowed) ->
  confined allowed w (Activate unicode_lower uuid_string cipher edge actor pid z w).2.
Proof using Type.
  intros Hc. unfold Activate.
  match goal with |- context [pg_ActivatePipelineVersion pid z ?es ?d] => destruct (pg_ActivatePipelineVersion pid z es d) as [[[pipe ver]|] d'] eqn:E end.
  - apply ActivateVersion_owner in E as Ho. assert (Pipeline_CustomerID pipe ∈ allowed) as Hin.
    { unfold pg_ActivatePipelineVersion in E. apply inTx_Ok in E. tx_invert E. simplify_eq. simpl in *.
      rewrite lookup_alter_eq in *. unfold pipeline_owner in Ho. unfold pg_GetPipeline in Hc.
      destruct (t_pipelines (w_db w) !! pid) as [r|]; simpl in *; [|done]. simplify_eq. unfold select_pipeline in *. simpl in *. rewrite <- Ho.
      destruct (t_customers (w_db w) !! _); simpl in *; [|done]. by apply (Hc _ eq_refl). }
    eapply (f_equal snd) in E as E'. simpl in E'.
    assert (only (Pipeline_CustomerID pipe) (w_db w) d') as Hd by (rewrite <- E'; by apply ActivateVersion_only).
    pose proof (roll_out_confined allowed pipe (with_db d' w) Hin) as Hr.
    pose proof (confined_only allowed _ _ w Hin Hd) as H1.
    destruct (roll_out _ _ _ _ _) as [[[state detail]|] w']; simpl in *; by eapply confined_trans.
  - apply inTx_Err in E as ->. apply (confined_same_db _ _ _ []); [done|by rewrite app_nil_r|]. intros c Hin. by apply elem_of_nil in Hin.
Qed.

Lemma svc_Delete_confined allowed actor pid w :
  (forall pipe, pg_GetPipeline pid (w_db w) = Ok pipe -> Pipeline_CustomerID pipe ∈ allowed) ->
  confined allowed w (Delete unicode_lower uuid_string cipher edge actor pid w).2.
Proof using Type.
  intros Hc. unfold Delete. destruct (pg_GetPipeline pid (w_db w)) as [pipe|] eqn:Eg; [|apply confined_refl].
  specialize (Hc _ eq_refl). apply GetPipeline_owner in Eg.
  match goal with |- context [pg_DeletePipeline pid ?es ?d] => pose proof (DeletePipeline_only _ pid es d Eg) as Ho;
    destruct (pg_DeletePipeline pid es d) as [[u|] d'] eqn:E end; simpl in Ho;
    pose proof (confined_only allowed _ _ w Hc Ho) as H1; [|done].
  case_bool_decide; [|done]. eapply confined_trans; [exact H1|]. by apply roll_out_confined.
Qed.

Lemma pipeline_granted p allowed id d : customerScope p = Some allowed -> pipeline_access p id d = None ->
  forall pipe, pg_GetPipeline id d = Ok pipe -> Pipeline_CustomerID pipe ∈ allowed.
Proof using Type.
  intros Hs Ha pipe Hg. unfold pipeline_access, requirePipelineAccess in Ha. rewrite Hs, Hg in Ha.
  by destruct (access_granted _ _ _ Hs Ha) as (c & [= ->] & ?).
Qed.

Lemma agent_head_granted p allowed id d a : customerScope p = Some allowed -> agent_head p id d = Ok a ->
  exists c, agent_owner d id = Some c /\ Agent_CustomerID a = Some c /\ c ∈ allowed.
Proof using Type.
  intros Hs. unfold agent_head, pg_GetAgent, agent_owner. destruct (t_agents d !! id) as [r|]; [|done].
  destruct (requireCustomerAccess _ _) eqn:Er; [done|]. intros [= <-].
  destruct (access_granted _ _ _ Hs Er) as (c & Hc & ?). exists c. simpl in Hc |- *. done.
Qed.

Lemma confined_unchanged allowed w d : d = w_db w -> confined allowed w (with_db d w).
Proof using Type.
  intros ->. apply (confined_same_db _ _ _ []); [done|simpl; by rewrite app_nil_r|]. intros c Hc. by apply elem_of_nil in Hc.
Qed.

(** A handler behind the check of one customer. *)
Lemma checked_confined {A} p allowed id w (k : outcome A * DB) : customerScope p = Some allowed ->
  only id (w_db w) k.2 -> confined allowed w (with_db (checked (requireCustomerAccess p (Some id)) (w_db w) k).2 w).
Proof using Type.
  intros Hs Ho. unfold checked. destruct (requireCustomerAccess _ _) eqn:E; [by apply confined_unchanged|].
  destruct (access_granted _ _ _ Hs E) as (c & [= ->] & ?). by eapply confined_only.
Qed.

(** Every request of a scoped principal is confined to its scope. *)
Lemma write_confined p allowed r w : customerScope p = Some allowed -> confined allowed w (write p r w).
Proof using Type.
  intros Hs. destruct r; simpl; unfold on_db.
  - unfold CreateCustomer, checked. replace (requireUnscoped p) with (Some errNeedsAllCustomers); [by apply confined_unchanged|].
    unfold customerScope, requireUnscoped in *. destruct p as [p|]; [|done]. by destruct (Principal_AllCustomers p).
  - unfold UpdateCustomer. apply checked_confined; [done|]. destruct (quotaRetentionUpdate raw body) as [rl rd].
    destruct (OptionalInt_Set rl && _); [done|]. destruct (OptionalInt_Set rd && _); [done|].
    match goal with |- context [TenantsService.UpdateCustomer _ now ?a id ?u ?d] => pose proof (svc_UpdateCustomer_only now a id u d) as Ho end.
    by destruct (TenantsService.UpdateCustomer _ _ _ _ _ _) as [[?|[| | | |[]|]] ?].
  - unfold DeleteCustomer. destruct (requireCustomerAccess p _) eqn:E; [by apply confined_unchanged|].
    destruct (access_granted _ _ _ Hs E) as (c & [= ->] & ?).
    match goal with |- context [TenantsService.DeleteCustomer _ now ?pu ?a c ?d] => pose proof (svc_DeleteCustomer_only now pu a c d) as Ho end.
    destruct (TenantsService.DeleteCustomer _ _ _ _ _ _) as [[[?|[| | | |[]|]] ?] ?]; by apply (confined_only _ c).
  - unfold CreateApiKey. apply checked_confined; [done|].
    match goal with |- context [TenantsService.CreateAPIKey _ e ?a id ?n ?x ?d] => pose proof (svc_CreateAPIKey_only e a id n x d) as Ho end.
    by destruct (TenantsService.CreateAPIKey _ _ _ _ _ _ _) as [[[??]|[| | | |[]|]] ?].
  - unfold RevokeApiKey. apply checked_confined; [done|].
    match goal with |- context [TenantsService.RevokeAPIKey _ now ?a id ?k ?d] => pose proof (svc_RevokeAPIKey_only now a id k d) as Ho end.
    by destruct (TenantsService.RevokeAPIKey _ _ _ _ _ _) as [[?|[| | | |[]|]] ?].
  - unfold DeleteAgent. destruct (agent_head p id (w_db w)) as [a|] eqn:Ea; [|by apply confined_unchanged].
    destruct (agent_head_granted _ _ _ _ _ Hs Ea) as (c & Ho & _ & Hin). apply (confined_only _ c); [done|].
    destruct (Agent_Connected a); [done|].
    match goal with |- context [pg_DeleteAgent id ?es ?d] => pose proof (DeleteAgent_only c id es d Ho) as H end.
    by destruct (pg_DeleteAgent _ _ _) as [[?|[]] ?].
  - unfold UpdateAgent. destruct (agent_head p id (w_db w)) as [a|] eqn:Ea; [|by apply confined_unchanged].
    destruct (agent_head_granted _ _ _ _ _ Hs Ea) as (c & Ho & _ & Hin). apply (confined_only _ c); [done|].
    match goal with |- context [pg_UpdateAgentMeta id ?n ?l ?es ?d] => pose proof (UpdateAgentMeta_only c id n l es d Ho) as H end.
    by destruct (pg_UpdateAgentMeta _ _ _ _ _) as [[?|[]] ?].
  - unfold SyncAgent. destruct (agent_head p id (w_db w)) as [a|] eqn:Ea; [|apply confined_refl].
    destruct (agent_head_granted _ _ _ _ _ Hs Ea) as (c & Ho & Hac & Hin).
    destruct (negb _); [apply confined_refl|]. rewrite Hac. pose proof (notifyEdge_confined allowed c w Hin) as Hn.
    unfold ResyncEdge. destruct (notifyEdge edge c w) as [[[? detail]|] w']; simpl in *; [|done].
    eapply confined_trans; [exact Hn|]. apply (confined_only _ c); [done|]. unfold pg_WriteAuditEntries.
    destruct (agent_entry _ _ _ _ _); [done|]. apply only_audit.
  - unfold CreateBootstrapToken. apply checked_confined; [done|].
    match goal with |- context [Enrollment.CreateBootstrapToken _ ?e ?cr ?a id ?n ?x ?m ?d] => pose proof (svc_CreateBootstrapToken_only e cr a id n x m d) as Ho end.
    by destruct (Enrollment.CreateBootstrapToken _ _ _ _ _ _ _ _ _) as [[[??]|[| | | |[]|]] ?].
  - unfold RevokeBootstrapToken. apply checked_confined; [done|].
    match goal with |- context [Enrollment.RevokeBootstrapToken _ now ?a id ?k ?d] => pose proof (svc_RevokeBootstrapToken_only now a id k d) as Ho end.
    by destruct (Enrollment.RevokeBootstrapToken _ _ _ _ _ _) as [[?|[| | | |[]|]] ?].
  - unfold CreatePipeline. apply checked_confined; [done|].
    match goal with |- context [Create _ _ _ _ e ?a id ?n ?tc g ?d] => pose proof (svc_Create_only e a id n tc g d) as Ho end.
    by destruct (Create _ _ _ _ _ _ _ _ _ _ _) as [[[[[??]|]?]|[| |[]| | | | | |]] ?].
  - unfold DeletePipeline, checked. destruct (pipeline_access p id _) eqn:Ea; [apply confined_refl|].
    pose proof (svc_Delete_confined allowed (actorID p) id w (pipeline_granted _ _ _ _ Hs Ea)) as Hc.
    by destruct (Delete _ _ _ _ _ _ _) as [[?|[| |[]| | | | | |]] ?].
  - unfold CreatePipelineVersion, checked. destruct (pipeline_access p id _) eqn:Ea; [by apply confined_unchanged|].
    destruct (pg_GetPipeline id (w_db w)) as [pipe|] eqn:Eg.
    + apply (confined_only _ (Pipeline_CustomerID pipe)); [by eapply pipeline_granted|].
      pose proof (svc_CreateVersion_only e (actorID p) id (Pipeline_CustomerID pipe) g (w_db w)) as Ho. rewrite Eg in Ho.
      specialize (Ho ltac:(congruence)).
      destruct (CreateVersion _ _ _ _ _ _ _ _ _) as [[[[ver|] ?]|[| |[]| | | | | |]] ?]; try done. by destruct (toVersion ver).
    + apply confined_unchanged. unfold CreateVersion. rewrite Eg. by case_match.
  - unfold ActivatePipelineVersion, checked. destruct (pipeline_access p id _) eqn:Ea; [apply confined_refl|].
    pose proof (svc_Activate_confined allowed (actorID p) id version w (pipeline_granted _ _ _ _ Hs Ea)) as Hc.
    by destruct (Activate _ _ _ _ _ _ _ _) as [[[[??]?]|[| |[]| | | | | |]] ?].
Qed.
End server.

(** ** Example *)

#[local] Existing Instances ex_aead ex_yaml ex_collector PipelineService.ex_sha.

(** A second customer with a key, and an operator to whom it is granted. *)
Definition ex_other : Customer := MkCustomer 2 "beta" "Beta" "cust_2" CustomerActive "eu" None None 0 0.
Definition ex_scoped_db : DB :=
  set_api_keys (fun _ => {[ 4%N := MkAPIKey 4 2 "k" "p" "h" None 0 None None None ]})
    (set_customers (<[2%N := ex_other]>)
       (set_ext (fun x => MkExt ∅ {[ (7, 2)%N ]} ∅ ∅ ∅ ∅ ∅ ∅ (x_billing x) ∅)
          (set_users (fun _ => {[ 7%N := ex_operator ]}) ex_svc2))).
Definition ex_guarded : verdict * Session :=
  Guard (fun _ => Some 7%N) (pg_guard_store ex_scoped_db) 5 "new" ex_session (MkRequest "/api/v1/customers/2" "DELETE" "" "csrf").
Definition ex_scoped_principal : Principal := MkPrincipal ex_operator "csrf" false {[ 2%N ]}.
Definition ex_write : write_request -> world -> world (D := PublishDistributor) :=
  write PipelineService.ex_lower (fun _ => "uuid") "no key" (Some ex_old_cipher) (MkRegionConfig "eu" [("eu", "")]) ex_edge (Some ex_scoped_principal).

