(* ===== verification/ApiReads.v ===== *)
(** What a tenant-scoped session can see through the REST handlers of ApiTenant:
    the answers to its reads do not depend on the rows of other customers. *)
From S2P Require Import Prelude GoStrings Json GoFormat StoreTypes Slug Tokens Authz PgCore PgFleet PgPipelines.
From S2P Require Import Catalog PipelineGraph Crypto Secrets TenantsService Enrollment Render Validate PipelineService.
From S2P Require Import RenderSpec PgUsers PgSettings ApiCore ApiTenant ApiIsolation.

Open Scope string_scope.

(** ** Low equivalence *)

(** Tables that agree on the users and on the rows of the allowed customers. *)
Definition low (allowed : gset N) (d1 d2 : DB) : Prop :=
  t_users d1 = t_users d2 /\ forall c, c ∈ allowed -> rows_of c d1 = rows_of c d2.

#[export] Instance low_equiv allowed : Equivalence (low allowed).
Proof.
  split.
  - by intros d.
  - intros d1 d2 [H1 H2]. split; [done|]. intros c Hc. by rewrite H2.
  - intros d1 d2 d3 [H1 H2] [H3 H4]. split; [by rewrite H1|]. intros c Hc. by rewrite H2, H4.
Qed.

(** The tables are consistent: rows under their ids, references that resolve. *)
Definition tables_wf (d : DB) : Prop := core_wf d /\ fleet_wf d /\ pipelines_wf d.

Lemma low_sym allowed d1 d2 : low allowed d1 d2 -> low allowed d2 d1.
Proof. intros. by symmetry. Qed.

Lemma low_customer allowed d1 d2 c : low allowed d1 d2 -> c ∈ allowed -> t_customers d1 !! c = t_customers d2 !! c.
Proof. intros [_ H] Hc. exact (f_equal tr_customer (H c Hc)). Qed.

Lemma low_key allowed d1 d2 i k : low allowed d1 d2 -> APIKey_CustomerID k ∈ allowed ->
  t_api_keys d1 !! i = Some k -> t_api_keys d2 !! i = Some k.
Proof.
  intros [_ H] Hc Hi. pose proof (f_equal tr_keys (H _ Hc)) as He. simpl in He.
  assert (filter (fun x => APIKey_CustomerID x.2 = APIKey_CustomerID k) (t_api_keys d1) !! i = Some k) as Hf
    by (by apply map_lookup_filter_Some).
  rewrite He in Hf. by apply map_lookup_filter_Some in Hf as [? _].
Qed.

Lemma low_token allowed d1 d2 i t : low allowed d1 d2 -> BootstrapToken_CustomerID t ∈ allowed ->
  t_bootstrap_tokens d1 !! i = Some t -> t_bootstrap_tokens d2 !! i = Some t.
Proof.
  intros [_ H] Hc Hi. pose proof (f_equal tr_tokens (H _ Hc)) as He. simpl in He.
  assert (filter (fun x => BootstrapToken_CustomerID x.2 = BootstrapToken_CustomerID t) (t_bootstrap_tokens d1) !! i = Some t) as Hf
    by (by apply map_lookup_filter_Some).
  rewrite He in Hf. by apply map_lookup_filter_Some in Hf as [? _].
Qed.

Lemma low_agent allowed d1 d2 i r c : low allowed d1 d2 -> Agent_CustomerID (ag_agent r) = Some c -> c ∈ allowed ->
  t_agents d1 !! i = Some r -> t_agents d2 !! i = Some r.
Proof.
  intros [_ H] Ho Hc Hi. pose proof (f_equal tr_agents (H _ Hc)) as He. simpl in He.
  assert (filter (fun x => Agent_CustomerID (ag_agent x.2) = Some c) (t_agents d1) !! i = Some r) as Hf by (by apply map_lookup_filter_Some).
  rewrite He in Hf. by apply map_lookup_filter_Some in Hf as [? _].
Qed.

Lemma low_pipeline allowed d1 d2 i r : low allowed d1 d2 -> pl_customer_id r ∈ allowed ->
  t_pipelines d1 !! i = Some r -> t_pipelines d2 !! i = Some r.
Proof.
  intros [_ H] Hc Hi. pose proof (f_equal tr_pipelines (H _ Hc)) as He. simpl in He.
  assert (filter (fun x => pl_customer_id x.2 = pl_customer_id r) (t_pipelines d1) !! i = Some r) as Hf by (by apply map_lookup_filter_Some).
  rewrite He in Hf. by apply map_lookup_filter_Some in Hf as [? _].
Qed.

Lemma low_version allowed d1 d2 i v r : low allowed d1 d2 -> t_pipelines d1 !! pv_pipeline_id v = Some r -> pl_customer_id r ∈ allowed ->
  t_pipeline_versions d1 !! i = Some v -> t_pipeline_versions d2 !! i = Some v.
Proof.
  intros [_ H] Hr Hc Hi. pose proof (f_equal tr_versions (H _ Hc)) as He. simpl in He.
  assert (filter (fun x => pipeline_owner d1 (pv_pipeline_id x.2) = Some (pl_customer_id r)) (t_pipeline_versions d1) !! i = Some v) as Hf.
  { apply map_lookup_filter_Some. split; [done|]. unfold pipeline_owner. simpl. by rewrite Hr. }
  rewrite He in Hf. by apply map_lookup_filter_Some in Hf as [? _].
Qed.

Lemma low_events allowed d1 d2 id r c : low allowed d1 d2 -> t_agents d1 !! id = Some r -> Agent_CustomerID (ag_agent r) = Some c ->
  c ∈ allowed -> filter (fun e => AgentEvent_AgentID e = id) (t_agent_events d1) = filter (fun e => AgentEvent_AgentID e = id) (t_agent_events d2).
Proof.
  intros Hl Hr Ho Hc. pose proof (low_agent _ _ _ _ _ _ Hl Ho Hc Hr) as Hr2. destruct Hl as [_ H].
  assert (forall d, t_agents d !! id = Some r -> filter (fun e => AgentEvent_AgentID e = id) (t_agent_events d)
    = filter (fun e => AgentEvent_AgentID e = id) (tr_events (rows_of c d))) as Hf.
  { intros d Hd. simpl. rewrite list_filter_filter. apply list_filter_iff. intros e. split; [|by intros [? _]].
    intros He. split; [done|]. unfold agent_owner. by rewrite He, Hd. }
  by rewrite (Hf d1 Hr), (Hf d2 Hr2), (H c Hc).
Qed.

(** *** Rows joined with their neighbours *)

Lemma low_select_agent allowed d1 d2 r c : low allowed d1 d2 -> Agent_CustomerID (ag_agent r) = Some c -> c ∈ allowed ->
  select_agent d1 r = select_agent d2 r.
Proof. intros Hl Ho Hc. unfold select_agent. rewrite Ho. simpl. by rewrite (low_customer _ _ _ _ Hl Hc). Qed.

Lemma low_versions_of allowed d1 d2 r : low allowed d1 d2 -> pipelines_wf d1 -> t_pipelines d1 !! pl_id r = Some r -> pl_customer_id r ∈ allowed ->
  forall v, v ∈ versions_of (pl_id r) d1 -> v ∈ versions_of (pl_id r) d2.
Proof.
  intros Hl (_ & W & _) Hr Hc v (Hp & i & Hi)%versions_of_elem. apply versions_of_elem. split; [done|]. exists i.
  eapply low_version; [exact Hl| |exact Hc|done]. by rewrite Hp.
Qed.

Lemma max_version_same l1 l2 : (forall v, v ∈ l1 <-> v ∈ l2) -> max_version l1 = max_version l2.
Proof. intros He. apply option_eq. intros m. rewrite !max_version_Some. by setoid_rewrite He. Qed.

Lemma low_pipeline_iff allowed d1 d2 i r : low allowed d1 d2 -> pl_customer_id r ∈ allowed ->
  t_pipelines d1 !! i = Some r <-> t_pipelines d2 !! i = Some r.
Proof. intros Hl Hc. split; [by eapply low_pipeline|]. eapply low_pipeline; [by symmetry|done]. Qed.

Lemma low_versions_iff allowed d1 d2 r : low allowed d1 d2 -> pipelines_wf d1 -> pipelines_wf d2 ->
  t_pipelines d1 !! pl_id r = Some r -> pl_customer_id r ∈ allowed ->
  forall v, v ∈ versions_of (pl_id r) d1 <-> v ∈ versions_of (pl_id r) d2.
Proof.
  intros Hl W1 W2 Hr Hc v. split; [by eapply low_versions_of|]. eapply low_versions_of; [by symmetry|done| |done].
  by eapply low_pipeline_iff.
Qed.

Lemma low_active_version allowed d1 d2 i r vid : low allowed d1 d2 -> pipelines_wf d1 -> t_pipelines d1 !! i = Some r ->
  pl_customer_id r ∈ allowed -> pl_active_version_id r = Some vid -> t_pipeline_versions d1 !! vid = t_pipeline_versions d2 !! vid.
Proof.
  intros Hl (W & _) Hr Hc Hv. destruct (W _ _ Hr) as (_ & _ & _ & Ha). destruct (Ha _ Hv) as (v & Hvid & Hp & _).
  rewrite Hvid. symmetry. eapply low_version; [exact Hl| |exact Hc|done]. by rewrite Hp.
Qed.

Lemma low_select_pipeline allowed d1 d2 i r : low allowed d1 d2 -> pipelines_wf d1 -> pipelines_wf d2 -> t_pipelines d1 !! i = Some r ->
  pl_customer_id r ∈ allowed -> select_pipeline d1 r = select_pipeline d2 r.
Proof.
  intros Hl W1 W2 Hr Hc. unfold select_pipeline. rewrite (low_customer _ _ _ _ Hl Hc). destruct (t_customers d2 !! _); [|done].
  simpl. do 2 f_equal.
  - destruct (pl_active_version_id r) as [vid|] eqn:Ev; [|done]. simpl. by rewrite (low_active_version _ _ _ _ _ _ Hl W1 Hr Hc Ev).
  - apply max_version_same. pose proof (proj1 (proj1 W1 _ _ Hr)) as Hid. subst i. by eapply low_versions_iff.
Qed.

Lemma low_select_version allowed d1 d2 v r : low allowed d1 d2 -> t_pipelines d1 !! pv_pipeline_id v = Some r -> pl_customer_id r ∈ allowed ->
  select_version d1 v = select_version d2 v.
Proof.
  intros Hl Hr Hc. unfold select_version. rewrite Hr, (low_pipeline _ _ _ _ _ Hl Hc Hr). simpl. by rewrite (proj1 Hl).
Qed.

Lemma low_active_of allowed d1 d2 i r : low allowed d1 d2 -> pipelines_wf d1 -> t_pipelines d1 !! i = Some r ->
  pl_customer_id r ∈ allowed -> active_of d1 r = active_of d2 r.
Proof.
  intros Hl W1 Hr Hc. unfold active_of. rewrite (low_customer _ _ _ _ Hl Hc). destruct (t_customers d2 !! _); [|done]. simpl.
  destruct (pl_active_version_id r) as [vid|] eqn:Ev; [|done]. simpl. by rewrite (low_active_version _ _ _ _ _ _ Hl W1 Hr Hc Ev).
Qed.

(** *** Listings *)

Lemma rows_NoDup {A} (id : A -> N) (m : gmap N A) p : (forall i x, m !! i = Some x -> id x = i) -> NoDup (rows m p).
Proof. intros Hid. apply (NoDup_fmap_1 id). by apply rows_key_NoDup. Qed.

(** Two tables that agree on the rows of [P] list the same ones. *)
Lemma rows_same {A} (m1 m2 : gmap N A) p (P : A -> Prop) : (forall i x, P x -> m1 !! i = Some x <-> m2 !! i = Some x) ->
  forall x, P x -> x ∈ rows m1 p <-> x ∈ rows m2 p.
Proof. intros Hm x Hx. rewrite !rows_elem. by setoid_rewrite (fun i => Hm i x Hx). Qed.

(** Orders by a time, then by the id. *)
Ltac order_lia :=
  cbv beta; intros; rewrite ?orb_true_iff, ?orb_false_iff, ?andb_true_iff, ?andb_false_iff, ?Z.ltb_lt, ?Z.ltb_ge, ?Z.eqb_eq, ?Z.eqb_neq,
    ?N.ltb_lt, ?N.ltb_ge in *; lia.

Lemma by_time_strict {A} (f : A -> Z) (g : A -> N) :
  StrictWeak (fun a b => (f a <? f b)%Z || (f a =? f b)%Z && (g a <? g b)%N).
Proof. split; order_lia. Qed.

Lemma by_time_key {A} (f : A -> Z) (g : A -> N) a b :
  (f a <? f b)%Z || (f a =? f b)%Z && (g a <? g b)%N = false -> (f b <? f a)%Z || (f b =? f a)%Z && (g b <? g a)%N = false -> g a = g b.
Proof. order_lia. Qed.

#[export] Instance customer_before_strict : StrictWeak customer_before := by_time_strict Customer_CreatedAt Customer_ID.
#[export] Instance key_before_strict : StrictWeak key_before := by_time_strict APIKey_CreatedAt APIKey_ID.
#[export] Instance agent_before_strict : StrictWeak agent_before := by_time_strict Agent_CreatedAt Agent_ID.

#[export] Instance token_before_strict : StrictWeak token_before.
Proof. unfold token_before. split; order_lia. Qed.

#[export] Instance version_before_strict : StrictWeak PgPipelines.version_before.
Proof. unfold PgPipelines.version_before. split; order_lia. Qed.

(** A string first, then another order. *)
Lemma string_then_strict {A} (s : A -> string) (lt : A -> A -> bool) : StrictWeak lt ->
  StrictWeak (fun a b => if decide (s a = s b) then lt a b else str_lt (s a) (s b)).
Proof.
  intros [H1 H2 H3]. split.
  - intros x. by rewrite decide_True.
  - intros x y z. destruct (decide (s x = s y)) as [E1|E1], (decide (s y = s z)) as [E2|E2].
    + rewrite decide_True by congruence. apply H2.
    + rewrite decide_False by congruence. by rewrite E1.
    + rewrite decide_False by congruence. by rewrite <- E2.
    + intros L1 L2. pose proof (str_lt_trans _ _ _ L1 L2) as L3. destruct (decide _) as [E3|]; [|done].
      by rewrite E3, str_lt_irrefl in L3.
  - intros x y z. destruct (decide (s x = s y)) as [E1|E1], (decide (s y = s z)) as [E2|E2].
    + rewrite decide_True by congruence. apply H3.
    + rewrite decide_False by congruence. by rewrite E1.
    + rewrite decide_False by congruence. by rewrite <- E2.
    + intros L1 L2. pose proof (str_lt_negtrans _ _ _ L1 L2) as L3. destruct (decide _) as [E3|]; [|done].
      rewrite <- E3 in L2. by destruct E1; apply str_lt_total.
Qed.

Lemma string_then_key {A} (s : A -> string) (lt : A -> A -> bool) a b :
  (if decide (s a = s b) then lt a b else str_lt (s a) (s b)) = false ->
  (if decide (s b = s a) then lt b a else str_lt (s b) (s a)) = false -> s a = s b /\ lt a b = false /\ lt b a = false.
Proof.
  destruct (decide (s a = s b)) as [E|E].
  - by rewrite decide_True.
  - rewrite decide_False by congruence. intros L1 L2. by destruct E; apply str_lt_total.
Qed.

Lemma by_id_strict {A} (g : A -> N) : StrictWeak (fun a b => (g a <? g b)%N).
Proof. split; order_lia. Qed.

#[export] Instance pipeline_before_strict : StrictWeak pipeline_before :=
  string_then_strict Pipeline_CustomerSlug _ (string_then_strict Pipeline_Name _ (by_id_strict Pipeline_ID)).
#[export] Instance active_before_strict : StrictWeak active_before :=
  string_then_strict ActivePipeline_CustomerSlug _ (string_then_strict ActivePipeline_PipelineName _ (by_id_strict ActivePipeline_PipelineID)).

Lemma pipeline_before_key a b : pipeline_before a b = false -> pipeline_before b a = false -> Pipeline_ID a = Pipeline_ID b.
Proof.
  intros H1 H2. destruct (string_then_key Pipeline_CustomerSlug (fun a b => if decide (Pipeline_Name a = Pipeline_Name b) then (Pipeline_ID a <? Pipeline_ID b)%N else str_lt (Pipeline_Name a) (Pipeline_Name b)) _ _ H1 H2) as (_ & H3 & H4).
  destruct (string_then_key Pipeline_Name (fun a b => (Pipeline_ID a <? Pipeline_ID b)%N) _ _ H3 H4) as (_ & ? & ?). cbv beta in *. order_lia.
Qed.

Lemma active_before_key a b : active_before a b = false -> active_before b a = false -> ActivePipeline_PipelineID a = ActivePipeline_PipelineID b.
Proof.
  intros H1 H2. destruct (string_then_key ActivePipeline_CustomerSlug (fun a b => if decide (ActivePipeline_PipelineName a = ActivePipeline_PipelineName b) then (ActivePipeline_PipelineID a <? ActivePipeline_PipelineID b)%N else str_lt (ActivePipeline_PipelineName a) (ActivePipeline_PipelineName b)) _ _ H1 H2) as (_ & H3 & H4).
  destruct (string_then_key ActivePipeline_PipelineName (fun a b => (ActivePipeline_PipelineID a <? ActivePipeline_PipelineID b)%N) _ _ H3 H4) as (_ & ? & ?). cbv beta in *. order_lia.
Qed.

(** A row is determined by its id. *)
Lemma row_by_id {A} (id : A -> N) (m : gmap N A) p x y : (forall i x, m !! i = Some x -> id x = i) ->
  x ∈ rows m p -> y ∈ rows m p -> id x = id y -> x = y.
Proof. intros Hid [_ [i Hi]]%rows_elem [_ [j Hj]]%rows_elem He. rewrite (Hid _ _ Hi), (Hid _ _ Hj) in He. congruence. Qed.

Section lists.
Context (allowed : gset N) (d1 d2 : DB).
Hypotheses (Hlow : low allowed d1 d2) (W1 : tables_wf d1) (W2 : tables_wf d2).

Lemma low_GetCustomer c : c ∈ allowed -> pg_GetCustomer c d1 = pg_GetCustomer c d2.
Proof using Hlow. intros Hc. unfold pg_GetCustomer. by rewrite (low_customer _ _ _ _ Hlow Hc). Qed.

Definition customer_ids d (W : tables_wf d) : forall i c, t_customers d !! i = Some c -> Customer_ID c = i :=
  fun i c Hi => proj1 (proj1 (proj1 W) i c Hi).
Definition key_ids d (W : tables_wf d) : forall i k, t_api_keys d !! i = Some k -> APIKey_ID k = i :=
  fun i k Hi => proj1 (proj2 (proj2 (proj1 W)) i k Hi).
Definition agent_ids d (W : tables_wf d) : forall i r, t_agents d !! i = Some r -> Agent_ID (ag_agent r) = i :=
  fun i r Hi => proj1 (proj1 (proj1 (proj2 W)) i r Hi).
Definition token_ids d (W : tables_wf d) : forall i t, t_bootstrap_tokens d !! i = Some t -> BootstrapToken_ID t = i :=
  fun i t Hi => proj1 (proj2 (proj2 (proj2 (proj2 (proj1 (proj2 W))))) i t Hi).
Definition pipeline_ids d (W : tables_wf d) : forall i r, t_pipelines d !! i = Some r -> pl_id r = i :=
  fun i r Hi => proj1 (proj1 (proj2 (proj2 W)) i r Hi).

Lemma low_ListCustomers status : filter (fun c => bool_decide (Customer_ID c ∈ allowed) = true) (pg_ListCustomers status d1)
  = filter (fun c => bool_decide (Customer_ID c ∈ allowed) = true) (pg_ListCustomers status d2).
Proof using All.
  unfold pg_ListCustomers. apply sort_by_filter_same; [apply _| | | |].
  - intros x y Hx Hy _ _ L1 L2. eapply (row_by_id Customer_ID); [apply (customer_ids _ W1)|done..|]. by eapply (by_time_key Customer_CreatedAt Customer_ID).
  - apply (rows_NoDup Customer_ID), customer_ids, W1.
  - apply (rows_NoDup Customer_ID), customer_ids, W2.
  - apply rows_same. intros i x Hx%bool_decide_eq_true. split; intros Hi.
    + rewrite (customer_ids _ W1 _ _ Hi) in Hx. by rewrite <- (low_customer _ _ _ _ Hlow Hx).
    + rewrite (customer_ids _ W2 _ _ Hi) in Hx. by rewrite (low_customer _ _ _ _ Hlow Hx).
Qed.

Lemma low_ListAPIKeys c : c ∈ allowed -> pg_ListAPIKeys c d1 = pg_ListAPIKeys c d2.
Proof using All.
  intros Hc. unfold pg_ListAPIKeys. rewrite (low_GetCustomer _ Hc). destruct (pg_GetCustomer c d2); [|done]. f_equal.
  apply sort_by_same; [apply _| | | |].
  - intros x y Hx Hy L1 L2. eapply (row_by_id APIKey_ID); [apply (key_ids _ W1)|done..|]. by eapply (by_time_key APIKey_CreatedAt APIKey_ID).
  - apply (rows_NoDup APIKey_ID), key_ids, W1.
  - apply (rows_NoDup APIKey_ID), key_ids, W2.
  - intros x. rewrite !rows_elem, !bool_decide_eq_true. split; intros [Hx [i Hi]]; (split; [done|]); exists i.
    + by eapply low_key; [exact Hlow|by rewrite Hx|].
    + by eapply low_key; [symmetry; exact Hlow|by rewrite Hx|].
Qed.

Lemma low_ListBootstrapTokens c : c ∈ allowed -> pg_ListBootstrapTokens c d1 = pg_ListBootstrapTokens c d2.
Proof using All.
  intros Hc. unfold pg_ListBootstrapTokens. rewrite (low_GetCustomer _ Hc). destruct (pg_GetCustomer c d2); [|done]. f_equal.
  apply sort_by_same; [apply _| | | |].
  - intros x y Hx Hy L1 L2. eapply (row_by_id BootstrapToken_ID); [apply (token_ids _ W1)|done..|]. unfold token_before in *. order_lia.
  - apply (rows_NoDup BootstrapToken_ID), token_ids, W1.
  - apply (rows_NoDup BootstrapToken_ID), token_ids, W2.
  - intros x. rewrite !rows_elem, !bool_decide_eq_true. split; intros [Hx [i Hi]]; (split; [done|]); exists i.
    + by eapply low_token; [exact Hlow|by rewrite Hx|].
    + by eapply low_token; [symmetry; exact Hlow|by rewrite Hx|].
Qed.
End lists.

Lemma NoDup_select_agents d p : tables_wf d -> NoDup (Agent_ID <$> (select_agent d <$> rows (t_agents d) p)).
Proof.
  intros W. rewrite <- list_fmap_compose. rewrite (list_fmap_ext (Agent_ID ∘ select_agent d) (fun r => Agent_ID (ag_agent r))) by done.
  apply rows_key_NoDup, agent_ids, W.
Qed.

Lemma low_agents_incl allowed d1 d2 p a : low allowed d1 d2 -> match Agent_CustomerID a with Some c => bool_decide (c ∈ allowed) | None => false end = true ->
  a ∈ select_agent d1 <$> rows (t_agents d1) p -> a ∈ select_agent d2 <$> rows (t_agents d2) p.
Proof.
  intros Hl Ho (r & -> & [Hp [i Hi]]%rows_elem)%list_elem_of_fmap. change (Agent_CustomerID (select_agent d1 r)) with (Agent_CustomerID (ag_agent r)) in Ho.
  destruct (Agent_CustomerID (ag_agent r)) as [c|] eqn:E; [|done]. apply bool_decide_eq_true in Ho.
  apply list_elem_of_fmap. exists r. split; [by eapply low_select_agent|]. apply rows_elem. split; [done|]. exists i. by eapply low_agent.
Qed.

Lemma low_ListAgents allowed d1 d2 f : low allowed d1 d2 -> tables_wf d1 -> tables_wf d2 ->
  let P a := match Agent_CustomerID a with Some c => bool_decide (c ∈ allowed) | None => false end = true in
  filter P (pg_ListAgents f d1) = filter P (pg_ListAgents f d2).
Proof.
  intros Hl W1 W2 P. unfold pg_ListAgents. apply sort_by_filter_same; [apply _| | | |].
  - intros x y Hx Hy _ _ L1 L2. pose proof (by_time_key Agent_CreatedAt Agent_ID _ _ L1 L2) as He.
    apply list_elem_of_fmap in Hx as (r & -> & Hr), Hy as (q & -> & Hq). f_equal. eapply (row_by_id (fun r => Agent_ID (ag_agent r))); [|done..].
    by apply agent_ids.
  - by apply (NoDup_fmap_1 Agent_ID), NoDup_select_agents.
  - by apply (NoDup_fmap_1 Agent_ID), NoDup_select_agents.
  - intros x Hx. split; apply (low_agents_incl allowed); try done.
Qed.

Lemma NoDup_omap_by {A B} (f : A -> option B) (id : B -> N) (id' : A -> N) (l : list A) :
  (forall x y, f x = Some y -> id y = id' x) -> NoDup (id' <$> l) -> NoDup (id <$> omap f l).
Proof.
  intros Hf. induction l as [|x l IH]; [constructor|]. rewrite fmap_cons. intros [Hn Hnd]%NoDup_cons. simpl.
  destruct (f x) as [y|] eqn:E; [|by apply IH]. rewrite fmap_cons. constructor; [|by apply IH].
  intros (y' & He & (x' & Hx' & E')%list_elem_of_omap)%list_elem_of_fmap. apply Hn, list_elem_of_fmap. exists x'.
  split; [|done]. by rewrite <- (Hf _ _ E), <- (Hf _ _ E').
Qed.

(** An entry of a listing of pipelines. *)
Definition live_pipeline (d : DB) (r : pipeline_row) : option Pipeline :=
  c ← t_customers d !! pl_customer_id r; if decide (Customer_Status c = CustomerDeleted) then None else select_pipeline d r.

Lemma live_pipeline_Some d r x : live_pipeline d r = Some x -> Pipeline_ID x = pl_id r /\ Pipeline_CustomerID x = pl_customer_id r.
Proof.
  unfold live_pipeline, select_pipeline. destruct (t_customers d !! _) as [c|]; [|done]. simpl. case_decide; [done|].
  by intros [= <-].
Qed.

Lemma live_pipelines_NoDup d p : tables_wf d -> NoDup (omap (live_pipeline d) (rows (t_pipelines d) p)).
Proof.
  intros W. apply (NoDup_fmap_1 Pipeline_ID), (NoDup_omap_by _ _ pl_id).
  - intros r x Hx. by apply live_pipeline_Some in Hx as [? _].
  - by apply rows_key_NoDup, pipeline_ids.
Qed.

Lemma live_pipelines_by_id d p x y : tables_wf d -> x ∈ omap (live_pipeline d) (rows (t_pipelines d) p) ->
  y ∈ omap (live_pipeline d) (rows (t_pipelines d) p) -> Pipeline_ID x = Pipeline_ID y -> x = y.
Proof.
  intros W (r & Hr & Hx)%list_elem_of_omap (q & Hq & Hy)%list_elem_of_omap He.
  destruct (live_pipeline_Some _ _ _ Hx) as [Hxr _], (live_pipeline_Some _ _ _ Hy) as [Hyq _].
  assert (r = q) as -> by (eapply (row_by_id pl_id); [exact (pipeline_ids _ W)|exact Hr|exact Hq|congruence]). congruence.
Qed.

Lemma low_pipelines_incl allowed d1 d2 p x : low allowed d1 d2 -> tables_wf d1 -> tables_wf d2 -> Pipeline_CustomerID x ∈ allowed ->
  x ∈ omap (live_pipeline d1) (rows (t_pipelines d1) p) -> x ∈ omap (live_pipeline d2) (rows (t_pipelines d2) p).
Proof.
  intros Hl W1 W2 Ho (r & [Hp [i Hi]]%rows_elem & Hx)%list_elem_of_omap. destruct (live_pipeline_Some _ _ _ Hx) as [_ Hc]. rewrite Hc in Ho.
  apply list_elem_of_omap. exists r. split; [apply rows_elem; split; [done|]; exists i; by eapply low_pipeline|].
  rewrite <- Hx. unfold live_pipeline. rewrite (low_customer _ _ _ _ Hl Ho).
  by rewrite (low_select_pipeline _ _ _ _ _ Hl (proj2 (proj2 W1)) (proj2 (proj2 W2)) Hi Ho).
Qed.

Lemma low_ListPipelines allowed d1 d2 : low allowed d1 d2 -> tables_wf d1 -> tables_wf d2 ->
  filter (fun x => bool_decide (Pipeline_CustomerID x ∈ allowed) = true) (pg_ListPipelines None d1)
  = filter (fun x => bool_decide (Pipeline_CustomerID x ∈ allowed) = true) (pg_ListPipelines None d2).
Proof.
  intros Hl W1 W2. unfold pg_ListPipelines. fold (live_pipeline d1). fold (live_pipeline d2). apply sort_by_filter_same; [apply _| | | |].
  - intros x y Hx Hy _ _ L1 L2. eapply live_pipelines_by_id; [exact W1|exact Hx|exact Hy|]. by apply pipeline_before_key.
  - by apply live_pipelines_NoDup.
  - by apply live_pipelines_NoDup.
  - intros x Hx%bool_decide_eq_true. split; apply (low_pipelines_incl allowed); try done; by symmetry.
Qed.

Lemma low_ListCustomerPipelines allowed d1 d2 c : low allowed d1 d2 -> tables_wf d1 -> tables_wf d2 -> c ∈ allowed ->
  pg_ListPipelines (Some c) d1 = pg_ListPipelines (Some c) d2.
Proof.
  intros Hl W1 W2 Hc. unfold pg_ListPipelines. fold (live_pipeline d1). fold (live_pipeline d2). apply sort_by_same; [apply _| | | |].
  - intros x y Hx Hy L1 L2. eapply live_pipelines_by_id; [exact W1|exact Hx|exact Hy|]. by apply pipeline_before_key.
  - by apply live_pipelines_NoDup.
  - by apply live_pipelines_NoDup.
  - assert (forall d x, x ∈ omap (live_pipeline d) (rows (t_pipelines d) (fun r => bool_decide (pl_customer_id r = c))) -> Pipeline_CustomerID x = c) as Ho.
    { intros d x (r & [Hp%bool_decide_eq_true _]%rows_elem & Hx)%list_elem_of_omap. by destruct (live_pipeline_Some _ _ _ Hx) as [_ ->]. }
    assert (forall e1 e2 x, low allowed e1 e2 -> tables_wf e1 -> tables_wf e2 -> x ∈ omap (live_pipeline e1) (rows (t_pipelines e1)
        (fun r => bool_decide (pl_customer_id r = c))) -> x ∈ omap (live_pipeline e2) (rows (t_pipelines e2) (fun r => bool_decide (pl_customer_id r = c)))) as Hi.
    { intros e1 e2 x He V1 V2 Hx. eapply low_pipelines_incl; [exact He|done..| |exact Hx]. by rewrite (Ho _ _ Hx). }
    intros x. split; apply Hi; try done; by symmetry.
Qed.

Lemma select_version_Some d v x : select_version d v = Some x -> PipelineVersion_ID x = pv_id v /\ PipelineVersion_Version x = pv_version v.
Proof. unfold select_version. destruct (t_pipelines d !! _); [|done]. simpl. by intros [= <-]. Qed.

Lemma low_ListPipelineVersions allowed d1 d2 r : low allowed d1 d2 -> tables_wf d1 -> tables_wf d2 -> t_pipelines d1 !! pl_id r = Some r ->
  pl_customer_id r ∈ allowed -> pg_ListPipelineVersions (pl_id r) d1 = pg_ListPipelineVersions (pl_id r) d2.
Proof.
  intros Hl W1 W2 Hr Hc. pose proof (low_pipeline _ _ _ _ _ Hl Hc Hr) as Hr2. destruct W1 as (_ & _ & W1), W2 as (_ & _ & W2).
  unfold pg_ListPipelineVersions.
  assert (forall d, pipelines_wf d -> NoDup (omap (select_version d) (versions_of (pl_id r) d))) as Hnd.
  { intros d (_ & W & _). apply (NoDup_fmap_1 PipelineVersion_ID), (NoDup_omap_by _ _ pv_id).
    - intros v x Hx. by apply select_version_Some in Hx as [? _].
    - apply rows_key_NoDup. intros i v Hi. by apply W. }
  apply sort_by_same; [apply _| |by apply Hnd|by apply Hnd|].
  - intros x y (v & [Hv [i Hi]]%versions_of_elem & Hx)%list_elem_of_omap (w & [Hw [j Hj]]%versions_of_elem & Hy)%list_elem_of_omap L1 L2.
    destruct (select_version_Some _ _ _ Hx) as [_ Hxv], (select_version_Some _ _ _ Hy) as [_ Hyw]. unfold PgPipelines.version_before in *.
    destruct (proj1 W1 _ _ Hr) as (_ & _ & (n & _ & _ & Hu) & _). assert (i = j) as -> by (eapply Hu; [exact Hi|exact Hj|done|done|order_lia]).
    congruence.
  - assert (forall v, v ∈ versions_of (pl_id r) d1 -> select_version d1 v = select_version d2 v) as Hs.
    { intros v [Hv _]%versions_of_elem. eapply low_select_version; [done| |done]. by rewrite Hv. }
    intros x. rewrite !list_elem_of_omap. pose proof (low_versions_iff _ _ _ _ Hl W1 W2 Hr Hc) as He. split; intros (v & Hv & Hx); exists v.
    + split; [by apply He|]. by rewrite <- Hs.
    + apply He in Hv. split; [done|]. by rewrite Hs.
Qed.

Lemma low_GetPipelineVersion allowed d1 d2 r z : low allowed d1 d2 -> tables_wf d1 -> tables_wf d2 -> t_pipelines d1 !! pl_id r = Some r ->
  pl_customer_id r ∈ allowed -> pg_GetPipelineVersion (pl_id r) z d1 = pg_GetPipelineVersion (pl_id r) z d2.
Proof.
  intros Hl (_ & _ & W1) (_ & _ & W2) Hr Hc. pose proof (low_pipeline _ _ _ _ _ Hl Hc Hr) as Hr2. unfold pg_GetPipelineVersion.
  assert (find_version (pl_id r) z d1 = find_version (pl_id r) z d2) as He.
  { apply option_eq. intros v. rewrite !find_version_iff by done. split; intros (Hi & Hp & Hz); (split; [|done]).
    - eapply low_version; [exact Hl|by rewrite Hp|done..].
    - eapply low_version; [symmetry; exact Hl|by rewrite Hp|done..]. }
  rewrite He. destruct (find_version (pl_id r) z d2) as [v|] eqn:Ef; [|done]. simpl.
  rewrite (low_select_version allowed d1 d2 v r); [done..| |done]. apply find_version_Some in Ef as [-> _]. done.
Qed.

Lemma low_ListActivePipelines allowed d1 d2 tc c : low allowed d1 d2 -> tables_wf d1 -> tables_wf d2 -> c ∈ allowed ->
  pg_ListActivePipelines tc (Some c) d1 = pg_ListActivePipelines tc (Some c) d2.
Proof.
  intros Hl W1 W2 Hc. unfold pg_ListActivePipelines.
  assert (forall d p, tables_wf d -> NoDup (omap (active_of d) (rows (t_pipelines d) p))) as Hnd.
  { intros d p W. apply (NoDup_fmap_1 ActivePipeline_PipelineID), (NoDup_omap_by _ _ pl_id); [apply active_of_id|].
    by apply rows_key_NoDup, pipeline_ids. }
  apply sort_by_same; [apply _| |by apply Hnd|by apply Hnd|].
  - intros x y (r & Hr & Hx)%list_elem_of_omap (q & Hq & Hy)%list_elem_of_omap L1 L2. pose proof (active_before_key _ _ L1 L2) as He.
    rewrite (active_of_id _ _ _ Hx), (active_of_id _ _ _ Hy) in He.
    assert (r = q) as -> by (eapply (row_by_id pl_id); [exact (pipeline_ids _ W1)|exact Hr|exact Hq|exact He]). congruence.
  - assert (forall e1 e2 x, low allowed e1 e2 -> tables_wf e1 -> x ∈ omap (active_of e1) (rows (t_pipelines e1)
        (fun r => bool_decide (pl_target_class r = tc) && bool_decide (pl_customer_id r = c))) ->
      x ∈ omap (active_of e2) (rows (t_pipelines e2) (fun r => bool_decide (pl_target_class r = tc) && bool_decide (pl_customer_id r = c)))) as Hi.
    { intros e1 e2 x He W (r & [Hp [i Hi]]%rows_elem & Hx)%list_elem_of_omap. apply list_elem_of_omap. exists r.
      assert (pl_customer_id r ∈ allowed) as Ho by (apply andb_prop in Hp as [_ ->%bool_decide_eq_true]; done).
      split; [apply rows_elem; split; [done|]; exists i; by eapply low_pipeline|].
      by rewrite <- (low_active_of _ _ _ _ _ He (proj2 (proj2 W)) Hi Ho). }
    intros x. split; apply Hi; try done; by symmetry.
Qed.

(** ** Requests that only read *)

Inductive body : Type :=
| BCustomers (l : list api_Customer)
| BCustomer (c : api_Customer)
| BKeys (l : list api_ApiKey)
| BAgents (l : list api_Agent)
| BAgent (a : api_AgentDetail)
| BConfig (assigned_reported : string * string)
| BEvents (l : list api_AgentEvent)
| BTokens (l : list api_BootstrapToken)
| BPipelines (l : list api_Pipeline)
| BPipeline (p : api_Pipeline * list api_VersionSummary)
| BVersion (v : api_PipelineVersion)
| BValidation (r : Result).

Definition outcome_map {A B} (f : A -> B) (o : outcome A) : outcome B :=
  match o with
  | Success s a => Success s (f a)
  | Failure s c m => Failure s c m
  | Raised e => Raised e
  end.

Inductive read_request : Type :=
| QListCustomers (status : option string)
| QGetCustomer (id : N)
| QListApiKeys (id : N)
| QListAgents (f : AgentFilter)
| QGetAgent (id : N)
| QGetAgentConfig (id : N)
| QListAgentEvents (id : N) (limit : option Z)
| QListBootstrapTokens (id : N)
| QListPipelines
| QListCustomerPipelines (id : N)
| QGetPipeline (id : N)
| QGetPipelineVersion (id : N) (version : Z)
(** the draft of an edge pipeline *)
| QValidateEdge (g : Graph).

(** A request turned away: 403 or 404. *)
Definition refused {A} (o : outcome A) : Prop := status_of o = 403%Z \/ status_of o = 404%Z.

Definition alike {A} (o1 o2 : outcome A) : Prop := o1 = o2 \/ refused o1 /\ refused o2.

Section reads.
Context {AE : Aead} {CO : Collector} {YM : Yaml}.
Context (unicode_lower : Z -> Z) (cipher : option Cipher).

Definition read (p : option Principal) (r : read_request) (d : DB) : outcome body :=
  match r with
  | QListCustomers status => outcome_map BCustomers (ListCustomers p status d)
  | QGetCustomer id => outcome_map BCustomer (GetCustomer p id d)
  | QListApiKeys id => outcome_map BKeys (ListApiKeys p id d)
  | QListAgents f => outcome_map BAgents (ListAgents p f d)
  | QGetAgent id => outcome_map BAgent (GetAgent p id d)
  | QGetAgentConfig id => outcome_map BConfig (GetAgentConfig unicode_lower cipher p id d)
  | QListAgentEvents id limit => outcome_map BEvents (ListAgentEvents p id limit d)
  | QListBootstrapTokens id => outcome_map BTokens (ListBootstrapTokens p id d)
  | QListPipelines => outcome_map BPipelines (ListPipelines p d)
  | QListCustomerPipelines id => outcome_map BPipelines (ListCustomerPipelines p id d)
  | QGetPipeline id => outcome_map BPipeline (GetPipeline p id d)
  | QGetPipelineVersion id z => outcome_map BVersion (GetPipelineVersion p id z d)
  | QValidateEdge g => outcome_map BValidation (ValidatePipeline unicode_lower cipher (Some ClassEdge) g d)
  end.

Context (p : option Principal) (allowed : gset N) (d1 d2 : DB).
Hypotheses (Hscope : customerScope p = Some allowed) (Hlow : low allowed d1 d2) (W1 : tables_wf d1) (W2 : tables_wf d2).

Lemma access_cases id : requireCustomerAccess p (Some id) = Some errNoCustomerAccess \/ (requireCustomerAccess p (Some id) = None /\ id ∈ allowed).
Proof using Hscope.
  destruct (requireCustomerAccess p (Some id)) as [f|] eqn:E; [left|right].
  - unfold requireCustomerAccess in E. repeat case_match; congruence.
  - split; [done|]. by destruct (access_granted _ _ _ Hscope E) as (c & [= ->] & ?).
Qed.

(** An agent is one of the scope's, the same in both, or the request is turned
    away in both. *)
Lemma agent_head_cases id :
  (exists r c, t_agents d1 !! id = Some r /\ t_agents d2 !! id = Some r /\ Agent_CustomerID (ag_agent r) = Some c /\ c ∈ allowed
     /\ agent_head p id d1 = Ok (select_agent d1 r) /\ agent_head p id d2 = Ok (select_agent d1 r))
  \/ forall A, exists r1 r2, agent_head p id d1 = Err r1 /\ agent_head p id d2 = Err r2
       /\ refused (refuse (A := A) r1) /\ refused (refuse (A := A) r2).
Proof using All.
  assert (forall e1 e2 r c, low allowed e1 e2 -> t_agents e1 !! id = Some r -> Agent_CustomerID (ag_agent r) = Some c -> c ∈ allowed ->
    agent_head p id e2 = Ok (select_agent e1 r)) as Hok.
  { intros e1 e2 r c Hl Hr Ho Hc. unfold agent_head, pg_GetAgent. rewrite (low_agent _ _ _ _ _ _ Hl Ho Hc Hr).
    rewrite <- (low_select_agent _ _ _ _ _ Hl Ho Hc). change (Agent_CustomerID (select_agent e1 r)) with (Agent_CustomerID (ag_agent r)).
    rewrite Ho. unfold requireCustomerAccess, CanAccessCustomer. unfold customerScope in Hscope. destruct p as [q|]; [|done].
    destruct (Principal_AllCustomers q); [done|]. injection Hscope as ->. by rewrite bool_decide_true. }
  assert (forall e, (exists r c, t_agents e !! id = Some r /\ Agent_CustomerID (ag_agent r) = Some c /\ c ∈ allowed)
    \/ exists r, agent_head p id e = Err r /\ forall A, refused (refuse (A := A) r)) as Hc.
  { intros e. unfold agent_head, pg_GetAgent. destruct (t_agents e !! id) as [r|]; [|right; eexists; split; [done|]; intros; by right].
    change (Agent_CustomerID (select_agent e r)) with (Agent_CustomerID (ag_agent r)).
    destruct (requireCustomerAccess p _) as [f|] eqn:E.
    - right. eexists. split; [done|]. intros A. by left.
    - destruct (access_granted _ _ _ Hscope E) as (c & Ho & Hin). left. by exists r, c. }
  destruct (Hc d1) as [(r & c & Hr & Ho & Hin)|(r1 & E1 & R1)].
  - left. exists r, c. split_and!; try done; [by eapply low_agent|by eapply (Hok d1 d1)|by eapply (Hok d1 d2)].
  - right. intros A. destruct (Hc d2) as [(r & c & Hr & Ho & Hin)|(r2 & E2 & R2)].
    + rewrite (Hok d2 d1 r c) in E1; [done|by symmetry|done..].
    + by exists r1, r2.
Qed.

Lemma pipeline_cases id :
  (exists r, pl_id r = id /\ t_pipelines d1 !! id = Some r /\ t_pipelines d2 !! id = Some r /\ pl_customer_id r ∈ allowed
     /\ pg_GetPipeline id d1 = pg_GetPipeline id d2)
  \/ (forall d, d = d1 \/ d = d2 -> pg_GetPipeline id d = Err ErrNotFound /\ t_pipelines d !! id = None
        \/ exists pipe, pg_GetPipeline id d = Ok pipe /\ requireCustomerAccess p (Some (Pipeline_CustomerID pipe)) = Some errNoCustomerAccess).
Proof using All.
  assert (forall d, tables_wf d -> (exists r, t_pipelines d !! id = Some r /\ pl_customer_id r ∈ allowed)
    \/ (pg_GetPipeline id d = Err ErrNotFound /\ t_pipelines d !! id = None
        \/ exists pipe, pg_GetPipeline id d = Ok pipe /\ requireCustomerAccess p (Some (Pipeline_CustomerID pipe)) = Some errNoCustomerAccess)) as Hc.
  { intros d (_ & _ & W). unfold pg_GetPipeline. destruct (t_pipelines d !! id) as [r|] eqn:Er; [|right; by left].
    destruct (proj1 W _ _ Er) as (_ & [cu Hcu] & _). unfold select_pipeline. simpl. rewrite Hcu. simpl.
    destruct (access_cases (pl_customer_id r)) as [E|[_ Hin]]; [right; right; by eexists|left; by exists r]. }
  destruct (Hc d1 W1) as [(r & Hr & Hin)|H1].
  - left. pose proof (low_pipeline _ _ _ _ _ Hlow Hin Hr) as Hr2. exists r. split_and!; try done; [by eapply pipeline_ids|].
    unfold pg_GetPipeline. rewrite Hr, Hr2. simpl.
    by rewrite (low_select_pipeline _ _ _ _ _ Hlow (proj2 (proj2 W1)) (proj2 (proj2 W2)) Hr Hin).
  - destruct (Hc d2 W2) as [(r & Hr & Hin)|H2]; [|right; by intros d [->| ->]].
    left. apply low_sym in Hlow as Hl'. pose proof (low_pipeline _ _ _ _ _ Hl' Hin Hr) as Hr1. exists r. split_and!; try done; [by eapply pipeline_ids|].
    unfold pg_GetPipeline. rewrite Hr, Hr1. simpl.
    by rewrite (low_select_pipeline _ _ _ _ _ Hlow (proj2 (proj2 W1)) (proj2 (proj2 W2)) Hr1 Hin).
Qed.

Lemma alike_refl {A} (o : outcome A) : alike o o.
Proof using Type. by left. Qed.

Lemma status_outcome_map {A B} (f : A -> B) o : status_of (outcome_map f o) = status_of o.
Proof using Type. by destruct o as [| |[]]. Qed.

Lemma alike_map {A B} (f : A -> B) o1 o2 : alike o1 o2 -> alike (outcome_map f o1) (outcome_map f o2).
Proof using Type. intros [->|[H1 H2]]; [by left|right]. unfold refused in *. by rewrite !status_outcome_map. Qed.

Lemma in_scope_filter {A} (owner : A -> option N) l :
  in_scope p owner l = filter (fun x => match owner x with Some c => bool_decide (c ∈ allowed) | None => false end = true) l.
Proof using Hscope. unfold in_scope. by rewrite Hscope. Qed.

Lemma GetPipelineVersion_refused id z d :
  (pg_GetPipeline id d = Err ErrNotFound /\ t_pipelines d !! id = None
   \/ exists pipe, pg_GetPipeline id d = Ok pipe /\ requireCustomerAccess p (Some (Pipeline_CustomerID pipe)) = Some errNoCustomerAccess) ->
  refused (GetPipelineVersion p id z d).
Proof using Hscope.
  unfold GetPipelineVersion, pipeline_access, requirePipelineAccess. rewrite Hscope.
  intros [[-> Hn]|(pipe & -> & ->)]; [|by left]. unfold pg_GetPipelineVersion.
  destruct (find_version _ _ _) as [v|] eqn:Ef; [|by right]. simpl. apply find_version_Some in Ef as (Hv & _).
  unfold select_version. rewrite Hv, Hn. by right.
Qed.

End reads.

(** ** Example *)

#[local] Existing Instances ex_aead ex_yaml ex_collector PipelineService.ex_sha.

(** The same tenant beside two different neighbours. *)
Definition ex_neighbour (id : N) (slug name client : string) : DB :=
  set_api_keys (fun _ => {[ 4%N := MkAPIKey 4 2 "k" "p" "h" None 0 None None None ]})
    (set_customers (fun _ => {[ 2%N := ex_other; id := MkCustomer id slug name client CustomerActive "eu" None None 5 5 ]}) empty_db).
Definition ex_read (r : read_request) (d : DB) : outcome body :=
  read PipelineService.ex_lower (Some ex_old_cipher) (Some ex_scoped_principal) r d.

Lemma ex_neighbour_wf id slug name client : id <> 2%N -> slug <> "beta" -> client <> "cust_2" ->
  tables_wf (ex_neighbour id slug name client).
Proof.
  intros Hi Hs Hc.
  assert (forall i c, t_customers (ex_neighbour id slug name client) !! i = Some c ->
    (i = 2%N /\ c = ex_other) \/ (i = id /\ c = MkCustomer id slug name client CustomerActive "eu" None None 5 5)) as Hcu.
  { intros i c. unfold ex_neighbour. simpl. rewrite lookup_insert_Some, lookup_singleton_Some. naive_solver. }
  split; [|split].
  - split; [|split].
    + intros i c [[-> ->]|[-> ->]]%Hcu; split; try done; by vm_compute.
    + intros i j c c' [[-> ->]|[-> ->]]%Hcu [[-> ->]|[-> ->]]%Hcu; simpl; naive_solver.
    + intros i k. simpl. rewrite lookup_singleton_Some. intros [<- <-]. split; [done|]. exists ex_other. unfold ex_neighbour. simpl. by rewrite lookup_insert_eq.
  - split_and!; simpl; first [by apply Forall_nil|by apply SSorted_nil|intros i *; by rewrite lookup_empty].
  - by apply pipelines_wf_no_rows.
Qed.


(** An id of another tenant's pipeline is told apart from one that does not
    exist. *)
Example foreign_pipeline_told_apart :
  status_of (ex_read (QGetPipelineVersion 10 1) ex_scoped_db) = 403%Z /\ status_of (ex_read (QGetPipelineVersion 11 1) ex_scoped_db) = 404%Z.
Proof. split; vm_compute; reflexivity. Qed.
