(* ===== verification/ApiAdmin.v ===== *)
(** The REST handlers of administration: internal/api/handlers_admin.go (users),
    handlers_webhooks.go, handlers_alerting.go and handlers_apitokens.go, and the
    sign-in handlers of handlers.go.

    [url_parse_error] is the text of url.Parse's error, [no_key_message] the
    message with a freshly generated key.  Bodies are decoded already; the
    threshold of an alert rule is decoded into a float32. *)
From S2P Require Import Prelude GoStrings Json GoFormat GoFloat StoreTypes Slug Tokens Authz PgCore Crypto TenantsService Webhooks.
From S2P Require Import Render PgUsers PgScim ScimAccess PgSettings ApiCore Billing.
From Stdlib Require Import SpecFloat.

Open Scope string_scope.

(** ** Users *)

Record api_UserAccount : Type := MkApiUserAccount {
  au_Id : N;
  au_Email : string;
  au_DisplayName : option string;
  au_Role : string;
  au_Disabled : bool;
  au_Invited : bool;
  au_Identities : list string;
  au_CustomerIds : list N;
  au_LastLoginAt : option Z;
  au_CreatedAt : Z
}.

Definition toUserAccount (u : UserWithIdentities) : api_UserAccount :=
  let user := UWI_User u in
  MkApiUserAccount (User_ID user) (User_Email user) (User_DisplayName user) (User_Role user)
    (bool_decide (is_Some (User_DisabledAt user))) (length (UWI_Identities u) =? 0)%nat (UWI_Identities u) (UWI_CustomerIDs u)
    (User_LastLoginAt user) (User_CreatedAt user).

(** ** Webhooks *)

Record api_Webhook : Type := MkApiWebhook {
  aw_Id : N;
  aw_Type : string;
  aw_Name : string;
  aw_Url : string;
  aw_Events : list string;
  aw_Enabled : bool;
  aw_HasSecret : bool;
  aw_CreatedAt : Z
}.

(** The length of a byte slice that may be nil. *)
Definition has_bytes (b : option string) : bool := (0 <? len (default "" b))%Z.

Definition toWebhook (w : Webhook) : api_Webhook :=
  MkApiWebhook (Webhook_ID w) (Webhook_Type w) (Webhook_Name w) (Webhook_URL w) (Webhook_Events w) (Webhook_Enabled w)
    (has_bytes (Webhook_SecretEnc w)) (Webhook_CreatedAt w).

Definition webhookType (t : option string) : result string handler_err :=
  match t with
  | None => Ok WebhookTypeGeneric
  | Some t =>
      if bool_decide (t ∈ [WebhookTypeGeneric; WebhookTypeSlack; WebhookTypePagerDuty; WebhookTypeOpsgenie]) then Ok t
      else Err (badRequestError ("unknown channel type " +:+ t))
  end.

Definition url_error_text (url_parse_error : string) (e : url_err) : string :=
  match e with
  | ErrInvalidURL => "invalid URL: " +:+ url_parse_error
  | ErrNoHost => "URL must include a host"
  | ErrLinkLocal => "link-local and metadata addresses are not allowed"
  | ErrPlainHTTP => "http:// is only allowed for localhost targets; use https://"
  | ErrScheme => "URL must use https:// (http:// only for localhost)"
  end.

Definition SecretedWebhookType (t : string) : bool := bool_decide (t ∈ [WebhookTypePagerDuty; WebhookTypeOpsgenie]).

(** [None] where the code returns the empty message. *)
Definition validateChannelURLSecret {NU : NetUrl} (url_parse_error chType url : string) (hasSecret : bool) : option string :=
  if SecretedWebhookType chType then
    match (if bool_decide (url = "") then None else ValidateURL url) with
    | Some e => Some (url_error_text url_parse_error e)
    | None =>
        if negb hasSecret then
          Some (if bool_decide (chType = WebhookTypePagerDuty)
                then "PagerDuty channels require a secret (the integration routing key)"
                else "Opsgenie channels require a secret (the GenieKey API key)")
        else None
    end
  else url_error_text url_parse_error <$> ValidateURL url.

Fixpoint known_events (events : list string) : result (list string) handler_err :=
  match events with
  | [] => Ok []
  | e :: events =>
      if bool_decide (e ∈ [WebhookEventAgentOffline; WebhookEventAgentConfigFailed; WebhookEventAgentUnhealthy])
      then match known_events events with Ok out => Ok (e :: out) | Err err => Err err end
      else Err (badRequestError ("unknown webhook event " +:+ e))
  end.

Definition validateWebhookEvents (events : list string) : result (list string) handler_err :=
  match events with
  | [] => Err (badRequestError "at least one event is required")
  | _ => known_events events
  end.

Record WebhookBody : Type := MkWebhookBody {
  wb_Type : option string;
  wb_Name : string;
  wb_Url : option string;
  wb_Events : list string;
  wb_Secret : option string;
  wb_Enabled : option bool
}.

Record WebhookPatch : Type := MkWebhookPatch {
  wp_Type : option string;
  wp_Name : option string;
  wp_Url : option string;
  wp_Events : option (list string);
  wp_Secret : option string;
  wp_Enabled : option bool
}.

(** ** Alert rules *)

(** Conversions between the two float types; the one to float64 is exact. *)
Definition float32_of (f : spec_float) : spec_float :=
  match f with S754_finite s m e => binary_normalize 24 128 (cond_Zopp s (Zpos m)) e s | f => f end.
Definition float64_of (f : spec_float) : spec_float :=
  match f with S754_finite s m e => binary_normalize prec emax (cond_Zopp s (Zpos m)) e s | f => f end.

Record api_AlertRule : Type := MkApiAlertRule {
  ar_Id : N;
  ar_Name : string;
  ar_Metric : string;
  ar_Comparison : string;
  ar_Threshold : spec_float;
  ar_WindowSeconds : Z;
  ar_Severity : string;
  ar_CustomerId : option N;
  ar_ChannelIds : list N;
  ar_Enabled : bool;
  ar_CreatedAt : Z;
  ar_Query : option string
}.

Definition toAlertRule (r : AlertRule) : api_AlertRule :=
  MkApiAlertRule (AlertRule_ID r) (AlertRule_Name r) (AlertRule_Metric r) (AlertRule_Comparison r)
    (float32_of (AlertRule_Threshold r)) (AlertRule_WindowSeconds r) (AlertRule_Severity r) (AlertRule_CustomerID r)
    (AlertRule_ChannelIDs r) (AlertRule_Enabled r) (AlertRule_CreatedAt r)
    (if bool_decide (AlertRule_Query r = "") then None else Some (AlertRule_Query r)).

Definition validAlertMetric (m : string) : bool := bool_decide (m ∈ [AlertMetricIngestItems; AlertMetricErrorLogs; AlertMetricPromQL]).
Definition validAlertComparison (c : string) : bool := bool_decide (c ∈ [AlertComparisonBelow; AlertComparisonAbove]).

(** [Valid] of the generated enum. *)
Definition valid_severity (s : string) : bool := bool_decide (s ∈ ["critical"; "info"; "warning"]).

Record AlertRuleBody : Type := MkAlertRuleBody {
  rb_Name : string;
  rb_Metric : string;
  rb_Comparison : string;
  rb_Threshold : spec_float;
  rb_WindowSeconds : Z;
  rb_Severity : option string;
  rb_Query : option string;
  rb_CustomerId : option N;
  rb_ChannelIds : option (list N);
  rb_Enabled : option bool
}.

Record AlertRulePatch : Type := MkAlertRulePatch {
  rp_Name : option string;
  rp_Metric : option string;
  rp_Query : option string;
  rp_Comparison : option string;
  rp_Threshold : option spec_float;
  rp_WindowSeconds : option Z;
  rp_Severity : option string;
  rp_ChannelIds : option (list N);
  rp_Enabled : option bool
}.

Record api_MaintenanceWindow : Type := MkApiMaintenanceWindow {
  mw_Id : N;
  mw_Name : string;
  mw_StartsAt : Z;
  mw_EndsAt : Z;
  mw_CreatedAt : Z
}.

Definition toMaintenanceWindow (w : MaintenanceWindow) : api_MaintenanceWindow :=
  MkApiMaintenanceWindow (MaintenanceWindow_ID w) (MaintenanceWindow_Name w) (MaintenanceWindow_StartsAt w)
    (MaintenanceWindow_EndsAt w) (MaintenanceWindow_CreatedAt w).

(** ** API tokens *)

Record api_ApiToken : Type := MkApiApiToken {
  at_Id : N;
  at_Name : string;
  at_TokenPrefix : string;
  at_Role : string;
  at_CreatedBy : option string;
  at_CreatedAt : Z;
  at_ExpiresAt : option Z;
  at_LastUsedAt : option Z;
  at_RevokedAt : option Z
}.

Definition toAPIToken (t : APIToken) : api_ApiToken :=
  MkApiApiToken (APIToken_ID t) (APIToken_Name t) (APIToken_TokenPrefix t) (APIToken_Role t) (APIToken_CreatedByEmail t)
    (APIToken_CreatedAt t) (APIToken_ExpiresAt t) (APIToken_LastUsedAt t) (APIToken_RevokedAt t).

(** ** Handlers *)

Section server.
Context {FF : FloatFormat} {SHA : Sha256} {AE : Aead} {NU : NetUrl}.
Context (unicode_lower : Z -> Z) (uuid_string : N -> string) (no_key_message url_parse_error : string).
Context (cipher : option Cipher).

(** [encryptClientSecret] *)
Definition encryptClientSecret (nonce : option string) (secret : string) : result string handler_err :=
  match Encrypt nonce secret cipher with
  | Ok enc => Ok enc
  | Err ErrNotConfigured => Err (badRequestError no_key_message)
  | Err _ => Err otherError
  end.

Section admin.
Context (p : option Principal).

(** *** Users *)

Definition ListUsers (d : DB) : outcome (list api_UserAccount) := Success 200 (toUserAccount <$> pg_ListUsers d).

(** The error of the replacement of a user's grants, if any. *)
Definition setUserGrants (userID : N) (customerIDs : list N) (d : DB) : option handler_err * DB :=
  match pg_SetUserCustomerGrants userID customerIDs
          (user_audit p "user.grants" "user" (uuid_string userID) None (Some (JObj [("customerCount", JInt (Z.of_nat (length customerIDs)))]))) d with
  | (Err ErrNotFound, d) => (Some (badRequestError "unknown user or customer in customerIds"), d)
  | (Err _, d) => (Some otherError, d)
  | (Ok _, d) => (None, d)
  end.

Definition InviteUser (now : Z) (id : N) (email role : string) (customerIds : option (list N)) (d : DB) : outcome api_UserAccount * DB :=
  let email := strings_ToLower unicode_lower (trim_space email) in
  if bool_decide (email = "") || negb (str_contains "@" email) then (Raised (badRequestError "invalid email"), d)
  else if negb (Known role) then (Raised (badRequestError ("unknown role " +:+ go_quote role)), d)
  else
    match pg_CreateInvitedUser now id email role
            (user_audit p "user.invite" "user" (uuid_string id) None (Some (JObj [("email", JStr email); ("role", JStr role)]))) d with
    | (Err ErrEmailExists, d) => (conflict "a user with this email already exists", d)
    | (Err _, d) => (Raised otherError, d)
    | (Ok user, d) =>
        let grants := default [] customerIds in
        if negb (bool_decide (role = RoleAdmin)) && (0 <? length grants)%nat then
          match setUserGrants id grants d with
          | (Some e, d) => (Raised e, d)
          | (None, d) => (Success 201 (toUserAccount (MkUserWithIdentities user [] grants)), d)
          end
        else (Success 201 (toUserAccount (MkUserWithIdentities user [] [])), d)
    end.

(** The members of the audit payload. *)
Definition update_payload (role : option string) (disabled : option bool) : jval :=
  JObj ((match disabled with Some b => [("disabled", JBool b)] | None => [] end)
        ++ (match role with Some r => [("role", JStr r)] | None => [] end))%list.

Definition unknown_role (role : option string) : option string :=
  match role with Some r => if Known r then None else Some r | None => None end.

Definition UpdateUser (now : Z) (userID : N) (role : option string) (disabled : option bool) (customerIds : option (list N)) (d : DB)
  : outcome api_UserAccount * DB :=
  match p with
  | None => (Failure 401 codeUnauthorized "authentication required", d)
  | Some pr =>
      match unknown_role role with
      | Some r => (bad_request ("unknown role " +:+ go_quote r), d)
      | None =>
          if bool_decide (role = None) && bool_decide (disabled = None) && bool_decide (customerIds = None)
          then (bad_request "nothing to update: provide role, disabled and/or customerIds", d)
          else
            let self := bool_decide (userID = User_ID (Principal_User pr)) in
            if self && match role with Some r => negb (bool_decide (r = RoleAdmin)) | None => false end
            then (conflict "you cannot change your own role", d)
            else if self && default false disabled then (conflict "you cannot disable yourself", d)
            else
              match (match customerIds with Some cs => setUserGrants userID cs d | None => (None, d) end) with
              | (Some e, d) => (Raised e, d)
              | (None, d) =>
                  if negb (bool_decide (role = None)) || negb (bool_decide (disabled = None)) then
                    match pg_UpdateUserAdmin uuid_string now userID (MkUserUpdate role disabled)
                            (user_audit p "user.update" "user" (uuid_string userID) None (Some (update_payload role disabled))) d with
                    | (Err ErrNotFound, d) => (not_found "user not found", d)
                    | (Err ErrLastAdmin, d) => (conflict "this change would leave no enabled admin", d)
                    | (Err _, d) => (Raised otherError, d)
                    | (Ok user, d) => (Success 200 (toUserAccount user), d)
                    end
                  else
                    match pg_GetUserWithIdentities userID d with
                    | Err ErrNotFound => (not_found "user not found", d)
                    | Err _ => (Raised otherError, d)
                    | Ok u => (Success 200 (toUserAccount u), d)
                    end
              end
      end
  end.

Definition DeleteUser (userID : N) (d : DB) : outcome unit * DB :=
  match p with
  | None => (Failure 401 codeUnauthorized "authentication required", d)
  | Some pr =>
      if bool_decide (userID = User_ID (Principal_User pr)) then (conflict "you cannot delete yourself", d)
      else
        match pg_GetUser userID d with
        | Err ErrNotFound => (not_found "user not found", d)
        | Err _ => (Raised otherError, d)
        | Ok victim =>
            match pg_DeleteUser uuid_string userID
                    (user_audit p "user.delete" "user" (uuid_string userID) None (Some (JObj [("email", JStr (User_Email victim))]))) d with
            | (Err ErrNotFound, d) => (not_found "user not found", d)
            | (Err ErrLastAdmin, d) => (conflict "cannot delete the last enabled admin", d)
            | (Err _, d) => (Raised otherError, d)
            | (Ok _, d) => (Success 204 tt, d)
            end
        end
  end.

(** *** Webhooks *)

Definition ListWebhooks (d : DB) : outcome (list api_Webhook) := Success 200 (toWebhook <$> pg_ListWebhooks d).

Definition CreateWebhook (now : Z) (id : N) (nonce : option string) (body : WebhookBody) (d : DB) : outcome api_Webhook * DB :=
  if bool_decide (wb_Name body = "") then (bad_request "name is required", d)
  else
    match validateWebhookEvents (wb_Events body), webhookType (wb_Type body) with
    | Err e, _ | Ok _, Err e => (Raised e, d)
    | Ok events, Ok chType =>
        let url := default "" (wb_Url body) in
        let secret := default "" (wb_Secret body) in
        match validateChannelURLSecret url_parse_error chType url (negb (bool_decide (secret = ""))) with
        | Some msg => (bad_request msg, d)
        | None =>
            match (if negb (bool_decide (chType = WebhookTypeSlack)) && negb (bool_decide (secret = ""))
                   then match encryptClientSecret nonce secret with Ok enc => Ok (Some enc) | Err e => Err e end
                   else Ok None) with
            | Err e => (Raised e, d)
            | Ok secretEnc =>
                match pg_CreateWebhook now (MkNewWebhook id chType (wb_Name body) url events secretEnc (default true (wb_Enabled body)) (actorID p))
                        (user_audit p "webhook.create" "webhook" (uuid_string id) None
                           (Some (JObj [("events", JArr (JStr <$> events)); ("name", JStr (wb_Name body)); ("url", JStr url)]))) d with
                | (Err _, d) => (Raised otherError, d)
                | (Ok created, d) => (Success 201 (toWebhook created), d)
                end
            end
        end
    end.

Definition UpdateWebhook (now : Z) (id : N) (nonce : option string) (body : WebhookPatch) (d : DB) : outcome api_Webhook * DB :=
  match pg_GetWebhook id d with
  | Err ErrNotFound => (not_found "webhook not found", d)
  | Err _ => (Raised otherError, d)
  | Ok existing =>
      match (match wp_Type body with None => Ok (Webhook_Type existing) | t => webhookType t end) with
      | Err e => (Raised e, d)
      | Ok chType =>
          let effURL := default (Webhook_URL existing) (wp_Url body) in
          let effHasSecret := match wp_Secret body with
                              | Some s => negb (bool_decide (s = ""))
                              | None => has_bytes (Webhook_SecretEnc existing)
                              end in
          match validateChannelURLSecret url_parse_error chType effURL effHasSecret with
          | Some msg => (bad_request msg, d)
          | None =>
              match (match wp_Events body with
                     | None => Ok None
                     | Some evs => match validateWebhookEvents evs with Ok evs => Ok (Some evs) | Err e => Err e end
                     end) with
              | Err e => (Raised e, d)
              | Ok events =>
                  match (match wp_Secret body with
                         | None => Ok (false, None)
                         | Some s => if bool_decide (s = "") then Ok (true, None)
                                     else match encryptClientSecret nonce s with Ok enc => Ok (true, Some enc) | Err e => Err e end
                         end) with
                  | Err e => (Raised e, d)
                  | Ok (secretSet, secretEnc) =>
                      match pg_UpdateWebhook now id
                              (MkWebhookUpdate ((fun _ => chType) <$> wp_Type body) (wp_Name body) (wp_Url body) events secretSet secretEnc (wp_Enabled body))
                              (user_audit p "webhook.update" "webhook" (uuid_string id) None None) d with
                      | (Err ErrNotFound, d) => (not_found "webhook not found", d)
                      | (Err _, d) => (Raised otherError, d)
                      | (Ok updated, d) => (Success 200 (toWebhook updated), d)
                      end
                  end
              end
          end
      end
  end.

Definition DeleteWebhook (id : N) (d : DB) : outcome unit * DB :=
  match pg_DeleteWebhook id (user_audit p "webhook.delete" "webhook" (uuid_string id) None None) d with
  | (Err ErrNotFound, d) => (not_found "webhook not found", d)
  | (Err _, d) => (Raised otherError, d)
  | (Ok _, d) => (Success 204 tt, d)
  end.

(** The dispatcher may be absent. *)
Definition TestWebhook (dispatcher : bool) (deliveryID : string) (now : Z) (answer : option Z) (err_text : option webhook_err -> string)
  (id : N) (d : DB) : outcome (bool * string) :=
  match pg_GetWebhook id d with
  | Err ErrNotFound => not_found "webhook not found"
  | Err _ => Raised otherError
  | Ok wh =>
      if negb dispatcher then Success 200 (false, "webhook dispatcher not available")
      else Success 200 (SendTest uuid_string cipher deliveryID now wh answer err_text)
  end.

(** *** Alert rules *)

Definition ListAlertRules (d : DB) : outcome (list api_AlertRule) := Success 200 (toAlertRule <$> pg_ListAlertRules d).

Definition CreateAlertRule (now : Z) (id : N) (b : AlertRuleBody) (d : DB) : outcome api_AlertRule * DB :=
  let query := default "" (rb_Query b) in
  let promql := bool_decide (rb_Metric b = AlertMetricPromQL) in
  if negb (validAlertMetric (rb_Metric b)) then (bad_request "unknown metric", d)
  else if negb (validAlertComparison (rb_Comparison b)) then (bad_request "comparison must be below or above", d)
  else if (rb_WindowSeconds b <? 60)%Z then (bad_request "windowSeconds must be >= 60", d)
  else if promql && bool_decide (query = "") then (bad_request "promql metric requires a query", d)
  else if promql && bool_decide (is_Some (rb_CustomerId b)) then (bad_request "promql rules are cluster-wide; customerId must be null", d)
  else if match rb_Severity b with Some s => negb (valid_severity s) | None => false end then (bad_request "invalid severity", d)
  else
    match pg_CreateAlertRule now
            (MkNewAlertRule id (rb_Name b) (rb_Metric b) (if promql then query else "") (rb_Comparison b) (float64_of (rb_Threshold b))
               (rb_WindowSeconds b) (default AlertSeverityWarning (rb_Severity b)) (rb_CustomerId b) (default [] (rb_ChannelIds b))
               (default true (rb_Enabled b)))
            (user_audit p "alertrule.create" "alert_rule" (uuid_string id) None
               (Some (JObj [("metric", JStr (rb_Metric b)); ("name", JStr (rb_Name b))]))) d with
    | (Err ErrNotFound, d) => (bad_request "unknown customerId", d)
    | (Err _, d) => (Raised otherError, d)
    | (Ok created, d) => (Success 201 (toAlertRule created), d)
    end.

Definition UpdateAlertRule (now : Z) (id : N) (b : AlertRulePatch) (d : DB) : outcome api_AlertRule * DB :=
  let bad {A} (valid : A -> bool) (o : option A) := match o with Some a => negb (valid a) | None => false end in
  if bad valid_severity (rp_Severity b) then (bad_request "invalid severity", d)
  else if bad validAlertMetric (rp_Metric b) then (bad_request "unknown metric", d)
  else if bad validAlertComparison (rp_Comparison b) then (bad_request "comparison must be below or above", d)
  else if bad (fun w => 60 <=? w)%Z (rp_WindowSeconds b) then (bad_request "windowSeconds must be >= 60", d)
  else
    match pg_UpdateAlertRule now id
            (MkAlertRuleUpdate (rp_Name b) (rp_Metric b) (rp_Query b) (rp_Comparison b) (float64_of <$> rp_Threshold b)
               (rp_WindowSeconds b) (rp_Severity b) (rp_ChannelIds b) (rp_Enabled b))
            (user_audit p "alertrule.update" "alert_rule" (uuid_string id) None None) d with
    | (Err ErrNotFound, d) => (not_found "alert rule not found", d)
    | (Err _, d) => (Raised otherError, d)
    | (Ok updated, d) => (Success 200 (toAlertRule updated), d)
    end.

Definition DeleteAlertRule (id : N) (d : DB) : outcome unit * DB :=
  match pg_DeleteAlertRule id (user_audit p "alertrule.delete" "alert_rule" (uuid_string id) None None) d with
  | (Err ErrNotFound, d) => (not_found "alert rule not found", d)
  | (Err _, d) => (Raised otherError, d)
  | (Ok _, d) => (Success 204 tt, d)
  end.

(** *** Maintenance windows *)

Definition ListMaintenanceWindows (d : DB) : outcome (list api_MaintenanceWindow) :=
  Success 200 (toMaintenanceWindow <$> pg_ListMaintenanceWindows d).

Definition CreateMaintenanceWindow (now : Z) (id : N) (name : string) (startsAt endsAt : Z) (d : DB) : outcome api_MaintenanceWindow * DB :=
  if negb (after endsAt startsAt) then (bad_request "endsAt must be after startsAt", d)
  else
    match pg_CreateMaintenanceWindow now (MkNewMaintenanceWindow id name startsAt endsAt)
            (user_audit p "maintenance_window.create" "maintenance_window" (uuid_string id) None (Some (JObj [("name", JStr name)]))) d with
    | (Err _, d) => (Raised otherError, d)
    | (Ok created, d) => (Success 201 (toMaintenanceWindow created), d)
    end.

Definition DeleteMaintenanceWindow (id : N) (d : DB) : outcome unit * DB :=
  match pg_DeleteMaintenanceWindow id (user_audit p "maintenance_window.delete" "maintenance_window" (uuid_string id) None None) d with
  | (Err ErrNotFound, d) => (not_found "maintenance window not found", d)
  | (Err _, d) => (Raised otherError, d)
  | (Ok _, d) => (Success 204 tt, d)
  end.

(** *** API tokens *)

Definition ListApiTokens (d : DB) : outcome (list api_ApiToken) := Success 200 (toAPIToken <$> pg_ListAPITokens d).

(** The token and its secret. *)
Definition CreateApiToken (e : env) (name role : string) (expiresAt : option Z) (d : DB) : outcome (api_ApiToken * string) * DB :=
  match TenantsService.CreateAPIToken uuid_string e (actorID p) name role expiresAt d with
  | (Err TenantsService.ErrInvalidName, d) => (bad_request "name must be 1-200 characters", d)
  | (Err _, d) => (Raised otherError, d)
  | (Ok (t, secret), d) => (Success 201 (toAPIToken t, secret), d)
  end.

Definition RevokeApiToken (now : Z) (id : N) (d : DB) : outcome unit * DB :=
  match TenantsService.RevokeAPIToken uuid_string now (actorID p) id d with
  | (Err (TenantsService.ErrStore ErrNotFound), d) => (not_found "token not found", d)
  | (Err _, d) => (Raised otherError, d)
  | (Ok _, d) => (Success 204 tt, d)
  end.
End admin.

(** *** Sign-in *)

Record api_Me : Type := MkApiMe {
  me_Id : N;
  me_Email : string;
  me_DisplayName : option string;
  me_Role : string;
  me_CsrfToken : string;
  me_AllCustomers : bool;
  me_ScopedCustomerIds : option (gset N)
}.

Definition GetMe (p : option Principal) : outcome api_Me :=
  match p with
  | None => Failure 401 codeUnauthorized "authentication required"
  | Some p =>
      let u := Principal_User p in
      Success 200 (MkApiMe (User_ID u) (User_Email u) (User_DisplayName u) (User_Role u) (Principal_CSRFToken p) (Principal_AllCustomers p)
                     (if Principal_AllCustomers p then None else Some (Principal_AllowedCustomers p)))
  end.

(** [is_admin]: the configured addresses; the session that results besides. *)
Definition DevLogin (enabled : bool) (is_admin : string -> bool) (now : Z) (newID : N) (fresh email : string) (s : Session) (d : DB)
  : outcome unit * Session * DB :=
  if negb enabled then (Failure 403 codeForbidden "dev login is disabled", s, d)
  else
    let email := strings_ToLower unicode_lower (trim_space email) in
    if bool_decide (email = "") || negb (str_contains "@" email) then (bad_request "invalid email", s, d)
    else
      let role := if is_admin email then RoleAdmin else RoleViewer in
      match pg_UpsertUserByIdentity now newID "dev" email email None role d with
      | (Err _, d) => (Raised otherError, s, d)
      | (Ok user, d) =>
          if bool_decide (is_Some (User_DisabledAt user)) then (Failure 403 codeForbidden "account disabled", s, d)
          else (Success 204 tt, session_Login uuid_string fresh (User_ID user), d)
      end.

Definition Logout (s : Session) : outcome unit * Session := (Success 204 tt, MkSession "" "").
End server.

(** ** Administration requests *)

Inductive admin_request : Type :=
| AInviteUser (id : N) (email role : string) (customerIds : option (list N))
| AUpdateUser (userID : N) (role : option string) (disabled : option bool) (customerIds : option (list N))
| ADeleteUser (userID : N)
| ACreateWebhook (id : N) (nonce : option string) (body : WebhookBody)
| AUpdateWebhook (id : N) (nonce : option string) (body : WebhookPatch)
| ADeleteWebhook (id : N)
| ACreateAlertRule (id : N) (body : AlertRuleBody)
| AUpdateAlertRule (id : N) (body : AlertRulePatch)
| ADeleteAlertRule (id : N)
| ACreateWindow (id : N) (name : string) (startsAt endsAt : Z)
| ADeleteWindow (id : N)
| ACreateApiToken (e : env) (name role : string) (expiresAt : option Z)
| ARevokeApiToken (id : N)
| AUpdateBilling (gib items : option Z) (currency : option string)
| ASetOverride (id : N) (gib items : option Z)
| ADeleteOverride (id : N).

Section channels.
Context {AE : Aead} {NU : NetUrl}.
Context (uuid_string : N -> string) (no_key_message url_parse_error : string) (cipher : option Cipher).

(** *** Channels that can be delivered to *)

(** A stored secret opens to a non-empty one. *)
Definition usable_secret (enc : string) : Prop :=
  exists c key secret, cipher = Some c /\ key ∈ decrypters c /\ sealed_under key secret enc /\ secret <> "".

Definition channel_ok (w : Webhook) : Prop :=
  (Webhook_Type w ∈ ["webhook"; "slack"] /\ ValidateURL (Webhook_URL w) = None
   \/ Webhook_Type w ∈ ["pagerduty"; "opsgenie"] /\ (Webhook_URL w = "" \/ ValidateURL (Webhook_URL w) = None)
      /\ is_Some (Webhook_SecretEnc w))
  /\ (forall enc, Webhook_SecretEnc w = Some enc -> usable_secret enc)
  /\ Webhook_Events w <> []
  /\ Forall (fun e => e ∈ ["agent_offline"; "agent_config_failed"; "agent_unhealthy"]) (Webhook_Events w).

Definition channels_ok (d : DB) : Prop := forall i w, x_webhooks (t_ext d) !! i = Some w -> channel_ok w.

(** The random numbers drawn for a request have the length of a nonce, and new
    secrets are sealed under a key that opens them. *)
Definition nonce_ok (r : admin_request) : Prop :=
  match r with
  | ACreateWebhook _ n _ | AUpdateWebhook _ n _ => exists b, n = Some b /\ String.length b = NonceSize
  | _ => True
  end.
Definition cipher_ok : Prop := forall c, cipher = Some c -> primary c ∈ decrypters c.

Lemma validate_spec chType url has : chType ∈ ["webhook"; "slack"; "pagerduty"; "opsgenie"] ->
  validateChannelURLSecret url_parse_error chType url has = None ->
  (chType ∈ ["webhook"; "slack"] /\ ValidateURL url = None)
  \/ (chType ∈ ["pagerduty"; "opsgenie"] /\ (url = "" \/ ValidateURL url = None) /\ has = true).
Proof using Type.
  unfold validateChannelURLSecret, SecretedWebhookType. intros Ht. case_bool_decide as Hs.
  - case_bool_decide as Hu; [|destruct (ValidateURL url) eqn:E; [done|]]; destruct has; intros; try done; right; auto.
  - destruct (ValidateURL url) eqn:E; [done|]. intros _. left. split; [|done].
    unfold WebhookTypePagerDuty, WebhookTypeOpsgenie in Hs. set_solver.
Qed.

Lemma known_events_spec evs out : known_events evs = Ok out ->
  out = evs /\ Forall (fun e => e ∈ ["agent_offline"; "agent_config_failed"; "agent_unhealthy"]) evs.
Proof using Type.
  revert out. induction evs as [|e evs IH]; simpl; intros out; [intros [= <-]; by split|].
  case_bool_decide as He; [|done]. destruct (known_events evs); [|done]. intros [= <-].
  destruct (IH _ eq_refl) as [-> ?]. split; [done|]. by constructor.
Qed.

Lemma validateWebhookEvents_spec evs out : validateWebhookEvents evs = Ok out ->
  out = evs /\ evs <> [] /\ Forall (fun e => e ∈ ["agent_offline"; "agent_config_failed"; "agent_unhealthy"]) evs.
Proof using Type. unfold validateWebhookEvents. destruct evs; [done|]. by intros [-> ?]%known_events_spec. Qed.

Lemma webhookType_spec t ct : webhookType t = Ok ct -> ct ∈ ["webhook"; "slack"; "pagerduty"; "opsgenie"].
Proof using Type.
  unfold webhookType. destruct t; [case_bool_decide as H; [|done]; intros [= <-]; exact H|]. intros [= <-]. set_solver.
Qed.

Lemma encrypt_usable n b secret enc : cipher_ok -> n = Some b -> String.length b = NonceSize -> secret <> "" ->
  encryptClientSecret no_key_message cipher n secret = Ok enc -> usable_secret enc.
Proof using Type.
  unfold encryptClientSecret, cipher_ok, usable_secret. intros Hc -> Hb Hs. destruct cipher as [c|]; [|done].
  destruct (Encrypt_sealed b secret c Hb) as (ct & -> & Hsealed). intros [= <-]. exists c, (primary c), secret. eauto.
Qed.

Lemma usable_nonempty enc : usable_secret enc -> has_bytes (Some enc) = true.
Proof using Type. by intros (c & key & s & _ & _ & (n & _ & ->) & _). Qed.

Lemma create_channel p now id n body d : cipher_ok -> nonce_ok (ACreateWebhook id n body) -> channels_ok d ->
  channels_ok (CreateWebhook uuid_string no_key_message url_parse_error cipher p now id n body d).2.
Proof using Type.
  intros Hc (b & Hn & Hb) W. unfold CreateWebhook. case_bool_decide; [done|].
  destruct (validateWebhookEvents _) as [evs|] eqn:He; [|done]. destruct (webhookType _) as [ct|] eqn:Ht; [|done].
  apply validateWebhookEvents_spec in He as (-> & Hne & Hall). apply webhookType_spec in Ht.
  destruct (validateChannelURLSecret _ _ _ _) eqn:Hv; [done|]. apply validate_spec in Hv; [|done].
  match goal with |- context [match ?x with Ok _ => _ | Err _ => _ end] => destruct x as [se|] eqn:Hse end; [|done].
  assert (forall enc, se = Some enc -> usable_secret enc) as Husable.
  { intros enc ->. case_match eqn:Hif; [|done]. apply andb_true_iff in Hif as [_ Hs]. apply negb_true_iff, bool_decide_eq_false in Hs.
    destruct (encryptClientSecret _ _ _ _) eqn:E; [|done]. simplify_eq. by eapply encrypt_usable. }
  match goal with |- context [pg_CreateWebhook ?a ?b ?e ?d] => destruct (pg_CreateWebhook a b e d) as [[w|err] d'] eqn:Hpg end; simpl.
  2: { apply inTx_Err in Hpg. by subst. }
  apply inTx_Ok in Hpg. tx_invert Hpg. subst. simpl in *. intros i w'. simpl. rewrite lookup_insert_Some. intros [[_ <-]|[_ Hw]]; [|by eapply W].
  split; [|by split_and!]. simpl. destruct Hv as [?|(Hty & Hu & Hhas)]; [by left|right]. split_and!; try done.
  apply negb_true_iff, bool_decide_eq_false in Hhas. case_match eqn:Hif.
  - destruct (encryptClientSecret _ _ _ _); [|done]. simplify_eq. done.
  - apply andb_false_iff in Hif as [Hif|Hif]; apply negb_false_iff, bool_decide_eq_true in Hif; [|done].
    subst ct. exfalso. unfold WebhookTypeSlack in Hty. set_solver.
Qed.

Lemma update_channel p now id n body d : cipher_ok -> nonce_ok (AUpdateWebhook id n body) -> channels_ok d ->
  channels_ok (UpdateWebhook uuid_string no_key_message url_parse_error cipher p now id n body d).2.
Proof using Type.
  intros Hc (b & Hn & Hb) W. unfold UpdateWebhook. unfold pg_GetWebhook at 1.
  destruct (x_webhooks (t_ext d) !! id) as [w|] eqn:Hw; [|done]. pose proof (W _ _ Hw) as (Hv0 & Hs0 & Hne0 & Hev0).
  match goal with |- context [match ?x with Ok _ => _ | Err _ => _ end] => destruct x as [ct|] eqn:Hct end; [|done].
  assert (ct ∈ ["webhook"; "slack"; "pagerduty"; "opsgenie"] /\ default (Webhook_Type w) ((fun _ => ct) <$> wp_Type body) = ct) as [Ht Hdef].
  { destruct (wp_Type body) eqn:E; [split; [by eapply webhookType_spec|done]|]. simplify_eq. split; [|done]. set_solver. }
  destruct (validateChannelURLSecret _ _ _ _) eqn:Hv; [done|]. apply validate_spec in Hv; [|done].
  match goal with |- context [match ?x with Ok _ => _ | Err _ => _ end] => destruct x as [evs|] eqn:He end; [|done].
  assert (default (Webhook_Events w) evs <> [] /\ Forall (fun e => e ∈ ["agent_offline"; "agent_config_failed"; "agent_unhealthy"]) (default (Webhook_Events w) evs))
    as [Hne Hall].
  { destruct (wp_Events body) as [l|]; [|by simplify_eq]. destruct (validateWebhookEvents l) eqn:E; [|done]. simplify_eq.
    by apply validateWebhookEvents_spec in E as (-> & ? & ?). }
  match goal with |- context [match ?x with Ok _ => _ | Err _ => _ end] => destruct x as [[set enc]|] eqn:Hse end; [|done].
  match goal with |- context [pg_UpdateWebhook ?a ?b ?c ?e ?d] => destruct (pg_UpdateWebhook a b c e d) as [[w'|err] d'] eqn:Hpg end; simpl.
  2: { apply inTx_Err in Hpg. subst. by destruct err. }
  apply inTx_Ok in Hpg. tx_invert Hpg. unfold pg_GetWebhook in Hs. rewrite Hw in Hs. simplify_eq.
  intros i w'. simpl. rewrite lookup_insert_Some. intros [[_ <-]|[_ Hw']]; [|by eapply W].
  unfold channel_ok. simpl. rewrite Hdef.
  assert (forall e, (if set then enc else Webhook_SecretEnc a) = Some e -> usable_secret e) as Husable.
  { intros e. destruct (wp_Secret body) as [s|]; [|simplify_eq; apply Hs0]. case_bool_decide as Hs; [by simplify_eq|].
    destruct (encryptClientSecret _ _ _ _) eqn:E; [|done]. simplify_eq. intros [= <-]. by eapply encrypt_usable. }
  split; [|done].
  destruct Hv as [?|(Hty & Hu & Hhas)]; [by left|right]. split_and!; try done.
  destruct (wp_Secret body) as [s|]; simplify_eq.
  - apply negb_true_iff, bool_decide_eq_false in Hhas. rewrite bool_decide_false in Hse by done.
    destruct (encryptClientSecret _ _ _ _); [|done]. simplify_eq. done.
  - destruct (Webhook_SecretEnc a); done.
Qed.
End channels.

Section administration.
Context {SHA : Sha256} {AE : Aead} {NU : NetUrl}.
Context (unicode_lower : Z -> Z) (uuid_string : N -> string) (no_key_message url_parse_error : string).
Context (cipher : option Cipher).

Definition sent {A} (r : outcome A * DB) : Z * DB := (status_of r.1, r.2).

(** The status the router sends and the tables after it. *)
Definition admin_step (p : option Principal) (now : Z) (r : admin_request) (d : DB) : Z * DB :=
  match r with
  | AInviteUser id email role cs => sent (InviteUser unicode_lower uuid_string p now id email role cs d)
  | AUpdateUser id role dis cs => sent (UpdateUser uuid_string p now id role dis cs d)
  | ADeleteUser id => sent (DeleteUser uuid_string p id d)
  | ACreateWebhook id n b => sent (CreateWebhook uuid_string no_key_message url_parse_error cipher p now id n b d)
  | AUpdateWebhook id n b => sent (UpdateWebhook uuid_string no_key_message url_parse_error cipher p now id n b d)
  | ADeleteWebhook id => sent (DeleteWebhook uuid_string p id d)
  | ACreateAlertRule id b => sent (CreateAlertRule uuid_string p now id b d)
  | AUpdateAlertRule id b => sent (UpdateAlertRule uuid_string p now id b d)
  | ADeleteAlertRule id => sent (DeleteAlertRule uuid_string p id d)
  | ACreateWindow id n s e => sent (CreateMaintenanceWindow uuid_string p now id n s e d)
  | ADeleteWindow id => sent (DeleteMaintenanceWindow uuid_string p id d)
  | ACreateApiToken e n role exp => sent (CreateApiToken uuid_string p e n role exp d)
  | ARevokeApiToken id => sent (RevokeApiToken uuid_string p now id d)
  | AUpdateBilling g i c => sent (UpdateBillingSettings now p g i c d)
  | ASetOverride id g i => sent (SetBillingOverride uuid_string now p id g i d)
  | ADeleteOverride id => sent (DeleteBillingOverride uuid_string p id d)
  end.

Definition admin_run (p : option Principal) (rs : list (Z * admin_request)) (d : DB) : DB :=
  foldl (fun d r => (admin_step p r.1 r.2 d).2) d rs.


(** *** The store calls of a request *)

Inductive store_call : Type :=
| CallUser (es : list AuditEntry) (op : user_op)
| CallSettings (now : Z) (es : list AuditEntry) (op : settings_op)
| CallCreateToken (now : Z) (es : list AuditEntry) (t : NewAPIToken)
| CallRevokeToken (now : Z) (es : list AuditEntry) (id : N).

Definition store_exec (d : DB) (c : store_call) : DB :=
  match c with
  | CallUser es op => user_exec uuid_string es d op
  | CallSettings now es op => settings_step now es op d
  | CallCreateToken now es t => (pg_CreateAPIToken now t es d).2
  | CallRevokeToken now es id => (pg_RevokeAPIToken now id es d).2
  end.

(** What a request of a principal asks of the store: nothing that demotes,
    disables or deletes the principal, and channels are written by their own
    requests only. *)
Definition call_ok (p : option Principal) (r : admin_request) (c : store_call) : Prop :=
  match c with
  | CallUser _ (CreateInvitedUser _ _ _ _) | CallUser _ (SetUserCustomerGrants _ _) => True
  | CallUser _ (UpdateUserAdmin _ id upd) => exists pr, p = Some pr /\ (id = User_ID (Principal_User pr) ->
      (UserUpdate_Role upd = None \/ UserUpdate_Role upd = Some RoleAdmin)
      /\ (UserUpdate_Disabled upd = None \/ UserUpdate_Disabled upd = Some false))
  | CallUser _ (PgScim.DeleteUser id) => exists pr, p = Some pr /\ id <> User_ID (Principal_User pr)
  | CallUser _ _ => False
  | CallSettings _ _ (OpCreateWebhook _) | CallSettings _ _ (OpUpdateWebhook _ _) =>
      match r with ACreateWebhook _ _ _ | AUpdateWebhook _ _ _ => True | _ => False end
  | _ => True
  end.

Definition runs (p : option Principal) (r : admin_request) (d d' : DB) : Prop :=
  exists calls, d' = foldl store_exec d calls /\ Forall (call_ok p r) calls.

Lemma runs_refl p r d : runs p r d d.
Proof using Type. by exists []. Qed.

Lemma runs_call p r c d : call_ok p r c -> runs p r d (store_exec d c).
Proof using Type. intros H. exists [c]. split; [done|]. by repeat constructor. Qed.

Lemma runs_trans p r d1 d2 d3 : runs p r d1 d2 -> runs p r d2 d3 -> runs p r d1 d3.
Proof using Type.
  intros (l1 & -> & H1) (l2 & -> & H2). exists (l1 ++ l2)%list. by rewrite foldl_app, Forall_app.
Qed.

Lemma grants_runs p r id cs d : runs p r d (setUserGrants uuid_string p id cs d).2.
Proof using Type.
  unfold setUserGrants. match goal with |- context [pg_SetUserCustomerGrants ?a ?b ?es ?d] =>
    pose proof (runs_call p r (CallUser es (SetUserCustomerGrants a b)) d I) as H; simpl in H;
    destruct (pg_SetUserCustomerGrants a b es d) as [[[]|[]] d'] end; exact H.
Qed.

Lemma invite_runs p r now id email role cs d : runs p r d (InviteUser unicode_lower uuid_string p now id email role cs d).2.
Proof using Type.
  unfold InviteUser. case_match; [apply runs_refl|]. case_match; [apply runs_refl|].
  match goal with |- context [pg_CreateInvitedUser ?a ?b ?c ?e ?es ?d] =>
    pose proof (runs_call p r (CallUser es (CreateInvitedUser a b c e)) d I) as Hc; simpl in Hc;
    destruct (pg_CreateInvitedUser a b c e es d) as [[u|[]] d'] end; try exact Hc.
  case_match; [|exact Hc]. eapply runs_trans; [exact Hc|].
  pose proof (grants_runs p r id (default [] cs) d'). by destruct (setUserGrants _ _ _ _ _) as [[e|] d''].
Qed.

Lemma update_runs p r now id role dis cs d : runs p r d (UpdateUser uuid_string p now id role dis cs d).2.
Proof using Type.
  unfold UpdateUser. destruct p as [pr|] eqn:Hp; [rewrite <- Hp|apply runs_refl]. destruct (unknown_role role); [apply runs_refl|].
  destruct (_ && _ && _); [apply runs_refl|].
  destruct (bool_decide (id = _) && match role with Some _ => _ | None => _ end) eqn:Hr; [apply runs_refl|].
  destruct (bool_decide (id = _) && default false dis) eqn:Hd; [apply runs_refl|].
  assert (forall e d1, match cs with Some cs => setUserGrants uuid_string p id cs d | None => (None, d) end = (e, d1) -> runs p r d d1) as Hg.
  { intros e d1. destruct cs as [cs|]; [|intros [= _ <-]; apply runs_refl]. intros Hg. pose proof (grants_runs p r id cs d) as H'.
    by rewrite Hg in H'. }
  destruct (match cs with Some _ => _ | None => _ end) as [e d1] eqn:Hcs. specialize (Hg _ _ eq_refl). destruct e; [done|].
  destruct (_ || _).
  - eapply runs_trans; [exact Hg|]. match goal with |- context [pg_UpdateUserAdmin _ ?a ?b ?c ?es ?d] =>
      assert (call_ok p r (CallUser es (UpdateUserAdmin a b c))) as Hok end.
    { exists pr. split; [done|]. intros ->. rewrite bool_decide_true in Hr, Hd by done. simpl in *. split.
      - destruct role as [ro|]; [right|by left]. by apply negb_false_iff, bool_decide_eq_true in Hr as ->.
      - destruct dis as [[]|]; [done|by right|by left]. }
    apply (runs_call _ _ _ d1) in Hok. simpl in Hok. destruct (pg_UpdateUserAdmin _ _ _ _ _ _) as [[u|[]] d']; exact Hok.
  - by destruct (pg_GetUserWithIdentities id d1) as [|[]].
Qed.

Lemma delete_runs p r id d : runs p r d (DeleteUser uuid_string p id d).2.
Proof using Type.
  unfold DeleteUser. destruct p as [pr|] eqn:Hp; [rewrite <- Hp|apply runs_refl]. case_bool_decide as Hid; [apply runs_refl|].
  destruct (pg_GetUser id d) as [u|[]]; try apply runs_refl.
  match goal with |- context [pg_DeleteUser _ ?a ?es ?d] =>
      assert (call_ok p r (CallUser es (PgScim.DeleteUser a))) as Hok by (exists pr; by split);
      apply (runs_call _ _ _ d) in Hok; simpl in Hok; destruct (pg_DeleteUser uuid_string a es d) as [[[]|[]] d'] end; exact Hok.
Qed.

Lemma call_result {A} p rq c (x : A * DB) d r d' : x = (r, d') -> store_exec d c = x.2 -> call_ok p rq c -> runs p rq d d'.
Proof using Type. intros -> H Hok. simpl in H. subst d'. by apply runs_call. Qed.

(** Split a handler down to its answers and point at the call that made the
    tables. *)
Ltac handler_cases := repeat (case_match; try apply runs_refl); simplify_eq/=; try apply runs_refl.
Ltac by_call E c := apply (call_result _ _ c _ _ _ _ E); [reflexivity|exact I].

(** Every request is a sequence of such calls. *)
Lemma admin_step_runs p now r d : runs p r d (admin_step p now r d).2.
Proof using Type.
  destruct r; simpl; [apply invite_runs|apply update_runs|apply delete_runs|..].
  - unfold CreateWebhook. handler_cases.
    all: match goal with E : pg_CreateWebhook ?a ?b ?es _ = _ |- _ => by_call E (CallSettings a es (OpCreateWebhook b)) end.
  - unfold UpdateWebhook. handler_cases.
    all: match goal with E : pg_UpdateWebhook ?a ?b ?c ?es _ = _ |- _ => by_call E (CallSettings a es (OpUpdateWebhook b c)) end.
  - unfold DeleteWebhook. handler_cases.
    all: match goal with E : pg_DeleteWebhook ?a ?es _ = _ |- _ => by_call E (CallSettings 0 es (OpDeleteWebhook a)) end.
  - unfold CreateAlertRule. handler_cases.
    all: match goal with E : pg_CreateAlertRule ?a ?b ?es _ = _ |- _ => by_call E (CallSettings a es (OpCreateAlertRule b)) end.
  - unfold UpdateAlertRule. handler_cases.
    all: match goal with E : pg_UpdateAlertRule ?a ?b ?c ?es _ = _ |- _ => by_call E (CallSettings a es (OpUpdateAlertRule b c)) end.
  - unfold DeleteAlertRule. handler_cases.
    all: match goal with E : pg_DeleteAlertRule ?a ?es _ = _ |- _ => by_call E (CallSettings 0 es (OpDeleteAlertRule a)) end.
  - unfold CreateMaintenanceWindow. handler_cases.
    all: match goal with E : pg_CreateMaintenanceWindow ?a ?b ?es _ = _ |- _ => by_call E (CallSettings a es (OpCreateWindow b)) end.
  - unfold DeleteMaintenanceWindow. handler_cases.
    all: match goal with E : pg_DeleteMaintenanceWindow ?a ?es _ = _ |- _ => by_call E (CallSettings 0 es (OpDeleteWindow a)) end.
  - unfold CreateApiToken, CreateAPIToken. handler_cases.
    all: match goal with E : pg_CreateAPIToken ?a ?b ?es _ = _ |- _ => by_call E (CallCreateToken a es b) end.
  - unfold RevokeApiToken, RevokeAPIToken, lift_store. handler_cases.
    all: match goal with E : pg_RevokeAPIToken ?a ?b ?es _ = _ |- _ => by_call E (CallRevokeToken a es b) end.
  - unfold UpdateBillingSettings. handler_cases.
    all: match goal with E : pg_UpdateBillingSettings ?a ?b ?c ?es _ = _ |- _ => by_call E (CallSettings a es (OpUpdateBilling b c)) end.
  - unfold SetBillingOverride. handler_cases.
    all: match goal with E : pg_SetBillingOverride ?a ?b ?c ?f ?g ?es _ = _ |- _ => by_call E (CallSettings a es (OpSetOverride b c f g)) end.
  - unfold DeleteBillingOverride. handler_cases.
    all: match goal with E : pg_DeleteBillingOverride ?a ?es _ = _ |- _ => by_call E (CallSettings 0 es (OpDeleteOverride a)) end.
Qed.

(** *** What the calls keep *)

Definition same_settings (d d' : DB) : Prop :=
  t_customers d' = t_customers d /\ x_webhooks (t_ext d') = x_webhooks (t_ext d) /\ x_alert_rules (t_ext d') = x_alert_rules (t_ext d)
  /\ x_windows (t_ext d') = x_windows (t_ext d) /\ x_overrides (t_ext d') = x_overrides (t_ext d).

Lemma settings_wf_same d d' : same_settings d d' -> settings_wf d -> settings_wf d'.
Proof using Type. intros (E1 & E2 & E3 & E4 & E5). unfold settings_wf, customer_ref_ok. by rewrite E1, E2, E3, E4, E5. Qed.

Lemma inTx_frame {A} (R : DB -> DB -> Prop) `{!Reflexive R} (f : tx A) d : (forall a d', f d = Ok (a, d') -> R d d') -> R d (inTx f d).2.
Proof using Type. intros Hf. unfold inTx. destruct (f d) as [[a d']|] eqn:E; simpl; [by eapply Hf|reflexivity]. Qed.

Local Instance same_settings_refl : Reflexive same_settings.
Proof using Type. by intros d. Qed.
Local Instance same_users_refl : Reflexive same_users.
Proof using Type. by intros d. Qed.

Lemma user_call_settings p r es op d : call_ok p r (CallUser es op) -> same_settings d (user_exec uuid_string es d op).
Proof using Type.
  destruct op; simpl; try done; intros _; apply (inTx_frame same_settings); intros a d' H.
  all: unfold update_user_admin, update_role, update_disabled, tx_when, deleteSessionsByUser in H; tx_invert H.
  all: repeat match goal with
    | Hs : insert_grants _ _ _ = Ok _ |- _ => apply insert_grants_Ok in Hs as [-> _]
    | Hs : insert_user _ _ _ _ _ = Ok _ |- _ => apply insert_user_Ok in Hs as (-> & _)
    | Hs : ensureEnabledAdminRemains _ = Ok _ |- _ => apply ensureEnabledAdminRemains_Ok in Hs as [-> _]
    | Hs : match ?x with _ => _ end _ = Ok _ |- _ => destruct x; unfold tx_ret in Hs; simplify_eq
    | Hs : tx_bind _ _ _ = Ok _ |- _ => tx_invert Hs
    | Hs : tx_exec _ _ = Ok _ |- _ => apply tx_exec_Ok in Hs as ->
    end; by split_and!.
Qed.

Lemma other_call_users c d : (forall es op, c <> CallUser es op) -> same_users d (store_exec d c).
Proof using Type.
  intros Hc. destruct c as [es op|now es op|now es t|now es id]; [by destruct (Hc es op)|..].
  - destruct op; simpl; try (unfold pg_WriteAuditEntries; destruct es; [by split_and!|]); apply (inTx_frame same_users); intros res d1 H; tx_invert H;
      simplify_eq; by split_and!.
  - apply (inTx_frame same_users). intros a d' H. tx_invert H. unfold insert_api_token in Hs. destruct (_ || _ || _); [done|]. simplify_eq. by split_and!.
  - apply (inTx_frame same_users). intros a d' H. tx_invert H. by split_and!.
Qed.

(** The account of the acting administrator. *)
Definition acts_as_admin (pr : Principal) (d : DB) : Prop :=
  exists u, t_users d !! User_ID (Principal_User pr) = Some u /\ enabled_admin u = true.

Lemma acts_insert pr i u d d' : t_users d' = <[i := u]> (t_users d) -> (i = User_ID (Principal_User pr) -> enabled_admin u = true) ->
  acts_as_admin pr d -> acts_as_admin pr d'.
Proof using Type.
  intros Hd Hi (v & Hv & Ha). unfold acts_as_admin. rewrite Hd. destruct (decide (i = User_ID (Principal_User pr))) as [->|Hne].
  - rewrite lookup_insert_eq. eauto.
  - rewrite lookup_insert_ne by done. eauto.
Qed.

(** The row an update leaves. *)
Lemma update_user_admin_row now id upd es d a d' : update_user_admin uuid_string now id upd es d = Ok (a, d') ->
  exists u u', t_users d !! id = Some u /\ t_users d' = <[id := u']> (t_users d)
    /\ User_Role u' = default (User_Role u) (UserUpdate_Role upd)
    /\ match UserUpdate_Disabled upd with
       | None => User_DisabledAt u' = User_DisabledAt u
       | Some b => User_DisabledAt u' = None <-> b = false
       end.
Proof using Type.
  unfold update_user_admin, update_role, update_disabled, tx_when, deleteSessionsByUser. intros H. tx_invert H.
  apply pg_GetUser_Ok in Hs. exists a0.
  destruct (UserUpdate_Role upd), (UserUpdate_Disabled upd) as [[]|]; tx_invert Hs0; tx_invert Hs1;
    repeat match goal with
    | Hs : ensureEnabledAdminRemains _ = Ok _ |- _ => apply ensureEnabledAdminRemains_Ok in Hs as [-> _]
    | Hs : tx_ret _ _ = Ok _ |- _ => injection Hs as <- <-
    | Hs : pg_GetUser _ _ = Ok _ |- _ => apply pg_GetUser_Ok in Hs; simpl in Hs; rewrite ?lookup_insert_eq in Hs
    end; simplify_eq; simpl; rewrite ?insert_insert_eq; eexists; (split; [eassumption|]); (split; [first [reflexivity | by rewrite insert_id]|]); by split.
Qed.

Lemma call_keeps_actor pr r c d : call_ok (Some pr) r c -> users_wf d -> acts_as_admin pr d -> acts_as_admin pr (store_exec d c).
Proof using Type.
  intros Hok Hwf Hact. destruct c as [es op| | |];
    [|match goal with |- acts_as_admin _ (store_exec _ ?c) => destruct (other_call_users c d) as [E _]; [done|] end;
      unfold acts_as_admin; by rewrite E..].
  assert (forall A (r : result A store_err * DB), (forall a d', r = (Ok a, d') -> acts_as_admin pr d') -> (forall e d', r = (Err e, d') -> d' = d) ->
    acts_as_admin pr r.2) as Hres.
  { intros A [[a|e] d'] H1 H2; simpl; [by eapply H1|]. by rewrite (H2 _ _ eq_refl). }
  destruct op; simpl in *; try done; apply Hres; try (intros ? ?; apply inTx_Err); intros a d' H; apply inTx_Ok in H.
  - tx_invert H. match goal with Hs : insert_grants _ _ _ = Ok _ |- _ => apply insert_grants_Ok in Hs as [-> _] end. exact Hact.
  - tx_invert H. match goal with Hs : insert_user _ _ _ _ _ = Ok _ |- _ => apply insert_user_Ok in Hs as (-> & Hn & _) end.
    eapply acts_insert; [reflexivity| |exact Hact]. intros Heq. destruct Hact as (v & Hv & _). simpl in *. congruence.
  - apply update_user_admin_row in H as (u & u' & Hu & Hd & Hr & Hdis). destruct Hok as (pr' & [= <-] & Hok).
    eapply acts_insert; [exact Hd| |exact Hact]. intros ->. destruct (Hok eq_refl) as [Hor Hod]. destruct Hact as (v & Hv & Ha). simplify_eq.
    unfold enabled_admin in *. apply andb_true_iff in Ha as [Ha1 Ha2]. rewrite bool_decide_eq_true in Ha1, Ha2.
    apply andb_true_iff. rewrite !bool_decide_eq_true, Hr. split; [destruct Hor as [-> | ->]; simpl; done|].
    destruct Hod as [Ho|Ho]; rewrite Ho in Hdis; [by rewrite Hdis|by apply Hdis].
  - tx_invert H. match goal with Hs : ensureEnabledAdminRemains _ = Ok _ |- _ => apply ensureEnabledAdminRemains_Ok in Hs as [-> _] end.
    destruct Hok as (pr' & [= <-] & Hne). destruct Hact as (v & Hv & Ha). exists v. split; [|done]. simpl. by rewrite lookup_delete_ne.
Qed.

Lemma call_keeps_tables p r c d : call_ok p r c -> users_wf d /\ settings_wf d -> users_wf (store_exec d c) /\ settings_wf (store_exec d c).
Proof using Type.
  intros Hok [Hu Hs]. destruct c as [es op|now es op| |].
  - split; [by apply user_exec_wf|]. eapply settings_wf_same; [by eapply user_call_settings|done].
  - split; [|by apply settings_step_wf]. eapply users_wf_same; [|exact Hu]. by apply (other_call_users (CallSettings now es op)).
  - split; [eapply users_wf_same; [|exact Hu]; by apply (other_call_users (CallCreateToken now es t))|].
    eapply settings_wf_same; [|exact Hs]. apply (inTx_frame same_settings). intros a d' H. tx_invert H. unfold insert_api_token in *.
    destruct (_ || _ || _); [done|]. simplify_eq. by split_and!.
  - split; [eapply users_wf_same; [|exact Hu]; by apply (other_call_users (CallRevokeToken now es id))|].
    eapply settings_wf_same; [|exact Hs]. apply (inTx_frame same_settings). intros a d' H. tx_invert H. by split_and!.
Qed.

Lemma runs_keep pr r d d' : runs (Some pr) r d d' -> users_wf d -> settings_wf d -> acts_as_admin pr d ->
  users_wf d' /\ settings_wf d' /\ acts_as_admin pr d'.
Proof using Type.
  intros (calls & -> & Hall). revert d. induction Hall as [|c calls Hc _ IH]; intros d Hu Hs Ha; [done|]. simpl.
  destruct (call_keeps_tables _ _ _ _ Hc (conj Hu Hs)) as [Hu' Hs']. apply IH; [done..|]. by eapply call_keeps_actor.
Qed.

Definition fewer_webhooks (d d' : DB) : Prop := x_webhooks (t_ext d') ⊆ x_webhooks (t_ext d).

Local Instance fewer_webhooks_refl : Reflexive fewer_webhooks.
Proof using Type. intros d. unfold fewer_webhooks. reflexivity. Qed.

Definition writes_channel (r : admin_request) : bool :=
  match r with ACreateWebhook _ _ _ | AUpdateWebhook _ _ _ => true | _ => false end.

Lemma call_keeps_channels p r c d : call_ok p r c -> writes_channel r = false -> fewer_webhooks d (store_exec d c).
Proof using Type.
  intros Hok Hr. destruct c as [es op|now es op| |]; simpl.
  - destruct (user_call_settings _ _ _ _ d Hok) as (_ & E & _). unfold fewer_webhooks. by rewrite E.
  - destruct op; simpl in *; try (unfold pg_WriteAuditEntries; destruct es; [done|]); try (by destruct r);
      apply (inTx_frame fewer_webhooks); intros res d1 H; tx_invert H; simplify_eq; unfold fewer_webhooks; simpl; first [reflexivity | apply delete_subseteq].
  - apply (inTx_frame fewer_webhooks). intros a d' H. tx_invert H. unfold insert_api_token in *. destruct (_ || _ || _); [done|].
    simplify_eq. unfold fewer_webhooks. reflexivity.
  - apply (inTx_frame fewer_webhooks). intros a d' H. tx_invert H. unfold fewer_webhooks. reflexivity.
Qed.

Lemma channels_ok_subset d d' : fewer_webhooks d d' -> channels_ok cipher d -> channels_ok cipher d'.
Proof using Type. intros Hsub W i w Hw. eapply W. by eapply lookup_weaken. Qed.

Lemma admin_step_channels p now r d : cipher_ok cipher -> nonce_ok r -> channels_ok cipher d -> channels_ok cipher (admin_step p now r d).2.
Proof using Type.
  intros Hc Hn W. destruct (writes_channel r) eqn:Hr; [destruct r; try done; [by apply create_channel|by apply update_channel]|].
  destruct (admin_step_runs p now r d) as (calls & -> & Hall). revert d W. induction Hall as [|c calls Hok _ IH]; intros d W; [done|].
  apply IH. eapply channels_ok_subset; [|exact W]. by eapply call_keeps_channels.
Qed.

Definition nonces_ok (rs : list (Z * admin_request)) : Prop := Forall (fun r => nonce_ok r.2) rs.

(** C5: whatever an administrator asks of the administration API, in whatever
    order: the administrator's own account stays an enabled administrator, so
    the last one cannot be lost; the user tables and the settings stay
    well-formed; and every notification channel stays one that deliveries can
    use: a target of its type, known events, a stored secret that opens to a
    non-empty one, and one at all where the type requires it. *)
Theorem administration_invariant pr rs d : cipher_ok cipher -> nonces_ok rs ->
  users_wf d -> settings_wf d -> channels_ok cipher d -> acts_as_admin pr d ->
  let d' := admin_run (Some pr) rs d in
  users_wf d' /\ settings_wf d' /\ channels_ok cipher d' /\ acts_as_admin pr d'.
Proof using Type.
  intros Hc Hn. revert d. induction Hn as [|[now r] rs Hr _ IH]; intros d Hu Hs Hch Ha; [done|]. cbn [admin_run foldl fst snd].
  destruct (runs_keep _ _ _ _ (admin_step_runs (Some pr) now r d) Hu Hs Ha) as (Hu' & Hs' & Ha').
  apply IH; try done. by apply admin_step_channels.
Qed.

(** *** What a failed request leaves behind *)

Lemma grants_outcome p id cs d e d' : setUserGrants uuid_string p id cs d = (e, d') ->
  match e with
  | Some _ => d' = d
  | None => is_Some (t_users d !! id) /\ t_users d' = t_users d /\ (forall c, (id, c) ∈ x_grants (t_ext d') <-> c ∈ cs)
            /\ (forall u c, u <> id -> (u, c) ∈ x_grants (t_ext d') <-> (u, c) ∈ x_grants (t_ext d))
  end.
Proof using Type.
  unfold setUserGrants. destruct (pg_SetUserCustomerGrants _ _ _ _) as [[[]|err] d1] eqn:E.
  - intros [= <- <-]. apply inTx_Ok in E. tx_invert E. apply insert_grants_Ok in Hs0 as [-> _]. simpl. apply pg_GetUser_Ok in Hs.
    split; [by eexists|]. split; [done|].
    split; intros; rewrite elem_of_union, elem_of_list_to_set, list_elem_of_fmap, elem_of_filter; naive_solver.
  - apply inTx_Err in E as ->. destruct err; by intros [= <- <-].
Qed.

Ltac statuses := unfold status_of in *; simpl in *.
Ltac failed_call Hst := repeat (case_match; simplify_eq/=; try done; try (by destruct (Hst eq_refl))); left;
  repeat match goal with E : inTx _ _ = (Err _, _) |- _ => apply inTx_Err in E end; try done;
  by (eapply inTx_Err; eassumption).

(** C32: a request that is answered with an error leaves the tables as they were,
    with two exceptions: an invitation whose grants name an unknown customer
    leaves the invited account, without grants; an update whose role change is
    refused leaves the new grants. *)
Theorem failed_request_leaves p now r d : (400 <= (admin_step p now r d).1)%Z ->
  let d' := (admin_step p now r d).2 in
  d' = d
  \/ (exists id email role cs u, r = AInviteUser id email role (Some cs) /\ cs <> [] /\ (admin_step p now r d).1 <> 409%Z
        /\ t_users d !! id = None /\ t_users d' = <[id := u]> (t_users d) /\ x_grants (t_ext d') = x_grants (t_ext d))
  \/ (exists id role dis cs, r = AUpdateUser id role dis (Some cs) /\ (role <> None \/ dis <> None)
        /\ t_users d' = t_users d /\ forall c, (id, c) ∈ x_grants (t_ext d') <-> c ∈ cs).
Proof using Type.
  intros Hst d'. subst d'. destruct r; simpl in *.
  - unfold InviteUser in *. destruct (bool_decide _ || _); [by left|]. destruct (negb (Known role)); [by left|].
    destruct (pg_CreateInvitedUser _ _ _ _ _ _) as [[u|err] d1] eqn:E; simpl in *.
    2: { left. apply inTx_Err in E as ->. by destruct err. }
    destruct (_ && _) eqn:Hif; [simpl in *|statuses; lia].
    destruct (setUserGrants _ _ _ _ _) as [[e|] d2] eqn:Hg; [simpl in *|statuses; lia]. right. left.
    pose proof (grants_outcome _ _ _ _ _ _ Hg) as ->. apply inTx_Ok in E. tx_invert E. destruct a. apply insert_user_Ok in Hs as (-> & Hn & _).
    destruct customerIds as [cs|]; [|by rewrite andb_false_r in Hif].
    eexists id, email, role, cs, _. split; [done|]. split; [intros ->; by rewrite andb_false_r in Hif|].
    split; [|by split_and!].
    unfold setUserGrants in Hg. repeat case_match; simplify_eq; done.
  - unfold UpdateUser in *. destruct p as [pr|]; [|by left]. destruct (unknown_role role); [by left|].
    destruct (_ && _ && _) eqn:Hnone; [by left|]. do 2 (destruct (bool_decide (userID = _) && _); [by left|]).
    destruct (match customerIds with Some _ => _ | None => _ end) as [e d1] eqn:Hg.
    destruct customerIds as [cs|].
    + apply grants_outcome in Hg. destruct e as [e|]; [by left|]. destruct Hg as ([u0 Hu0] & Hu & Hc & _).
      destruct (negb (bool_decide (role = None)) || _) eqn:Hrd.
      * right. right. exists userID, role, disabled, cs. split; [done|]. split.
        { destruct role; [by left|]. destruct disabled; [by right|done]. }
        destruct (pg_UpdateUserAdmin _ _ _ _ _ _) as [[u|err] d2] eqn:E; [statuses; lia|simpl in *].
        apply inTx_Err in E as ->. by destruct err.
      * exfalso. unfold pg_GetUserWithIdentities in Hst. rewrite Hu, Hu0 in Hst. statuses. lia.
    + simplify_eq. left. destruct (_ || _); [|by destruct (pg_GetUserWithIdentities userID d1) as [|[]]].
      destruct (pg_UpdateUserAdmin _ _ _ _ _ _) as [[u|err] d2] eqn:E; [statuses; lia|simpl in *].
      apply inTx_Err in E as ->. by destruct err.
  - unfold DeleteUser in *. failed_call Hst.
  - unfold CreateWebhook in *. failed_call Hst.
  - unfold UpdateWebhook in *. failed_call Hst.
  - unfold DeleteWebhook in *. failed_call Hst.
  - unfold CreateAlertRule in *. failed_call Hst.
  - unfold UpdateAlertRule in *. failed_call Hst.
  - unfold DeleteAlertRule in *. failed_call Hst.
  - unfold CreateMaintenanceWindow in *. failed_call Hst.
  - unfold DeleteMaintenanceWindow in *. failed_call Hst.
  - unfold CreateApiToken, CreateAPIToken in *. failed_call Hst.
  - unfold RevokeApiToken, RevokeAPIToken, lift_store in *. failed_call Hst.
  - unfold UpdateBillingSettings in *. failed_call Hst.
  - unfold SetBillingOverride in *. failed_call Hst.
  - unfold DeleteBillingOverride in *. failed_call Hst.
Qed.
End administration.

(** ** A channel of a tenant-scoped operator *)

Section scoped.
Context {SHA : Sha256} {AE : Aead} {NU : NetUrl}.
Context (uuid_parse : string -> option N) (uuid_string : N -> string) (no_key_message url_parse_error : string) (cipher : option Cipher).

(** A session of an operator who is limited to some customers. *)
Definition scoped_operator (s : Session) (d : DB) (u : User) : Prop :=
  session_UserID uuid_parse s = Some (User_ID u) /\ t_users d !! User_ID u = Some u /\ User_DisabledAt u = None
  /\ User_Role u = RoleOperator /\ (exists c, (User_ID u, c) ∈ x_grants (t_ext d)).

Lemma grants_listed u c d : (u, c) ∈ x_grants (t_ext d) <-> c ∈ pg_ListUserCustomerIDs u d.
Proof using Type.
  unfold pg_ListUserCustomerIDs. rewrite list_elem_of_fmap. setoid_rewrite list_elem_of_filter. setoid_rewrite elem_of_elements.
  split; [intros H; by exists (u, c)|]. by intros ([u' c'] & -> & <- & H).
Qed.

Lemma scoped_served s d u now fresh path method csrf : scoped_operator s d u ->
  path ∉ publicPaths -> isAdminOnlyPath path = false -> session_ValidCSRF s csrf = true ->
  exists pr s', Guard uuid_parse (pg_guard_store d) now fresh s (Authz.MkRequest path method "" csrf) = (Served pr, s')
    /\ Principal_User pr = u /\ Principal_AllCustomers pr = false
    /\ forall c, CanAccessCustomer pr (Some c) = true <-> (User_ID u, c) ∈ x_grants (t_ext d).
Proof using Type.
  intros (Hs & Hu & Hd & Hr & c0 & Hc0) Hp Ha Hcsrf. unfold Guard. cbn [req_path req_method req_authorization req_csrf].
  rewrite bool_decide_false by done. change (looksLikeAPIToken "") with false. cbv iota. rewrite Hs. cbn [gs_GetUser gs_ListUserCustomerIDs pg_guard_store].
  unfold pg_GetUser. rewrite Hu, Hd, bool_decide_false, Ha, Hcsrf, Hr by (by intros []).
  change (CanMutate RoleOperator) with true. change (AtLeast RoleOperator RoleAdmin) with false. cbn [negb andb]. rewrite !andb_false_r.
  destruct (session_CSRFToken fresh s) as [tok s'].
  assert ((length (pg_ListUserCustomerIDs (User_ID u) d) =? 0)%nat = false) as ->.
  { apply grants_listed in Hc0. by destruct (pg_ListUserCustomerIDs _ _); [apply elem_of_nil in Hc0|]. }
  cbn [andb]. eexists _, _. split; [reflexivity|]. split; [done|]. split; [done|]. intros c. unfold CanAccessCustomer. simpl.
  by rewrite bool_decide_eq_true, elem_of_list_to_set, grants_listed.
Qed.

(** The path of the channels is not among the admin-only ones: a session
    that is limited to some customers creates a channel there, and from then on
    every agent event of its types is delivered to it, whichever customer the
    agent belongs to. *)
Theorem scoped_channel_hears_all s d u csrf now fresh id body : scoped_operator s d u -> session_ValidCSRF s csrf = true ->
  x_webhooks (t_ext d) !! id = None -> wb_Type body = None -> wb_Secret body = None -> wb_Enabled body = None -> wb_Name body <> "" ->
  (exists url, wb_Url body = Some url /\ ValidateURL url = None) ->
  wb_Events body <> [] -> Forall (fun e => e ∈ ["agent_offline"; "agent_config_failed"; "agent_unhealthy"]) (wb_Events body) ->
  exists pr s' w d',
    Guard uuid_parse (pg_guard_store d) now fresh s (Authz.MkRequest "/api/v1/settings/webhooks" "POST" "" csrf) = (Served pr, s')
    /\ Principal_AllCustomers pr = false
    /\ CreateWebhook uuid_string no_key_message url_parse_error cipher (Some pr) now id None body d = (Success 201 (toWebhook w), d')
    /\ wb_Url body = Some (Webhook_URL w)
    /\ forall getAgent evt, Event_Type evt ∈ wb_Events body ->
         (w, Event_Type evt, buildPayload getAgent evt) ∈ dispatch (Ok (pg_ListWebhooks d')) getAgent evt.
Proof using Type.
  intros Hop Hcsrf Hid Ht Hsec Hen Hname (url & Hurl & Hval) Hne Hev.
  destruct (scoped_served s d u now fresh "/api/v1/settings/webhooks" "POST" csrf Hop) as (pr & s' & Hg & Hpu & Hall & _);
    [unfold publicPaths; set_solver|done|done|].
  set (w := MkWebhook id "webhook" (wb_Name body) url (wb_Events body) None true (actorID (Some pr)) now now).
  assert (known_events (wb_Events body) = Ok (wb_Events body)) as Hke.
  { clear -Hev. induction Hev as [|e l He _ IH]; [done|]. simpl. rewrite IH, bool_decide_true; done. }
  assert (exists d', CreateWebhook uuid_string no_key_message url_parse_error cipher (Some pr) now id None body d = (Success 201 (toWebhook w), d')
    /\ x_webhooks (t_ext d') !! id = Some w) as (d' & Hcreate & Hd').
  { unfold CreateWebhook. rewrite bool_decide_false by done. unfold validateWebhookEvents.
    destruct (wb_Events body) as [|e evs] eqn:Hevs; [done|]. rewrite Hke, Ht, Hsec, Hen, Hurl. unfold webhookType. simpl default.
    assert (user_ref_ok (actorID (Some pr)) d = true) as Href.
    { unfold actorID. rewrite Hpu. case_bool_decide; [done|]. simpl. destruct Hop as (_ & -> & _). done. }
    unfold validateChannelURLSecret. change (SecretedWebhookType WebhookTypeGeneric) with false. cbv iota. rewrite Hval. cbn [fmap option_fmap option_map].
    rewrite andb_false_r. unfold pg_CreateWebhook, inTx, tx_bind, tx_get, tx_check, tx_exec, tx_ret.
    cbn [NewWebhook_Type NewWebhook_CreatedBy NewWebhook_ID NewWebhook_Name NewWebhook_URL NewWebhook_Events NewWebhook_SecretEnc NewWebhook_Enabled].
    rewrite Href, Hid. eexists. split; [reflexivity|]. simpl. apply lookup_insert_eq. }
  exists pr, s', w, d'. split; [exact Hg|]. split; [exact Hall|]. split; [exact Hcreate|]. split; [exact Hurl|].
  intros getAgent evt Hin. unfold dispatch.
  assert (w ∈ filter (fun wh => Webhook_Enabled wh = true /\ Event_Type evt ∈ Webhook_Events wh) (pg_ListWebhooks d')) as Hw.
  { apply list_elem_of_filter. split; [done|]. unfold pg_ListWebhooks. rewrite sort_by_perm, rows_elem. split; [done|]. by exists id. }
  destruct (filter _ _) as [|w0 l]; [by apply elem_of_nil in Hw|]. apply list_elem_of_fmap. by exists w.
Qed.
End scoped.

(** ** Examples *)

Definition ex_uuid (id : N) : string := "u".
Definition ex_admin : Principal := MkPrincipal (ex_user 1 "a@x" "admin" None false) "csrf" true ∅.
Definition ex_request (r : admin_request) (d : DB) : Z * DB :=
  admin_step (SHA := ex_sha) (AE := ex_aead) (NU := ex_net) (fun c => c) ex_uuid "no key" "bad url" (Some ex_cipher) (Some ex_admin) 9 r d.

Definition ex_pager : WebhookBody := MkWebhookBody (Some "pagerduty") "pager" None ["agent_offline"] (Some "routing-key") None.
Definition ex_slack : WebhookBody := MkWebhookBody (Some "slack") "slack" (Some "https://hooks") ["agent_offline"] (Some "x") None.
Definition ex_requests : list (Z * admin_request) :=
  [(5, AInviteUser 9 " New@X " "viewer" None); (6, ACreateWebhook 20 (Some ex_nonce) ex_pager);
   (7, AUpdateUser 2 (Some "viewer") None None); (8, AUpdateUser 1 (Some "viewer") None None); (9, AUpdateUser 1 None (Some true) None);
   (10, ADeleteUser 1)]%Z.

Lemma administration_invariant_witness :
  let d' := admin_run (SHA := ex_sha) (AE := ex_aead) (NU := ex_net) (fun c => c) ex_uuid "no key" "bad url" (Some ex_cipher) (Some ex_admin)
              ex_requests ex_two_admins in
  acts_as_admin ex_admin d' /\ channels_ok (AE := ex_aead) (NU := ex_net) (Some ex_cipher) d' /\ x_webhooks (t_ext d') <> ∅.
Proof.
  destruct (administration_invariant (SHA := ex_sha) (AE := ex_aead) (NU := ex_net) (fun c => c) ex_uuid "no key" "bad url" (Some ex_cipher)
    ex_admin ex_requests ex_two_admins) as (_ & _ & H1 & H2).
  - intros c [= <-]. vm_compute. by constructor.
  - repeat constructor. by exists ex_nonce.
  - exact ex_two_admins_wf.
  - split_and!; intros i x; cbn; by rewrite lookup_empty.
  - intros i x. cbn. by rewrite lookup_empty.
  - exists (ex_user 1 "a@x" "admin" None false). by split.
  - split; [exact H2|]. split; [exact H1|]. vm_compute. discriminate.
Defined.

(** An invitation for an unknown customer is refused, its retry finds the
    account. *)
Definition ex_invite : admin_request := AInviteUser 9 "new@x" "viewer" (Some [77%N]).

Example invite_retry :
  (ex_request ex_invite ex_two_admins).1 = 400%Z
  /\ (ex_request (AInviteUser 10 "new@x" "viewer" None) (ex_request ex_invite ex_two_admins).2).1 = 409%Z.
Proof. vm_compute. by split. Qed.

Lemma failed_request_leaves_witness : exists u : User,
  t_users (ex_request ex_invite ex_two_admins).2 = <[9%N := u]> (t_users ex_two_admins).
Proof.
  destruct (failed_request_leaves (SHA := ex_sha) (AE := ex_aead) (NU := ex_net) (fun c => c) ex_uuid "no key" "bad url" (Some ex_cipher)
    (Some ex_admin) 9 ex_invite ex_two_admins) as [H|[H|H]].
  - vm_compute. discriminate.
  - apply (f_equal (fun d => t_users d !! 9%N)) in H. vm_compute in H. discriminate.
  - destruct H as (id & em & ro & cs & u & [= <- <- <- <-] & _ & _ & _ & H & _). exists u. exact H.
  - destruct H as (id & ro & dis & cs & [=] & _).
Defined.

Definition ex_operator_db : DB :=
  set_grants (fun _ => {[ (7, 2)%N ]}) (ex_users [ex_user 7 "op@x" "operator" None false]).
Definition ex_hook_body : WebhookBody := MkWebhookBody None "mine" (Some "https://mine") ["agent_offline"] None None.

Lemma scoped_channel_hears_all_witness : exists pr s' w d',
  Guard (H := ex_sha) (fun _ => Some 7%N) (pg_guard_store ex_operator_db) 5 "new" ex_session
    (Authz.MkRequest "/api/v1/settings/webhooks" "POST" "" "csrf") = (Served pr, s')
  /\ CreateWebhook (AE := ex_aead) (NU := ex_net) ex_uuid "no key" "bad url" None (Some pr) 5 20 None ex_hook_body ex_operator_db
     = (Success 201 (toWebhook w), d')
  /\ forall getAgent, (w, "agent_offline", buildPayload getAgent (MkEvent "agent_offline" 6 3 1 None))
       ∈ dispatch (Ok (pg_ListWebhooks d')) getAgent (MkEvent "agent_offline" 6 3 1 None).
Proof.
  destruct (scoped_channel_hears_all (SHA := ex_sha) (AE := ex_aead) (NU := ex_net) (fun _ => Some 7%N) ex_uuid "no key" "bad url" None
    ex_session ex_operator_db (ex_user 7 "op@x" "operator" None false) "csrf" 5 "new" 20 ex_hook_body)
    as (pr & s' & w & d' & Hg & _ & Hc & _ & Hd).
  - split_and!; try done. exists 2%N. vm_compute. reflexivity.
  - reflexivity.
  - reflexivity.
  - reflexivity.
  - reflexivity.
  - reflexivity.
  - discriminate.
  - exists "https://mine". split; reflexivity.
  - discriminate.
  - repeat constructor.
  - exists pr, s', w, d'. split; [exact Hg|]. split; [exact Hc|]. intros getAgent.
    apply (Hd getAgent (MkEvent "agent_offline" 6 3 1 None)). by constructor.
Defined.

(** A PATCH that leaves a PromQL rule without a query is an internal error: the
    combination is checked by the table only. *)
Definition ex_rule_body : AlertRuleBody :=
  MkAlertRuleBody "r" "ingest_items" "below" (float32_of (float_of_Z 16777217)) 60 None None None None None.
Definition ex_rule_db : DB := (ex_request (ACreateAlertRule 30 ex_rule_body) ex_two_admins).2.

Example rule_patch_unvalidated :
  (ex_request (AUpdateAlertRule 30 (MkAlertRulePatch None (Some "promql") None None None None None None None)) ex_rule_db).1 = 500%Z.
Proof. vm_compute. reflexivity. Qed.

(** The threshold 16777217 is stored as 16777216. *)
Example threshold_rounded : AlertRule_Threshold <$> x_alert_rules (t_ext ex_rule_db) !! 30%N = Some (float_of_Z 16777216).
Proof. vm_compute. reflexivity. Qed.

(** A secret given with a new Slack channel is dropped, one given in an update is
    stored. *)
Example slack_secret :
  let d := (ex_request (ACreateWebhook 20 (Some ex_nonce) ex_slack) ex_two_admins).2 in
  let d' := (ex_request (AUpdateWebhook 20 (Some ex_nonce) (MkWebhookPatch None None None None (Some "x") None)) d).2 in
  (aw_HasSecret ∘ toWebhook) <$> pg_ListWebhooks d = [false] /\ (aw_HasSecret ∘ toWebhook) <$> pg_ListWebhooks d' = [true].
Proof. vm_compute. by split. Qed.

(** An unknown role of an API token is an internal error. *)
Example token_role_unknown :
  (ex_request (ACreateApiToken (MkEnv 5 None (Some "01234567890123456789012345678901") 40 41) "ci" "root" None) ex_two_admins).1 = 500%Z.
Proof. vm_compute. reflexivity. Qed.
