(* ===== verification/AuthProviders.v ===== *)
(** Login providers: internal/store/pg_authproviders.go, the provider registry
    of internal/auth/registry.go, and the provider handlers of
    internal/api/handlers_admin.go.

    The table of providers stands besides the other tables.  PEM decoding and the
    parser of X.509 certificates are parameters; the network answers of a
    connectivity test are inputs. *)
From S2P Require Import Prelude GoStrings Base64 Json StoreTypes Authz PgCore Crypto Render PgUsers PgScim PgSettings ApiCore ApiAdmin.
From Stdlib Require Import Ascii.

Open Scope string_scope.

(** ** Data *)

Definition TypeGoogle : string := "google".
Definition TypeMicrosoft : string := "microsoft".
Definition TypeGitHub : string := "github".
Definition TypeOIDC : string := "oidc".
Definition TypeSAML : string := "saml".
Definition GoogleIssuer : string := "https://accounts.google.com".
Definition MicrosoftIssuer : string := "https://login.microsoftonline.com/common/v2.0".

Record SAMLConfig : Type := MkSAMLConfig {
  IDPEntityID : string;
  IDPSSOURL : string;
  IDPCertificate : string
}.

(** [client_secret_enc] is not null; a SAML row holds the empty one. *)
Record AuthProvider : Type := MkAuthProvider {
  AuthProvider_ID : N;
  AuthProvider_Type : string;
  AuthProvider_Name : string;
  AuthProvider_DisplayName : string;
  AuthProvider_ClientID : string;
  AuthProvider_ClientSecretEnc : string;
  AuthProvider_Issuer : option string;
  AuthProvider_SAMLConfig : option jval;
  AuthProvider_Enabled : bool;
  AuthProvider_CreatedAt : Z;
  AuthProvider_UpdatedAt : Z
}.

Record NewAuthProvider : Type := MkNewAuthProvider {
  NewAuthProvider_ID : N;
  NewAuthProvider_Type : string;
  NewAuthProvider_Name : string;
  NewAuthProvider_DisplayName : string;
  NewAuthProvider_ClientID : string;
  NewAuthProvider_ClientSecretEnc : string;
  NewAuthProvider_Issuer : option string;
  NewAuthProvider_SAMLConfig : option jval;
  NewAuthProvider_Enabled : bool
}.

Record AuthProviderUpdate : Type := MkAuthProviderUpdate {
  AuthProviderUpdate_DisplayName : option string;
  AuthProviderUpdate_ClientID : option string;
  AuthProviderUpdate_ClientSecretEnc : option string;
  AuthProviderUpdate_Issuer : option string;
  AuthProviderUpdate_SAMLConfig : option jval;
  AuthProviderUpdate_Enabled : option bool
}.

(** A provider configured in the environment. *)
Record OIDCProvider : Type := MkOIDCProvider {
  OIDCProvider_Name : string;
  OIDCProvider_DisplayName : string;
  OIDCProvider_Issuer : string;
  OIDCProvider_ClientID : string;
  OIDCProvider_ClientSecret : string
}.

(** ** The table *)

Record auth_db : Type := MkAuthDB { ad_providers : gmap N AuthProvider; ad_tables : DB }.

(** [ORDER BY created_at, id] *)
Definition provider_before (a b : AuthProvider) : bool :=
  (AuthProvider_CreatedAt a <? AuthProvider_CreatedAt b)%Z
  || (AuthProvider_CreatedAt a =? AuthProvider_CreatedAt b)%Z && (AuthProvider_ID a <? AuthProvider_ID b)%N.

Definition pg_ListAuthProviders (enabledOnly : bool) (s : auth_db) : list AuthProvider :=
  sort_by provider_before (rows (ad_providers s) (fun p => negb enabledOnly || AuthProvider_Enabled p)).

Definition pg_GetAuthProvider (id : N) (s : auth_db) : result AuthProvider store_err :=
  match ad_providers s !! id with Some p => Ok p | None => Err ErrNotFound end.

Definition pg_GetAuthProviderByName (name : string) (s : auth_db) : result AuthProvider store_err :=
  match rows (ad_providers s) (fun p => bool_decide (AuthProvider_Name p = name)) with
  | p :: _ => Ok p
  | [] => Err ErrNotFound
  end.

(** auth_providers_type_check *)
Definition provider_type_ok (t : string) : bool := bool_decide (t ∈ ["google"; "microsoft"; "github"; "oidc"; "saml"]).

Definition name_taken (name : string) (m : gmap N AuthProvider) : bool :=
  existsb (fun r => bool_decide (AuthProvider_Name r.2 = name)) (map_to_list m).

(** The end of a transaction that wrote the providers. *)
Definition commit_providers {A} (m : gmap N AuthProvider) (entries : list AuditEntry) (a : A) (s : auth_db) : result A store_err * auth_db :=
  (Ok a, MkAuthDB m (set_audit (fun l => audit_write l entries) (ad_tables s))).

Definition pg_CreateAuthProvider (now : Z) (p : NewAuthProvider) (entries : list AuditEntry) (s : auth_db)
  : result AuthProvider store_err * auth_db :=
  let row := MkAuthProvider (NewAuthProvider_ID p) (NewAuthProvider_Type p) (NewAuthProvider_Name p) (NewAuthProvider_DisplayName p)
               (NewAuthProvider_ClientID p) (NewAuthProvider_ClientSecretEnc p) (NewAuthProvider_Issuer p) (NewAuthProvider_SAMLConfig p)
               (NewAuthProvider_Enabled p) now now in
  if negb (provider_type_ok (NewAuthProvider_Type p)) || bool_decide (is_Some (ad_providers s !! NewAuthProvider_ID p))
  then (Err (ErrOther "insert auth provider"), s)
  else if name_taken (NewAuthProvider_Name p) (ad_providers s) then (Err ErrNameExists, s)
  else commit_providers (<[NewAuthProvider_ID p := row]> (ad_providers s)) entries row s.

Definition patch_provider (now : Z) (upd : AuthProviderUpdate) (p : AuthProvider) : AuthProvider :=
  let keep {A} (a : A) (o : option A) := default a o in
  MkAuthProvider (AuthProvider_ID p) (AuthProvider_Type p) (AuthProvider_Name p)
    (keep (AuthProvider_DisplayName p) (AuthProviderUpdate_DisplayName upd))
    (keep (AuthProvider_ClientID p) (AuthProviderUpdate_ClientID upd))
    (keep (AuthProvider_ClientSecretEnc p) (AuthProviderUpdate_ClientSecretEnc upd))
    (match AuthProviderUpdate_Issuer upd with Some i => Some i | None => AuthProvider_Issuer p end)
    (match AuthProviderUpdate_SAMLConfig upd with Some c => Some c | None => AuthProvider_SAMLConfig p end)
    (keep (AuthProvider_Enabled p) (AuthProviderUpdate_Enabled upd)) (AuthProvider_CreatedAt p) now.

Definition pg_UpdateAuthProvider (now : Z) (id : N) (upd : AuthProviderUpdate) (entries : list AuditEntry) (s : auth_db)
  : result AuthProvider store_err * auth_db :=
  match pg_GetAuthProvider id s with
  | Err e => (Err e, s)
  | Ok p => let p := patch_provider now upd p in commit_providers (<[id := p]> (ad_providers s)) entries p s
  end.

Definition pg_DeleteAuthProvider (id : N) (entries : list AuditEntry) (s : auth_db) : result unit store_err * auth_db :=
  match pg_GetAuthProvider id s with
  | Err e => (Err e, s)
  | Ok _ => commit_providers (delete id (ad_providers s)) entries tt s
  end.

(** ** Strings *)

(** [strings.TrimSuffix] of a suffix that is not empty. *)
Fixpoint trim_suffix (suffix s : string) : string :=
  if bool_decide (s = suffix) then "" else match s with "" => "" | String c s => String c (trim_suffix suffix s) end.

(** [providerNamePattern]: ^[a-z0-9][a-z0-9-]{1,30}$ *)
Definition providerNamePattern (s : string) : bool :=
  match s with
  | "" => false
  | String c rest => is_slug_alnum c && all_bytes (fun c => is_slug_alnum c || bool_decide (c = "-"%char)) rest
                     && ((1 <=? len rest) && (len rest <=? 30))%Z
  end.

(** ** SAML configuration *)

Class X509 := {
  certificate : Type;
  pem_Decode : string -> option string;
  ParseCertificate : string -> option certificate
}.

(** Spaces, tabs and newlines removed. *)
Definition strip_blanks (s : string) : string :=
  of_bytes (List.filter (fun c => negb (bool_decide (byte_val c ∈ [32; 9; 10; 13]%Z))) (bytes_of s)).

Definition parseCertificate {CP : X509} (cert : string) : option certificate :=
  let cert := trim_space cert in
  if bool_decide (cert = "") then None
  else match pem_Decode cert with
       | Some block => ParseCertificate block
       | None => der ← std_decode (strip_blanks cert); ParseCertificate der
       end.

Inductive saml_err : Type :=
| ErrEntityID
| ErrSSOURL
| ErrCertificate.

Definition ValidateSAMLConfig {CP : X509} (c : SAMLConfig) : option saml_err :=
  if bool_decide (trim_space (IDPEntityID c) = "") then Some ErrEntityID
  else if negb (has_prefix "https://" (IDPSSOURL c)) then Some ErrSSOURL
  else match parseCertificate (IDPCertificate c) with None => Some ErrCertificate | Some _ => None end.

(** [cert_error]: the text of the certificate parser. *)
Definition saml_error_text (cert_error : string) (e : saml_err) : string :=
  match e with
  | ErrEntityID => "idpEntityId is required"
  | ErrSSOURL => "idpSsoUrl must be an https:// URL"
  | ErrCertificate => "idpCertificate: " +:+ cert_error
  end.

Definition marshal_saml (c : SAMLConfig) : jval :=
  JObj [("idpEntityId", JStr (IDPEntityID c)); ("idpSsoUrl", JStr (IDPSSOURL c)); ("idpCertificate", JStr (IDPCertificate c))].

Definition saml_field (m : list (string * jval)) (k : string) : string * bool :=
  match obj_get m k with
  | Some (JStr s) => (s, true)
  | None | Some JNull => ("", true)
  | Some _ => ("", false)
  end.

(** [json.Unmarshal] into a zero [SAMLConfig]: what it filled in, and whether it
    succeeded. *)
Definition unmarshal_saml (raw : option jval) : SAMLConfig * bool :=
  match raw with
  | Some JNull => (MkSAMLConfig "" "" "", true)
  | Some (JObj m) =>
      let e := saml_field m "idpEntityId" in
      let u := saml_field m "idpSsoUrl" in
      let c := saml_field m "idpCertificate" in
      (MkSAMLConfig e.1 u.1 c.1, e.2 && u.2 && c.2)
  | _ => (MkSAMLConfig "" "" "", false)
  end.

Lemma unmarshal_marshal_saml c : unmarshal_saml (Some (marshal_saml c)) = (c, true).
Proof. by destruct c. Qed.

(** ** The registry's view of the providers *)

Definition KnownProviderType (t : string) : bool := bool_decide (t ∈ [TypeGoogle; TypeMicrosoft; TypeGitHub; TypeOIDC; TypeSAML]).

Definition EffectiveIssuer (providerType issuer : string) : string :=
  if bool_decide (providerType = TypeGoogle) then GoogleIssuer
  else if bool_decide (providerType = TypeMicrosoft) then MicrosoftIssuer
  else if bool_decide (providerType = TypeGitHub) then ""
  else issuer.

Record ProviderInfo : Type := MkProviderInfo {
  ProviderInfo_Type : string;
  ProviderInfo_Name : string;
  ProviderInfo_DisplayName : string;
  ProviderInfo_Issuer : string;
  ProviderInfo_ClientID : string;
  ProviderInfo_ClientSecret : string;
  ProviderInfo_SAML : option SAMLConfig
}.

Definition IdentityKey (p : ProviderInfo) : string :=
  if bool_decide (ProviderInfo_Type p = TypeOIDC) then "oidc:" +:+ ProviderInfo_Name p
  else if bool_decide (ProviderInfo_Type p = TypeSAML) then "saml:" +:+ ProviderInfo_Name p
  else ProviderInfo_Type p.

Definition RedirectURI (baseURL name : string) : string := baseURL +:+ "/auth/" +:+ name +:+ "/callback".
Definition ACSURL (baseURL name : string) : string := baseURL +:+ "/auth/" +:+ name +:+ "/acs".
Definition SPEntityID (baseURL name : string) : string := baseURL +:+ "/auth/" +:+ name +:+ "/metadata".

(** Name and display name. *)
Definition LoginProviders (env : list OIDCProvider) (s : auth_db) : list (string * string) :=
  let db := pg_ListAuthProviders true s in
  ((fun p => (AuthProvider_Name p, AuthProvider_DisplayName p)) <$> db)
  ++ ((fun e => (OIDCProvider_Name e, OIDCProvider_DisplayName e)) <$>
        filter (fun e => OIDCProvider_Name e ∉ (AuthProvider_Name <$> db)) env).

Inductive resolve_err : Type :=
| ErrUnknownProvider
| ErrParseSAML
| ErrDecryptSecret (e : crypto_err).

Section registry.
Context {AE : Aead}.
Context (uuid_string : N -> string) (env : list OIDCProvider) (cipher : option Cipher).

(** The row of a provider with its secrets readable. *)
Definition provider_info (p : AuthProvider) : result ProviderInfo resolve_err :=
  let info secret saml :=
    MkProviderInfo (AuthProvider_Type p) (AuthProvider_Name p) (AuthProvider_DisplayName p)
      (EffectiveIssuer (AuthProvider_Type p) (default "" (AuthProvider_Issuer p))) (AuthProvider_ClientID p) secret saml in
  if bool_decide (AuthProvider_Type p = TypeSAML) then
    let '(cfg, ok) := unmarshal_saml (AuthProvider_SAMLConfig p) in
    if ok then Ok (info "" (Some cfg)) else Err ErrParseSAML
  else
    match Decrypt (AuthProvider_ClientSecretEnc p) cipher with
    | Ok secret => Ok (info secret None)
    | Err e => Err (ErrDecryptSecret e)
    end.

Definition env_info (e : OIDCProvider) : ProviderInfo :=
  MkProviderInfo TypeOIDC (OIDCProvider_Name e) (OIDCProvider_DisplayName e) (OIDCProvider_Issuer e) (OIDCProvider_ClientID e)
    (OIDCProvider_ClientSecret e) None.

(** The provider and the fingerprint of its version. *)
Definition Resolve (name : string) (s : auth_db) : result (ProviderInfo * string) resolve_err :=
  match pg_GetAuthProviderByName name s with
  | Ok p =>
      if negb (AuthProvider_Enabled p) then Err ErrUnknownProvider
      else match provider_info p with
           | Ok info => Ok (info, "db:" +:+ uuid_string (AuthProvider_ID p) +:+ ":" +:+ itoa (AuthProvider_UpdatedAt p))
           | Err e => Err e
           end
  | Err _ =>
      match filter (fun e => OIDCProvider_Name e = name) env with
      | e :: _ => Ok (env_info e, "env:" +:+ OIDCProvider_Name e)
      | [] => Err ErrUnknownProvider
      end
  end.
End registry.

(** ** Connectivity test

    [http_get]: the status and the decoded discovery document (the issuer, or
    the text of the decoding error), or the text of the request's error. *)

Definition probe : Type := string -> result (Z * result string string) string.

Definition TestProviderConnectivity {CP : X509} (cert_error : string) (http_get : probe) (info : ProviderInfo) : bool * string :=
  if bool_decide (ProviderInfo_Type info = TypeSAML) then
    match ProviderInfo_SAML info with
    | None => (false, "SAML config missing")
    | Some c =>
        match ValidateSAMLConfig c with
        | Some e => (false, "SAML config invalid: " +:+ saml_error_text cert_error e)
        | None =>
            match http_get (IDPSSOURL c) with
            | Err e => (false, "IdP SSO URL unreachable: " +:+ e)
            | Ok (status, _) => (true, "config valid; IdP SSO URL reachable (HTTP " +:+ itoa status +:+ ")")
            end
        end
    end
  else if bool_decide (ProviderInfo_Type info = TypeGitHub) then
    match http_get "https://api.github.com/" with
    | Err e => (false, "GitHub API unreachable: " +:+ e)
    | Ok (status, _) => if (500 <=? status)%Z then (false, "GitHub API returned HTTP " +:+ itoa status) else (true, "GitHub API reachable")
    end
  else
    let issuer := ProviderInfo_Issuer info in
    let wellKnown := trim_suffix "/" issuer +:+ "/.well-known/openid-configuration" in
    match http_get wellKnown with
    | Err e => (false, "OIDC discovery failed: " +:+ e)
    | Ok (status, doc) =>
        if negb (status =? 200)%Z then (false, "OIDC discovery returned HTTP " +:+ itoa status +:+ " for " +:+ wellKnown)
        else match doc with
             | Err e => (false, "OIDC discovery document is not valid JSON: " +:+ e)
             | Ok said =>
                 if bool_decide (said = trim_suffix "/" issuer) || bool_decide (said = issuer) then (true, "OIDC discovery OK, issuer matches")
                 else if bool_decide (ProviderInfo_Type info = TypeMicrosoft)
                 then (true, "OIDC discovery OK; Microsoft multi-tenant endpoint advertises the tenanted issuer template " +:+ go_quote said
                             +:+ " (expected, validated per tenant at login)")
                 else (false, "issuer mismatch: discovery document says " +:+ go_quote said +:+ ", configured " +:+ go_quote issuer)
             end
    end.

(** ** Handlers *)

Record api_AuthProviderConfig : Type := MkApiAuthProviderConfig {
  apc_Id : N;
  apc_Type : string;
  apc_Name : string;
  apc_DisplayName : string;
  apc_ClientId : string;
  apc_Issuer : option string;
  apc_Enabled : bool;
  apc_Source : string;
  apc_RedirectUri : string;
  apc_CreatedAt : Z;
  (** entity id, SSO URL, certificate, ACS URL and entity id of the service
      provider *)
  apc_SAML : option (SAMLConfig * string * string)
}.

Record ProviderBody : Type := MkProviderBody {
  pb_Type : string;
  pb_Name : string;
  pb_DisplayName : string;
  pb_ClientId : option string;
  pb_ClientSecret : option string;
  pb_Issuer : option string;
  pb_IdpEntityId : option string;
  pb_IdpSsoUrl : option string;
  pb_IdpCertificate : option string;
  pb_Enabled : option bool
}.

Record ProviderPatch : Type := MkProviderPatch {
  pp_DisplayName : option string;
  pp_ClientId : option string;
  pp_ClientSecret : option string;
  pp_Issuer : option string;
  pp_IdpEntityId : option string;
  pp_IdpSsoUrl : option string;
  pp_IdpCertificate : option string;
  pp_Enabled : option bool
}.

Section handlers.
Context {AE : Aead} {CP : X509}.
Context (uuid_string : N -> string) (env_id : string -> N) (no_key_message cert_error baseURL : string).
Context (cipher : option Cipher) (env : list OIDCProvider) (devLogin : bool).

(** [ListAuthProviders]: name, display name and login URL, and the dev-login
    flag. *)
Definition ListAuthProviders (s : auth_db) : outcome (list (string * string * string) * bool) :=
  Success 200 ((fun p => (p.1, p.2, "/auth/" +:+ p.1 +:+ "/start")) <$> LoginProviders env s, devLogin).

(** The configuration or the user-facing message. *)
Definition buildSAMLConfig (entityID ssoURL cert : option string) : result jval string :=
  let field o := trim_space (default "" o) in
  let c := MkSAMLConfig (field entityID) (field ssoURL) (field cert) in
  match ValidateSAMLConfig c with
  | Some e => Err ("type saml: " +:+ saml_error_text cert_error e)
  | None => Ok (marshal_saml c)
  end.

Definition toAuthProviderConfig (p : AuthProvider) : api_AuthProviderConfig :=
  MkApiAuthProviderConfig (AuthProvider_ID p) (AuthProvider_Type p) (AuthProvider_Name p) (AuthProvider_DisplayName p)
    (AuthProvider_ClientID p) (AuthProvider_Issuer p) (AuthProvider_Enabled p) "database" (RedirectURI baseURL (AuthProvider_Name p))
    (AuthProvider_CreatedAt p)
    (if bool_decide (AuthProvider_Type p = TypeSAML)
     then Some ((unmarshal_saml (AuthProvider_SAMLConfig p)).1, ACSURL baseURL (AuthProvider_Name p), SPEntityID baseURL (AuthProvider_Name p))
     else None).

(** [env_id]: the name-based id of an environment provider. *)
Definition env_provider_config (e : OIDCProvider) : api_AuthProviderConfig :=
  MkApiAuthProviderConfig (env_id (OIDCProvider_Name e)) "oidc" (OIDCProvider_Name e) (OIDCProvider_DisplayName e) (OIDCProvider_ClientID e)
    (Some (OIDCProvider_Issuer e)) true "environment" (RedirectURI baseURL (OIDCProvider_Name e)) time_zero None.

Definition ListAuthProviderConfigs (s : auth_db) : outcome (list api_AuthProviderConfig) :=
  Success 200 ((toAuthProviderConfig <$> pg_ListAuthProviders false s) ++ (env_provider_config <$> env))%list.

Context (p : option Principal).

Definition bad_display_name (s : string) : bool := bool_decide (trim_space s = "") || (100 <? len (trim_space s))%Z.

(** The parts of a new row that depend on the type: client id, sealed secret,
    issuer and SAML configuration. *)
Definition typed_config (nonce : option string) (body : ProviderBody)
  : result (string * string * option string * option jval) (outcome api_AuthProviderConfig) :=
  if bool_decide (pb_Type body = TypeSAML) then
    match buildSAMLConfig (pb_IdpEntityId body) (pb_IdpSsoUrl body) (pb_IdpCertificate body) with
    | Err msg => Err (bad_request msg)
    | Ok cfg => Ok ("", "", None, Some cfg)
    end
  else
    let clientID := default "" (pb_ClientId body) in
    let clientSecret := default "" (pb_ClientSecret body) in
    if bool_decide (clientID = "") || bool_decide (clientSecret = "") then Err (bad_request "clientId and clientSecret are required")
    else
      let oidc := bool_decide (pb_Type body = TypeOIDC) in
      if oidc && negb (match pb_Issuer body with Some i => has_prefix "https://" i | None => false end)
      then Err (bad_request "type oidc requires an https:// issuer")
      else
        match encryptClientSecret no_key_message cipher nonce clientSecret with
        | Err e => Err (Raised e)
        | Ok enc => Ok (clientID, enc, if oidc then trim_suffix "/" <$> pb_Issuer body else None, None)
        end.

Definition CreateAuthProviderConfig (now : Z) (id : N) (nonce : option string) (body : ProviderBody) (s : auth_db)
  : outcome api_AuthProviderConfig * auth_db :=
  if negb (KnownProviderType (pb_Type body)) then (bad_request ("unknown provider type " +:+ go_quote (pb_Type body)), s)
  else if negb (providerNamePattern (pb_Name body)) then (bad_request "name must match ^[a-z0-9][a-z0-9-]{1,30}$", s)
  else if bad_display_name (pb_DisplayName body) then (bad_request "displayName must be 1-100 characters", s)
  else
    let enabled := default true (pb_Enabled body) in
    match typed_config nonce body with
    | Err o => (o, s)
    | Ok (clientID, secretEnc, issuer, samlCfg) =>
        match pg_CreateAuthProvider now
                (MkNewAuthProvider id (pb_Type body) (pb_Name body) (trim_space (pb_DisplayName body)) clientID secretEnc issuer samlCfg enabled)
                (user_audit p "authprovider.create" "auth_provider" (uuid_string id) None
                   (Some (JObj [("enabled", JBool enabled); ("name", JStr (pb_Name body)); ("type", JStr (pb_Type body))]))) s with
        | (Err ErrNameExists, s) => (conflict "a provider with this name already exists", s)
        | (Err _, s) => (Raised otherError, s)
        | (Ok created, s) => (Success 201 (toAuthProviderConfig created), s)
        end
    end.

(** The members of the audit payload, in the order of their names. *)
Definition patch_payload (body : ProviderPatch) (saml : bool) : jval :=
  let m {A} (k : string) (f : A -> jval) (o : option A) := match o with Some a => [(k, f a)] | None => [] end in
  JObj (m "client_id" JStr (pp_ClientId body)
        ++ m "client_secret" (fun _ => JStr "(rotated)") (pp_ClientSecret body)
        ++ m "display_name" (fun s => JStr (trim_space s)) (pp_DisplayName body)
        ++ m "enabled" JBool (pp_Enabled body)
        ++ m "issuer" (fun s => JStr (trim_suffix "/" s)) (pp_Issuer body)
        ++ (if saml then [("saml_config", JStr "(updated)")] else []))%list.

(** The provided fields merged into the stored configuration; [None] when none
    was provided. *)
Definition merged_saml (body : ProviderPatch) (id : N) (s : auth_db) : result (option jval) (outcome api_AuthProviderConfig) :=
  if bool_decide (pp_IdpEntityId body = None) && bool_decide (pp_IdpSsoUrl body = None) && bool_decide (pp_IdpCertificate body = None)
  then Ok None
  else
    match pg_GetAuthProvider id s with
    | Err ErrNotFound => Err (not_found "provider not found")
    | Err _ => Err (Raised otherError)
    | Ok current =>
        let merged := (unmarshal_saml (AuthProvider_SAMLConfig current)).1 in
        let field o d := default d (trim_space <$> o) in
        match buildSAMLConfig (Some (field (pp_IdpEntityId body) (IDPEntityID merged))) (Some (field (pp_IdpSsoUrl body) (IDPSSOURL merged)))
                (Some (field (pp_IdpCertificate body) (IDPCertificate merged))) with
        | Err msg => Err (bad_request msg)
        | Ok cfg => Ok (Some cfg)
        end
    end.

Definition UpdateAuthProviderConfig (now : Z) (id : N) (nonce : option string) (body : ProviderPatch) (s : auth_db)
  : outcome api_AuthProviderConfig * auth_db :=
  if match pp_DisplayName body with Some dn => bad_display_name dn | None => false end
  then (bad_request "displayName must be 1-100 characters", s)
  else if bool_decide (pp_ClientId body = Some "") then (bad_request "clientId must not be empty", s)
  else if match pp_Issuer body with Some i => negb (has_prefix "https://" i) | None => false end
  then (bad_request "issuer must be an https:// URL", s)
  else if bool_decide (pp_ClientSecret body = Some "")
  then (bad_request "clientSecret must not be empty (omit it to keep the stored one)", s)
  else
    match (match pp_ClientSecret body with
           | None => Ok None
           | Some secret => match encryptClientSecret no_key_message cipher nonce secret with Ok enc => Ok (Some enc) | Err e => Err e end
           end) with
    | Err e => (Raised e, s)
    | Ok secretEnc =>
        match merged_saml body id s with
        | Err o => (o, s)
        | Ok samlCfg =>
            match pg_UpdateAuthProvider now id
                    (MkAuthProviderUpdate (trim_space <$> pp_DisplayName body) (pp_ClientId body) secretEnc (trim_suffix "/" <$> pp_Issuer body)
                       samlCfg (pp_Enabled body))
                    (user_audit p "authprovider.update" "auth_provider" (uuid_string id) None
                       (Some (patch_payload body (bool_decide (is_Some samlCfg))))) s with
            | (Err ErrNotFound, s) => (not_found "provider not found", s)
            | (Err _, s) => (Raised otherError, s)
            | (Ok updated, s) => (Success 200 (toAuthProviderConfig updated), s)
            end
        end
    end.

Definition DeleteAuthProviderConfig (id : N) (s : auth_db) : outcome unit * auth_db :=
  match pg_GetAuthProvider id s with
  | Err ErrNotFound => (not_found "provider not found", s)
  | Err _ => (Raised otherError, s)
  | Ok provider =>
      match pg_DeleteAuthProvider id
              (user_audit p "authprovider.delete" "auth_provider" (uuid_string id) None
                 (Some (JObj [("name", JStr (AuthProvider_Name provider)); ("type", JStr (AuthProvider_Type provider))]))) s with
      | (Err ErrNotFound, s) => (not_found "provider not found", s)
      | (Err _, s) => (Raised otherError, s)
      | (Ok _, s) => (Success 204 tt, s)
      end
  end.

Definition TestAuthProviderConfig (http_get : probe) (id : N) (s : auth_db) : outcome (bool * string) :=
  match pg_GetAuthProvider id s with
  | Err ErrNotFound => not_found "provider not found"
  | Err _ => Raised otherError
  | Ok pr =>
      Success 200 (TestProviderConnectivity cert_error http_get
        (MkProviderInfo (AuthProvider_Type pr) (AuthProvider_Name pr) "" (EffectiveIssuer (AuthProvider_Type pr) (default "" (AuthProvider_Issuer pr)))
           "" "" (if bool_decide (AuthProvider_Type pr = TypeSAML) then Some (unmarshal_saml (AuthProvider_SAMLConfig pr)).1 else None)))
  end.

(** The two columns with secrets, as the re-keying sees them: every row of the
    providers, the webhooks with a secret. *)
Definition secret_columns (s : auth_db) : enc_tables :=
  MkEncTables (AuthProvider_ClientSecretEnc <$> ad_providers s) (omap Webhook_SecretEnc (x_webhooks (t_ext (ad_tables s)))).

Definition with_secret (p : AuthProvider) (enc : string) : AuthProvider :=
  MkAuthProvider (AuthProvider_ID p) (AuthProvider_Type p) (AuthProvider_Name p) (AuthProvider_DisplayName p) (AuthProvider_ClientID p)
    enc (AuthProvider_Issuer p) (AuthProvider_SAMLConfig p) (AuthProvider_Enabled p) (AuthProvider_CreatedAt p) (AuthProvider_UpdatedAt p).
Definition with_webhook_secret (w : Webhook) (enc : option string) : Webhook :=
  MkWebhook (Webhook_ID w) (Webhook_Type w) (Webhook_Name w) (Webhook_URL w) (Webhook_Events w) enc (Webhook_Enabled w) (Webhook_CreatedBy w)
    (Webhook_CreatedAt w) (Webhook_UpdatedAt w).

Definition put_secret_columns (t : enc_tables) (s : auth_db) : auth_db :=
  MkAuthDB (map_imap (fun id p => Some (with_secret p (default (AuthProvider_ClientSecretEnc p) (client_secret_enc t !! id)))) (ad_providers s))
    (set_webhooks (map_imap (fun id w => Some (with_webhook_secret w (secret_enc t !! id)))) (ad_tables s)).

(** The handler over the tables. *)
Definition ReencryptSecretsHandler (nonces : nat -> option string) (s : auth_db) : outcome Z * auth_db :=
  if negb (Configured cipher) then (Failure 503 codeUpstream "master key not configured (set OTEL_FLEET_MASTER_KEY)", s)
  else match ReencryptSecrets cipher nonces (secret_columns s) with
       | (Err _, _) => (Raised otherError, s)
       | (Ok migrated, t) => (Success 200 migrated, put_secret_columns t s)
       end.
End handlers.

(** ** The re-keying stops at a SAML provider *)

Lemma reencrypt_batch_refused mig i batch col m id enc e : (id, enc) ∈ batch -> (forall j, mig j enc = Err e) ->
  exists e', reencrypt_batch mig i batch col m = Err e'.
Proof.
  intros Hin He. revert i col m. induction batch as [|[id' enc'] batch IH]; intros i col m; [by apply elem_of_nil in Hin|].
  simpl. apply elem_of_cons in Hin as [[= <- <-]|Hin]; [rewrite He; by eexists|].
  destruct (mig i enc') as [[new|]|e']; [by apply IH..|by eexists].
Qed.

Lemma reencrypt_refused {AE : Aead} c nonces s id row : ad_providers s !! id = Some row -> AuthProvider_ClientSecretEnc row = "" ->
  ReencryptSecretsHandler (Some c) nonces s = (Raised otherError, s).
Proof.
  intros Hrow Henc. unfold ReencryptSecretsHandler, ReencryptSecrets, pg_ReencryptSecrets. change (Configured (Some c)) with true. cbn [negb].
  destruct (reencrypt_batch_refused (fun i => migrate (Some c) (nonces i)) 0 (map_to_list (client_secret_enc (secret_columns s)))
    (client_secret_enc (secret_columns s)) 0 id "" ErrDecrypt) as [e ->]; [| |done].
  - apply elem_of_map_to_list. simpl. by rewrite lookup_fmap, Hrow, <- Henc.
  - done.
Qed.

(** A SAML provider has no client secret, its column holds the empty string,
    which is not null: from its creation on, and as long as it exists without
    one, the re-keying of the secrets fails whatever the keys are, and nothing
    is moved to the new key. *)
Theorem saml_blocks_rotation {AE : Aead} {CP : X509} uuid_string no_key_message cert_error baseURL c p now id nonce body s s' created :
  pb_Type body = TypeSAML ->
  CreateAuthProviderConfig uuid_string no_key_message cert_error baseURL (Some c) p now id nonce body s = (Success 201 created, s') ->
  exists row, ad_providers s' !! id = Some row
    /\ forall c' nonces s'', (exists row', ad_providers s'' !! id = Some row' /\ AuthProvider_ClientSecretEnc row' = AuthProvider_ClientSecretEnc row) ->
         ReencryptSecretsHandler (Some c') nonces s'' = (Raised otherError, s'').
Proof.
  intros Ht H. assert (exists row, ad_providers s' !! id = Some row /\ AuthProvider_ClientSecretEnc row = "") as (row & Hrow & Henc).
  { unfold CreateAuthProviderConfig, typed_config in H. rewrite Ht in H. rewrite bool_decide_true in H by done.
    repeat (case_match; simplify_eq/=). unfold pg_CreateAuthProvider in *. repeat (case_match; simplify_eq/=).
    unfold commit_providers in *. simplify_eq/=. eexists. rewrite lookup_insert_eq. by split. }
  exists row. split; [done|]. intros c' nonces s'' (row' & Hrow' & Henc'). eapply reencrypt_refused; [exact Hrow'|congruence].
Qed.

(** ** What the login page offers *)

Inductive provider_request : Type :=
| PCreate (id : N) (nonce : option string) (body : ProviderBody)
| PUpdate (id : N) (nonce : option string) (body : ProviderPatch)
| PDelete (id : N).

Definition provider_nonce_ok (r : provider_request) : Prop :=
  match r with
  | PCreate _ n _ | PUpdate _ n _ => exists b, n = Some b /\ String.length b = NonceSize
  | PDelete _ => True
  end.

Section offers.
Context {AE : Aead} {CP : X509}.
Context (uuid_string : N -> string) (no_key_message cert_error baseURL : string) (cipher : option Cipher) (env : list OIDCProvider).

Definition provider_step (p : option Principal) (now : Z) (r : provider_request) (s : auth_db) : auth_db :=
  match r with
  | PCreate id n b => (CreateAuthProviderConfig uuid_string no_key_message cert_error baseURL cipher p now id n b s).2
  | PUpdate id n b => (UpdateAuthProviderConfig uuid_string no_key_message cert_error baseURL cipher p now id n b s).2
  | PDelete id => (DeleteAuthProviderConfig uuid_string p id s).2
  end.

Definition provider_run (p : option Principal) (rs : list (Z * provider_request)) (s : auth_db) : auth_db :=
  foldl (fun s r => provider_step p r.1 r.2 s) s rs.

(** A row that a login can use. *)
Definition provider_ok (p : AuthProvider) : Prop :=
  providerNamePattern (AuthProvider_Name p) = true
  /\ AuthProvider_DisplayName p <> "" /\ (len (AuthProvider_DisplayName p) <= 100)%Z
  /\ (AuthProvider_Type p = TypeSAML
        /\ (exists cfg, AuthProvider_SAMLConfig p = Some (marshal_saml cfg) /\ ValidateSAMLConfig cfg = None)
      \/ AuthProvider_Type p ∈ ["google"; "microsoft"; "github"; "oidc"] /\ AuthProvider_ClientID p <> ""
        /\ usable_secret cipher (AuthProvider_ClientSecretEnc p)
        /\ (AuthProvider_Type p = TypeOIDC ->
              exists raw, has_prefix "https://" raw = true /\ AuthProvider_Issuer p = Some (trim_suffix "/" raw))).

Record providers_wf (s : auth_db) : Prop := {
  pw_row : forall i p, ad_providers s !! i = Some p -> AuthProvider_ID p = i /\ provider_ok p;
  pw_name : forall i j p q, ad_providers s !! i = Some p -> ad_providers s !! j = Some q ->
    AuthProvider_Name p = AuthProvider_Name q -> i = j
}.

Lemma name_taken_false name m : name_taken name m = false <-> forall i p, m !! i = Some p -> AuthProvider_Name p <> name.
Proof using Type.
  unfold name_taken. rewrite existsb_rows_false. simpl. split; intros H i p Hp; apply H in Hp; by apply bool_decide_eq_false in Hp || apply bool_decide_eq_false.
Qed.

Lemma good_display_name s : bad_display_name s = false -> trim_space s <> "" /\ (len (trim_space s) <= 100)%Z.
Proof using Type. unfold bad_display_name. rewrite orb_false_iff, bool_decide_eq_false, Z.ltb_ge. tauto. Qed.

Lemma buildSAMLConfig_ok e u c j : buildSAMLConfig cert_error e u c = Ok j -> exists cfg, j = marshal_saml cfg /\ ValidateSAMLConfig cfg = None.
Proof using Type. unfold buildSAMLConfig. destruct (ValidateSAMLConfig _) eqn:E; [done|]. intros [= <-]. eauto. Qed.

Lemma create_provider_wf p now id n body s : cipher_ok cipher -> provider_nonce_ok (PCreate id n body) -> providers_wf s ->
  providers_wf (provider_step p now (PCreate id n body) s).
Proof using Type.
  intros Hc (b & Hn & Hb) [W1 W2]. simpl. unfold CreateAuthProviderConfig. destruct (KnownProviderType _) eqn:Hk; [|done].
  apply bool_decide_eq_true in Hk. destruct (providerNamePattern _) eqn:Hp; [|done]. destruct (bad_display_name _) eqn:Hd; [done|]. cbn [negb].
  destruct (typed_config _ _ _ _ _) as [[[[clientID enc] issuer] saml]|o] eqn:Ht; [|done].
  unfold pg_CreateAuthProvider. cbn [NewAuthProvider_Type NewAuthProvider_ID NewAuthProvider_Name]. destruct (_ || _) eqn:Hor; [done|].
  apply orb_false_iff in Hor as [_ Hfresh]. apply bool_decide_eq_false in Hfresh. destruct (name_taken _ _) eqn:Htaken; [done|].
  rewrite name_taken_false in Htaken. split; simpl.
  - intros i q. rewrite lookup_insert_Some. intros [[<- <-]|[_ Hq]]; [|by apply W1]. split; [done|]. split; [done|].
    apply good_display_name in Hd as [Hd1 Hd2]. split; [done|]. split; [done|]. simpl. unfold typed_config in Ht. case_bool_decide as Hsaml.
    + left. split; [done|]. destruct (buildSAMLConfig _ _ _ _) eqn:Hbuild; [|done]. simplify_eq.
      apply buildSAMLConfig_ok in Hbuild as (cfg & -> & Hv). eauto.
    + right. split; [unfold TypeSAML in Hsaml; unfold TypeGoogle, TypeMicrosoft, TypeGitHub, TypeOIDC, TypeSAML in Hk; set_solver|].
      destruct (_ || _) eqn:Hempty in Ht; [done|]. apply orb_false_iff in Hempty as [Hid Hsec]. rewrite bool_decide_eq_false in Hid, Hsec.
      destruct (_ && _) eqn:Hiss in Ht; [done|]. destruct (encryptClientSecret _ _ _ _) eqn:He; [|done]. simplify_eq.
      split; [done|]. split; [by eapply encrypt_usable|]. intros Hoidc. rewrite (bool_decide_true _ Hoidc) in Hiss |- *.
      apply negb_false_iff in Hiss. destruct (pb_Issuer body) as [raw|]; [|done]. by exists raw.
  - intros i j q q'. rewrite !lookup_insert_Some. intros [[<- <-]|[? Hq]] [[<- <-]|[? Hq']] Heq; simpl in *; try done.
    + by destruct (Htaken _ _ Hq').
    + by destruct (Htaken _ _ Hq).
    + by eapply W2.
Qed.

Lemma update_provider_wf p now id n body s : cipher_ok cipher -> provider_nonce_ok (PUpdate id n body) -> providers_wf s ->
  providers_wf (provider_step p now (PUpdate id n body) s).
Proof using Type.
  intros Hc (b & Hn & Hb) [W1 W2]. simpl. unfold UpdateAuthProviderConfig.
  destruct (match pp_DisplayName body with Some _ => _ | None => _ end) eqn:Hd; [done|]. case_bool_decide as Hcid; [done|].
  destruct (match pp_Issuer body with Some _ => _ | None => _ end) eqn:Hi; [done|]. case_bool_decide as Hsec; [done|].
  destruct (match pp_ClientSecret body with Some _ => _ | None => _ end) as [enc|] eqn:He; [|done].
  destruct (merged_saml _ _ _ _) as [saml|o] eqn:Hs; [|done].
  unfold pg_UpdateAuthProvider, pg_GetAuthProvider. destruct (ad_providers s !! id) as [q|] eqn:Hq; [|done]. simpl.
  destruct (W1 _ _ Hq) as [Hid (Hok1 & Hok2 & Hok2' & Hok3)].
  assert (provider_ok (patch_provider now (MkAuthProviderUpdate (trim_space <$> pp_DisplayName body) (pp_ClientId body) enc
    (trim_suffix "/" <$> pp_Issuer body) saml (pp_Enabled body)) q)) as Hnew.
  { split; [done|]. apply and_assoc. split; simpl. { destruct (pp_DisplayName body); [by apply good_display_name|done]. }
    destruct Hok3 as [[Ht (cfg & Hcfg & Hv)]|(Ht & Hcl & Hus & Hiss)]; [left|right]; (split; [done|]).
    - destruct saml as [j|]; [|by exists cfg]. unfold merged_saml in Hs. destruct (_ && _ && _); [done|].
      destruct (pg_GetAuthProvider id s) as [|[]]; try done. destruct (buildSAMLConfig _ _ _ _) eqn:Hbuild; [|done]. simplify_eq.
      apply buildSAMLConfig_ok in Hbuild as (cfg' & -> & Hv'). eauto.
    - split. { destruct (pp_ClientId body) as [cid|]; [|done]. simpl. intros E. apply Hcid. by rewrite E. }
      split. { destruct (pp_ClientSecret body) as [sec|]; [|by simplify_eq]. destruct (encryptClientSecret _ _ _ _) eqn:E; [|done]. simplify_eq.
        eapply encrypt_usable; [done|done|done| |exact E]. intros ->. by apply Hsec. }
      intros Ho. destruct (pp_Issuer body) as [raw|]; [|by apply Hiss]. simpl. exists raw. by apply negb_false_iff in Hi. }
  split; simpl.
  - intros i q'. rewrite lookup_insert_Some. intros [[<- <-]|[_ Hq']]; [|by apply W1]. by split.
  - intros i j q1 q2. rewrite !lookup_insert_Some. intros [[<- <-]|[? H1]] [[<- <-]|[? H2]] Heq; simpl in *; try done; by eapply W2.
Qed.

Lemma provider_step_wf p now r s : cipher_ok cipher -> provider_nonce_ok r -> providers_wf s -> providers_wf (provider_step p now r s).
Proof using Type.
  intros Hc Hn W. destruct r; [by apply create_provider_wf|by apply update_provider_wf|]. simpl. unfold DeleteAuthProviderConfig, pg_DeleteAuthProvider.
  destruct (pg_GetAuthProvider id s) as [|[]]; try done. destruct W as [W1 W2]. split; simpl.
  - intros i q [_ Hq]%lookup_delete_Some. by apply W1.
  - intros i j q q' [_ Hq]%lookup_delete_Some [_ Hq']%lookup_delete_Some. by eapply W2.
Qed.

Lemma provider_run_wf p rs s : cipher_ok cipher -> Forall (fun r => provider_nonce_ok r.2) rs -> providers_wf s -> providers_wf (provider_run p rs s).
Proof using Type.
  intros Hc Hn. revert s. induction Hn as [|[now r] rs Hr _ IH]; intros s W; [done|]. apply IH. by apply provider_step_wf.
Qed.

Lemma by_name_Some s name q : providers_wf s ->
  pg_GetAuthProviderByName name s = Ok q <-> ad_providers s !! AuthProvider_ID q = Some q /\ AuthProvider_Name q = name.
Proof using Type.
  intros [W1 W2]. unfold pg_GetAuthProviderByName.
  assert (forall p, p ∈ rows (ad_providers s) (fun p => bool_decide (AuthProvider_Name p = name)) <->
    ad_providers s !! AuthProvider_ID p = Some p /\ AuthProvider_Name p = name) as Hin.
  { intros p. rewrite rows_elem, bool_decide_eq_true. split; [|intros [? ?]; split; [done|by eexists]].
    intros [Hn [i Hi]]. destruct (W1 _ _ Hi) as [-> _]. done. }
  destruct (rows _ _) as [|p l] eqn:E.
  - split; [done|]. intros H. apply Hin in H. by apply elem_of_nil in H.
  - assert (p ∈ p :: l) as Hp by left. apply Hin in Hp as [Hp Hpn]. split.
    + intros [= <-]. by split.
    + intros [Hq Hqn]. assert (AuthProvider_ID p = AuthProvider_ID q) as Heq by (eapply W2; [exact Hp|exact Hq|congruence]). congruence.
Qed.

Definition is_ok {A E} (r : result A E) : Prop := exists a, r = Ok a.

(** A disabled provider of the table hides one of the environment. *)
Definition shadowed (name : string) (s : auth_db) : Prop :=
  (exists q, pg_GetAuthProviderByName name s = Ok q /\ AuthProvider_Enabled q = false) /\ exists e, e ∈ env /\ OIDCProvider_Name e = name.

Context {LAWS : AeadLaws}.

Lemma provider_info_ok q : provider_ok q -> exists info, provider_info cipher q = Ok info.
Proof using Type*.
  intros (_ & _ & _ & [[Ht (cfg & Hcfg & _)]|(Ht & _ & (c & key & secret & -> & Hk & Hseal & _) & _)]); unfold provider_info.
  - rewrite bool_decide_true by done. rewrite Hcfg, unmarshal_marshal_saml. by eexists.
  - rewrite bool_decide_false by (intros E; rewrite E in Ht; unfold TypeSAML in Ht; set_solver).
    rewrite (Decrypt_sealed _ _ _ _ Hseal Hk). by eexists.
Qed.

Lemma offered_spec s name : providers_wf s -> (exists dn, (name, dn) ∈ LoginProviders env s) <->
  (exists q, pg_GetAuthProviderByName name s = Ok q /\ AuthProvider_Enabled q = true)
  \/ (exists e, e ∈ env /\ OIDCProvider_Name e = name).
Proof using Type.
  intros W. assert (forall q, q ∈ pg_ListAuthProviders true s /\ AuthProvider_Name q = name <->
    pg_GetAuthProviderByName name s = Ok q /\ AuthProvider_Enabled q = true) as Hdb.
  { intros q. rewrite (by_name_Some _ _ _ W). unfold pg_ListAuthProviders. rewrite sort_by_perm, rows_elem. simpl. split.
    - intros [[He [i Hi]] Hname]. destruct (pw_row _ W _ _ Hi) as [-> _]. done.
    - intros [[Hi Hname] He]. split; [split; [done|by eexists]|done]. }
  unfold LoginProviders. setoid_rewrite elem_of_app. setoid_rewrite list_elem_of_fmap. split.
  - intros (dn & [(q & [= -> ->] & Hq)|(e & [= -> ->] & He)]).
    + left. exists q. by apply Hdb.
    + right. apply list_elem_of_filter in He as [_ He]. by exists e.
  - intros [(q & Hq)|(e & He & <-)].
    + apply Hdb in Hq as [Hq <-]. eexists. left. by exists q.
    + destruct (decide (OIDCProvider_Name e ∈ (AuthProvider_Name <$> pg_ListAuthProviders true s))) as [Hin|Hout].
      * apply list_elem_of_fmap in Hin as (q & -> & Hq). eexists. left. by exists q.
      * eexists. right. exists e. split; [done|]. by apply list_elem_of_filter.
Qed.

Lemma resolve_spec s name : providers_wf s ->
  match pg_GetAuthProviderByName name s with
  | Ok q => if AuthProvider_Enabled q then is_ok (Resolve uuid_string env cipher name s)
            else Resolve uuid_string env cipher name s = Err ErrUnknownProvider
  | Err _ => is_ok (Resolve uuid_string env cipher name s) /\ (exists e, e ∈ env /\ OIDCProvider_Name e = name)
             \/ Resolve uuid_string env cipher name s = Err ErrUnknownProvider /\ ~ (exists e, e ∈ env /\ OIDCProvider_Name e = name)
  end.
Proof using Type*.
  intros W. unfold Resolve. destruct (pg_GetAuthProviderByName name s) as [q|err] eqn:Hq.
  - destruct (AuthProvider_Enabled q); [|done]. apply (by_name_Some _ _ _ W) in Hq as [Hq _]. apply (pw_row _ W) in Hq as [_ Hok].
    destruct (provider_info_ok q Hok) as [info ->]. by eexists.
  - assert (forall e, e ∈ filter (fun e => OIDCProvider_Name e = name) env <-> e ∈ env /\ OIDCProvider_Name e = name) as Hin.
    { intros e. rewrite list_elem_of_filter. tauto. }
    destruct (filter _ env) as [|e l].
    + right. split; [done|]. intros (e & He). apply Hin in He. by apply elem_of_nil in He.
    + left. split; [by eexists|]. exists e. apply Hin. left.
Qed.

(** C33: whatever requests manage the providers: each stored one stays usable, so
    no login meets a provider that cannot be resolved; the login page offers
    exactly the names that resolve, but for a provider of the environment with
    the name of a disabled one, which is offered and answered with not found. *)
Theorem offers_resolve p rs s name : cipher_ok cipher -> Forall (fun r => provider_nonce_ok r.2) rs -> providers_wf s ->
  let s' := provider_run p rs s in
  providers_wf s'
  /\ (is_ok (Resolve uuid_string env cipher name s') \/ Resolve uuid_string env cipher name s' = Err ErrUnknownProvider)
  /\ ((exists dn, (name, dn) ∈ LoginProviders env s') <-> is_ok (Resolve uuid_string env cipher name s') \/ shadowed name s')
  /\ (shadowed name s' -> Resolve uuid_string env cipher name s' = Err ErrUnknownProvider).
Proof using Type*.
  intros Hc Hn W s'. assert (providers_wf s') as W' by by apply provider_run_wf. clearbody s'. split; [done|].
  rewrite (offered_spec _ _ W'). pose proof (resolve_spec s' name W') as Hr. unfold shadowed.
  destruct (pg_GetAuthProviderByName name s') as [q|err]; [destruct (AuthProvider_Enabled q) eqn:Hen|].
  - split; [by left|]. split; [|by intros [(q' & [= <-] & ?) _]; congruence]. split; [by left|]. intros _. left. by exists q.
  - rewrite Hr. split; [by right|]. split; [|done]. split.
    + intros [(q' & [= <-] & ?)|He]; [congruence|]. right. split; [by exists q|done].
    + intros [[a Ha]|[_ He]]; [done|by right].
  - split; [tauto|]. split; [|by intros [(q' & [=] & _) _]]. split.
    + intros [(q' & [=] & _)|He]. left. destruct Hr as [[? _]|[_ ?]]; done.
    + intros [Hok|[(q' & [=] & _) _]]. right. destruct Hr as [[_ ?]|[E _]]; [done|]. destruct Hok as [a Ha]. by rewrite E in Ha.
Qed.
End offers.

(** ** Examples *)

Definition ex_x509 : X509 := Build_X509 unit (fun _ => None) (fun s => if bool_decide (s = "certificate") then Some tt else None).
Definition ex_saml_body : ProviderBody :=
  MkProviderBody "saml" "okta" " Okta " None None None (Some "idp") (Some "https://idp") (Some (std_encode "certificate")) None.
Definition ex_oidc_body : ProviderBody :=
  MkProviderBody "oidc" "sso" "SSO" (Some "client") (Some "secret") (Some "https://issuer/") None None None (Some false).
Definition ex_env : list OIDCProvider := [MkOIDCProvider "sso" "Env SSO" "https://env" "env-client" "env-secret"].
Definition ex_auth : auth_db := MkAuthDB ∅ ex_two_admins.
Definition ex_provider_run (rs : list (Z * provider_request)) : auth_db :=
  provider_run (AE := ex_aead) (CP := ex_x509) ex_uuid "no key" "bad cert" "https://fleet" (Some ex_cipher) (Some ex_admin) rs ex_auth.

Lemma saml_blocks_rotation_witness : exists created s',
  CreateAuthProviderConfig (AE := ex_aead) (CP := ex_x509) ex_uuid "no key" "bad cert" "https://fleet" (Some ex_cipher) (Some ex_admin)
    5 3 None ex_saml_body ex_auth = (Success 201 created, s')
  /\ ReencryptSecretsHandler (AE := ex_aead) (Some ex_new_cipher) (fun _ => Some ex_nonce) s' = (Raised otherError, s').
Proof.
  destruct (CreateAuthProviderConfig (AE := ex_aead) (CP := ex_x509) ex_uuid "no key" "bad cert" "https://fleet" (Some ex_cipher) (Some ex_admin)
    5 3 None ex_saml_body ex_auth) as [o s'] eqn:E.
  assert (exists created, o = Success 201 created) as [created ->].
  { apply (f_equal fst) in E. vm_compute in E. subst o. by eexists. }
  exists created, s'. split; [done|].
  destruct (saml_blocks_rotation (AE := ex_aead) (CP := ex_x509) ex_uuid "no key" "bad cert" "https://fleet" ex_cipher (Some ex_admin)
    5 3 None ex_saml_body ex_auth s' created eq_refl E) as (row & Hrow & H).
  apply H. by exists row.
Defined.

(** The disabled provider hides the one of the environment, which the page still
    offers. *)
Lemma offers_resolve_witness :
  let s := ex_provider_run [(5, PCreate 3 (Some ex_nonce) ex_oidc_body)]%Z in
  LoginProviders ex_env s = [("sso", "Env SSO")] /\ Resolve (AE := ex_aead) ex_uuid ex_env (Some ex_cipher) "sso" s = Err ErrUnknownProvider.
Proof.
  split; [vm_compute; reflexivity|].
  destruct (offers_resolve (AE := ex_aead) (CP := ex_x509) ex_uuid "no key" "bad cert" "https://fleet" (Some ex_cipher) ex_env
    (LAWS := ex_aead_laws) (Some ex_admin) [(5, PCreate 3 (Some ex_nonce) ex_oidc_body)]%Z ex_auth "sso") as (_ & _ & _ & H).
  - intros c [= <-]. vm_compute. by constructor.
  - repeat constructor. by exists ex_nonce.
  - split; intros i; [intros q|intros j q q']; cbn; by rewrite lookup_empty.
  - apply H. split; [|exists (MkOIDCProvider "sso" "Env SSO" "https://env" "env-client" "env-secret"); by split; [left|]].
    eexists. split; [vm_compute; reflexivity|reflexivity].
Defined.

(** An issuer of slashes only loses its scheme's separator. *)
Example issuer_cut : trim_suffix "/" "https://" = "https:/".
Proof. reflexivity. Qed.
