(* ===== verification/SignIn.v ===== *)
(** Browser sign-in: the login flows of internal/auth/oidc.go, github.go, saml.go
    and login.go, and the dispatch and flow cache of registry.go.

    The answers of identity providers and what the protocol libraries make of
    them (go-oidc, oauth2, gosaml2) are inputs of a request: [upstream].  Random
    numbers are inputs, too. *)
From S2P Require Import Prelude GoStrings Json StoreTypes Authz PgCore Crypto PgUsers PgScim PgSettings ScimAccess ApiCore ApiAdmin AuthProviders.
From Stdlib Require Import Ascii.

Open Scope string_scope.

(** ** Upstream answers *)

Class IdPLibs := {
  oidc_provider : Type;
  gh_token : Type
}.

Record claims : Type := MkClaims { cl_Email : string; cl_EmailVerified : option bool; cl_Name : string }.

(** [idt_claims]: [None] when they cannot be parsed. *)
Record id_token : Type := MkIDToken { idt_Issuer : string; idt_Subject : string; idt_claims : option claims }.

Record gh_user : Type := MkGhUser { gh_ID : Z; gh_Login : string; gh_Name : string }.
Record gh_email : Type := MkGhEmail { ge_Email : string; ge_Primary : bool; ge_Verified : bool }.

(** [as_Get]: an attribute's value, or the empty string; [as_Warning]: the two
    flags of the warning info, if there is one. *)
Record assertion : Type := MkAssertion {
  as_NameID : string;
  as_Get : string -> string;
  as_Warning : option (bool * bool)
}.

Record service_provider {CP : X509} : Type := MkServiceProvider {
  sp_SSOURL : string;
  sp_IdPIssuer : string;
  sp_Issuer : string;
  sp_ACSURL : string;
  sp_AudienceURI : string;
  sp_Root : certificate
}.

Record upstream {IL : IdPLibs} {CP : X509} : Type := MkUpstream {
  (** discovery at an issuer; whether its issuer check is relaxed *)
  up_NewProvider : string -> bool -> option oidc_provider;
  (** code exchange with the provider's credentials: the id_token extra *)
  up_Exchange : ProviderInfo -> string -> oidc_provider -> string -> string -> option (option string);
  (** verification for a client id; whether the issuer check is skipped *)
  up_Verify : oidc_provider -> string -> bool -> string -> option id_token;
  up_gh_Exchange : ProviderInfo -> string -> string -> option gh_token;
  up_gh_user : gh_token -> option (Z * option gh_user);
  up_gh_emails : gh_token -> option (Z * option (list gh_email));
  up_BuildAuthURL : service_provider -> option string;
  up_RetrieveAssertionInfo : service_provider -> string -> option assertion
}.

Arguments MkServiceProvider {CP}.
Arguments MkUpstream {IL CP}.

(** ** Requests and replies *)

Record flow_session : Type := MkFlowSession { fs_session : Session; fs_state : string; fs_verifier : string }.

Definition pop_state (s : flow_session) : flow_session := MkFlowSession (fs_session s) "" (fs_verifier s).
Definition pop_both (s : flow_session) : flow_session := MkFlowSession (fs_session s) "" "".

Record callback_query : Type := MkQuery { q_state : string; q_error : string; q_code : string }.

Inductive reply : Type :=
| RedirectUpstream (info : ProviderInfo) (state verifier : string)
| RedirectURL (url : string)
| RedirectHome
| HTTPError (status : Z) (text : string)
| HTTPNotFound
| SPMetadata (entityID acs : string).

(** [RAcs None]: the form cannot be parsed. *)
Inductive flow_request : Type :=
| RStart
| RCallback (q : callback_query)
| RAcs (samlResponse : option string)
| RMetadata.

(** ** Login flows *)

Record login_flow {IL : IdPLibs} {CP : X509} : Type := MkLoginFlow {
  lf_info : ProviderInfo;
  lf_provider : option oidc_provider;
  lf_sp : option service_provider
}.

Arguments MkLoginFlow {IL CP}.

(** What a request draws: the state, the verifier, the session's CSRF token, the
    time and the id of a new user. *)
Record draws : Type := MkDraws { dr_state : string; dr_verifier : string; dr_csrf : string; dr_now : Z; dr_newID : N }.

(** ^https://login\.microsoftonline\.com/[0-9a-fA-F-]+/v2\.0$ *)
Definition microsoftIssuerPattern (s : string) : bool :=
  match cut_prefix "https://login.microsoftonline.com/" s with
  | None => false
  | Some rest =>
      let tenant := trim_suffix "/v2.0" rest in
      bool_decide (tenant +:+ "/v2.0" = rest) && negb (bool_decide (tenant = ""))
      && all_bytes (fun c => is_digit c || in_range "a" "f" c || in_range "A" "F" c || bool_decide (c = "-"%char)) tenant
  end.

(** The verified primary address, or else the first verified one. *)
Fixpoint primary_verified (fallback : string) (emails : list gh_email) : string :=
  match emails with
  | [] => fallback
  | e :: emails =>
      if negb (ge_Verified e) then primary_verified fallback emails
      else if ge_Primary e then ge_Email e
      else primary_verified (if bool_decide (fallback = "") then ge_Email e else fallback) emails
  end.

(** [githubGet]: only a 200 is decoded. *)
Definition githubGet {A} (answer : option (Z * option A)) : option A :=
  match answer with Some (status, body) => if (status =? 200)%Z then body else None | None => None end.

Definition emailAttributeNames : list string :=
  ["email"; "mail"; "emailAddress"; "User.email"; "http://schemas.xmlsoap.org/ws/2005/05/identity/claims/emailaddress";
   "urn:oid:0.9.2342.19200300.100.1.3"].
Definition nameAttributeNames : list string :=
  ["displayName"; "name"; "cn"; "http://schemas.xmlsoap.org/ws/2005/05/identity/claims/name";
   "http://schemas.xmlsoap.org/ws/2005/05/identity/claims/displayname"; "urn:oid:2.16.840.1.113730.3.1.241"; "urn:oid:2.5.4.3"].

Fixpoint first_attribute (a : assertion) (names : list string) : string :=
  match names with
  | [] => ""
  | n :: names => if bool_decide (as_Get a n = "") then first_attribute a names else as_Get a n
  end.

Definition samlEmail (a : assertion) : string :=
  if str_contains "@" (as_NameID a) then as_NameID a else first_attribute a emailAttributeNames.
Definition samlDisplayName (a : assertion) : string := first_attribute a nameAttributeNames.

Definition non_empty (s : string) : option string := if bool_decide (s = "") then None else Some s.

Section flows.
Context {IL : IdPLibs} {CP : X509} {AE : Aead}.
Context (unicode_lower : Z -> Z) (uuid_string : N -> string) (baseURL : string) (env : list OIDCProvider) (cipher : option Cipher).
Context (is_admin : string -> bool).

(** [loginFinisher.finish] *)
Definition finish (dr : draws) (identityKey subject email : string) (displayName : option string) (s : flow_session) (d : DB)
  : reply * flow_session * DB :=
  let role := if is_admin email then RoleAdmin else RoleViewer in
  match pg_UpsertUserByIdentity (dr_now dr) (dr_newID dr) identityKey subject email displayName role d with
  | (Err _, d) => (HTTPError 500 "login failed", s, d)
  | (Ok user, d) =>
      if bool_decide (is_Some (User_DisabledAt user)) then (HTTPError 403 "account disabled", s, d)
      else (RedirectHome, MkFlowSession (session_Login uuid_string (dr_csrf dr) (User_ID user)) (fs_state s) (fs_verifier s), d)
  end.

(** [getProvider]: discovered once per flow. *)
Definition getProvider (up : upstream) (f : login_flow) : option oidc_provider * login_flow :=
  match lf_provider f with
  | Some p => (Some p, f)
  | None =>
      match up_NewProvider up (ProviderInfo_Issuer (lf_info f)) (bool_decide (ProviderInfo_Type (lf_info f) = TypeMicrosoft)) with
      | None => (None, f)
      | Some p => (Some p, MkLoginFlow (lf_info f) (Some p) (lf_sp f))
      end
  end.

Definition OIDC_Start (up : upstream) (dr : draws) (s : flow_session) (f : login_flow) : reply * flow_session * login_flow :=
  match getProvider up f with
  | (None, f) => (HTTPError 502 "identity provider unavailable", s, f)
  | (Some _, f) => (RedirectUpstream (lf_info f) (dr_state dr) (dr_verifier dr), MkFlowSession (fs_session s) (dr_state dr) (dr_verifier dr), f)
  end.

(** The id token of a callback whose state has been checked. *)
Definition OIDC_token (up : upstream) (q : callback_query) (verifier : string) (f : login_flow) : result id_token reply * login_flow :=
  let info := lf_info f in
  let microsoft := bool_decide (ProviderInfo_Type info = TypeMicrosoft) in
  match getProvider up f with
  | (None, f) => (Err (HTTPError 502 "identity provider unavailable"), f)
  | (Some p, f) =>
      (match up_Exchange up info (RedirectURI baseURL (ProviderInfo_Name info)) p (q_code q) verifier with
       | None => Err (HTTPError 502 "code exchange failed")
       | Some None | Some (Some "") => Err (HTTPError 502 "no id_token in token response")
       | Some (Some raw) =>
           match up_Verify up p (ProviderInfo_ClientID info) microsoft raw with
           | None => Err (HTTPError 400 "invalid id_token")
           | Some tok =>
               if microsoft && negb (microsoftIssuerPattern (idt_Issuer tok)) then Err (HTTPError 400 "invalid id_token issuer")
               else Ok tok
           end
       end, f)
  end.

Definition OIDC_Callback (up : upstream) (dr : draws) (q : callback_query) (s : flow_session) (f : login_flow) (d : DB)
  : reply * flow_session * login_flow * DB :=
  let wantState := fs_state s in
  let verifier := fs_verifier s in
  let s := pop_both s in
  if bool_decide (wantState = "") || negb (bool_decide (q_state q = wantState)) then (HTTPError 400 "invalid OIDC state", s, f, d)
  else if negb (bool_decide (q_error q = "")) then (HTTPError 400 ("login failed: " +:+ q_error q), s, f, d)
  else if bool_decide (q_code q = "") then (HTTPError 400 "missing authorization code", s, f, d)
  else
    match OIDC_token up q verifier f with
    | (Err r, f) => (r, s, f, d)
    | (Ok tok, f) =>
        match idt_claims tok with
        | None => (HTTPError 400 "cannot parse id_token claims", s, f, d)
        | Some c =>
            if bool_decide (cl_Email c = "") then (HTTPError 400 "id_token contains no email", s, f, d)
            else if bool_decide (cl_EmailVerified c = Some false) then (HTTPError 403 "email not verified at identity provider", s, f, d)
            else
              let '(r, s, d) := finish dr (IdentityKey (lf_info f)) (idt_Subject tok) (cl_Email c) (non_empty (cl_Name c)) s d in
              (r, s, f, d)
        end
    end.

Definition GitHub_Start (dr : draws) (s : flow_session) (f : login_flow) : reply * flow_session * login_flow :=
  (RedirectUpstream (lf_info f) (dr_state dr) "", MkFlowSession (fs_session s) (dr_state dr) (fs_verifier s), f).

(** The profile and the address of a callback whose state has been checked. *)
Definition GitHub_profile (up : upstream) (q : callback_query) (f : login_flow) : result (gh_user * string) reply :=
  match up_gh_Exchange up (lf_info f) (RedirectURI baseURL (ProviderInfo_Name (lf_info f))) (q_code q) with
  | None => Err (HTTPError 502 "code exchange failed")
  | Some tok =>
      match githubGet (up_gh_user up tok) with
      | None => Err (HTTPError 502 "cannot read GitHub profile")
      | Some u =>
          if (gh_ID u =? 0)%Z then Err (HTTPError 502 "GitHub profile has no id")
          else
            match primary_verified "" <$> githubGet (up_gh_emails up tok) with
            | None => Err (HTTPError 502 "cannot read GitHub email addresses")
            | Some "" => Err (HTTPError 403 "GitHub account has no verified primary email")
            | Some email => Ok (u, email)
            end
      end
  end.

Definition GitHub_Callback (up : upstream) (dr : draws) (q : callback_query) (s : flow_session) (f : login_flow) (d : DB)
  : reply * flow_session * login_flow * DB :=
  let wantState := fs_state s in
  let s := pop_state s in
  if bool_decide (wantState = "") || negb (bool_decide (q_state q = wantState)) then (HTTPError 400 "invalid OAuth state", s, f, d)
  else if negb (bool_decide (q_error q = "")) then (HTTPError 400 ("login failed: " +:+ q_error q), s, f, d)
  else if bool_decide (q_code q = "") then (HTTPError 400 "missing authorization code", s, f, d)
  else
    match GitHub_profile up q f with
    | Err r => (r, s, f, d)
    | Ok (u, email) =>
        let displayName := if bool_decide (gh_Name u = "") then gh_Login u else gh_Name u in
        let '(r, s, d) := finish dr (IdentityKey (lf_info f)) (itoa (gh_ID u)) email (non_empty displayName) s d in
        (r, s, f, d)
    end.

Definition buildServiceProvider (info : ProviderInfo) : option service_provider :=
  c ← ProviderInfo_SAML info;
  cert ← parseCertificate (IDPCertificate c);
  let name := ProviderInfo_Name info in
  Some (MkServiceProvider (IDPSSOURL c) (IDPEntityID c) (SPEntityID baseURL name) (ACSURL baseURL name) (SPEntityID baseURL name) cert).

Definition SAML_Start (up : upstream) (f : login_flow) : reply :=
  match lf_sp f with
  | None => HTTPError 500 "identity provider misconfigured"
  | Some sp => match up_BuildAuthURL up sp with
               | None => HTTPError 502 "identity provider unavailable"
               | Some url => RedirectURL url
               end
  end.

(** The assertion of a posted response, if it is acceptable. *)
Definition SAML_assertion (up : upstream) (form : option string) (f : login_flow) : result assertion reply :=
  match lf_sp f, form with
  | None, _ => Err (HTTPError 500 "identity provider misconfigured")
  | _, None => Err (HTTPError 400 "invalid request")
  | _, Some "" => Err (HTTPError 400 "missing SAMLResponse")
  | Some sp, Some encoded =>
      match up_RetrieveAssertionInfo up sp encoded with
      | None => Err (HTTPError 403 "invalid SAML assertion")
      | Some a =>
          match as_Warning a with
          | Some (true, _) => Err (HTTPError 403 "SAML assertion outside its validity window")
          | Some (_, true) => Err (HTTPError 403 "SAML assertion audience mismatch")
          | _ => Ok a
          end
      end
  end.

Definition SAML_ACS (up : upstream) (dr : draws) (form : option string) (s : flow_session) (f : login_flow) (d : DB)
  : reply * flow_session * DB :=
  match SAML_assertion up form f with
  | Err r => (r, s, d)
  | Ok a =>
      let email := samlEmail a in
      if bool_decide (email = "") then (HTTPError 400 "the SAML assertion carries no email address", s, d)
      else
        let subject := if bool_decide (as_NameID a = "") then email else as_NameID a in
        finish dr (IdentityKey (lf_info f)) subject (strings_ToLower unicode_lower email) (non_empty (samlDisplayName a)) s d
  end.

(** ** The registry *)

Record cached_flow : Type := MkCachedFlow { cf_fingerprint : string; cf_flow : login_flow }.

Definition new_flow (info : ProviderInfo) : login_flow :=
  MkLoginFlow info None (if bool_decide (ProviderInfo_Type info = TypeSAML) then buildServiceProvider info else None).

Definition flowFor (info : ProviderInfo) (fingerprint : string) (flows : gmap string cached_flow) : login_flow * gmap string cached_flow :=
  let build := let f := new_flow info in (f, <[ProviderInfo_Name info := MkCachedFlow fingerprint f]> flows) in
  match flows !! ProviderInfo_Name info with
  | Some c => if bool_decide (cf_fingerprint c = fingerprint) then (cf_flow c, flows) else build
  | None => build
  end.

(** [strings.Trim(path, slash)] and [strings.Split]. *)
Definition providerNameFromPath (path : string) : string :=
  let trimmed := of_bytes (trim_both (fun c => bool_decide (c = "/"%char)) (bytes_of path)) in
  match split_n "/" (S (String.length trimmed)) trimmed with
  | [auth; name; _] => if bool_decide (auth = "auth") then name else ""
  | _ => ""
  end.

(** A flow serves a request; the flow of a type without an endpoint answers not
    found. *)
Definition serve (up : upstream) (dr : draws) (r : flow_request) (s : flow_session) (f : login_flow) (d : DB)
  : reply * flow_session * login_flow * DB :=
  let github := bool_decide (ProviderInfo_Type (lf_info f) = TypeGitHub) in
  let saml := bool_decide (ProviderInfo_Type (lf_info f) = TypeSAML) in
  match r with
  | RStart => if saml then (SAML_Start up f, s, f, d)
              else let '(rep, s, f) := if github then GitHub_Start dr s f else OIDC_Start up dr s f in (rep, s, f, d)
  | RCallback q => if saml then (HTTPNotFound, s, f, d)
                   else if github then GitHub_Callback up dr q s f d else OIDC_Callback up dr q s f d
  | RAcs form => if saml then let '(rep, s, d) := SAML_ACS up dr form s f d in (rep, s, f, d) else (HTTPNotFound, s, f, d)
  | RMetadata => if saml then (SPMetadata (SPEntityID baseURL (ProviderInfo_Name (lf_info f))) (ACSURL baseURL (ProviderInfo_Name (lf_info f))), s, f, d)
                 else (HTTPNotFound, s, f, d)
  end.

Record sign_in_state : Type := MkSignIn { si_auth : auth_db; si_flows : gmap string cached_flow }.

Definition dispatch (up : upstream) (dr : draws) (path : string) (r : flow_request) (s : flow_session) (st : sign_in_state)
  : reply * flow_session * sign_in_state :=
  let name := providerNameFromPath path in
  if bool_decide (name = "") then (HTTPNotFound, s, st)
  else
    match Resolve uuid_string env cipher name (si_auth st) with
    | Err ErrUnknownProvider => (HTTPNotFound, s, st)
    | Err _ => (HTTPError 500 "login provider unavailable", s, st)
    | Ok (info, fingerprint) =>
        let '(f, flows) := flowFor info fingerprint (si_flows st) in
        let '(rep, s, f, d) := serve up dr r s f (ad_tables (si_auth st)) in
        (rep, s, MkSignIn (MkAuthDB (ad_providers (si_auth st)) d) (<[ProviderInfo_Name info := MkCachedFlow fingerprint f]> flows))
    end.
End flows.

(** ** Who a login is *)

(** The account behind an identity: the one linked before, or else the one with
    the address, or else a new one. *)
Definition linked_account (d : DB) (key subject email : string) (newID uid : N) : Prop :=
  x_identities (t_ext d) !! (key, subject) = Some uid
  \/ x_identities (t_ext d) !! (key, subject) = None
     /\ ((exists u, t_users d !! uid = Some u /\ User_Email u = email)
         \/ uid = newID /\ t_users d !! uid = None /\ forall i u, t_users d !! i = Some u -> User_Email u <> email).

Lemma upsert_identity now nid p sub email dn role d a d' : users_wf d ->
  pg_UpsertUserByIdentity now nid p sub email dn role d = (Ok a, d') ->
  users_wf d' /\ linked_account d p sub email nid (User_ID a)
  /\ x_identities (t_ext d') !! (p, sub) = Some (User_ID a)
  /\ exists row, t_users d' !! User_ID a = Some row /\ User_DisabledAt row = User_DisabledAt a
       /\ (role = RoleAdmin -> User_Role row = RoleAdmin).
Proof.
  intros Hwf H. pose proof (user_exec_wf (fun _ => "") [] d (UpsertUserByIdentity now nid p sub email dn role) Hwf) as W'. simpl in W'.
  rewrite H in W'. simpl in W'. split; [done|]. clear W'. apply inTx_Ok in H. tx_invert H.
  match goal with Hx : pg_GetUser _ _ = Ok _ |- _ => apply pg_GetUser_Ok in Hx as Hrow end.
  destruct (x_identities (t_ext d) !! (p, sub)) as [i|] eqn:Hid; simpl in Hs.
  - destruct (uw_identities _ Hwf _ _ Hid) as [u Hu]. rewrite Hu in Hs. injection Hs as <- <-.
    destruct (uw_row _ Hwf _ _ Hu) as [Hui _]. simpl in *. subst i a. assert (a1 = u) as -> by congruence. simpl.
    split; [by left|]. split; [done|]. eexists. rewrite lookup_insert_eq. split; [done|]. split; [done|]. simpl. intros ->. by case_decide.
  - tx_invert Hs. subst. unfold insert_identity in *. case_bool_decide as Hn; [done|]. simplify_eq/=.
    unfold find_or_create_user in *. destruct (rows (t_users d) _) as [|u l] eqn:Hrows.
    + match goal with Hx : _ = Ok (a0, _) |- _ => tx_invert Hx end.
      match goal with Hx : insert_user _ _ _ _ _ = Ok _ |- _ => apply insert_user_Ok in Hx as (-> & Hfresh & _ & Hmail & _) end.
      simplify_map_eq. split.
      * right. split; [done|]. right. split; [done|]. split; [done|]. by apply email_taken_false.
      * split; [done|]. eexists. split; [done|]. split; [done|]. simpl. intros ->. by case_decide.
    + simplify_eq/=. assert (u ∈ u :: l) as Hu by left. rewrite <- Hrows in Hu. apply rows_elem in Hu as [Hmail [i Hi]].
      apply bool_decide_eq_true in Hmail. destruct (uw_row _ Hwf _ _ Hi) as [Hui _]. subst i. assert (a1 = u) as -> by congruence.
      split; [right; split; [done|]; left; by exists u|]. rewrite !lookup_insert_eq. split; [done|]. eexists. split; [done|].
      split; [done|]. simpl. intros ->. by case_decide.
Qed.

Section sound.
Context {IL : IdPLibs} {CP : X509} {AE : Aead}.
Context (unicode_lower : Z -> Z) (uuid_string : N -> string) (baseURL : string) (env : list OIDCProvider) (cipher : option Cipher).
Context (is_admin : string -> bool).

(** A login that succeeded: the session is bound to an enabled account linked to
    the identity. *)
Definition logged_in (dr : draws) (key subject email : string) (d : DB) (s' : flow_session) (d' : DB) : Prop :=
  exists uid row, fs_session s' = session_Login uuid_string (dr_csrf dr) uid /\ linked_account d key subject email (dr_newID dr) uid
    /\ x_identities (t_ext d') !! (key, subject) = Some uid /\ t_users d' !! uid = Some row /\ User_DisabledAt row = None
    /\ (is_admin email = true -> User_Role row = RoleAdmin).

Lemma finish_spec dr key subject email dn s d r s' d' : users_wf d ->
  finish uuid_string is_admin dr key subject email dn s d = (r, s', d') ->
  users_wf d' /\ fs_state s' = fs_state s
  /\ (r = RedirectHome /\ logged_in dr key subject email d s' d' \/ r <> RedirectHome /\ s' = s).
Proof using Type.
  intros Hwf. unfold finish. destruct (pg_UpsertUserByIdentity _ _ _ _ _ _ _ _) as [[a|e] d1] eqn:E.
  - apply upsert_identity in E as (W & Hl & Hi & row & Hrow & Hdis & Hrole); [|done]. case_bool_decide as Hd; intros [= <- <- <-].
    + split; [done|]. split; [done|]. by right.
    + split; [done|]. split; [done|]. left. split; [done|]. exists (User_ID a), row. split_and!; try done.
      * rewrite Hdis. by apply eq_None_not_Some.
      * intros Ha. apply Hrole. by rewrite Ha.
  - intros [= <- <- <-]. apply inTx_Err in E as ->. split; [done|]. split; [done|]. by right.
Qed.

(** [authentic issuer p]: [p] is what discovery at the issuer gives. *)
Context (authentic : string -> oidc_provider -> Prop).

Definition honest (up : upstream) : Prop := forall issuer relaxed p, up_NewProvider up issuer relaxed = Some p -> authentic issuer p.

(** What the provider says in answer to a request: a subject with an address. *)
Definition vouched (up : upstream) (info : ProviderInfo) (r : flow_request) (verifier subject email : string) : Prop :=
  match r with
  | RCallback q =>
      q_code q <> "" /\ q_error q = "" /\ ProviderInfo_Type info <> TypeSAML /\
      if bool_decide (ProviderInfo_Type info = TypeGitHub) then
        exists tok u emails e,
          up_gh_Exchange up info (RedirectURI baseURL (ProviderInfo_Name info)) (q_code q) = Some tok
          /\ up_gh_user up tok = Some (200%Z, Some u) /\ up_gh_emails up tok = Some (200%Z, Some emails)
          /\ gh_ID u <> 0%Z /\ subject = itoa (gh_ID u) /\ e ∈ emails /\ ge_Verified e = true /\ ge_Email e = email /\ email <> ""
      else
        exists p raw tok c,
          authentic (ProviderInfo_Issuer info) p
          /\ up_Exchange up info (RedirectURI baseURL (ProviderInfo_Name info)) p (q_code q) verifier = Some (Some raw)
          /\ up_Verify up p (ProviderInfo_ClientID info) (bool_decide (ProviderInfo_Type info = TypeMicrosoft)) raw = Some tok
          /\ (ProviderInfo_Type info = TypeMicrosoft -> microsoftIssuerPattern (idt_Issuer tok) = true)
          /\ idt_claims tok = Some c /\ subject = idt_Subject tok /\ email = cl_Email c /\ email <> "" /\ cl_EmailVerified c <> Some false
  | RAcs (Some encoded) =>
      ProviderInfo_Type info = TypeSAML /\
      exists sp a, buildServiceProvider baseURL info = Some sp /\ up_RetrieveAssertionInfo up sp encoded = Some a
        /\ (as_Warning a = None \/ as_Warning a = Some (false, false))
        /\ samlEmail a <> "" /\ email = strings_ToLower unicode_lower (samlEmail a)
        /\ subject = (if bool_decide (as_NameID a = "") then samlEmail a else as_NameID a)
  | _ => False
  end.

(** A flow built for a provider. *)
Definition flow_ok (f : login_flow) : Prop :=
  (forall p, lf_provider f = Some p -> authentic (ProviderInfo_Issuer (lf_info f)) p)
  /\ (ProviderInfo_Type (lf_info f) = TypeSAML -> lf_sp f = buildServiceProvider baseURL (lf_info f)).

Lemma getProvider_spec up f p f' : honest up -> flow_ok f -> getProvider up f = (p, f') ->
  flow_ok f' /\ lf_info f' = lf_info f /\ (forall p', p = Some p' -> authentic (ProviderInfo_Issuer (lf_info f)) p').
Proof using Type.
  intros Hh [H1 H2]. unfold getProvider. destruct (lf_provider f) as [q|] eqn:Hq.
  - intros [= <- <-]. split; [split; [rewrite Hq; exact H1|done]|]. split; [done|]. intros p1 [= <-]. by apply H1.
  - destruct (up_NewProvider up _ _) as [q|] eqn:Hn; intros [= <- <-].
    + split; [split; simpl; [intros p' [= <-]; by eapply Hh|done]|]. split; [done|]. intros p' [= <-]. by eapply Hh.
    + split; [split; [rewrite Hq; exact H1|done]|]. by split.
Qed.

Lemma OIDC_token_spec up q v f res f' : honest up -> flow_ok f -> OIDC_token baseURL up q v f = (res, f') ->
  flow_ok f' /\ lf_info f' = lf_info f /\ match res with
  | Err r => r <> RedirectHome
  | Ok tok => exists p raw, authentic (ProviderInfo_Issuer (lf_info f)) p
      /\ up_Exchange up (lf_info f) (RedirectURI baseURL (ProviderInfo_Name (lf_info f))) p (q_code q) v = Some (Some raw)
      /\ up_Verify up p (ProviderInfo_ClientID (lf_info f)) (bool_decide (ProviderInfo_Type (lf_info f) = TypeMicrosoft)) raw = Some tok
      /\ (ProviderInfo_Type (lf_info f) = TypeMicrosoft -> microsoftIssuerPattern (idt_Issuer tok) = true)
  end.
Proof using Type.
  intros Hh Hf. unfold OIDC_token. destruct (getProvider up f) as [p f1] eqn:Hg. apply getProvider_spec in Hg as (Hf1 & Hi & Hp); [|done..].
  destruct p as [p|]; intros [= <- <-]; [|done]. split; [done|]. split; [done|].
  destruct (up_Exchange _ _ _ _ _ _) as [[[|c raw]|]|] eqn:He; try done. destruct (up_Verify _ _ _ _ _) as [tok|] eqn:Hv; [|done].
  destruct (_ && _) eqn:Hm; [done|]. exists p, (String c raw). split; [by apply Hp|]. split; [done|]. split; [done|].
  intros Hms. rewrite bool_decide_true in Hm by done. by apply negb_false_iff in Hm.
Qed.

Lemma primary_verified_spec fb emails : primary_verified fb emails = fb \/
  exists e, e ∈ emails /\ ge_Verified e = true /\ ge_Email e = primary_verified fb emails.
Proof using Type.
  revert fb. induction emails as [|e emails IH]; intros fb; simpl; [by left|]. destruct (ge_Verified e) eqn:Hv; simpl.
  - destruct (ge_Primary e); [right; exists e; split; [left|done]|]. case_bool_decide as Hb.
    + destruct (IH (ge_Email e)) as [H|(e' & Hin & ?)]; right; [exists e; rewrite H; split; [left|done]|exists e'; split; [by right|done]].
    + destruct (IH fb) as [H|(e' & Hin & ?)]; [by left|right]. exists e'. split; [by right|done].
  - destruct (IH fb) as [H|(e' & Hin & ?)]; [by left|right]. exists e'. split; [by right|done].
Qed.

Lemma githubGet_Some {A} (x : option (Z * option A)) a : githubGet x = Some a -> x = Some (200%Z, Some a).
Proof using Type. unfold githubGet. destruct x as [[st b]|]; [|done]. destruct (Z.eqb_spec st 200); [|done]. by intros ->; subst. Qed.

(** What serving a request establishes. *)
Definition served (up : upstream) (dr : draws) (info : ProviderInfo) (r : flow_request) (s : flow_session) (d : DB)
  (rep : reply) (s' : flow_session) (d' : DB) : Prop :=
  users_wf d'
  /\ (forall q, r = RCallback q -> ProviderInfo_Type info <> TypeSAML -> fs_state s' = "")
  /\ (rep = RedirectHome
        /\ (forall q, r = RCallback q -> fs_state s <> "" /\ q_state q = fs_state s)
        /\ (exists subject email, vouched up info r (fs_verifier s) subject email
              /\ logged_in dr (IdentityKey info) subject email d s' d')
      \/ rep <> RedirectHome /\ fs_session s' = fs_session s).

Lemma served_refused up dr info r s d rep s' : users_wf d -> rep <> RedirectHome -> fs_session s' = fs_session s ->
  (forall q, r = RCallback q -> ProviderInfo_Type info <> TypeSAML -> fs_state s' = "") -> served up dr info r s d rep s' d.
Proof using Type. intros. split; [done|]. split; [done|]. by right. Qed.

(** The end of a callback whose identity is vouched for. *)
Lemma served_finish up dr info r s s1 d subject email dn rep s' d' : users_wf d -> fs_session s1 = fs_session s ->
  (forall q, r = RCallback q -> fs_state s1 = "" /\ fs_state s <> "" /\ q_state q = fs_state s) ->
  vouched up info r (fs_verifier s) subject email ->
  finish uuid_string is_admin dr (IdentityKey info) subject email dn s1 d = (rep, s', d') -> served up dr info r s d rep s' d'.
Proof using Type.
  intros Hwf Hs1 Hst Hv Hf. apply finish_spec in Hf as (W & Hstate & Hres); [|done]. split; [done|]. split.
  - intros q Hq _. rewrite Hstate. by eapply Hst.
  - destruct Hres as [[-> Hl]|[Hn ->]]; [left|right; by split]. split; [done|]. split; [intros q Hq; by eapply Hst|]. eauto.
Qed.

Lemma OIDC_served up dr q s f d rep s' f' d' : honest up -> flow_ok f -> users_wf d ->
  ProviderInfo_Type (lf_info f) <> TypeSAML -> ProviderInfo_Type (lf_info f) <> TypeGitHub ->
  OIDC_Callback uuid_string baseURL is_admin up dr q s f d = (rep, s', f', d') ->
  flow_ok f' /\ lf_info f' = lf_info f /\ served up dr (lf_info f) (RCallback q) s d rep s' d'.
Proof using Type.
  intros Hh Hf Hwf Hns Hng. unfold OIDC_Callback.
  destruct (bool_decide (fs_state s = "") || _) eqn:Hst; [intros [= <- <- <- <-]; split_and!; try done; by apply served_refused|].
  apply orb_false_iff in Hst as [Hne Hq]. apply bool_decide_eq_false in Hne. apply negb_false_iff, bool_decide_eq_true in Hq.
  destruct (negb (bool_decide (q_error q = ""))) eqn:Herr; [intros [= <- <- <- <-]; split_and!; try done; by apply served_refused|].
  apply negb_false_iff, bool_decide_eq_true in Herr.
  case_bool_decide as Hcode; [intros [= <- <- <- <-]; split_and!; try done; by apply served_refused|].
  destruct (OIDC_token _ _ _ _ _) as [res f1] eqn:Ht. apply OIDC_token_spec in Ht as (Hf1 & Hi & Hres); [|done..].
  destruct res as [tok|r0]; [|intros [= <- <- <- <-]; split_and!; try done; by apply served_refused].
  destruct Hres as (p & raw & Ha & Hex & Hve & Hms).
  destruct (idt_claims tok) as [c|] eqn:Hc; [|intros [= <- <- <- <-]; split_and!; try done; by apply served_refused].
  destruct (bool_decide (cl_Email c = "")) eqn:He; [intros [= <- <- <- <-]; split_and!; try done; by apply served_refused|].
  apply bool_decide_eq_false in He.
  destruct (bool_decide (cl_EmailVerified c = Some false)) eqn:Hver; [intros [= <- <- <- <-]; split_and!; try done; by apply served_refused|].
  apply bool_decide_eq_false in Hver.
  destruct (finish _ _ _ _ _ _ _ _ _) as [[rep1 s1] d1] eqn:Hfin. intros [= <- <- <- <-]. split; [done|]. split; [done|].
  eapply served_finish in Hfin; [rewrite Hi in Hfin; exact Hfin|done|done| |].
  - intros q' [= <-]. by split_and!.
  - rewrite Hi. split; [done|]. split; [done|]. split; [done|]. rewrite bool_decide_false by done. exists p, raw, tok, c. by split_and!.
Qed.

Lemma GitHub_profile_spec up q f u email : GitHub_profile baseURL up q f = Ok (u, email) ->
  exists tok emails e,
    up_gh_Exchange up (lf_info f) (RedirectURI baseURL (ProviderInfo_Name (lf_info f))) (q_code q) = Some tok
    /\ up_gh_user up tok = Some (200%Z, Some u) /\ up_gh_emails up tok = Some (200%Z, Some emails)
    /\ gh_ID u <> 0%Z /\ e ∈ emails /\ ge_Verified e = true /\ ge_Email e = email /\ email <> "".
Proof using Type.
  unfold GitHub_profile. destruct (up_gh_Exchange _ _ _ _) as [tok|] eqn:Hex; [|done].
  destruct (githubGet (up_gh_user up tok)) as [u0|] eqn:Hu; [|done]. apply githubGet_Some in Hu.
  destruct (Z.eqb_spec (gh_ID u0) 0); [done|]. destruct (githubGet (up_gh_emails up tok)) as [es|] eqn:He; [|done]. apply githubGet_Some in He.
  simpl. destruct (primary_verified_spec "" es) as [Hp|(e & Hin & Hv & Hp)]; [by rewrite Hp|].
  destruct (primary_verified "" es) as [|c em] eqn:Hpv; [done|]. intros [= <- <-]. exists tok, es, e. by split_and!.
Qed.

Lemma GitHub_served up dr q s f d rep s' f' d' : flow_ok f -> users_wf d -> ProviderInfo_Type (lf_info f) = TypeGitHub ->
  GitHub_Callback uuid_string baseURL is_admin up dr q s f d = (rep, s', f', d') ->
  flow_ok f' /\ lf_info f' = lf_info f /\ served up dr (lf_info f) (RCallback q) s d rep s' d'.
Proof using Type.
  intros Hf Hwf Hg. unfold GitHub_Callback.
  destruct (bool_decide (fs_state s = "") || _) eqn:Hst; [intros [= <- <- <- <-]; split_and!; try done; by apply served_refused|].
  apply orb_false_iff in Hst as [Hne Hq]. apply bool_decide_eq_false in Hne. apply negb_false_iff, bool_decide_eq_true in Hq.
  destruct (negb (bool_decide (q_error q = ""))) eqn:Herr; [intros [= <- <- <- <-]; split_and!; try done; by apply served_refused|].
  apply negb_false_iff, bool_decide_eq_true in Herr.
  case_bool_decide as Hcode; [intros [= <- <- <- <-]; split_and!; try done; by apply served_refused|].
  destruct (GitHub_profile _ _ _ _) as [[u em]|r0] eqn:Hp; [|intros [= <- <- <- <-]; split_and!; try done; apply served_refused; try done].
  2: { unfold GitHub_profile in Hp. repeat (case_match; simplify_eq/=; try done). }
  apply GitHub_profile_spec in Hp as (tok & es & e & H1 & H2 & H3 & H4 & H5 & H6 & H7 & H8).
  destruct (finish _ _ _ _ _ _ _ _ _) as [[rep1 s1] d1] eqn:Hfin. intros [= <- <- <- <-]. split; [done|]. split; [done|].
  eapply served_finish in Hfin; [exact Hfin|done|done| |].
  - intros q' [= <-]. by split_and!.
  - split; [done|]. split; [done|]. split; [by rewrite Hg|]. rewrite bool_decide_true by done. exists tok, u, es, e. by split_and!.
Qed.

Lemma SAML_served up dr form s f d rep s' d' : flow_ok f -> users_wf d -> ProviderInfo_Type (lf_info f) = TypeSAML ->
  SAML_ACS unicode_lower uuid_string is_admin up dr form s f d = (rep, s', d') ->
  served up dr (lf_info f) (RAcs form) s d rep s' d'.
Proof using Type.
  intros [_ Hsp] Hwf Ht. specialize (Hsp Ht). unfold SAML_ACS. destruct (SAML_assertion up form f) as [a|r0] eqn:Ha.
  - case_bool_decide as He; [intros [= <- <- <-]; by apply served_refused|]. intros Hfin. eapply served_finish in Hfin; [exact Hfin|done|done|done|].
    unfold SAML_assertion in Ha. destruct (lf_sp f) as [sp|] eqn:Hlf; [|done]. destruct form as [[|c em]|]; try done.
    destruct (up_RetrieveAssertionInfo up sp _) as [a'|] eqn:Hr; [|done]. split; [done|]. exists sp, a.
    assert (a' = a /\ (as_Warning a = None \/ as_Warning a = Some (false, false))) as [-> Hw].
    { destruct (as_Warning a') as [[[|] [|]]|] eqn:Hwa; try done; simplify_eq; split; try done; rewrite Hwa; auto. }
    by split_and!.
  - intros [= <- <- <-]. apply served_refused; try done. unfold SAML_assertion in Ha. repeat (case_match; simplify_eq/=; try done).
Qed.

Lemma serve_spec up dr r s f d rep s' f' d' : honest up -> flow_ok f -> users_wf d ->
  serve unicode_lower uuid_string baseURL is_admin up dr r s f d = (rep, s', f', d') ->
  flow_ok f' /\ lf_info f' = lf_info f /\ served up dr (lf_info f) r s d rep s' d'.
Proof using Type.
  intros Hh Hf Hwf. unfold serve. destruct r as [|q|form|].
  - case_bool_decide as Hs.
    + intros [= <- <- <- <-]. split_and!; try done. apply served_refused; try done. unfold SAML_Start. by repeat case_match.
    + case_bool_decide as Hg; [intros [= <- <- <- <-]; split_and!; try done; by apply served_refused|].
      unfold OIDC_Start. destruct (getProvider up f) as [p f1] eqn:Hgp. apply getProvider_spec in Hgp as (Hf1 & Hi & _); [|done..].
      destruct p; intros [= <- <- <- <-]; split_and!; try done; by apply served_refused.
  - case_bool_decide as Hs; [intros [= <- <- <- <-]; split_and!; try done; by apply served_refused|].
    case_bool_decide as Hg; [by apply GitHub_served|by apply OIDC_served].
  - case_bool_decide as Hs; [|intros [= <- <- <- <-]; split_and!; try done; by apply served_refused].
    destruct (SAML_ACS _ _ _ _ _ _ _ _ _) as [[rep1 s1] d1] eqn:Ha. intros [= <- <- <- <-]. split; [done|]. split; [done|].
    by apply SAML_served in Ha.
  - case_bool_decide; intros [= <- <- <- <-]; split_and!; try done; by apply served_refused.
Qed.

(** ** The registry over time *)

Context (no_key_message cert_error : string).

(** What can happen: requests on the providers at increasing times, changes of
    the other tables, and requests to the flows.  [reached clock st]: a state
    after events up to a time. *)
Inductive reached : Z -> sign_in_state -> Prop :=
| reached_start clock s : providers_wf cipher s -> users_wf (ad_tables s) ->
    (forall i q, ad_providers s !! i = Some q -> (AuthProvider_UpdatedAt q <= clock)%Z) -> reached clock (MkSignIn s ∅)
| reached_provider clock now st p r : reached clock st -> (clock < now)%Z -> provider_nonce_ok r ->
    reached now (MkSignIn (provider_step uuid_string no_key_message cert_error baseURL cipher p now r (si_auth st)) (si_flows st))
| reached_tables clock st d : reached clock st -> users_wf d -> reached clock (MkSignIn (MkAuthDB (ad_providers (si_auth st)) d) (si_flows st))
| reached_dispatch clock st up dr path r s : reached clock st -> honest up ->
    reached clock (dispatch unicode_lower uuid_string baseURL env cipher is_admin up dr path r s st).2.

Definition db_fingerprint (id : N) (updated : Z) : string := "db:" +:+ uuid_string id +:+ ":" +:+ itoa updated.

Definition env_named (name : string) : list OIDCProvider := filter (fun e => OIDCProvider_Name e = name) env.

(** A cached flow is one of the provider's present version, or of a version that
    is gone. *)
Definition flow_current (clock : Z) (s : auth_db) (name : string) (c : cached_flow) : Prop :=
  (exists id t, cf_fingerprint c = db_fingerprint id t /\ (t <= clock)%Z
     /\ forall q, ad_providers s !! id = Some q -> AuthProvider_UpdatedAt q = t -> provider_info cipher q = Ok (lf_info (cf_flow c)))
  \/ (exists e l, cf_fingerprint c = "env:" +:+ name /\ env_named name = e :: l /\ lf_info (cf_flow c) = env_info e).

Record registry_ok (clock : Z) (st : sign_in_state) : Prop := {
  ro_providers : providers_wf cipher (si_auth st);
  ro_users : users_wf (ad_tables (si_auth st));
  ro_times : forall i q, ad_providers (si_auth st) !! i = Some q -> (AuthProvider_UpdatedAt q <= clock)%Z;
  ro_flows : forall name c, si_flows st !! name = Some c -> flow_ok (cf_flow c) /\ flow_current clock (si_auth st) name c
}.

Lemma Resolve_Ok name s info fp : providers_wf cipher s -> Resolve uuid_string env cipher name s = Ok (info, fp) ->
  ProviderInfo_Name info = name /\
  ((exists q, ad_providers s !! AuthProvider_ID q = Some q /\ provider_info cipher q = Ok info
      /\ fp = db_fingerprint (AuthProvider_ID q) (AuthProvider_UpdatedAt q))
   \/ (exists e l, fp = "env:" +:+ name /\ env_named name = e :: l /\ info = env_info e)).
Proof using Type.
  intros W. unfold Resolve. destruct (pg_GetAuthProviderByName name s) as [q|] eqn:Hq.
  - apply (by_name_Some _ _ _ _ W) in Hq as [Hq Hn]. destruct (AuthProvider_Enabled q); [|done]. cbn [negb].
    destruct (provider_info cipher q) as [i|] eqn:Hi; [|done]. intros [= <- <-]. split; [|left; exists q; by split_and!].
    unfold provider_info in Hi. case_bool_decide; [destruct (unmarshal_saml _) as [cfg []]; by simplify_eq|].
    destruct (Decrypt _ _); by simplify_eq.
  - fold (env_named name). destruct (env_named name) as [|en l] eqn:He; [done|]. intros [= <- <-].
    assert (en ∈ env_named name) as Hin by (rewrite He; left). apply list_elem_of_filter in Hin as [Hn _].
    simpl. rewrite Hn. split; [done|]. right. by exists en, l.
Qed.

(** Provider requests leave every other row, and stamp the row they write. *)
Lemma provider_step_rows p now r s i q : ad_providers (provider_step uuid_string no_key_message cert_error baseURL cipher p now r s) !! i = Some q ->
  ad_providers s !! i = Some q \/ AuthProvider_UpdatedAt q = now.
Proof using Type.
  destruct r as [id n b|id n b|id]; simpl.
  - unfold CreateAuthProviderConfig. repeat (case_match; try (by left)); simplify_eq/=;
      unfold pg_CreateAuthProvider, commit_providers in *; repeat (case_match; simplify_eq/=); try (by left);
      rewrite lookup_insert_Some; (intros [[_ <-]|[_ ?]]; [by right|by left]).
  - unfold UpdateAuthProviderConfig. repeat (case_match; try (by left)); simplify_eq/=;
      unfold pg_UpdateAuthProvider, commit_providers in *; repeat (case_match; simplify_eq/=); try (by left);
      rewrite lookup_insert_Some; (intros [[_ <-]|[_ ?]]; [by right|by left]).
  - unfold DeleteAuthProviderConfig, pg_DeleteAuthProvider, commit_providers. repeat (case_match; simplify_eq/=; try (by left)).
    all: try (rewrite lookup_delete_Some; intros [_ ?]; by left).
Qed.

Lemma provider_step_users p now r s :
  users_wf (ad_tables s) -> users_wf (ad_tables (provider_step uuid_string no_key_message cert_error baseURL cipher p now r s)).
Proof using Type.
  intros W. assert (forall es, users_wf (set_audit (fun l => audit_write l es) (ad_tables s))) as Ha.
  { intros es. eapply users_wf_same; [|exact W]. by split_and!. }
  destruct r as [id n b|id n b|id]; simpl.
  - unfold CreateAuthProviderConfig. repeat (case_match; try done); simplify_eq/=;
      unfold pg_CreateAuthProvider, commit_providers in *; repeat (case_match; simplify_eq/=); done.
  - unfold UpdateAuthProviderConfig. repeat (case_match; try done); simplify_eq/=;
      unfold pg_UpdateAuthProvider, commit_providers in *; repeat (case_match; simplify_eq/=); done.
  - unfold DeleteAuthProviderConfig, pg_DeleteAuthProvider, commit_providers. repeat (case_match; simplify_eq/=; try done).
Qed.

Context (cipher_good : cipher_ok cipher).

Lemma registry_provider clock now st p r : registry_ok clock st -> (clock < now)%Z -> provider_nonce_ok r ->
  registry_ok now (MkSignIn (provider_step uuid_string no_key_message cert_error baseURL cipher p now r (si_auth st)) (si_flows st)).
Proof using cipher_good.
  intros [Hp Hu Ht Hf] Hnow Hn. split; simpl.
  - by apply provider_step_wf.
  - by apply provider_step_users.
  - intros i q [Hq|<-]%provider_step_rows; [|done]. apply Ht in Hq. lia.
  - intros name c Hc. apply Hf in Hc as [Hok Hcur]. split; [done|]. destruct Hcur as [(id & t & Hfp & Hle & Hq)|?]; [left|by right].
    exists id, t. split; [done|]. split; [lia|]. intros q [Hin|Hupd]%provider_step_rows Heq; [by apply Hq|]. lia.
Qed.

Context (uuid_inj : Inj (=) (=) uuid_string) (uuid_no_colon : forall i, has_byte ":" (uuid_string i) = false).

Lemma db_fingerprint_inj i t i' t' : db_fingerprint i t = db_fingerprint i' t' -> i = i' /\ t = t'.
Proof using uuid_inj uuid_no_colon.
  unfold db_fingerprint. intros H. do 3 apply (f_equal (fun s => match s with String _ s => s | "" => "" end)) in H. simpl in H.
  assert (forall j u, cut ":" (uuid_string j +:+ String ":" (itoa u)) = Some (uuid_string j, itoa u)) as Hcut by (intros; by apply cut_app).
  pose proof (Hcut i t) as H1. pose proof (Hcut i' t') as H2. rewrite H in H1. rewrite H1 in H2. injection H2 as Hi Ht.
  split; [by apply uuid_inj|]. by apply (inj pretty) in Ht.
Qed.

(** A dispatched request serves the present version of its provider. *)
Lemma dispatch_spec clock st up dr path r s rep s' st' : registry_ok clock st -> honest up ->
  dispatch unicode_lower uuid_string baseURL env cipher is_admin up dr path r s st = (rep, s', st') ->
  registry_ok clock st' /\
  (s' = s /\ rep <> RedirectHome
   \/ exists info fp, Resolve uuid_string env cipher (providerNameFromPath path) (si_auth st) = Ok (info, fp)
        /\ served up dr info r s (ad_tables (si_auth st)) rep s' (ad_tables (si_auth st'))).
Proof using uuid_inj uuid_no_colon.
  intros R Hh. pose proof R as [Hp Hu Ht Hf]. unfold dispatch. case_bool_decide; [intros [= <- <- <-]; split; [done|by left]|].
  destruct (Resolve _ _ _ _ _) as [[info fp]|er] eqn:Hr; [|destruct er; intros [= <- <- <-]; split; try done; by left].
  pose proof (Resolve_Ok _ _ _ _ Hp Hr) as [Hname Hver]. unfold flowFor.
  set (flows1 := <[ProviderInfo_Name info := MkCachedFlow fp (new_flow baseURL info)]> (si_flows st)).
  assert (flow_current clock (si_auth st) (ProviderInfo_Name info) (MkCachedFlow fp (new_flow baseURL info))) as Hcur.
  { rewrite Hname. destruct Hver as [(q & Hq & Hi & ->)|(e & l & -> & He & ->)]; [left|right; by exists e, l].
    exists (AuthProvider_ID q), (AuthProvider_UpdatedAt q). split; [done|]. split; [by eapply Ht|]. intros q' Hq' _. simpl. congruence. }
  assert (flow_ok (new_flow baseURL info)) as Hnew by (split; [done|]; simpl; intros E; by rewrite bool_decide_true).
  assert (exists f flows, (match si_flows st !! ProviderInfo_Name info with
      | Some c => if bool_decide (cf_fingerprint c = fp) then (cf_flow c, si_flows st) else (new_flow baseURL info, flows1)
      | None => (new_flow baseURL info, flows1) end) = (f, flows)
    /\ flow_ok f /\ lf_info f = info
    /\ forall name c, flows !! name = Some c -> flow_ok (cf_flow c) /\ flow_current clock (si_auth st) name c) as (f & flows & -> & Hfo & Hfi & Hfl).
  { assert (forall name c, flows1 !! name = Some c -> flow_ok (cf_flow c) /\ flow_current clock (si_auth st) name c) as H1.
    { intros name c. unfold flows1. rewrite lookup_insert_Some. intros [[<- <-]|[_ Hc]]; [by split|by apply Hf]. }
    destruct (si_flows st !! ProviderInfo_Name info) as [c|] eqn:Hc; [|by eexists _, _].
    case_bool_decide as Hfp; [|by eexists _, _]. destruct (Hf _ _ Hc) as [Hok Hcc]. eexists _, _. split; [done|]. split; [done|]. split; [|done].
    rewrite Hname in Hcc. destruct Hcc as [(id & t & Hfid & _ & Hq)|(e & l & Hfe & He & ->)], Hver as [(q & Hin & Hi & Hfq)|(e' & l' & Hfe' & He' & ->)].
    - rewrite Hfp, Hfq in Hfid. apply db_fingerprint_inj in Hfid as [<- <-]. specialize (Hq _ Hin eq_refl). congruence.
    - rewrite Hfp, Hfe' in Hfid. done.
    - rewrite Hfp, Hfq in Hfe. done.
    - congruence. }
  destruct (serve _ _ _ _ _ _ _ _ _ _) as [[[rep1 s1] f1] d1] eqn:Hs. intros [= <- <- <-].
  apply serve_spec in Hs as (Hf1 & Hi1 & Hserved); [|done..]. rewrite Hfi in *. split.
  - split; simpl; [|by apply Hserved|done|].
    + destruct Hp as [P1 P2]. by split.
    + intros name c. rewrite lookup_insert_Some. intros [[<- <-]|[_ Hc]]; [|by apply Hfl]. split; [done|]. simpl.
      unfold flow_current in *. simpl in *. by rewrite Hi1.
  - right. exists info, fp. by split.
Qed.

Lemma reached_ok clock st : reached clock st -> registry_ok clock st.
Proof using cipher_good uuid_inj uuid_no_colon.
  induction 1 as [clock s Hp Hu Ht|clock now st p r _ IH Hnow Hn|clock st d _ IH Hd|clock st up dr path r s _ IH Hh].
  - by split.
  - by apply registry_provider with clock.
  - destruct IH as [Hp Hu Ht Hf]. split; simpl; try done. destruct Hp as [P1 P2]. by split.
  - destruct (dispatch _ _ _ _ _ _ _ _ _ _ _ _) as [[rep s'] st'] eqn:E. by eapply dispatch_spec in E as [? _].
Qed.

End sound.

(** ** Examples *)

Definition ex_idp : IdPLibs := Build_IdPLibs string string.
#[local] Existing Instance ex_idp.
#[local] Existing Instance ex_x509.
#[local] Existing Instance ex_aead.
#[local] Existing Instance ex_aead_laws.

(** Ids in unary. *)
Definition ex_unary (id : N) : string := of_bytes (repeat "u"%char (N.to_nat id)).

(** An identity provider that answers the code [code] with a token for a subject
    and its claims, and GitHub for one account. *)
Definition ex_upstream (issuer subject : string) (c : claims) : upstream := {|
  up_NewProvider := fun issuer _ => Some issuer;
  up_Exchange := fun _ _ _ code verifier => if bool_decide (code = "code" /\ verifier = "verifier") then Some (Some "raw") else None;
  up_Verify := fun _ _ _ _ => Some (MkIDToken issuer subject (Some c));
  up_gh_Exchange := fun _ _ code => Some code;
  up_gh_user := fun _ => Some (200%Z, Some (MkGhUser 42 "octo" ""));
  up_gh_emails := fun _ => Some (200%Z, Some [MkGhEmail (cl_Email c) true true]);
  up_BuildAuthURL := fun _ => None;
  up_RetrieveAssertionInfo := fun _ _ => None
|}.
Definition ex_draws (now : Z) (newID : N) : draws := MkDraws "state" "verifier" "csrf" now newID.
Definition ex_query : callback_query := MkQuery "state" "" "code".
Definition ex_no_session : flow_session := MkFlowSession (MkSession "" "") "" "".

Definition ex_step (now : Z) (r : provider_request) (st : sign_in_state) : sign_in_state :=
  MkSignIn (provider_step ex_unary "no key" "bad cert" "https://fleet" (Some ex_cipher) (Some ex_admin) now r (si_auth st)) (si_flows st).
Definition ex_dispatch (up : upstream) (dr : draws) (path : string) (r : flow_request) (s : flow_session) (st : sign_in_state) :=
  dispatch (fun c => c) ex_unary "https://fleet" [] (Some ex_cipher) (fun e => bool_decide (e = "root@x")) up dr path r s st.

(** A whole login at the provider [name]. *)
Definition ex_login (up : upstream) (name : string) (dr : draws) (st : sign_in_state) : reply * flow_session * sign_in_state :=
  let '(_, s, st) := ex_dispatch up dr ("/auth/" +:+ name +:+ "/login") RStart ex_no_session st in
  ex_dispatch up dr ("/auth/" +:+ name +:+ "/callback") (RCallback ex_query) s st.

Definition ex_body (type name : string) (issuer : option string) : ProviderBody :=
  MkProviderBody type name name (Some "client") (Some "secret") issuer None None None None.
Definition ex_sso : provider_request := PCreate 3 (Some ex_nonce) (ex_body "oidc" "sso" (Some "https://issuer")).
Definition ex_start : sign_in_state := MkSignIn ex_auth ∅.
Definition ex_ready : sign_in_state := ex_step 5 ex_sso ex_start.
Definition ex_up : upstream := ex_upstream "https://issuer" "sub-1" (MkClaims "b@x" (Some true) "B").

Lemma length_of_bytes l : String.length (of_bytes l) = length l.
Proof. induction l as [|c l IH]; [done|]. simpl. by rewrite IH. Qed.
Lemma ex_unary_inj : Inj (=) (=) ex_unary.
Proof. intros i j H. apply (f_equal String.length) in H. unfold ex_unary in H. rewrite !length_of_bytes, !repeat_length in H. lia. Qed.
Lemma ex_unary_no_colon i : has_byte ":" (ex_unary i) = false.
Proof. unfold ex_unary. induction (N.to_nat i) as [|n IH]; [done|]. exact IH. Qed.

Definition ex_authentic (issuer : string) (p : oidc_provider) : Prop := p = issuer.

(** Who is signed in by a login, and with which accounts afterwards. *)
Definition ex_outcome (x : reply * flow_session * sign_in_state) : reply * string * list (N * string * string) :=
  (x.1.1, sess_user_id (fs_session x.1.2),
   (fun p => (p.1, User_Email p.2, User_Role p.2)) <$> map_to_list (t_users (ad_tables (si_auth x.2)))).

Lemma ex_ready_reached : reached (fun c => c) ex_unary "https://fleet" [] (Some ex_cipher) (fun e => bool_decide (e = "root@x")) ex_authentic
  "no key" "bad cert" 5 ex_ready.
Proof.
  apply reached_provider with 4%Z.
  - apply reached_start; [|exact ex_two_admins_wf|].
    + split; intros i; [intros q|intros j q q']; cbn; by rewrite lookup_empty.
    + intros i q. cbn. by rewrite lookup_empty.
  - lia.
  - repeat constructor. by exists ex_nonce.
Qed.

Lemma ex_cipher_good : cipher_ok (Some ex_cipher).
Proof. intros c [= <-]. vm_compute. by constructor. Qed.

Lemma ex_up_honest issuer subject c : honest ex_authentic (ex_upstream issuer subject c).
Proof. by intros i r p [= <-]. Qed.


(** Invitations store addresses in lower case, a token's address is taken as it
    is: it finds no account and opens a second one, without any grant. *)
Example address_case :
  ex_outcome (ex_login (ex_upstream "https://issuer" "sub-1" (MkClaims "B@x" (Some true) "B")) "sso" (ex_draws 6 9) ex_ready)
  = (RedirectHome, ex_unary 9, [(2%N, "b@x", "admin"); (9%N, "B@x", "viewer"); (1%N, "a@x", "admin")]).
Proof. vm_compute. reflexivity. Qed.

(** The identity key does not follow the issuer: after an update of the provider
    the new issuer's subject is the old issuer's account. *)
Example issuer_change_keeps_identity :
  let st := (ex_login ex_up "sso" (ex_draws 6 9) ex_ready).2 in
  let st := ex_step 7 (PUpdate 3 (Some ex_nonce) (MkProviderPatch None None None (Some "https://other") None None None None)) st in
  let x := ex_login (ex_upstream "https://other" "sub-1" (MkClaims "eve@y" (Some true) "Eve")) "sso" (ex_draws 8 9) st in
  x.1.1 = RedirectHome /\ sess_user_id (fs_session x.1.2) = ex_unary 2.
Proof. vm_compute. split; reflexivity. Qed.

(** An address of any Microsoft tenant, not marked as verified, opens the account
    that has it. *)
Example microsoft_unverified :
  let st := ex_step 5 (PCreate 3 (Some ex_nonce) (ex_body "microsoft" "ms" None)) ex_start in
  let x := ex_login (ex_upstream "https://login.microsoftonline.com/0/v2.0" "sub-9" (MkClaims "a@x" None "A")) "ms" (ex_draws 6 9) st in
  x.1.1 = RedirectHome /\ sess_user_id (fs_session x.1.2) = ex_unary 1.
Proof. vm_compute. split; reflexivity. Qed.

(** A SAML response needs no login started from here: whoever gets a browser to
    post one signs it in. *)
Definition ex_saml_up : upstream := {|
  up_NewProvider := fun _ _ => None; up_Exchange := fun _ _ _ _ _ => None; up_Verify := fun _ _ _ _ => None;
  up_gh_Exchange := fun _ _ _ => None; up_gh_user := fun _ => None; up_gh_emails := fun _ => None; up_BuildAuthURL := fun _ => None;
  up_RetrieveAssertionInfo := fun _ encoded => if bool_decide (encoded = "signed") then Some (MkAssertion "B@x" (fun _ => "") None) else None
|}.
Example saml_unsolicited :
  let st := ex_step 5 (PCreate 3 None ex_saml_body) ex_start in
  let x := ex_dispatch ex_saml_up (ex_draws 6 9) "/auth/okta/acs" (RAcs (Some "signed")) ex_no_session st in
  x.1.1 = RedirectHome /\ sess_user_id (fs_session x.1.2) = ex_unary 2.
Proof. vm_compute. split; reflexivity. Qed.
