(* ===== verification/Telemetry.v ===== *)
(** Stored telemetry and how it is read: the region registry
    (internal/regionstore), the tables of deploy/clickhouse/schema, the queries
    of internal/query and their handlers (internal/api/handlers_explore.go).

    A query is its meaning on the tables.  Whether a region's server fails is an
    input; so is [bind_time], what the driver makes of a time argument. *)
From S2P Require Import Prelude GoStrings Json GoFloat GoFormat GoParse StoreTypes Authz PgCore PgUsers ApiCore ApiAdmin.
From Corelib Require Import SpecFloat.
From Stdlib Require Import Ascii.

Open Scope string_scope.
Open Scope go_scope.

(** ** Regions *)

Record Registry (C : Type) : Type := MkRegistry {
  reg_ch : gmap string C;
  reg_vm : gmap string string;
  reg_deflt : string
}.
Arguments MkRegistry {C} reg_ch reg_vm reg_deflt.
Arguments reg_ch {C} r.
Arguments reg_vm {C} r.
Arguments reg_deflt {C} r.

Section regions.
Context {C : Type} (r : Registry C).

(** [None]: the nil connection. *)
Definition ClickHouse (region : string) : option C :=
  match reg_ch r !! region with Some c => Some c | None => reg_ch r !! reg_deflt r end.

Definition VM (region : string) : string :=
  match reg_vm r !! region with
  | Some u => if bool_decide (u = "") then default "" (reg_vm r !! reg_deflt r) else u
  | None => default "" (reg_vm r !! reg_deflt r)
  end.

Definition Names : list string := sort_by str_lt (map_to_list (reg_ch r)).*1.
Definition Multi : bool := (1 <? Z.of_nat (size (reg_ch r)))%Z.
End regions.

(** ** Tables *)

Record otel_log : Type := MkOtelLog {
  ol_Timestamp : Z;
  ol_TraceId : string;
  ol_SpanId : string;
  ol_SeverityText : string;
  ol_SeverityNumber : Z;
  ol_ServiceName : string;
  ol_Body : string;
  ol_ResourceAttributes : gmap string string;
  ol_LogAttributes : gmap string string
}.

Record otel_span : Type := MkOtelSpan {
  os_Timestamp : Z;
  os_TraceId : string;
  os_SpanId : string;
  os_ParentSpanId : string;
  os_SpanName : string;
  os_SpanKind : string;
  os_ServiceName : string;
  os_Duration : Z;
  os_StatusCode : string;
  os_StatusMessage : string;
  os_ResourceAttributes : gmap string string;
  os_SpanAttributes : gmap string string
}.

(** A row of one of the five metric tables, of which only the table, the time
    and the resource matter here. *)
Record otel_metric : Type := MkOtelMetric { om_table : string; om_TimeUnix : Z; om_ResourceAttributes : gmap string string }.

(** ingest_counts_1m *)
Record count_row : Type := MkCountRow { ic_TenantId : string; ic_Signal : string; ic_Minute : Z; ic_Items : Z; ic_Bytes : Z }.

Record clickhouse : Type := MkClickHouse {
  otel_logs : list otel_log;
  otel_traces : list otel_span;
  otel_metrics : list otel_metric;
  ingest_counts_1m : list count_row
}.

(** [TenantId MATERIALIZED ResourceAttributes['tenant.id']] *)
Definition tenant_of (attrs : gmap string string) : string := default "" (attrs !! "tenant.id").
Definition ol_TenantId (l : otel_log) : string := tenant_of (ol_ResourceAttributes l).
Definition os_TenantId (s : otel_span) : string := tenant_of (os_ResourceAttributes s).
Definition om_TenantId (m : otel_metric) : string := tenant_of (om_ResourceAttributes m).

(** [positionCaseInsensitive(haystack, needle) > 0] of a needle that is not
    empty. *)
Definition contains_ci (needle haystack : string) : bool := str_contains (to_lower needle) (to_lower haystack).

(** ** Queries *)

Inductive query_err : Type :=
| QNotFound
| ErrUpstreamUnavailable
| QOther
| QPanic.

(** A server that fails does so before the first row or while the rows are
    read. *)
Inductive ch_fault : Type := FQuery | FRows.

(** [on_rows]: the error the caller makes of a failure between rows. *)
Definition ch_query {A} (fault : option ch_fault) (on_rows : query_err) (conn : option clickhouse) (rows : clickhouse -> list A)
  : result (list A) query_err :=
  match conn with
  | None => Err QPanic
  | Some ch =>
      match fault with
      | Some FQuery => Err ErrUpstreamUnavailable
      | Some FRows => Err on_rows
      | None => Ok (rows ch)
      end
  end.

Record LogRecord : Type := MkLogRecord {
  LogRecord_Timestamp : Z;
  LogRecord_SeverityText : string;
  LogRecord_SeverityNumber : Z;
  LogRecord_ServiceName : string;
  LogRecord_Body : string;
  LogRecord_TraceID : string;
  LogRecord_SpanID : string;
  LogRecord_Attributes : gmap string string
}.

Record LogQuery : Type := MkLogQuery {
  lq_From : Z;
  lq_To : Z;
  lq_Text : string;
  lq_Service : string;
  lq_MinSeverity : Z;
  lq_Limit : Z;
  lq_Before : option Z
}.

Record TraceSummary : Type := MkTraceSummary {
  ts_TraceID : string;
  ts_RootName : string;
  ts_RootService : string;
  ts_StartTime : Z;
  ts_DurationMs : spec_float;
  ts_SpanCount : Z;
  ts_ErrorCount : Z
}.

Record TraceQuery : Type := MkTraceQuery {
  tq_From : Z;
  tq_To : Z;
  tq_Service : string;
  tq_Name : string;
  tq_MinDurationMs : spec_float;
  tq_ErrorsOnly : bool;
  tq_Limit : Z;
  tq_Before : option Z
}.

Record Span : Type := MkSpan {
  sp_SpanID : string;
  sp_ParentSpanID : string;
  sp_Name : string;
  sp_Service : string;
  sp_Kind : string;
  sp_StartTime : Z;
  sp_DurationMs : spec_float;
  sp_StatusCode : string;
  sp_StatusMessage : string;
  sp_Attributes : gmap string string
}.

Definition clampLimit (n : Z) : Z := if (n <=? 0)%Z then 100%Z else if (1000 <? n)%Z then 1000%Z else n.

(** The time of the last row of a full page. *)
Definition nextCursor {T} (rows : list T) (limit : Z) (ts : T -> Z) : option Z :=
  if (Z.of_nat (length rows) <? limit)%Z || bool_decide (rows = []) then None else ts <$> last rows.

Section service.
Context (bind_time : Z -> Z) (overflow : spec_float -> Z) (stores : Registry clickhouse) (d : DB).

(** [int64(f)]; what Go leaves to the implementation is [overflow]. *)
Definition int64_of_float (f : spec_float) : Z :=
  match trunc_to_Z f with
  | Some z => if (int64_min <=? z)%Z && (z <=? int64_max)%Z then z else overflow f
  | None => overflow f
  end.

(** [tenant]: the client id and the connection of the customer's region. *)
Definition tenant (customerID : N) : result (string * option clickhouse) query_err :=
  match pg_GetCustomer customerID d with
  | Err _ => Err QNotFound
  | Ok c => Ok (Customer_ClientID c, ClickHouse stores (Customer_Region c))
  end.

Definition in_range (from to t : Z) : bool := (bind_time from <=? t)%Z && (t <? bind_time to)%Z.
Definition older (cursor : option Z) (t : Z) : bool := match cursor with Some b => (t <? bind_time b)%Z | None => true end.
Definition opt_eq (want have : string) : bool := bool_decide (want = "") || bool_decide (have = want).
Definition opt_contains (want have : string) : bool := bool_decide (want = "") || contains_ci want have.

Definition log_where (t : string) (q : LogQuery) (l : otel_log) : bool :=
  bool_decide (ol_TenantId l = t) && in_range (lq_From q) (lq_To q) (ol_Timestamp l)
  && opt_contains (lq_Text q) (ol_Body l) && opt_eq (lq_Service q) (ol_ServiceName l)
  && ((lq_MinSeverity q <=? 0)%Z || (lq_MinSeverity q <=? ol_SeverityNumber l)%Z)
  && older (lq_Before q) (ol_Timestamp l).

(** [mapUpdate(ResourceAttributes, LogAttributes)]: the latter win. *)
Definition log_record (l : otel_log) : LogRecord :=
  MkLogRecord (ol_Timestamp l) (ol_SeverityText l) (ol_SeverityNumber l) (ol_ServiceName l) (ol_Body l) (ol_TraceId l) (ol_SpanId l)
    (ol_LogAttributes l ∪ ol_ResourceAttributes l).

Definition log_newer : otel_log -> otel_log -> bool := descending ol_Timestamp.

(** The rows of the query for a tenant. *)
Definition log_page (t : string) (q : LogQuery) (limit : Z) (ch : clickhouse) : list otel_log :=
  take (Z.to_nat limit) (sort_by log_newer (filter (fun l => log_where t q l = true) (otel_logs ch))).

Definition QueryLogs (fault : option ch_fault) (customerID : N) (q : LogQuery) : result (list LogRecord * option Z) query_err :=
  let* t := tenant customerID in
  let limit := clampLimit (lq_Limit q) in
  let* rows := ch_query fault ErrUpstreamUnavailable t.2 (log_page t.1 q limit) in
  let out := log_record <$> rows in
  Ok (out, nextCursor out limit LogRecord_Timestamp).

(** [MinDurationMs] in nanoseconds. *)
Definition min_duration (q : TraceQuery) : Z := int64_of_float (fmul (tq_MinDurationMs q) (float_of_Z 1000000)).

Definition trace_where (t : string) (q : TraceQuery) (s : otel_span) : bool :=
  bool_decide (os_TenantId s = t) && bool_decide (os_ParentSpanId s = "") && in_range (tq_From q) (tq_To q) (os_Timestamp s)
  && opt_eq (tq_Service q) (os_ServiceName s) && opt_contains (tq_Name q) (os_SpanName s)
  && (negb (fgt (tq_MinDurationMs q) (float_of_Z 0)) || (min_duration q <=? os_Duration s)%Z)
  && older (tq_Before q) (os_Timestamp s).

Definition millis (durNs : Z) : spec_float := fdiv (float_of_Z durNs) (float_of_Z 1000000).

Definition span_newer (a b : otel_span) : bool := (os_Timestamp b <? os_Timestamp a)%Z.

Definition trace_page (t : string) (q : TraceQuery) (limit : Z) (ch : clickhouse) : list otel_span :=
  take (Z.to_nat limit) (sort_by span_newer (filter (fun s => trace_where t q s = true) (otel_traces ch))).

Definition is_error (s : otel_span) : bool := bool_decide (os_StatusCode s ∈ ["STATUS_CODE_ERROR"; "Error"]).

(** [toInt32] of a count. *)
Definition wrap32 (z : Z) : Z := ((z + 2147483648) `mod` 4294967296 - 2147483648)%Z.

(** [traceCounts]: span and error counts per trace id, one row per group. *)
Definition count_rows (t : string) (ids : list string) (ch : clickhouse) : list (string * (Z * Z)) :=
  let spans := filter (fun s => os_TenantId s = t /\ os_TraceId s ∈ ids) (otel_traces ch) in
  (fun id =>
     let group := filter (fun s => os_TraceId s = id) spans in
     (id, (wrap32 (Z.of_nat (length group)), wrap32 (Z.of_nat (length (filter (fun s => is_error s = true) group))))))
  <$> remove_dups (os_TraceId <$> spans).

Definition traceCounts (fault : option ch_fault) (conn : option clickhouse) (t : string) (ids : list string)
  : result (gmap string (Z * Z)) query_err :=
  let* rows := ch_query fault QOther conn (count_rows t ids) in
  Ok (foldl (fun m r => <[r.1 := r.2]> m) ∅ rows).

Definition trace_summary (s : otel_span) : TraceSummary :=
  MkTraceSummary (os_TraceId s) (os_SpanName s) (os_ServiceName s) (os_Timestamp s) (millis (os_Duration s)) 0 0.

Definition with_counts (counts : gmap string (Z * Z)) (t : TraceSummary) : TraceSummary :=
  match counts !! ts_TraceID t with
  | Some (spans, errors) =>
      MkTraceSummary (ts_TraceID t) (ts_RootName t) (ts_RootService t) (ts_StartTime t) (ts_DurationMs t) spans errors
  | None => t
  end.

(** [fault2]: of the second query. *)
Definition QueryTraces (fault fault2 : option ch_fault) (customerID : N) (q : TraceQuery)
  : result (list TraceSummary * option Z) query_err :=
  let* t := tenant customerID in
  let limit := clampLimit (tq_Limit q) in
  let* rows := ch_query fault ErrUpstreamUnavailable t.2 (trace_page t.1 q limit) in
  let summaries := trace_summary <$> rows in
  if bool_decide (summaries = []) then Ok (summaries, nextCursor summaries limit ts_StartTime)
  else
    let* counts := traceCounts fault2 t.2 t.1 (ts_TraceID <$> summaries) in
    let summaries := filter (fun s => negb (tq_ErrorsOnly q && (ts_ErrorCount s =? 0)%Z) = true) (with_counts counts <$> summaries) in
    Ok (summaries, nextCursor summaries limit ts_StartTime).

Definition span_of (s : otel_span) : Span :=
  MkSpan (os_SpanId s) (os_ParentSpanId s) (os_SpanName s) (os_ServiceName s) (os_SpanKind s) (os_Timestamp s) (millis (os_Duration s))
    (os_StatusCode s) (os_StatusMessage s) (os_SpanAttributes s).

Definition trace_spans (t traceID : string) (ch : clickhouse) : list otel_span :=
  sort_by (fun a b => (os_Timestamp a <? os_Timestamp b)%Z)
    (filter (fun s => os_TenantId s = t /\ os_TraceId s = traceID) (otel_traces ch)).

Definition svc_GetTrace (fault : option ch_fault) (customerID : N) (traceID : string) : result (list Span) query_err :=
  let* t := tenant customerID in
  let* rows := ch_query fault QOther t.2 (trace_spans t.1 traceID) in
  Ok (span_of <$> rows).

(** ** Handlers *)

Record api_LogRecord : Type := MkApiLogRecord {
  alr_Timestamp : Z;
  alr_SeverityText : string;
  alr_SeverityNumber : Z;
  alr_ServiceName : string;
  alr_Body : string;
  alr_Attributes : option (gmap string string);
  alr_TraceId : option string;
  alr_SpanId : option string
}.

Definition non_empty (s : string) : option string := if bool_decide (s = "") then None else Some s.
Definition ptrMap (m : gmap string string) : option (gmap string string) := if bool_decide (m = ∅) then None else Some m.

Record QueryLogsParams : Type := MkQueryLogsParams {
  lp_From : Z; lp_To : Z; lp_Q : option string; lp_Service : option string; lp_MinSeverity : option Z; lp_Limit : option Z;
  lp_Before : option Z
}.

Record QueryTracesParams : Type := MkQueryTracesParams {
  tp_From : Z; tp_To : Z; tp_Service : option string; tp_Name : option string; tp_MinDurationMs : option spec_float;
  tp_ErrorsOnly : option bool; tp_Limit : option Z; tp_Before : option Z
}.

(** The panic on a nil connection is answered like an error. *)
Definition explored {A B} (r : result A query_err) (k : A -> outcome B) : outcome B :=
  match r with
  | Ok a => k a
  | Err QNotFound => not_found "customer not found"
  | Err ErrUpstreamUnavailable => Failure 503 codeUpstream "telemetry store unavailable"
  | Err _ => Raised otherError
  end.

Definition to_api_log (l : LogRecord) : api_LogRecord :=
  MkApiLogRecord (LogRecord_Timestamp l) (LogRecord_SeverityText l) (LogRecord_SeverityNumber l) (LogRecord_ServiceName l) (LogRecord_Body l)
    (ptrMap (LogRecord_Attributes l)) (non_empty (LogRecord_TraceID l)) (non_empty (LogRecord_SpanID l)).

Context (p : option Principal).

Definition api_QueryLogs (fault : option ch_fault) (id : N) (prm : QueryLogsParams) : outcome (list api_LogRecord * option Z) :=
  match requireCustomerAccess p (Some id) with
  | Some f => Raised (forbiddenError f)
  | None =>
      if negb (after (lp_To prm) (lp_From prm)) then bad_request "'to' must be after 'from'"
      else
        explored (QueryLogs fault id (MkLogQuery (lp_From prm) (lp_To prm) (default "" (lp_Q prm)) (default "" (lp_Service prm))
                    (default 0%Z (wrap32 <$> lp_MinSeverity prm)) (default 0%Z (lp_Limit prm)) (lp_Before prm)))
          (fun r => Success 200 (to_api_log <$> r.1, r.2))
  end.

Definition to_api_trace (t : TraceSummary) : TraceSummary :=
  MkTraceSummary (ts_TraceID t) (ts_RootName t) (ts_RootService t) (ts_StartTime t) (float32_of (ts_DurationMs t)) (ts_SpanCount t) (ts_ErrorCount t).

Definition api_QueryTraces (fault fault2 : option ch_fault) (id : N) (prm : QueryTracesParams) : outcome (list TraceSummary * option Z) :=
  match requireCustomerAccess p (Some id) with
  | Some f => Raised (forbiddenError f)
  | None =>
      if negb (after (tp_To prm) (tp_From prm)) then bad_request "'to' must be after 'from'"
      else
        explored (QueryTraces fault fault2 id (MkTraceQuery (tp_From prm) (tp_To prm) (default "" (tp_Service prm)) (default "" (tp_Name prm))
                    (default (float_of_Z 0) (float64_of <$> tp_MinDurationMs prm)) (default false (tp_ErrorsOnly prm))
                    (default 0%Z (tp_Limit prm)) (tp_Before prm)))
          (fun r => Success 200 (to_api_trace <$> r.1, r.2))
  end.

Record api_Span : Type := MkApiSpan {
  asp_SpanId : string;
  asp_ParentSpanId : option string;
  asp_Name : string;
  asp_Service : string;
  asp_Kind : string;
  asp_StartTime : Z;
  asp_DurationMs : spec_float;
  asp_StatusCode : string;
  asp_StatusMessage : option string;
  asp_Attributes : option (gmap string string)
}.

Definition to_api_span (s : Span) : api_Span :=
  MkApiSpan (sp_SpanID s) (non_empty (sp_ParentSpanID s)) (sp_Name s) (sp_Service s) (sp_Kind s) (sp_StartTime s) (float32_of (sp_DurationMs s))
    (sp_StatusCode s) (non_empty (sp_StatusMessage s)) (ptrMap (sp_Attributes s)).

Definition api_GetTrace (fault : option ch_fault) (id : N) (traceID : string) : outcome (list api_Span) :=
  match requireCustomerAccess p (Some id) with
  | Some f => Raised (forbiddenError f)
  | None => explored (svc_GetTrace fault id traceID) (fun spans => Success 200 (to_api_span <$> spans))
  end.
End service.

(** ** Paging through logs *)

Lemma clampLimit_range n : (1 <= clampLimit n <= 1000)%Z.
Proof. unfold clampLimit. destruct (Z.leb_spec n 0), (Z.ltb_spec 1000 n); lia. Qed.

(** The loop of a client that follows the cursor: the records in the order
    received, or [None] when [fuel] pages were not enough. *)
Section paging.
Context (bind_time : Z -> Z) (stores : Registry clickhouse) (d : DB) (id : N).

Definition with_before (q : LogQuery) (b : option Z) : LogQuery :=
  MkLogQuery (lq_From q) (lq_To q) (lq_Text q) (lq_Service q) (lq_MinSeverity q) (lq_Limit q) b.

Fixpoint follow_logs (fuel : nat) (q : LogQuery) : result (option (list LogRecord)) query_err :=
  match fuel with
  | O => Ok None
  | S fuel =>
      let* r := QueryLogs bind_time stores d None id q in
      match r.2 with
      | None => Ok (Some r.1)
      | Some c =>
          let* rest := follow_logs fuel (with_before q (Some c)) in
          Ok ((fun l => r.1 ++ l)%list <$> rest)
      end
  end.

Context (c : Customer) (ch : clickhouse).
Hypotheses (Hcust : pg_GetCustomer id d = Ok c) (Hch : ClickHouse stores (Customer_Region c) = Some ch).

Definition matching (q : LogQuery) : list otel_log := filter (fun l => log_where bind_time (Customer_ClientID c) q l = true) (otel_logs ch).

Lemma QueryLogs_page q : QueryLogs bind_time stores d None id q =
  let page := log_record <$> take (Z.to_nat (clampLimit (lq_Limit q))) (sort_by log_newer (matching q)) in
  Ok (page, nextCursor page (clampLimit (lq_Limit q)) LogRecord_Timestamp).
Proof using Hcust Hch. unfold QueryLogs, tenant. rewrite Hcust. simpl. rewrite Hch. done. Qed.

(** The rows that match are apart in time, and the driver keeps their times. *)
Definition separated (q : LogQuery) : Prop :=
  NoDup (ol_Timestamp <$> matching q) /\ forall l, l ∈ matching q -> bind_time (ol_Timestamp l) = ol_Timestamp l.

Lemma matching_before q x : x ∈ matching q -> bind_time (ol_Timestamp x) = ol_Timestamp x ->
  matching (with_before q (Some (ol_Timestamp x))) = filter (fun y => (ol_Timestamp y < ol_Timestamp x)%Z) (matching q).
Proof using Type.
  intros [Hx _]%list_elem_of_filter Hb. unfold matching. rewrite list_filter_filter. apply list_filter_iff. intros l.
  unfold log_where in *. simpl. rewrite Hb. rewrite !andb_true_iff in *. destruct Hx as [_ Hx]. rewrite Z.ltb_lt.
  enough ((ol_Timestamp l < ol_Timestamp x)%Z -> older bind_time (lq_Before q) (ol_Timestamp l) = true) by tauto.
  unfold older in *. destruct (lq_Before q); [|done]. rewrite !Z.ltb_lt in *. lia.
Qed.

Lemma follow_complete fuel q : separated q -> (length (matching q) < fuel)%nat ->
  follow_logs fuel q = Ok (Some (log_record <$> sort_by log_newer (matching q))).
Proof using Hcust Hch.
  revert q. induction fuel as [|fuel IH]; intros q [Hnd Hb] Hlen; [lia|]. cbn [follow_logs]. rewrite QueryLogs_page. simpl.
  set (n := Z.to_nat (clampLimit (lq_Limit q))). pose proof (clampLimit_range (lq_Limit q)) as Hlim.
  unfold nextCursor. rewrite length_fmap, length_take, length_sort_by.
  destruct (Z.ltb_spec (Z.of_nat (n `min` length (matching q))) (clampLimit (lq_Limit q))) as [Hshort|Hfull].
  { simpl. rewrite take_ge; [done|]. rewrite length_sort_by. lia. }
  assert (n <= length (matching q))%nat as Hn by lia.
  destruct (page_last n (sort_by log_newer (matching q))) as (x & Hlast & Hx); [rewrite length_sort_by; lia|]. rewrite sort_by_perm in Hx.
  rewrite bool_decide_false. 2: { intros E%fmap_nil_inv. by rewrite E in Hlast. }
  simpl. rewrite fmap_last, Hlast. simpl. pose proof (Hb _ Hx) as Hbx.
  assert (NoDup (ol_Timestamp <$> sort_by log_newer (matching q))) as Hnd' by (by rewrite sort_by_perm).
  assert (sort_by log_newer (matching (with_before q (Some (ol_Timestamp x)))) = drop n (sort_by log_newer (matching q))) as Hrest.
  { rewrite matching_before by done. unfold log_newer. rewrite sort_descending_filter by done. apply drop_below; [done| |done]. apply sort_by_strict_sorted, _. }
  rewrite IH.
  - simpl. rewrite Hrest, <- fmap_app. by rewrite take_drop.
  - split.
    + rewrite <- (sort_by_perm log_newer (matching (with_before _ _))), Hrest.
      rewrite <- (take_drop n (sort_by log_newer (matching q))), fmap_app in Hnd'. by apply NoDup_app in Hnd' as (_ & _ & ?).
    + intros l Hl. apply Hb. rewrite matching_before in Hl by done. by apply list_elem_of_filter in Hl as [_ ?].
  - rewrite <- (length_sort_by log_newer (matching (with_before _ _))), Hrest, length_drop, length_sort_by. lia.
Qed.
End paging.

(** Following the cursor of the log search ends within one page more than
    there are matching rows, and gives every matching row of the customer
    exactly once, newest first, whatever the page size, provided that the
    rows differ in time and the driver passes their times on unchanged. *)
Theorem log_pages_cover bind_time stores d id c ch q :
  pg_GetCustomer id d = Ok c -> ClickHouse stores (Customer_Region c) = Some ch ->
  separated bind_time c ch q ->
  follow_logs bind_time stores d id (S (length (matching bind_time c ch q))) q
  = Ok (Some (log_record <$> sort_by log_newer (matching bind_time c ch q))).
Proof. intros Hc Hch Hs. apply (follow_complete bind_time stores d id c ch Hc Hch); [done|lia]. Qed.

(** ** Examples *)

Definition ex_customer (id : N) (clientID region : string) (days : option Z) : Customer :=
  MkCustomer id ("acme-" ++ region) clientID clientID CustomerActive region None days 0 0.
Definition ex_tenants_db : DB :=
  set_customers (fun _ => {[ 1%N := ex_customer 1 "cust_1" "eu" (Some 7%Z); 2%N := ex_customer 2 "cust_2" "us" None ]}) empty_db.

Definition ex_resource (t : string) : gmap string string := {[ "tenant.id" := t ]}.
Definition ex_log (t : string) (ts : Z) (body : string) : otel_log := MkOtelLog ts "" "" "INFO" 9 "svc" body (ex_resource t) ∅.
Definition ex_root_span (t traceID : string) (ts : Z) (status : string) : otel_span :=
  MkOtelSpan ts traceID traceID "" "root" "Server" "svc" 2000000 status "" (ex_resource t) ∅.
Definition ex_stores (logs : list otel_log) (spans : list otel_span) : Registry clickhouse :=
  MkRegistry {[ "eu" := MkClickHouse logs spans [] [] ]} ∅ "eu".

Definition ex_log_query : LogQuery := MkLogQuery 0 (10 * second) "" "" 0 1 None.
Definition ex_bodies (r : result (option (list LogRecord)) query_err) : result (option (list string)) query_err :=
  match r with Ok o => Ok (option_map (map LogRecord_Body) o) | Err e => Err e end.

Definition ex_apart : list otel_log := [ex_log "cust_1" 1200000000 "a"; ex_log "cust_2" 1300000000 "x"; ex_log "cust_1" 1500000000 "b"].

Lemma log_pages_cover_witness :
  ex_bodies (follow_logs (fun t => t) (ex_stores ex_apart []) ex_tenants_db 1 3 ex_log_query) = Ok (Some ["b"; "a"]).
Proof.
  pose proof (log_pages_cover (fun t => t) (ex_stores ex_apart []) ex_tenants_db 1 (ex_customer 1 "cust_1" "eu" (Some 7%Z))
    (MkClickHouse ex_apart [] [] []) ex_log_query eq_refl eq_refl) as H.
  change (length (matching _ _ _ _)) with 2%nat in H. rewrite H.
  - vm_compute. reflexivity.
  - split; [|done]. vm_compute. repeat constructor; set_solver.
Defined.

(** Rows of the same time do not survive the end of a page. *)
Example same_time_lost :
  ex_bodies (follow_logs (fun t => t) (ex_stores [ex_log "cust_1" second "a"; ex_log "cust_1" second "b"] []) ex_tenants_db 1 3 ex_log_query)
  = Ok (Some ["a"]).
Proof. vm_compute. reflexivity. Qed.

(** Nor do rows of the same second, if the driver writes times in seconds. *)
Example same_second_lost :
  ex_bodies (follow_logs (fun t => t / second * second)%Z (ex_stores ex_apart []) ex_tenants_db 1 3 ex_log_query) = Ok (Some ["b"]).
Proof. vm_compute. reflexivity. Qed.

(** A page of root spans without errors ends a listing of the traces with
    errors, although there are older ones. *)
Example errors_only_ends_early :
  let spans := [ex_root_span "cust_1" "t1" second "Error"; ex_root_span "cust_1" "t2" (2 * second) "Ok"] in
  QueryTraces (fun t => t) (fun _ => 0%Z) (ex_stores [] spans) ex_tenants_db None None 1
    (MkTraceQuery 0 (10 * second) "" "" (float_of_Z 0) true 1 None) = Ok ([], None).
Proof. vm_compute. reflexivity. Qed.

(** A failure between the rows of a trace is an internal error, one before the
    first row an unavailable store. *)
Example trace_failures :
  let get f := status_of (api_GetTrace (ex_stores [] []) ex_tenants_db None f 1 "t") in
  (get (Some FQuery), get (Some FRows), get None) = (503, 500, 200)%Z.
Proof. vm_compute. reflexivity. Qed.
