(* ===== verification/Stats.v ===== *)
(** The dashboard's numbers: internal/stats (stats.go, query.go, stages.go) and
    their handlers in internal/api (handlers.go, handlers_metrics.go,
    handlers_pipelines.go), over the tables of [Telemetry].

    VictoriaMetrics is a function of a request's base URL, path and parameters
    to its decoded answer. *)
From S2P Require Import Prelude GoStrings Json GoFloat GoFormat GoParse StoreTypes Slug Authz PgCore PgUsers PgScim PipelineGraph Render PgPipelines Billing ApiCore ApiIsolation ApiAdmin Telemetry.
From Corelib Require Import SpecFloat.
From Stdlib Require Import Ascii.

Open Scope string_scope.
Open Scope go_scope.

(** ** VictoriaMetrics *)

(** A sample of an instant query and a series of a range query. *)
Record vm_sample : Type := MkVMSample { vs_metric : gmap string string; vs_value : jval * jval }.
Record vm_series : Type := MkVMSeries { vr_metric : gmap string string; vr_values : list (jval * jval) }.

Record vm_body (R : Type) : Type := MkVMBody { vb_status : string; vb_error : string; vb_result : list R }.
Arguments MkVMBody {R} vb_status vb_error vb_result.
Arguments vb_status {R} v.
Arguments vb_error {R} v.
Arguments vb_result {R} v.

(** Status code and decoded body; [None] when the server cannot be reached. *)
Definition vm_reply (R : Type) : Type := option (Z * option (vm_body R)).

Record vm_request : Type := MkVMRequest { vq_base : string; vq_path : string; vq_params : list (string * string) }.

Record vm_server : Type := MkVM {
  vm_instant : vm_request -> vm_reply vm_sample;
  vm_range : vm_request -> vm_reply vm_series
}.

(** [d.Seconds()] *)
Definition seconds (d : Z) : spec_float :=
  fadd (float_of_Z (Z.quot d second)) (fdiv (float_of_Z (Z.rem d second)) (float_of_Z 1000000000)).

(** [t.Unix()] *)
Definition unix (t : Z) : Z := (t / second)%Z.

(** [math.Round] to an integer: half away from zero. *)
Definition round_to_Z (x : spec_float) : option Z :=
  match x with
  | S754_zero _ => Some 0%Z
  | S754_finite s m e =>
      let a := if (0 <=? e)%Z then (Z.pos m * 2 ^ e)%Z else ((2 * Z.pos m + 2 ^ (- e)) / 2 ^ (1 - e))%Z in
      Some (if s then - a else a)%Z
  | _ => None
  end.

Definition Signals : list string := ["logs"; "traces"; "metrics"].

Record TopCustomer : Type := MkTopCustomer { tc_CustomerID : N; tc_Name : string; tc_Items : Z }.

Record Overview : Type := MkOverview {
  ov_ActiveCustomers : Z;
  ov_Totals : gmap string Z;
  ov_RefusedRequests : Z;
  ov_TopCustomers : list TopCustomer
}.

Definition topCustomersLimit : nat := 5.

Record Point : Type := MkPoint { pt_Ts : Z; pt_Value : spec_float }.
Record Series : Type := MkSeries { sr_Signal : string; sr_Points : list Point }.

Inductive stats_err : Type :=
| StatsNotFound
| StatsUnavailable
| ErrBadQuery (msg : string)
| StatsOther.

(** [GROUP BY] with the sum of a UInt64 column: one row per key. *)
Definition group_sum {K} `{EqDecision K} (key : count_row -> K) (rs : list count_row) : list (K * Z) :=
  (fun k => (k, to_uint64 (foldr (fun r acc => ic_Items r + acc)%Z 0%Z (filter (fun r => key r = k) rs)))) <$> remove_dups (key <$> rs).

Section service.
Context (bind_time : Z -> Z) (overflow : spec_float -> Z) (ParseFloat : string -> option spec_float) (format_float : spec_float -> string).
Context (stores : Registry clickhouse) (faults : string -> option ch_fault) (vm : vm_server) (d : DB).

Definition int64_of (o : option Z) (f : spec_float) : Z :=
  match o with
  | Some z => if (int64_min <=? z)%Z && (z <=? int64_max)%Z then z else overflow f
  | None => overflow f
  end.
Definition int64_trunc (f : spec_float) : Z := int64_of (trunc_to_Z f) f.
Definition int64_round (f : spec_float) : Z := int64_of (round_to_Z f) f.

(** ** Overview *)

Definition counted (from to : Z) (r : count_row) : bool := in_range bind_time from to (ic_Minute r).

Definition overview_rows (from to : Z) (ch : clickhouse) : list ((string * string) * Z) :=
  group_sum (fun r => (ic_TenantId r, ic_Signal r)) (filter (fun r => counted from to r = true) (ingest_counts_1m ch)).

(** [perTenantSignal[tenantID][signal] += int64(items)] *)
Definition add_count (m : gmap string (gmap string Z)) (r : (string * string) * Z) : gmap string (gmap string Z) :=
  let bySignal := default ∅ (m !! r.1.1) in
  <[r.1.1 := <[r.1.2 := wrap64 (default 0%Z (bySignal !! r.1.2) + wrap64 r.2)]> bySignal]> m.

Fixpoint per_tenant (m : gmap string (gmap string Z)) (from to : Z) (regions : list string) : result (gmap string (gmap string Z)) query_err :=
  match regions with
  | [] => Ok m
  | r :: regions =>
      let* rows := ch_query (faults r) ErrUpstreamUnavailable (ClickHouse stores r) (overview_rows from to) in
      per_tenant (foldl add_count m rows) from to regions
  end.

(** [allowed]: [None] for an unscoped caller. *)
Definition in_allowed (allowed : option (gset N)) (id : N) : bool :=
  match allowed with None => true | Some s => bool_decide (id ∈ s) end.

(** The tenants shown, with their counts; a range over a map is in the order of
    its keys. *)
Definition shown (allowed : option (gset N)) (m : gmap string (gmap string Z)) : list (CustomerRef * gmap string Z) :=
  omap (fun kv => ref ← ref_of (pg_ListCustomerRefs d) kv.1;
                  if in_allowed allowed (CustomerRef_ID ref) then Some (ref, kv.2) else None) (sorted_members m).

Definition sum_items (bySignal : gmap string Z) : Z := foldl (fun acc kv => wrap64 (acc + kv.2)) 0%Z (map_to_list bySignal).

Definition add_totals (totals : gmap string Z) (bySignal : gmap string Z) : gmap string Z :=
  foldl (fun totals kv => <[kv.1 := wrap64 (default 0%Z (totals !! kv.1) + kv.2)]> totals) totals (map_to_list bySignal).

Definition top_before (a b : TopCustomer) : bool :=
  if negb (tc_Items a =? tc_Items b)%Z then (tc_Items b <? tc_Items a)%Z else str_lt (tc_Name a) (tc_Name b).

Definition dq (s : string) : string := Render.dquote +:+ s +:+ Render.dquote.

Definition refusedRequestsFromVM (vmURL query : string) (at_ : Z) : Z :=
  match vm_instant vm (MkVMRequest vmURL "/api/v1/query" [("query", query); ("time", itoa (unix at_))]) with
  | Some (200%Z, Some body) =>
      if negb (bool_decide (vb_status body = "success")) then 0%Z
      else
        int64_round (foldl (fun total r => match (vs_value r).2 with
                                           | JStr s => match ParseFloat s with Some v => fadd total v | None => total end
                                           | _ => total
                                           end) (float_of_Z 0) (vb_result body))
  | _ => 0%Z
  end.

(** The distinct URLs of the regions, each asked once. *)
Fixpoint refused_sum (query : string) (at_ : Z) (seen : list string) (regions : list string) : Z :=
  match regions with
  | [] => 0%Z
  | r :: regions =>
      let u := VM stores r in
      if bool_decide (u = "") || bool_decide (u ∈ seen) then refused_sum query at_ seen regions
      else (refusedRequestsFromVM u query at_ + refused_sum query at_ (u :: seen) regions)%Z
  end.

Definition refusedRequests (from to : Z) : Z :=
  let rangeSecs := int64_trunc (seconds (time_sub to from)) in
  if (rangeSecs <=? 0)%Z then 0%Z
  else wrap64 (refused_sum ("sum(increase(otel_fleet_auth_requests_total{outcome!=" +:+ dq "ok" +:+ "}[" +:+ itoa rangeSecs +:+ "s]))") to [] (Names stores)).

Definition CountActiveCustomers : Z := Z.of_nat (length (rows (t_customers d) (fun c => bool_decide (Customer_Status c = CustomerActive)))).

Definition GetOverview (from to : Z) (allowed : option (gset N)) : result Overview query_err :=
  let* perTenantSignal := per_tenant ∅ from to (Names stores) in
  let l := shown allowed perTenantSignal in
  let totals := foldl add_totals {[ "logs" := 0%Z; "traces" := 0%Z; "metrics" := 0%Z ]} (snd <$> l) in
  let top := take topCustomersLimit (sort_by top_before ((fun x => MkTopCustomer (CustomerRef_ID x.1) (CustomerRef_Name x.1) (sum_items x.2)) <$> l)) in
  match allowed with
  | None => Ok (MkOverview CountActiveCustomers totals (refusedRequests from to) top)
  | Some s => Ok (MkOverview (Z.of_nat (size s)) totals 0 top)
  end.

(** ** Throughput *)

(** [toStartOfInterval(t, INTERVAL n SECOND)] *)
Definition toStartOfInterval (n t : Z) : Z := (t / (n * second) * (n * second))%Z.

Definition throughput_rows (t : string) (signal : option string) (from to stepSecs : Z) (ch : clickhouse) : list ((string * Z) * Z) :=
  sort_by (fun a b => if bool_decide (a.1.1 = b.1.1) then (a.1.2 <? b.1.2)%Z else str_lt a.1.1 b.1.1)
    (group_sum (fun r => (ic_Signal r, toStartOfInterval stepSecs (ic_Minute r)))
       (filter (fun r => ic_TenantId r = t /\ counted from to r = true /\ ic_Signal r = default (ic_Signal r) signal)
          (ingest_counts_1m ch))).

Definition GetThroughput (customerID : N) (signal : option string) (from to step : Z) : result (list Series) query_err :=
  match pg_GetCustomer customerID d with
  | Err _ => Err QNotFound
  | Ok cust =>
      let stepSecs := int64_trunc (seconds step) in
      let stepSecs := if (stepSecs <? 1)%Z then 60%Z else stepSecs in
      let signals := match signal with Some s => [s] | None => Signals end in
      let* rows := ch_query (faults (Customer_Region cust)) ErrUpstreamUnavailable (ClickHouse stores (Customer_Region cust))
                     (throughput_rows (Customer_ClientID cust) signal from to stepSecs) in
      let points sig := (fun r => MkPoint r.1.2 (fdiv (float_of_Z r.2) (float_of_Z stepSecs))) <$> filter (fun r => r.1.1 = sig) rows in
      Ok ((fun sig => MkSeries sig (points sig)) <$> signals)
  end.

Definition ParseStep (raw : option string) : result Z string :=
  match raw with
  | None | Some "" => Ok minute
  | Some raw =>
      match ParseDuration raw with
      | Some n => if (n <? second)%Z || (24 * hour <? n)%Z then Err ("invalid step " +:+ go_quote raw) else Ok n
      | None => Err ("invalid step " +:+ go_quote raw)
      end
  end.

(** ** PromQL *)

Record MetricSeries : Type := MkMetricSeries { ms_Labels : gmap string string; ms_Points : list Point }.

Definition metric_points (values : list (jval * jval)) : list Point :=
  omap (fun v => match v with
                 | (JNum ts, JStr s) =>
                     t ← ParseFloat ts; x ← ParseFloat s; Some (MkPoint (int64_trunc t * second)%Z x)
                 | _ => None
                 end) values.

Definition queryRange (vmURL query : string) (from to step : Z) (extraFilters : list string) : result (list MetricSeries) stats_err :=
  if bool_decide (vmURL = "") then Err StatsUnavailable
  else
    match vm_range vm (MkVMRequest vmURL "/api/v1/query_range"
            ([("query", query); ("start", itoa (unix from)); ("end", itoa (unix to)); ("step", format_float (seconds step))]
             ++ ((fun f => ("extra_filters[]", f)) <$> extraFilters))%list) with
    | None => Err StatsUnavailable
    | Some (status, None) => if (status =? 200)%Z then Err StatsOther else Err StatsUnavailable
    | Some (status, Some body) =>
        if (status =? 400)%Z || (status =? 422)%Z || bool_decide (vb_status body = "error") then Err (ErrBadQuery (vb_error body))
        else if negb (status =? 200)%Z then Err StatsUnavailable
        else Ok ((fun r => MkMetricSeries (vr_metric r) (metric_points (vr_values r))) <$> vb_result body)
    end.

Definition QueryRange (query : string) (from to step : Z) : result (list MetricSeries) stats_err :=
  queryRange (VM stores "") query from to step [].

Definition QueryRangeScoped (region query : string) (from to step : Z) (extraFilters : list string) : result (list MetricSeries) stats_err :=
  queryRange (VM stores region) query from to step extraFilters.

(** ** Stages of a pipeline *)

Record ExporterStage : Type := MkExporterStage {
  es_Sent : Z; es_SendFailed : Z; es_EnqueueFailed : Z; es_QueueSize : spec_float; es_QueueCapacity : spec_float
}.
Definition no_stage : ExporterStage := MkExporterStage 0 0 0 (float_of_Z 0) (float_of_Z 0).

Record PipelineFlow : Type := MkPipelineFlow { pf_Received : gmap string Z; pf_Exporters : gmap string ExporterStage; pf_ExporterNames : list string }.

(** The value per label; [None] on any failure. *)
Definition vmSumBy (query label : string) (at_ : Z) : option (gmap string spec_float) :=
  match vm_instant vm (MkVMRequest (VM stores "") "/api/v1/query" [("query", query); ("time", itoa (unix at_))]) with
  | Some (200%Z, Some body) =>
      if negb (bool_decide (vb_status body = "success")) then None
      else
        Some (foldl (fun out r =>
                       let name := default "" (vs_metric r !! label) in
                       if bool_decide (name = "") then out
                       else match (vs_value r).2 with
                            | JStr s => match ParseFloat s with Some v => <[name := v]> out | None => out end
                            | _ => out
                            end) ∅ (vb_result body))
  | _ => None
  end.

Definition set_sent (v : spec_float) (s : ExporterStage) : ExporterStage :=
  MkExporterStage (int64_round v) (es_SendFailed s) (es_EnqueueFailed s) (es_QueueSize s) (es_QueueCapacity s).
Definition set_send_failed (v : spec_float) (s : ExporterStage) : ExporterStage :=
  MkExporterStage (es_Sent s) (int64_round v) (es_EnqueueFailed s) (es_QueueSize s) (es_QueueCapacity s).
Definition set_enqueue_failed (v : spec_float) (s : ExporterStage) : ExporterStage :=
  MkExporterStage (es_Sent s) (es_SendFailed s) (int64_round v) (es_QueueSize s) (es_QueueCapacity s).
Definition set_queue_size (v : spec_float) (s : ExporterStage) : ExporterStage :=
  MkExporterStage (es_Sent s) (es_SendFailed s) (es_EnqueueFailed s) v (es_QueueCapacity s).
Definition set_queue_capacity (v : spec_float) (s : ExporterStage) : ExporterStage :=
  MkExporterStage (es_Sent s) (es_SendFailed s) (es_EnqueueFailed s) (es_QueueSize s) v.

(** The five queries with what they set. *)
Definition counters (regex : string) (rangeSecs : Z) : list (string * (spec_float -> ExporterStage -> ExporterStage)) :=
  let increase metric :=
    "sum by (exporter) (increase({__name__=~" +:+ dq ("otelcol_exporter_" +:+ metric +:+ "_(spans|metric_points|log_records)")
    +:+ ",exporter=~" +:+ go_quote regex +:+ "}[" +:+ itoa rangeSecs +:+ "s]))" in
  let gauge metric := "max by (exporter) (otelcol_exporter_queue_" +:+ metric +:+ "{exporter=~" +:+ go_quote regex +:+ "})" in
  [(increase "sent", set_sent); (increase "send_failed", set_send_failed); (increase "enqueue_failed", set_enqueue_failed);
   (gauge "size", set_queue_size); (gauge "capacity", set_queue_capacity)].

Definition apply_counter (at_ : Z) (m : gmap string ExporterStage) (c : string * (spec_float -> ExporterStage -> ExporterStage))
  : gmap string ExporterStage :=
  match vmSumBy c.1 "exporter" at_ with
  | None => m
  | Some values => foldl (fun m kv => <[kv.1 := c.2 kv.2 (default no_stage (m !! kv.1))]> m) m (sorted_members values)
  end.

Definition received_rows (clientID : string) (signals : list string) (from to : Z) (ch : clickhouse) : list (string * Z) :=
  group_sum ic_Signal (filter (fun r => ic_TenantId r = clientID /\ counted from to r = true /\ ic_Signal r ∈ signals) (ingest_counts_1m ch)).

(** The stores of the default region, whatever the customer's is. *)
Definition GetPipelineStages (clientID : string) (signals : list string) (regex : string) (from to : Z) : result PipelineFlow query_err :=
  let* rows := if bool_decide (signals = []) then Ok []
               else ch_query (faults "") ErrUpstreamUnavailable (ClickHouse stores "") (received_rows clientID signals from to) in
  let received := foldl (fun m r => <[r.1 := wrap64 r.2]> m) ∅ rows in
  let rangeSecs := int64_trunc (seconds (time_sub to from)) in
  if (rangeSecs <=? 0)%Z then Ok (MkPipelineFlow received ∅ [])
  else
    let exporters := foldl (apply_counter to) ∅ (counters regex rangeSecs) in
    Ok (MkPipelineFlow received exporters (sort_by str_lt (map_to_list exporters).*1)).

(** ** Handlers *)

Context (unicode_lower : Z -> Z) (p : option Principal).

Record api_Overview : Type := MkApiOverview {
  ao_ActiveCustomers : Z; ao_Logs : Z; ao_Traces : Z; ao_Metrics : Z; ao_RefusedRequests : Z; ao_TopCustomers : list TopCustomer
}.

Definition GetStatsOverview (from to : Z) : outcome api_Overview :=
  if negb (after to from) then bad_request "'to' must be after 'from'"
  else
    match GetOverview from to (customerScope p) with
    | Err ErrUpstreamUnavailable => Failure 503 codeUpstream "stats backend unavailable"
    | Err _ => Raised otherError
    | Ok ov =>
        let total s := default 0%Z (ov_Totals ov !! s) in
        Success 200 (MkApiOverview (ov_ActiveCustomers ov) (total "logs") (total "traces") (total "metrics") (ov_RefusedRequests ov) (ov_TopCustomers ov))
    end.

Definition to_api_point (pt : Point) : Point := MkPoint (pt_Ts pt) (float32_of (pt_Value pt)).

Definition GetCustomerThroughput (id : N) (signal : option string) (from to : Z) (step : option string) : outcome (list Series) :=
  match requireCustomerAccess p (Some id) with
  | Some f => Raised (forbiddenError f)
  | None =>
      if negb (after to from) then bad_request "'to' must be after 'from'"
      else
        match ParseStep step with
        | Err msg => bad_request msg
        | Ok step =>
            match GetThroughput id signal from to step with
            | Err QNotFound => not_found "customer not found"
            | Err ErrUpstreamUnavailable => Failure 503 codeUpstream "stats backend unavailable"
            | Err _ => Raised otherError
            | Ok series => Success 200 ((fun s => MkSeries (sr_Signal s) (to_api_point <$> sr_Points s)) <$> series)
            end
        end
  end.

Definition toMetricSeries (series : list MetricSeries) : list MetricSeries :=
  (fun s => MkMetricSeries (ms_Labels s) (to_api_point <$> ms_Points s)) <$> series.

Definition metrics_answer (r : result (list MetricSeries) stats_err) : outcome (list MetricSeries) :=
  match r with
  | Ok series => Success 200 (toMetricSeries series)
  | Err (ErrBadQuery msg) => bad_request ("invalid PromQL query: " +:+ msg)
  | Err StatsUnavailable => Failure 503 codeUpstream "metrics store unavailable"
  | Err _ => Raised otherError
  end.

Definition QueryMetricsRange (query : string) (from to : Z) (step : string) : outcome (list MetricSeries) :=
  if negb (after to from) then bad_request "'end' must be after 'start'"
  else
    match ParseStep (Some step) with
    | Err msg => bad_request msg
    | Ok step => metrics_answer (QueryRange query from to step)
    end.

Definition tenant_filter (clientID : string) : string := "{tenant_id=" +:+ go_quote clientID +:+ "}".

Definition QueryCustomerMetricsRange (id : N) (query : string) (from to : Z) (step : string) : outcome (list MetricSeries) :=
  match requireCustomerAccess p (Some id) with
  | Some f => Raised (forbiddenError f)
  | None =>
      match pg_GetCustomer id d with
      | Err _ => not_found "customer not found"
      | Ok cust =>
          if negb (after to from) then bad_request "'end' must be after 'start'"
          else
            match ParseStep (Some step) with
            | Err msg => bad_request msg
            | Ok step => metrics_answer (QueryRangeScoped (Customer_Region cust) query from to step [tenant_filter (Customer_ClientID cust)])
            end
      end
  end.

Record api_Exporter : Type := MkApiExporter { ax_Name : string; ax_Type : string; ax_Stage : ExporterStage }.

Definition to_api_exporter (name : string) (e : ExporterStage) : api_Exporter :=
  MkApiExporter name (ComponentType name)
    (MkExporterStage (es_Sent e) (es_SendFailed e) (es_EnqueueFailed e) (float32_of (es_QueueSize e)) (float32_of (es_QueueCapacity e))).

(** [regexp.QuoteMeta] *)
Fixpoint QuoteMeta (s : string) : string :=
  match s with
  | "" => ""
  | String c s =>
      if bool_decide (c ∈ bytes_of "\.+*?()|[]{}^$") then String "\" (String c (QuoteMeta s)) else String c (QuoteMeta s)
  end.

Definition ExporterLabelRegex (customerSlug pipelineSlug : string) : string :=
  "^[^/]+/" +:+ QuoteMeta (pipelineKey customerSlug pipelineSlug) +:+ "__.*".

(** The exporters the graph has, with their ids. *)
Definition exporter_ids (g : Graph) (customerSlug pipelineSlug : string) : list string :=
  imap (fun i n => ComponentID n (Z.of_nat i) customerSlug pipelineSlug) (graph_Exporters g).

Definition GetPipelineStageStats (id : N) (from to : Z) : outcome (list (string * Z) * list api_Exporter) :=
  if negb (after to from) then bad_request "'to' must be after 'from'"
  else
    match pg_GetPipeline id d with
    | Err ErrNotFound => not_found "pipeline not found"
    | Err _ => Raised otherError
    | Ok pl =>
        match requireCustomerAccess p (Some (Pipeline_CustomerID pl)) with
        | Some f => Raised (forbiddenError f)
        | None =>
            match (match Pipeline_ActiveVersion pl with Some v => Some v | None => Pipeline_LatestVersion pl end) with
            | None => Success 200 ([], [])
            | Some version =>
                match pg_GetPipelineVersion (Pipeline_ID pl) version d with
                | Err _ => Raised otherError
                | Ok ver =>
                    match ParseGraph (PipelineVersion_Graph ver) with
                    | None => Raised otherError
                    | Some g =>
                        let pslug := PipelineSlug unicode_lower (Pipeline_Name pl) in
                        match GetPipelineStages (Pipeline_ClientID pl) (graph_Signals g) (ExporterLabelRegex (Pipeline_CustomerSlug pl) pslug) from to with
                        | Err ErrUpstreamUnavailable => Failure 503 codeUpstream "stats backend unavailable"
                        | Err _ => Raised otherError
                        | Ok flow =>
                            let ids := exporter_ids g (Pipeline_CustomerSlug pl) pslug in
                            Success 200
                              ((fun s => (s, default 0%Z (pf_Received flow !! s))) <$> graph_Signals g,
                               (fun n => to_api_exporter n (default no_stage (pf_Exporters flow !! n)))
                                 <$> (ids ++ filter (fun n => n ∉ ids) (pf_ExporterNames flow))%list)
                        end
                    end
                end
            end
        end
    end.
End service.

(** ** What a tenant-scoped session reads *)

(** The client ids of the customers in scope. *)
Definition scope_clients (allowed : gset N) (d : DB) : list string :=
  Customer_ClientID <$> rows (t_customers d) (fun c => bool_decide (Customer_ID c ∈ allowed)).

(** The rows of some tenants. *)
Definition visible (T : list string) (ch : clickhouse) : clickhouse :=
  MkClickHouse (filter (fun l => ol_TenantId l ∈ T) (otel_logs ch)) (filter (fun s => os_TenantId s ∈ T) (otel_traces ch))
    (filter (fun m => om_TenantId m ∈ T) (otel_metrics ch)) (filter (fun r => ic_TenantId r ∈ T) (ingest_counts_1m ch)).

(** Two worlds with the same regions and, in each, the same rows of the tenants
    in scope. *)
Record same_view (T : list string) (s1 s2 : Registry clickhouse) : Prop := {
  sv_deflt : reg_deflt s1 = reg_deflt s2;
  sv_vm : reg_vm s1 = reg_vm s2;
  sv_rows : visible T <$> reg_ch s1 = visible T <$> reg_ch s2
}.

(** VictoriaMetrics answers a query under the extra filter of a tenant in scope,
    or for the exporters of a pipeline of a customer in scope, the same. *)
Record same_series (allowed : gset N) (d : DB) (vm1 vm2 : vm_server) : Prop := {
  ss_filtered : forall q t, t ∈ scope_clients allowed d -> ("extra_filters[]", tenant_filter t) ∈ vq_params q -> vm_range vm1 q = vm_range vm2 q;
  ss_stages : forall c row pslug n text base at_, t_customers d !! c = Some row -> c ∈ allowed ->
    text ∈ (counters (fun _ => 0%Z) (ExporterLabelRegex (Customer_Slug row) pslug) n).*1 ->
    let r := MkVMRequest base "/api/v1/query" [("query", text); ("time", at_)] in vm_instant vm1 r = vm_instant vm2 r
}.

Inductive telemetry_read : Type :=
| ReadLogs (id : N) (prm : QueryLogsParams)
| ReadTraces (id : N) (prm : QueryTracesParams)
| ReadTrace (id : N) (traceID : string)
| ReadOverview (from to : Z)
| ReadThroughput (id : N) (signal : option string) (from to : Z) (step : option string)
| ReadMetrics (id : N) (query : string) (from to : Z) (step : string)
| ReadStages (id : N) (from to : Z).

Inductive telemetry_answer : Type :=
| ALogs (o : outcome (list api_LogRecord * option Z))
| ATraces (o : outcome (list TraceSummary * option Z))
| ATrace (o : outcome (list api_Span))
| AOverview (o : outcome api_Overview)
| AThroughput (o : outcome (list Series))
| AMetrics (o : outcome (list MetricSeries))
| AStages (o : outcome (list (string * Z) * list api_Exporter)).

Section reads.
Context (bind_time : Z -> Z) (overflow : spec_float -> Z) (ParseFloat : string -> option spec_float) (format_float : spec_float -> string).
Context (unicode_lower : Z -> Z) (faults : string -> option ch_fault) (fault2 : option ch_fault) (d : DB) (p : option Principal).

(** The failure of a region's server, for the customer-scoped queries. *)
Definition fault_of (id : N) : option ch_fault :=
  match pg_GetCustomer id d with Ok c => faults (Customer_Region c) | Err _ => None end.

Definition read_telemetry (stores : Registry clickhouse) (vm : vm_server) (r : telemetry_read) : telemetry_answer :=
  match r with
  | ReadLogs id prm => ALogs (api_QueryLogs bind_time stores d p (fault_of id) id prm)
  | ReadTraces id prm => ATraces (api_QueryTraces bind_time overflow stores d p (fault_of id) fault2 id prm)
  | ReadTrace id t => ATrace (api_GetTrace stores d p (fault_of id) id t)
  | ReadOverview from to => AOverview (GetStatsOverview bind_time overflow ParseFloat stores faults vm d p from to)
  | ReadThroughput id signal from to step => AThroughput (GetCustomerThroughput bind_time overflow stores faults d p id signal from to step)
  | ReadMetrics id q from to step => AMetrics (QueryCustomerMetricsRange overflow ParseFloat format_float stores vm d p id q from to step)
  | ReadStages id from to => AStages (GetPipelineStageStats bind_time overflow ParseFloat stores faults vm d unicode_lower p id from to)
  end.
End reads.

(** *** Lemmas *)

Lemma filter_agree {A} (P Q : A -> Prop) `{forall x, Decision (P x), forall x, Decision (Q x)} (l1 l2 : list A) :
  (forall x, P x -> Q x) -> filter Q l1 = filter Q l2 -> filter P l1 = filter P l2.
Proof.
  intros HPQ E. assert (forall l : list A, filter P l = filter P (filter Q l)) as Hf.
  { intros l. rewrite list_filter_filter. apply list_filter_iff. intros x. split; [|tauto]. intros Hx. split; [done|by apply HPQ]. }
  by rewrite (Hf l1), (Hf l2), E.
Qed.

Section agreement.
Context (T : list string) (s1 s2 : Registry clickhouse) (Hview : same_view T s1 s2).

Lemma view_conn region : visible T <$> ClickHouse s1 region = visible T <$> ClickHouse s2 region.
Proof using Hview.
  destruct Hview as [Hd _ Hr]. unfold ClickHouse. rewrite Hd.
  pose proof (f_equal (fun m => m !! region) Hr) as H1. pose proof (f_equal (fun m => m !! reg_deflt s2) Hr) as H2. simpl in H1, H2.
  rewrite !lookup_fmap in H1, H2. destruct (reg_ch s1 !! region), (reg_ch s2 !! region); simpl in *; congruence.
Qed.

Lemma view_query {A} fault e region (rows : clickhouse -> list A) :
  (forall ch1 ch2, visible T ch1 = visible T ch2 -> rows ch1 = rows ch2) ->
  ch_query fault e (ClickHouse s1 region) rows = ch_query fault e (ClickHouse s2 region) rows.
Proof using Hview.
  intros Hrows. pose proof (view_conn region) as H. destruct (ClickHouse s1 region) as [ch1|], (ClickHouse s2 region) as [ch2|]; try done.
  apply (inj Some) in H. destruct fault as [[]|]; try done. simpl. f_equal. by apply Hrows.
Qed.

Lemma view_names : Names s1 = Names s2.
Proof using Hview.
  destruct Hview as [_ _ Hr]. unfold Names. f_equal. pose proof (f_equal map_to_list Hr) as H. rewrite !map_to_list_fmap in H.
  apply (f_equal (fmap fst)) in H. rewrite <- !list_fmap_compose in H. exact H.
Qed.

Lemma view_vm region : VM s1 region = VM s2 region.
Proof using Hview. destruct Hview as [Hd Hv _]. unfold VM. by rewrite Hd, Hv. Qed.
End agreement.

Lemma visible_parts T ch1 ch2 : visible T ch1 = visible T ch2 ->
  filter (fun l => ol_TenantId l ∈ T) (otel_logs ch1) = filter (fun l => ol_TenantId l ∈ T) (otel_logs ch2)
  /\ filter (fun s => os_TenantId s ∈ T) (otel_traces ch1) = filter (fun s => os_TenantId s ∈ T) (otel_traces ch2)
  /\ filter (fun r => ic_TenantId r ∈ T) (ingest_counts_1m ch1) = filter (fun r => ic_TenantId r ∈ T) (ingest_counts_1m ch2).
Proof. by intros [= H1 H2 _ H3]. Qed.

(** *** Grouped counts *)

Lemma remove_dups_filter {K} `{EqDecision K} (P : K -> Prop) `{forall k, Decision (P k)} (l : list K) :
  filter P (remove_dups l) = remove_dups (filter P l).
Proof.
  induction l as [|x l IH]; [done|]. destruct (decide (P x)) as [Hp|Hp].
  - rewrite filter_cons_True by done. simpl. assert (x ∈ filter P l <-> x ∈ l) as Hiff by (rewrite list_elem_of_filter; tauto).
    case_decide as H1; case_decide as H2; [exact IH|tauto..|]. rewrite filter_cons_True by done. by rewrite IH.
  - rewrite filter_cons_False by done. simpl. case_decide; [exact IH|]. rewrite filter_cons_False by done. exact IH.
Qed.

Lemma filter_fmap {A B} (f : A -> B) (P : B -> Prop) `{forall x, Decision (P x)} (l : list A) : filter P (f <$> l) = f <$> filter (fun x => P (f x)) l.
Proof. induction l as [|x l IH]; [done|]. rewrite fmap_cons, !filter_cons. case_decide; [by rewrite fmap_cons, IH|exact IH]. Qed.

Lemma group_sum_filter {K} `{EqDecision K} (key : count_row -> K) (P : K -> Prop) `{forall k, Decision (P k)} rs :
  filter (fun r => P r.1) (group_sum key rs) = group_sum key (filter (fun r => P (key r)) rs).
Proof.
  unfold group_sum. rewrite filter_fmap. simpl. rewrite remove_dups_filter.
  rewrite filter_fmap. apply list_fmap_ext. intros i k Hk%list_elem_of_lookup_2. rewrite elem_of_remove_dups in Hk.
  apply list_elem_of_fmap in Hk as (r & -> & [Hr _]%list_elem_of_filter). do 2 f_equal. rewrite list_filter_filter.
  apply (f_equal (foldr _ _)). apply list_filter_iff. intros x. split; [|tauto]. intros E. rewrite E. tauto.
Qed.

(** The counts of a tenant are made of its rows. *)
Lemma add_counts_same t rows m1 m2 : m1 !! t = m2 !! t -> foldl add_count m1 (filter (fun r => r.1.1 = t) rows) !! t =
  foldl add_count m2 (filter (fun r => r.1.1 = t) rows) !! t.
Proof.
  revert m1 m2. induction rows as [|r rows IH]; intros m1 m2 E; [done|]. rewrite filter_cons. case_decide as Ht; [|by apply IH].
  simpl. apply IH. unfold add_count. by rewrite Ht, E, !lookup_insert_eq.
Qed.

Lemma add_counts_lookup m rows t : foldl add_count m rows !! t = foldl add_count m (filter (fun r => r.1.1 = t) rows) !! t.
Proof.
  revert m. induction rows as [|r rows IH]; intros m; [done|]. rewrite filter_cons. simpl. rewrite IH. case_decide as Ht; [done|].
  apply add_counts_same. unfold add_count. by rewrite lookup_insert_ne.
Qed.

Lemma omap_filter_none {A B} (f : A -> option B) (P : A -> Prop) `{forall x, Decision (P x)} (l : list A) :
  (forall x, ~ P x -> f x = None) -> omap f l = omap f (filter P l).
Proof.
  intros Hf. assert (forall x l, omap f (x :: l) = match f x with Some y => y :: omap f l | None => omap f l end) as Hcons by done.
  induction l as [|x l IH]; [done|]. rewrite filter_cons. case_decide as Hp; rewrite !Hcons, IH; [done|]. by rewrite Hf.
Qed.

#[export] Instance members_strict {V} : StrictWeak (fun a b : string * V => str_lt a.1 b.1).
Proof. split; intros *; [apply str_lt_irrefl|apply str_lt_trans|apply str_lt_negtrans]. Qed.

(** The members of two maps under the keys on which they agree. *)
Lemma sorted_members_agree {V} (P : string -> Prop) `{forall k, Decision (P k)} (m1 m2 : gmap string V) :
  (forall k, P k -> m1 !! k = m2 !! k) ->
  filter (fun kv => P kv.1) (sorted_members m1) = filter (fun kv => P kv.1) (sorted_members m2).
Proof.
  intros Hm. unfold sorted_members. apply sort_by_filter_same; [apply _| |apply NoDup_map_to_list..|].
  - intros [k v] [k' v'] Hx Hy _ _ H1 H2. simpl in *. assert (k = k') as -> by by apply str_lt_total.
    apply elem_of_map_to_list in Hx, Hy. congruence.
  - intros [k v] Hk. rewrite !elem_of_map_to_list. simpl in Hk. by rewrite Hm.
Qed.

Section isolated.
Context (bind_time : Z -> Z) (overflow : spec_float -> Z) (ParseFloat : string -> option spec_float) (format_float : spec_float -> string).
Context (unicode_lower : Z -> Z) (faults : string -> option ch_fault) (fault2 : option ch_fault) (d : DB) (p : option Principal).
Context (allowed : gset N) (s1 s2 : Registry clickhouse) (vm1 vm2 : vm_server).
Hypotheses (Hscope : customerScope p = Some allowed) (Hwf : core_wf d).
Hypotheses (Hview : same_view (scope_clients allowed d) s1 s2) (Hvm : same_series allowed d vm1 vm2).

Lemma in_scope_client i c : t_customers d !! i = Some c -> i ∈ allowed -> Customer_ClientID c ∈ scope_clients allowed d.
Proof using Hwf.
  intros Hc Hi. apply list_elem_of_fmap_2, rows_elem. destruct Hwf as (W & _). destruct (W _ _ Hc) as [-> _].
  split; [by apply bool_decide_eq_true|by exists i].
Qed.

Lemma get_customer_client i c : pg_GetCustomer i d = Ok c -> i ∈ allowed -> Customer_ClientID c ∈ scope_clients allowed d.
Proof using Hwf.
  unfold pg_GetCustomer. destruct (t_customers d !! i) as [c'|] eqn:Hc; [|done]. case_decide; [done|]. intros [= <-]. by apply in_scope_client.
Qed.

(** Either turned away, or about a customer in scope. *)
Lemma access_dichotomy i : requireCustomerAccess p (Some i) = None -> i ∈ allowed.
Proof using Hscope. intros E. by destruct (access_granted _ _ _ Hscope E) as (c & [= ->] & ?). Qed.

Lemma log_page_same t q limit ch1 ch2 : t ∈ scope_clients allowed d ->
  visible (scope_clients allowed d) ch1 = visible (scope_clients allowed d) ch2 ->
  log_page bind_time t q limit ch1 = log_page bind_time t q limit ch2.
Proof using Type.
  intros Ht (H & _ & _)%visible_parts. unfold log_page. do 2 f_equal. eapply filter_agree; [|exact H]. intros l. unfold log_where.
  rewrite !andb_true_iff, bool_decide_eq_true. intros H'. by assert (ol_TenantId l = t) as -> by (clear -H'; tauto).
Qed.

Lemma spans_same (P : otel_span -> Prop) `{forall s, Decision (P s)} ch1 ch2 : (forall s, P s -> os_TenantId s ∈ scope_clients allowed d) ->
  visible (scope_clients allowed d) ch1 = visible (scope_clients allowed d) ch2 -> filter P (otel_traces ch1) = filter P (otel_traces ch2).
Proof using Type. intros HP (_ & H' & _)%visible_parts. eapply filter_agree; [exact HP|exact H']. Qed.

Lemma counts_same (P : count_row -> Prop) `{forall r, Decision (P r)} ch1 ch2 : (forall r, P r -> ic_TenantId r ∈ scope_clients allowed d) ->
  visible (scope_clients allowed d) ch1 = visible (scope_clients allowed d) ch2 -> filter P (ingest_counts_1m ch1) = filter P (ingest_counts_1m ch2).
Proof using Type. intros HP (_ & _ & H')%visible_parts. eapply filter_agree; [exact HP|exact H']. Qed.

Lemma trace_page_same t q limit ch1 ch2 : t ∈ scope_clients allowed d ->
  visible (scope_clients allowed d) ch1 = visible (scope_clients allowed d) ch2 ->
  trace_page bind_time overflow t q limit ch1 = trace_page bind_time overflow t q limit ch2.
Proof using Type.
  intros Ht Hv. unfold trace_page. do 2 f_equal. eapply spans_same; [|exact Hv]. intros s. unfold trace_where.
  rewrite !andb_true_iff, bool_decide_eq_true. intros H'. by assert (os_TenantId s = t) as -> by (clear -H'; tauto).
Qed.

(** *** The overview *)

Definition agree (m1 m2 : gmap string (gmap string Z)) : Prop := forall t, t ∈ scope_clients allowed d -> m1 !! t = m2 !! t.

Lemma overview_rows_tenant t from to ch1 ch2 : t ∈ scope_clients allowed d ->
  visible (scope_clients allowed d) ch1 = visible (scope_clients allowed d) ch2 ->
  filter (fun r => r.1.1 = t) (overview_rows bind_time from to ch1) = filter (fun r => r.1.1 = t) (overview_rows bind_time from to ch2).
Proof using Type.
  intros Ht Hv. unfold overview_rows.
  assert (forall rs, filter (fun r => r.1.1 = t) (group_sum (fun r => (ic_TenantId r, ic_Signal r)) rs)
    = group_sum (fun r => (ic_TenantId r, ic_Signal r)) (filter (fun r => ic_TenantId r = t) rs)) as Hg.
  { intros rs. pose proof (group_sum_filter (fun r => (ic_TenantId r, ic_Signal r)) (fun k : string * string => k.1 = t) rs) as Hg0.
    etransitivity; [etransitivity; [|exact Hg0]|]; [by apply list_filter_iff|f_equal; by apply list_filter_iff]. }
  rewrite !Hg, !list_filter_filter. f_equal. eapply counts_same; [|exact Hv]. by intros r [-> _].
Qed.

Lemma per_tenant_agree from to regions m1 m2 : agree m1 m2 ->
  match per_tenant bind_time s1 faults m1 from to regions, per_tenant bind_time s2 faults m2 from to regions with
  | Ok a, Ok b => agree a b
  | Err e, Err e' => e = e'
  | _, _ => False
  end.
Proof using Hview.
  revert m1 m2. induction regions as [|r regions IH]; intros m1 m2 Hm; [done|]. simpl.
  pose proof (view_conn _ _ _ Hview r) as Hc. destruct (ClickHouse s1 r) as [ch1|], (ClickHouse s2 r) as [ch2|]; try done.
  apply (inj Some) in Hc. unfold ch_query. destruct (faults r) as [[]|]; try done. apply IH. intros t Ht.
  rewrite (add_counts_lookup m1 _ t), (add_counts_lookup m2 _ t), (overview_rows_tenant t from to ch1 ch2) by done. apply add_counts_same. by apply Hm.
Qed.

Lemma shown_same m1 m2 : agree m1 m2 -> shown d (Some allowed) m1 = shown d (Some allowed) m2.
Proof using Hwf.
  intros Hm. unfold shown. set (f := fun kv : string * gmap string Z => _).
  assert (forall l : list (string * gmap string Z), omap f l = omap f (filter (fun kv => kv.1 ∈ scope_clients allowed d) l)) as Hf.
  { intros l. apply omap_filter_none. intros [t v] Ht. apply eq_None_not_Some. intros [x (ref & Hr & Hx)%bind_Some].
    apply (ref_of_Some _ _ _ Hwf) in Hr as (i & c & Hc & Ht' & ->). simpl in Hx. case_bool_decide as Hi; [|done].
    destruct Ht. simpl in *. rewrite <- Ht'. by apply (in_scope_client i c). }
  rewrite (Hf (sorted_members m1)), (Hf (sorted_members m2)). f_equal.
  exact (sorted_members_agree (fun k => k ∈ scope_clients allowed d) m1 m2 Hm).
Qed.

Lemma overview_same from to : GetOverview bind_time overflow ParseFloat s1 faults vm1 d from to (Some allowed)
  = GetOverview bind_time overflow ParseFloat s2 faults vm2 d from to (Some allowed).
Proof using Hwf Hview.
  unfold GetOverview. rewrite (view_names _ _ _ Hview). pose proof (per_tenant_agree from to (Names s2) ∅ ∅ ltac:(done)) as H.
  destruct (per_tenant _ s1 _ _ _ _ _) as [a|e], (per_tenant _ s2 _ _ _ _ _) as [b|e']; try done; [|by rewrite H].
  by rewrite (shown_same a b H).
Qed.

(** *** The stages *)

Lemma vmSumBy_same text label at_ :
  (forall base t, let r := MkVMRequest base "/api/v1/query" [("query", text); ("time", t)] in vm_instant vm1 r = vm_instant vm2 r) ->
  vmSumBy ParseFloat s1 vm1 text label at_ = vmSumBy ParseFloat s2 vm2 text label at_.
Proof using Hview. intros H. unfold vmSumBy. by rewrite H, (view_vm _ _ _ Hview). Qed.

Lemma counters_same at_ m cs :
  (forall text base t, text ∈ cs.*1 -> let r := MkVMRequest base "/api/v1/query" [("query", text); ("time", t)] in vm_instant vm1 r = vm_instant vm2 r) ->
  foldl (apply_counter ParseFloat s1 vm1 at_) m cs = foldl (apply_counter ParseFloat s2 vm2 at_) m cs.
Proof using Hview.
  revert m. induction cs as [|c cs IH]; intros m H; [done|]. simpl. unfold apply_counter at 2 4. rewrite (vmSumBy_same c.1).
  - apply IH. intros text base t Ht. apply H. rewrite fmap_cons. by right.
  - intros base t. apply H. rewrite fmap_cons. left.
Qed.

Lemma stages_same i row t signals pslug from to : t_customers d !! i = Some row -> i ∈ allowed -> t ∈ scope_clients allowed d ->
  let regex := ExporterLabelRegex (Customer_Slug row) pslug in
  GetPipelineStages bind_time overflow ParseFloat s1 faults vm1 t signals regex from to
  = GetPipelineStages bind_time overflow ParseFloat s2 faults vm2 t signals regex from to.
Proof using Hview Hvm.
  intros Hrow Hi Ht regex. unfold GetPipelineStages.
  assert ((if bool_decide (signals = []) then Ok [] else ch_query (faults "") ErrUpstreamUnavailable (ClickHouse s1 "") (received_rows bind_time t signals from to))
    = if bool_decide (signals = []) then Ok [] else ch_query (faults "") ErrUpstreamUnavailable (ClickHouse s2 "") (received_rows bind_time t signals from to)) as ->.
  { case_bool_decide; [done|]. eapply view_query; [exact Hview|]. intros ch1 ch2 Hv. unfold received_rows. f_equal.
    eapply counts_same; [|exact Hv]. by intros r [-> _]. }
  destruct (if bool_decide _ then _ else _) as [rows|]; [|done]. destruct (_ <=? 0)%Z; [done|].
  rewrite (counters_same to ∅); [done|]. intros text base t' Htext. eapply (ss_stages _ _ _ _ Hvm i row pslug); [done|done|exact Htext].
Qed.

(** *** The handlers *)

Lemma logs_same i fault q : i ∈ allowed -> QueryLogs bind_time s1 d fault i q = QueryLogs bind_time s2 d fault i q.
Proof using Hwf Hview.
  intros Hi. unfold QueryLogs, tenant. destruct (pg_GetCustomer i d) as [c|] eqn:Hc; [|done]. apply get_customer_client in Hc as Ht; [|done]. simpl.
  rewrite (view_query _ _ _ Hview fault ErrUpstreamUnavailable (Customer_Region c)
    (log_page bind_time (Customer_ClientID c) q (clampLimit (lq_Limit q)))); [done|]. intros ch1 ch2. by apply log_page_same.
Qed.

Lemma traces_same i fault q : i ∈ allowed ->
  QueryTraces bind_time overflow s1 d fault fault2 i q = QueryTraces bind_time overflow s2 d fault fault2 i q.
Proof using Hwf Hview.
  intros Hi. unfold QueryTraces, tenant. destruct (pg_GetCustomer i d) as [c|] eqn:Hc; [|done]. apply get_customer_client in Hc as Ht; [|done]. simpl.
  rewrite (view_query _ _ _ Hview fault ErrUpstreamUnavailable (Customer_Region c)
    (trace_page bind_time overflow (Customer_ClientID c) q (clampLimit (tq_Limit q)))) by (intros ch1 ch2; by apply trace_page_same).
  destruct (ch_query _ _ _ _) as [rows|]; [|done]. case_bool_decide; [done|]. unfold traceCounts.
  rewrite (view_query _ _ _ Hview fault2 QOther (Customer_Region c) (count_rows (Customer_ClientID c) (ts_TraceID <$> (trace_summary <$> rows)))); [done|].
  intros ch1 ch2 Hv. unfold count_rows. by rewrite (spans_same _ ch1 ch2) by (done || by intros s [-> _]).
Qed.

Lemma trace_same i fault t : i ∈ allowed -> svc_GetTrace s1 d fault i t = svc_GetTrace s2 d fault i t.
Proof using Hwf Hview.
  intros Hi. unfold svc_GetTrace, tenant. destruct (pg_GetCustomer i d) as [c|] eqn:Hc; [|done]. apply get_customer_client in Hc as Ht; [|done]. simpl.
  rewrite (view_query _ _ _ Hview fault QOther (Customer_Region c) (trace_spans (Customer_ClientID c) t)); [done|].
  intros ch1 ch2 Hv. unfold trace_spans. by rewrite (spans_same _ ch1 ch2) by (done || by intros s [-> _]).
Qed.

Lemma throughput_same i signal from to step : i ∈ allowed ->
  GetThroughput bind_time overflow s1 faults d i signal from to step = GetThroughput bind_time overflow s2 faults d i signal from to step.
Proof using Hwf Hview.
  intros Hi. unfold GetThroughput. destruct (pg_GetCustomer i d) as [c|] eqn:Hc; [|done]. apply get_customer_client in Hc as Ht; [|done].
  cbv zeta. set (n := if (_ <? _)%Z then _ else _).
  rewrite (view_query _ _ _ Hview (faults (Customer_Region c)) ErrUpstreamUnavailable (Customer_Region c)
    (throughput_rows bind_time (Customer_ClientID c) signal from to n)); [done|].
  intros ch1 ch2 Hv. unfold throughput_rows. by rewrite (counts_same _ ch1 ch2) by (done || by intros r [-> _]).
Qed.

Lemma read_same r : read_telemetry bind_time overflow ParseFloat format_float unicode_lower faults fault2 d p s1 vm1 r
  = read_telemetry bind_time overflow ParseFloat format_float unicode_lower faults fault2 d p s2 vm2 r.
Proof using Hscope Hwf Hview Hvm.
  destruct r as [id prm|id prm|id t|from to|id signal from to step|id q from to step|id from to]; simpl; f_equal.
  - unfold api_QueryLogs. destruct (requireCustomerAccess p _) eqn:Ha; [done|]. apply access_dichotomy in Ha. destruct (negb _); [done|].
    f_equal. by apply logs_same.
  - unfold api_QueryTraces. destruct (requireCustomerAccess p _) eqn:Ha; [done|]. apply access_dichotomy in Ha. destruct (negb _); [done|].
    f_equal. by apply traces_same.
  - unfold api_GetTrace. destruct (requireCustomerAccess p _) eqn:Ha; [done|]. apply access_dichotomy in Ha. f_equal. by apply trace_same.
  - unfold GetStatsOverview. by rewrite Hscope, overview_same.
  - unfold GetCustomerThroughput. destruct (requireCustomerAccess p _) eqn:Ha; [done|]. apply access_dichotomy in Ha.
    destruct (negb _); [done|]. destruct (ParseStep step); [|done]. by rewrite throughput_same.
  - unfold QueryCustomerMetricsRange. destruct (requireCustomerAccess p _) eqn:Ha; [done|]. apply access_dichotomy in Ha.
    destruct (pg_GetCustomer id d) as [c|] eqn:Hc; [|done]. destruct (negb _); [done|]. destruct (ParseStep _); [|done].
    f_equal. unfold QueryRangeScoped, queryRange. rewrite (view_vm _ _ _ Hview). case_bool_decide; [done|].
    rewrite (ss_filtered _ _ _ _ Hvm _ (Customer_ClientID c)); [done|by eapply get_customer_client|]. simpl. do 4 right. left.
  - unfold GetPipelineStageStats. destruct (negb _); [done|]. destruct (pg_GetPipeline id d) as [pl|] eqn:Hpl; [|done].
    destruct (requireCustomerAccess p _) eqn:Ha; [done|]. apply access_dichotomy in Ha. destruct (match Pipeline_ActiveVersion pl with Some v => Some v | None => Pipeline_LatestVersion pl end); [|done].
    destruct (pg_GetPipelineVersion _ _ _) as [ver|]; [|done]. destruct (ParseGraph _) as [g|]; [|done].
    unfold pg_GetPipeline in Hpl. destruct (t_pipelines d !! id ≫= select_pipeline d) as [pl'|] eqn:Hs; [|done]. injection Hpl as ->.
    apply bind_Some in Hs as (row & _ & Hs). unfold select_pipeline in Hs. apply fmap_Some in Hs as (c & Hc & ->). simpl in *.
    rewrite (stages_same (pl_customer_id row) c); [done|done|done|]. by apply (in_scope_client (pl_customer_id row)).
Qed.
End isolated.


(** ** Examples *)

Definition ex_scoped : option Principal := Some (MkPrincipal (ex_user 5 "s@x" "viewer" None false) "csrf" false {[ 1%N ]}).
Definition ex_world (others : list otel_log) : Registry clickhouse := ex_stores (ex_log "cust_1" second "mine" :: others) [].
Definition ex_vm (x : vm_reply vm_series) : vm_server :=
  MkVM (fun _ => None) (fun q => if existsb (fun kv => bool_decide (kv = ("extra_filters[]", tenant_filter "cust_1"))) (vq_params q) then None else x).
Definition ex_logs_params : QueryLogsParams := MkQueryLogsParams 0 (10 * second) None None None None None.
Definition ex_read (others : list otel_log) (x : vm_reply vm_series) (r : telemetry_read) : telemetry_answer :=
  read_telemetry (fun t => t) (fun _ => 0%Z) (fun _ => None) (fun _ => "") (fun c => c) (fun _ => None) None ex_tenants_db ex_scoped (ex_world others) (ex_vm x) r.

Lemma ex_tenants_wf : core_wf ex_tenants_db.
Proof.
  assert (forall i c, t_customers ex_tenants_db !! i = Some c -> i = 1%N /\ c = ex_customer 1 "cust_1" "eu" (Some 7%Z) \/
    i = 2%N /\ c = ex_customer 2 "cust_2" "us" None) as H.
  { intros i c. cbn. rewrite lookup_insert_Some, lookup_singleton_Some. naive_solver. }
  split_and!.
  - intros i c [[-> ->]|[-> ->]]%H; (split; [done|]; vm_compute; reflexivity).
  - intros i j c c' [[-> ->]|[-> ->]]%H [[-> ->]|[-> ->]]%H; (done || (intros [Heq|Heq]; vm_compute in Heq; discriminate)).
  - intros i k. cbn. by rewrite lookup_empty.
Qed.


Definition ex_count (t : string) (items : Z) : clickhouse := MkClickHouse [] [] [] [MkCountRow t "logs" 0 items 0].
Definition ex_no_vm : vm_server := MkVM (fun _ => None) (fun _ => None).

(** The stages of a pipeline are read from the default region, those of a
    customer of another region are empty. *)
Example stages_of_default_region :
  let stores := MkRegistry {[ "eu" := ex_count "cust_1" 10; "us" := ex_count "cust_2" 20 ]} ∅ "eu" in
  let received t := match GetPipelineStages (fun x => x) (fun _ => 0%Z) (fun _ => None) stores (fun _ => None) ex_no_vm t ["logs"] "r" 0 minute with
                    | Ok f => pf_Received f !! "logs" | Err _ => None end in
  (received "cust_1", received "cust_2") = (Some 10%Z, None).
Proof. vm_compute. reflexivity. Qed.

Definition ex_overview (d : DB) (stores : Registry clickhouse) (allowed : option (gset N)) : option (Z * option Z) :=
  match GetOverview (fun x => x) (fun _ => 0%Z) (fun _ => None) stores (fun _ => None) ex_no_vm d 0 minute allowed with
  | Ok o => Some (ov_ActiveCustomers o, ov_Totals o !! "logs")
  | Err _ => None
  end.

(** Two regions that share a server count its rows twice. *)
Example shared_server_counted_twice :
  ex_overview ex_tenants_db (MkRegistry {[ "eu" := ex_count "cust_1" 10; "us" := ex_count "cust_1" 10 ]} ∅ "eu") None = Some (2%Z, Some 20%Z).
Proof. vm_compute. reflexivity. Qed.

(** A scoped caller is told the number of its grants as active customers, the
    suspended ones included. *)
Example scoped_active_is_grants :
  let d := set_customers (fun m => <[2%N := MkCustomer 2 "acme-us" "cust_2" "cust_2" CustomerSuspended "us" None None 0 0]> m) ex_tenants_db in
  ex_overview d (MkRegistry {[ "eu" := ex_count "cust_1" 10 ]} ∅ "eu") (Some {[ 1%N; 2%N ]}) = Some (2%Z, Some 10%Z).
Proof. vm_compute. reflexivity. Qed.
