(* ===== verification/Retention.v ===== *)
(** Telemetry retention: internal/retention/retention.go over the tables of
    [Telemetry], and the erasure of a deleted customer's rows that
    cmd/otel-fleet/main.go hands to the tenants service.

    A DELETE mutation is accepted or refused by its server, an input; once
    accepted it has removed the rows it selects when it was submitted.  A sweep
    is taken to happen at one instant. *)
From S2P Require Import Prelude GoStrings Json StoreTypes TenantAuth PgCore TenantsService Telemetry.
From Stdlib Require Import Ascii.

Open Scope string_scope.
Open Scope go_scope.

(** ** Statements *)

(** The table, and the time column with the number of days of an age bound. *)
Record statement : Type := MkStatement { st_table : string; st_older : option (string * Z) }.

#[export] Instance statement_eq_dec : EqDecision statement.
Proof. solve_decision. Defined.

Definition tables : list (string * string) :=
  [("otel_logs", "TimestampTime"); ("otel_traces", "Timestamp"); ("otel_metrics_gauge", "TimeUnix"); ("otel_metrics_sum", "TimeUnix");
   ("otel_metrics_histogram", "TimeUnix"); ("otel_metrics_exponential_histogram", "TimeUnix"); ("otel_metrics_summary", "TimeUnix")].

Definition Statements (days : Z) : list statement := (fun t => MkStatement t.1 (Some (t.2, days))) <$> tables.

Definition PurgeStatements : list statement :=
  (((fun t => MkStatement t.1 None) <$> tables) ++ [MkStatement "ingest_counts_1m" None])%list.

(** The text sent. *)
Definition sql (s : statement) : string :=
  "ALTER TABLE otel." +:+ st_table s +:+ " DELETE WHERE TenantId = ?"
  +:+ match st_older s with Some (c, days) => " AND " +:+ c +:+ " < now() - INTERVAL " +:+ itoa days +:+ " DAY" | None => "" end
  +:+ " SETTINGS mutations_sync = 0".

(** ** Mutations *)

(** The time columns of the tables; a DateTime has whole seconds. *)
Definition to_seconds (t : Z) : Z := (t / second * second)%Z.
Definition log_col (l : otel_log) (c : string) : option Z :=
  if bool_decide (c = "TimestampTime") then Some (to_seconds (ol_Timestamp l))
  else if bool_decide (c = "Timestamp") then Some (ol_Timestamp l) else None.
Definition span_col (s : otel_span) (c : string) : option Z := if bool_decide (c = "Timestamp") then Some (os_Timestamp s) else None.
Definition metric_col (m : otel_metric) (c : string) : option Z := if bool_decide (c = "TimeUnix") then Some (om_TimeUnix m) else None.
Definition count_col (r : count_row) (c : string) : option Z := if bool_decide (c = "Minute") then Some (ic_Minute r) else None.

(** [now() - INTERVAL days DAY] *)
Definition cutoff (now days : Z) : Z := (to_seconds now - days * (24 * hour))%Z.

(** The statement, with [tenant] bound, selects the row. *)
Definition doomed (now : Z) (s : statement) (tenant table t : string) (col : string -> option Z) : bool :=
  bool_decide (table = st_table s) && bool_decide (t = tenant)
  && match st_older s with
     | None => true
     | Some (c, days) => match col c with Some time => (time <? cutoff now days)%Z | None => false end
     end.

(** A row of a table as the statements see it: the table, the tenant and the
    time columns. *)
Definition row_view : Type := string * string * (string -> option Z).
Definition log_view (l : otel_log) : row_view := ("otel_logs", ol_TenantId l, log_col l).
Definition span_view (s : otel_span) : row_view := ("otel_traces", os_TenantId s, span_col s).
Definition metric_view (m : otel_metric) : row_view := (om_table m, om_TenantId m, metric_col m).
Definition count_view (r : count_row) : row_view := ("ingest_counts_1m", ic_TenantId r, count_col r).

(** The rows of a server that [keep] keeps. *)
Definition retain (keep : row_view -> bool) (ch : clickhouse) : clickhouse :=
  MkClickHouse (filter (fun l => keep (log_view l) = true) (otel_logs ch)) (filter (fun s => keep (span_view s) = true) (otel_traces ch))
    (filter (fun m => keep (metric_view m) = true) (otel_metrics ch)) (filter (fun r => keep (count_view r) = true) (ingest_counts_1m ch)).

Definition mutate (now : Z) (s : statement) (tenant : string) (ch : clickhouse) : clickhouse :=
  retain (fun v => negb (doomed now s tenant v.1.1 v.1.2 v.2)) ch.

(** The region whose server answers for [region]. *)
Definition server_of {C} (stores : Registry C) (region : string) : string :=
  match reg_ch stores !! region with Some _ => region | None => reg_deflt stores end.

Definition set_server {C} (server : string) (ch : C) (stores : Registry C) : Registry C :=
  MkRegistry (<[server := ch]> (reg_ch stores)) (reg_vm stores) (reg_deflt stores).

(** ** The sweep and the purge *)

Section service.
Context (uuid_string : N -> string) (accepts : string -> string -> statement -> bool) (now : Z).

(** [ch.Exec] on the connection of a region; [None]: the nil connection. *)
Definition Exec (stores : Registry clickhouse) (region tenant : string) (s : statement) : option (bool * Registry clickhouse) :=
  match ClickHouse stores region with
  | None => None
  | Some ch =>
      if accepts region tenant s then Some (true, set_server (server_of stores region) (mutate now s tenant ch) stores)
      else Some (false, stores)
  end.

(** The statements submitted one by one: how many were accepted, how many
    failed. *)
Fixpoint submit (region tenant : string) (stmts : list statement) (submitted errs : Z) (stores : Registry clickhouse)
  : option (Z * Z * Registry clickhouse) :=
  match stmts with
  | [] => Some (submitted, errs, stores)
  | s :: stmts =>
      match Exec stores region tenant s with
      | None => None
      | Some (false, stores) => submit region tenant stmts submitted (errs + 1) stores
      | Some (true, stores) => submit region tenant stmts (submitted + 1) errs stores
      end
  end.

Definition applyCustomer (region clientID : string) (days : Z) (stores : Registry clickhouse) : option (Z * Z * Registry clickhouse) :=
  submit region clientID (Statements days) 0 0 stores.

(** Nothing when there is no connection. *)
Definition PurgeCustomer (region clientID : string) (stores : Registry clickhouse) : option (Z * Z * Registry clickhouse) :=
  match ClickHouse stores region with
  | None => Some (0%Z, 0%Z, stores)
  | Some _ => submit region clientID PurgeStatements 0 0 stores
  end.

Definition apply_entry (c : Customer) (days submitted errs : Z) : AuditEntry :=
  MkAuditEntry None "system" "retention.apply" "customer" (uuid_string (Customer_ID c)) (Some (Customer_ID c))
    (Some (JObj [("errors", JInt errs); ("mutations_submitted", JInt submitted); ("retention_days", JInt days)])).

(** The body of [RunOnce]'s loop. *)
Fixpoint sweep (customers : list Customer) (d : DB) (stores : Registry clickhouse) : option (DB * Registry clickhouse) :=
  match customers with
  | [] => Some (d, stores)
  | c :: customers =>
      match Customer_RetentionDays c with
      | None => sweep customers d stores
      | Some days =>
          match applyCustomer (Customer_Region c) (Customer_ClientID c) days stores with
          | None => None
          | Some (submitted, errs, stores) =>
              if (submitted =? 0)%Z then sweep customers d stores
              else sweep customers (set_audit (fun l => audit_write l [apply_entry c days submitted errs]) d) stores
          end
      end
  end.

Definition RunOnce (d : DB) (stores : Registry clickhouse) : option (DB * Registry clickhouse) :=
  sweep (pg_ListCustomers (Some CustomerActive) d) d stores.

(** Deleting a customer, with the purge function of main.go. *)
Definition delete_and_purge (purge_on_delete : bool) (actor : option N) (id : N) (d : DB) (stores : Registry clickhouse)
  : option (result unit svc_err * DB * Registry clickhouse) :=
  match DeleteCustomer uuid_string now purge_on_delete actor id d with
  | (r, d, purged) =>
      stores ← foldl (fun acc p => stores ← acc; snd <$> PurgeCustomer p.2 p.1 stores) (Some stores) purged;
      Some (r, d, stores)
  end.
End service.

(** ** What accepted mutations leave *)

(** A mutation: server, tenant, statement. *)
Definition mutation : Type := string * string * statement.

Definition hits (now : Z) (server : string) (v : row_view) (m : mutation) : bool :=
  bool_decide (m.1.1 = server) && doomed now m.2 m.1.2 v.1.1 v.1.2 v.2.

Definition spared (now : Z) (server : string) (ms : list mutation) (v : row_view) : bool := negb (existsb (hits now server v) ms).

Definition after_mutations (now : Z) (ms : list mutation) (stores : Registry clickhouse) : Registry clickhouse :=
  MkRegistry (map_imap (fun server ch => Some (retain (spared now server ms) ch)) (reg_ch stores)) (reg_vm stores) (reg_deflt stores).

(** Every region has a server. *)
Definition served {C} (stores : Registry C) : Prop := is_Some (reg_ch stores !! reg_deflt stores).

Lemma served_ClickHouse {C} (stores : Registry C) region : served stores ->
  exists ch, ClickHouse stores region = Some ch /\ reg_ch stores !! server_of stores region = Some ch.
Proof.
  intros [c0 Hc]. unfold ClickHouse, server_of. destruct (reg_ch stores !! region) as [c|] eqn:E; [by exists c|by exists c0].
Qed.

Lemma retain_ext k1 k2 ch : (forall v, k1 v = k2 v) -> retain k1 ch = retain k2 ch.
Proof. intros H. unfold retain. f_equal; apply list_filter_iff; intros x; by rewrite H. Qed.

Lemma retain_retain k1 k2 ch : retain k2 (retain k1 ch) = retain (fun v => k1 v && k2 v) ch.
Proof. unfold retain; simpl. f_equal; rewrite list_filter_filter; apply list_filter_iff; intros x; rewrite andb_true_iff; tauto. Qed.

Lemma retain_all k ch : (forall v, k v = true) -> retain k ch = ch.
Proof. intros H. destruct ch. unfold retain; simpl. f_equal; apply filter_all, Forall_forall; intros; apply H. Qed.

Lemma after_lookup now ms stores server : reg_ch (after_mutations now ms stores) !! server = retain (spared now server ms) <$> reg_ch stores !! server.
Proof. simpl. rewrite map_lookup_imap. by destruct (reg_ch stores !! server). Qed.

Lemma server_of_after now ms stores region : server_of (after_mutations now ms stores) region = server_of stores region.
Proof. unfold server_of. rewrite after_lookup. by destruct (reg_ch stores !! region). Qed.

Lemma served_after now ms stores : served stores -> served (after_mutations now ms stores).
Proof. intros [ch H]. unfold served. rewrite after_lookup. simpl. rewrite H. by eexists. Qed.

Lemma registry_eq {C} (r1 r2 : Registry C) :
  (forall server, reg_ch r1 !! server = reg_ch r2 !! server) -> reg_vm r1 = reg_vm r2 -> reg_deflt r1 = reg_deflt r2 -> r1 = r2.
Proof. destruct r1, r2; simpl. intros H -> ->. f_equal. by apply map_eq. Qed.

Lemma after_nil now stores : after_mutations now [] stores = stores.
Proof. apply registry_eq; [|done..]. intros server. rewrite after_lookup. destruct (reg_ch stores !! server); [|done]. simpl. by rewrite retain_all. Qed.

Lemma after_app now ms1 ms2 stores : after_mutations now ms2 (after_mutations now ms1 stores) = after_mutations now (ms1 ++ ms2) stores.
Proof.
  apply registry_eq; [|done..]. intros server. rewrite !after_lookup. destruct (reg_ch stores !! server); [|done]. simpl.
  rewrite retain_retain. f_equal. apply retain_ext. intros v. unfold spared. by rewrite existsb_app, negb_orb.
Qed.

Section outcome.
Context (uuid_string : N -> string) (accepts : string -> string -> statement -> bool) (now : Z).

(** The mutations of statements a region's server accepts. *)
Definition accepted (stores : Registry clickhouse) (region tenant : string) (stmts : list statement) : list mutation :=
  (fun s => (server_of stores region, tenant, s)) <$> filter (fun s => accepts region tenant s = true) stmts.

Lemma accepted_after ms stores region tenant stmts :
  accepted (after_mutations now ms stores) region tenant stmts = accepted stores region tenant stmts.
Proof using Type. unfold accepted. by rewrite server_of_after. Qed.

Lemma Exec_outcome stores region tenant s : served stores ->
  Exec accepts now stores region tenant s = Some (accepts region tenant s, after_mutations now (accepted stores region tenant [s]) stores).
Proof using Type.
  intros Hs. destruct (served_ClickHouse _ region Hs) as (ch & Hch & Hserver). unfold Exec, accepted. rewrite Hch, filter_cons, filter_nil.
  destruct (accepts region tenant s) eqn:E; [|by rewrite decide_False, after_nil]. rewrite decide_True by done. do 2 f_equal.
  apply registry_eq; [|done..]. intros server. rewrite after_lookup. simpl. unfold mutate.
  destruct (decide (server_of stores region = server)) as [<-|Hne].
  - rewrite lookup_insert_eq, Hserver. simpl. f_equal. apply retain_ext. intros v. unfold spared, hits. simpl.
    by rewrite bool_decide_true, orb_false_r.
  - rewrite lookup_insert_ne by done. destruct (reg_ch stores !! server); [|done]. simpl. rewrite retain_all; [done|].
    intros v. unfold spared, hits. simpl. by rewrite bool_decide_false.
Qed.

Lemma accepted_one stores region tenant s :
  accepted stores region tenant [s] = if accepts region tenant s then [(server_of stores region, tenant, s)] else [].
Proof using Type. unfold accepted. rewrite filter_cons, filter_nil. by destruct (accepts region tenant s). Qed.

Lemma accepted_cons stores region tenant s stmts :
  accepted stores region tenant (s :: stmts) = (accepted stores region tenant [s] ++ accepted stores region tenant stmts)%list.
Proof using Type. unfold accepted. by rewrite <- fmap_app, <- filter_app. Qed.

Lemma accepted_length stores region tenant stmts : length (accepted stores region tenant stmts) <= length stmts.
Proof using Type. unfold accepted. rewrite length_fmap. apply length_filter. Qed.

Lemma submit_outcome region tenant stmts submitted errs stores : served stores ->
  submit accepts now region tenant stmts submitted errs stores
  = Some ((submitted + Z.of_nat (length (accepted stores region tenant stmts)))%Z,
          (errs + Z.of_nat (length stmts - length (accepted stores region tenant stmts)))%Z,
          after_mutations now (accepted stores region tenant stmts) stores).
Proof using Type.
  revert submitted errs stores. induction stmts as [|s stmts IH]; intros submitted errs stores Hs.
  - simpl. rewrite after_nil, !Z.add_0_r. done.
  - cbn [submit]. rewrite Exec_outcome by done. rewrite (accepted_cons stores region tenant s stmts), length_app, <- after_app.
    pose proof (accepted_length stores region tenant stmts) as Hlen. rewrite accepted_one.
    destruct (accepts region tenant s); rewrite IH by (by apply served_after); rewrite accepted_after; simpl; do 3 f_equal; lia.
Qed.

(** What a sweep submits, customer by customer. *)
Definition due (stores : Registry clickhouse) (c : Customer) : list mutation :=
  match Customer_RetentionDays c with
  | Some days => accepted stores (Customer_Region c) (Customer_ClientID c) (Statements days)
  | None => []
  end.

Definition due_entry (stores : Registry clickhouse) (c : Customer) : list AuditEntry :=
  match Customer_RetentionDays c with
  | Some days =>
      let n := Z.of_nat (length (due stores c)) in
      if (n =? 0)%Z then [] else [apply_entry uuid_string c days n (7 - n)]
  | None => []
  end.

Lemma due_after ms stores c : due (after_mutations now ms stores) c = due stores c.
Proof using Type. unfold due. destruct (Customer_RetentionDays c); [|done]. apply accepted_after. Qed.

Lemma sweep_outcome customers d stores : served stores ->
  sweep uuid_string accepts now customers d stores
  = Some (set_audit (fun l => audit_write l (customers ≫= due_entry stores)) d, after_mutations now (customers ≫= due stores) stores).
Proof using Type.
  revert d stores. induction customers as [|c customers IH]; intros d stores Hs.
  - simpl. rewrite after_nil. destruct d. unfold set_audit, audit_write; simpl. by rewrite app_nil_r.
  - cbn [sweep mbind list_bind]. rewrite <- after_app.
    destruct (Customer_RetentionDays c) as [days|] eqn:Hd.
    + unfold applyCustomer. rewrite submit_outcome by done.
      assert (accepted stores (Customer_Region c) (Customer_ClientID c) (Statements days) = due stores c) as Hdue by (unfold due; by rewrite Hd).
      rewrite Hdue. assert (length (due stores c) <= 7)%nat as Hlen.
      { unfold due. rewrite Hd. unfold accepted. rewrite length_fmap. etrans; [apply length_filter|]. done. }
      assert (customers ≫= due_entry (after_mutations now (due stores c) stores) = customers ≫= due_entry stores) as Hent.
      { clear. induction customers as [|x l IH]; [done|]. cbn [mbind list_bind]. f_equal; [|exact IH]. unfold due_entry. by rewrite due_after. }
      assert (customers ≫= due (after_mutations now (due stores c) stores) = customers ≫= due stores) as Hdues.
      { clear. induction customers as [|x l IH]; [done|]. cbn [mbind list_bind]. f_equal; [|exact IH]. apply due_after. }
      unfold due_entry at 1. rewrite Hd. cbv zeta. rewrite !Z.add_0_l. destruct (Z.eqb_spec (Z.of_nat (length (due stores c))) 0) as [Hz|Hz].
      * rewrite IH by (by apply served_after). by rewrite Hent, Hdues.
      * rewrite IH by (by apply served_after). rewrite Hent, Hdues. do 2 f_equal. unfold set_audit; simpl. f_equal.
        unfold audit_write. rewrite fmap_cons. simpl. rewrite <- app_assoc. simpl. do 3 f_equal. unfold apply_entry. do 4 f_equal.
        f_equal. f_equal. f_equal. simpl length. lia.
    + rewrite IH by done. unfold due, due_entry. rewrite Hd. simpl. by rewrite after_nil.
Qed.
End outcome.

(** ** What a sweep and a purge remove *)

(** The statement that speaks of a table. *)
Lemma existsb_statement (g : string * string -> option (string * Z)) (acc : statement -> bool) now tenant table c t col l :
  NoDup l.*1 -> (table, c) ∈ l ->
  existsb (fun s => acc s && doomed now s tenant table t col) ((fun p => MkStatement p.1 (g p)) <$> l)
  = acc (MkStatement table (g (table, c))) && doomed now (MkStatement table (g (table, c))) tenant table t col.
Proof.
  induction l as [|p l IH]; intros Hnd Hin; [by apply not_elem_of_nil in Hin|]. rewrite fmap_cons in Hnd. apply NoDup_cons in Hnd as [Hp Hnd].
  rewrite fmap_cons. cbn [existsb]. apply elem_of_cons in Hin as [<-|Hin].
  - simpl in Hp. assert (existsb (fun s => acc s && doomed now s tenant table t col) ((fun p => MkStatement p.1 (g p)) <$> l) = false) as ->; [|by rewrite orb_false_r].
    apply not_true_is_false. intros (s & Hs & He)%existsb_exists. apply list_elem_of_In, list_elem_of_fmap in Hs as (q & -> & Hq).
    apply andb_true_iff in He as [_ He]. unfold doomed in He. simpl in He. rewrite bool_decide_false in He; [done|].
    intros ->. apply Hp. apply list_elem_of_fmap. by exists q.
  - rewrite IH by done. unfold doomed at 1. simpl. rewrite bool_decide_false; [by rewrite andb_false_r|].
    intros Heq. apply Hp. rewrite <- Heq. apply list_elem_of_fmap. by exists (table, c).
Qed.

Lemma tables_nodup : NoDup tables.*1.
Proof. apply (bool_decide_unpack _). vm_compute. reflexivity. Qed.

Definition metric_tables : list string := list_difference tables.*1 ["otel_logs"; "otel_traces"].

Lemma metric_table_col table : table ∈ metric_tables -> (table, "TimeUnix") ∈ tables.
Proof.
  assert (Forall (fun t => (t, "TimeUnix") ∈ tables) metric_tables) as H by (apply (bool_decide_unpack _); vm_compute; reflexivity).
  intros Ht. by apply (proj1 (Forall_forall _ _) H).
Qed.

Definition metrics_wf (stores : Registry clickhouse) : Prop :=
  forall server ch m, reg_ch stores !! server = Some ch -> m ∈ otel_metrics ch -> om_table m ∈ metric_tables.

Section removed.
Context (uuid_string : N -> string) (accepts : string -> string -> statement -> bool) (now : Z) (d : DB) (stores : Registry clickhouse).

Lemma existsb_accepted server v region tenant stmts :
  existsb (hits now server v) (accepted accepts stores region tenant stmts)
  = bool_decide (server_of stores region = server)
    && existsb (fun s => accepts region tenant s && doomed now s tenant v.1.1 v.1.2 v.2) stmts.
Proof using Type.
  induction stmts as [|s stmts IH]; [by rewrite andb_false_r|]. rewrite accepted_cons, existsb_app, IH, accepted_one. cbn [existsb].
  destruct (accepts region tenant s); simpl; unfold hits; simpl; [|done]. by rewrite orb_false_r, andb_orb_distrib_r.
Qed.

Lemma existsb_bind {A B} (f : A -> list B) (p : B -> bool) l : existsb p (l ≫= f) = existsb (fun x => existsb p (f x)) l.
Proof using Type. induction l as [|x l IH]; [done|]. cbn [mbind list_bind existsb]. by rewrite existsb_app, IH. Qed.

Lemma existsb_ext' {A} (p q : A -> bool) l : (forall x, p x = q x) -> existsb p l = existsb q l.
Proof using Type. intros H. induction l as [|x l IH]; [done|]. simpl. by rewrite H, IH. Qed.

(** A row of a table, given its tenant and the value of the table's time column,
    is past the retention of an active customer served by [server]. *)
Definition overdue (server table column t : string) (time : Z) : bool :=
  existsb (fun c =>
    match Customer_RetentionDays c with
    | None => false
    | Some days =>
        bool_decide (server_of stores (Customer_Region c) = server)
        && (accepts (Customer_Region c) (Customer_ClientID c) (MkStatement table (Some (column, days)))
            && (bool_decide (t = Customer_ClientID c) && (time <? cutoff now days)%Z))
    end) (pg_ListCustomers (Some CustomerActive) d).

Lemma overdue_spared server table column t col time : (table, column) ∈ tables -> col column = Some time ->
  spared now server (pg_ListCustomers (Some CustomerActive) d ≫= due accepts stores) (table, t, col) = negb (overdue server table column t time).
Proof using Type.
  intros Htable Hcol. unfold spared, overdue. f_equal. rewrite existsb_bind. apply existsb_ext'. intros c. unfold due.
  destruct (Customer_RetentionDays c) as [days|]; [|done]. rewrite existsb_accepted. f_equal. cbn [fst snd]. unfold Statements.
  rewrite (existsb_statement (fun p => Some (p.2, days)) _ _ _ _ column) by (apply tables_nodup || done). f_equal. unfold doomed. simpl.
  by rewrite bool_decide_true, Hcol.
Qed.

(** The usage rollup is not among the swept tables. *)
Lemma counts_spared server t col : spared now server (pg_ListCustomers (Some CustomerActive) d ≫= due accepts stores) ("ingest_counts_1m", t, col) = true.
Proof using Type.
  unfold spared. apply negb_true_iff, not_true_is_false. intros (m & Hm & Hhit)%existsb_exists.
  apply list_elem_of_In, list_elem_of_bind in Hm as (c & Hm & _). unfold due in Hm. destruct (Customer_RetentionDays c) as [days|]; [|by apply not_elem_of_nil in Hm].
  apply list_elem_of_fmap in Hm as (s & -> & Hs). apply list_elem_of_filter in Hs as [_ Hs]. unfold hits, doomed in Hhit. simpl in Hhit.
  rewrite (bool_decide_false ("ingest_counts_1m" = st_table s)) in Hhit; [by rewrite andb_false_r in Hhit|]. intros Heq.
  assert (Forall (fun s => st_table s <> "ingest_counts_1m") (Statements days)) as HF.
  { unfold Statements. apply Forall_fmap. unfold compose. simpl. apply (bool_decide_unpack (Forall (fun p : string * string => p.1 <> "ingest_counts_1m") tables)). vm_compute. reflexivity. }
  by apply (proj1 (Forall_forall _ _) HF s Hs).
Qed.

(** A row of a table is one a purge of [client] in [region] removes. *)
Definition purged (region client server table t : string) : bool :=
  bool_decide (server_of stores region = server) && (accepts region client (MkStatement table None) && bool_decide (t = client)).

Lemma purged_spared region client server table t col : table ∈ tables.*1 \/ table = "ingest_counts_1m" ->
  spared now server (accepted accepts stores region client PurgeStatements) (table, t, col) = negb (purged region client server table t).
Proof using Type.
  intros Htable. unfold spared, purged. f_equal. rewrite existsb_accepted. f_equal. cbn [fst snd].
  change PurgeStatements with ((fun p => MkStatement p.1 ((fun _ => None) p)) <$> (tables ++ [("ingest_counts_1m", "")])%list).
  assert (exists c, (table, c) ∈ (tables ++ [("ingest_counts_1m", "")])%list) as [c Hc].
  { destruct Htable as [([table' c] & -> & Hin)%list_elem_of_fmap| ->]; [exists c|exists ""]; rewrite elem_of_app, list_elem_of_singleton; auto. }
  rewrite (existsb_statement (fun _ => None) _ _ _ _ c); [|apply (bool_decide_unpack _); vm_compute; reflexivity|done]. f_equal.
  unfold doomed. simpl. by rewrite bool_decide_true, andb_true_r.
Qed.
End removed.

(** The rows of a server after a sweep or a purge. *)
Definition rows_where (logs : otel_log -> bool) (spans : otel_span -> bool) (metrics : otel_metric -> bool) (counts : count_row -> bool) (ch ch' : clickhouse) : Prop :=
  otel_logs ch' = filter (fun l => logs l = false) (otel_logs ch) /\ otel_traces ch' = filter (fun s => spans s = false) (otel_traces ch) /\
  otel_metrics ch' = filter (fun m => metrics m = false) (otel_metrics ch) /\ ingest_counts_1m ch' = filter (fun r => counts r = false) (ingest_counts_1m ch).

Lemma rows_where_retain keep logs spans metrics counts ch :
  (forall l, keep (log_view l) = negb (logs l)) -> (forall s, keep (span_view s) = negb (spans s)) ->
  (forall m, m ∈ otel_metrics ch -> keep (metric_view m) = negb (metrics m)) -> (forall r, keep (count_view r) = negb (counts r)) ->
  rows_where logs spans metrics counts ch (retain keep ch).
Proof.
  intros H1 H2 H3 H4. unfold rows_where, retain; simpl. split_and!.
  1,2,4: apply list_filter_iff; intros x; rewrite ?H1, ?H2, ?H4; apply negb_true_iff.
  assert (forall l : list otel_metric, (forall m, m ∈ l -> keep (metric_view m) = negb (metrics m)) ->
    filter (fun m => keep (metric_view m) = true) l = filter (fun m => metrics m = false) l) as H; [|by apply H].
  clear. induction l as [|m l IH]; intros H; [done|]. rewrite !filter_cons, IH by (intros; apply H; by right).
  rewrite H by left. destruct (metrics m); [by rewrite !decide_False|by rewrite !decide_True].
Qed.

(** C34: a retention sweep removes, on every region's server, exactly the rows
    that are older than the retention of the active customer they belong to
    (of the tables whose mutation the server accepted) and leaves every other
    row, the usage rollup and the other tables of the control plane alone; it
    records what it submitted for each customer. *)
Theorem retention_sweep uuid_string accepts now d stores : served stores -> metrics_wf stores ->
  exists stores', RunOnce uuid_string accepts now d stores
    = Some (set_audit (fun l => audit_write l (pg_ListCustomers (Some CustomerActive) d ≫= due_entry uuid_string accepts stores)) d, stores') /\
  reg_vm stores' = reg_vm stores /\ reg_deflt stores' = reg_deflt stores /\
  forall server ch, reg_ch stores !! server = Some ch -> exists ch', reg_ch stores' !! server = Some ch' /\
    rows_where (fun l => overdue accepts now d stores server "otel_logs" "TimestampTime" (ol_TenantId l) (to_seconds (ol_Timestamp l)))
               (fun s => overdue accepts now d stores server "otel_traces" "Timestamp" (os_TenantId s) (os_Timestamp s))
               (fun m => overdue accepts now d stores server (om_table m) "TimeUnix" (om_TenantId m) (om_TimeUnix m))
               (fun _ => false) ch ch'.
Proof.
  intros Hs Hm. unfold RunOnce. rewrite sweep_outcome by done. eexists. split; [reflexivity|]. split_and!; [done..|]. intros server ch Hch.
  rewrite after_lookup, Hch. eexists. split; [done|]. apply rows_where_retain.
  - intros l. apply overdue_spared; [|done]. by left.
  - intros s. apply overdue_spared; [|done]. right. by left.
  - intros m Hin. apply overdue_spared; [|done]. eapply metric_table_col, Hm; done.
  - intros r. apply counts_spared.
Qed.

(** C12: deleting a customer with the purge switched on erases the rows of its
    client id from every table of its region's server that accepts the
    mutation, the usage rollup included, and no row of anyone else; a refused
    deletion, or one with the purge switched off, erases nothing. *)
Theorem deletion_erases uuid_string accepts now purge_on_delete actor id d stores : served stores -> metrics_wf stores ->
  exists r d' stores', delete_and_purge uuid_string accepts now purge_on_delete actor id d stores = Some (r, d', stores') /\
  match r with
  | Ok _ => exists c, t_customers d !! id = Some c /\
      if purge_on_delete then
        forall server ch, reg_ch stores !! server = Some ch -> exists ch', reg_ch stores' !! server = Some ch' /\
          let erased := purged accepts stores (Customer_Region c) (Customer_ClientID c) server in
          rows_where (fun l => erased "otel_logs" (ol_TenantId l)) (fun s => erased "otel_traces" (os_TenantId s))
                     (fun m => erased (om_table m) (om_TenantId m)) (fun k => erased "ingest_counts_1m" (ic_TenantId k)) ch ch'
      else stores' = stores
  | Err _ => d' = d /\ stores' = stores
  end.
Proof.
  intros Hs Hm. unfold delete_and_purge, DeleteCustomer. destruct (pg_GetCustomer id d) as [c|e] eqn:Hc; [|by eexists _, _, _].
  apply pg_GetCustomer_Ok in Hc as [Hc _]. destruct (pg_SoftDeleteCustomer _ _ _ d) as [[[]|e] d'] eqn:Hd.
  - destruct purge_on_delete; simpl; [|eexists _, _, _; split; [done|]; by exists c]. unfold PurgeCustomer.
    destruct (served_ClickHouse _ (Customer_Region c) Hs) as (ch0 & Hch0 & _). rewrite Hch0, submit_outcome by done. simpl.
    eexists _, _, _. split; [reflexivity|]. exists c. split; [done|]. intros server ch Hch. rewrite after_lookup, Hch. eexists. split; [done|].
    apply rows_where_retain.
    + intros l. apply purged_spared. left. apply (bool_decide_unpack _). vm_compute. reflexivity.
    + intros s. apply purged_spared. left. apply (bool_decide_unpack _). vm_compute. reflexivity.
    + intros m Hin. apply purged_spared. left. eapply list_elem_of_fmap. eexists (_, _). split; [|eapply metric_table_col, Hm; done]. done.
    + intros k. apply purged_spared. by right.
  - eexists _, _, _. split; [reflexivity|]. apply inTx_Err in Hd as ->. done.
Qed.

(** ** Examples *)

Definition ex_uuid (n : N) : string := itoa (Z.of_N n).
Definition ex_accepts (_ _ : string) (_ : statement) : bool := true.
Definition ex_now : Z := (30 * (24 * hour))%Z.
Definition ex_count_row (t : string) : count_row := MkCountRow t "logs" (40 * (24 * hour)) 1 1.
Definition ex_old_stores : Registry clickhouse :=
  MkRegistry {[ "eu" := MkClickHouse [ex_log "cust_1" (22 * (24 * hour)) "old"; ex_log "cust_1" (23 * (24 * hour)) "new"; ex_log "cust_2" 0 "other"]
                          [] [MkOtelMetric "otel_metrics_sum" 0 (ex_resource "cust_1")] [ex_count_row "cust_1"; ex_count_row "cust_2"] ]} ∅ "eu".

Lemma ex_old_stores_ok : served ex_old_stores /\ metrics_wf ex_old_stores.
Proof.
  split; [by eexists|]. intros server ch m Hch Hm. unfold ex_old_stores in Hch. cbn [reg_ch] in Hch. apply lookup_singleton_Some in Hch as [<- <-]. apply list_elem_of_singleton in Hm as ->.
  apply (bool_decide_unpack _). vm_compute. reflexivity.
Qed.

Definition ex_left (o : option (Registry clickhouse)) : option (list string * nat * nat) :=
  stores ← o; ch ← reg_ch stores !! "eu"; Some (ol_Body <$> otel_logs ch, length (otel_metrics ch), length (ingest_counts_1m ch)).

Lemma retention_sweep_witness : exists stores',
  RunOnce ex_uuid ex_accepts ex_now ex_tenants_db ex_old_stores
    = Some (set_audit (fun l => audit_write l (pg_ListCustomers (Some CustomerActive) ex_tenants_db ≫= due_entry ex_uuid ex_accepts ex_old_stores)) ex_tenants_db, stores')
  /\ ex_left (Some stores') = Some (["new"; "other"], 0, 2)%nat.
Proof.
  destruct (retention_sweep ex_uuid ex_accepts ex_now ex_tenants_db ex_old_stores (proj1 ex_old_stores_ok) (proj2 ex_old_stores_ok)) as (stores' & Hrun & _).
  exists stores'. split; [exact Hrun|]. assert (ex_left (snd <$> RunOnce ex_uuid ex_accepts ex_now ex_tenants_db ex_old_stores) = Some (["new"; "other"], 0, 2)%nat) as H by (vm_compute; reflexivity).
  by rewrite Hrun in H.
Defined.

Lemma deletion_erases_witness : exists r d' stores',
  delete_and_purge ex_uuid ex_accepts ex_now true None 1 ex_tenants_db ex_old_stores = Some (r, d', stores') /\ ex_left (Some stores') = Some (["other"], 0, 1)%nat.
Proof.
  destruct (deletion_erases ex_uuid ex_accepts ex_now true None 1 ex_tenants_db ex_old_stores (proj1 ex_old_stores_ok) (proj2 ex_old_stores_ok)) as (r & d' & stores' & Hrun & _).
  exists r, d', stores'. split; [exact Hrun|].
  assert (ex_left (snd <$> delete_and_purge ex_uuid ex_accepts ex_now true None 1 ex_tenants_db ex_old_stores) = Some (["other"], 0, 1)%nat) as H by (vm_compute; reflexivity).
  by rewrite Hrun in H.
Defined.

Example statement_texts :
  sql <$> [MkStatement "otel_logs" (Some ("TimestampTime", 7%Z)); MkStatement "otel_logs" None] =
  ["ALTER TABLE otel.otel_logs DELETE WHERE TenantId = ? AND TimestampTime < now() - INTERVAL 7 DAY SETTINGS mutations_sync = 0";
   "ALTER TABLE otel.otel_logs DELETE WHERE TenantId = ? SETTINGS mutations_sync = 0"].
Proof. reflexivity. Qed.

(** The rows of a suspended customer are kept past its retention. *)
Example suspended_rows_kept :
  let d := set_customers (fun m => <[1%N := MkCustomer 1 "acme-eu" "cust_1" "cust_1" CustomerSuspended "eu" None (Some 7%Z) 0 0]> m) ex_tenants_db in
  ex_left (snd <$> RunOnce ex_uuid ex_accepts ex_now d ex_old_stores) = ex_left (Some ex_old_stores).
Proof. vm_compute. reflexivity. Qed.

(** A gateway goes on accepting a cached key after the deletion, so that rows
    arrive once the purge is over, and stay. *)
Definition ingest (server : string) (l : otel_log) (stores : Registry clickhouse) : Registry clickhouse :=
  match reg_ch stores !! server with
  | Some ch => set_server server (MkClickHouse (l :: otel_logs ch) (otel_traces ch) (otel_metrics ch) (ingest_counts_1m ch)) stores
  | None => stores
  end.

Example rows_after_erasure :
  let d := set_customers (fun _ => {[ 1%N := ex_customer 1 "acme" "eu" None ]}) empty_db in
  let bodies o := stores ← o; ch ← reg_ch stores !! "eu"; Some (ol_Body <$> filter (fun l => ol_TenantId l = "acme") (otel_logs ch)) in
  let stores := snd <$> delete_and_purge ex_uuid ex_accepts (5 * second) true None 1 d (ex_stores [ex_log "acme" second "before"] []) in
  let later := match res_verdict (ex_call ex_reject (10 * second) ex_gateway).1 with
               | Ok a => ingest "eu" (ex_log (tenantID a) (10 * second) "after") <$> stores
               | Err _ => stores
               end in
  bodies stores = Some [] /\ bodies later = Some ["after"].
Proof. split; vm_compute; reflexivity. Qed.
