(* ===== verification/Leader.v ===== *)
(** Leader election (internal/leader/leader.go): replicas contest a PostgreSQL
    session-level advisory lock, and the one whose session holds it runs the
    worker.

    A world is the lock, the sessions that have died and what each replica is
    doing, with the clock; events change it, and [run] is a list of them.  How
    long a ping of a broken connection takes to fail and how long a cancelled
    worker takes to return are parameters. *)
From S2P Require Import Prelude GoStrings.
From Stdlib Require Import Ascii.

Open Scope string_scope.
Open Scope Z_scope.

(** ** Keys *)

Definition fnv_offset : Z := 14695981039346656037.
Definition fnv_prime : Z := 1099511628211.

(** FNV-64a *)
Definition fnv64a (s : string) : Z :=
  foldl (fun h c => (Z.lxor h (byte_val c) * fnv_prime) mod 2 ^ 64) fnv_offset (bytes_of s).

Definition Key (name : string) : Z := wrap64 (fnv64a ("otel-fleet:leader:" +:+ name)).

(** ** Replicas *)

Definition retryInterval : Z := 10 * second.
Definition pollInterval : Z := 5 * second.

(** What a replica's elector is doing, with the instant by which it moves on:
    between two campaigns; running the worker, until the result of the next
    ping is known; waiting for the cancelled worker to return, after which the
    elector campaigns again, or ends when its own context was cancelled. *)
Inductive phase : Type :=
| Waiting (since next_try : Z)
| Leading (session : N) (deadline : Z)
| Stopping (session : N) (since : Z) (ending : bool).

Record world : Type := MkWorld {
  clock : Z;
  lock : option N;
  died : gmap N Z;
  free_since : Z;
  phases : gmap N phase
}.

Inductive event : Type :=
(** time passes *)
| Tick (t : Z)
(** [Run] starts *)
| Join (r : N)
(** a campaign on a session of the pool *)
| Campaign (r session : N)
(** a campaign that fails before the lock is tried *)
| CampaignError (r : N)
(** the leader's ping *)
| Ping (r : N)
(** the elector's context is cancelled *)
| Cancel (r : N)
(** the worker returns, on its own or because it was cancelled *)
| Return (r : N)
| SessionDies (session : N)
(** the process of a replica is gone, and its session *)
| Crash (r : N).

Section election.
Context (ping_max grace : Z) (faulty : bool).

(** Until the result of a ping is known. *)
Definition poll_limit : Z := pollInterval + ping_max.

Definition phase_limit (p : phase) : Z :=
  match p with Waiting _ t => t | Leading _ t => t | Stopping _ t _ => t + grace end.

Definition session_of (p : phase) : option N :=
  match p with Waiting _ _ => None | Leading s _ | Stopping s _ _ => Some s end.

Definition in_use (w : world) (s : N) : bool := existsb (fun x => bool_decide (session_of x.2 = Some s)) (map_to_list (phases w)).

Definition set_phase (r : N) (p : phase) (w : world) : world :=
  MkWorld (clock w) (lock w) (died w) (free_since w) (<[r := p]> (phases w)).

(** The session gives the lock back. *)
Definition unlock (s : N) (w : world) : world :=
  if bool_decide (lock w = Some s) then MkWorld (clock w) None (died w) (clock w) (phases w) else w.

Definition kill (s : N) (w : world) : world :=
  let w := unlock s w in MkWorld (clock w) (lock w) (<[s := clock w]> (died w)) (free_since w) (phases w).

Definition rest (r : N) (since : Z) (w : world) : world := set_phase r (Waiting since (clock w + retryInterval)) w.

Definition leave (r : N) (w : world) : world :=
  MkWorld (clock w) (lock w) (died w) (free_since w) (delete r (phases w)).

Definition fire (e : event) (w : world) : option world :=
  match e with
  | Tick t =>
      if (clock w <=? t) && forallb (fun x => t <=? phase_limit x.2) (map_to_list (phases w))
      then Some (MkWorld t (lock w) (died w) (free_since w) (phases w)) else None
  | Join r =>
      match phases w !! r with None => Some (set_phase r (Waiting (clock w) (clock w)) w) | Some _ => None end
  | Campaign r s =>
      match phases w !! r with
      | Some (Waiting since t) =>
          if (t <=? clock w) && bool_decide (died w !! s = None) && negb (in_use w s) then
            match lock w with
            | None => Some (set_phase r (Leading s (clock w + poll_limit)) (MkWorld (clock w) (Some s) (died w) (free_since w) (phases w)))
            | Some _ => Some (rest r since w)
            end
          else None
      | _ => None
      end
  | CampaignError r =>
      match phases w !! r with
      | Some (Waiting since t) => if faulty && (t <=? clock w) then Some (rest r since w) else None
      | _ => None
      end
  | Ping r =>
      match phases w !! r with
      | Some (Leading s _) =>
          match died w !! s with
          | None => Some (set_phase r (Leading s (clock w + poll_limit)) w)
          | Some _ => Some (set_phase r (Stopping s (clock w) false) w)
          end
      | _ => None
      end
  | Cancel r =>
      match phases w !! r with
      | Some (Waiting _ _) => Some (leave r w)
      | Some (Leading s _) => Some (set_phase r (Stopping s (clock w) true) w)
      | Some (Stopping s t _) => Some (set_phase r (Stopping s t true) w)
      | None => None
      end
  | Return r =>
      match phases w !! r with
      | Some (Leading s _) | Some (Stopping s _ false) => Some (rest r (clock w) (unlock s w))
      | Some (Stopping s _ true) => Some (leave r (unlock s w))
      | _ => None
      end
  | SessionDies s => match died w !! s with None => Some (kill s w) | Some _ => None end
  | Crash r =>
      match phases w !! r with
      | Some p =>
          let w := match session_of p with
                   | Some s => match died w !! s with None => kill s w | Some _ => w end
                   | None => w
                   end in
          Some (leave r w)
      | None => None
      end
  end.

Fixpoint run (es : list event) (w : world) : option world :=
  match es with [] => Some w | e :: es => match fire e w with Some w => run es w | None => None end end.

Definition init (t : Z) : world := MkWorld t None ∅ t ∅.

(** The worker runs on the replica. *)
Definition working (w : world) (r s : N) : Prop := exists p, phases w !! r = Some p /\ session_of p = Some s.
End election.

(** ** The invariant *)

Section invariant.
Context (ping_max grace : Z) (faulty : bool).
Hypothesis Hping : 0 <= ping_max.
Hypothesis Hgrace : 0 <= grace.

Definition phase_ok (w : world) (p : phase) : Prop :=
  match p with
  | Waiting since t => since <= clock w <= t /\ t <= clock w + retryInterval /\
      (faulty = false -> lock w = None -> t <= Z.max (free_since w) since + retryInterval)
  | Leading s t => clock w <= t <= clock w + poll_limit ping_max /\ forall d, died w !! s = Some d -> t <= d + poll_limit ping_max
  | Stopping s t _ => t <= clock w <= t + grace /\ forall d, died w !! s = Some d -> t <= d + poll_limit ping_max
  end.

Record winv (w : world) : Prop := {
  wi_free : free_since w <= clock w;
  wi_died : forall s d, died w !! s = Some d -> d <= clock w;
  wi_lock : forall s, lock w = Some s -> died w !! s = None /\ exists r, working w r s;
  wi_live : forall r s, working w r s -> died w !! s = None -> lock w = Some s;
  wi_own : forall r1 r2 s, working w r1 s -> working w r2 s -> r1 = r2;
  wi_phase : forall r p, phases w !! r = Some p -> phase_ok w p
}.

Lemma poll_limit_nonneg : 0 <= poll_limit ping_max.
Proof using Hping. unfold poll_limit, pollInterval, second. lia. Qed.

Lemma retry_nonneg : 0 <= retryInterval.
Proof using Type. done. Qed.

Lemma in_use_spec w s : in_use w s = false -> forall r, ~ working w r s.
Proof using Type.
  intros H r (p & Hp & Hs). apply not_true_iff_false in H. apply H, existsb_exists. exists (r, p). split; [|by apply bool_decide_eq_true].
  apply list_elem_of_In. by apply elem_of_map_to_list.
Qed.

Lemma working_insert w r p r' s : working (set_phase r p w) r' s <-> (r' = r /\ session_of p = Some s) \/ (r' <> r /\ working w r' s).
Proof using Type.
  unfold working, set_phase; simpl. destruct (decide (r' = r)) as [->|Hne].
  - rewrite lookup_insert_eq. naive_solver.
  - rewrite lookup_insert_ne by done. naive_solver.
Qed.

Lemma working_phases w w' r s : phases w' = phases w -> working w' r s <-> working w r s.
Proof using Type. unfold working. by intros ->. Qed.

Lemma set_phase_inv w r p : winv w -> (forall s, session_of p = Some s <-> working w r s) -> phase_ok w p -> winv (set_phase r p w).
Proof using Type.
  intros W Hsame Hp. assert (forall r' s, working (set_phase r p w) r' s <-> working w r' s) as Hw.
  { intros r' s. rewrite working_insert, Hsame. split; [naive_solver|]. intros H. destruct (decide (r' = r)) as [->|]; auto. }
  split; simpl.
  - apply W.
  - apply W.
  - intros s H. destruct (wi_lock _ W s H) as (? & r0 & ?). split; [done|]. exists r0. by apply Hw.
  - intros r0 s H. apply (wi_live _ W r0). by apply Hw.
  - intros r1 r2 s H1 H2. eapply (wi_own _ W); by apply Hw.
  - intros r0 p0. destruct (decide (r0 = r)) as [->|Hne].
    + rewrite lookup_insert_eq. by intros [= <-].
    + rewrite lookup_insert_ne by done. apply W.
Qed.

Lemma unlock_cases s w : (lock w = Some s /\ unlock s w = MkWorld (clock w) None (died w) (clock w) (phases w)) \/ (lock w <> Some s /\ unlock s w = w).
Proof using Type. unfold unlock. case_bool_decide; auto. Qed.

(** Phases stay in order when the lock is freed now, or not at all. *)
Lemma phase_ok_freed w p l f : phase_ok w p -> free_since w <= clock w -> (l = None -> lock w = None /\ f = free_since w \/ f = clock w) ->
  phase_ok (MkWorld (clock w) l (died w) f (phases w)) p.
Proof using Type.
  destruct p as [since t|s t|s t b]; [|done..]. simpl. intros (? & ? & H) ? Hl. split_and!; [lia..|]. intros Hf ->.
  destruct (Hl eq_refl) as [[Hn ->]| ->]; [by apply H|lia].
Qed.

Lemma kill_inv w s : winv w -> died w !! s = None -> winv (kill s w).
Proof using Hping.
  intros W Hs. pose proof poll_limit_nonneg as HP. unfold kill.
  assert (lock (unlock s w) = Some s -> False) as Hno by (destruct (unlock_cases s w) as [[? ->]|[? ->]]; done).
  assert (forall s', lock (unlock s w) = Some s' <-> lock w = Some s' /\ s' <> s) as Hlock.
  { intros s'. destruct (unlock_cases s w) as [[Hl ->]|[Hl ->]]; simpl; [|naive_solver]. split; [done|]. rewrite Hl. naive_solver. }
  assert (clock (unlock s w) = clock w /\ died (unlock s w) = died w /\ phases (unlock s w) = phases w) as (Hc & Hd & Hp).
  { destruct (unlock_cases s w) as [[? ->]|[? ->]]; done. }
  assert (free_since (unlock s w) <= clock w) as Hfree. { destruct (unlock_cases s w) as [[? ->]|[? ->]]; simpl; [lia|apply W]. }
  split; simpl; rewrite ?Hc, ?Hd, ?Hp.
  - done.
  - intros s' d. destruct (decide (s' = s)) as [->|]; [rewrite lookup_insert_eq; intros [= <-]; lia|rewrite lookup_insert_ne by done; apply W].
  - intros s' [Hl Hne]%Hlock. rewrite lookup_insert_ne by done. destruct (wi_lock _ W s' Hl) as (? & r & Hr). split; [done|].
    exists r. eapply working_phases; [|exact Hr]. done.
  - intros r s' Hr Hd'. destruct (decide (s' = s)) as [->|Hne]; [by rewrite lookup_insert_eq in Hd'|]. rewrite lookup_insert_ne in Hd' by done.
    apply Hlock. split; [|done]. apply (wi_live _ W r); [|done]. eapply working_phases; [|exact Hr]. done.
  - intros r1 r2 s' H1 H2. eapply (wi_own _ W); (eapply working_phases; [|eassumption]); done.
  - intros r p Hr. pose proof (wi_phase _ W r p Hr) as Hok.
    assert (phase_ok (MkWorld (clock w) (lock (unlock s w)) (died w) (free_since (unlock s w)) (phases w)) p) as Hok'.
    { apply phase_ok_freed; [done|apply W|]. destruct (unlock_cases s w) as [[? ->]|[? ->]]; simpl; auto. }
    destruct p as [since t|s0 t|s0 t b]; simpl in *; [done| |].
    + destruct Hok as [? Hold]. split; [done|]. intros d. destruct (decide (s0 = s)) as [->|]; [rewrite lookup_insert_eq; intros [= <-]; lia|].
      rewrite lookup_insert_ne by done. apply Hold.
    + destruct Hok as [? Hold]. split; [done|]. intros d. destruct (decide (s0 = s)) as [->|]; [rewrite lookup_insert_eq; intros [= <-]; lia|].
      rewrite lookup_insert_ne by done. apply Hold.
Qed.

Lemma return_inv w r s : winv w -> working w r s -> winv (rest r (clock w) (unlock s w)).
Proof using Type.
  intros W Hr. assert (forall s', lock (unlock s w) = Some s' <-> lock w = Some s' /\ s' <> s) as Hlock.
  { intros s'. destruct (unlock_cases s w) as [[Hl ->]|[Hl ->]]; simpl; [|naive_solver]. split; [done|]. rewrite Hl. naive_solver. }
  assert (clock (unlock s w) = clock w /\ died (unlock s w) = died w /\ phases (unlock s w) = phases w) as (Hc & Hd & Hp).
  { destruct (unlock_cases s w) as [[? ->]|[? ->]]; done. }
  assert (free_since (unlock s w) <= clock w) as Hfree. { destruct (unlock_cases s w) as [[? ->]|[? ->]]; simpl; [lia|apply W]. }
  assert (forall r' s', working (rest r (clock w) (unlock s w)) r' s' <-> r' <> r /\ working w r' s') as Hw.
  { intros r' s'. unfold rest. rewrite working_insert. rewrite (working_phases w) by done. simpl. naive_solver. }
  split; try (intros *; rewrite ?Hw); simpl; rewrite ?Hc, ?Hd.
  - done.
  - apply W.
  - intros [Hl Hne]%Hlock. destruct (wi_lock _ W _ Hl) as (? & r0 & Hr0). split; [done|]. exists r0. apply Hw. split; [|done].
    intros ->. apply Hne. destruct Hr as (p1 & Hp1 & Hs1), Hr0 as (p2 & Hp2 & Hs2). congruence.
  - intros [Hne Hr0] Hd0. apply Hlock. split; [by eapply (wi_live _ W)|]. intros ->. by destruct (wi_own _ W _ _ _ Hr Hr0).
  - intros [_ H1] [_ H2]. by eapply (wi_own _ W).
  - rewrite Hp. destruct (decide (r0 = r)) as [->|Hne].
    + rewrite lookup_insert_eq. intros [= <-]. simpl. rewrite Hc. pose proof retry_nonneg. split_and!; lia.
    + rewrite lookup_insert_ne by done. intros Hr0. pose proof (wi_phase _ W _ _ Hr0) as Hok.
      assert (phase_ok (MkWorld (clock w) (lock (unlock s w)) (died w) (free_since (unlock s w)) (phases w)) p) as Hok'.
      { apply phase_ok_freed; [done|apply W|]. destruct (unlock_cases s w) as [[? ->]|[? ->]]; simpl; auto. }
      revert Hok'. destruct p; simpl; by rewrite ?Hc, ?Hd.
Qed.

Lemma delete_inv w r : winv w -> (forall s, working w r s -> is_Some (died w !! s)) ->
  winv (leave r w).
Proof using Type.
  intros W Hr. unfold leave. set (w' := MkWorld _ _ _ _ _).
  assert (forall r' s, working w' r' s <-> r' <> r /\ working w r' s) as Hw.
  { intros r' s. unfold working; simpl. destruct (decide (r' = r)) as [->|]; [rewrite lookup_delete_eq; naive_solver|].
    rewrite lookup_delete_ne by done. naive_solver. }
  split; try (intros *; rewrite ?Hw); simpl.
  - apply W.
  - apply W.
  - intros Hl. destruct (wi_lock _ W _ Hl) as (Hd & r0 & Hr0). split; [done|]. exists r0. apply Hw. split; [|done]. intros ->.
    destruct (Hr _ Hr0) as [? Hd']. congruence.
  - intros [_ ?] ?. by eapply (wi_live _ W).
  - intros [_ ?] [_ ?]. by eapply (wi_own _ W).
  - intros [_ ?]%lookup_delete_Some. by apply (wi_phase _ W r0).
Qed.

Lemma leave_waiting_inv w r since t : winv w -> phases w !! r = Some (Waiting since t) -> winv (leave r w).
Proof using Type. intros W Hr. apply delete_inv; [done|]. intros s (p & Hp & Hs). rewrite Hr in Hp. by injection Hp as <-. Qed.

Lemma leave_inv w r s : winv w -> working w r s -> winv (leave r (unlock s w)).
Proof using Type.
  intros W Hr. replace (leave r (unlock s w)) with (leave r (rest r (clock w) (unlock s w))).
  - eapply leave_waiting_inv; [by apply return_inv|]. apply lookup_insert_eq.
  - unfold leave, rest, set_phase; simpl. f_equal. apply delete_insert_eq.
Qed.

(** The lock is free and [r] takes it on a session no one uses. *)
Lemma elect_inv w r s since t : winv w -> phases w !! r = Some (Waiting since t) -> lock w = None -> died w !! s = None -> in_use w s = false ->
  winv (set_phase r (Leading s (clock w + poll_limit ping_max)) (MkWorld (clock w) (Some s) (died w) (free_since w) (phases w))).
Proof using Hping.
  intros W Hr Hl Hs Hu. pose proof poll_limit_nonneg as HP. pose proof (in_use_spec _ _ Hu) as Hfree. set (w0 := MkWorld _ _ _ _ _).
  assert (forall r' s', working (set_phase r (Leading s (clock w + poll_limit ping_max)) w0) r' s' <->
    (r' = r /\ s' = s) \/ (r' <> r /\ working w r' s')) as Hw.
  { intros r' s'. rewrite working_insert. rewrite (working_phases w) by done. simpl. naive_solver. }
  split; try (intros *; rewrite ?Hw); simpl.
  - apply W.
  - apply W.
  - intros [= <-]. split; [done|]. exists r. apply Hw. by left.
  - intros [[-> ->]|[Hne H]] Hd; [done|]. rewrite (wi_live _ W _ _ H Hd) in Hl. done.
  - intros [[? ?]|[? H1]] [[? ?]|[? H2]]; subst; [done|by apply Hfree in H2|by apply Hfree in H1|by eapply (wi_own _ W)].
  - destruct (decide (r0 = r)) as [->|Hne].
    + rewrite lookup_insert_eq. intros [= <-]. simpl. split; [lia|]. intros d Hd. congruence.
    + rewrite lookup_insert_ne by done. intros H. pose proof (wi_phase _ W _ _ H) as Hok.
      assert (phase_ok w0 p) as Hok' by (apply phase_ok_freed; [done|apply W|done]). by destruct p.
Qed.

Lemma tick_inv w t : winv w -> (clock w <= t) -> (forall r p, phases w !! r = Some p -> t <= phase_limit grace p) ->
  winv (MkWorld t (lock w) (died w) (free_since w) (phases w)).
Proof using Type.
  intros W Ht Hlim. split; simpl; try apply W.
  - pose proof (wi_free _ W). lia.
  - intros s d Hd. pose proof (wi_died _ W s d Hd). lia.
  - intros r p Hr. pose proof (wi_phase _ W r p Hr) as Hok. specialize (Hlim r p Hr). destruct p; simpl in *; destruct Hok as [? Hold]; (split; [lia|]); [|done..].
    destruct Hold as [? Hold]. split; [lia|exact Hold].
Qed.

Lemma fire_inv e w w' : winv w -> fire ping_max grace faulty e w = Some w' -> winv w'.
Proof using Hping Hgrace.
  intros W. pose proof poll_limit_nonneg as HP. pose proof retry_nonneg as HR. destruct e as [t|r|r s|r|r|r|r|s|r]; simpl.
  - destruct (clock w <=? t) eqn:Ht; [|done]. destruct (forallb _ _) eqn:Hf; [|done]. simpl. intros [= <-]. apply tick_inv; [done|lia|].
    intros r p Hr. rewrite forallb_forall in Hf. specialize (Hf (r, p)). rewrite <- list_elem_of_In, elem_of_map_to_list in Hf. apply Hf in Hr. simpl in Hr. lia.
  - destruct (phases w !! r) eqn:Hr; [done|]. intros [= <-]. apply set_phase_inv; [done| |simpl; split_and!; lia].
    intros s. split; [done|]. intros (p & Hp & _). congruence.
  - destruct (phases w !! r) as [[since t| |]|] eqn:Hr; [|done..]. destruct (t <=? clock w) eqn:Ht; [|done]. case_bool_decide as Hs; [|done].
    destruct (in_use w s) eqn:Hu; [done|]. simpl. destruct (lock w) as [s'|] eqn:Hl; intros [= <-].
    + apply set_phase_inv; [done| |].
      * intros s0. split; [done|]. intros (p & Hp & ?). rewrite Hr in Hp. by injection Hp as <-.
      * pose proof (wi_phase _ W _ _ Hr) as Hok. simpl in *. split_and!; [lia..|congruence].
    + by eapply elect_inv.
  - destruct (phases w !! r) as [[since t| |]|] eqn:Hr; [|done..]. destruct faulty eqn:Hf; [|done]. simpl. destruct (t <=? clock w) eqn:Ht; [|done].
    intros [= <-]. apply set_phase_inv; [done| |].
    + intros s0. split; [done|]. intros (p & Hp & ?). rewrite Hr in Hp. by injection Hp as <-.
    + pose proof (wi_phase _ W _ _ Hr) as Hok. simpl in *. split_and!; [lia..|congruence].
  - destruct (phases w !! r) as [[|s t|]|] eqn:Hr; [done| |done..]. assert (forall s0, Some s = Some s0 <-> working w r s0) as Hsame.
    { intros s0. split; [intros [= <-]; by exists (Leading s t)|]. intros (p & Hp & ?). rewrite Hr in Hp. by injection Hp as <-. }
    pose proof (wi_phase _ W _ _ Hr) as [? Hok]. destruct (died w !! s) as [d|] eqn:Hd; intros [= <-]; apply set_phase_inv; [done|done| |done|done|]; simpl.
    + split; [lia|]. intros d' Hd'. specialize (Hok _ eq_refl). assert (d' = d) as -> by congruence. lia.
    + split; [lia|]. intros d' Hd'. congruence.
  - destruct (phases w !! r) as [[since t|s t|s t b]|] eqn:Hr; [| | |done]; intros [= <-]; pose proof (wi_phase _ W _ _ Hr) as [? Hok].
    + by eapply leave_waiting_inv.
    + apply set_phase_inv; [done| |].
      * intros s0. split; [intros [= <-]; by exists (Leading s t)|]. intros (p & Hp & ?). rewrite Hr in Hp. by injection Hp as <-.
      * simpl. split; [lia|]. intros d Hd. specialize (Hok _ Hd). lia.
    + apply set_phase_inv; [done| |done]. intros s0. split; [intros [= <-]; by exists (Stopping s t b)|]. intros (p & Hp & ?).
      rewrite Hr in Hp. by injection Hp as <-.
  - destruct (phases w !! r) as [[|s t|s t []]|] eqn:Hr; [done| | | |done]; intros [= <-]; (apply return_inv || apply leave_inv); try done; eexists; by split.
  - destruct (died w !! s) eqn:Hs; [done|]. intros [= <-]. by apply kill_inv.
  - destruct (phases w !! r) as [p|] eqn:Hr; [|done]. intros [= <-]. destruct (session_of p) as [s|] eqn:Hsp; [destruct (died w !! s) eqn:Hs|].
    + apply delete_inv; [done|]. intros s' (p' & Hp' & Hs'). assert (s' = s) as -> by congruence. by eexists.
    + assert (phases (kill s w) = phases w) as Hph by (unfold kill; destruct (unlock_cases s w) as [[? ->]|[? ->]]; done).
      apply (delete_inv (kill s w)); [by apply kill_inv|]. intros s' (p' & Hp' & Hs'). rewrite Hph in Hp'. assert (s' = s) as -> by congruence.
      unfold kill; simpl. rewrite lookup_insert_eq. by eexists.
    + apply delete_inv; [done|]. intros s' (p' & Hp' & Hs'). congruence.
Qed.

Lemma run_inv es : forall w w', winv w -> run ping_max grace faulty es w = Some w' -> winv w'.
Proof using Hping Hgrace.
  induction es as [|e es IH]; simpl; intros w w' W; [by intros [= <-]|]. destruct (fire _ _ _ e w) eqn:He; [|done]. eapply IH. by eapply fire_inv.
Qed.

Lemma init_inv t : winv (init t).
Proof using Type. split; simpl; try done; [intros r s (p & Hp & _); done|intros r1 r2 s (p & Hp & _); done]. Qed.
End invariant.

(** C23: the worker runs on at most one replica whose session is alive; when it
    runs on two, the session of one of them has died, no longer ago than the
    poll interval, the time a ping takes to fail and the time the cancelled
    worker takes to return.  When no campaign fails, the lock is not free for
    longer than the retry interval while a replica waits for it. *)
Theorem one_leader ping_max grace faulty es t0 w : 0 <= ping_max -> 0 <= grace -> run ping_max grace faulty es (init t0) = Some w ->
  (forall r1 s1 r2 s2, working w r1 s1 -> working w r2 s2 -> died w !! s1 = None -> died w !! s2 = None -> r1 = r2) /\
  (forall r1 s1 r2 s2, working w r1 s1 -> working w r2 s2 -> r1 <> r2 ->
     exists s d, (s = s1 \/ s = s2) /\ died w !! s = Some d /\ clock w <= d + pollInterval + ping_max + grace) /\
  (forall r since t, faulty = false -> lock w = None -> phases w !! r = Some (Waiting since t) -> clock w <= Z.max (free_since w) since + retryInterval).
Proof.
  intros Hp Hg Hrun. eapply run_inv in Hrun; [|done..|apply init_inv]. rename Hrun into W.
  assert (forall r1 s1 r2 s2, working w r1 s1 -> working w r2 s2 -> died w !! s1 = None -> died w !! s2 = None -> r1 = r2) as Hone.
  { intros r1 s1 r2 s2 H1 H2 D1 D2. pose proof (wi_live _ _ _ _ W _ _ H1 D1). pose proof (wi_live _ _ _ _ W _ _ H2 D2).
    assert (s1 = s2) as -> by congruence. by eapply (wi_own _ _ _ _ W). }
  assert (forall r s d, working w r s -> died w !! s = Some d -> clock w <= d + pollInterval + ping_max + grace) as Hbound.
  { intros r s d (p & Hr & Hs) Hd. pose proof (wi_phase _ _ _ _ W _ _ Hr) as Hok. destruct p; [done|injection Hs as ->..]; simpl in Hok;
      destruct Hok as [? Hok]; specialize (Hok _ Hd); unfold poll_limit in *; lia. }
  split_and!; [done| |].
  - intros r1 s1 r2 s2 H1 H2 Hne. destruct (died w !! s1) as [d|] eqn:D1; [exists s1, d; split_and!; [by left|done|exact (Hbound _ _ _ H1 D1)]|].
    destruct (died w !! s2) as [d|] eqn:D2; [exists s2, d; split_and!; [by right|done|exact (Hbound _ _ _ H2 D2)]|]. destruct Hne; exact (Hone _ _ _ _ H1 H2 D1 D2).
  - intros r since t Hf Hl Hr. pose proof (wi_phase _ _ _ _ W _ _ Hr) as (? & ? & Hok). specialize (Hok Hf Hl). lia.
Qed.

(** ** Examples *)

(** The leader of a dead session goes on working beside its successor. *)
Definition ex_two_workers : list event := [Join 1; Campaign 1 10; Tick second; SessionDies 10; Join 2; Campaign 2 20; Tick (4 * second)].

Lemma one_leader_witness : exists w, run second second false ex_two_workers (init 0) = Some w /\ clock w = 4 * second /\
  working w 1 10 /\ working w 2 20 /\ exists s d, (s = 10%N \/ s = 20%N) /\ died w !! s = Some d /\ clock w <= d + pollInterval + second + second.
Proof.
  destruct (run second second false ex_two_workers (init 0)) as [w|] eqn:E; [|vm_compute in E; discriminate].
  assert (second >= 0 /\ 0 <= second) as [_ Hs] by (unfold second; lia).
  destruct (one_leader second second false ex_two_workers 0 w Hs Hs E) as (_ & Hov & _). vm_compute in E. injection E as <-.
  eexists. split; [reflexivity|]. split; [done|].
  assert (working (MkWorld 4000000000 (Some 20%N) {[10%N := 1000000000]} 1000000000
    {[1%N := Leading 10 6000000000; 2%N := Leading 20 7000000000]}) 1 10) as H1 by (by eexists).
  assert (working (MkWorld 4000000000 (Some 20%N) {[10%N := 1000000000]} 1000000000
    {[1%N := Leading 10 6000000000; 2%N := Leading 20 7000000000]}) 2 20) as H2 by (by eexists).
  split_and!; [exact H1|exact H2|]. by apply (Hov 1%N 10%N 2%N 20%N).
Defined.

(** The two workers of main.go have different keys. *)
Example worker_keys_differ : Key "retention" <> Key "alerting".
Proof. vm_compute. discriminate. Qed.

(** FNV-64a of the empty string and of "a". *)
Example fnv_vectors : (fnv64a "", fnv64a "a") = (14695981039346656037, 12638187200555641996).
Proof. vm_compute. reflexivity. Qed.
