(* ===== verification/Fleetctl.v ===== *)
(** The command line client (cmd/otel-fleetctl): export of a fleet as a
    declarative spec and its reconciliation by apply.

    The management API is an interface, a class of calls on a remote state;
    whatever implements it may fail any call.  Reading and writing the YAML file
    is the library's: a spec is the decoded value, in which an absent list or
    map is nil ([None]). *)
From S2P Require Import Prelude GoStrings Json GoFormat StoreTypes Render Telemetry.
From Stdlib Require Import Ascii.

Open Scope string_scope.

(** ** Shapes *)

Record GraphNode : Type := MkGraphNode {
  gn_Type : string;
  gn_Name : option string;
  gn_Config : option (list (string * jval))
}.

Record PipelineGraph : Type := MkPipelineGraph {
  pg_Signals : option (list string);
  pg_Processors : option (list GraphNode);
  pg_Exporters : option (list GraphNode)
}.

Record Customer : Type := MkCliCustomer {
  cc_ID : string;
  cc_Slug : string;
  cc_Name : string;
  cc_Status : string;
  cc_RateLimitItemsPerSec : option Z;
  cc_RetentionDays : option Z
}.

Record Pipeline : Type := MkCliPipeline {
  cp_ID : string;
  cp_Name : string;
  cp_TargetClass : string;
  cp_ActiveVersion : option Z;
  cp_LatestVersion : option Z
}.

Record PipelineVersion : Type := MkCliVersion { cv_Version : Z; cv_Graph : PipelineGraph }.

Record PipelineSpec : Type := MkPipelineSpec { ps_Name : string; ps_TargetClass : string; ps_Graph : PipelineGraph }.

Record CustomerSpec : Type := MkCustomerSpec {
  cs_Name : string;
  cs_Slug : string;
  cs_RateLimitItemsPerSec : option Z;
  cs_RetentionDays : option Z;
  cs_Pipelines : list PipelineSpec
}.

(** The body of a PATCH: what it sets, where [Some None] is a null. *)
Record patch : Type := MkPatch {
  pa_name : option string;
  pa_rateLimitItemsPerSec : option (option Z);
  pa_retentionDays : option (option Z)
}.

(** The calls of the management API (client.go), with the text of an error. *)
Class API (W : Type) := {
  listCustomers : W -> result (list Customer) string;
  listPipelines : string -> W -> result (list Pipeline) string;
  getPipelineVersion : string -> Z -> W -> result PipelineVersion string;
  createCustomer : string -> string -> W -> result Customer string * W;
  updateCustomer : string -> patch -> W -> result unit string * W;
  createPipeline : string -> string -> string -> PipelineGraph -> W -> result Pipeline string * W;
  createPipelineVersion : string -> PipelineGraph -> W -> result PipelineVersion string * W;
  activateVersion : string -> Z -> W -> result unit string * W
}.

(** ** helpers.go *)

Definition json_opt {A} (f : A -> jval) (o : option A) : jval := match o with Some a => f a | None => JNull end.
Definition node_json (n : GraphNode) : jval :=
  JObj ([("type", JStr (gn_Type n))] ++ match gn_Name n with Some s => [("name", JStr s)] | None => [] end ++ [("config", json_opt JObj (gn_Config n))])%list.
Definition graph_json (g : PipelineGraph) : jval :=
  JObj [("signals", json_opt (fun l => JArr (JStr <$> l)) (pg_Signals g)); ("processors", json_opt (fun l => JArr (node_json <$> l)) (pg_Processors g));
        ("exporters", json_opt (fun l => JArr (node_json <$> l)) (pg_Exporters g))].

(** The members of a config are in the order [json.Marshal] writes them. *)
Definition graphEqual (a b : PipelineGraph) : bool := bool_decide (json_text (graph_json a) = json_text (graph_json b)).

Definition intEq (a b : option Z) : bool :=
  match a, b with Some x, Some y => (x =? y)%Z | None, None => true | _, _ => false end.

Definition keysOf (p : patch) : list string :=
  (match pa_name p with Some _ => ["name"] | None => [] end
   ++ match pa_rateLimitItemsPerSec p with Some _ => ["rateLimitItemsPerSec"] | None => [] end
   ++ match pa_retentionDays p with Some _ => ["retentionDays"] | None => [] end)%list.

(** A line of the plan: a change or a skipped pipeline. *)
Inductive line : Type := LAdd (text : string) | LSkip (text : string).

Definition changes (plan : list line) : nat := length (filter (fun l => match l with LAdd _ => true | LSkip _ => false end = true) plan).

Definition print_line (dryRun : bool) (l : line) : string :=
  match l with
  | LAdd t => "  " +:+ (if dryRun then "would:" else "apply:") +:+ " " +:+ t
  | LSkip t => "  skip:  " +:+ t
  end.

Definition summary (dryRun : bool) (plan : list line) : string :=
  match changes plan with
  | O => "everything up to date"
  | n => itoa (Z.of_nat n) +:+ (if dryRun then " change(s) planned (dry-run; nothing applied)" else " change(s) applied")
  end.

Definition defaultClass (c : string) : string := if bool_decide (c = "") then "forwarding" else c.

(** ** main.go *)

Definition requireToken (token : string) : option string :=
  if bool_decide (token = "") then Some "OTEL_FLEET_TOKEN is not set (create one under Settings → API tokens)" else None.

Fixpoint parseFlags (out file : string) (dryRun : bool) (args : list string) : result (string * string * bool) string :=
  match args with
  | [] => Ok (out, file, dryRun)
  | a :: args =>
      if bool_decide (a = "-o") || bool_decide (a = "--out") then
        match args with [] => Err (a +:+ " requires a value") | v :: args => parseFlags v file dryRun args end
      else if bool_decide (a = "-f") || bool_decide (a = "--file") then
        match args with [] => Err (a +:+ " requires a value") | v :: args => parseFlags out v dryRun args end
      else if bool_decide (a = "--dry-run") then parseFlags out file true args
      else Err ("unexpected argument " +:+ go_quote a)
  end.

(** ** apply.go *)

Section cli.
Context {W : Type} `{!API W}.

(** A computation on the remote state that prints a plan. *)
Definition cli (A : Type) : Type := W -> result A string * W * list line.

Definition cret {A} (a : A) : cli A := fun w => (Ok a, w, []).
Definition cfail {A} (msg : string) : cli A := fun w => (Err msg, w, []).
Definition cbind {A B} (m : cli A) (k : A -> cli B) : cli B := fun w =>
  match m w with
  | (Err e, w, ls) => (Err e, w, ls)
  | (Ok a, w, ls) => match k a w with (r, w, ls') => (r, w, (ls ++ ls')%list) end
  end.
Definition print (l : line) : cli unit := fun w => (Ok tt, w, [l]).
Definition get {A} (q : W -> result A string) : cli A := fun w => (q w, w, []).
Definition call {A} (context : string) (f : W -> result A string * W) : cli A := fun w =>
  match f w with (Ok a, w) => (Ok a, w, []) | (Err e, w) => (Err (context +:+ e), w, []) end.
Definition when (b : bool) (m : cli unit) : cli unit := if b then m else cret tt.

Fixpoint each {A} (f : A -> cli unit) (l : list A) : cli unit :=
  match l with [] => cret tt | a :: l => cbind (f a) (fun _ => each f l) end.

(** The last of the pipelines with a name. *)
Definition by_name (ps : list Pipeline) (name : string) : option Pipeline := last (filter (fun p => cp_Name p = name) ps).

Definition current_version (p : Pipeline) : option Z := match cp_ActiveVersion p with Some v => Some v | None => cp_LatestVersion p end.

Definition apply_pipeline (dryRun : bool) (custID custSlug : string) (existing : list Pipeline) (ps : PipelineSpec) : cli unit :=
  let q := go_quote in
  match by_name existing (ps_Name ps) with
  | None =>
      cbind (print (LAdd ("create pipeline " +:+ q (ps_Name ps) +:+ " for " +:+ q custSlug +:+ " + activate"))) (fun _ =>
      when (negb dryRun)
        (cbind (call ("create pipeline " +:+ q (ps_Name ps) +:+ ": ") (createPipeline custID (ps_Name ps) (defaultClass (ps_TargetClass ps)) (ps_Graph ps)))
           (fun created => call ("activate pipeline " +:+ q (ps_Name ps) +:+ " v1: ") (activateVersion (cp_ID created) 1))))
  | Some p =>
      cbind (match current_version p with
             | None => cret true
             | Some cur => cbind (get (getPipelineVersion (cp_ID p) cur)) (fun pv => cret (negb (graphEqual (cv_Graph pv) (ps_Graph ps))))
             end) (fun changed =>
      if negb changed then print (LSkip ("pipeline " +:+ q custSlug +:+ "/" +:+ q (ps_Name ps) +:+ " unchanged"))
      else
        cbind (print (LAdd ("new version + activate for pipeline " +:+ q custSlug +:+ "/" +:+ q (ps_Name ps)))) (fun _ =>
        when (negb dryRun)
          (cbind (call ("new version for " +:+ q (ps_Name ps) +:+ ": ") (createPipelineVersion (cp_ID p) (ps_Graph ps)))
             (fun ver => call ("activate " +:+ q (ps_Name ps) +:+ " v" +:+ itoa (cv_Version ver) +:+ ": ") (activateVersion (cp_ID p) (cv_Version ver))))))
  end.

Definition applyPipelines (dryRun : bool) (custID custSlug : string) (specs : list PipelineSpec) : cli unit :=
  cbind (get (listPipelines custID)) (fun existing => each (apply_pipeline dryRun custID custSlug existing) specs).

(** The customer a spec speaks of: by its slug, or the first with its name when
    it has none. *)
Definition find_customer (existing : list Customer) (cs : CustomerSpec) : option Customer :=
  match last (filter (fun c => cc_Slug c = cs_Slug cs) existing) with
  | Some c => Some c
  | None => if bool_decide (cs_Slug cs = "") then head (filter (fun c => cc_Name c = cs_Name cs) existing) else None
  end.

Definition patch_for (c : Customer) (cs : CustomerSpec) : patch :=
  MkPatch (if bool_decide (cc_Name c = cs_Name cs) then None else Some (cs_Name cs))
    (if intEq (cc_RateLimitItemsPerSec c) (cs_RateLimitItemsPerSec cs) then None else Some (cs_RateLimitItemsPerSec cs))
    (if intEq (cc_RetentionDays c) (cs_RetentionDays cs) then None else Some (cs_RetentionDays cs)).

Definition reconcile_customer (dryRun : bool) (c : Customer) (cs : CustomerSpec) : cli unit :=
  let upd := patch_for c cs in
  if bool_decide (keysOf upd = []) then cret tt
  else
    cbind (print (LAdd ("update customer " +:+ go_quote (cs_Slug cs) +:+ " [" +:+ join " " (keysOf upd) +:+ "]"))) (fun _ =>
    when (negb dryRun) (call ("update customer " +:+ go_quote (cs_Slug cs) +:+ ": ") (updateCustomer (cc_ID c) upd))).

Definition would_create (cs : CustomerSpec) (p : PipelineSpec) : cli unit :=
  print (LAdd ("  would create pipeline " +:+ go_quote (ps_Name p) +:+ " (targetClass=" +:+ ps_TargetClass p +:+ ") for new customer " +:+ go_quote (cs_Name cs))).

Definition apply_customer (dryRun : bool) (existing : list Customer) (cs : CustomerSpec) : cli unit :=
  let with_customer c :=
    cbind (reconcile_customer dryRun c cs) (fun _ =>
    if dryRun && bool_decide (cc_ID c = "") then each (would_create cs) (cs_Pipelines cs)
    else applyPipelines dryRun (cc_ID c) (cc_Slug c) (cs_Pipelines cs)) in
  match find_customer existing cs with
  | Some c => with_customer c
  | None =>
      cbind (print (LAdd ("create customer " +:+ go_quote (cs_Name cs)))) (fun _ =>
      if dryRun then each (would_create cs) (cs_Pipelines cs)
      else cbind (call ("create customer " +:+ go_quote (cs_Name cs) +:+ ": ") (createCustomer (cs_Name cs) (cs_Slug cs))) with_customer)
  end.

(** [cmdApply] of a parsed file. *)
Definition apply (dryRun : bool) (spec : list CustomerSpec) : cli unit :=
  cbind (get listCustomers) (fun existing => each (apply_customer dryRun existing) spec).

Definition export_pipeline (p : Pipeline) (w : W) : result (list PipelineSpec) string :=
  match current_version p with
  | None => Ok []
  | Some ver =>
      match getPipelineVersion (cp_ID p) ver w with
      | Ok pv => Ok [MkPipelineSpec (cp_Name p) (cp_TargetClass p) (cv_Graph pv)]
      | Err e => Err e
      end
  end.

Fixpoint collect {A B} (f : A -> result (list B) string) (l : list A) : result (list B) string :=
  match l with
  | [] => Ok []
  | a :: l => match f a with
              | Err e => Err e
              | Ok bs => match collect f l with Ok rest => Ok (bs ++ rest)%list | Err e => Err e end
              end
  end.

Definition export_customer (w : W) (c : Customer) : result (list CustomerSpec) string :=
  if bool_decide (cc_Status c = "deleted") then Ok []
  else
    match listPipelines (cc_ID c) w with
    | Err e => Err e
    | Ok ps =>
        match collect (fun p => export_pipeline p w) ps with
        | Err e => Err e
        | Ok specs => Ok [MkCustomerSpec (cc_Name c) (cc_Slug c) (cc_RateLimitItemsPerSec c) (cc_RetentionDays c) specs]
        end
    end.

(** [cmdExport] up to the YAML. *)
Definition export (w : W) : result (list CustomerSpec) string :=
  match listCustomers w with
  | Err e => Err e
  | Ok cs => collect (export_customer w) (sort_by (fun a b => str_lt (cc_Slug a) (cc_Slug b)) cs)
  end.

(** ** Computations that only read, and quiet ones *)

Lemma changes_app l1 l2 : changes (l1 ++ l2) = changes l1 + changes l2.
Proof using Type. unfold changes. by rewrite filter_app, length_app. Qed.

(** The remote state stays as it is. *)
Definition reads {A} (m : cli A) : Prop := forall w, (m w).1.2 = w.

Lemma reads_ret {A} (a : A) : reads (cret a).
Proof using Type. done. Qed.

Lemma reads_print l : reads (print l).
Proof using Type. done. Qed.

Lemma reads_get {A} (q : W -> result A string) : reads (get q).
Proof using Type. done. Qed.

Lemma reads_bind {A B} (m : cli A) (k : A -> cli B) : reads m -> (forall a, reads (k a)) -> reads (cbind m k).
Proof using Type.
  intros Hm Hk w. unfold cbind. specialize (Hm w). destruct (m w) as [[[a|e] w'] ls]; simpl in Hm; subst; [|done].
  specialize (Hk a w). destruct (k a w) as [[r w'] ls']. done.
Qed.

Lemma reads_each {A} (f : A -> cli unit) l : (forall a, reads (f a)) -> reads (each f l).
Proof using Type. intros Hf. induction l; [done|]. simpl. by apply reads_bind. Qed.

(** A quiet run of [m] is one of [m'] too. *)
Definition quiet_agree {A} (m m' : cli A) : Prop := forall w, changes (m w).2 = 0 -> m' w = m w.

Lemma agree_refl {A} (m : cli A) : quiet_agree m m.
Proof using Type. done. Qed.

Lemma agree_loud {A} t (k k' : unit -> cli A) : quiet_agree (cbind (print (LAdd t)) k) (cbind (print (LAdd t)) k').
Proof using Type. intros w. unfold cbind, print. destruct (k tt w) as [[r w'] ls]. done. Qed.

Lemma agree_bind {A B} (m m' : cli A) (k k' : A -> cli B) : quiet_agree m m' -> (forall a, quiet_agree (k a) (k' a)) ->
  quiet_agree (cbind m k) (cbind m' k').
Proof using Type.
  intros Hm Hk w. unfold cbind. specialize (Hm w). destruct (m w) as [[[a|e] w'] ls] eqn:E; simpl in *.
  - specialize (Hk a w'). destruct (k a w') as [[r w2] ls'] eqn:E'. simpl in *. rewrite changes_app. intros H. rewrite Hm by lia. by rewrite Hk by lia.
  - intros H. by rewrite Hm.
Qed.

Lemma agree_each {A} (f f' : A -> cli unit) l : (forall a, quiet_agree (f a) (f' a)) -> quiet_agree (each f l) (each f' l).
Proof using Type. intros Hf. induction l; [apply agree_refl|]. simpl. by apply agree_bind. Qed.

Hint Resolve reads_ret reads_print reads_get : core.

Lemma apply_dry_reads spec : reads (apply true spec).
Proof using Type.
  apply reads_bind; [done|]. intros existing. apply reads_each. intros cs. unfold apply_customer.
  assert (forall l, reads (each (would_create cs) l)) as Hw by (intros l; by apply reads_each).
  assert (forall c, reads (cbind (reconcile_customer true c cs) (fun _ => if true && bool_decide (cc_ID c = "") then each (would_create cs) (cs_Pipelines cs)
    else applyPipelines true (cc_ID c) (cc_Slug c) (cs_Pipelines cs)))) as Hc.
  { intros c. apply reads_bind.
    - unfold reconcile_customer. case_bool_decide; [done|]. by apply reads_bind.
    - intros _. destruct (true && _); [done|]. apply reads_bind; [done|]. intros ps. apply reads_each. intros p. unfold apply_pipeline.
      destruct (by_name ps (ps_Name p)); [|by apply reads_bind]. apply reads_bind.
      + destruct (current_version _); [|done]. by apply reads_bind.
      + intros changed. destruct (negb changed); [done|]. by apply reads_bind. }
  destruct (find_customer existing cs); [apply Hc|]. apply reads_bind; [done|]. intros _. apply Hw.
Qed.

Lemma find_customer_elem existing cs c : find_customer existing cs = Some c -> c ∈ existing.
Proof using Type.
  unfold find_customer. destruct (last _) as [c'|] eqn:E.
  - intros [= <-]. apply last_Some in E as (l & E). assert (c' ∈ filter (fun c => cc_Slug c = cs_Slug cs) existing) as H by (rewrite E; set_solver).
    by apply list_elem_of_filter in H as [_ ?].
  - case_bool_decide; [|done]. intros Hh%head_Some_elem_of. by apply list_elem_of_filter in Hh as [_ ?].
Qed.

Lemma apply_customer_agree existing cs : Forall (fun c => cc_ID c <> "") existing ->
  quiet_agree (apply_customer true existing cs) (apply_customer false existing cs).
Proof using Type.
  intros Hids. unfold apply_customer. destruct (find_customer existing cs) as [c|] eqn:Hf; [|apply agree_loud].
  apply find_customer_elem in Hf. apply (proj1 (Forall_forall _ _) Hids) in Hf. rewrite (bool_decide_false (cc_ID c = "")) by done. simpl.
  apply agree_bind.
  - unfold reconcile_customer. case_bool_decide; [apply agree_refl|apply agree_loud].
  - intros _. apply agree_bind; [apply agree_refl|]. intros ps. apply agree_each. intros p. unfold apply_pipeline.
    destruct (by_name ps (ps_Name p)); [|apply agree_loud]. apply agree_bind; [apply agree_refl|]. intros changed.
    destruct (negb changed); [apply agree_refl|apply agree_loud].
Qed.

(** C36: a dry run changes nothing on the target, whatever the spec and whatever
    fails; and when it plans no change, the real run does the same as the dry
    run, so it changes nothing either. *)
Theorem dry_run_faithful spec w : (forall cs, listCustomers w = Ok cs -> Forall (fun c => cc_ID c <> "") cs) ->
  (apply true spec w).1.2 = w /\ (changes (apply true spec w).2 = 0 -> apply false spec w = apply true spec w).
Proof using Type.
  intros Hids. split; [apply apply_dry_reads|]. unfold apply, cbind, get. destruct (listCustomers w) as [existing|]; [|done].
  specialize (Hids _ eq_refl). pose proof (agree_each (apply_customer true existing) (apply_customer false existing) spec) as H.
  specialize (H (fun cs => apply_customer_agree existing cs Hids) w). destruct (each (apply_customer true existing) spec w) as [[r w'] ls].
  simpl in *. intros Hq. by rewrite H.
Qed.

(** ** Exporting and applying *)

Lemma graphEqual_refl g : graphEqual g g = true.
Proof using Type. by apply bool_decide_eq_true. Qed.

Lemma intEq_refl o : intEq o o = true.
Proof using Type. destruct o; simpl; [apply Z.eqb_refl|reflexivity]. Qed.

Lemma collect_elem {A B} (f : A -> result (list B) string) l : forall bs, collect f l = Ok bs ->
  forall b, b ∈ bs -> exists a bs', a ∈ l /\ f a = Ok bs' /\ b ∈ bs'.
Proof using Type.
  induction l as [|a l IH]; intros bs; simpl; [intros [= <-] b H; by apply not_elem_of_nil in H|].
  destruct (f a) as [bs1|] eqn:Hf; [|done]. destruct (collect f l) as [bs2|]; [|done]. intros [= <-] b [H|H]%elem_of_app.
  - exists a, bs1. split_and!; [left|done|done].
  - destruct (IH _ eq_refl _ H) as (x & bs' & ? & ? & ?). exists x, bs'. split_and!; [by right|done|done].
Qed.

(** The only element with a key. *)
Lemma filter_unique {A K} `{EqDecision K} (key : A -> K) l a : NoDup (key <$> l) -> a ∈ l -> filter (fun x => key x = key a) l = [a].
Proof using Type.
  induction l as [|x l IH]; [intros _ H; by apply not_elem_of_nil in H|]. rewrite fmap_cons. intros [Hx Hnd]%NoDup_cons [->|Ha]%elem_of_cons.
  - rewrite filter_cons_True by done. f_equal. apply filter_none, Forall_forall. intros y Hy Heq. apply Hx. rewrite <- Heq. by apply list_elem_of_fmap_2.
  - rewrite filter_cons_False; [by apply IH|]. intros Heq. apply Hx. rewrite Heq. by apply list_elem_of_fmap_2.
Qed.

Definition noop (m : cli unit) (w : W) : Prop := exists ls, m w = (Ok tt, w, ls) /\ changes ls = 0.

Lemma noop_bind {A} (m : cli A) (k : A -> cli unit) w a : m w = (Ok a, w, []) -> noop (k a) w -> noop (cbind m k) w.
Proof using Type. intros Hm (ls & Hk & Hc). exists ls. unfold cbind. by rewrite Hm, Hk. Qed.

Lemma noop_each {A} (f : A -> cli unit) l w : (forall a, a ∈ l -> noop (f a) w) -> noop (each f l) w.
Proof using Type.
  induction l as [|a l IH]; intros H; [by exists []|]. destruct (H a) as (ls & Ha & Hc); [left|].
  destruct IH as (ls' & Hl & Hc'); [intros; apply H; by right|]. exists (ls ++ ls')%list. simpl. unfold cbind. rewrite Ha, Hl.
  split; [done|]. rewrite changes_app. lia.
Qed.

Lemma apply_pipeline_noop dryRun custID slug ps p ver pv w : NoDup (cp_Name <$> ps) -> p ∈ ps -> current_version p = Some ver ->
  getPipelineVersion (cp_ID p) ver w = Ok pv ->
  noop (apply_pipeline dryRun custID slug ps (MkPipelineSpec (cp_Name p) (cp_TargetClass p) (cv_Graph pv))) w.
Proof using Type.
  intros Hnd Hp Hcur Hget. unfold apply_pipeline, by_name. simpl. rewrite filter_unique by done. simpl. rewrite Hcur.
  eapply noop_bind; [unfold cbind, get; by rewrite Hget|]. rewrite graphEqual_refl. simpl. by eexists.
Qed.

End cli.

(** ** Examples

    A small server: graphs come back with lists where none were sent and with
    secrets redacted, and the first activations may fail. *)

Record ex_fleet : Type := MkExFleet {
  xf_customers : list Customer;
  xf_pipelines : list (string * Pipeline * list PipelineGraph);
  xf_failing : nat
}.

Definition ex_redact (n : GraphNode) : GraphNode :=
  MkGraphNode (gn_Type n) (gn_Name n)
    (map (fun kv => (kv.1, if bool_decide (kv.1 = "authorization") then JStr "__otel_fleet_redacted__" else kv.2)) <$> gn_Config n).
Definition ex_stored (g : PipelineGraph) : PipelineGraph :=
  MkPipelineGraph (Some (default [] (pg_Signals g))) (Some (ex_redact <$> default [] (pg_Processors g))) (Some (ex_redact <$> default [] (pg_Exporters g))).
Definition ex_new_id (prefix : string) {A} (l : list A) : string := prefix +:+ itoa (Z.of_nat (S (length l))).
Definition ex_on (id : string) (f : Pipeline -> list PipelineGraph -> Pipeline * list PipelineGraph) (w : ex_fleet) : ex_fleet :=
  MkExFleet (xf_customers w)
    ((fun x => if bool_decide (cp_ID x.1.2 = id) then (x.1.1, (f x.1.2 x.2).1, (f x.1.2 x.2).2) else x) <$> xf_pipelines w) (xf_failing w).
Definition ex_find (id : string) (w : ex_fleet) : option (string * Pipeline * list PipelineGraph) :=
  head (filter (fun x => cp_ID x.1.2 = id) (xf_pipelines w)).

#[export] Instance ex_api : API ex_fleet := {
  listCustomers w := Ok (xf_customers w);
  listPipelines id w := Ok ((fun x => x.1.2) <$> filter (fun x => x.1.1 = id) (xf_pipelines w));
  getPipelineVersion id v w :=
    match ex_find id w with
    | Some x => match x.2 !! Z.to_nat (v - 1) with Some g => Ok (MkCliVersion v g) | None => Err "HTTP 404: " end
    | None => Err "HTTP 404: "
    end;
  createCustomer name slug w :=
    let c := MkCliCustomer (ex_new_id "c" (xf_customers w)) slug name "active" None None in
    (Ok c, MkExFleet (xf_customers w ++ [c])%list (xf_pipelines w) (xf_failing w));
  updateCustomer id p w :=
    (Ok tt, MkExFleet ((fun c => if bool_decide (cc_ID c = id)
      then MkCliCustomer id (cc_Slug c) (default (cc_Name c) (pa_name p)) (cc_Status c) (default (cc_RateLimitItemsPerSec c) (pa_rateLimitItemsPerSec p))
             (default (cc_RetentionDays c) (pa_retentionDays p))
      else c) <$> xf_customers w) (xf_pipelines w) (xf_failing w));
  createPipeline cid name class g w :=
    let p := MkCliPipeline (ex_new_id "p" (xf_pipelines w)) name class None (Some 1%Z) in
    (Ok p, MkExFleet (xf_customers w) (xf_pipelines w ++ [(cid, p, [ex_stored g])])%list (xf_failing w));
  createPipelineVersion id g w :=
    match ex_find id w with
    | Some x => let v := Z.of_nat (S (length x.2)) in
        (Ok (MkCliVersion v g), ex_on id (fun p gs => (MkCliPipeline id (cp_Name p) (cp_TargetClass p) (cp_ActiveVersion p) (Some v), (gs ++ [ex_stored g])%list)) w)
    | None => (Err "HTTP 404: ", w)
    end;
  activateVersion id v w :=
    match xf_failing w with
    | O => (Ok tt, ex_on id (fun p gs => (MkCliPipeline id (cp_Name p) (cp_TargetClass p) (Some v) (cp_LatestVersion p), gs)) w)
    | S n => (Err "HTTP 503: ", MkExFleet (xf_customers w) (xf_pipelines w) n)
    end
}.

Definition ex_node (config : list (string * jval)) : GraphNode := MkGraphNode "otlphttp" None (Some config).
Definition ex_graph (procs : option (list GraphNode)) (config : list (string * jval)) : PipelineGraph :=
  MkPipelineGraph (Some ["logs"]) procs (Some [ex_node config]).
Definition ex_spec (class : string) (g : PipelineGraph) : list CustomerSpec := [MkCustomerSpec "ACME" "acme" (Some 500%Z) None [MkPipelineSpec "Forward" class g]].
Definition ex_plain : PipelineGraph := ex_graph (Some []) [("endpoint", JStr "https://b")].
Definition ex_empty : ex_fleet := MkExFleet [] [] 0.

(** The outcome of a run, with what [apply] prints at the end. *)
Definition ex_run (dryRun : bool) (spec : list CustomerSpec) (w : ex_fleet) : string :=
  match apply dryRun spec w with (Ok _, _, plan) => summary dryRun plan | (Err e, _, _) => e end.
Definition ex_after (spec : list CustomerSpec) (w : ex_fleet) : ex_fleet := (apply false spec w).1.2.
Definition ex_versions (w : ex_fleet) : list nat := (fun x => length x.2) <$> xf_pipelines w.

Example apply_converges :
  (ex_run true (ex_spec "" ex_plain) ex_empty, ex_run false (ex_spec "" ex_plain) ex_empty,
   ex_run false (ex_spec "" ex_plain) (ex_after (ex_spec "" ex_plain) ex_empty))
  = ("2 change(s) planned (dry-run; nothing applied)", "3 change(s) applied", "everything up to date").
Proof. vm_compute. reflexivity. Qed.

Definition ex_target : ex_fleet := ex_after (ex_spec "" ex_plain) ex_empty.


Lemma dry_run_faithful_witness : (apply true (ex_spec "" ex_plain) ex_target).1.2 = ex_target /\
  apply false (ex_spec "" ex_plain) ex_target = apply true (ex_spec "" ex_plain) ex_target.
Proof.
  destruct (dry_run_faithful (ex_spec "" ex_plain) ex_target) as [H1 H2].
  - intros cs [= <-]. vm_compute. by repeat constructor.
  - split; [exact H1|]. apply H2. vm_compute. reflexivity.
Defined.

(** A pipeline whose first activation failed is taken for up to date by the
    next run: it is never activated. *)
Example failed_activation_forgotten :
  let w := MkExFleet [] [] 1 in
  let spec := ex_spec "" ex_plain in
  (ex_run false spec w, ex_run false spec (ex_after spec w), (fun x => cp_ActiveVersion x.1.2) <$> xf_pipelines (ex_after spec (ex_after spec w)))
  = ("activate pipeline " +:+ go_quote "Forward" +:+ " v1: HTTP 503: ", "everything up to date", [None]).
Proof. vm_compute. reflexivity. Qed.

(** A spec that leaves out its processors, or that carries a secret, gets a new
    version from every run. *)
Example never_converges :
  let repeated g := ex_versions (ex_after (ex_spec "" g) (ex_after (ex_spec "" g) (ex_after (ex_spec "" g) ex_empty))) in
  (repeated ex_plain, repeated (ex_graph None [("endpoint", JStr "https://b")]), repeated (ex_graph (Some []) [("authorization", JStr "Bearer s")]))
  = ([1], [3], [3]).
Proof. vm_compute. reflexivity. Qed.

(** A changed target class is not noticed. *)
Example class_change_ignored :
  (ex_run false (ex_spec "edge" ex_plain) ex_target, (fun x => cp_TargetClass x.1.2) <$> xf_pipelines (ex_after (ex_spec "edge" ex_plain) ex_target))
  = ("everything up to date", ["forwarding"]).
Proof. vm_compute. reflexivity. Qed.

Example flags : (parseFlags "" "" false ["-f"; "a.yaml"; "--dry-run"], parseFlags "" "" false ["-f"], parseFlags "" "" false ["x"])
  = (Ok ("", "a.yaml", true), Err "-f requires a value", Err ("unexpected argument " +:+ go_quote "x")).
Proof. vm_compute. reflexivity. Qed.
