(* ===== verification/AuditTrail.v ===== *)
(** The audit trail: that the changes the API makes are in the log, with who
    made them, and how the log is read (internal/store/pg_audit.go and
    ListAuditLog of internal/api/handlers_admin.go).

    An entry's id and time are given by its place in the log; ids grow. *)
From S2P Require Import Prelude GoStrings Json GoFormat GoFloat StoreTypes Slug Tokens Authz PgCore PgFleet TenantsService Enrollment Crypto Webhooks PipelineGraph Secrets Render Validate PgPipelines PipelineService PgUsers PgScim ScimAccess PgSettings ApiCore Billing ApiTenant ApiIsolation ApiAdmin AuthProviders.
From Stdlib Require Import Ascii.

Open Scope string_scope.

(** ** What a transaction logs

    A statement is silent when it leaves the log alone; a transaction writes
    [es] when that is what it appends.  Both are found by resolution, along the
    structure of the transaction. *)

Class Silent {A} (m : tx A) : Prop := silent : forall d a d', m d = Ok (a, d') -> t_audit d' = t_audit d.
Class Writes {A} (es : list AuditEntry) (m : tx A) : Prop :=
  writes : forall d a d', m d = Ok (a, d') -> t_audit d' = audit_write (t_audit d) es.

#[export] Instance silent_ret {A} (a : A) : Silent (tx_ret a).
Proof. by intros d ? d' [= _ <-]. Qed.

#[export] Instance silent_fail {A} e : Silent (A := A) (tx_fail e).
Proof. done. Qed.

#[export] Instance silent_read {A} (q : DB -> result A store_err) : Silent (tx_read q).
Proof. by intros d a d' [_ ->]%tx_read_Ok. Qed.

#[export] Instance silent_get {A} (f : DB -> A) : Silent (tx_get f).
Proof. by intros d a d' [_ ->]%tx_get_Ok. Qed.

#[export] Instance silent_check b e : Silent (tx_check b e).
Proof. by intros d a d' [_ ->]%tx_check_Ok. Qed.

Lemma silent_exec f : (forall d, t_audit (f d) = t_audit d) -> Silent (tx_exec f).
Proof. intros Hf d a d' ->%tx_exec_Ok. apply Hf. Qed.

#[export] Instance silent_bind {A B} (m : tx A) (k : A -> tx B) : Silent m -> (forall a, Silent (k a)) -> Silent (tx_bind m k).
Proof. intros Hm Hk d b d' (a & d1 & H1 & H2)%tx_bind_Ok. by rewrite (Hk _ _ _ _ H2), (Hm _ _ _ H1). Qed.

#[export] Instance writes_audit es : Writes es (audit_Write es).
Proof. by intros d a d' ->%audit_Write_Ok. Qed.

#[export] Instance writes_then {A B} es (m : tx A) (k : A -> tx B) : Writes es m -> (forall a, Silent (k a)) -> Writes es (tx_bind m k) | 2.
Proof. intros Hm Hk d b d' (a & d1 & H1 & H2)%tx_bind_Ok. by rewrite (Hk _ _ _ _ H2), (Hm _ _ _ H1). Qed.

#[export] Instance writes_later {A B} es (m : tx A) (k : A -> tx B) : Silent m -> (forall a, Writes es (k a)) -> Writes es (tx_bind m k) | 1.
Proof. intros Hm Hk d b d' (a & d1 & H1 & H2)%tx_bind_Ok. by rewrite (Hk _ _ _ _ H2), (Hm _ _ _ H1). Qed.

#[export] Hint Extern 1 (Silent (tx_exec _)) => apply silent_exec; intros; reflexivity : typeclass_instances.
#[export] Hint Extern 5 (Silent (match ?x with _ => _ end)) => destruct x : typeclass_instances.

(** A statement defined by its tables: the cases of the definition. *)
Ltac silent_cases f := intros d a d'; unfold f, tx_fail; repeat case_match; first [done | by intros [= _ <-] | intros; simplify_eq; done].

#[export] Instance silent_insert_customer now c : Silent (insert_customer now c).
Proof. silent_cases insert_customer. Qed.
#[export] Instance silent_insertAPIKey now k : Silent (insertAPIKey now k).
Proof. silent_cases insertAPIKey. Qed.
#[export] Instance silent_insert_api_token now t : Silent (insert_api_token now t).
Proof. silent_cases insert_api_token. Qed.
#[export] Instance silent_insert_bootstrap_token now t : Silent (insert_bootstrap_token now t).
Proof. silent_cases insert_bootstrap_token. Qed.
#[export] Instance silent_insert_pipeline now p : Silent (insert_pipeline now p).
Proof. silent_cases insert_pipeline. Qed.
#[export] Instance silent_insertPipelineVersion now v n : Silent (insertPipelineVersion now v n).
Proof. silent_cases insertPipelineVersion. Qed.
#[export] Instance silent_insert_user u e1 e2 e3 : Silent (insert_user u e1 e2 e3).
Proof. silent_cases insert_user. Qed.
#[export] Instance silent_update_agent id f : Silent (update_agent id f).
Proof. silent_cases update_agent. Qed.
#[export] Instance silent_admin_remains : Silent ensureEnabledAdminRemains.
Proof. silent_cases ensureEnabledAdminRemains. Qed.
#[export] Instance silent_tx_when {A} (o : option A) f : (forall a, Silent (f a)) -> Silent (tx_when o f).
Proof. unfold tx_when. apply _. Qed.
#[export] Instance silent_update_role id role : Silent (update_role id role).
Proof. unfold update_role. apply _. Qed.
#[export] Instance silent_sessions uuid_string id : Silent (deleteSessionsByUser uuid_string id).
Proof. unfold deleteSessionsByUser. apply _. Qed.
#[export] Instance silent_update_disabled uuid_string now id b : Silent (update_disabled uuid_string now id b).
Proof. unfold update_disabled. apply _. Qed.
#[export] Instance silent_insert_grants id cs : Silent (insert_grants id cs).
Proof. induction cs; simpl; apply _. Qed.
#[export] Instance silent_live_customer id : Silent (live_customer id).
Proof. unfold live_customer. apply _. Qed.

(** The operation failed and left the tables as they were, or it changed them
    and wrote the entries. *)
Definition logged (es : list AuditEntry) (d d' : DB) : Prop := d' = d \/ t_audit d' = audit_write (t_audit d) es.

Lemma inTx_logged {A} (f : tx A) es d : Writes es f -> logged es d (inTx f d).2.
Proof.
  intros Hf. destruct (inTx f d) as [[a|e] d'] eqn:H; [right; eapply Hf; by apply inTx_Ok|left; by apply inTx_Err in H].
Qed.

Ltac tx_logged f := unfold f; intros; repeat case_match; first [apply inTx_logged; apply _ | by left].

Section ops.
Context (uuid_string : N -> string) (d : DB) (now : Z) (es : list AuditEntry).

Lemma CreateCustomer_logged c k : logged es d (pg_CreateCustomer now c k es d).2.
Proof using Type. tx_logged pg_CreateCustomer. Qed.
Lemma UpdateCustomer_logged id upd : logged es d (pg_UpdateCustomer now id upd es d).2.
Proof using Type. tx_logged pg_UpdateCustomer. Qed.
Lemma SoftDeleteCustomer_logged id : logged es d (pg_SoftDeleteCustomer now id es d).2.
Proof using Type. tx_logged pg_SoftDeleteCustomer. Qed.
Lemma CreateAPIKey_logged k : logged es d (pg_CreateAPIKey now k es d).2.
Proof using Type. tx_logged pg_CreateAPIKey. Qed.
Lemma RevokeAPIKey_logged c id : logged es d (pg_RevokeAPIKey now c id es d).2.
Proof using Type. tx_logged pg_RevokeAPIKey. Qed.
Lemma CreateAPIToken_logged t : logged es d (pg_CreateAPIToken now t es d).2.
Proof using Type. tx_logged pg_CreateAPIToken. Qed.
Lemma RevokeAPIToken_logged id : logged es d (pg_RevokeAPIToken now id es d).2.
Proof using Type. tx_logged pg_RevokeAPIToken. Qed.
Lemma CreateBootstrapToken_logged t : logged es d (pg_CreateBootstrapToken now t es d).2.
Proof using Type. tx_logged pg_CreateBootstrapToken. Qed.
Lemma RevokeBootstrapToken_logged c id : logged es d (pg_RevokeBootstrapToken now c id es d).2.
Proof using Type. tx_logged pg_RevokeBootstrapToken. Qed.
Lemma DeleteAgent_logged id : logged es d (pg_DeleteAgent id es d).2.
Proof using Type. tx_logged pg_DeleteAgent. Qed.
Lemma UpdateAgentMeta_logged id n l : logged es d (pg_UpdateAgentMeta id n l es d).2.
Proof using Type. tx_logged pg_UpdateAgentMeta. Qed.
Lemma CreatePipeline_logged p v : logged es d (pg_CreatePipeline now p v es d).2.
Proof using Type. tx_logged pg_CreatePipeline. Qed.
Lemma DeletePipeline_logged id : logged es d (pg_DeletePipeline id es d).2.
Proof using Type. tx_logged pg_DeletePipeline. Qed.
Lemma CreatePipelineVersion_logged v : logged es d (pg_CreatePipelineVersion now v es d).2.
Proof using Type. tx_logged pg_CreatePipelineVersion. Qed.
Lemma ActivatePipelineVersion_logged id v : logged es d (pg_ActivatePipelineVersion id v es d).2.
Proof using Type. tx_logged pg_ActivatePipelineVersion. Qed.
Lemma CreateInvitedUser_logged id e r : logged es d (pg_CreateInvitedUser now id e r es d).2.
Proof using Type. tx_logged pg_CreateInvitedUser. Qed.
Lemma SetUserCustomerGrants_logged id cs : logged es d (pg_SetUserCustomerGrants id cs es d).2.
Proof using Type. tx_logged pg_SetUserCustomerGrants. Qed.
Lemma UpdateUserAdmin_logged id upd : logged es d (pg_UpdateUserAdmin uuid_string now id upd es d).2.
Proof using Type. unfold pg_UpdateUserAdmin. tx_logged update_user_admin. Qed.
Lemma DeleteUser_logged id : logged es d (pg_DeleteUser uuid_string id es d).2.
Proof using Type. tx_logged pg_DeleteUser. Qed.
Lemma CreateWebhook_logged w : logged es d (pg_CreateWebhook now w es d).2.
Proof using Type. tx_logged pg_CreateWebhook. Qed.
Lemma UpdateWebhook_logged id u : logged es d (pg_UpdateWebhook now id u es d).2.
Proof using Type. tx_logged pg_UpdateWebhook. Qed.
Lemma DeleteWebhook_logged id : logged es d (pg_DeleteWebhook id es d).2.
Proof using Type. tx_logged pg_DeleteWebhook. Qed.
Lemma CreateAlertRule_logged r : logged es d (pg_CreateAlertRule now r es d).2.
Proof using Type. tx_logged pg_CreateAlertRule. Qed.
Lemma UpdateAlertRule_logged id u : logged es d (pg_UpdateAlertRule now id u es d).2.
Proof using Type. tx_logged pg_UpdateAlertRule. Qed.
Lemma DeleteAlertRule_logged id : logged es d (pg_DeleteAlertRule id es d).2.
Proof using Type. tx_logged pg_DeleteAlertRule. Qed.
Lemma CreateMaintenanceWindow_logged w : logged es d (pg_CreateMaintenanceWindow now w es d).2.
Proof using Type. tx_logged pg_CreateMaintenanceWindow. Qed.
Lemma DeleteMaintenanceWindow_logged id : logged es d (pg_DeleteMaintenanceWindow id es d).2.
Proof using Type. tx_logged pg_DeleteMaintenanceWindow. Qed.
Lemma UpdateBillingSettings_logged u a : logged es d (pg_UpdateBillingSettings now u a es d).2.
Proof using Type. tx_logged pg_UpdateBillingSettings. Qed.
Lemma SetBillingOverride_logged c g i a : logged es d (pg_SetBillingOverride now c g i a es d).2.
Proof using Type. tx_logged pg_SetBillingOverride. Qed.
Lemma DeleteBillingOverride_logged c : logged es d (pg_DeleteBillingOverride c es d).2.
Proof using Type. tx_logged pg_DeleteBillingOverride. Qed.
End ops.

Create HintDb audit.
#[export] Hint Resolve CreateCustomer_logged UpdateCustomer_logged SoftDeleteCustomer_logged CreateAPIKey_logged RevokeAPIKey_logged
  CreateAPIToken_logged RevokeAPIToken_logged CreateBootstrapToken_logged RevokeBootstrapToken_logged DeleteAgent_logged
  UpdateAgentMeta_logged CreatePipeline_logged DeletePipeline_logged CreatePipelineVersion_logged ActivatePipelineVersion_logged
  CreateInvitedUser_logged SetUserCustomerGrants_logged UpdateUserAdmin_logged DeleteUser_logged CreateWebhook_logged
  UpdateWebhook_logged DeleteWebhook_logged CreateAlertRule_logged UpdateAlertRule_logged DeleteAlertRule_logged
  CreateMaintenanceWindow_logged DeleteMaintenanceWindow_logged UpdateBillingSettings_logged SetBillingOverride_logged
  DeleteBillingOverride_logged : audit.

(** ** Who is recorded *)

Definition made_by (actor : option N) (e : AuditEntry) : Prop := Audit_ActorUserID e = actor /\ Audit_ActorType e = "user".

(** The log of a state has grown by entries of the actor, by at least one if
    anything has changed. *)
Definition recorded_in {S} (log : S -> list AuditEntry) (actor : option N) (s s' : S) : Prop :=
  exists es, log s' = (log s ++ es)%list /\ Forall (made_by actor) es /\ (es = [] -> s' = s).

Section recorded.
Context {S : Type} (log : S -> list AuditEntry) (actor : option N).

Lemma recorded_refl s : recorded_in log actor s s.
Proof using Type. exists []. split; [by rewrite app_nil_r|]. by split; [constructor|]. Qed.

Lemma recorded_trans s1 s2 s3 : recorded_in log actor s1 s2 -> recorded_in log actor s2 s3 -> recorded_in log actor s1 s3.
Proof using Type.
  intros (l1 & E1 & H1 & N1) (l2 & E2 & H2 & N2). exists (l1 ++ l2)%list. split; [by rewrite E2, E1, app_assoc|].
  split; [by apply Forall_app|]. intros [-> ->]%app_eq_nil. by rewrite N2, N1.
Qed.

(** A state that is part of another one. *)
Lemma recorded_embed {T} (log' : T -> list AuditEntry) (put : S -> T) s s' : (forall x, log' (put x) = log x) ->
  recorded_in log actor s s' -> recorded_in log' actor (put s) (put s').
Proof using Type. intros Hput (es & E & Hes & Hn). exists es. rewrite !Hput. split_and!; [done|done|]. intros H. by rewrite (Hn H). Qed.
End recorded.

Abbreviation recorded := (recorded_in t_audit).

(** Entries as the handlers write them. *)
Definition entries_of (actor : option N) (es : list AuditEntry) : Prop :=
  es <> [] /\ Forall (fun e => Audit_ActorUserID e = actor /\ Audit_ActorType e = "") es.

Lemma written_recorded {S} (log : S -> list AuditEntry) actor es s s' : entries_of actor es ->
  log s' = audit_write (log s) es -> recorded_in log actor s s'.
Proof.
  intros [Hne Hes] E. unfold audit_write in E. eexists. split; [exact E|]. split; [|by intros ?%fmap_nil_inv].
  apply Forall_fmap. eapply Forall_impl; [exact Hes|]. intros e [He Ht]. simpl. by rewrite decide_True.
Qed.

Lemma logged_recorded actor es d d' : logged es d d' -> entries_of actor es -> recorded actor d d'.
Proof. intros [->|Hd] Hes; [apply recorded_refl|]. by eapply written_recorded. Qed.

(** The result of one call of the store. *)
Lemma op_recorded {A} actor es d (x : A * DB) r d' : x = (r, d') -> logged es d x.2 -> entries_of actor es -> recorded actor d d'.
Proof. intros ->. apply logged_recorded. Qed.

Ltac by_op := match goal with
  | E : ?x = (_, ?d') |- recorded _ _ ?d' =>
      eapply (op_recorded _ _ _ x _ _ E); [solve [simpl; eauto with audit]|split; [done|repeat constructor]]
  end.
Ltac recorded_cases := repeat (case_match; simplify_eq/=); first [apply recorded_refl | by_op].

Lemma WriteAuditEntries_logged es d : logged es d (pg_WriteAuditEntries es d).2.
Proof. tx_logged pg_WriteAuditEntries. Qed.
#[export] Hint Resolve WriteAuditEntries_logged : audit.

Section services.
Context {AE : Aead} {CO : Collector} {YM : Yaml} {SH : Sha256}.
Context (unicode_lower : Z -> Z) (uuid_string : N -> string) (no_key_message : string) (cipher : option Cipher) (actor : option N).

Lemma create_loop_recorded fuel name region derived envs : forall base try attempt d,
  recorded actor d (create_loop uuid_string fuel actor name base try region derived attempt envs d).2.
Proof using Type.
  induction fuel as [|fuel IH]; intros base try attempt d; simpl; [apply recorded_refl|].
  assert (forall r d1, try_create uuid_string actor name try region (envs attempt) d = Ok (r, d1) -> recorded actor d d1) as Ht.
  { intros r d1. unfold try_create. repeat (case_match; simplify_eq/=); try done; intros [= <- <-]; by_op. }
  destruct (try_create _ _ _ _ _ _ _) as [[[cc|err] d1]|e]; [by eapply Ht| |apply recorded_refl]. specialize (Ht _ _ eq_refl).
  repeat case_match; try exact Ht; (eapply recorded_trans; [exact Ht|apply IH]).
Qed.

Lemma svc_CreateCustomer_recorded name slug region envs d :
  recorded actor d (TenantsService.CreateCustomer unicode_lower uuid_string actor name slug region envs d).2.
Proof using Type. unfold TenantsService.CreateCustomer. repeat case_match; first [apply recorded_refl|apply create_loop_recorded]. Qed.

Lemma lift_store_2 {A} (x : result A store_err * DB) : (lift_store x).2 = x.2.
Proof using Type. by destruct x as [[] ?]. Qed.

Lemma call_recorded {A} es d (x : A * DB) : logged es d x.2 -> entries_of actor es -> recorded actor d x.2.
Proof using Type. apply logged_recorded. Qed.

Ltac lifted := rewrite ?lift_store_2; eapply call_recorded; [solve [eauto with audit]|split; [done|repeat constructor]].

Lemma svc_UpdateCustomer_recorded now id upd d : recorded actor d (TenantsService.UpdateCustomer uuid_string now actor id upd d).2.
Proof using Type. unfold TenantsService.UpdateCustomer. case_match; [apply recorded_refl|lifted]. Qed.
Lemma svc_DeleteCustomer_recorded now purge id d : recorded actor d (TenantsService.DeleteCustomer uuid_string now purge actor id d).1.2.
Proof using Type. unfold TenantsService.DeleteCustomer. recorded_cases. Qed.
Lemma svc_CreateAPIKey_recorded e id name exp d : recorded actor d (TenantsService.CreateAPIKey uuid_string e actor id name exp d).2.
Proof using Type. unfold TenantsService.CreateAPIKey. recorded_cases. Qed.
Lemma svc_RevokeAPIKey_recorded now id key d : recorded actor d (TenantsService.RevokeAPIKey uuid_string now actor id key d).2.
Proof using Type. unfold TenantsService.RevokeAPIKey. lifted. Qed.
Lemma svc_CreateAPIToken_recorded e name role exp d : recorded actor d (TenantsService.CreateAPIToken uuid_string e actor name role exp d).2.
Proof using Type. unfold TenantsService.CreateAPIToken. recorded_cases. Qed.
Lemma svc_RevokeAPIToken_recorded now id d : recorded actor d (TenantsService.RevokeAPIToken uuid_string now actor id d).2.
Proof using Type. unfold TenantsService.RevokeAPIToken. lifted. Qed.
Lemma svc_CreateBootstrapToken_recorded e created id name exp max d :
  recorded actor d (Enrollment.CreateBootstrapToken uuid_string e created actor id name exp max d).2.
Proof using Type. unfold Enrollment.CreateBootstrapToken. recorded_cases. Qed.
Lemma svc_RevokeBootstrapToken_recorded now id tok d : recorded actor d (Enrollment.RevokeBootstrapToken uuid_string now actor id tok d).2.
Proof using Type. unfold Enrollment.RevokeBootstrapToken. lifted. Qed.

Lemma create_checks_entries e id name tc g d pc res :
  create_checks unicode_lower uuid_string no_key_message cipher e actor id name tc g d = Ok (Some pc, res) -> entries_of actor (pc_entries pc).
Proof using Type.
  unfold create_checks. repeat (case_match; simplify_eq/=); try done; intros [= <- <-]; split; simpl; try done.
  all: apply Forall_cons; split; [done|]; apply Forall_cons; split; [done|]; apply Forall_nil; done.
Qed.

Lemma svc_Create_recorded e id name tc g d :
  recorded actor d (Create unicode_lower uuid_string no_key_message cipher e actor id name tc g d).2.
Proof using Type.
  unfold Create. destruct (create_checks _ _ _ _ _ _ _ _ _ _ _) as [[[pc|] res]|err] eqn:Hc; [|apply recorded_refl..].
  apply create_checks_entries in Hc. unfold create_commit. repeat (case_match; simplify_eq/=);
    (eapply op_recorded; [eassumption|eauto with audit|done]).
Qed.

Lemma svc_CreateVersion_recorded e id g d :
  recorded actor d (CreateVersion unicode_lower uuid_string no_key_message cipher e actor id g d).2.
Proof using Type. unfold CreateVersion. recorded_cases. Qed.

Lemma inTx_written {A} es (f : tx A) d a d' : Writes es f -> inTx f d = (Ok a, d') -> t_audit d' = audit_write (t_audit d) es.
Proof using Type. intros Hf H%inTx_Ok. by apply Hf in H. Qed.

Section worlds.
Context {D : Type} {DI : Distributor D} (edge : option (N -> result unit string)).

Abbreviation recorded_world := (recorded_in (fun w : world (D := D) => t_audit (w_db w)) actor).

Lemma recorded_with_db d w : recorded actor (w_db w) d -> recorded_world w (with_db d w).
Proof using Type. intros H. destruct w as [d0 ? ?]. by apply (recorded_embed t_audit actor _ (fun d => MkWorld d _ _)). Qed.

Lemma svc_Activate_recorded id version (w : world (D := D)) :
  recorded_world w (Activate unicode_lower uuid_string cipher edge actor id version w).2.
Proof using Type.
  unfold Activate. destruct (pg_ActivatePipelineVersion _ _ _ _) as [[[pipe v]|err] d'] eqn:E; cbn [snd]; [|apply recorded_with_db; by_op].
  pose proof (roll_out_db unicode_lower cipher edge pipe (with_db d' w)) as Hr. eapply inTx_written in E; [|apply _].
  destruct (roll_out _ _ _ _ _) as [[[]|] w']; cbn [snd] in *; (eapply written_recorded; [|by rewrite Hr]; split; [done|repeat constructor]).
Qed.

Lemma svc_Delete_recorded id (w : world (D := D)) : recorded_world w (Delete unicode_lower uuid_string cipher edge actor id w).2.
Proof using Type.
  unfold Delete. destruct (pg_GetPipeline _ _) as [pipe|]; [|apply recorded_refl].
  destruct (pg_DeletePipeline _ _ _) as [[[]|err] d'] eqn:E; cbn [snd]; [|apply recorded_with_db; by_op].
  pose proof (roll_out_db unicode_lower cipher edge pipe (with_db d' w)) as Hr. eapply inTx_written in E; [|apply _].
  case_match; cbn [snd]; (eapply written_recorded; [|rewrite ?Hr; exact E]; split; [done|repeat constructor]).
Qed.

Lemma notify_recorded es (w w' : world (D := D)) : entries_of actor es ->
  w_db w' = w_db w -> recorded_world w (with_db (pg_WriteAuditEntries es (w_db w')).2 w').
Proof using Type.
  intros [Hne Hes] Hw. eapply (written_recorded _ _ es); [by split|]. rewrite <- Hw. by destruct es.
Qed.
End worlds.
End services.

#[export] Hint Resolve svc_CreateCustomer_recorded svc_UpdateCustomer_recorded svc_CreateAPIKey_recorded svc_RevokeAPIKey_recorded
  svc_CreateAPIToken_recorded svc_RevokeAPIToken_recorded svc_CreateBootstrapToken_recorded svc_RevokeBootstrapToken_recorded
  svc_Create_recorded svc_CreateVersion_recorded : audit.

(** ** What the API records *)

(** The tables a service leaves. *)
Lemma result_recorded {A} actor d (x : A * DB) r d' : x = (r, d') -> recorded actor d x.2 -> recorded actor d d'.
Proof. by intros ->. Qed.

Ltac by_service := match goal with
  | E : ?x = (_, ?d') |- recorded _ _ ?d' => apply (result_recorded _ _ x _ _ E); solve [eauto with audit]
  end.
Ltac handled := unfold checked; repeat (case_match; simplify_eq/=); first [apply recorded_refl | by_service | by_op].

Section handlers.
Context {AE : Aead} {CO : Collector} {YM : Yaml} {SH : Sha256} {NU : NetUrl} {CP : X509}.
Context (unicode_lower : Z -> Z) (uuid_string : N -> string) (no_key_message url_parse_error cert_error baseURL : string) (cipher : option Cipher).
Context (cfg : region_config) {D : Type} {DI : Distributor D} (edge : option (N -> result unit string)) (p : option Principal).

Lemma SyncAgent_recorded id (w : world (D := D)) : recorded_in (fun w => t_audit (w_db w)) (actorID p) w (SyncAgent uuid_string p edge id w).2.
Proof using Type.
  unfold SyncAgent. destruct (agent_head _ _ _) as [a|]; [|apply recorded_refl]. case_match; [apply recorded_refl|].
  destruct (Agent_CustomerID a) as [c|]; [|apply recorded_refl]. pose proof (notifyEdge_db edge c w) as Hn.
  assert (forall e w', notifyEdge edge c w = (Err e, w') -> w' = w) as He.
  { unfold notifyEdge. intros e w'. repeat case_match; congruence. }
  unfold ResyncEdge. destruct (notifyEdge edge c w) as [[[s detail]|e] w']; cbn [snd] in Hn |- *.
  - apply notify_recorded; [|done]. split; [done|repeat constructor].
  - rewrite (He _ _ eq_refl). apply recorded_refl.
Qed.

Lemma write_recorded r (w : world (D := D)) :
  recorded_in (fun w => t_audit (w_db w)) (actorID p) w (write unicode_lower uuid_string no_key_message cipher cfg edge p r w).
Proof using Type.
  destruct r; simpl; unfold on_db; try apply recorded_with_db; simpl.
  - unfold CreateCustomer. handled.
  - unfold UpdateCustomer. handled.
  - unfold DeleteCustomer. case_match; [apply recorded_refl|].
    pose proof (svc_DeleteCustomer_recorded uuid_string (actorID p) now purge_enabled id (w_db w)) as H'. repeat (case_match; simplify_eq/=); done.
  - unfold CreateApiKey. handled.
  - unfold RevokeApiKey. handled.
  - unfold DeleteAgent. handled.
  - unfold UpdateAgent. handled.
  - apply SyncAgent_recorded.
  - unfold CreateBootstrapToken. handled.
  - unfold RevokeBootstrapToken. handled.
  - unfold CreatePipeline. handled.
  - unfold DeletePipeline, checked. case_match; [apply recorded_refl|].
    pose proof (svc_Delete_recorded unicode_lower uuid_string cipher (actorID p) edge id w) as H'. repeat (case_match; simplify_eq/=); done.
  - unfold CreatePipelineVersion. handled.
  - unfold ActivatePipelineVersion, checked. case_match; [apply recorded_refl|].
    pose proof (svc_Activate_recorded unicode_lower uuid_string cipher (actorID p) edge id version w) as H'. repeat (case_match; simplify_eq/=); done.
Qed.

Lemma grants_recorded id cs d : recorded (actorID p) d (setUserGrants uuid_string p id cs d).2.
Proof using Type. unfold setUserGrants. handled. Qed.

Lemma InviteUser_recorded now id email role cs d : recorded (actorID p) d (InviteUser unicode_lower uuid_string p now id email role cs d).2.
Proof using Type.
  unfold InviteUser. case_match; [apply recorded_refl|]. case_match; [apply recorded_refl|].
  destruct (pg_CreateInvitedUser _ _ _ _ _ d) as [[u|err] d'] eqn:E; [|destruct err; by_op].
  assert (recorded (actorID p) d d') as Hd by by_op. case_match; [|exact Hd]. pose proof (grants_recorded id (default [] cs) d') as Hg.
  destruct (setUserGrants _ _ _ _ _) as [[e|] d'']; (eapply recorded_trans; [exact Hd|exact Hg]).
Qed.

Lemma UpdateUser_recorded now id role dis cs d : recorded (actorID p) d (UpdateUser uuid_string p now id role dis cs d).2.
Proof using Type.
  unfold UpdateUser. destruct p as [pr|] eqn:Hp; [rewrite <- Hp|apply recorded_refl]. destruct (unknown_role role); [apply recorded_refl|].
  destruct (_ && _ && _); [apply recorded_refl|].
  destruct (bool_decide (id = _) && match role with Some _ => _ | None => _ end); [apply recorded_refl|].
  destruct (bool_decide (id = _) && default false dis); [apply recorded_refl|].
  assert (forall e d1, match cs with Some cs => setUserGrants uuid_string p id cs d | None => (None, d) end = (e, d1) -> recorded (actorID p) d d1) as Hg.
  { intros e d1. destruct cs as [cs|]; [|intros [= _ <-]; apply recorded_refl]. intros Hg. pose proof (grants_recorded id cs d) as H'.
    by rewrite Hg in H'. }
  destruct (match cs with Some _ => _ | None => _ end) as [e d1] eqn:Hcs. specialize (Hg _ _ eq_refl). destruct e; [done|].
  eapply recorded_trans; [exact Hg|]. clear Hp. handled.
Qed.

Lemma admin_recorded now r d :
  recorded (actorID p) d (admin_step unicode_lower uuid_string no_key_message url_parse_error cipher p now r d).2.
Proof using Type.
  destruct r; simpl; [apply InviteUser_recorded|apply UpdateUser_recorded|..].
  - unfold DeleteUser. destruct p as [pr|] eqn:Hp; [rewrite <- Hp; clear Hp; handled|apply recorded_refl].
  - unfold CreateWebhook. handled.
  - unfold UpdateWebhook. handled.
  - unfold DeleteWebhook. handled.
  - unfold CreateAlertRule. handled.
  - unfold UpdateAlertRule. handled.
  - unfold DeleteAlertRule. handled.
  - unfold CreateMaintenanceWindow. handled.
  - unfold DeleteMaintenanceWindow. handled.
  - unfold CreateApiToken. handled.
  - unfold RevokeApiToken. handled.
  - unfold UpdateBillingSettings. handled.
  - unfold SetBillingOverride. handled.
  - unfold DeleteBillingOverride. handled.
Qed.

Abbreviation recorded_auth := (recorded_in (fun s => t_audit (ad_tables s)) (actorID p)).

Lemma commit_recorded {A} ps action etype eid customer payload (a : A) s :
  recorded_auth s (commit_providers ps (user_audit p action etype eid customer payload) a s).2.
Proof using Type. eapply written_recorded; [|reflexivity]. split; [done|repeat constructor]. Qed.

Lemma provider_recorded now r s :
  recorded_auth s (provider_step uuid_string no_key_message cert_error baseURL cipher p now r s).
Proof using Type.
  assert (forall A (x : result A store_err * auth_db) c s', x = (c, s') -> recorded_auth s x.2 -> recorded_auth s s') as Hx by (by intros A x c s' ->).
  destruct r as [id n b|id n b|id]; simpl.
  - unfold CreateAuthProviderConfig. repeat (case_match; try apply recorded_refl); cbn [snd];
      (eapply Hx; [eassumption|]; unfold pg_CreateAuthProvider; repeat (case_match; try apply recorded_refl); apply commit_recorded).
  - unfold UpdateAuthProviderConfig. repeat (case_match; try apply recorded_refl); cbn [snd];
      (eapply Hx; [eassumption|]; unfold pg_UpdateAuthProvider; repeat (case_match; try apply recorded_refl); apply commit_recorded).
  - unfold DeleteAuthProviderConfig. repeat (case_match; try apply recorded_refl); cbn [snd];
      (eapply Hx; [eassumption|]; unfold pg_DeleteAuthProvider; repeat (case_match; try apply recorded_refl); apply commit_recorded).
Qed.
End handlers.

(** ** The control plane

    The providers' table and the rest of the service's state, and every request
    that writes: those of customers and fleets, of the administration and of
    the login providers. *)

Section control_plane.
Context {AE : Aead} {CO : Collector} {YM : Yaml} {SH : Sha256} {NU : NetUrl} {CP : X509}.
Context (unicode_lower : Z -> Z) (uuid_string : N -> string) (no_key_message url_parse_error cert_error baseURL : string) (cipher : option Cipher).
Context (cfg : region_config) {D : Type} {DI : Distributor D} (edge : option (N -> result unit string)).

Record plane : Type := MkPlane { pl_providers : gmap N AuthProvider; pl_world : world (D := D) }.

Inductive api_request : Type :=
| Tenant (r : write_request)
| Admin (now : Z) (r : admin_request)
| Provider (now : Z) (r : provider_request).

Definition audit_log (s : plane) : list AuditEntry := t_audit (w_db (pl_world s)).

Definition serve_request (p : option Principal) (r : api_request) (s : plane) : plane :=
  let w := pl_world s in
  match r with
  | Tenant r => MkPlane (pl_providers s) (write unicode_lower uuid_string no_key_message cipher cfg edge p r w)
  | Admin now r =>
      MkPlane (pl_providers s) (with_db (admin_step unicode_lower uuid_string no_key_message url_parse_error cipher p now r (w_db w)).2 w)
  | Provider now r =>
      let a := provider_step uuid_string no_key_message cert_error baseURL cipher p now r (MkAuthDB (pl_providers s) (w_db w)) in
      MkPlane (ad_providers a) (with_db (ad_tables a) w)
  end.

(** Requests with their callers, one after the other. *)
Definition serve_requests (rs : list (option Principal * api_request)) (s : plane) : plane :=
  foldl (fun s x => serve_request x.1 x.2 s) s rs.

Lemma request_recorded p r s : recorded_in audit_log (actorID p) s (serve_request p r s).
Proof using Type.
  destruct s as [ps [d dist ann]], r as [r|now r|now r]; simpl.
  - apply (recorded_embed (fun w => t_audit (w_db w)) _ _ (MkPlane ps)); [done|apply write_recorded].
  - apply (recorded_embed t_audit _ _ (fun d => MkPlane ps (MkWorld d dist ann))); [done|apply admin_recorded].
  - apply (recorded_embed (fun a => t_audit (ad_tables a)) _ _ (fun a => MkPlane (ad_providers a) (MkWorld (ad_tables a) dist ann)) (MkAuthDB ps d));
      [done|apply provider_recorded].
Qed.

End control_plane.
