(* ===== verification/AuditLog.v ===== *)
(** Reading the audit log: ListAuditLog of internal/store/pg_audit.go and of
    internal/api/handlers_admin.go.

    The id and the time of an entry are given by its place in the log.  Ids
    come from the table's sequence, in the order of the inserts. *)
From S2P Require Import Prelude GoStrings Json StoreTypes Slug Tokens Authz PgCore Crypto TenantsService PipelineGraph Secrets Render Validate RenderSpec PgPipelines PipelineService PgUsers PgScim ApiCore ApiTenant ApiAdmin AuthProviders.
From Stdlib Require Import Ascii.

Open Scope string_scope.

Record AuditFilter : Type := MkAuditFilter {
  AuditFilter_Action : option string;
  AuditFilter_EntityType : option string;
  AuditFilter_CustomerID : option N;
  AuditFilter_ActorUserID : option N;
  AuditFilter_From : option Z;
  AuditFilter_To : option Z;
  AuditFilter_Limit : Z;
  AuditFilter_BeforeID : option Z
}.

Record AuditRow : Type := MkAuditRow {
  AuditRow_ID : Z;
  AuditRow_Entry : AuditEntry;
  AuditRow_ActorEmail : option string;
  AuditRow_CustomerName : option string;
  AuditRow_CreatedAt : Z
}.

Record ListAuditLogParams : Type := MkListAuditLogParams {
  lp_Action : option string;
  lp_EntityType : option string;
  lp_CustomerId : option N;
  lp_ActorUserId : option N;
  lp_From : option Z;
  lp_To : option Z;
  lp_Limit : option Z;
  lp_BeforeId : option Z
}.

(** The entry of the API: the row with its payload as a map. *)
Record api_AuditEntry : Type := MkApiAuditEntry {
  ae_Id : Z;
  ae_ActorType : string;
  ae_ActorUserId : option N;
  ae_ActorEmail : option string;
  ae_Action : string;
  ae_EntityType : string;
  ae_EntityId : string;
  ae_CustomerId : option N;
  ae_CustomerName : option string;
  ae_CreatedAt : Z;
  ae_Payload : option (list (string * jval))
}.

Section listing.
Context (ids times : nat -> Z).

(** *** The store *)

Definition audit_row (d : DB) (i : nat) (e : AuditEntry) : AuditRow :=
  MkAuditRow (ids i) e (User_Email <$> (Audit_ActorUserID e ≫= fun u => t_users d !! u))
    (Customer_Name <$> (Audit_CustomerID e ≫= fun c => t_customers d !! c)) (times i).

Definition audit_rows (d : DB) : list AuditRow := imap (audit_row d) (t_audit d).

(** A condition that a filter sets or leaves out. *)
Definition narrows {A} (o : option A) (test : A -> bool) : bool := match o with Some a => test a | None => true end.

Definition audit_where (f : AuditFilter) (r : AuditRow) : bool :=
  let e := AuditRow_Entry r in
  narrows (AuditFilter_Action f) (fun a => bool_decide (Audit_Action e = a))
  && narrows (AuditFilter_EntityType f) (fun t => bool_decide (Audit_EntityType e = t))
  && narrows (AuditFilter_CustomerID f) (fun c => bool_decide (Audit_CustomerID e = Some c))
  && narrows (AuditFilter_ActorUserID f) (fun u => bool_decide (Audit_ActorUserID e = Some u))
  && narrows (AuditFilter_From f) (fun t => t <=? AuditRow_CreatedAt r)%Z
  && narrows (AuditFilter_To f) (fun t => AuditRow_CreatedAt r <=? t)%Z
  && narrows (AuditFilter_BeforeID f) (fun b => AuditRow_ID r <? b)%Z.

(** [ORDER BY a.id DESC] *)
Definition audit_newer : AuditRow -> AuditRow -> bool := descending AuditRow_ID.

Definition audit_matching (f : AuditFilter) (d : DB) : list AuditRow := filter (fun r => audit_where f r = true) (audit_rows d).

Definition pg_ListAuditLog (f : AuditFilter) (d : DB) : list AuditRow :=
  take (Z.to_nat (AuditFilter_Limit f)) (sort_by audit_newer (audit_matching f d)).

(** *** The handler *)

Definition toAuditEntry (r : AuditRow) : api_AuditEntry :=
  let e := AuditRow_Entry r in
  MkApiAuditEntry (AuditRow_ID r) (Audit_ActorType e) (Audit_ActorUserID e) (AuditRow_ActorEmail r) (Audit_Action e) (Audit_EntityType e)
    (Audit_EntityID e) (Audit_CustomerID e) (AuditRow_CustomerName r) (AuditRow_CreatedAt r)
    (match detail_map (Audit_Payload e) with Some m => m | None => None end).

Definition filter_of (ps : ListAuditLogParams) : AuditFilter :=
  MkAuditFilter (lp_Action ps) (lp_EntityType ps) (lp_CustomerId ps) (lp_ActorUserId ps) (lp_From ps) (lp_To ps)
    (clamp_limit 50 200 (lp_Limit ps)) (lp_BeforeId ps).

(** The entries of a page and [NextBeforeId]. *)
Definition ListAuditLog (ps : ListAuditLogParams) (d : DB) : outcome (list api_AuditEntry * option Z) :=
  let limit := clamp_limit 50 200 (lp_Limit ps) in
  let rows := pg_ListAuditLog (filter_of ps) d in
  let next := if (Z.of_nat (length rows) =? limit)%Z then AuditRow_ID <$> last rows else None in
  Success 200 (toAuditEntry <$> rows, next).

(** *** A client that follows the cursor *)

Definition with_before_id (ps : ListAuditLogParams) (b : option Z) : ListAuditLogParams :=
  MkListAuditLogParams (lp_Action ps) (lp_EntityType ps) (lp_CustomerId ps) (lp_ActorUserId ps) (lp_From ps) (lp_To ps) (lp_Limit ps) b.

(** The [k]-th page is read from [tables k]; [None] when [fuel] pages were not
    enough. *)
Fixpoint follow_audit (fuel : nat) (tables : nat -> DB) (k : nat) (ps : ListAuditLogParams) : option (list api_AuditEntry) :=
  match fuel with
  | O => None
  | S fuel =>
      match ListAuditLog ps (tables k) with
      | Success _ (page, None) => Some page
      | Success _ (page, Some next) => rest ← follow_audit fuel tables (S k) (with_before_id ps (Some next)); Some (page ++ rest)%list
      | _ => None
      end
  end.
End listing.

(** ** Following the cursor *)

(** An entry without what it is joined with. *)
Definition bare (e : api_AuditEntry) : api_AuditEntry :=
  MkApiAuditEntry (ae_Id e) (ae_ActorType e) (ae_ActorUserId e) None (ae_Action e) (ae_EntityType e) (ae_EntityId e) (ae_CustomerId e) None
    (ae_CreatedAt e) (ae_Payload e).

Section paging.
Context (ids times : nat -> Z).
Hypothesis ids_grow : forall i j, (i < j)%nat -> (ids i < ids j)%Z.

(** The rows of a log without the joins, and those of them a filter matches,
    as listed. *)
Definition bare_row (i : nat) (e : AuditEntry) : AuditRow := MkAuditRow (ids i) e None None (times i).

Definition matching (f : AuditFilter) (log : list AuditEntry) : list AuditRow :=
  sort_by audit_newer (filter (fun r => audit_where f r = true) (imap bare_row log)).

Definition strip (r : AuditRow) : AuditRow := MkAuditRow (AuditRow_ID r) (AuditRow_Entry r) None None (AuditRow_CreatedAt r).

Lemma sort_by_fmap {A B} (g : A -> B) (lt : A -> A -> bool) (lt' : B -> B -> bool) l : (forall x y, lt' (g x) (g y) = lt x y) ->
  g <$> sort_by lt l = sort_by lt' (g <$> l).
Proof using Type.
  intros Hlt. induction l as [|x l IH]; [done|]. rewrite fmap_cons. cbn [sort_by]. rewrite <- IH. generalize (sort_by lt l) as k. clear IH.
  induction k as [|y k IH]; [done|]. rewrite fmap_cons. cbn [insert_sorted]. rewrite Hlt. destruct (lt y x); [|done]. by rewrite fmap_cons, IH.
Qed.

Lemma strip_matching f d : strip <$> sort_by audit_newer (audit_matching ids times f d) = matching f (t_audit d).
Proof using Type.
  unfold matching, audit_matching, audit_rows. rewrite (sort_by_fmap strip audit_newer audit_newer) by done. f_equal.
  replace (imap bare_row (t_audit d)) with (strip <$> imap (audit_row ids times d) (t_audit d)) by (rewrite fmap_imap; by apply imap_ext).
  induction (imap (audit_row ids times d) (t_audit d)) as [|r l IH]; [done|]. rewrite fmap_cons, !filter_cons.
  change (audit_where f (strip r)) with (audit_where f r). case_decide; [by rewrite fmap_cons, IH|done].
Qed.

Lemma row_of_log r log : r ∈ imap bare_row log <-> exists i e, log !! i = Some e /\ r = bare_row i e.
Proof using Type. rewrite elem_of_lookup_imap. naive_solver. Qed.

Lemma audit_ids_NoDup log : NoDup (AuditRow_ID <$> imap bare_row log).
Proof using ids_grow.
  rewrite fmap_imap. apply NoDup_alt. intros i j x. rewrite !list_lookup_imap. destruct (log !! i), (log !! j); try done. simpl.
  intros [= <-] [= E]. destruct (Nat.lt_trichotomy i j) as [H|[H|H]]; [|done|]; apply ids_grow in H; lia.
Qed.

Lemma NoDup_fmap_filter {A B} (g : A -> B) (P : A -> Prop) `{forall x, Decision (P x)} l : NoDup (g <$> l) -> NoDup (g <$> filter P l).
Proof using Type.
  induction l as [|x l IH]; [done|]. rewrite fmap_cons, NoDup_cons, filter_cons. intros [Hx Hnd]. case_decide; [|by apply IH].
  rewrite fmap_cons. apply NoDup_cons. split; [|by apply IH]. intros (y & E & [_ Hy]%list_elem_of_filter)%list_elem_of_fmap.
  apply Hx. rewrite E. by apply list_elem_of_fmap_2.
Qed.

Definition below (f : AuditFilter) (b : Z) : AuditFilter :=
  MkAuditFilter (AuditFilter_Action f) (AuditFilter_EntityType f) (AuditFilter_CustomerID f) (AuditFilter_ActorUserID f) (AuditFilter_From f)
    (AuditFilter_To f) (AuditFilter_Limit f) (Some b).

Lemma matching_NoDup f log : NoDup (AuditRow_ID <$> matching f log).
Proof using ids_grow. unfold matching. rewrite sort_by_perm. apply NoDup_fmap_filter, audit_ids_NoDup. Qed.

(** The entries before one of a page are the same in every later log. *)
Lemma matching_below f log log' x : log `prefix_of` log' -> x ∈ matching f log ->
  matching (below f (AuditRow_ID x)) log' = filter (fun r => (AuditRow_ID r < AuditRow_ID x)%Z) (matching f log).
Proof using ids_grow.
  intros [new ->] Hx. unfold matching in *. rewrite sort_by_perm in Hx. apply list_elem_of_filter in Hx as [Hw Hx]. unfold audit_newer.
  rewrite <- sort_descending_filter by apply NoDup_fmap_filter, audit_ids_NoDup. f_equal. rewrite imap_app, filter_app.
  rewrite (filter_none _ (imap (bare_row ∘ Nat.add (length log)) new)), app_nil_r.
  - rewrite list_filter_filter. apply list_filter_iff. intros r. unfold audit_where in *. simpl. rewrite !andb_true_iff in *. rewrite Z.ltb_lt.
    destruct Hw as [_ Hb]. enough ((AuditRow_ID r < AuditRow_ID x)%Z -> narrows (AuditFilter_BeforeID f) (fun b => AuditRow_ID r <? b)%Z = true) by tauto.
    unfold narrows in *. destruct (AuditFilter_BeforeID f); [|done]. rewrite !Z.ltb_lt in *. lia.
  - apply Forall_forall. intros r Hr Hw'. apply elem_of_lookup_imap in Hr as (j & e & -> & Hj). apply row_of_log in Hx as (i & e' & Hi & ->).
    unfold audit_where in Hw'. rewrite !andb_true_iff in Hw'. destruct Hw' as [_ Hb]. simpl in Hb. rewrite Z.ltb_lt in Hb.
    pose proof (ids_grow i (length log + j)%nat) as Hg. apply lookup_lt_Some in Hi. lia.
Qed.

Lemma strip_bare (rows : list AuditRow) : bare <$> (toAuditEntry <$> rows) = toAuditEntry <$> (strip <$> rows).
Proof using Type. rewrite <- !list_fmap_compose. by apply list_fmap_ext. Qed.

Lemma filter_of_before ps b : filter_of (with_before_id ps (Some b)) = below (filter_of ps) b.
Proof using Type. done. Qed.

(** A page and its cursor in terms of the log. *)
Lemma ListAuditLog_page ps d : let n := Z.to_nat (clamp_limit 50 200 (lp_Limit ps)) in let all := matching (filter_of ps) (t_audit d) in
  exists page, ListAuditLog ids times ps d = Success 200 (page, if (n <=? length all)%nat then AuditRow_ID <$> last (take n all) else None)
    /\ bare <$> page = toAuditEntry <$> take n all.
Proof using Type.
  simpl. set (n := Z.to_nat _). unfold ListAuditLog, pg_ListAuditLog. change (AuditFilter_Limit (filter_of ps)) with (clamp_limit 50 200 (lp_Limit ps)).
  fold n. set (rows := sort_by audit_newer _). assert (strip <$> rows = matching (filter_of ps) (t_audit d)) as Hall by apply strip_matching.
  eexists. split; [|by rewrite strip_bare, fmap_take, Hall]. rewrite <- Hall, length_fmap, <- fmap_take, fmap_last. do 2 f_equal.
  pose proof (clamp_limit_range 50 200 (lp_Limit ps) ltac:(lia)) as Hr. rewrite length_take. destruct (Z.eqb_spec (Z.of_nat (n `min` length rows)) (clamp_limit 50 200 (lp_Limit ps)));
    destruct (Nat.leb_spec n (length rows)); [|lia..|done]. by destruct (last _).
Qed.

Lemma follow_audit_complete (tables : nat -> DB) : (forall k, t_audit (tables k) `prefix_of` t_audit (tables (S k))) ->
  forall fuel k ps, (length (matching (filter_of ps) (t_audit (tables k))) < fuel)%nat ->
  exists es, follow_audit ids times fuel tables k ps = Some es /\ bare <$> es = toAuditEntry <$> matching (filter_of ps) (t_audit (tables k)).
Proof using ids_grow.
  intros Hgrow. induction fuel as [|fuel IH]; intros k ps Hlen; [lia|]. cbn [follow_audit]. destruct (ListAuditLog_page ps (tables k)) as (page & -> & Hpage).
  set (n := Z.to_nat _) in *. set (all := matching _ (t_audit (tables k))) in *. pose proof (clamp_limit_range 50 200 (lp_Limit ps) ltac:(lia)) as Hr.
  destruct (Nat.leb_spec n (length all)) as [Hn|Hn]; [|exists page; split; [done|]; by rewrite Hpage, take_ge by lia].
  assert (0 < n)%nat by (unfold n; lia). destruct (page_last n all) as (x & Hlast & Hx); [lia|]. rewrite Hlast. simpl.
  assert (matching (filter_of (with_before_id ps (Some (AuditRow_ID x)))) (t_audit (tables (S k))) = drop n all) as Hrest.
  { rewrite filter_of_before, (matching_below _ (t_audit (tables k))) by done. apply drop_below; [apply matching_NoDup| |done].
    apply sort_by_strict_sorted, _. }
  destruct (IH (S k) (with_before_id ps (Some (AuditRow_ID x)))) as (rest & -> & He); [rewrite Hrest, length_drop; lia|].
  exists (page ++ rest)%list. split; [done|]. rewrite fmap_app, Hpage, He, Hrest, <- fmap_app. by rewrite take_drop.
Qed.
End paging.

(** C37: while the log goes on growing, following the cursor of the audit log
    ends within one page more than entries matched when the first page was
    read, and gives each of those entries exactly once, newest first, whatever
    the page size and the filter. *)
Theorem audit_pages_cover ids times (tables : nat -> DB) ps : (forall i j, (i < j)%nat -> (ids i < ids j)%Z) ->
  (forall k, t_audit (tables k) `prefix_of` t_audit (tables (S k))) ->
  let all := matching ids times (filter_of ps) (t_audit (tables 0%nat)) in
  exists es, follow_audit ids times (S (length all)) tables 0 ps = Some es /\ bare <$> es = toAuditEntry <$> all.
Proof. intros Hids Hgrow all. apply follow_audit_complete; [done|done|apply Nat.lt_succ_diag_r]. Qed.

(** ** Examples *)

Definition ex_ids (i : nat) : Z := Z.of_nat i + 1.
Definition ex_entry (action : string) : AuditEntry := MkAuditEntry (Some 7%N) "user" action "customer" "uuid" (Some 1%N) None.

(** The log has two entries more each time it is read. *)
Definition ex_growing (k : nat) : DB :=
  set_audit (fun _ => ex_entry <$> ["a"; "b"; "c"] ++ concat (replicate k ["late"; "later"]))%list empty_db.
Definition ex_pages_of (limit : Z) : ListAuditLogParams := MkListAuditLogParams None None (Some 1%N) None None None (Some limit) None.

Lemma audit_pages_cover_witness : exists es, follow_audit ex_ids ex_ids 4 ex_growing 0 (ex_pages_of 2) = Some es /\
  ae_Action <$> es = ["c"; "b"; "a"].
Proof.
  destruct (audit_pages_cover ex_ids ex_ids ex_growing (ex_pages_of 2)) as (es & He & Hes).
  - intros i j H. unfold ex_ids. lia.
  - intros k. exists (ex_entry <$> ["late"; "later"]). cbn [ex_growing set_audit t_audit]. rewrite <- fmap_app, replicate_S_end, concat_app.
    by rewrite <- app_assoc.
  - exists es. split; [exact He|]. apply (f_equal (fmap ae_Action)) in Hes. revert Hes. rewrite <- list_fmap_compose. intros Hes.
    transitivity ((ae_Action ∘ bare) <$> es); [done|]. rewrite Hes. vm_compute. reflexivity.
Defined.

#[local] Existing Instances ex_aead ex_yaml ex_collector PipelineService.ex_sha.

(** The entry of an activation names no customer: a listing by customer leaves
    it out. *)
Definition ex_actions (customer : option N) (d : DB) : outcome (list string) :=
  match ListAuditLog ex_ids ex_ids (MkListAuditLogParams None None customer None None None None None) d with
  | Success s (page, _) => Success s (ae_Action <$> page)
  | Failure s c m => Failure s c m
  | Raised e => Raised e
  end.

Example activation_without_customer :
  let d := w_db (ex_activate None 10%N 2%Z (ex_world ex_svc2)).2 in
  (ex_actions None d, ex_actions (Some 1%N) d)
  = (Success 200 ["pipeline_version.activate"; "pipeline_version.create"; "pipeline_version.create"; "pipeline.create"],
     Success 200 ["pipeline_version.create"; "pipeline_version.create"; "pipeline.create"]).
Proof. vm_compute. reflexivity. Qed.

(** Re-keying changes a stored secret without an entry. *)
Example rekeying_unrecorded :
  let s := provider_run (CP := ex_x509) ex_uuid "no key" "bad cert" "https://fleet" (Some ex_old_cipher) (Some ex_admin)
    [(5, PCreate 3 (Some ex_nonce) ex_oidc_body)]%Z ex_auth in
  let r := ReencryptSecretsHandler (Some ex_cipher) (fun _ => Some ex_nonce) s in
  r.1 = Success 200 1%Z /\ ad_providers r.2 <> ad_providers s /\ t_audit (ad_tables r.2) = t_audit (ad_tables s).
Proof. split_and!; [vm_compute; reflexivity| |vm_compute; reflexivity]. vm_compute. discriminate. Qed.
