(* ===== verification/HttpFront.v ===== *)
(** What stands in front of the HTTP API: the per-address rate limiter
    (internal/api/ratelimit.go), the record of denials (security_metrics.go),
    the classes of statuses (http_metrics.go), the body of customer updates
    (rawbody.go) and the files of the web interface (spa.go).

    The token bucket of golang.org/x/time/rate is an interface.  What the code
    relies on, that a bucket left alone for long enough is full again, is a
    law of it, and equality of limiters is up to what they will answer. *)
From S2P Require Import Prelude GoStrings.
From Stdlib Require Import Ascii.

Open Scope string_scope.
Open Scope Z_scope.

(** ** golang.org/x/time/rate *)

Class Limiter (L : Type) := {
  (** a limit in events per second, and a burst *)
  NewLimiter : Z -> Z -> L;
  (** at a time, for a number of events *)
  AllowN : Z -> Z -> L -> bool * L
}.

(** A limiter made for a rate and a burst and asked at increasing times, last at
    the given one. *)
Inductive used {L} `{!Limiter L} (rps burst : Z) : Z -> L -> Prop :=
| used_first now : used rps burst now (AllowN now 1 (NewLimiter rps burst)).2
| used_again t now lim : t <= now -> used rps burst t lim -> used rps burst now (AllowN now 1 lim).2.

(** Two limiters are equivalent when they answer alike from now on.  One that
    was idle for longer than [ttl] is as a new one. *)
Class LimiterLaws (L : Type) `{!Limiter L, !Equiv L} (rps burst ttl : Z) := {
  limiter_equivalence :: Equivalence (≡@{L});
  AllowN_equiv now (a b : L) : a ≡ b ->
    (AllowN now 1 a).1 = (AllowN now 1 b).1 /\ (AllowN now 1 a).2 ≡ (AllowN now 1 b).2;
  idle_is_new t now (lim : L) : used rps burst t lim -> ttl < time_sub now t ->
    (AllowN now 1 lim).1 = (AllowN now 1 (NewLimiter rps burst : L)).1 /\
    (AllowN now 1 lim).2 ≡ (AllowN now 1 (NewLimiter rps burst : L)).2
}.

(** ** ratelimit.go *)

Section limiter.
Context {L : Type} `{!Limiter L}.

Record ipBucket : Type := MkIpBucket { lim : L; seen : Z }.

Record ipRateLimiter : Type := MkIpRateLimiter {
  ip_buckets : gmap string ipBucket;
  ip_rps : Z;
  ip_burst : Z;
  ip_ttl : Z
}.

Definition newIPRateLimiter (rps burst : Z) : ipRateLimiter := MkIpRateLimiter ∅ rps burst (10 * minute).

Definition allow (ip : string) (now : Z) (l : ipRateLimiter) : bool * ipRateLimiter :=
  let b := match ip_buckets l !! ip with
           | Some b => lim b
           | None => NewLimiter (ip_rps l) (ip_burst l)
           end in
  let '(ok, b) := AllowN now 1 b in
  (ok, MkIpRateLimiter (<[ip := MkIpBucket b now]> (ip_buckets l)) (ip_rps l) (ip_burst l) (ip_ttl l)).

Definition cleanup (now : Z) (l : ipRateLimiter) : ipRateLimiter :=
  MkIpRateLimiter (filter (fun p => ~ ip_ttl l < time_sub now (seen p.2)) (ip_buckets l))
    (ip_rps l) (ip_burst l) (ip_ttl l).

(** The limiter's life: requests, and the ticks of its janitor. *)
Inductive limiter_event : Type :=
| Visit (ip : string) (now : Z)
| Tick (now : Z).

Definition event_time (e : limiter_event) : Z := match e with Visit _ now | Tick now => now end.

Fixpoint run_limiter (es : list limiter_event) (l : ipRateLimiter) : list (string * bool) * ipRateLimiter :=
  match es with
  | [] => ([], l)
  | Visit ip now :: es =>
      let '(ok, l) := allow ip now l in
      let '(oks, l) := run_limiter es l in ((ip, ok) :: oks, l)
  | Tick now :: es => run_limiter es (cleanup now l)
  end.

(** The verdicts on one address, and what a limiter of its own would say. *)
Definition verdicts_on (ip : string) (vs : list (string * bool)) : list bool :=
  snd <$> filter (fun v => v.1 = ip) vs.

Fixpoint visits_of (ip : string) (es : list limiter_event) : list Z :=
  match es with
  | [] => []
  | Visit ip' now :: es => if decide (ip' = ip) then now :: visits_of ip es else visits_of ip es
  | Tick _ :: es => visits_of ip es
  end.

Fixpoint ask (times : list Z) (b : L) : list bool :=
  match times with
  | [] => []
  | now :: times => let '(ok, b) := AllowN now 1 b in ok :: ask times b
  end.

(** *** One address at a time *)

Section laws.
Context (rps burst : Z) `{!Equiv L} `{!LimiterLaws L rps burst (10 * minute)}.

(** The bucket an address has, and the limiter it would have had alone: the
    same up to equivalence, or no bucket and one idle for too long. *)
Definition bucket_for (now : Z) (own : option (Z * L)) (b : option ipBucket) : Prop :=
  match own, b with
  | None, None => True
  | Some (t, own), Some b => seen b = t /\ t <= now /\ used rps burst t own /\ lim b ≡ own
  | Some (t, own), None => t <= now /\ used rps burst t own /\ 10 * minute < time_sub now t
  | None, Some _ => False
  end.

Definition own_limiter (own : option (Z * L)) : L :=
  match own with Some (_, b) => b | None => NewLimiter rps burst end.

Lemma ask_equiv times a b : a ≡ b -> ask times a = ask times b.
Proof using LimiterLaws0.
  revert a b. induction times as [|now times IH]; intros a b Hab; [done|]. simpl.
  apply (AllowN_equiv now) in Hab. destruct (AllowN now 1 a), (AllowN now 1 b). simpl in Hab.
  destruct Hab as [-> Hab]. f_equal. by apply IH.
Qed.

Lemma bucket_for_later now now' own b : now <= now' -> bucket_for now own b -> bucket_for now' own b.
Proof using Type.
  intros Hle. destruct own as [[t o]|], b as [b|]; simpl; try done; [naive_solver lia|].
  intros (? & ? & Hi). split_and!; [lia|done|]. revert Hi. unfold time_sub, minute, second, int64_min, int64_max. lia.
Qed.

(** What the limiter answers is what the address's own one would. *)
Lemma bucket_for_allow now own b : bucket_for now own b ->
  let r := AllowN now 1 (match b with Some b => lim b | None => NewLimiter rps burst end) in
  let r' := AllowN now 1 (own_limiter own) in
  r.1 = r'.1 /\ bucket_for now (Some (now, r'.2)) (Some (MkIpBucket r.2 now)).
Proof using LimiterLaws0.
  destruct own as [[t o]|], b as [b|]; simpl; try done.
  - intros (<- & Ht & Hu & Heq). apply (AllowN_equiv now) in Heq as [Hv Hs].
    split_and!; try done. by eapply used_again.
  - intros (Ht & Hu & Hidle). destruct (idle_is_new t now o Hu Hidle) as [Hv Hs].
    split_and!; [done|done|done|by eapply used_again|by symmetry].
  - intros _. split_and!; [done|done|done|apply used_first|reflexivity].
Qed.

Lemma bucket_for_cleanup now own b : bucket_for now own b ->
  bucket_for now own (b' ← b; if decide (~ 10 * minute < time_sub now (seen b')) then Some b' else None).
Proof using Type.
  destruct own as [[t o]|], b as [b|]; simpl; try done. intros (<- & Ht & Hu & Heq).
  case_decide as Hd; simpl; [done|]. done.
Qed.

Definition limiter_params (l : ipRateLimiter) : Prop :=
  ip_rps l = rps /\ ip_burst l = burst /\ ip_ttl l = 10 * minute.

Lemma verdicts_on_cons ip v vs :
  verdicts_on ip (v :: vs) = if decide (v.1 = ip) then v.2 :: verdicts_on ip vs else verdicts_on ip vs.
Proof using Type. unfold verdicts_on. rewrite filter_cons. by case_decide. Qed.

Lemma run_limiter_own ip es : forall own now l,
  limiter_params l -> bucket_for now own (ip_buckets l !! ip) ->
  Sorted Z.le (now :: (event_time <$> es)) ->
  verdicts_on ip (run_limiter es l).1 = ask (visits_of ip es) (own_limiter own).
Proof using LimiterLaws0.
  induction es as [|e es IH]; intros own now l Hp Hb Hs; [done|].
  inversion Hs as [|?? Hs' Hle]; subst. inversion Hle as [|?? Hnow]; subst. clear Hs Hle.
  assert (bucket_for (event_time e) own (ip_buckets l !! ip)) as Hb' by (by eapply bucket_for_later).
  destruct Hp as (Hr & Hbu & Ht). destruct e as [ip' t|t]; simpl in *.
  - unfold allow. rewrite Hr, Hbu. destruct (AllowN t 1 _) as [ok b'] eqn:Ha.
    match goal with |- context[run_limiter es ?l'] => set (l1 := l') end.
    assert (limiter_params l1) as Hp1 by done.
    destruct (run_limiter es l1) as [oks l2] eqn:Hrun. simpl. rewrite verdicts_on_cons. simpl.
    destruct (decide (ip' = ip)) as [->|Hne].
    + apply (bucket_for_allow t) in Hb' as [Hv Hnb]. rewrite Ha in Hv, Hnb. simpl in Hv, Hnb.
      destruct (AllowN t 1 (own_limiter own)) as [ok' o'] eqn:Ho. simpl in Hv, Hnb. subst ok'. simpl. rewrite Ho. f_equal.
      specialize (IH (Some (t, o')) t l1 Hp1). rewrite Hrun in IH. apply IH; [|done].
      unfold l1. simpl. by rewrite lookup_insert_eq.
    + specialize (IH own t l1 Hp1). rewrite Hrun in IH. apply IH; [|done].
      unfold l1. simpl. by rewrite lookup_insert_ne.
  - apply (IH own t); [done| |done]. simpl. rewrite Ht.
    apply bucket_for_cleanup in Hb'. revert Hb'. destruct (ip_buckets l !! ip) as [b|] eqn:Hl; simpl.
    + case_decide as Hd.
      * by rewrite (map_lookup_filter_Some_2 _ _ _ _ Hl Hd).
      * intros Hb'. replace (filter _ (ip_buckets l) !! ip) with (@None ipBucket); [done|].
        symmetry. apply map_lookup_filter_None. right. intros b' Hb1. simplify_eq. simpl. tauto.
    + intros Hb'. replace (filter _ (ip_buckets l) !! ip) with (@None ipBucket); [done|].
      symmetry. apply map_lookup_filter_None. by left.
Qed.

End laws.

(** After a tick the addresses in memory were seen within the ttl. *)
Lemma cleanup_recent now l ip b : ip_buckets (cleanup now l) !! ip = Some b -> time_sub now (seen b) <= ip_ttl l.
Proof using Type. simpl. rewrite map_lookup_filter_Some. simpl. lia. Qed.
End limiter.
Arguments ipBucket : clear implicits.
Arguments ipRateLimiter : clear implicits.

(** *** A token bucket in exact arithmetic *)

Module TokenBucket.
Record bucket : Type := MkBucket { rps : Z; burst : Z; level : Z; last : option Z }.

(** The level in billionths of a token. *)
Definition refilled (now : Z) (b : bucket) : Z :=
  Z.min (burst b * second) (level b + match last b with Some t => (now - t) * rps b | None => 0 end).

#[global] Instance limiter : Limiter bucket := {
  NewLimiter r b := MkBucket r b (b * second) None;
  AllowN now n b :=
    if n * second <=? refilled now b
    then (true, MkBucket (rps b) (burst b) (refilled now b - n * second) (Some now))
    else (false, MkBucket (rps b) (burst b) (refilled now b) (Some now))
}.

#[global] Instance bucket_equiv : Equiv bucket := (=).

Lemma used_level r bu t b : 0 <= r -> 0 <= bu -> used r bu t b ->
  rps b = r /\ burst b = bu /\ 0 <= level b /\ last b = Some t.
Proof.
  intros Hr Hb Hu. assert (0 <= bu * second) as Hbs by (unfold second; lia).
  induction Hu as [now|t now b Hle Hu (<- & <- & Hl & Ht)]; simpl.
  - unfold refilled. simpl. rewrite Z.add_0_r, Z.min_id. case_match; simpl; split_and!; try done; lia.
  - assert (0 <= refilled now b) as Hf by (unfold refilled; rewrite Ht; apply Z.min_glb; nia).
    case_match eqn:Hc; simpl; split_and!; try done. apply Z.leb_le in Hc. lia.
Qed.

(** The law holds when a bucket fills up within the time to live. *)
#[global] Instance limiter_laws r bu : TCAnd (TCEq (0 <=? bu) true) (TCEq (bu <=? 600 * r) true) ->
  LimiterLaws bucket r bu (10 * minute).
Proof.
  intros [Hb%TCEq_eq%Z.leb_le Hr%TCEq_eq%Z.leb_le]. split.
  - apply _.
  - by intros now a b ->.
  - intros t now b Hu Hidle.
    apply used_level in Hu as (Her & Heb & Hl & Ht); [|lia|lia]. simpl.
    assert (refilled now b = bu * second) as ->.
    { unfold refilled. rewrite Ht, Her, Heb. apply Z.min_l.
      revert Hidle. unfold time_sub, minute, second, int64_min, int64_max. nia. }
    assert (refilled now (MkBucket r bu (bu * second) None) = bu * second) as Hn.
    { unfold refilled. simpl. lia. }
    rewrite Hn, Her, Heb. by case_match.
Qed.
End TokenBucket.

Definition ex_traffic : list limiter_event :=
  [Visit "1.2.3.4" 0; Visit "1.2.3.4" 1; Visit "1.2.3.4" 2; Visit "5.6.7.8" 3;
   Tick (10 * minute + 3); Visit "5.6.7.8" (10 * minute + 4); Visit "1.2.3.4" (10 * minute + 5)].


(** A bucket that takes longer to fill up gains from being evicted: after ten
    minutes a limiter of 1 request per second has 600 tokens back, a new one all
    its 601. *)
Example eviction_refills :
  let burst_at t := repeat (Visit "1.2.3.4" t) 601 in
  let later := 10 * minute + 1 in
  let admitted es := length (filter (fun v => v.2 = true) (run_limiter es (newIPRateLimiter 1 601 (L := TokenBucket.bucket))).1) in
  admitted (burst_at 0 ++ burst_at later)%list = 1201%nat /\ admitted (burst_at 0 ++ Tick later :: burst_at later)%list = 1202%nat.
Proof. vm_compute. done. Qed.

(** *** clientIP *)

(** Splitting at the last occurrence of a byte. *)
Fixpoint cut_last (sep : ascii) (s : string) : option (string * string) :=
  match s with
  | "" => None
  | String c s =>
      match cut_last sep s with
      | Some (a, b) => Some (String c a, b)
      | None => if bool_decide (c = sep) then Some ("", s) else None
      end
  end.

(** [net.SplitHostPort]; [None] is an error. *)
Definition SplitHostPort (hostport : string) : option (string * string) :=
  match cut_last ":" hostport with
  | None => None
  | Some (before, port) =>
      match hostport with
      | String "[" rest =>
          match cut "]" rest with
          | None => None
          | Some (host, after) =>
              if bool_decide (before = String "[" (host +:+ "]")) && negb (has_byte "[" rest) && negb (has_byte "]" after)
              then Some (host, port) else None
          end
      | _ => if has_byte ":" before || has_byte "[" hostport || has_byte "]" hostport then None else Some (before, port)
      end
  end.

Definition clientIP (remoteAddr : string) : string :=
  match SplitHostPort remoteAddr with Some (host, _) => host | None => remoteAddr end.

Lemma cut_last_app sep a b : has_byte sep b = false -> cut_last sep (a +:+ String sep b) = Some (a, b).
Proof.
  intros Hb. assert (forall s, has_byte sep s = false -> cut_last sep s = None) as Hn.
  { intros s. induction s as [|c s IH]; simpl; [done|]. intros [Hc Hs]%orb_false_iff. rewrite IH by done.
    apply bool_decide_eq_false in Hc. by rewrite bool_decide_false by congruence. }
  induction a as [|c a IH]; simpl; [by rewrite Hn, bool_decide_true|]. by rewrite IH.
Qed.

(** The port makes no difference: an address has one bucket. *)
Lemma clientIP_port host port : all_bytes (fun c => bool_decide (c ∉ [":"; "["; "]"]%char)) host = true ->
  all_bytes is_digit port = true -> clientIP (host +:+ String ":" port) = host.
Proof.
  intros Hh Hp. unfold clientIP, SplitHostPort.
  rewrite cut_last_app by (by eapply all_bytes_no).
  assert (forall c, c ∈ [":"; "["; "]"]%char -> has_byte c host = false) as Hno.
  { intros c Hc. eapply all_bytes_no; [exact Hh|]. by apply bool_decide_eq_false_2; intros ?. }
  assert (has_byte "[" (host +:+ String ":" port) = false /\ has_byte "]" (host +:+ String ":" port) = false) as [Ho Hc].
  { rewrite !has_byte_app, !Hno by set_solver. simpl. split; by eapply all_bytes_no. }
  rewrite Ho, Hc, Hno by set_solver. destruct host as [|c host]; [done|]. simpl.
  specialize (Hno "["%char ltac:(set_solver)). simpl in Hno. apply orb_false_iff in Hno as [Hne%bool_decide_eq_false _].
  by destruct c as [[] [] [] [] [] [] [] []].
Qed.

Example clientIP_ex : clientIP "[2001:db8::1]:443" = "2001:db8::1" /\ clientIP "2001:db8::1" = "2001:db8::1"
  /\ clientIP "1.2.3.4:80" = "1.2.3.4" /\ clientIP "1.2.3.4" = "1.2.3.4".
Proof. done. Qed.

(** ** security_metrics.go *)

Definition reasonUnauthenticated : string := "unauthenticated".
Definition reasonUnknownUser : string := "unknown_user".
Definition reasonAccountDisabled : string := "account_disabled".
Definition reasonInvalidToken : string := "invalid_api_token".
Definition reasonRequiresAdmin : string := "requires_admin".
Definition reasonInsufficient : string := "insufficient_role".
Definition reasonCSRF : string := "csrf".
Definition reasonRateLimited : string := "rate_limited".
Definition reasonTenantScope : string := "tenant_scope".

(** A line of the security log. *)
Record denial : Type := MkDenial {
  dn_reason : string;
  dn_status : Z;
  dn_method : string;
  dn_path : string;
  dn_remote_ip : string;
  dn_actor : string
}.

(** The counter by reason ([None] without a registry) and the log. *)
Record securityMetrics : Type := MkSecurityMetrics { denied : option (gmap string Z); denial_log : list denial }.

Definition newSecurityMetrics (registry : bool) : securityMetrics :=
  MkSecurityMetrics (if registry then Some ∅ else None) [].

Definition metrics_inc (reason : string) (m : securityMetrics) : securityMetrics :=
  MkSecurityMetrics (partial_alter (fun n => Some (default 0 n + 1)) reason <$> denied m) (denial_log m).

Definition denyRequest (method path remoteAddr : string) (status : Z) (reason actor : string) (m : securityMetrics) : securityMetrics :=
  let actor := if bool_decide (actor = "") then "-" else actor in
  metrics_inc reason (MkSecurityMetrics (denied m) (denial_log m ++ [MkDenial reason status method path (clientIP remoteAddr) actor])%list).

(** The counter counts the lines of the log. *)
Definition metrics_consistent (m : securityMetrics) : Prop :=
  forall c, denied m = Some c -> forall reason,
    default 0 (c !! reason) = Z.of_nat (length (filter (fun d => dn_reason d = reason) (denial_log m))).

Lemma denyRequest_consistent method path addr status reason actor m :
  metrics_consistent m -> metrics_consistent (denyRequest method path addr status reason actor m).
Proof.
  intros Hm c Hc reason'. unfold denyRequest in *. simpl in *. destruct (denied m) as [c0|] eqn:H0; [|done].
  injection Hc as <-. specialize (Hm c0 H0). rewrite filter_app, length_app, Nat2Z.inj_add. rewrite <- Hm.
  rewrite filter_cons. simpl. rewrite filter_nil. destruct (decide (reason = reason')) as [->|Hne]; simpl.
  - by rewrite lookup_partial_alter_eq.
  - rewrite lookup_partial_alter_ne by done. lia.
Qed.

(** ** http_metrics.go *)

Definition statusClass (code : Z) : string :=
  if 500 <=? code then "5xx" else if 400 <=? code then "4xx" else if 300 <=? code then "3xx" else "2xx".

(** ** rawbody.go: a body and what is kept of it for the handlers of customers.
    A body is its bytes, and whether reading it fails after them (when it is
    longer than the cap of [maxBodyBytes]). *)

Record body : Type := MkBody { body_bytes : string; body_fails : bool }.

Definition rawBodyLimit : Z := Z.shiftl 1 20.

(** [http.MaxBytesReader] *)
Definition maxBodyBytes (n : Z) (b : option body) : option body :=
  b ← b; Some (if n <? len (body_bytes b) then MkBody (String.substring 0 (Z.to_nat n) (body_bytes b)) true else b).

(** The body the handler reads, and the captured bytes. *)
Definition captureRawBody (method path : string) (b : option body) : option body * option string :=
  match b with
  | Some b' =>
      if bool_decide (method = "PATCH") && has_prefix "/api/v1/customers/" path then
        let read := String.substring 0 (Z.to_nat rawBodyLimit) (body_bytes b') in
        if body_fails b' && (len (body_bytes b') <? rawBodyLimit) then (Some (MkBody "" true), None)
        else (Some (MkBody read false), Some read)
      else (b, None)
  | None => (b, None)
  end.

(** ** spa.go *)

(** [strings.Split(s, sep)] for a one-byte separator. *)
Fixpoint split_all (sep : ascii) (s : string) : list string :=
  match s with
  | "" => [""]
  | String c s =>
      if bool_decide (c = sep) then "" :: split_all sep s
      else match split_all sep s with
           | w :: ws => String c w :: ws
           | [] => [String c ""]
           end
  end.

(** [filepath.Clean] on the elements between slashes, the last one first. *)
Definition clean_step (rooted : bool) (stack : list string) (el : string) : list string :=
  if bool_decide (el = "") || bool_decide (el = ".") then stack
  else if bool_decide (el = "..") then
    match stack with
    | top :: stack' => if bool_decide (top = "..") then ".." :: stack else stack'
    | [] => if rooted then [] else [".."]
    end
  else el :: stack.

Definition is_rooted (p : string) : bool := has_prefix "/" p.

Definition clean_elements (p : string) : list string :=
  rev (fold_left (clean_step (is_rooted p)) (split_all "/" p) []).

Definition path_of (rooted : bool) (els : list string) : string :=
  let p := (if rooted then "/" else "") +:+ join "/" els in
  if bool_decide (p = "") then "." else p.

Definition Clean (p : string) : string := path_of (is_rooted p) (clean_elements p).

(** [filepath.Join] of two paths. *)
Definition Join (a b : string) : string :=
  if bool_decide (a = "") then (if bool_decide (b = "") then "" else Clean b) else Clean (a +:+ "/" +:+ b).

Definition path200 (p : string) : string :=
  Clean (if has_prefix "/" p then p else "/" +:+ p).

(** [path.Base] *)
Definition Base (p : string) : string :=
  match drop_while (fun c => bool_decide (c = "/"%char)) (rev (bytes_of p)) with
  | [] => if bool_decide (p = "") then "." else "/"
  | l => let p := of_bytes (rev l) in
         match cut_last "/" p with Some (_, base) => base | None => p end
  end.

Definition has_suffix (p s : string) : bool := has_prefix (of_bytes (rev (bytes_of p))) (of_bytes (rev (bytes_of s))).

(** [net/http]: the answers of its file serving. *)
Inductive file_answer : Type :=
| SentFile (name : string)
| Redirected (location : string)
| HttpError (status : Z).

Section files.
(** The file system: whether a path exists and is a directory. *)
Context (Stat : string -> option bool).

(** [serveFile] below the directory [dir]: [Dir.Open] joins the cleaned name to
    it.  The program has it send files only; what it makes of a directory is
    left out. *)
Definition serveFile (dir name urlPath : string) (redirect : bool) : file_answer :=
  if has_suffix "/index.html" urlPath then Redirected "./"
  else
    let file := Join dir (Clean ("/" +:+ name)) in
    match Stat file with
    | None => HttpError 404
    | Some isDir =>
        if redirect && isDir && negb (has_suffix "/" urlPath) then Redirected (Base urlPath +:+ "/")
        else if redirect && negb isDir && has_suffix "/" urlPath then
          if bool_decide (Base urlPath ∈ ["/"; "."]) then HttpError 500 else Redirected ("../" +:+ Base urlPath)
        else if isDir then HttpError 404 else SentFile file
    end.

(** [containsDotDot]: both slashes separate. *)
Definition containsDotDot (v : string) : bool :=
  existsb (fun el => bool_decide (el = "..")) (split_all "/" v ≫= split_all "\").

(** [http.ServeFile] of the file [name] in the directory [dir]. *)
Definition ServeFile (dir name urlPath : string) : file_answer :=
  if containsDotDot urlPath then HttpError 400
  else serveFile dir name urlPath false.

(** [http.FileServer(http.Dir(dir))] *)
Definition FileServer (dir urlPath : string) : file_answer :=
  serveFile dir (path200 urlPath) urlPath true.

Inductive spa_answer : Type :=
| ApiNotFound
| PlainNotFound
| FromDisk (a : file_answer).

Definition spaHandler (webDir path : string) : spa_answer :=
  if has_prefix "/api/" path then ApiNotFound
  else if bool_decide (webDir = "") || has_prefix "/auth/" path then PlainNotFound
  else
    let clean := Join webDir (path200 path) in
    match Stat clean with
    | Some false => FromDisk (FileServer webDir path)
    | _ => FromDisk (ServeFile webDir "index.html" path)
    end.
End files.

(** *** Nothing outside the directory is sent *)

Definition plain (el : string) : Prop := (el ∉ [""; "."; ".."]) /\ has_byte "/" el = false.

Lemma split_all_app sep a b : split_all sep (a +:+ String sep b) = (split_all sep a ++ split_all sep b)%list.
Proof.
  induction a as [|c a IH]; simpl; [by rewrite bool_decide_true|]. rewrite IH.
  case_bool_decide; [done|]. by destruct (split_all sep a) as [|w ws] eqn:Ha; [destruct a; simpl in Ha; repeat case_match|].
Qed.

Lemma split_all_no sep s : has_byte sep s = false -> split_all sep s = [s].
Proof.
  induction s as [|c s IH]; simpl; [done|]. intros [Hc Hs]%orb_false_iff. rewrite IH by done.
  apply bool_decide_eq_false in Hc. by rewrite bool_decide_false by congruence.
Qed.

Lemma split_all_bytes sep s : Forall (fun w => has_byte sep w = false) (split_all sep s).
Proof.
  induction s as [|c s IH]; simpl; [by repeat constructor|]. case_bool_decide as Hc; [by constructor|].
  destruct (split_all sep s) as [|w ws]; inversion IH; subst; repeat constructor; simpl; try done.
  - by rewrite bool_decide_false by congruence.
  - rewrite bool_decide_false by congruence. done.
Qed.

Lemma split_all_join sep els : Forall (fun w => has_byte sep w = false) els -> els <> [] ->
  split_all sep (join (String sep "") els) = els.
Proof.
  induction els as [|el els IH]; [done|]. intros [Hel Hels]%Forall_cons _. destruct els as [|el' els].
  - simpl. by apply split_all_no.
  - change (join (String sep "") (el :: el' :: els)) with (el +:+ String sep (join (String sep "") (el' :: els))).
    rewrite split_all_app, split_all_no, IH by done. done.
Qed.

(** Cleaning a rooted path leaves plain elements. *)
Lemma clean_step_plain stack el : has_byte "/" el = false -> Forall plain stack -> Forall plain (clean_step true stack el).
Proof.
  intros Hel Hs. unfold clean_step. case_bool_decide as H1; [done|]. case_bool_decide as H2; [done|]. simpl.
  case_bool_decide as H3.
  - destruct stack as [|top stack]; [done|]. apply Forall_cons in Hs as [[Ht _] Hs].
    rewrite bool_decide_false; [done|]. intros ->. set_solver.
  - constructor; [split; [set_solver|done]|done].
Qed.

Lemma clean_rooted p : is_rooted p = true ->
  exists els, Forall plain els /\ Clean p = "/" +:+ join "/" els.
Proof.
  intros Hp. exists (clean_elements p). split.
  - unfold clean_elements. rewrite Hp. apply Forall_rev.
    assert (forall ws stack, Forall (fun w => has_byte "/" w = false) ws -> Forall plain stack ->
      Forall plain (fold_left (clean_step true) ws stack)) as Hf.
    { induction ws as [|w ws IH]; intros stack Hw Hs; [done|]. apply Forall_cons in Hw as [? ?].
      simpl. apply IH; [done|]. by apply clean_step_plain. }
    apply Hf; [apply split_all_bytes|constructor].
  - unfold Clean, path_of. rewrite Hp. by rewrite bool_decide_false.
Qed.

Lemma clean_plain rooted els stack : Forall plain els -> fold_left (clean_step rooted) els stack = (rev els ++ stack)%list.
Proof.
  revert stack. induction els as [|el els IH]; intros stack Hels; [done|]. apply Forall_cons in Hels as [[He _] Hels].
  simpl. rewrite IH by done. rewrite <- app_assoc. simpl. unfold clean_step. f_equal.
  repeat (rewrite bool_decide_false; [|intros ->; set_solver]). done.
Qed.

Lemma has_prefix_slash c s : has_prefix "/" (String c s) = bool_decide (c = "/"%char).
Proof.
  unfold has_prefix. simpl. apply bool_decide_ext. case_bool_decide; by split.
Qed.

(** A rooted path joined to a directory only adds elements to it. *)
Lemma Join_rooted dir p : dir <> "" -> is_rooted p = true ->
  exists els, Forall plain els /\ Join dir (Clean p) = path_of (is_rooted dir) (clean_elements dir ++ els).
Proof.
  intros Hd (els & Hels & ->)%clean_rooted. exists els. split; [done|].
  unfold Join. rewrite bool_decide_false by done. unfold Clean.
  assert (is_rooted (dir +:+ "/" +:+ "/" +:+ join "/" els) = is_rooted dir) as Hr.
  { destruct dir as [|c dir]; [done|]. unfold is_rooted. simpl. by rewrite !has_prefix_slash. }
  rewrite Hr. f_equal. unfold clean_elements. rewrite Hr.
  change ("/" +:+ "/" +:+ join "/" els) with (String "/" (String "/" (join "/" els))).
  rewrite split_all_app, fold_left_app. cbn [split_all]. rewrite bool_decide_true by done. simpl.
  set (stack := fold_left _ (split_all "/" dir) []). rewrite <- (rev_involutive els) at 2. rewrite <- rev_app_distr. f_equal.
  destruct els as [|el els]; [done|]. rewrite split_all_join; [by apply clean_plain| |done].
  eapply Forall_impl; [exact Hels|]. by intros w [_ ?].
Qed.

(** Whatever path is asked for, the file sent is one of the directory: the
    elements of its path are those of the directory and then plain names. *)
Theorem spa_stays_inside Stat webDir path f : spaHandler Stat webDir path = FromDisk (SentFile f) ->
  Stat f = Some false /\ exists els, Forall plain els /\ f = path_of (is_rooted webDir) (clean_elements webDir ++ els).
Proof.
  unfold spaHandler. destruct (has_prefix "/api/" path); [done|].
  case_bool_decide as Hw; [done|]. simpl. destruct (has_prefix "/auth/" path); [done|].
  assert (forall name redirect, serveFile Stat webDir name path redirect = SentFile f ->
    Stat f = Some false /\ exists els, Forall plain els /\ f = path_of (is_rooted webDir) (clean_elements webDir ++ els)) as Hs.
  { intros name redirect. unfold serveFile. destruct (has_suffix "/index.html" path); [done|].
    destruct (Join_rooted webDir ("/" +:+ name) Hw) as (els & Hels & ->); [by unfold is_rooted; simpl; rewrite has_prefix_slash|].
    destruct (Stat _) as [[]|] eqn:Hst; [repeat case_match; done| |done].
    intros H. assert (f = path_of (is_rooted webDir) (clean_elements webDir ++ els)) as -> by (repeat case_match; naive_solver).
    eauto. }
  intros H. destruct (Stat (Join webDir (path200 path))) as [[]|]; injection H as H; unfold FileServer, ServeFile in H;
    try (destruct (containsDotDot path); [done|]); by eapply Hs.
Qed.

Example spa_ex :
  let fs p := if bool_decide (p ∈ ["/srv/web/app.js"; "/srv/web/index.html"; "/etc/passwd"]) then Some false
              else if bool_decide (p = "/srv/web") then Some true else None in
  spaHandler fs "/srv/web/" "/../../etc/passwd" = FromDisk (HttpError 400)
  /\ spaHandler fs "/srv/web/" "/x/../app.js" = FromDisk (SentFile "/srv/web/app.js")
  /\ spaHandler fs "/srv/web/" "/customers/7" = FromDisk (SentFile "/srv/web/index.html")
  /\ spaHandler fs "/srv/web/" "/" = FromDisk (SentFile "/srv/web/index.html")
  /\ spaHandler fs "/srv/web/" "/api/v1/unknown" = ApiNotFound.
Proof. vm_compute. done. Qed.
