(* ===== verification/Router.v ===== *)
(** The public HTTP surface (internal/api/router.go): the routes of the API, the
    router's dispatch and the order of its middleware, from a request as it is
    sent to the operation that runs and the principal it runs as.

    go-chi is an interface: the route it finds is one of the table, for the
    request's method, and its pattern fits the path.  What [url.URL] makes of a
    path is modelled, because the Guard looks at the decoded path and the
    router at the path as sent.  The session library hands over the session of
    the request's cookie; [RealIP] has put the client's address in place. *)
From S2P Require Import Prelude GoStrings GoFormat StoreTypes Tokens Authz ApiCore Scim Config HttpFront.
From Stdlib Require Import Ascii.

Open Scope string_scope.

(** ** Operations and routes (internal/api/apigen, HandlerWithOptions) *)

Module Op.
Inductive operation : Type :=
| ListAgents | DeleteAgent | GetAgent | UpdateAgent | GetAgentConfig | ListAgentEvents
| SyncAgent | ListAuditLog | DevLogin | Logout | ListAuthProviders | GetBillingStatement
| GetComponentCatalog | ListCustomers | CreateCustomer | DeleteCustomer | GetCustomer
| UpdateCustomer | ListApiKeys | CreateApiKey | RevokeApiKey | ListBootstrapTokens
| CreateBootstrapToken | RevokeBootstrapToken | QueryLogs | QueryCustomerMetricsRange
| ListCustomerPipelines | CreatePipeline | GetCustomerThroughput | QueryTraces | GetTrace
| GetMe | QueryMetricsRange | ListPipelines | ValidatePipeline | DeletePipeline | GetPipeline
| GetPipelineStageStats | CreatePipelineVersion | GetPipelineVersion
| ActivatePipelineVersion | ListRegions | ListAlertRules | CreateAlertRule | DeleteAlertRule
| UpdateAlertRule | ListApiTokens | CreateApiToken | RevokeApiToken | ListAuthProviderConfigs
| CreateAuthProviderConfig | DeleteAuthProviderConfig | UpdateAuthProviderConfig
| TestAuthProviderConfig | GetBillingSettings | UpdateBillingSettings | ListBillingOverrides
| DeleteBillingOverride | SetBillingOverride | ListMaintenanceWindows
| CreateMaintenanceWindow | DeleteMaintenanceWindow | ReencryptSecrets | ListWebhooks
| CreateWebhook | DeleteWebhook | UpdateWebhook | TestWebhook | GetCostStats
| GetStatsOverview | ListUsers | InviteUser | DeleteUser | UpdateUser.
End Op.

Definition api_routes_1 : list (string * string * Op.operation) :=
  [("GET", "/api/v1/agents", Op.ListAgents);
   ("DELETE", "/api/v1/agents/{agentId}", Op.DeleteAgent);
   ("GET", "/api/v1/agents/{agentId}", Op.GetAgent);
   ("PATCH", "/api/v1/agents/{agentId}", Op.UpdateAgent);
   ("GET", "/api/v1/agents/{agentId}/config", Op.GetAgentConfig);
   ("GET", "/api/v1/agents/{agentId}/events", Op.ListAgentEvents);
   ("POST", "/api/v1/agents/{agentId}/sync", Op.SyncAgent);
   ("GET", "/api/v1/audit", Op.ListAuditLog);
   ("POST", "/api/v1/auth/dev-login", Op.DevLogin);
   ("POST", "/api/v1/auth/logout", Op.Logout);
   ("GET", "/api/v1/auth/providers", Op.ListAuthProviders);
   ("GET", "/api/v1/billing/statement", Op.GetBillingStatement);
   ("GET", "/api/v1/catalog/components", Op.GetComponentCatalog);
   ("GET", "/api/v1/customers", Op.ListCustomers);
   ("POST", "/api/v1/customers", Op.CreateCustomer);
   ("DELETE", "/api/v1/customers/{customerId}", Op.DeleteCustomer);
   ("GET", "/api/v1/customers/{customerId}", Op.GetCustomer);
   ("PATCH", "/api/v1/customers/{customerId}", Op.UpdateCustomer);
   ("GET", "/api/v1/customers/{customerId}/api-keys", Op.ListApiKeys);
   ("POST", "/api/v1/customers/{customerId}/api-keys", Op.CreateApiKey);
   ("DELETE", "/api/v1/customers/{customerId}/api-keys/{keyId}", Op.RevokeApiKey);
   ("GET", "/api/v1/customers/{customerId}/bootstrap-tokens", Op.ListBootstrapTokens);
   ("POST", "/api/v1/customers/{customerId}/bootstrap-tokens", Op.CreateBootstrapToken);
   ("DELETE", "/api/v1/customers/{customerId}/bootstrap-tokens/{tokenId}", Op.RevokeBootstrapToken);
   ("GET", "/api/v1/customers/{customerId}/logs", Op.QueryLogs);
   ("GET", "/api/v1/customers/{customerId}/metrics/query_range", Op.QueryCustomerMetricsRange);
   ("GET", "/api/v1/customers/{customerId}/pipelines", Op.ListCustomerPipelines);
   ("POST", "/api/v1/customers/{customerId}/pipelines", Op.CreatePipeline);
   ("GET", "/api/v1/customers/{customerId}/stats/throughput", Op.GetCustomerThroughput);
   ("GET", "/api/v1/customers/{customerId}/traces", Op.QueryTraces);
   ("GET", "/api/v1/customers/{customerId}/traces/{traceId}", Op.GetTrace);
   ("GET", "/api/v1/me", Op.GetMe);
   ("GET", "/api/v1/metrics/query_range", Op.QueryMetricsRange);
   ("GET", "/api/v1/pipelines", Op.ListPipelines);
   ("POST", "/api/v1/pipelines/validate", Op.ValidatePipeline);
   ("DELETE", "/api/v1/pipelines/{pipelineId}", Op.DeletePipeline);
   ("GET", "/api/v1/pipelines/{pipelineId}", Op.GetPipeline);
   ("GET", "/api/v1/pipelines/{pipelineId}/stats/stages", Op.GetPipelineStageStats);
   ("POST", "/api/v1/pipelines/{pipelineId}/versions", Op.CreatePipelineVersion);
   ("GET", "/api/v1/pipelines/{pipelineId}/versions/{version}", Op.GetPipelineVersion);
   ("POST", "/api/v1/pipelines/{pipelineId}/versions/{version}/activate", Op.ActivatePipelineVersion)].

Definition api_routes_2 : list (string * string * Op.operation) :=
  [("GET", "/api/v1/regions", Op.ListRegions);
   ("GET", "/api/v1/settings/alert-rules", Op.ListAlertRules);
   ("POST", "/api/v1/settings/alert-rules", Op.CreateAlertRule);
   ("DELETE", "/api/v1/settings/alert-rules/{ruleId}", Op.DeleteAlertRule);
   ("PATCH", "/api/v1/settings/alert-rules/{ruleId}", Op.UpdateAlertRule);
   ("GET", "/api/v1/settings/api-tokens", Op.ListApiTokens);
   ("POST", "/api/v1/settings/api-tokens", Op.CreateApiToken);
   ("DELETE", "/api/v1/settings/api-tokens/{tokenId}", Op.RevokeApiToken);
   ("GET", "/api/v1/settings/auth-providers", Op.ListAuthProviderConfigs);
   ("POST", "/api/v1/settings/auth-providers", Op.CreateAuthProviderConfig);
   ("DELETE", "/api/v1/settings/auth-providers/{providerId}", Op.DeleteAuthProviderConfig);
   ("PATCH", "/api/v1/settings/auth-providers/{providerId}", Op.UpdateAuthProviderConfig);
   ("POST", "/api/v1/settings/auth-providers/{providerId}/test", Op.TestAuthProviderConfig);
   ("GET", "/api/v1/settings/billing", Op.GetBillingSettings);
   ("PUT", "/api/v1/settings/billing", Op.UpdateBillingSettings);
   ("GET", "/api/v1/settings/billing/overrides", Op.ListBillingOverrides);
   ("DELETE", "/api/v1/settings/billing/overrides/{customerId}", Op.DeleteBillingOverride);
   ("PUT", "/api/v1/settings/billing/overrides/{customerId}", Op.SetBillingOverride);
   ("GET", "/api/v1/settings/maintenance-windows", Op.ListMaintenanceWindows);
   ("POST", "/api/v1/settings/maintenance-windows", Op.CreateMaintenanceWindow);
   ("DELETE", "/api/v1/settings/maintenance-windows/{windowId}", Op.DeleteMaintenanceWindow);
   ("POST", "/api/v1/settings/reencrypt-secrets", Op.ReencryptSecrets);
   ("GET", "/api/v1/settings/webhooks", Op.ListWebhooks);
   ("POST", "/api/v1/settings/webhooks", Op.CreateWebhook);
   ("DELETE", "/api/v1/settings/webhooks/{webhookId}", Op.DeleteWebhook);
   ("PATCH", "/api/v1/settings/webhooks/{webhookId}", Op.UpdateWebhook);
   ("POST", "/api/v1/settings/webhooks/{webhookId}/test", Op.TestWebhook);
   ("GET", "/api/v1/stats/cost", Op.GetCostStats);
   ("GET", "/api/v1/stats/overview", Op.GetStatsOverview);
   ("GET", "/api/v1/users", Op.ListUsers);
   ("POST", "/api/v1/users", Op.InviteUser);
   ("DELETE", "/api/v1/users/{userId}", Op.DeleteUser);
   ("PATCH", "/api/v1/users/{userId}", Op.UpdateUser)].

Definition api_routes : list (string * string * Op.operation) := api_routes_1 ++ api_routes_2.

(** Where a request goes. *)
Inductive target : Type :=
| AuthStart | AuthCallback | AuthACS | AuthMetadata
| ScimServer
| Api (op : Op.operation).

(** A route: its method ([None] for every method), its pattern and its target. *)
Record route : Type := MkRoute { rt_method : option string; rt_pattern : string; rt_target : target }.

Definition router_routes : list route :=
  [MkRoute (Some "GET") "/auth/{provider}/start" AuthStart;
   MkRoute (Some "GET") "/auth/{provider}/callback" AuthCallback;
   MkRoute (Some "POST") "/auth/{provider}/acs" AuthACS;
   MkRoute (Some "GET") "/auth/{provider}/metadata" AuthMetadata;
   MkRoute None "/scim/v2" ScimServer;
   MkRoute None "/scim/v2/*" ScimServer]
  ++ ((fun r => MkRoute (Some r.1.1) r.1.2 (Api r.2)) <$> api_routes).

(** ** go-chi *)

Inductive found : Type :=
| Found (r : route)
| MethodNotAllowed
| NotFound.

Class Chi := FindRoute : list route -> string -> string -> found.

(** A parameter of a pattern stands for one element of the path, a star at the
    end for what is left of it. *)
Fixpoint fits (pattern path : list string) : bool :=
  match pattern, path with
  | ["*"], _ :: _ => true
  | p :: pattern, el :: path => (has_prefix "{" p || bool_decide (p = el)) && fits pattern path
  | [], [] => true
  | _, _ => false
  end.

Class ChiLaws `{!Chi} := {
  FindRoute_sound routes method path r : FindRoute routes method path = Found r ->
    r ∈ routes /\ (rt_method r = None \/ rt_method r = Some method)
    /\ fits (split_all "/" (rt_pattern r)) (split_all "/" path) = true
}.

(** ** net/url *)

Definition unhex (c : ascii) : option N :=
  let n := N_of_ascii c in
  if is_digit c then Some (n - 48)%N
  else if in_range "a" "f" c then Some (n - 87)%N
  else if in_range "A" "F" c then Some (n - 55)%N else None.

(** [unescape] of a path: an error for a percent sign without two digits. *)
Fixpoint unescape (s : string) : option string :=
  match s with
  | "" => Some ""
  | String c s =>
      if bool_decide (c = "%"%char) then
        match s with
        | String a (String b s) =>
            a ← unhex a; b ← unhex b; s ← unescape s; Some (String (ascii_of_N (a * 16 + b)) s)
        | _ => None
        end
      else s ← unescape s; Some (String c s)
  end.

Definition path_kept (c : ascii) : bool :=
  is_lower c || is_upper c || is_digit c
  || bool_decide (c ∈ ["-"; "_"; "."; "~"; "$"; "&"; "+"; ","; "/"; ":"; ";"; "="; "@"]%char).

Fixpoint escape (s : string) : string :=
  match s with
  | "" => ""
  | String c s =>
      if path_kept c then String c (escape s)
      else String "%" (String (upper_hex (N_of_ascii c / 16)) (String (upper_hex (N_of_ascii c mod 16)) (escape s)))
  end.

Record URL : Type := MkURL { u_Path : string; u_RawPath : string }.

(** [setPath]: the path as sent is kept only when it is not the default
    encoding of the decoded one. *)
Definition setPath (p : string) : option URL :=
  path ← unescape p;
  Some (MkURL path (if bool_decide (p = escape path) then "" else p)).

(** The path chi routes by. *)
Definition routePath (u : URL) : string :=
  if bool_decide (u_RawPath u <> "") then u_RawPath u
  else if bool_decide (u_Path u = "") then "/" else u_Path u.

(** ** router.go *)

Record HttpRequest : Type := MkHttpRequest {
  hq_method : string;
  (** the path of the request line, as sent *)
  hq_target : string;
  hq_authorization : string;
  hq_csrf : string;
  hq_remoteAddr : string;
  hq_body : option body
}.

Definition guard_request (rq : HttpRequest) (u : URL) : Request :=
  MkRequest (u_Path u) (hq_method rq) (hq_authorization rq) (hq_csrf rq).

Inductive answer : Type :=
(** net/http refuses the request line *)
| BadRequestLine
| Refused (status : Z) (code message : string)
| NoMethod
| SpaAnswer (a : spa_answer)
| SignInFlow (t : target)
(** the SCIM server: its refusal, or its handlers run *)
| ScimAnswer (refusal : option response)
(** an operation runs *)
| Called (op : Op.operation) (p : option Principal) (b : option body) (raw : option string).

Section router.
Context {SHA : Sha256} (uuid_parse : string -> option N).
Context {L : Type} `{!Limiter L} {CHI : Chi}.
Context (Stat : string -> option bool) (cfg : Config).

Record Router : Type := MkRouter {
  limit : option (ipRateLimiter L);
  authLimit : option (ipRateLimiter L);
  secMetrics : securityMetrics
}.

Definition NewRouter (registry : bool) : Router :=
  if RateLimitEnabled cfg then
    MkRouter (Some (newIPRateLimiter (RateLimitRPS cfg) (RateLimitBurst cfg)))
      (Some (newIPRateLimiter (AuthRateLimitRPS cfg) (AuthRateLimitBurst cfg))) (newSecurityMetrics registry)
  else MkRouter None None (newSecurityMetrics registry).

(** A limiter's middleware, where there is one: whether the request passes. *)
Definition throttle (rq : HttpRequest) (now : Z) (l : option (ipRateLimiter L)) : bool * option (ipRateLimiter L) :=
  match l with
  | None => (true, None)
  | Some l => let '(ok, l) := allow (clientIP (hq_remoteAddr rq)) now l in (ok, Some l)
  end.

Definition deny (rq : HttpRequest) (u : URL) (status : Z) (code message reason actor : string) (m : securityMetrics)
  : answer * securityMetrics :=
  (Refused status code message, denyRequest (hq_method rq) (u_Path u) (hq_remoteAddr rq) status reason actor m).

Definition too_many (rq : HttpRequest) (u : URL) (m : securityMetrics) : answer * securityMetrics :=
  deny rq u 429 "rate_limited" "rate limit exceeded, slow down" reasonRateLimited "" m.

(** What the Guard says in a denial, and whom it names. *)
Definition guard_message (reason : string) : string :=
  if bool_decide (reason = reasonInvalidToken) then "invalid API token"
  else if bool_decide (reason = reasonUnauthenticated) then "authentication required"
  else if bool_decide (reason = reasonUnknownUser) then "unknown user"
  else if bool_decide (reason = reasonAccountDisabled) then "account disabled"
  else if bool_decide (reason = reasonRequiresAdmin) then "requires admin role"
  else if bool_decide (reason = reasonCSRF) then "missing or invalid CSRF token"
  else "requires operator or admin role".

Definition guard_actor (gs : GuardStore) (s : Session) (r : Request) (reason : string) : string :=
  if bool_decide (reason ∈ [reasonInvalidToken; reasonUnauthenticated; reasonUnknownUser]) then ""
  else if looksLikeAPIToken (req_authorization r) then "api-token"
  else match session_UserID uuid_parse s with
       | Some id => match gs_GetUser gs id with Ok u => User_Email u | Err _ => "" end
       | None => ""
       end.

(** The group of the API: the cap on bodies, the Guard, the captured body. *)
Definition guarded (gs : GuardStore) (now : Z) (fresh : string) (rq : HttpRequest) (u : URL) (op : Op.operation)
    (s : Session) (m : securityMetrics) : answer * Session * securityMetrics :=
  let b := if (0 <? MaxRequestBodyBytes cfg)%Z then maxBodyBytes (MaxRequestBodyBytes cfg) (hq_body rq) else hq_body rq in
  let call p := let '(b, raw) := captureRawBody (hq_method rq) (u_Path u) b in Called op p b raw in
  match Guard uuid_parse gs now fresh s (guard_request rq u) with
  | (Denied status reason, s') =>
      let code := if (status =? 401)%Z then codeUnauthorized else codeForbidden in
      let '(a, m) := deny rq u status code (guard_message reason) reason
                       (guard_actor gs s (guard_request rq u) reason) m in (a, s', m)
  | (Internal, s') => (Refused 500 codeInternal "internal server error", s', m)
  | (Public, s') => (call None, s', m)
  | (Served p, s') => (call (Some p), s', m)
  end.

(** The chain of middleware and the routes of [NewRouter]. *)
Definition ServeHTTP (gs : GuardStore) (now : Z) (fresh : string) (rq : HttpRequest) (s : Session) (rt : Router)
  : answer * Session * Router :=
  match setPath (hq_target rq) with
  | None => (BadRequestLine, s, rt)
  | Some u =>
      let '(ok, l) := throttle rq now (limit rt) in
      if ok then
        match FindRoute router_routes (hq_method rq) (routePath u) with
        | NotFound => (SpaAnswer (spaHandler Stat (WebDir cfg) (u_Path u)), s, MkRouter l (authLimit rt) (secMetrics rt))
        | MethodNotAllowed => (NoMethod, s, MkRouter l (authLimit rt) (secMetrics rt))
        | Found r =>
            match rt_target r with
            | ScimServer =>
                let role := fst <$> authenticateAPIToken (gs_ActiveAPITokensByPrefix gs) now (hq_authorization rq) in
                (ScimAnswer (authMiddleware role), s, MkRouter l (authLimit rt) (secMetrics rt))
            | Api op =>
                let '(a, s', m) := guarded gs now fresh rq u op s (secMetrics rt) in
                (a, s', MkRouter l (authLimit rt) m)
            | t =>
                let '(ok, al) := throttle rq now (authLimit rt) in
                if ok then (SignInFlow t, s, MkRouter l al (secMetrics rt))
                else let '(a, m) := too_many rq u (secMetrics rt) in (a, s, MkRouter l al m)
            end
        end
      else let '(a, m) := too_many rq u (secMetrics rt) in (a, s, MkRouter l (authLimit rt) m)
  end.

(** ** Who may run an operation *)

Inductive access : Type := Everyone | Members | Editors | Admins.

Definition enforced (op : Op.operation) : access :=
  match op with
  | Op.ListAuthProviders | Op.DevLogin => Everyone
  | Op.ListUsers | Op.InviteUser | Op.DeleteUser | Op.UpdateUser
  | Op.ListAuthProviderConfigs | Op.CreateAuthProviderConfig | Op.DeleteAuthProviderConfig
  | Op.UpdateAuthProviderConfig | Op.TestAuthProviderConfig
  | Op.ListApiTokens | Op.CreateApiToken | Op.RevokeApiToken
  | Op.ListAlertRules | Op.CreateAlertRule | Op.DeleteAlertRule | Op.UpdateAlertRule
  | Op.ListMaintenanceWindows | Op.CreateMaintenanceWindow | Op.DeleteMaintenanceWindow
  | Op.ReencryptSecrets
  | Op.GetBillingSettings | Op.UpdateBillingSettings | Op.ListBillingOverrides
  | Op.DeleteBillingOverride | Op.SetBillingOverride | Op.GetBillingStatement
  | Op.ListAuditLog | Op.QueryMetricsRange => Admins
  | Op.CreateCustomer | Op.UpdateCustomer | Op.DeleteCustomer
  | Op.CreateApiKey | Op.RevokeApiKey | Op.CreateBootstrapToken | Op.RevokeBootstrapToken
  | Op.UpdateAgent | Op.DeleteAgent | Op.SyncAgent
  | Op.CreatePipeline | Op.CreatePipelineVersion | Op.ActivatePipelineVersion | Op.DeletePipeline
  | Op.ValidatePipeline
  | Op.CreateWebhook | Op.UpdateWebhook | Op.DeleteWebhook | Op.TestWebhook => Editors
  | _ => Members
  end.

Definition role_may (a : access) (role : string) : Prop :=
  match a with
  | Admins => role = RoleAdmin
  | Editors => role = RoleOperator \/ role = RoleAdmin
  | _ => True
  end.

(** What an answer says about its request, decoded to [r]. *)
Definition authorized (gs : GuardStore) (now : Z) (s : Session) (r : Request) (a : answer) : Prop :=
  match a with
  | Called op None _ _ => enforced op = Everyone
  | Called op (Some p) _ _ =>
      enforced op <> Everyone /\ role_may (enforced op) (User_Role (Principal_User p))
      /\ (served_by_token gs now r p \/ served_by_session uuid_parse gs s r p)
      /\ (enforced op = Editors -> isMutating (req_method r) = true)
  | ScimAnswer None => exists createdBy,
      authenticateAPIToken (gs_ActiveAPITokensByPrefix gs) now (req_authorization r) = Some (RoleAdmin, createdBy)
  | _ => True
  end.
End router.
Arguments Router : clear implicits.

(** ** The decoded path begins as the pattern of the route *)

(** The elements of a pattern before its first parameter, and whether that is
    all of it. *)
Fixpoint literal (pattern : list string) : list string * bool :=
  match pattern with
  | [] => ([], true)
  | p :: pattern =>
      if has_prefix "{" p || bool_decide (p = "*") then ([], false)
      else let '(l, full) := literal pattern in (p :: l, full)
  end.

Definition path_has (lit : string) (full : bool) (path : string) : Prop :=
  if full then path = lit else exists rest, path = lit +:+ String "/" rest.

Lemma fits_literal pattern path : fits pattern path = true ->
  exists rest, path = ((literal pattern).1 ++ rest)%list /\ ((literal pattern).2 = true <-> rest = []).
Proof.
  revert path. induction pattern as [|p pattern IH]; intros path Hf.
  - destruct path; [|done]. by exists [].
  - destruct path as [|el path]; [simpl in Hf; repeat case_match; done|].
    simpl. destruct (has_prefix "{" p || bool_decide (p = "*")) eqn:Hp; simpl; [by exists (el :: path)|].
    apply orb_false_iff in Hp as [Hp Hs]. apply bool_decide_eq_false in Hs.
    assert (bool_decide (p = el) && fits pattern path = true) as [->%bool_decide_eq_true Hf']%andb_prop.
    { revert Hf. simpl. rewrite Hp. by repeat case_match. }
    destruct (IH path Hf') as (rest & -> & Hr). destruct (literal pattern) as [l full]. simpl in *. by exists rest.
Qed.

Lemma join_cons sep el els : els <> [] -> join sep (el :: els) = el +:+ sep +:+ join sep els.
Proof. by destruct els. Qed.

Lemma join_app sep l1 l2 : l1 <> [] -> l2 <> [] -> join sep (l1 ++ l2)%list = join sep l1 +:+ sep +:+ join sep l2.
Proof.
  intros H1 H2. induction l1 as [|a l1 IH]; [done|]. destruct l1 as [|b l1].
  - simpl app. by rewrite join_cons.
  - rewrite <- app_comm_cons. rewrite !join_cons by done. rewrite IH by done. by rewrite !string_app_assoc.
Qed.

Lemma join_split sep s : join (String sep "") (split_all sep s) = s.
Proof.
  induction s as [|c s IH]; [done|]. simpl. assert (split_all sep s <> []) as Hn by (destruct s; simpl; repeat case_match; done).
  case_bool_decide as Hc.
  - rewrite join_cons by done. rewrite IH. by rewrite Hc.
  - destruct (split_all sep s) as [|w ws]; [done|]. rewrite <- IH. by destruct ws.
Qed.

Lemma fits_path pattern path : fits (split_all "/" pattern) (split_all "/" path) = true ->
  (literal (split_all "/" pattern)).1 <> [] ->
  path_has (join "/" (literal (split_all "/" pattern)).1) (literal (split_all "/" pattern)).2 path.
Proof.
  intros (rest & Hp & Hr)%fits_literal Hl. rewrite <- (join_split "/" path), Hp.
  destruct (literal _) as [l full]. simpl in *. unfold path_has. destruct full.
  - rewrite (proj1 Hr) by done. by rewrite app_nil_r.
  - assert (rest <> []) as Hn by (intros ->; by destruct Hr as [_ Hr]; specialize (Hr eq_refl)).
    exists (join "/" rest). by rewrite join_app.
Qed.

Lemma unescape_app a b : has_byte "%" a = false -> unescape (a +:+ b) = x ← unescape b; Some (a +:+ x).
Proof.
  induction a as [|c a IH]; simpl; [by destruct (unescape b)|]. intros [Hc Ha]%orb_false_iff.
  apply bool_decide_eq_false in Hc. rewrite bool_decide_false by congruence. rewrite IH by done.
  by destruct (unescape b).
Qed.

Lemma path_has_unescape lit full raw path : has_byte "%" lit = false -> unescape raw = Some path ->
  path_has lit full raw -> path_has lit full path.
Proof.
  intros Hl Hu. destruct full; simpl.
  - intros ->. rewrite <- (string_app_nil_r lit), unescape_app in Hu by done. simpl in Hu. injection Hu as <-.
    apply string_app_nil_r.
  - intros [rest ->]. rewrite unescape_app in Hu by done. simpl in Hu.
    destruct (unescape rest) as [x|]; [|done]. injection Hu as <-. by exists x.
Qed.

(** The route fits the path as sent; what the Guard sees is the decoded one. *)
Lemma route_decoded t u pattern : setPath t = Some u ->
  fits (split_all "/" pattern) (split_all "/" (routePath u)) = true ->
  fits (split_all "/" pattern) [""; ""] = false ->
  let l := literal (split_all "/" pattern) in
  l.1 <> [] -> has_byte "%" (join "/" l.1) = false -> path_has (join "/" l.1) l.2 (u_Path u).
Proof.
  unfold setPath, routePath. intros Hu Hf Hroot Hl Hpct.
  destruct (unescape t) as [path|] eqn:Hpath; [|done]. injection Hu as <-. simpl in *.
  destruct (decide (t = escape path)) as [He|He].
  - rewrite (bool_decide_true _ He) in Hf. simpl in Hf.
    destruct (decide (path = "")) as [->|Hp]; [by change (fits (split_all "/" pattern) [""; ""] = true) in Hf; rewrite Hroot in Hf|].
    rewrite (bool_decide_false _ Hp) in Hf. by apply fits_path.
  - rewrite (bool_decide_false _ He) in Hf. destruct (decide (t = "")) as [->|Ht].
    { simpl in Hpath. injection Hpath as <-. done. }
    rewrite bool_decide_true in Hf by done. eapply path_has_unescape; [done|exact Hpath|]. by apply fits_path.
Qed.

(** ** Each route is guarded as its operation needs *)

Lemma has_prefix_app p s : has_prefix p (p +:+ s) = true.
Proof. unfold has_prefix. rewrite cut_prefix_app. by apply bool_decide_eq_true. Qed.

(** No path below [lit] is the path [p]. *)
Definition never (lit : string) (full : bool) (p : string) : bool :=
  if full then negb (bool_decide (p = lit)) else negb (has_prefix (lit +:+ "/") p).

Lemma never_path lit full p path : never lit full p = true -> path_has lit full path -> path <> p.
Proof.
  unfold never, path_has. destruct full; rewrite negb_true_iff.
  - intros Hn%bool_decide_eq_false -> Hp. congruence.
  - intros Hn [rest ->] <-. change (String "/" rest) with ("/" +:+ rest) in Hn.
    rewrite <- string_app_assoc, has_prefix_app in Hn. done.
Qed.

Lemma admin_path lit full path : isAdminOnlyPath lit = true -> path_has lit full path -> isAdminOnlyPath path = true.
Proof.
  intros Ha. unfold path_has. destruct full; [by intros ->|]. intros [rest ->]. revert Ha. unfold isAdminOnlyPath.
  rewrite !existsb_exists. intros (p & Hp & Hl). exists p. split; [done|]. apply orb_true_iff. right.
  apply orb_true_iff in Hl as [<-%bool_decide_eq_true|(r & ->)%has_prefix_spec]; apply has_prefix_spec.
  - exists rest. by rewrite string_app_assoc.
  - exists (r +:+ String "/" rest). by rewrite string_app_assoc.
Qed.

Definition row_ok (row : string * string * Op.operation) : bool :=
  let '(method, pattern, op) := row in
  let '(l, full) := literal (split_all "/" pattern) in
  let lit := join "/" l in
  negb (bool_decide (l = [])) && negb (has_byte "%" lit) && negb (fits (split_all "/" pattern) [""; ""])
  && match enforced op with
     | Everyone => full && bool_decide (lit ∈ publicPaths)
     | Members => forallb (never lit full) publicPaths
     | Editors => forallb (never lit full) publicPaths && isMutating method && never lit full logoutPath
     | Admins => forallb (never lit full) publicPaths && isAdminOnlyPath lit
     end.

Lemma api_routes_ok : Forall (fun row => row_ok row = true) api_routes.
Proof. apply Forall_forall. intros row Hrow%list_elem_of_In. revert row Hrow. by apply forallb_forall. Qed.

Lemma router_routes_api r op : r ∈ router_routes -> rt_target r = Api op ->
  exists method, rt_method r = Some method /\ row_ok (method, rt_pattern r, op) = true.
Proof.
  intros Hr Ht. unfold router_routes in Hr. apply elem_of_app in Hr as [Hr|Hr].
  - exfalso. revert Ht. repeat (apply elem_of_cons in Hr as [->|Hr]; [done|]). by apply not_elem_of_nil in Hr.
  - apply list_elem_of_fmap in Hr as ([[method pattern] op'] & -> & Hr). injection Ht as ->. exists method. split; [done|].
    pose proof api_routes_ok as Hok. rewrite Forall_forall in Hok. by apply Hok.
Qed.

(** What the path the Guard sees is, for an operation's route. *)
Lemma route_access t u r op method : setPath t = Some u -> r ∈ router_routes -> rt_target r = Api op ->
  (rt_method r = None \/ rt_method r = Some method) ->
  fits (split_all "/" (rt_pattern r)) (split_all "/" (routePath u)) = true ->
  match enforced op with
  | Everyone => u_Path u ∈ publicPaths
  | a => (u_Path u ∉ publicPaths) /\ (a = Admins -> isAdminOnlyPath (u_Path u) = true)
         /\ (a = Editors -> isMutating method = true /\ u_Path u <> logoutPath)
  end.
Proof.
  intros Hu Hr Ht Hm Hf. destruct (router_routes_api r op Hr Ht) as (m & Hrm & Hok).
  assert (m = method) as -> by (rewrite Hrm in Hm; naive_solver).
  pose proof (route_decoded _ _ _ Hu Hf) as Hp. unfold row_ok in Hok.
  destruct (literal (split_all "/" (rt_pattern r))) as [l full]. simpl in Hp. set (lit := join "/" l) in *.
  apply andb_prop in Hok as [[[Hl%negb_true_iff%bool_decide_eq_false Hpct%negb_true_iff]%andb_prop Hroot%negb_true_iff]%andb_prop Hok].
  specialize (Hp Hroot Hl Hpct).
  assert (forallb (never lit full) publicPaths = true -> u_Path u ∉ publicPaths) as Hnp.
  { intros Hall Hin. rewrite forallb_forall in Hall. apply list_elem_of_In in Hin. by apply (never_path _ _ _ _ (Hall _ Hin) Hp). }
  destruct (enforced op).
  - apply andb_prop in Hok as [-> Hok%bool_decide_eq_true]. simpl in Hp. by rewrite Hp.
  - by split_and!; [apply Hnp|..].
  - apply andb_prop in Hok as [[Hpub Hmut]%andb_prop Hlog]. split_and!; [by apply Hnp|done|].
    intros _. split; [done|]. by eapply never_path.
  - apply andb_prop in Hok as [Hpub Hadm]. split_and!; [by apply Hnp| |done]. intros _. by eapply admin_path.
Qed.

Section guarded.
Context {SHA : Sha256} (uuid_parse : string -> option N).
Context {L : Type} `{!Limiter L} {CHI : Chi} {Hchi : ChiLaws}.
Context (Stat : string -> option bool) (cfg : Config).

Abbreviation ServeHTTP := (ServeHTTP uuid_parse Stat cfg).
Abbreviation guarded := (guarded uuid_parse cfg).

Lemma Guard_public gs now fresh s r s' : Guard uuid_parse gs now fresh s r = (Public, s') -> req_path r ∈ publicPaths.
Proof using Type. unfold Guard. case_bool_decide; [done|]. intros Hg. exfalso. revert Hg. repeat case_match; intros; by simplify_eq. Qed.

Lemma guarded_called gs now fresh rq u op s m op' p b raw s' m' :
  guarded gs now fresh rq u op s m = (Called op' p b raw, s', m') ->
  op' = op /\ exists v, Guard uuid_parse gs now fresh s (guard_request rq u) = (v, s')
    /\ match p with None => v = Public | Some p => v = Served p end.
Proof using Type.
  unfold guarded. destruct (Guard _ _ _ _ _ _) as [[] s1]; unfold deny; [done|done| |];
    destruct (captureRawBody _ _ _); intros [= <- <- <- <- <- <-]; eauto.
Qed.

End guarded.

(** ** Denials are logged and counted *)

(** A request with the surroundings it meets. *)
Record arrival : Type := MkArrival {
  ar_store : GuardStore;
  ar_now : Z;
  ar_fresh : string;
  ar_request : HttpRequest;
  ar_session : Session
}.

(** The status of a denial: any refusal but an internal error. *)
Definition denied_status (a : answer) : option Z :=
  match a with Refused status _ _ => if (status =? 500)%Z then None else Some status | _ => None end.

Section denials.
Context {SHA : Sha256} (uuid_parse : string -> option N).
Context {L : Type} `{!Limiter L} {CHI : Chi}.
Context (Stat : string -> option bool) (cfg : Config).

Abbreviation ServeHTTP := (ServeHTTP uuid_parse Stat cfg).

Fixpoint serve_all (ars : list arrival) (rt : Router L) : list answer * Router L :=
  match ars with
  | [] => ([], rt)
  | ar :: ars =>
      let '(a, _, rt) := ServeHTTP (ar_store ar) (ar_now ar) (ar_fresh ar) (ar_request ar) (ar_session ar) rt in
      let '(answers, rt) := serve_all ars rt in (a :: answers, rt)
  end.

(** The metrics record an answer. *)
Definition records (a : answer) (m m' : securityMetrics) : Prop :=
  (dn_status <$> denial_log m') = ((dn_status <$> denial_log m) ++ option_list (denied_status a))%list
  /\ (metrics_consistent m -> metrics_consistent m').

Lemma records_same a m : denied_status a = None -> records a m m.
Proof using Type. intros Ha. split; [|done]. by rewrite Ha, app_nil_r. Qed.

Lemma deny_records rq u status code msg reason actor m a m' : status <> 500%Z ->
  deny rq u status code msg reason actor m = (a, m') -> records a m m'.
Proof using Type.
  intros Hst [= <- <-]. split; [|apply denyRequest_consistent]. simpl. rewrite fmap_app.
  by destruct (Z.eqb_spec status 500).
Qed.

Lemma Guard_denied gs now fresh s r status reason s' :
  Guard uuid_parse gs now fresh s r = (Denied status reason, s') -> status = 401%Z \/ status = 403%Z.
Proof using Type. unfold Guard. intros Hg. repeat (case_match; simplify_eq; auto). Qed.

Lemma guarded_records gs now fresh rq u op s m a s' m' :
  guarded uuid_parse cfg gs now fresh rq u op s m = (a, s', m') -> records a m m'.
Proof using Type.
  unfold guarded. destruct (Guard _ _ _ _ _ _) as [[status reason| | |p] s1] eqn:Hg.
  - destruct (deny _ _ _ _ _ _ _ _) as [a0 m0] eqn:Hd. intros [= <- <- <-].
    apply deny_records in Hd; [done|]. apply Guard_denied in Hg. lia.
  - intros [= <- <- <-]. by apply records_same.
  - destruct (captureRawBody _ _ _). intros [= <- <- <-]. by apply records_same.
  - destruct (captureRawBody _ _ _). intros [= <- <- <-]. by apply records_same.
Qed.

Lemma ServeHTTP_records gs now fresh rq s rt a s' rt' :
  ServeHTTP gs now fresh rq s rt = (a, s', rt') -> records a (secMetrics rt) (secMetrics rt').
Proof using Type.
  unfold ServeHTTP. destruct (setPath _) as [u|]; [|intros [= <- <- <-]; by apply records_same].
  assert (forall m a m', too_many rq u m = (a, m') -> records a m m') as Htoo by (intros ???; by apply deny_records).
  destruct (throttle rq now (limit rt)) as [[] l].
  - destruct (FindRoute _ _ _) as [r| |]; [|intros [= <- <- <-]; by apply records_same..].
    destruct (rt_target r); [..|intros [= <- <- <-]; by apply records_same|].
    1-4: destruct (throttle rq now (authLimit rt)) as [[] al]; [intros [= <- <- <-]; by apply records_same|];
      destruct (too_many rq u (secMetrics rt)) eqn:Ht; intros [= <- <- <-]; by apply Htoo.
    destruct (guarded _ _ _ _ _ _ _ _ _ _) as [[a0 s0] m0] eqn:Hg. intros [= <- <- <-]. by eapply guarded_records.
  - destruct (too_many rq u (secMetrics rt)) eqn:Ht. intros [= <- <- <-]. by apply Htoo.
Qed.

End denials.

(** ** Concrete requests *)

(** A router that takes the first route that fits. *)
Definition first_fit : Chi := fun routes method path =>
  match filter (fun r => fits (split_all "/" (rt_pattern r)) (split_all "/" path) = true) routes with
  | [] => NotFound
  | rs => match filter (fun r => rt_method r = None \/ rt_method r = Some method) rs with
          | [] => MethodNotAllowed
          | r :: _ => Found r
          end
  end.

#[global] Instance first_fit_laws : @ChiLaws first_fit.
Proof.
  split. intros routes method path r. unfold FindRoute, first_fit. set (rs := filter _ routes). intros Hf.
  assert (r ∈ filter (fun r => rt_method r = None \/ rt_method r = Some method) rs) as Hin.
  { destruct rs; [done|]. destruct (filter _ _); [done|]. injection Hf as ->. left. }
  unfold rs in Hin. rewrite !list_elem_of_filter in Hin. tauto.
Qed.

Definition ex_cfg : Config := Eval vm_compute in
  match ex_load [] as r return match r with Ok _ => Config | Err _ => unit end with Ok cfg => cfg | Err _ => tt end.

Definition ex_serve (gs : GuardStore) (rq : HttpRequest) : answer :=
  (ServeHTTP (SHA := fun s => s) (CHI := first_fit) (fun _ => Some 7%N) (fun _ => None) ex_cfg gs 0 "new" rq ex_session
    (NewRouter (L := TokenBucket.bucket) ex_cfg true)).1.1.

Definition ex_admin : User := MkUser 7%N "root@x" None RoleAdmin None None None 0 false.
Definition ex_admin_store : GuardStore := MkGuardStore (fun _ => Ok ex_admin) (fun _ => Ok []) (fun _ => Ok []).
Definition ex_delete (target : string) : HttpRequest := MkHttpRequest "DELETE" target "" "csrf" "1.2.3.4:50000" None.

(** An escaped digit in a parameter is fine, an escaped letter of the route is
    another route, and an operator may not delete users. *)
Example ex_answers :
  ex_serve ex_admin_store (ex_delete "/api/v1/users/%37") = Called Op.DeleteUser (Some (MkPrincipal ex_admin "csrf" true ∅)) None None
  /\ ex_serve ex_guard_store (ex_delete "/api/v1/users/%37") = Refused 403 "forbidden" "requires admin role"
  /\ ex_serve ex_guard_store (ex_delete "/api/v1/%75sers/7") = SpaAnswer ApiNotFound
  /\ ex_serve ex_guard_store (ex_delete "/api/v1/users") = NoMethod
  /\ ex_serve ex_guard_store (ex_delete "/api/v1/users/%3") = BadRequestLine.
Proof. vm_compute. done. Qed.


(** The documentation lists PATCH of a pipeline and the history of its versions
    (docs reference/api.md); there are no such routes. *)
Example documented_routes_missing :
  filter (fun r => r.1.2 = "/api/v1/pipelines/{pipelineId}" /\ r.1.1 = "PATCH") api_routes = []
  /\ filter (fun r => r.1.2 = "/api/v1/pipelines/{pipelineId}/versions" /\ r.1.1 = "GET") api_routes = [].
Proof. vm_compute. done. Qed.

(** A denied SCIM request leaves no line in the security log. *)
Example scim_denial_unrecorded :
  let r := ServeHTTP (SHA := fun s => s) (CHI := first_fit) (fun _ => Some 7%N) (fun _ => None) ex_cfg ex_guard_store 0 "new"
             (MkHttpRequest "GET" "/scim/v2/Users" "Bearer otm_pat_guess" "" "1.2.3.4:50000" None) ex_session
             (NewRouter (L := TokenBucket.bucket) ex_cfg true) in
  r.1.1 = ScimAnswer (Some (RError 401 "invalid or missing token")) /\ denial_log (secMetrics r.2) = [].
Proof. vm_compute. done. Qed.
