(* ===== verification/QuotaFactory.v ===== *)
(** The factory of the tenantquota processor
    (collector/processor/tenantquota/factory.go): the instances the collector
    makes of one configured component, one per signal, share its quota.

    Quotas are cells of a heap, because instances and the factory's map hold
    pointers to them.  The meter may refuse an instrument; the helper that wraps
    a processing function hands it batches and is the collector's. *)
From S2P Require Import Prelude GoStrings GoFloat TenantAuth TenantQuota.
From Corelib Require Import SpecFloat.

Open Scope string_scope.

Definition defaultBurstSeconds : Z := 2.

Section factory.
Context {F : Type} `{!Float F} (out_of_range : F -> Z).

(** [==] on floats, false of NaN. *)
Definition f_eq (x y : F) : bool := f_le x y && f_le y x.

Definition newQuota (burst : F) : quota F := MkQuota (newRegistry burst) [] [].

Record sharedQuotas : Type := MkSharedQuotas {
  heap : gmap nat (quota F);
  next : nat;
  quotas : gmap string nat
}.

Definition NewFactory : sharedQuotas := MkSharedQuotas ∅ 0 ∅.

(** The pointer to the quota of a component; [None] when the meter fails. *)
Definition shared_get (id : string) (burst : F) (meter_ok : bool) (s : sharedQuotas) : option nat * sharedQuotas :=
  let fresh :=
    if meter_ok
    then (Some (next s), MkSharedQuotas (<[next s := newQuota burst]> (heap s)) (S (next s)) (<[id := next s]> (quotas s)))
    else (None, s) in
  match quotas s !! id with
  | Some p =>
      match heap s !! p with
      | Some q => if f_eq (burstSeconds (q_registry q)) burst then (Some p, s) else fresh
      | None => fresh
      end
  | None => fresh
  end.

(** A processor: the component it is an instance of, its signal and its quota. *)
Record instance : Type := MkInstance { in_id : string; in_signal : string; in_quota : nat }.

(** [createLogs], [createTraces], [createMetrics]. *)
Definition create (id signal : string) (burst : F) (meter_ok : bool) (s : sharedQuotas) : option instance * sharedQuotas :=
  let '(p, s) := shared_get id burst meter_ok s in
  (p ← p; Some (MkInstance id signal p), s).

(** A batch: who sent it, its items, and when it arrives. *)
Record batch : Type := MkBatch { b_auth : option AuthData; b_items : Z; b_now : Z }.

(** An instance processes a batch with the quota it points to. *)
Definition consume (i : instance) (b : batch) (s : sharedQuotas) : option quota_error * sharedQuotas :=
  match heap s !! in_quota i with
  | Some q =>
      let '(e, q) := admit_batch out_of_range (b_auth b) (in_signal i) (b_items b) (b_now b) q in
      (e, MkSharedQuotas (<[in_quota i := q]> (heap s)) (next s) (quotas s))
  | None => (None, s)
  end.

(** The life of a collector: instances are created, also by reloads, and
    batches arrive at the k-th of them. *)
Inductive event : Type :=
| Create (id signal : string) (burst : F) (meter_ok : bool)
| Batch (k : nat) (b : batch).

(** What happened to a batch. *)
Record outcome : Type := MkOutcome { o_id : string; o_signal : string; o_batch : batch; o_error : option quota_error }.

Fixpoint run_collector (es : list event) (ins : list instance) (s : sharedQuotas) : list outcome :=
  match es with
  | [] => []
  | Create id signal burst ok :: es =>
      let '(i, s) := create id signal burst ok s in
      run_collector es (ins ++ option_list i)%list s
  | Batch k b :: es =>
      match ins !! k with
      | None => run_collector es ins s
      | Some i =>
          let '(e, s) := consume i b s in
          MkOutcome (in_id i) (in_signal i) b e :: run_collector es ins s
      end
  end.

(** One quota that sees the batches of every signal. *)
Fixpoint one_quota (os : list outcome) (q : quota F) : list (option quota_error) :=
  match os with
  | [] => []
  | o :: os =>
      let '(e, q) := admit_batch out_of_range (b_auth (o_batch o)) (o_signal o) (b_items (o_batch o)) (b_now (o_batch o)) q in
      e :: one_quota os q
  end.

Definition outcomes_of (id : string) (os : list outcome) : list outcome := filter (fun o => o_id o = id) os.

(** ** The budget of a component spans its signals *)

Lemma admit_batch_burst auth signal n now q e q' : admit_batch out_of_range auth signal n now q = (e, q') ->
  burstSeconds (q_registry q') = burstSeconds (q_registry q).
Proof using Type.
  unfold admit_batch. destruct auth as [a|]; [|by intros [= _ <-]]. case_match; [by intros [= _ <-]|].
  rewrite take_eq. cbn zeta. destruct (f_le _ _); by intros [= _ <-].
Qed.

Section component.
Context (id : string) (burst : F).

(** Every creation of the component has the same configuration. *)
Definition same_config (e : event) : Prop := match e with Create id' _ b _ => id' = id -> b = burst | Batch _ _ => True end.

(** Cells are below [next]; the component's instances point to its cell and
    nobody else does. *)
Record shared_inv (ins : list instance) (s : sharedQuotas) (q : option (quota F)) : Prop := {
  inv_next p : is_Some (heap s !! p) -> (p < next s)%nat;
  inv_map id' p : quotas s !! id' = Some p -> is_Some (heap s !! p);
  inv_apart id1 id2 p : quotas s !! id1 = Some p -> quotas s !! id2 = Some p -> id1 = id2;
  inv_instance i : i ∈ ins -> is_Some (heap s !! in_quota i)
    /\ (in_id i = id <-> quotas s !! id = Some (in_quota i));
  inv_quota : match q with
              | Some q => exists p, quotas s !! id = Some p /\ heap s !! p = Some q /\ burstSeconds (q_registry q) = burst
              | None => quotas s !! id = None
              end
}.


Lemma shared_inv_instance ins s q i : shared_inv ins s q -> is_Some (heap s !! in_quota i) ->
  (in_id i = id <-> quotas s !! id = Some (in_quota i)) -> shared_inv (ins ++ [i])%list s q.
Proof using out_of_range. intros [] Hs Hi. split; try done. intros j [? | ->%list_elem_of_singleton]%elem_of_app; [auto|done]. Qed.

(** A new cell for a component that has none, or for another one. *)
Lemma shared_inv_fresh ins s q id' b :
  let s' := MkSharedQuotas (<[next s := newQuota b]> (heap s)) (S (next s)) (<[id' := next s]> (quotas s)) in
  shared_inv ins s q -> (id' = id -> q = None /\ b = burst) ->
  shared_inv ins s' (if decide (id' = id) then Some (newQuota burst) else q).
Proof using out_of_range.
  intros s' [Hn Hm Ha Hi Hq] Hid. subst s'.
  assert (forall p, is_Some (heap s !! p) -> p <> next s) as Hold by (intros p ?%Hn; lia).
  assert (forall i, i ∈ ins -> in_quota i <> next s) as Hins by (intros i [? _]%Hi; by apply Hold).
  split; simpl.
  - intros p [q' Hp]. apply lookup_insert_Some in Hp as [[<- _]|[_ Hp]]; [lia|]. assert (p < next s)%nat by (apply Hn; eauto). lia.
  - intros id1 p Hp. apply lookup_insert_is_Some'. apply lookup_insert_Some in Hp as [[_ <-]|[_ Hp]]; [by left|right; eauto].
  - assert (forall id1, quotas s !! id1 <> Some (next s)) as Hnew.
    { intros id1 Hp. by apply (Hold _ (Hm _ _ Hp)). }
   
    intros id1 id2 p H1 H2. apply lookup_insert_Some in H1, H2. destruct H1 as [[<- <-]|[? H1]], H2 as [[<- H2]|[? H2]]; subst; try done.
    + by apply Hnew in H2.
    + by apply Hnew in H1.
    + by eapply Ha.
  - intros i Hin. split; [apply lookup_insert_is_Some'; right; by apply Hi|].
    destruct (Hi i Hin) as [_ ->]. destruct (decide (id' = id)) as [->|Hne].
    + rewrite lookup_insert_eq. destruct (Hid eq_refl) as [-> _]. rewrite Hq. split; [done|]. intros [= Hp]. by destruct (Hins i Hin).
    + by rewrite lookup_insert_ne.
  - destruct (decide (id' = id)) as [->|Hne].
    + destruct (Hid eq_refl) as [-> ->]. exists (next s). by rewrite !lookup_insert_eq.
    + destruct q as [q|]; [|by rewrite lookup_insert_ne]. destruct Hq as (p & Hp & Hq & Hb). exists p.
      rewrite !lookup_insert_ne; [done| |done]. apply not_eq_sym, Hold. by eexists.
Qed.

Lemma shared_inv_create ins s q id' signal b ok i s' : (id' = id -> b = burst) -> f_eq burst burst = true ->
  shared_inv ins s q -> create id' signal b ok s = (i, s') ->
  exists q', shared_inv (ins ++ option_list i)%list s' q' /\ default (newQuota burst) q' = default (newQuota burst) q.
Proof using out_of_range.
  intros Hid Hburst Hs Hc. unfold create in Hc. destruct (shared_get id' b ok s) as [p s1] eqn:Hg. injection Hc as <- <-.
  assert (forall (fresh : bool), (id' = id -> q = None) ->
    (if ok then (Some (next s), MkSharedQuotas (<[next s := newQuota b]> (heap s)) (S (next s)) (<[id' := next s]> (quotas s))) else (None, s)) = (p, s1) ->
    exists q', shared_inv (ins ++ option_list (p ← p; Some (MkInstance id' signal p)))%list s1 q'
      /\ default (newQuota burst) q' = default (newQuota burst) q) as Hfresh.
  { intros _ Hnone. destruct ok; intros [= <- <-]; simpl; [|rewrite app_nil_r; eauto].
    eexists. split.
    - apply shared_inv_instance; [apply shared_inv_fresh; [exact Hs|auto]|simpl; by rewrite lookup_insert_eq|].
      simpl. destruct (decide (id' = id)) as [->|Hne]; [by rewrite lookup_insert_eq|].
      rewrite lookup_insert_ne by done. split; [done|]. intros Hp. exfalso.
      apply (inv_map _ _ _ Hs) in Hp. apply (inv_next _ _ _ Hs) in Hp. lia.
    - destruct (decide (id' = id)) as [->|]; [|done]. by rewrite Hnone. }
  unfold shared_get in Hg. destruct (quotas s !! id') as [p0|] eqn:Hp.
  - destruct (inv_map _ _ _ Hs _ _ Hp) as [q0 Hq0]. rewrite Hq0 in Hg.
    destruct (f_eq (burstSeconds (q_registry q0)) b) eqn:He.
    + injection Hg as <- <-. exists q. split; [|done]. simpl. apply shared_inv_instance; [done|simpl; by rewrite Hq0|]. simpl.
      split; [by intros <-|]. intros Hp'. by apply (inv_apart _ _ _ Hs _ _ _ Hp).
    + apply (Hfresh true); [|done]. intros ->. exfalso. pose proof (inv_quota _ _ _ Hs) as Hq.
      destruct q as [q|]; [|congruence]. destruct Hq as (p1 & Hp1 & Hq1 & Hb). simplify_eq. rewrite Hid in He by done. congruence.
  - apply (Hfresh true); [|done]. intros ->. pose proof (inv_quota _ _ _ Hs) as Hq. destruct q; [|done]. naive_solver.
Qed.

Lemma shared_inv_consume ins s q i b e s' : shared_inv ins s q -> i ∈ ins -> consume i b s = (e, s') ->
  if decide (in_id i = id) then
    exists q0 q', q = Some q0 /\ admit_batch out_of_range (b_auth b) (in_signal i) (b_items b) (b_now b) q0 = (e, q') /\ shared_inv ins s' (Some q')
  else shared_inv ins s' q.
Proof using out_of_range.
  intros Hs Hi. unfold consume. destruct (inv_instance _ _ _ Hs i Hi) as [[q0 Hq0] Hid]. rewrite Hq0.
  destruct (admit_batch _ _ _ _ _ _) as [e1 q1] eqn:Ha. intros [= <- <-]. pose proof Hs as [Hn Hm Hap Hin Hq].
  assert (forall p, is_Some (<[in_quota i := q1]> (heap s) !! p) <-> is_Some (heap s !! p)) as Hdom.
  { intros p. rewrite lookup_insert_is_Some. split; [intros [<-|[_ ?]]; [by rewrite Hq0|done]|]. intros. destruct (decide (in_quota i = p)); auto. }
  assert (forall q2, match q2 with
      | Some q => exists p, quotas s !! id = Some p /\ <[in_quota i := q1]> (heap s) !! p = Some q /\ burstSeconds (q_registry q) = burst
      | None => quotas s !! id = None
      end -> shared_inv ins (MkSharedQuotas (<[in_quota i := q1]> (heap s)) (next s) (quotas s)) q2) as Hinv.
  { intros q2 Hq2. split; simpl; [intros p ?%Hdom; auto|intros; apply Hdom; eauto|done| |done].
    intros j [? ?]%Hin. split; [by apply Hdom|done]. }
  case_decide as Hd.
  - apply Hid in Hd. destruct q as [q|]; [|congruence]. destruct Hq as (p & Hp & Hq & Hb). simplify_eq. exists q0, q1.
    split_and!; [done|done|]. apply Hinv. eexists. rewrite lookup_insert_eq. split_and!; [done|done|].
    by rewrite (admit_batch_burst _ _ _ _ _ _ _ Ha).
  - apply Hinv. destruct q as [q|]; [|done]. destruct Hq as (p & Hp & Hq & Hb). exists p.
    rewrite lookup_insert_ne by (intros <-; tauto). done.
Qed.

Lemma outcomes_of_cons o os : outcomes_of id (o :: os) = if decide (o_id o = id) then o :: outcomes_of id os else outcomes_of id os.
Proof using out_of_range. unfold outcomes_of. rewrite filter_cons. done. Qed.

(** C40: As long as a component keeps its burst_seconds, its instances share one
    budget: what they answer to batches of logs, traces and metrics is what one
    quota answers to all of them in their order, whatever other components
    there are and however often instances are made again. *)
Theorem budget_spans_signals es : f_eq burst burst = true -> Forall same_config es ->
  let os := outcomes_of id (run_collector es [] NewFactory) in o_error <$> os = one_quota os (newQuota burst).
Proof using out_of_range.
  intros Hburst. cbn zeta.
  assert (forall ins s q, Forall same_config es -> shared_inv ins s q ->
    let os := outcomes_of id (run_collector es ins s) in o_error <$> os = one_quota os (default (newQuota burst) q)) as Hall.
  { induction es as [|ev es' IH]; intros ins s q Hes Hs; [done|]. apply Forall_cons in Hes as [He Hes]. cbn zeta.
    destruct ev as [id' signal b ok|k b]; simpl.
    - destruct (create id' signal b ok s) as [i s'] eqn:Hc.
      destruct (shared_inv_create _ _ _ _ _ _ _ _ _ He Hburst Hs Hc) as (q' & Hs' & <-). by apply IH.
    - destruct (ins !! k) as [i|] eqn:Hk; [|by apply IH]. apply list_elem_of_lookup_2 in Hk.
      destruct (consume i b s) as [e s'] eqn:Hc. apply (shared_inv_consume _ _ _ _ _ _ _ Hs Hk) in Hc.
      rewrite outcomes_of_cons. simpl. case_decide as Hd; [|by apply IH].
      destruct Hc as (q0 & q' & -> & Ha & Hs'). simpl. rewrite Ha. f_equal. by apply (IH ins s' (Some q')). }
  intros Hes. apply (Hall [] NewFactory None Hes). split; try done; simpl.
  - by intros p [? ?].
  - by intros i ?%not_elem_of_nil.
Qed.
End component.
End factory.

(** ** Concrete collectors *)

Definition ex_auth (limit : Z) : option AuthData := Some (fun name =>
  if bool_decide (name = AttrTenantID) then AStr "acme" else if bool_decide (name = AttrRateLimitItemsPerSec) then AInt64 limit else ANil).

Definition ex_events {F} (burst : F) : list event :=
  [Create "tenantquota" "logs" burst true; Create "tenantquota" "traces" burst true; Create "tenantquota/eu" "logs" burst true;
   Batch 0 (MkBatch (ex_auth 10) 15 0); Batch 2 (MkBatch (ex_auth 10) 15 0); Batch 1 (MkBatch (ex_auth 10) 15 0);
   Create "tenantquota" "metrics" burst true; Batch 3 (MkBatch (ex_auth 10) 6 0); Batch 3 (MkBatch (ex_auth 10) 5 0)].

(** 20 items of burst for logs, traces and metrics together. *)
Lemma budget_spans_signals_witness :
  let run := run_collector (fun _ => 0%Z) (ex_events (float_of_Z 2)) [] NewFactory in
  let os := outcomes_of "tenantquota" run in
  (fun o => bool_decide (is_Some (o_error o))) <$> os = [false; true; true; false]
  /\ o_error <$> os = one_quota (fun _ => 0%Z) os (newQuota (float_of_Z 2)).
Proof.
  split; [by vm_compute|].
  apply (budget_spans_signals (fun _ => 0%Z) "tenantquota" (float_of_Z 2)); [by vm_compute|]. by repeat constructor.
Defined.

(** A burst_seconds that is not a number is valid, gives every signal a budget of
    its own, and rejects whatever is sent. *)
Example nan_burst_seconds :
  let os := run_collector (fun _ => 0%Z) (ex_events S754_nan) [] NewFactory in
  Config_Validate S754_nan = None
  /\ (in_quota <$> (create "tenantquota" "traces" S754_nan true (create "tenantquota" "logs" S754_nan true NewFactory).2).1) = Some 1%nat
  /\ forallb (fun o => bool_decide (is_Some (o_error o))) os = true.
Proof. by vm_compute. Qed.
