(* ===== verification/ServerProgram.v ===== *)
(** The server program (cmd/otel-fleet/main.go) around the modelled parts: its
    start, what runs in each role, the TLS of its listeners
    (internal/tlsconf), the wait for the database, and the notifications that
    carry edge-config changes between the tiers (internal/pgnotify), and the
    handler of the ops listener (internal/api/ops.go). *)
From S2P Require Import Prelude GoStrings StoreTypes Crypto Telemetry Config HttpFront.

Open Scope string_scope.
Open Scope go_scope.

(** ** internal/pgnotify *)

Definition EdgeConfigChannel : string := "otel_fleet_edge_config".

Inductive listen_err : Type := AcquireErr | ListenErr | WaitErr.

(** A session with the database: whether a connection is acquired and LISTEN
    runs, the payloads that arrive until it breaks. *)
Record session : Type := MkSession {
  acquired : bool;
  listening : bool;
  arriving : list string
}.

(** The payloads handled, and the error it returns: the loop ends with the
    connection. *)
Definition listenOnce (s : session) : list string * option listen_err :=
  if negb (acquired s) then ([], Some AcquireErr)
  else if negb (listening s) then ([], Some ListenErr)
  else (arriving s, Some WaitErr).

(** A round of [Listen]: a session, and whether the context has ended when it
    returns, or ends during the wait after it. *)
Record round : Type := MkRound { rd_session : session; rd_ended : bool; rd_ended_waiting : bool }.

(** The payloads handled and the waits between the sessions. *)
Fixpoint listen_loop (backoff : Z) (rounds : list round) : list string * list Z :=
  match rounds with
  | [] => ([], [])
  | r :: rounds =>
      let '(handled, err) := listenOnce (rd_session r) in
      if bool_decide (is_Some err) && negb (rd_ended r) then
        if rd_ended_waiting r then (handled, [backoff])
        else
          let rest := listen_loop (if (backoff <? 30 * second)%Z then backoff * 2 else backoff)%Z rounds in
          ((handled ++ rest.1)%list, backoff :: rest.2)
      else if rd_ended r then (handled, [])
      else let rest := listen_loop second rounds in ((handled ++ rest.1)%list, rest.2)
  end.

Definition Listen (rounds : list round) : list string * list Z := listen_loop second rounds.

Lemma listenOnce_error s : is_Some (listenOnce s).2.
Proof. unfold listenOnce. by destruct (acquired s), (listening s). Qed.

(** The n-th wait of a listener that has lost its connection. *)
Definition wait (n : nat) : Z := (Z.min (2 ^ Z.of_nat n) 32 * second)%Z.

Lemma wait_next n : (if (wait n <? 30 * second)%Z then wait n * 2 else wait n)%Z = wait (S n).
Proof.
  destruct (decide (n < 5)%nat) as [Hn|Hn].
  - destruct n as [|[|[|[|[|n]]]]]; try done; lia.
  - assert (forall m, (5 <= m)%nat -> wait m = (32 * second)%Z) as Hw.
    { intros m Hm. unfold wait. rewrite Z.min_r; [done|]. change 32%Z with (2 ^ 5)%Z. apply Z.pow_le_mono_r; lia. }
    rewrite !Hw by lia. done.
Qed.

(** The waits grow to 32 seconds, above the 30 the code compares with, and stay
    there: a session that delivered for days does not start them over, because
    a session always ends with an error. *)
Theorem waits_never_start_over rounds : Forall (fun r => rd_ended r = false /\ rd_ended_waiting r = false) rounds ->
  (Listen rounds).2 = wait <$> seq 0 (length rounds)
  /\ (Listen rounds).1 = rounds ≫= (fun r => (listenOnce (rd_session r)).1).
Proof.
  intros Hr. unfold Listen. change second with (wait 0). generalize 0%nat as n.
  induction Hr as [|r rounds [H1 H2] _ IH]; intros n; [done|]. simpl.
  destruct (listenOnce_error (rd_session r)) as [e He].
  destruct (listenOnce (rd_session r)) as [handled err] eqn:Hl. simpl in He. subst err.
  rewrite H1, H2, wait_next. simpl. destruct (IH (S n)) as [-> ->]. done.
Qed.

(** [edgeNotifier] and the callback of main.go: the customers pushed to. *)
Section announcements.
Context (uuid_string : N -> string) (uuid_parse : string -> option N).

Definition edge_payload (customerID : N) : string := uuid_string customerID.
Definition on_notification (payload : string) : option N := uuid_parse payload.

(** What is announced while the listener is connected arrives, in order; what is
    announced while it waits is lost. *)
Definition announced_sessions (connected : list (list N)) : list round :=
  (fun ids => MkRound (MkSession true true (edge_payload <$> ids)) false false) <$> connected.

Lemma announced_arrive connected : (forall id, uuid_parse (uuid_string id) = Some id) ->
  omap on_notification (Listen (announced_sessions connected)).1 = concat connected.
Proof using Type.
  intros Hu. assert (Forall (fun r => rd_ended r = false /\ rd_ended_waiting r = false) (announced_sessions connected)) as Hf.
  { unfold announced_sessions. apply Forall_fmap, Forall_true. done. }
  destruct (waits_never_start_over _ Hf) as [_ ->]. clear Hf.
  induction connected as [|ids connected IH]; [done|]. simpl. rewrite omap_app. f_equal; [|exact IH].
  induction ids as [|id ids IHi]; [done|]. simpl. unfold on_notification at 1, edge_payload at 1. rewrite Hu. by f_equal.
Qed.
End announcements.

(** ** internal/tlsconf *)

Inductive clientAuth : Type := NoClientCert | RequireAndVerifyClientCert.

Inductive tls_err : Type :=
| BothFilesRequired
| LoadKeyPair
| ReadClientCA
| NoCertificates (clientCAFile : string).

Section tls.
(** crypto/tls and crypto/x509 on the files. *)
Context {Cert Pool : Type} (LoadX509KeyPair : string -> string -> option Cert).
Context (ReadFile : string -> option string) (AppendCertsFromPEM : string -> option Pool).

Record tlsConfig : Type := MkTlsConfig {
  Certificates : list Cert;
  MinVersion : Z;
  ClientCAs : option Pool;
  ClientAuth : clientAuth
}.

Definition VersionTLS12 : Z := 771.

Definition Server (certFile keyFile : string) : result (option tlsConfig) tls_err :=
  if bool_decide (certFile = "") && bool_decide (keyFile = "") then Ok None
  else if bool_decide (certFile = "") || bool_decide (keyFile = "") then Err BothFilesRequired
  else match LoadX509KeyPair certFile keyFile with
       | None => Err LoadKeyPair
       | Some cert => Ok (Some (MkTlsConfig [cert] VersionTLS12 None NoClientCert))
       end.

Definition MutualServer (certFile keyFile clientCAFile : string) : result (option tlsConfig) tls_err :=
  match Server certFile keyFile with
  | Err e => Err e
  | Ok None => Ok None
  | Ok (Some cfg) =>
      if bool_decide (clientCAFile = "") then Ok (Some cfg)
      else match ReadFile clientCAFile with
           | None => Err ReadClientCA
           | Some pem =>
               match AppendCertsFromPEM pem with
               | None => Err (NoCertificates clientCAFile)
               | Some pool => Ok (Some (MkTlsConfig (Certificates cfg) (MinVersion cfg) (Some pool) RequireAndVerifyClientCert))
               end
           end
  end.

(** *** The listeners of main.go *)

Inductive listener_err : Type :=
| PublicTLS (e : tls_err)
| GrpcTLS (e : tls_err)
| ClientCANeedsCert
| OpampMTLS (e : tls_err).

Record listeners : Type := MkListeners {
  publicTLS : option tlsConfig;
  grpcTLS : option tlsConfig;
  opampTLS : option tlsConfig
}.

Definition listener_tls (cfg : Config) : result listeners listener_err :=
  match Server (TLSCertFile cfg) (TLSKeyFile cfg) with
  | Err e => Err (PublicTLS e)
  | Ok public =>
      match MutualServer (GRPCTLSCertFile cfg) (GRPCTLSKeyFile cfg) (GRPCClientCAFile cfg) with
      | Err e => Err (GrpcTLS e)
      | Ok grpc =>
          if negb (bool_decide (OpAMPClientCAFile cfg = "")) then
            if bool_decide (TLSCertFile cfg = "") then Err ClientCANeedsCert
            else match MutualServer (TLSCertFile cfg) (TLSKeyFile cfg) (OpAMPClientCAFile cfg) with
                 | Err e => Err (OpampMTLS e)
                 | Ok opamp => Ok (MkListeners public grpc opamp)
                 end
          else Ok (MkListeners public grpc public)
      end
  end.

(** The certificates of clients are asked for and checked against the pool of a
    file. *)
Definition verifies_clients (clientCAFile : string) (c : tlsConfig) : Prop :=
  ClientAuth c = RequireAndVerifyClientCert /\
  exists pem pool, ReadFile clientCAFile = Some pem /\ AppendCertsFromPEM pem = Some pool /\ ClientCAs c = Some pool.

Definition serves (cert key : string) (c : tlsConfig) : Prop :=
  MinVersion c = VersionTLS12 /\ exists pair, LoadX509KeyPair cert key = Some pair /\ Certificates c = [pair].

Lemma Server_spec cert key o : Server cert key = Ok o ->
  match o with
  | None => cert = "" /\ key = ""
  | Some c => cert <> "" /\ key <> "" /\ serves cert key c /\ ClientAuth c = NoClientCert
  end.
Proof using Type.
  unfold Server. destruct (decide (cert = "")) as [Hc|Hc], (decide (key = "")) as [Hk|Hk];
    rewrite ?(bool_decide_true _ Hc), ?(bool_decide_true _ Hk), ?(bool_decide_false _ Hc), ?(bool_decide_false _ Hk); simpl;
    [by intros [= <-]|done|done|].
  destruct (LoadX509KeyPair cert key) as [pair|] eqn:Hl; [|done]. intros [= <-]. split_and!; try done. split; [done|eauto].
Qed.

Lemma MutualServer_spec cert key ca o : MutualServer cert key ca = Ok o ->
  match o with
  | None => cert = "" /\ key = ""
  | Some c => cert <> "" /\ key <> "" /\ serves cert key c /\ (ca <> "" -> verifies_clients ca c)
  end.
Proof using Type.
  unfold MutualServer. destruct (Server cert key) as [o1|] eqn:Hs; [|done]. apply Server_spec in Hs.
  destruct o1 as [c|]; [|by intros [= <-]]. destruct Hs as (? & ? & Hserves & _).
  case_bool_decide as Hca; [by intros [= <-]|].
  destruct (ReadFile ca) as [pem|] eqn:Hr; [|done]. destruct (AppendCertsFromPEM pem) as [pool|] eqn:Ha; [|done].
  intros [= <-]. split_and!; [done|done|by destruct Hserves|]. intros _. split; [done|]. by exists pem, pool.
Qed.

(** A server that gets past its TLS setup serves TLS where a certificate is
    configured and plain text elsewhere; agents are verified whenever their CA
    is configured, gateways when the internal listener has a certificate. *)
Theorem listeners_as_configured cfg ls : listener_tls cfg = Ok ls ->
  (publicTLS ls = None <-> TLSCertFile cfg = "") /\ (grpcTLS ls = None <-> GRPCTLSCertFile cfg = "")
  /\ (forall c, publicTLS ls = Some c -> serves (TLSCertFile cfg) (TLSKeyFile cfg) c)
  /\ (forall c, grpcTLS ls = Some c -> serves (GRPCTLSCertFile cfg) (GRPCTLSKeyFile cfg) c
        /\ (GRPCClientCAFile cfg <> "" -> verifies_clients (GRPCClientCAFile cfg) c))
  /\ (OpAMPClientCAFile cfg = "" -> opampTLS ls = publicTLS ls)
  /\ (OpAMPClientCAFile cfg <> "" -> exists c, opampTLS ls = Some c
        /\ serves (TLSCertFile cfg) (TLSKeyFile cfg) c /\ verifies_clients (OpAMPClientCAFile cfg) c).
Proof using Type.
  unfold listener_tls. destruct (Server _ _) as [public|] eqn:Hp; [|done]. apply Server_spec in Hp.
  destruct (MutualServer (GRPCTLSCertFile cfg) _ _) as [grpc|] eqn:Hg; [|done]. apply MutualServer_spec in Hg.
  intros Hls. assert (exists opamp, ls = MkListeners public grpc opamp /\ (OpAMPClientCAFile cfg = "" -> opamp = public)
    /\ (OpAMPClientCAFile cfg <> "" -> exists c, opamp = Some c /\ serves (TLSCertFile cfg) (TLSKeyFile cfg) c
          /\ verifies_clients (OpAMPClientCAFile cfg) c)) as (opamp & -> & H1 & H2).
  { revert Hls. case_bool_decide as Ho; simpl; [intros [= <-]; by exists public|].
    case_bool_decide as Hc; [done|]. destruct (MutualServer (TLSCertFile cfg) _ _) as [opamp|] eqn:Hm; [|done].
    apply MutualServer_spec in Hm. intros [= <-]. exists opamp. split_and!; [done|done|]. intros _.
    destruct opamp as [c|]; [|by destruct Hm]. destruct Hm as (_ & _ & Hs & Hv). exists c. auto. }
  clear Hls. simpl. split_and!; [destruct public; naive_solver|destruct grpc; naive_solver| | |done|done].
  - intros c ->. naive_solver.
  - intros c ->. naive_solver.
Qed.
End tls.

(** ** Waiting for the database *)

Inductive db_err : Type := PingFailed | ContextEnded.

(** A ping: its result, the clock after it, and whether the context has ended
    by then, or ends in the half second that follows. *)
Record ping : Type := MkPing { pg_ok : bool; pg_after : Z; pg_ended : bool; pg_ended_waiting : bool }.

Definition pingPause : Z := 500 * millisecond.

(** [None]: the pings given are not enough. *)
Fixpoint wait_for_db (deadline : Z) (pings : list ping) : option (result unit db_err) :=
  match pings with
  | [] => None
  | p :: pings =>
      if pg_ok p then Some (Ok tt)
      else if (deadline <? pg_after p)%Z || pg_ended p then Some (Err PingFailed)
      else if pg_ended_waiting p then Some (Err ContextEnded)
      else wait_for_db deadline pings
  end.

Definition waitForDB (start timeout : Z) (pings : list ping) : option (result unit db_err) :=
  wait_for_db (start + timeout) pings.

Fixpoint spaced (t : Z) (pings : list ping) : Prop :=
  match pings with
  | [] => True
  | p :: pings => (t <= pg_after p)%Z /\ spaced (pg_after p + pingPause) pings
  end.

(** The wait of the start (15 s) is over after at most 32 pings. *)
Lemma waitForDB_ends start timeout pings : (0 <= timeout)%Z -> spaced start pings ->
  (timeout / pingPause + 2 <= Z.of_nat (length pings))%Z -> is_Some (waitForDB start timeout pings).
Proof.
  intros Ht. unfold waitForDB. assert (0 < pingPause)%Z as Hp by done.
  assert (forall t, spaced t pings -> (t <= start + timeout + pingPause)%Z -> (start + timeout - t < (Z.of_nat (length pings) - 1) * pingPause)%Z ->
    is_Some (wait_for_db (start + timeout) pings)) as Hall.
  { induction pings as [|p pings IH]; intros t; simpl; [lia|]. intros [Hle Hs] Hlt Hlen.
    destruct (pg_ok p); [done|]. destruct (Z.ltb_spec (start + timeout) (pg_after p)); simpl; [done|].
    destruct (pg_ended p); [done|]. destruct (pg_ended_waiting p); [done|]. apply (IH _ Hs); lia. }
  intros Hs Hn. apply (Hall start Hs); [lia|]. pose proof (Z.mod_pos_bound timeout pingPause Hp).
  pose proof (Z.div_mod timeout pingPause). nia.
Qed.

(** ** run *)

Inductive run_err : Type :=
| LoadConfig (e : load_err)
| CreatePool
| DatabaseUnreachable (e : db_err)
| Migrations
| MasterKey (e : crypto_err)
| ClickHouseOptions
| K8sDistributorErr
| Listeners (e : listener_err)
| ListenGRPC.

(** The goroutines of the process. *)
Inductive worker : Type :=
| OpsServer
| HTTPServer
| GRPCServer
| IngestFlush
| OpAMPServer
| EdgeListener
| WebhookWorker
| RetentionElector
| AlertingElector
| ShutdownWatcher.

#[global] Instance worker_eq_dec : EqDecision worker.
Proof. solve_decision. Defined.

Definition workers (cfg : Config) : list worker :=
  ([OpsServer] ++ (if RunsAPI cfg then [HTTPServer; GRPCServer; IngestFlush] else [])
   ++ (if RunsOpAMP cfg then [OpAMPServer; EdgeListener; WebhookWorker; RetentionElector; AlertingElector] else [])
   ++ [ShutdownWatcher])%list.

Section run.
Context {Cert Pool Conn : Type} (LoadX509KeyPair : string -> string -> option Cert).
Context (ReadFile : string -> option string) (AppendCertsFromPEM : string -> option Pool).

(** What the process meets when it starts. *)
Record machine : Type := MkMachine {
  mc_pool : bool;
  mc_now : Z;
  mc_pings : list ping;
  mc_migrate : bool;
  mc_open : Region -> option Conn;
  mc_k8s : bool;
  mc_listen : bool
}.

Record started : Type := MkStarted {
  st_config : Config;
  st_cipher : option Cipher;
  st_regions : Registry Conn;
  st_listeners : listeners (Cert := Cert) (Pool := Pool);
  st_workers : list worker
}.

Definition open_cipher (cfg : Config) : result (option Cipher) crypto_err :=
  if bool_decide (MasterKeyBase64 cfg = "") then Ok None
  else match NewWithSecondaries (MasterKeyBase64 cfg) (MasterKeySecondary cfg) with
       | Ok c => Ok (Some c)
       | Err e => Err e
       end.

(** [None]: it is still waiting for the database. *)
Definition run (loaded : result Config load_err) (m : machine) : option (result started run_err) :=
  match loaded with
  | Err e => Some (Err (LoadConfig e))
  | Ok cfg =>
      if negb (mc_pool m) then Some (Err CreatePool)
      else
        match waitForDB (mc_now m) (15 * second) (mc_pings m) with
        | None => None
        | Some (Err e) => Some (Err (DatabaseUnreachable e))
        | Some (Ok _) =>
            if negb (mc_migrate m) then Some (Err Migrations)
            else match open_cipher cfg with
            | Err e => Some (Err (MasterKey e))
            | Ok cipher =>
                match region_stores (mc_open m) cfg with
                | None => Some (Err ClickHouseOptions)
                | Some regions =>
                    if bool_decide (Distributor cfg = "k8s") && negb (mc_k8s m) then Some (Err K8sDistributorErr)
                    else match listener_tls LoadX509KeyPair ReadFile AppendCertsFromPEM cfg with
                    | Err e => Some (Err (Listeners e))
                    | Ok ls =>
                        if RunsAPI cfg && negb (mc_listen m) then Some (Err ListenGRPC)
                        else Some (Ok (MkStarted cfg cipher regions ls (workers cfg)))
                    end
                end
            end
        end
  end.

(** The tier of a worker. *)
Definition runs_on (cfg : Config) (w : worker) : bool :=
  match w with
  | OpsServer | ShutdownWatcher => true
  | HTTPServer | GRPCServer | IngestFlush => RunsAPI cfg
  | _ => RunsOpAMP cfg
  end.

Lemma workers_once cfg : NoDup (workers cfg) /\ forall w, w ∈ workers cfg <-> runs_on cfg w = true.
Proof using Type.
  unfold workers, runs_on. destruct (RunsAPI cfg), (RunsOpAMP cfg); (split; [by apply (bool_decide_unpack _); vm_compute|]);
    intros w; destruct w; simpl; set_solver.
Qed.

(** What a process that has started has: the database answered, secrets can be
    sealed iff a master key is set, every configured region is open, TLS is as
    configured, and exactly the workers of its role run. *)
Theorem started_as_configured loaded m st : run loaded m = Some (Ok st) ->
  let cfg := st_config st in
  loaded = Ok cfg /\ (exists p, p ∈ mc_pings m /\ pg_ok p = true)
  /\ (st_cipher st = None <-> MasterKeyBase64 cfg = "")
  /\ region_stores (mc_open m) cfg = Some (st_regions st)
  /\ listener_tls LoadX509KeyPair ReadFile AppendCertsFromPEM cfg = Ok (st_listeners st)
  /\ NoDup (st_workers st) /\ forall w, w ∈ st_workers st <-> runs_on cfg w = true.
Proof using Type.
  unfold run. destruct loaded as [cfg|]; [|done]. destruct (negb (mc_pool m)); [done|].
  destruct (waitForDB _ _ _) as [[[]|]|] eqn:Hw; [|done..]. destruct (negb (mc_migrate m)); [done|].
  destruct (open_cipher cfg) as [cipher|] eqn:Hc; [|done]. destruct (region_stores _ _) as [regions|] eqn:Hr; [|done].
  destruct (bool_decide _ && _); [done|]. destruct (listener_tls _ _ _ _) as [ls|] eqn:Hl; [|done].
  destruct (RunsAPI cfg && _); [done|]. intros [= <-]. simpl. split_and!; try done; try apply workers_once.
  - unfold waitForDB in Hw. induction (mc_pings m) as [|p ps IH]; [done|]. simpl in Hw. destruct (pg_ok p) eqn:Hp.
    + exists p. split; [left|done].
    + destruct (_ || _); [done|]. destruct (pg_ended_waiting p); [done|]. destruct (IH Hw) as (p' & ? & ?).
      exists p'. split; [by right|done].
  - revert Hc. unfold open_cipher. case_bool_decide; [by intros [= <-]|].
    destruct (NewWithSecondaries _ _); [|done]. by intros [= <-].
Qed.
End run.

(** ** internal/api/ops.go *)

Inductive ops_answer : Type :=
| OpsMetrics
| OpsText (status : Z) (body : string)
| OpsConfig (yaml : string)
| OpsRedirect (path : string)
| OpsNotFound
| OpsMethodNotAllowed.

Definition forwardingPath : string := "/internal/v1/collector-config/forwarding".

(** [http.Error] ends its text with a newline. *)
Definition http_error (status : Z) (text : string) : ops_answer := OpsText status (text +:+ String (byte_of 10) "").

(** [http.ServeMux] matches the cleaned path, and redirects to it first. *)
Definition mux_clean (path : string) : string :=
  let p := path200 path in
  if has_suffix "/" path && negb (bool_decide (p = "/")) then p +:+ "/" else p.

(** [ready] and [forwardingConfig] answer or fail with a message; without a
    renderer there is no such route. *)
Definition NewOpsHandler (ready : option string) (forwardingConfig : option (result string string)) (method path : string)
  : ops_answer :=
  if negb (bool_decide (method = "CONNECT")) && negb (bool_decide (mux_clean path = path)) then OpsRedirect (mux_clean path)
  else if bool_decide (path = "/metrics") then OpsMetrics
  else if bool_decide (path = forwardingPath) then
    match forwardingConfig with
    | None => OpsNotFound
    | Some render =>
        if bool_decide (method ∈ ["GET"; "HEAD"]) then
          match render with
          | Err e => http_error 503 ("render forwarding config: " +:+ e)
          | Ok yaml => OpsConfig yaml
          end
        else OpsMethodNotAllowed
    end
  else if bool_decide (path = "/healthz") then OpsText 200 "ok"
  else if bool_decide (path = "/readyz") then
    match ready with Some e => http_error 503 ("not ready: " +:+ e) | None => OpsText 200 "ready" end
  else OpsNotFound.

(** The config, which holds credentials, is sent for one path and as it was
    rendered. *)
Lemma ops_config ready forwardingConfig method path yaml :
  NewOpsHandler ready forwardingConfig method path = OpsConfig yaml ->
  path = forwardingPath /\ forwardingConfig = Some (Ok yaml) /\ (method = "GET" \/ method = "HEAD").
Proof.
  unfold NewOpsHandler. destruct (_ && _); [done|]. case_bool_decide as H1; [done|]. case_bool_decide as H2.
  - destruct forwardingConfig as [[|]|]; [|by case_bool_decide|done]. case_bool_decide as H3; [|done]. intros [= ->].
    split_and!; [done|done|]. set_solver.
  - repeat (case_bool_decide; [by destruct ready|]). done.
Qed.

(** ** Concrete starts *)

Definition with_grpc_ca (ca : string) (vars : list (string * string)) : result Config load_err := ex_load (("GRPC_CLIENT_CA_FILE", ca) :: vars).

(** The CA for gateways without a certificate for the internal listener: the
    server starts, and the listener is plain text and asks nobody for a
    certificate. *)
Example grpc_client_ca_ignored :
  let tls := listener_tls (fun _ _ => Some tt) (fun _ => Some "pem") (fun _ => Some tt) in
  match with_grpc_ca "/etc/ca.pem" [] with
  | Ok cfg => GRPCClientCAFile cfg = "/etc/ca.pem" /\ match tls cfg with Ok ls => grpcTLS ls = None | Err _ => False end
  | Err _ => False
  end.
Proof. by vm_compute. Qed.

(** The same for agents is refused. *)
Example opamp_client_ca_refused :
  match ex_load [("OPAMP_CLIENT_CA_FILE", "/etc/ca.pem")] with
  | Ok cfg => listener_tls (fun _ _ => Some tt) (fun _ => Some "pem") (fun _ => Some tt) cfg = Err ClientCANeedsCert
  | Err _ => False
  end.
Proof. by vm_compute. Qed.
